(* ===== verification/_CoqProject ===== *)
-Q . S2P
Prelude.v
NetBytes.v
Sha1.v
Types.v
Checksum.v
Packet.v
Arp.v
LanClient.v
LanClientSafety.v
Ipv4.v
Helper.v
Options.v
LanPlay.v
EventLoop.v
Main.v
UvTcp.v
UvTcpFacts.v
UvStream.v
UvLife.v
UvLwip.v
LwipChksum.v
LwipPbuf.v
LwipPbufWrite.v
LwipPbufRefs.v
LwipPbufLife.v
LwipPbufCopy.v
LwipPbufClient.v
LwipTcp.v
LwipTcpOut.v
LwipTcpApi.v
LwipTcpIn.v
LwipTcpProcess.v
LwipTcpTimer.v
LwipTcpPcbs.v
LwipTcpExamples.v
LwipTcpFaults.v
LwipTcpSeq.v
LwipTcpStays.v
LwipTcpPlace.v
LwipTcpLinks.v
LwipTcpPorts.v
LwipTcpSane.v
LwipTcpBind.v
LwipTcpCalls.v
LwipTcpLoops.v
LwipTcpStack.v
LwipTcpStackRuns.v
LwipTcpKept.v
LwipTcpRx.v
LwipTcpDeliver.v
LwipTcpStream.v
LwipTcpOptions.v
LwipTcpTx.v
LwipTcpOutput.v
LwipTcpAck.v
LwipTcpFrame.v
LwipTcpSession.v
LwipTcpStates.v
