(* ===== verification/Prelude.v ===== *)
(** Verification of the LAN-play client: [client-switch-lan-play/] (C), its
    glue to lwIP [uv_lwip/], and the checksums, packet buffers and TCP of lwIP
    they rely on.

    * The program

    The client joins game consoles on different local networks.  It captures
    the Ethernet frames of its LAN, answers ARP and ping for its own address
    (10.13.37.1), and sends the IPv4 packets for other consoles of 10.13/16 to
    a relay server over UDP, in fragments where the path MTU asks for it.  The
    packets of the relay are reassembled, given an Ethernet header and put on
    the LAN.  TCP connections of the consoles to the rest of the world end in
    the gateway, which runs them through lwIP ([uv_lwip]).  libuv calls one
    handler at a time; there are no threads in the modelled code.

    * Files and sources

    Each operation has the name of its C function.  Paths are under [src/];
    [csl] stands for [client-switch-lan-play].

    - [Prelude]: the result type (a C call returns or stops the program with a
      [fault]), the state monad, machine integers, memory as lists of bytes,
      the hint databases and tactics all files share.
    - [NetBytes]: [base/include/base/byteorder.h], the macros of [csl/helper.h].
    - [Sha1]: [csl/sha1.c].
    - [Types]: the structures of [csl/packet.h], [lan-play.h], [arp.h],
      [config.h]; the state [world], the trace of calls that leave the program
      and the environment [Env] that answers them.
    - [Checksum]: the two checksum routines of [csl/ipv4/ipv4.c], and the
      definition of RFC 1071 (module [Rfc1071]).
    - [Packet]: sending and parsing Ethernet frames, [csl/packet.c].
    - [Arp]: [csl/arp.c]; the class [NeighbourCache] states what a cache
      promises as a table, the array of the program is shown to be an instance.
    - [LanClient], [LanClientSafety]: [csl/lan-client.c], first its model with
      sending, fragmentation and reassembly, then login, start-up, the
      invariant and the datagrams that break it.
    - [Ipv4]: routing of IPv4 packets, ICMP and UDP, [csl/ipv4/].
    - [Helper]: addresses as text, [csl/helper.c].
    - [Options]: the command line, [csl/main.c].
    - [LanPlay]: the capture handler and the life cycle, [csl/packet.c],
      [csl/lan-play.c].
    - [EventLoop]: the client as a state machine over its four handlers.
    - [Main]: the entry points of [csl/main.c].
    - [UvTcp]: a connection of the gateway, the [uvl_tcp_t] half of
      [uv_lwip/uv_lwip.c]; [UvTcpFacts]: the queue of its write requests;
      [UvStream]: a connection as a state machine over the calls of its owner,
      lwIP and libuv, and the theorems on its two streams; [UvLife]: its whole
      life, with errors, the close of the peer and that of the owner.
    - [UvLwip]: the network interface of the gateway, the [uvl_t] half of
      [uv_lwip/uv_lwip.c].
    - [LwipChksum]: [lwip/src/core/inet_chksum.c].
    - [LwipPbuf]: [lwip/src/core/pbuf.c] as a heap of linked buffers, with the
      operations that read a packet; [LwipPbufWrite]: filling, joining, headers;
      [LwipPbufRefs]: the reference counts; [LwipPbufLife]: allocation,
      splitting, shortening; [LwipPbufCopy]: copying one chain into another;
      [LwipPbufClient]: sequences of calls, and the packets [uvl_input] builds.
    - [LwipTcp]: the data of a TCP connection of lwIP, [tcp.h],
      [priv/tcp_priv.h] and [prot/tcp.h] under [lwip/src/include/lwip], and the
      helpers of [lwip/src/core/tcp.c] the others use; [LwipTcpOut]:
      [tcp_out.c]; [LwipTcpApi]: closing, aborting, the window and refused data
      of [tcp.c]; [LwipTcpIn]: [tcp_receive] of [tcp_in.c]; [LwipTcpProcess]:
      its options, state machine and entry points; [LwipTcpTimer]: the timers
      of [tcp.c].  These six are the model of one connection.
    - [LwipTcpPcbs]: all control blocks, the rest of [tcp.c] and of
      [tcp_input]: allocation, binding, listening, connecting, ports, the choice
      of the control block, the timers.
    - [LwipTcpExamples]: concrete connections; [LwipTcpFaults]: runs of them
      that go wrong.
    - [LwipTcpStays], [LwipTcpPlace]: the list one connection is on;
      [LwipTcpLinks]: linked lists; [LwipTcpPorts]: [tcp_new_port];
      [LwipTcpSane]: the invariant of all control blocks and the class
      [WellBehaved] of applications; [LwipTcpBind]: binding; [LwipTcpCalls]: every call keeps the
      invariant; [LwipTcpLoops]: the timers; [LwipTcpStack]: sequences of calls,
      and how the two models fit; [LwipTcpStackRuns]: concrete runs, and runs
      that go wrong.
    - [LwipTcpSeq]: 32-bit numbers as positions in a stream; [LwipTcpKept],
      [LwipTcpFrame]: what calls leave alone; [LwipTcpRx], [LwipTcpDeliver],
      [LwipTcpStream]: receiving; [LwipTcpOptions]: options; [LwipTcpTx]:
      [tcp_write]; [LwipTcpOutput]: [tcp_output]; [LwipTcpAck]:
      acknowledgements; [LwipTcpSession]: an open connection with its
      application and its peer; [LwipTcpStates]: the state diagram.

    * What is shown

    - Packets: a packet handed to the relay client of one LAN arrives
      unchanged, once, at the right neighbour of another LAN, whatever the
      fragmentation and the order of the fragments
      ([LanClient.relayed_packet_arrives] and the theorems on sending,
      reassembly and delivery); routing of LAN packets, with what is learnt from
      them, pings of the client and a neighbour that expires meanwhile included
      ([Ipv4.process_ipv4_routes]); what is built is parsed back ([Packet],
      [Ipv4]).
    - Safety: from a well-formed state no sequence of inputs stops the client
      ([EventLoop.event_loop_safe]); its hypothesis on the inputs (frames and
      datagrams carry what their headers announce) is needed: the theorems on
      unsafe fragments, messages and ICMP lengths give inputs that do stop it.
    - Refinement: the ARP cache implements a map with expiry times ([Arp]).
    - Equivalence with references: SHA-1 with FIPS 180, the three checksum
      implementations with RFC 1071, the subnet tests with bytewise ones.
    - Gateway: every byte submitted to a connection reaches lwIP once and in
      order, a request completes only when its bytes are acknowledged, closing
      reports every request exactly once, received bytes are delivered in
      order ([UvStream]); over the whole life of a connection, errors and closing
      from either side included, no call faults as long as [tcp_write] answers
      [ERR_OK] or [ERR_MEM] ([UvLife]); packets go in and out of lwIP whole
      ([UvLwip]).  Two error paths violate this and are stated as they are: a
      peer that closes loses data that waits, a fatal [tcp_write] uses a null
      pointer.
    - Packet buffers of lwIP: a chain of buffers is treated as the bytes it
      holds by every operation, whatever the lengths of the buffers; reference
      counts are right after every call, nothing in use is freed and nothing
      leaks ([LwipPbufClient.packet_calls_safe]).  Two places break this and are
      shown on concrete chains: a tail of 256 buffers in [pbuf_dechain], the
      flags [pbuf_alloc] has not yet set when a pool refuses.
    - TCP of lwIP: [tcp_write] queues all of its bytes or none, what
      [tcp_output] sends is a piece of the stream within the windows, an
      acknowledgement frees the segments it covers and no others, data arrives
      in order without gaps however the peer cuts, repeats and reorders it.
      [LwipTcpSession] composes these: over the runs of an open connection within
      [allowed] (duplicate acknowledgements and retransmissions included) the
      code does not fault, its control block is well formed, and both streams
      are right.  A segment moves a connection only along the state diagram
      ([LwipTcpStates]).  What [allowed] excludes and [LwipTcpFaults] shows on
      concrete runs: failed assertions, a read behind the packet, freed memory
      and a corrupted stream.
    - All control blocks of lwIP: after calls, segments and timers that keep to
      the rules of [LwipTcpStack.call] no control block is lost from its list, on
      two lists, or freed while on one ([LwipTcpStack.pcb_lists_sane]); a segment for one of many connections does
      to it what the model of one connection says and leaves the others alone
      ([LwipTcpStack.tcp_input_refines]); binding gives the address and
      port that was asked for unless another control block has it
      ([LwipTcpBind.tcp_bind_spec]); the search for a port and the loops that
      callbacks make start again end ([LwipTcpPorts], [LwipTcpLoops]).  What
      the hypotheses exclude is in [LwipTcpStackRuns].
    - Start-up, command line, addresses as text.

    * Modelling choices

    - An integer of the program is a [Z] in its range; wrap-around is written
      out with [u8], [u16], [u32], [u64].  The host is little-endian, except in
      [byteorder.h], which is modelled for both.
    - Memory is a list of bytes; an access outside an object is the fault
      [OutOfBounds], so a theorem that a call returns is also a theorem that it
      stays inside its buffers.  Assertions are active.
    - Calls that leave the program (libuv, pcap, lwIP, [time], the gateway
      hooks) are recorded in a trace and answered by an environment that may
      give a different answer to each call.  Callbacks of an owner are
      parameters of a section; where a theorem needs one, it is the least one
      the interface asks for.
    - The state of the files for one TCP connection is its control block, the
      list it is on, the variables of [tcp_in.c], the clock, the packets handed
      to IP.  A segment carries its buffers; header fields are in host order and
      packets without their checksum.  IP and the memory pools answer through
      the class [LwipTcp.TcpEnv] (another one than that of [UvTcp]), the
      application through parameters.  There the accept callback is a function
      that is set; [LwipTcpPcbs] has the field of the listening control block.
    - The control blocks of [LwipTcpPcbs] are a heap: a list is a head and the
      [next] of each block, a block that is freed is gone, and to read it is a
      fault.  The code of one connection runs on the block it is given
      ([focus]): the block is loaded with the list it is found on, and what
      the code did with that list is done to the links.  A callback acts on the
      connection it is called for; [WellBehaved] says that it leaves it on the
      list of its state and that [ERR_ABRT] means it is gone.  [tcp_arg] is left
      out.
    - In [LwipTcpSession] the peer has once offered a window of two bytes; its
      segments have no options, SYN or RST, an acknowledgement number less than
      2147400000 away from [lastack] and data within the window; the announced
      edge of the window is at most 9e8 behind [rcv_nxt].  While a segment that
      the third duplicate acknowledgement has put back on the unsent queue waits
      there, because IP did not take it or the application was called first,
      there are no writes, segments and retransmissions.
    - lwIP is modelled as [lwipopts.h] configures it: without [LWIP_DEBUG] the
      checks of [TCP_OVERSIZE_DBGCHECK] are not compiled and [oversize_left] is
      not a field.
    - Diagnostic output ([LLOG], [eprintf], [LWIP_DEBUGF]) is left out.

    * Fuel

    Loops that are not structural take fuel, and each is proved to need no
    more than it is given: [fold_sum] the quotient of the sum by 65535,
    [send_frags] one turn per byte of the packet, [transform_loop] and
    [pad_loop] of SHA-1 one turn per block and per byte of padding, [digits]
    more turns than a 32-bit number has digits, the loops of [UvTcp] one turn
    per request or per buffer that is queued ([write_loop] at most two), the
    loops of [LwipPbuf] one turn per buffer there is, per byte asked for
    ([pool_loop]) or per place of the packet ([memfind_loop]), [parseopt_loop]
    of TCP one turn per option byte, [write_phase3] one turn per segment the
    queue may hold, the walks over a list of control blocks one turn per block
    there is ([list_fuel]), the loops of the timers that start again one walk per
    block ([loop_fuel]), [new_port_loop] one turn per port of the range.

    * Not modelled

    - The C++ parts (gateway, SOCKS5 proxy, remote control, capture loop), the
      Kotlin application: other languages, on top of the interfaces above.
    - The rest of lwIP (IP, UDP, PPP, sockets, applications): vendored code; the
      gateway's use of it goes through the environments of [UvTcp] and
      [UvLwip].  Of [pbuf.c], [pbuf_free_ooseq] is in [LwipTcpPcbs];
      [pbuf_split_64k] and [pbuf_fill_chksum] are not compiled.
    - [set_immediate_mode] and the branches for Windows and macOS of
      [get_mac_address]: system calls only.
    - Leaks: [malloc] is assumed to succeed, and [free] has an effect only
      where the program could free the wrong object. *)
From Stdlib Require Export ZArith Lia.
From stdpp Require Export base tactics option list numbers.

Global Open Scope Z_scope.
Global Set Default Goal Selector "!".

(** * Results and the state monad

    A C call either returns or stops the program: it reads or writes outside
    an object, fails an [assert], calls [exit], shifts by an amount the type
    does not allow, dereferences a null pointer, or frees what
    [malloc] did not return, or divides by zero.  [OutOfFuel] is the value of a loop
    whose bound was too small; every loop of the development that is given
    fuel comes with a theorem that the fuel given is enough. *)
Inductive fault :=
  | OutOfBounds
  | AssertFailure
  | ExitCalled (code : Z)
  | ShiftRange
  | NullPointer
  | InvalidFree
  | DivisionByZero
  | OutOfFuel.

Inductive result (A : Type) :=
  | Ok (a : A)
  | Fail (f : fault).
Arguments Ok {A} a.
Arguments Fail {A} f.

#[export] Instance fault_eq_dec : EqDecision fault.
Proof. solve_decision. Defined.

#[export] Instance result_eq_dec `{EqDecision A} : EqDecision (result A).
Proof. solve_decision. Defined.

#[export] Instance result_ret : MRet result := λ A a, Ok a.
#[export] Instance result_bind : MBind result := λ A B f r,
  match r with Ok a => f a | Fail e => Fail e end.

(** Stateful code: a function from the state to the result and the state
    after the call. *)
Definition M (S A : Type) : Type := S → result (A * S).

#[export] Instance M_ret {S} : MRet (M S) := λ A a s, Ok (a, s).
#[export] Instance M_bind {S} : MBind (M S) := λ A B f m s,
  match m s with Ok (a, s') => f a s' | Fail e => Fail e end.

Definition get {S} : M S S := λ s, Ok (s, s).
Definition put {S} (s : S) : M S () := λ _, Ok ((), s).
Definition modify {S} (f : S → S) : M S () := λ s, Ok ((), f s).
Definition gets {S A} (f : S → A) : M S A := λ s, Ok (f s, s).
Definition fail {S A} (e : fault) : M S A := λ _, Fail e.
Definition lift {S A} (r : result A) : M S A := λ s,
  match r with Ok a => Ok (a, s) | Fail e => Fail e end.

(** * Machine integers *)

Definition u8 (x : Z) : Z := x mod 2 ^ 8.
Definition u16 (x : Z) : Z := x mod 2 ^ 16.
Definition u32 (x : Z) : Z := x mod 2 ^ 32.
Definition u64 (x : Z) : Z := x mod 2 ^ 64.
(** Conversion to a 32-bit [int] (two's complement). *)
Definition s32 (x : Z) : Z := (x + 2 ^ 31) mod 2 ^ 32 - 2 ^ 31.

Definition byte_ok (b : Z) : Prop := 0 ≤ b < 256.
Definition bytes_ok (l : list Z) : Prop := Forall byte_ok l.

(** * Memory

    A pointer to bytes is the list of the bytes that can be read from it on,
    so [p + n] is [drop n p]. *)
Definition zlen {A} (l : list A) : Z := Z.of_nat (length l).

Definition in_range (size off n : Z) : bool :=
  (0 <=? off) && (0 <=? n) && (off + n <=? size).

(** [memcpy] out of [m], [n] bytes from offset [off]. *)
Definition mem_read (m : list Z) (off n : Z) : result (list Z) :=
  if in_range (zlen m) off n
  then Ok (take (Z.to_nat n) (drop (Z.to_nat off) m)) else Fail OutOfBounds.

(** [memcpy] of [bs] into [m] at offset [off]. *)
Definition mem_write (m : list Z) (off : Z) (bs : list Z) : result (list Z) :=
  if in_range (zlen m) off (zlen bs)
  then Ok (take (Z.to_nat off) m ++ bs ++ drop (Z.to_nat off + length bs) m)
  else Fail OutOfBounds.

(** [l[i]] for an array of any type. *)
Definition arr_get {A} (l : list A) (i : Z) : result A :=
  if i <? 0 then Fail OutOfBounds
  else match l !! Z.to_nat i with Some a => Ok a | None => Fail OutOfBounds end.

Definition arr_set {A} (l : list A) (i : Z) (a : A) : result (list A) :=
  if in_range (zlen l) i 1 then Ok (<[Z.to_nat i := a]> l) else Fail OutOfBounds.

(** * Automation *)

Create HintDb bytes discriminated.
Create HintDb range discriminated.
Create Rewrite HintDb small.

Ltac zify_len := unfold zlen, in_range in *.
Create Rewrite HintDb len.
#[export] Hint Rewrite @length_app @length_take @length_drop @length_replicate
  @length_insert @length_fmap @length_rev @length_cons : len.
Ltac len_lia := zify_len; cbn [length] in *; autorewrite with len in *; cbn [length] in *; lia.

(** Splits the conditionals of the goal. *)
Ltac case_if :=
  match goal with
  | |- context [if ?b then _ else _] =>
      lazymatch b with
      | context [if _ then _ else _] => fail
      | _ => let E := fresh "E" in destruct b eqn:E
      end
  end.

Lemma u8_range x : 0 ≤ u8 x < 256.
Proof. unfold u8. apply Z.mod_pos_bound. lia. Qed.
Lemma u16_range x : 0 ≤ u16 x < 65536.
Proof. unfold u16. apply Z.mod_pos_bound. lia. Qed.
Lemma u32_range x : 0 ≤ u32 x < 4294967296.
Proof. unfold u32. apply Z.mod_pos_bound. lia. Qed.
Lemma u64_range x : 0 ≤ u64 x < 18446744073709551616.
Proof. unfold u64. apply Z.mod_pos_bound. lia. Qed.
Lemma u8_small x : 0 ≤ x < 256 → u8 x = x.
Proof. intros. unfold u8. apply Z.mod_small. lia. Qed.
Lemma u16_small x : 0 ≤ x < 65536 → u16 x = x.
Proof. intros. unfold u16. apply Z.mod_small. lia. Qed.
Lemma u32_small x : 0 ≤ x < 4294967296 → u32 x = x.
Proof. intros. unfold u32. apply Z.mod_small. lia. Qed.
Lemma u64_small x : 0 ≤ x < 18446744073709551616 → u64 x = x.
Proof. intros. unfold u64. apply Z.mod_small. lia. Qed.
Lemma s32_small x : -2147483648 ≤ x < 2147483648 → s32 x = x.
Proof. intros. unfold s32. rewrite Z.mod_small; lia. Qed.
Lemma s32_range x : -2147483648 ≤ s32 x < 2147483648.
Proof.
  unfold s32. pose proof (Z.mod_pos_bound (x + 2 ^ 31) (2 ^ 32)). lia.
Qed.
#[export] Hint Resolve u8_range u16_range u32_range u64_range s32_range : range.
#[export] Hint Rewrite u8_small u16_small u32_small u64_small s32_small
  using lia : small.

Lemma u8_byte_ok x : byte_ok (u8 x).
Proof. apply u8_range. Qed.
Lemma byte_ok_0 : byte_ok 0.
Proof. unfold byte_ok. lia. Qed.
Lemma bytes_ok_nil : bytes_ok [].
Proof. constructor. Qed.
Lemma bytes_ok_cons b l : byte_ok b → bytes_ok l → bytes_ok (b :: l).
Proof. by constructor. Qed.
Lemma bytes_ok_app l k : bytes_ok l → bytes_ok k → bytes_ok (l ++ k).
Proof. intros. by apply Forall_app. Qed.
Lemma bytes_ok_take n l : bytes_ok l → bytes_ok (take n l).
Proof. apply Forall_take. Qed.
Lemma bytes_ok_drop n l : bytes_ok l → bytes_ok (drop n l).
Proof. apply Forall_drop. Qed.
Lemma bytes_ok_zeros n : bytes_ok (replicate n 0).
Proof. apply Forall_replicate. unfold byte_ok. lia. Qed.
#[export] Hint Resolve u8_byte_ok byte_ok_0 bytes_ok_nil bytes_ok_cons bytes_ok_app
  bytes_ok_take bytes_ok_drop bytes_ok_zeros : bytes.

Lemma arr_get_nat {A} (l : list A) i x : l !! i = Some x → arr_get l (Z.of_nat i) = Ok x.
Proof.
  intros E. unfold arr_get. destruct (Z.ltb_spec (Z.of_nat i) 0); [lia|]. by rewrite Nat2Z.id, E.
Qed.

Lemma alter_as_insert {A} (f : A → A) (l : list A) i x :
  l !! i = Some x → alter f i l = <[i := f x]> l.
Proof.
  revert i. induction l as [|a l IH]; intros [|i] E; simplify_eq/=; [done..|].
  f_equal. by apply IH.
Qed.

(** * Memory lemmas *)

Lemma in_range_spec size off n :
  in_range size off n = true ↔ 0 ≤ off ∧ 0 ≤ n ∧ off + n ≤ size.
Proof. unfold in_range. lia. Qed.

Lemma Ok_inj {A} (a b : A) : Ok a = Ok b → a = b.
Proof. by intros [= ->]. Qed.

Lemma mem_read_ok m off n :
  0 ≤ off → 0 ≤ n → off + n ≤ zlen m →
  mem_read m off n = Ok (take (Z.to_nat n) (drop (Z.to_nat off) m)).
Proof. intros. unfold mem_read. by rewrite (proj2 (in_range_spec _ _ _)). Qed.

Lemma mem_read_app_l l k off n :
  0 ≤ off → 0 ≤ n → off + n ≤ zlen l → mem_read (l ++ k) off n = mem_read l off n.
Proof.
  intros. rewrite !mem_read_ok by len_lia. f_equal.
  rewrite drop_app_le by len_lia. apply take_app_le. len_lia.
Qed.

Lemma mem_read_length m off n bs : mem_read m off n = Ok bs → zlen bs = n.
Proof.
  unfold mem_read. case_if; [|done]. intros [= <-].
  apply in_range_spec in E. len_lia.
Qed.

Lemma mem_read_bytes_ok m off n bs :
  bytes_ok m → mem_read m off n = Ok bs → bytes_ok bs.
Proof. unfold mem_read. case_if; [|done]. intros ? [= <-]. eauto with bytes. Qed.

Lemma mem_write_ok m off bs :
  0 ≤ off → off + zlen bs ≤ zlen m →
  mem_write m off bs =
    Ok (take (Z.to_nat off) m ++ bs ++ drop (Z.to_nat off + length bs) m).
Proof.
  intros. unfold mem_write. by rewrite (proj2 (in_range_spec _ _ _)) by len_lia.
Qed.

Lemma mem_write_length m off bs m' :
  mem_write m off bs = Ok m' → length m' = length m.
Proof.
  unfold mem_write. case_if; [|done]. intros [= <-].
  apply in_range_spec in E. len_lia.
Qed.

Lemma mem_write_bytes_ok m off bs m' :
  bytes_ok m → bytes_ok bs → mem_write m off bs = Ok m' → bytes_ok m'.
Proof. unfold mem_write. case_if; [|done]. intros ?? [= <-]. eauto with bytes. Qed.

(** Overwriting the bytes between two known parts of an object. *)
Lemma mem_write_mid pre old post off bs :
  off = zlen pre → length bs = length old →
  mem_write (pre ++ old ++ post) off bs = Ok (pre ++ bs ++ post).
Proof.
  intros -> Hl. rewrite mem_write_ok by len_lia. unfold zlen. rewrite Nat2Z.id.
  rewrite take_app_length, <- drop_drop, drop_app_length, drop_app_length' by done. done.
Qed.

(** Filling a zeroed object from the left. *)
Lemma mem_write_fill pre k n off bs :
  off = zlen pre → length bs = k →
  mem_write (pre ++ replicate (k + n) 0) off bs = Ok ((pre ++ bs) ++ replicate n 0).
Proof.
  intros. rewrite replicate_add, mem_write_mid by (done || by rewrite length_replicate).
  by rewrite app_assoc.
Qed.

(** Overwriting what follows a known prefix. *)
Lemma mem_write_over pre rest bs :
  (length bs ≤ length rest)%nat →
  mem_write (pre ++ rest) (zlen pre) bs = Ok ((pre ++ bs) ++ drop (length bs) rest).
Proof.
  intros Hl. rewrite <- (take_drop (length bs) rest) at 1.
  rewrite mem_write_mid by (done || (rewrite length_take; lia)). by rewrite app_assoc.
Qed.

Lemma mem_read_mid pre bs post off n :
  off = zlen pre → n = zlen bs → mem_read (pre ++ bs ++ post) off n = Ok bs.
Proof.
  intros -> ->. rewrite mem_read_ok by len_lia. unfold zlen. rewrite !Nat2Z.id.
  by rewrite drop_app_length, take_app_length.
Qed.

Lemma mem_read_all bs n : n = zlen bs → mem_read bs 0 n = Ok bs.
Proof.
  intros ->. rewrite mem_read_ok by len_lia. unfold zlen.
  rewrite Nat2Z.id, drop_0, take_ge by lia. done.
Qed.

Lemma bind_ok_inv {S A B} (m : M S A) (f : A → M S B) s b s' :
  (m ≫= f) s = Ok (b, s') → ∃ a s1, m s = Ok (a, s1) ∧ f a s1 = Ok (b, s').
Proof.
  unfold mbind, M_bind. destruct (m s) as [[a s1]|e]; [|done]. eauto.
Qed.

Lemma bind_of_ok {S A B} (m : M S A) (f : A → M S B) s a s' :
  m s = Ok (a, s') → (m ≫= f) s = f a s'.
Proof. intros H. unfold mbind, M_bind. by rewrite H. Qed.

Lemma bind_of_fail {S A B} (m : M S A) (f : A → M S B) s e :
  m s = Fail e → (m ≫= f) s = Fail e.
Proof. intros H. unfold mbind, M_bind. by rewrite H. Qed.

Lemma lift_bind {S A B} (r : result A) (f : A → M S B) s a :
  r = Ok a → (lift r ≫= f) s = f a s.
Proof. by intros ->. Qed.

Lemma ok_bind {A B} (r : result A) (f : A → result B) a : r = Ok a → r ≫= f = f a.
Proof. by intros ->. Qed.

(** Runs the first bound call of a goal with an equation for its result,
    given up to conversion. *)
Tactic Notation "run" uconstr(E) :=
  first [ erewrite lift_bind by (refine E; try done)
        | erewrite ok_bind by (refine E; try done) ]; cbv beta.

(** * Record updates

    [r <| f := v |>] is [r] with the field [f] set to [v], [r <| f ::= g |>]
    with [g] applied to it.  A record needs an instance of [Eta], its eta
    expansion; the tactic [setter] finds the body of a [Setter] instance in it. *)
Class Eta (R : Type) := eta : R → R.
Class Setter {R T : Type} (p : R → T) := set_field : (T → T) → R → R.
Arguments set_field {R T} p {_} f r : simpl never.

Ltac setter :=
  lazymatch goal with
  | |- @Setter ?R ?T ?p =>
      let i := constr:(_ : Eta R) in
      let e := eval red in i in
      let f := fresh "f" in let r := fresh "r" in
      intros f r;
      let b := eval cbv beta in (e r) in
      lazymatch eval pattern (p r) in b with
      | ?F _ => let b := eval cbv beta in (F (f (p r))) in exact b
      end
  end.

#[warnings="-postfix-notation-not-level-1"]
Notation "r <| p := v |>" := (set_field p (λ _, v) r) (at level 12, left associativity, p at level 9, v at level 200).
#[warnings="-postfix-notation-not-level-1"]
Notation "r <| p ::= f |>" := (set_field p f r) (at level 12, left associativity, p at level 9, f at level 200).

(** Reading a field of an updated record.  The equations are proved for a
    variable record and used as hypotheses, so that neither a tactic nor the
    kernel unfolds the record of the goal. *)
Ltac field_eq R T U g p H :=
  lazymatch p with
  | g => constr:(ltac:(intros; reflexivity) : ∀ (f : T → T) (r : R), g (@set_field R T p H f r) = f (g r))
  | _ => constr:(ltac:(intros; reflexivity) : ∀ (f : T → T) (r : R), g (@set_field R T p H f r) = g r)
  end.
Ltac get_set :=
  repeat match goal with |- context [?g (@set_field ?R ?T ?p ?H ?f ?r)] =>
    let E := field_eq R T ltac:(type of (g r)) g p H in
    let X := fresh in pose proof E as X; rewrite (X f r); clear X; cbv beta end.
Ltac get_set_in J :=
  repeat match type of J with context [?g (@set_field ?R ?T ?p ?H ?f ?r)] =>
    let E := field_eq R T ltac:(type of (g r)) g p H in
    let X := fresh in pose proof E as X; rewrite (X f r) in J; clear X; cbv beta in J end.

(** * Total correctness

    [wp m Q s]: started in [s], [m] returns, with a result and a state that
    satisfy [Q]. *)
Definition wp {S A} (m : M S A) (Q : A → S → Prop) (s : S) : Prop :=
  ∃ a s', m s = Ok (a, s') ∧ Q a s'.

Section wp.
Context {S A : Type}.
Implicit Types (m : M S A) (Q : A → S → Prop) (s : S).

Lemma wp_intro m Q s a s' : m s = Ok (a, s') → Q a s' → wp m Q s.
Proof. intros. by exists a, s'. Qed.
Lemma wp_ret Q s a : Q a s → wp (mret a) Q s.
Proof. intros. by exists a, s. Qed.
Lemma wp_mono m Q Q' s : wp m Q s → (∀ a s', Q a s' → Q' a s') → wp m Q' s.
Proof. intros (a & s' & E & H) HQ. exists a, s'. eauto. Qed.
Lemma wp_bind {B} (m : M S B) (k : B → M S A) Q s : wp m (λ b s', wp (k b) Q s') s → wp (m ≫= k) Q s.
Proof. intros (b & s1 & E & (a & s' & E' & H)). exists a, s'. by rewrite (bind_of_ok _ _ _ _ _ E). Qed.
Lemma wp_gets (f : S → A) Q s : Q (f s) s → wp (gets f) Q s.
Proof. intros. by exists (f s), s. Qed.
Lemma wp_lift (r : result A) Q s a :
  r = Ok a → Q a s → wp (lift r) Q s.
Proof. intros -> ?. by exists a, s. Qed.
End wp.

Lemma wp_modify {S} (f : S → S) (Q : () → S → Prop) s : Q () (f s) → wp (modify f) Q s.
Proof. intros. by exists (), (f s). Qed.
Lemma wp_get {S} (Q : S → S → Prop) s : Q s s → wp get Q s.
Proof. intros. by exists s, s. Qed.
Lemma wp_eq {S A} (m : M S A) (Q : A → S → Prop) s : wp m Q s ↔ match m s with Ok (a, s') => Q a s' | Fail _ => False end.
Proof. unfold wp. split; [intros (a & s' & -> & H); done|destruct (m s) as [[a s']|]; [eauto|done]]. Qed.

(** Runs the straight-line part of a computation. *)
Ltac wp_step :=
  lazymatch goal with
  | |- wp (_ ≫= _) _ _ => apply wp_bind
  | |- wp (gets _) _ _ => apply wp_gets
  | |- wp get _ _ => apply wp_get
  | |- wp (modify _) _ _ => apply wp_modify
  | |- wp (mret _) _ _ => apply wp_ret
  end; cbv beta.
Ltac wps := repeat wp_step; get_set.

(** * Partial correctness

    [wlp m Q s]: if [m] returns, its result and its state satisfy [Q]. *)
Definition wlp {S A} (m : M S A) (Q : A → S → Prop) (s : S) : Prop :=
  ∀ a s', m s = Ok (a, s') → Q a s'.

Section wlp.
Context {S A : Type}.
Implicit Types (m : M S A) (Q : A → S → Prop) (s : S).

Lemma wlp_ret Q s a : Q a s → wlp (mret a) Q s.
Proof. by intros ? b s' [= <- <-]. Qed.
Lemma wlp_mono m Q Q' s : wlp m Q s → (∀ a s', Q a s' → Q' a s') → wlp m Q' s.
Proof. intros Hm HQ a s' E. by apply HQ, Hm. Qed.
Lemma wlp_bind {B} (m : M S B) (k : B → M S A) Q s : wlp m (λ b s', wlp (k b) Q s') s → wlp (m ≫= k) Q s.
Proof.
  intros Hm a s' E. unfold mbind, M_bind in E. destruct (m s) as [[b s1]|] eqn:Em; [|done]. by apply (Hm b s1).
Qed.
Lemma wlp_gets (f : S → A) Q s : Q (f s) s → wlp (gets f) Q s.
Proof. by intros ? b s' [= <- <-]. Qed.
Lemma wlp_lift (r : result A) Q s : (∀ a, r = Ok a → Q a s) → wlp (lift r) Q s.
Proof. intros HQ a s' E. destruct r; [|done]. injection E as -> ->. by apply HQ. Qed.
Lemma wlp_fail Q s e : wlp (fail e) Q s.
Proof. by intros a s'. Qed.
Lemma wlp_case (b : bool) m m' Q s : wlp m Q s → wlp m' Q s → wlp (if b then m else m') Q s.
Proof. by destruct b. Qed.

(** What holds of a result that there is. *)
Lemma wp_wlp m Q Q' s : wp m Q s → wlp m Q' s → wp m (λ a s', Q a s' ∧ Q' a s') s.
Proof. intros (a & s' & E & HQ) H. exists a, s'. split; [done|]. split; [done|by apply H]. Qed.
Lemma wlp_of_wp m Q s : wp m Q s → wlp m Q s.
Proof. intros (a & s' & E & HQ) b s1 E'. rewrite E in E'. by injection E' as <- <-. Qed.
End wlp.

Lemma wlp_modify {S} (f : S → S) (Q : () → S → Prop) s : Q () (f s) → wlp (modify f) Q s.
Proof. by intros ? [] s' [= <-]. Qed.

Ltac wlp_step :=
  lazymatch goal with
  | |- wlp (_ ≫= _) _ _ => apply wlp_bind
  | |- wlp (gets _) _ _ => apply wlp_gets
  | |- wlp (modify _) _ _ => apply wlp_modify
  | |- wlp (mret _) _ _ => apply wlp_ret
  | |- wlp (fail _) _ _ => apply wlp_fail
  | |- wlp (lift _) _ _ => let a := fresh "a" in let E := fresh "Elift" in apply wlp_lift; intros a E
  | |- wlp (if _ then _ else _) _ _ => apply wlp_case
  end; cbv beta.

(** * Agreement

    [agree m m' Q s]: [m] and [m'] do the same in [s], and if they return, [Q]
    holds.  So a loop is shown not to need more fuel than it has. *)
Definition agree {S A} (m m' : M S A) (Q : A → S → Prop) (s : S) : Prop := m s = m' s ∧ wlp m Q s.

Section agree.
Context {S A : Type}.
Implicit Types (m : M S A) (Q : A → S → Prop) (s : S).

Lemma agree_refl m Q s : wlp m Q s → agree m m Q s.
Proof. by split. Qed.
Lemma agree_bind {B} (m : M S B) (k k' : B → M S A) Q s :
  wlp m (λ b s', agree (k b) (k' b) Q s') s → agree (m ≫= k) (m ≫= k') Q s.
Proof.
  intros Hm. split; [|apply wlp_bind; eapply wlp_mono; [exact Hm|]; by intros b s' []].
  unfold mbind, M_bind. destruct (m s) as [[b s']|] eqn:E; [|done]. by destruct (Hm b s' E).
Qed.
End agree.

(** * Frames

    [framed R m]: if [m] returns, its state is related to the one before by the
    preorder [R].  Unlike [wlp] it follows from the text of [m]. *)
Definition framed {S A} (R : S → S → Prop) (m : M S A) : Prop := ∀ s, wlp m (λ _, R s) s.

Section framed.
Context {S A : Type} (R : S → S → Prop) `{!PreOrder R}.
Implicit Types m : M S A.

Lemma framed_ret (a : A) : framed R (mret a : M S A).
Proof using PreOrder0. intros s. by apply wlp_ret. Qed.
Lemma framed_bind {B} (m : M S B) (k : B → M S A) : framed R m → (∀ b, framed R (k b)) → framed R (m ≫= k).
Proof using PreOrder0.
  intros Hm Hk s. apply wlp_bind. eapply wlp_mono; [apply Hm|]. intros b s1 H1. cbv beta in H1.
  eapply wlp_mono; [apply Hk|]. intros a s2 H2. cbv beta in H2. by etransitivity.
Qed.
Lemma framed_gets (f : S → A) : framed R (gets f).
Proof using PreOrder0. intros s. by apply wlp_gets. Qed.
Lemma framed_lift (r : result A) : framed R (lift r).
Proof using PreOrder0. intros s. by apply wlp_lift. Qed.
Lemma framed_fail e : framed R (fail e : M S A).
Proof. intros s. apply wlp_fail. Qed.
Lemma framed_if (b : bool) m m' : framed R m → framed R m' → framed R (if b then m else m').
Proof. by destruct b. Qed.
Lemma framed_wlp m (P : S → Prop) s : framed R m → P s → (∀ s s', P s → R s s' → P s') → wlp m (λ _, P) s.
Proof. intros Hm HP HR. eapply wlp_mono; [apply Hm|]. intros a s' H. by eapply HR. Qed.
End framed.
Lemma framed_modify {S} (R : S → S → Prop) (f : S → S) : (∀ s, R s (f s)) → framed R (modify f).
Proof. intros Hf s. by apply wlp_modify. Qed.

Create HintDb framed discriminated.
Ltac framed_step :=
  lazymatch goal with
  | |- framed _ (_ ≫= _) => apply (framed_bind _); [|intros ?]
  | |- framed _ (mret _) => apply (framed_ret _)
  | |- framed _ (fail _) => apply framed_fail
  | |- framed _ (gets _) => apply (framed_gets _)
  | |- framed _ (lift _) => apply (framed_lift _)
  | |- framed _ (if _ then _ else _) => apply framed_if
  | |- framed _ (match ?x with _ => _ end) => destruct x
  | |- framed _ _ => solve [eauto with framed nocore]
  end; cbv beta zeta.
Ltac framed := repeat framed_step.
