(* ===== verification/NetBytes.v ===== *)
(** Byte order and the packet access macros: [base/include/base/byteorder.h]
    and the macros of [client-switch-lan-play/helper.h].

    Integers in memory are lists of bytes in the order of their addresses.
    The macros of [helper.h] are modelled for a little-endian host, where
    [htons] and [htonl] swap; [byteorder.h] is modelled for both settings of
    its build-time macro. *)
From S2P Require Import Prelude.

(** * Integers in memory *)

(** The value of a little-endian load of the bytes [bs]. *)
Fixpoint le_load (bs : list Z) : Z :=
  match bs with [] => 0 | b :: t => b + 256 * le_load t end.

(** The [n] bytes a little-endian store of [x] writes. *)
Fixpoint le_store (n : nat) (x : Z) : list Z :=
  match n with O => [] | S n => x mod 256 :: le_store n (x / 256) end.

(** The value of a big-endian (network order) load. *)
Definition be_load (bs : list Z) : Z := le_load (rev bs).

Module ByteOrder.

(** Which of [LANPLAY_LITTLE_ENDIAN] and [LANPLAY_BIG_ENDIAN] is defined. *)
Inductive endianness := LittleEndian | BigEndian.

(** The object representation of an [n]-byte unsigned integer. *)
Definition repr (e : endianness) (n : nat) (x : Z) : list Z :=
  match e with LittleEndian => le_store n x | BigEndian => rev (le_store n x) end.

Definition value (e : endianness) (bs : list Z) : Z :=
  match e with LittleEndian => le_load bs | BigEndian => be_load bs end.

(** [*((uint8_t * )&y + i) = *((uint8_t * )&x + (n - 1 - i))] for every [i]. *)
Definition badvpn_reverse (e : endianness) (n : nat) (x : Z) : Z :=
  value e (rev (repr e n x)).
Definition badvpn_reverse16 (e : endianness) (x : Z) : Z := badvpn_reverse e 2 x.
Definition badvpn_reverse32 (e : endianness) (x : Z) : Z := badvpn_reverse e 4 x.
Definition badvpn_reverse64 (e : endianness) (x : Z) : Z := badvpn_reverse e 8 x.

Definition hton8 (x : Z) : Z := x.
Definition htol8 (x : Z) : Z := x.
Definition hton16 (e : endianness) (x : Z) : Z :=
  match e with LittleEndian => badvpn_reverse16 e x | BigEndian => x end.
Definition hton32 (e : endianness) (x : Z) : Z :=
  match e with LittleEndian => badvpn_reverse32 e x | BigEndian => x end.
Definition hton64 (e : endianness) (x : Z) : Z :=
  match e with LittleEndian => badvpn_reverse64 e x | BigEndian => x end.
Definition htol16 (e : endianness) (x : Z) : Z :=
  match e with LittleEndian => x | BigEndian => badvpn_reverse16 e x end.
Definition htol32 (e : endianness) (x : Z) : Z :=
  match e with LittleEndian => x | BigEndian => badvpn_reverse32 e x end.
Definition htol64 (e : endianness) (x : Z) : Z :=
  match e with LittleEndian => x | BigEndian => badvpn_reverse64 e x end.
Definition ntoh8 (x : Z) : Z := hton8 x.
Definition ntoh16 (e : endianness) (x : Z) : Z := hton16 e x.
Definition ntoh32 (e : endianness) (x : Z) : Z := hton32 e x.
Definition ntoh64 (e : endianness) (x : Z) : Z := hton64 e x.
Definition ltoh8 (x : Z) : Z := htol8 x.
Definition ltoh16 (e : endianness) (x : Z) : Z := htol16 e x.
Definition ltoh32 (e : endianness) (x : Z) : Z := htol32 e x.
Definition ltoh64 (e : endianness) (x : Z) : Z := htol64 e x.

End ByteOrder.

(** * The macros of [helper.h] *)

(** [htons], [ntohs], [htonl], [ntohl] of the C library on a little-endian
    host; the argument is converted to the width of the function. *)
Definition htons (x : Z) : Z := be_load (le_store 2 x).
Definition htonl (x : Z) : Z := be_load (le_store 4 x).

(** [*(uint32_t * )p] for the four bytes [p] points to. *)
Definition load32 (p : list Z) : Z := le_load (take 4 p).

Definition LMIN (a b : Z) : Z := if a <? b then a else b.
Definition LABS (x : Z) : Z := if x <? 0 then - x else x.

Definition READ_NET8 (packet : list Z) (offset : Z) : result Z :=
  bs ← mem_read packet offset 1; Ok (le_load bs).
Definition READ_NET16 (packet : list Z) (offset : Z) : result Z :=
  bs ← mem_read packet offset 2; Ok (htons (le_load bs)).
Definition READ_NET32 (packet : list Z) (offset : Z) : result Z :=
  bs ← mem_read packet offset 4; Ok (htonl (le_load bs)).
Definition WRITE_NET8 (packet : list Z) (offset v : Z) : result (list Z) :=
  mem_write packet offset (le_store 1 v).
Definition WRITE_NET16 (packet : list Z) (offset v : Z) : result (list Z) :=
  mem_write packet offset (le_store 2 (htons v)).
Definition WRITE_NET32 (packet : list Z) (offset v : Z) : result (list Z) :=
  mem_write packet offset (le_store 4 (htonl v)).

(** [CPY_IPV4(dst + off, src)] and [CPY_MAC(dst + off, src)]. *)
Definition CPY_IPV4 (dst : list Z) (off : Z) (src : list Z) : result (list Z) :=
  bs ← mem_read src 0 4; mem_write dst off bs.
Definition CPY_MAC (dst : list Z) (off : Z) (src : list Z) : result (list Z) :=
  bs ← mem_read src 0 6; mem_write dst off bs.

Definition CMP_IPV4 (ip1 ip2 : list Z) : bool := bool_decide (take 4 ip1 = take 4 ip2).
(** [memcmp(mac1, mac2, 4) == 0]: four bytes of the six are compared. *)
Definition CMP_MAC (mac1 mac2 : list Z) : bool := bool_decide (take 4 mac1 = take 4 mac2).

Definition IS_SUBNET (ip net mask : list Z) : bool :=
  Z.land (load32 ip) (load32 mask) =? load32 net.
Definition IS_BROADCAST (ip net mask : list Z) : bool :=
  Z.lor (load32 net) (u32 (Z.lnot (load32 mask))) =? load32 ip.

(** * Lemmas *)

Lemma length_le_store n x : length (le_store n x) = n.
Proof. revert x. induction n; intros; simpl; auto. Qed.

#[export] Hint Rewrite length_le_store : len.

Lemma le_store_bytes_ok n x : bytes_ok (le_store n x).
Proof.
  revert x. induction n as [|n IH]; intros x; simpl; [eauto with bytes|].
  apply bytes_ok_cons; [|apply IH]. apply Z.mod_pos_bound. lia.
Qed.
#[export] Hint Resolve le_store_bytes_ok : bytes.

Lemma le_load_store n x : le_load (le_store n x) = x mod 256 ^ Z.of_nat n.
Proof.
  revert x. induction n as [|n IH]; intros x; simpl le_load; simpl le_store.
  - by rewrite Z.mod_1_r.
  - simpl. rewrite IH, Nat2Z.inj_succ, Z.pow_succ_r by lia.
    symmetry. apply Z.rem_mul_r; [lia|]. apply Z.pow_pos_nonneg; lia.
Qed.

Lemma le_load_range bs : bytes_ok bs → 0 ≤ le_load bs < 256 ^ zlen bs.
Proof.
  unfold zlen. induction 1 as [|b bs Hb _ IH]; [simpl; lia|].
  cbn [le_load length]. rewrite Nat2Z.inj_succ, Z.pow_succ_r by lia.
  unfold byte_ok in Hb. nia.
Qed.

Lemma le_store_load bs : bytes_ok bs → le_store (length bs) (le_load bs) = bs.
Proof.
  induction 1 as [|b bs Hb _ IH]; [done|]. unfold byte_ok in Hb. simpl.
  rewrite (Z.mul_comm 256), Z.mod_add, Z.div_add by lia.
  rewrite Z.mod_small, Z.div_small, Z.add_0_l by lia. by rewrite IH.
Qed.

Lemma le_load_inj bs cs :
  bytes_ok bs → bytes_ok cs → length bs = length cs →
  le_load bs = le_load cs → bs = cs.
Proof.
  intros Hb Hc Hl E. rewrite <- (le_store_load bs), <- (le_store_load cs) by done.
  congruence.
Qed.

#[global] Arguments le_store : simpl never.

Lemma bytes_ok_rev bs : bytes_ok bs → bytes_ok (rev bs).
Proof. apply List.Forall_rev. Qed.
#[export] Hint Resolve bytes_ok_rev : bytes.

Lemma be_load_range bs : bytes_ok bs → 0 ≤ be_load bs < 256 ^ zlen bs.
Proof.
  intros H. unfold be_load.
  replace (zlen bs) with (zlen (rev bs)) by (unfold zlen; by rewrite length_rev).
  apply le_load_range. eauto with bytes.
Qed.

Lemma be_load2 a b : be_load [a; b] = a * 256 + b.
Proof. unfold be_load. simpl. lia. Qed.

(** Bytes written in network order are read back as the value. *)
Lemma be_load_rev_store n x : be_load (rev (le_store n x)) = x mod 256 ^ Z.of_nat n.
Proof. unfold be_load. rewrite rev_involutive. apply le_load_store. Qed.

Lemma le_store_be_load bs :
  bytes_ok bs → le_store (length bs) (be_load bs) = rev bs.
Proof.
  intros H. unfold be_load. rewrite <- (length_rev bs).
  apply le_store_load. eauto with bytes.
Qed.

Lemma htons_store x : le_store 2 (htons x) = rev (le_store 2 x).
Proof. apply (le_store_be_load (le_store 2 x)). eauto with bytes. Qed.
Lemma htonl_store x : le_store 4 (htonl x) = rev (le_store 4 x).
Proof. apply (le_store_be_load (le_store 4 x)). eauto with bytes. Qed.

(** The two bytes [WRITE_NET16] writes. *)
Lemma htons_store_bytes x : le_store 2 (htons x) = [x / 256 mod 256; x mod 256].
Proof. by rewrite htons_store. Qed.

Lemma htons_load bs : bytes_ok bs → zlen bs = 2 → htons (le_load bs) = be_load bs.
Proof.
  intros Hb Hl. unfold htons. replace 2%nat with (length bs) by (unfold zlen in Hl; lia).
  by rewrite le_store_load.
Qed.
Lemma htonl_load bs : bytes_ok bs → zlen bs = 4 → htonl (le_load bs) = be_load bs.
Proof.
  intros Hb Hl. unfold htonl. replace 4%nat with (length bs) by (unfold zlen in Hl; lia).
  by rewrite le_store_load.
Qed.

Lemma htons_range x : 0 ≤ htons x < 65536.
Proof. apply (be_load_range (le_store 2 x)). eauto with bytes. Qed.
#[export] Hint Resolve htons_range : range.

Lemma htons_htons x : htons (htons x) = u16 x.
Proof. unfold htons at 1. rewrite htons_store. apply be_load_rev_store. Qed.

Lemma READ_NET8_ok p off b :
  0 ≤ off → p !! Z.to_nat off = Some b → READ_NET8 p off = Ok b.
Proof.
  intros Hoff Hb. assert (off + 1 ≤ zlen p).
  { apply lookup_lt_Some in Hb. unfold zlen. lia. }
  unfold READ_NET8. rewrite mem_read_ok by lia. simpl.
  apply drop_S in Hb. rewrite Hb. simpl. f_equal. lia.
Qed.

Lemma READ_NET16_ok p off a b :
  bytes_ok p → 0 ≤ off →
  p !! Z.to_nat off = Some a → p !! S (Z.to_nat off) = Some b →
  READ_NET16 p off = Ok (a * 256 + b).
Proof.
  intros Hp Hoff Ha Hb. assert (off + 2 ≤ zlen p).
  { apply lookup_lt_Some in Hb. unfold zlen. lia. }
  unfold READ_NET16. rewrite mem_read_ok by lia. simpl.
  assert (byte_ok a ∧ byte_ok b) as [??] by (split; eapply Forall_lookup_1; eauto).
  apply drop_S in Ha. rewrite Ha. apply drop_S in Hb. rewrite Hb. simpl take.
  rewrite htons_load by (eauto with bytes || done). by rewrite be_load2.
Qed.

Lemma READ_NET16_total p off :
  0 ≤ off → off + 2 ≤ zlen p → ∃ v, READ_NET16 p off = Ok v ∧ 0 ≤ v < 65536.
Proof.
  intros. unfold READ_NET16. rewrite mem_read_ok by lia. eexists. split; [done|]. auto with range.
Qed.
Lemma READ_NET8_total p off :
  bytes_ok p → 0 ≤ off → off + 1 ≤ zlen p → ∃ v, READ_NET8 p off = Ok v ∧ 0 ≤ v < 256.
Proof.
  intros. unfold READ_NET8. rewrite mem_read_ok by lia. eexists. split; [done|].
  pose proof (le_load_range (take (Z.to_nat 1) (drop (Z.to_nat off) p))) as Hr.
  assert (zlen (take (Z.to_nat 1) (drop (Z.to_nat off) p)) = 1) as Hl by len_lia.
  rewrite Hl in Hr. apply Hr. eauto with bytes.
Qed.

(** A value that fits 16 bits is read back where it was written. *)
Lemma READ_WRITE_NET16 m off v m' :
  WRITE_NET16 m off v = Ok m' → READ_NET16 m' off = Ok (u16 v).
Proof.
  unfold WRITE_NET16, mem_write. case_if; [|done]. intros <-%Ok_inj.
  apply in_range_spec in E as (?&?&?). unfold READ_NET16, zlen in *.
  rewrite length_le_store in *.
  rewrite mem_read_ok by (zify_len; rewrite ?length_app, ?length_le_store; len_lia).
  rewrite drop_app_length' by len_lia.
  rewrite take_app_length' by (rewrite length_le_store; lia).
  cbn [mbind result_bind]. by rewrite htons_store, htons_load, be_load_rev_store by
    (eauto with bytes || (unfold zlen; by rewrite length_rev, length_le_store)).
Qed.

Lemma CMP_IPV4_spec a b :
  length a = 4%nat → length b = 4%nat → CMP_IPV4 a b = true ↔ a = b.
Proof.
  intros Ha Hb. unfold CMP_IPV4. rewrite bool_decide_eq_true, !take_ge by lia. done.
Qed.

Lemma CMP_IPV4_refl a : CMP_IPV4 a a = true.
Proof. unfold CMP_IPV4. by apply bool_decide_eq_true. Qed.

(** * Subnet tests, byte by byte *)

Lemma testbit_byte_split a x n :
  0 ≤ a < 256 → 0 ≤ n →
  Z.testbit (a + 256 * x) n = if n <? 8 then Z.testbit a n else Z.testbit x (n - 8).
Proof.
  intros Ha Hn. case_if.
  - rewrite <- (Z.mod_pow2_bits_low (a + 256 * x) 8) by lia.
    change (2 ^ 8) with 256. rewrite (Z.mul_comm 256), Z.mod_add, Z.mod_small by lia.
    done.
  - replace n with (n - 8 + 8) at 1 by lia.
    rewrite <- Z.div_pow2_bits by lia. change (2 ^ 8) with 256.
    rewrite (Z.mul_comm 256), Z.div_add, Z.div_small by lia. done.
Qed.

Lemma land_byte_range a b : 0 ≤ a < 256 → 0 ≤ b < 256 → 0 ≤ Z.land a b < 256.
Proof.
  intros. assert (Z.land a b = Z.land a b mod 2 ^ 8) as ->.
  { apply Z.bits_inj'. intros n Hn. rewrite Z.testbit_mod_pow2, Z.land_spec by lia.
    destruct (Z.ltb_spec n 8); [done|].
    assert (Z.testbit a n = false) as ->; [|done].
    replace a with (a mod 2 ^ 8) by (apply Z.mod_small; lia).
    apply Z.mod_pow2_bits_high. lia. }
  apply Z.mod_pos_bound. lia.
Qed.

Lemma lor_byte_range a b : 0 ≤ a < 256 → 0 ≤ b < 256 → 0 ≤ Z.lor a b < 256.
Proof.
  intros. assert (Z.lor a b = Z.lor a b mod 2 ^ 8) as ->.
  { apply Z.bits_inj'. intros n Hn. rewrite Z.testbit_mod_pow2, Z.lor_spec by lia.
    destruct (Z.ltb_spec n 8); [done|].
    assert (Z.testbit a n = false ∧ Z.testbit b n = false) as [-> ->]; [|done].
    replace a with (a mod 2 ^ 8) by (apply Z.mod_small; lia).
    replace b with (b mod 2 ^ 8) by (apply Z.mod_small; lia).
    split; apply Z.mod_pow2_bits_high; lia. }
  apply Z.mod_pos_bound. lia.
Qed.

Lemma land_byte_split a b x y :
  0 ≤ a < 256 → 0 ≤ b < 256 →
  Z.land (a + 256 * x) (b + 256 * y) = Z.land a b + 256 * Z.land x y.
Proof.
  intros. pose proof (land_byte_range a b). apply Z.bits_inj'. intros n Hn.
  rewrite Z.land_spec, !testbit_byte_split, !Z.land_spec by lia. by case_if.
Qed.

Lemma lor_byte_split a b x y :
  0 ≤ a < 256 → 0 ≤ b < 256 →
  Z.lor (a + 256 * x) (b + 256 * y) = Z.lor a b + 256 * Z.lor x y.
Proof.
  intros. pose proof (lor_byte_range a b). apply Z.bits_inj'. intros n Hn.
  rewrite Z.lor_spec, !testbit_byte_split, !Z.lor_spec by lia. by case_if.
Qed.

Lemma le_load_land l k :
  bytes_ok l → bytes_ok k → length l = length k →
  Z.land (le_load l) (le_load k) = le_load (zip_with Z.land l k).
Proof.
  intros Hl. revert k. induction Hl as [|a l Ha Hl IH]; intros [|b k] Hk E; try done.
  inversion Hk; subst. simpl. rewrite land_byte_split by done. f_equal. f_equal.
  apply IH; [done|]. simpl in E. lia.
Qed.

Lemma le_load_lor l k :
  bytes_ok l → bytes_ok k → length l = length k →
  Z.lor (le_load l) (le_load k) = le_load (zip_with Z.lor l k).
Proof.
  intros Hl. revert k. induction Hl as [|a l Ha Hl IH]; intros [|b k] Hk E; try done.
  inversion Hk; subst. simpl. rewrite lor_byte_split by done. f_equal. f_equal.
  apply IH; [done|]. simpl in E. lia.
Qed.

Lemma zip_land_bytes_ok l k : bytes_ok l → bytes_ok k → bytes_ok (zip_with Z.land l k).
Proof.
  intros Hl. revert k. induction Hl as [|a l Ha Hl IH]; intros [|b k] Hk; try constructor.
  - inversion Hk. by apply land_byte_range.
  - inversion Hk. by apply IH.
Qed.
Lemma zip_lor_bytes_ok l k : bytes_ok l → bytes_ok k → bytes_ok (zip_with Z.lor l k).
Proof.
  intros Hl. revert k. induction Hl as [|a l Ha Hl IH]; intros [|b k] Hk; try constructor.
  - inversion Hk. by apply lor_byte_range.
  - inversion Hk. by apply IH.
Qed.
#[export] Hint Resolve zip_land_bytes_ok zip_lor_bytes_ok : bytes.

(** An IPv4 address held in a [uint8_t[4]]. *)
Definition ip_ok (ip : list Z) : Prop := length ip = 4%nat ∧ bytes_ok ip.

(** The complement of a mask, byte by byte. *)
Definition host_mask (mask : list Z) : list Z := (λ m, 255 - m) <$> mask.

Lemma lnot_mask mask :
  ip_ok mask → u32 (Z.lnot (load32 mask)) = le_load (host_mask mask).
Proof.
  intros [Hl Hm]. unfold load32, u32, host_mask.
  destruct mask as [|a [|b [|c [|d [|??]]]]]; try done.
  repeat match goal with H : bytes_ok (_ :: _) |- _ => inversion H; clear H; subst
    | H : Forall _ (_ :: _) |- _ => inversion H; clear H; subst end.
  unfold byte_ok in *. simpl. unfold Z.lnot.
  rewrite <- (Z.mod_add _ 1), Z.mod_small by lia. lia.
Qed.

Lemma host_mask_bytes_ok mask : bytes_ok mask → bytes_ok (host_mask mask).
Proof.
  intros H. apply Forall_fmap. revert H. apply Forall_impl.
  unfold byte_ok, compose. lia.
Qed.
#[export] Hint Resolve host_mask_bytes_ok : bytes.

(** For four-byte addresses the 32-bit tests of the macros are the usual
    ones: an address is in the subnet when masking it byte by byte gives the
    network address, and it is the broadcast address when it is the network
    address with every host bit set. *)
Theorem subnet_tests_bytewise ip net mask :
  ip_ok ip → ip_ok net → ip_ok mask →
  (IS_SUBNET ip net mask = true ↔ zip_with Z.land ip mask = net) ∧
  (IS_BROADCAST ip net mask = true ↔ ip = zip_with Z.lor net (host_mask mask)).
Proof.
  intros [Hi Hib] [Hn Hnb] Hm. pose proof Hm as [Hm4 Hmb].
  unfold IS_SUBNET, IS_BROADCAST. rewrite lnot_mask by done.
  unfold load32. rewrite !take_ge by lia.
  rewrite le_load_land, le_load_lor by
    (eauto with bytes || (unfold host_mask; rewrite ?length_fmap; lia)).
  rewrite !Z.eqb_eq. split; (split; [intros E|by intros ->]).
  - apply le_load_inj; eauto with bytes. rewrite length_zip_with. lia.
  - symmetry. apply le_load_inj; eauto with bytes.
    unfold host_mask. rewrite length_zip_with, length_fmap. lia.
Qed.

Lemma subnet_tests_bytewise_witness :
  IS_SUBNET [10; 13; 7; 9] [10; 13; 0; 0] [255; 255; 0; 0] = true ∧
  zip_with Z.land [10; 13; 7; 9] [255; 255; 0; 0] = [10; 13; 0; 0].
Proof.
  assert (ip_ok [10; 13; 7; 9] ∧ ip_ok [10; 13; 0; 0] ∧ ip_ok [255; 255; 0; 0])
    as (H1 & H2 & H3) by (repeat split; try done; repeat constructor; unfold byte_ok; lia).
  pose proof (subnet_tests_bytewise _ _ _ H1 H2 H3) as [[Hs _] _].
  split; [reflexivity|]. apply Hs. reflexivity.
Defined.

(** * Byte order conversions *)

Module ByteOrderFacts.
Import ByteOrder.

Lemma value_repr e n x : value e (repr e n x) = x mod 256 ^ Z.of_nat n.
Proof. destruct e; [apply le_load_store|apply be_load_rev_store]. Qed.

Lemma repr_value e bs : bytes_ok bs → repr e (length bs) (value e bs) = bs.
Proof.
  intros H. destruct e; simpl; [by apply le_store_load|].
  by rewrite le_store_be_load, rev_involutive.
Qed.

Lemma repr_bytes_ok e n x : bytes_ok (repr e n x).
Proof. destruct e; simpl; eauto with bytes. Qed.
Lemma length_repr e n x : length (repr e n x) = n.
Proof. destruct e; simpl; rewrite ?length_rev; apply length_le_store. Qed.

Lemma repr_reverse e n x : repr e n (badvpn_reverse e n x) = rev (repr e n x).
Proof.
  unfold badvpn_reverse. rewrite <- (length_repr e n x) at 1.
  rewrite <- length_rev. apply repr_value. pose proof repr_bytes_ok. eauto with bytes.
Qed.

Lemma reverse_reverse e n x :
  badvpn_reverse e n (badvpn_reverse e n x) = x mod 256 ^ Z.of_nat n.
Proof.
  unfold badvpn_reverse at 1. rewrite repr_reverse, rev_involutive. apply value_repr.
Qed.

(** The network and little-endian conversions of a width: what they store is
    the big-endian or little-endian image, and they undo each other. *)
Definition conversions_ok (e : endianness) (n : nat) (hton ntoh htol ltoh : Z → Z) : Prop :=
  ∀ x, 0 ≤ x < 256 ^ Z.of_nat n →
    repr e n (hton x) = rev (le_store n x) ∧ repr e n (htol x) = le_store n x ∧
    ntoh (hton x) = x ∧ ltoh (htol x) = x.

(** On either kind of host, [hton16/32/64] store the big-endian image and
    [htol16/32/64] the little-endian image of their argument, and the [ntoh]
    and [ltoh] functions undo them. *)
Theorem byteorder_conversions_ok e :
  conversions_ok e 2 (hton16 e) (ntoh16 e) (htol16 e) (ltoh16 e) ∧
  conversions_ok e 4 (hton32 e) (ntoh32 e) (htol32 e) (ltoh32 e) ∧
  conversions_ok e 8 (hton64 e) (ntoh64 e) (htol64 e) (ltoh64 e).
Proof.
  unfold conversions_ok, ntoh16, ntoh32, ntoh64, ltoh16, ltoh32, ltoh64,
    hton16, hton32, hton64, htol16, htol32, htol64,
    badvpn_reverse16, badvpn_reverse32, badvpn_reverse64.
  repeat split; destruct e;
    rewrite ?repr_reverse, ?reverse_reverse, ?Z.mod_small by done; simpl;
    rewrite ?rev_involutive; done.
Qed.

End ByteOrderFacts.
