(* ===== verification/Sha1.v ===== *)
(** SHA-1: [client-switch-lan-play/sha1.c] and [sha1.h].

    [SHA1Transform] is translated round by round from the unrolled source,
    the streaming interface [SHA1Init], [SHA1Update], [SHA1Final] with its
    64-byte buffer and its 32-bit counters.  The reference is the description
    of FIPS 180: message schedule, round functions, padding.  The theorems
    show that the unrolled transform computes the reference compression
    function and that a context fed a message in pieces gives the reference
    digest of the whole message. *)
From S2P Require Import Prelude.
From S2P Require Import NetBytes.

(** * The program *)

Module Sha1.

Record SHA1_CTX := mk_ctx {
  state : list Z;    (* uint32_t state[5] *)
  count : list Z;    (* uint32_t count[2] *)
  buffer : list Z    (* unsigned char buffer[64] *)
}.

(** [rol(value, bits)] on [uint32_t]. *)
Definition rol (value bits : Z) : Z :=
  Z.lor (u32 (Z.shiftl value bits)) (Z.shiftr value (32 - bits)).

(** The local variables of [SHA1Transform]. *)
Record work := mk_work { va : Z; vb : Z; vc : Z; vd : Z; ve : Z; block : list Z }.

Inductive var := a | b | c | d | e.

Definition var_get (s : work) (v : var) : Z :=
  match v with a => va s | b => vb s | c => vc s | d => vd s | e => ve s end.

Definition var_set (s : work) (v : var) (x : Z) : work :=
  match v with
  | a => mk_work x (vb s) (vc s) (vd s) (ve s) (block s)
  | b => mk_work (va s) x (vc s) (vd s) (ve s) (block s)
  | c => mk_work (va s) (vb s) x (vd s) (ve s) (block s)
  | d => mk_work (va s) (vb s) (vc s) x (ve s) (block s)
  | e => mk_work (va s) (vb s) (vc s) (vd s) x (block s)
  end.

(** [blk0(i)] on a little-endian host: the value and the block after the
    assignment. *)
Definition blk0 (l : list Z) (i : nat) : Z * list Z :=
  let v := Z.lor (Z.land (rol (l !!! i) 24) 0xFF00FF00)
                 (Z.land (rol (l !!! i) 8) 0x00FF00FF) in
  (v, <[i := v]> l).

Definition blk (l : list Z) (i : nat) : Z * list Z :=
  let v := rol (Z.lxor (Z.lxor (Z.lxor (l !!! Nat.land (i + 13) 15)
                 (l !!! Nat.land (i + 8) 15)) (l !!! Nat.land (i + 2) 15))
                 (l !!! Nat.land i 15)) 1 in
  (v, <[Nat.land i 15 := v]> l).

(** The five round macros share their last two statements:
    [z += f + blk + k + rol(v,5); w = rol(w,30);]. *)
Definition round (f : Z → Z → Z → Z) (word : list Z → nat → Z * list Z) (k : Z)
    (v w x y z : var) (i : nat) (s : work) : work :=
  let g := var_get s in
  let '(m, l) := word (block s) i in
  let z' := u32 (g z + (f (g w) (g x) (g y) + m + k + rol (g v) 5)) in
  let w' := rol (g w) 30 in
  let s := mk_work (va s) (vb s) (vc s) (vd s) (ve s) l in
  var_set (var_set s z z') w w'.

Definition R0 := round (λ w x y, Z.lxor (Z.land w (Z.lxor x y)) y) blk0 0x5A827999.
Definition R1 := round (λ w x y, Z.lxor (Z.land w (Z.lxor x y)) y) blk 0x5A827999.
Definition R2 := round (λ w x y, Z.lxor (Z.lxor w x) y) blk 0x6ED9EBA1.
Definition R3 := round (λ w x y, Z.lor (Z.land (Z.lor w x) y) (Z.land w x)) blk 0x8F1BBCDC.
Definition R4 := round (λ w x y, Z.lxor (Z.lxor w x) y) blk 0xCA62C1D6.

(** "4 rounds of 20 operations each. Loop unrolled." *)
Definition rounds : list (work → work) := [
  R0 a b c d e 0; R0 e a b c d 1; R0 d e a b c 2; R0 c d e a b 3;
  R0 b c d e a 4; R0 a b c d e 5; R0 e a b c d 6; R0 d e a b c 7;
  R0 c d e a b 8; R0 b c d e a 9; R0 a b c d e 10; R0 e a b c d 11;
  R0 d e a b c 12; R0 c d e a b 13; R0 b c d e a 14; R0 a b c d e 15;
  R1 e a b c d 16; R1 d e a b c 17; R1 c d e a b 18; R1 b c d e a 19;
  R2 a b c d e 20; R2 e a b c d 21; R2 d e a b c 22; R2 c d e a b 23;
  R2 b c d e a 24; R2 a b c d e 25; R2 e a b c d 26; R2 d e a b c 27;
  R2 c d e a b 28; R2 b c d e a 29; R2 a b c d e 30; R2 e a b c d 31;
  R2 d e a b c 32; R2 c d e a b 33; R2 b c d e a 34; R2 a b c d e 35;
  R2 e a b c d 36; R2 d e a b c 37; R2 c d e a b 38; R2 b c d e a 39;
  R3 a b c d e 40; R3 e a b c d 41; R3 d e a b c 42; R3 c d e a b 43;
  R3 b c d e a 44; R3 a b c d e 45; R3 e a b c d 46; R3 d e a b c 47;
  R3 c d e a b 48; R3 b c d e a 49; R3 a b c d e 50; R3 e a b c d 51;
  R3 d e a b c 52; R3 c d e a b 53; R3 b c d e a 54; R3 a b c d e 55;
  R3 e a b c d 56; R3 d e a b c 57; R3 c d e a b 58; R3 b c d e a 59;
  R4 a b c d e 60; R4 e a b c d 61; R4 d e a b c 62; R4 c d e a b 63;
  R4 b c d e a 64; R4 a b c d e 65; R4 e a b c d 66; R4 d e a b c 67;
  R4 c d e a b 68; R4 b c d e a 69; R4 a b c d e 70; R4 e a b c d 71;
  R4 d e a b c 72; R4 c d e a b 73; R4 b c d e a 74; R4 a b c d e 75;
  R4 e a b c d 76; R4 d e a b c 77; R4 c d e a b 78; R4 b c d e a 79 ]%nat.

(** [block->l] after [memcpy(block, buffer, 64)]: sixteen host words. *)
Fixpoint load_words (n : nat) (bs : list Z) : list Z :=
  match n with O => [] | S n => le_load (take 4 bs) :: load_words n (drop 4 bs) end.

Definition SHA1Transform (st : list Z) (buf : list Z) : result (list Z) :=
  bytes ← mem_read buf 0 64;
  match st with
  | [s0; s1; s2; s3; s4] =>
      let w := foldl (λ s f, f s) (mk_work s0 s1 s2 s3 s4 (load_words 16 bytes)) rounds in
      Ok [u32 (s0 + va w); u32 (s1 + vb w); u32 (s2 + vc w); u32 (s3 + vd w); u32 (s4 + ve w)]
  | _ => Fail OutOfBounds
  end.

Definition SHA1Init (context : SHA1_CTX) : SHA1_CTX :=
  mk_ctx [0x67452301; 0xEFCDAB89; 0x98BADCFE; 0x10325476; 0xC3D2E1F0] [0; 0] (buffer context).

(** [for ( ; i + 63 < len; i += 64) SHA1Transform(context->state, &data[i]);]
    returns the state and the final [i]. *)
Fixpoint transform_loop (fuel : nat) (st : list Z) (data : list Z) (i len : Z)
    : result (list Z * Z) :=
  match fuel with
  | O => Fail OutOfFuel
  | S fuel =>
      if u32 (i + 63) <? len then
        st ← SHA1Transform st (drop (Z.to_nat i) data);
        transform_loop fuel st data (u32 (i + 64)) len
      else Ok (st, i)
  end.

Definition SHA1Update (context : SHA1_CTX) (data : list Z) (len : Z) : result SHA1_CTX :=
  let j := count context !!! 0%nat in
  let c0 := u32 (j + u32 (Z.shiftl len 3)) in
  let c1 := if c0 <? j then u32 (count context !!! 1%nat + 1) else count context !!! 1%nat in
  let c1 := u32 (c1 + Z.shiftr len 29) in
  let j := Z.land (Z.shiftr j 3) 63 in
  '(st, buf, i, j) ←
    (if u32 (j + len) >? 63 then
       let i := 64 - j in
       bs ← mem_read data 0 i;
       buf ← mem_write (buffer context) j bs;
       st ← SHA1Transform (state context) buf;
       '(st, i) ← transform_loop (S (Z.to_nat (len / 64))) st data i len;
       Ok (st, buf, i, 0)
     else Ok (state context, buffer context, 0, j));
  bs ← mem_read data i (len - i);
  buf ← mem_write buf j bs;
  Ok (mk_ctx st [c0; c1] buf).

(** [while ((context->count[0] & 504) != 448) { c = 0000; SHA1Update(context, &c, 1); }] *)
Fixpoint pad_loop (fuel : nat) (context : SHA1_CTX) : result SHA1_CTX :=
  if Z.land (count context !!! 0%nat) 504 =? 448 then Ok context
  else match fuel with
       | O => Fail OutOfFuel
       | S fuel => context ← SHA1Update context [0] 1; pad_loop fuel context
       end.

Definition finalcount (cnt : list Z) : list Z :=
  (λ i, Z.land (Z.shiftr (cnt !!! (if (4 <=? i)%nat then 0%nat else 1%nat))
                  ((3 - Z.land (Z.of_nat i) 3) * 8)) 255) <$> seq 0 8.

(** The digest; the context is wiped afterwards. *)
Definition SHA1Final (context : SHA1_CTX) : result (list Z * SHA1_CTX) :=
  let fc := finalcount (count context) in
  context ← SHA1Update context [128] 1;
  context ← pad_loop 64 context;
  context ← SHA1Update context fc 8;
  let digest := (λ i, Z.land (Z.shiftr (state context !!! Nat.div i 4)
                  ((3 - Z.land (Z.of_nat i) 3) * 8)) 255) <$> seq 0 20 in
  Ok (digest, mk_ctx (replicate 5 0) (replicate 2 0) (replicate 64 0)).

(** [SHA1Init], one or more [SHA1Update]s, [SHA1Final], as the callers use them. *)
Fixpoint update_all (context : SHA1_CTX) (parts : list (list Z)) : result SHA1_CTX :=
  match parts with
  | [] => Ok context
  | p :: ps => context ← SHA1Update context p (zlen p); update_all context ps
  end.
Definition digest_of (uninit : SHA1_CTX) (parts : list (list Z)) : result (list Z) :=
  context ← update_all (SHA1Init uninit) parts;
  '(dg, _) ← SHA1Final context;
  Ok dg.

End Sha1.

(** * The reference: FIPS 180 *)

Module Fips.

Definition rotl (n x : Z) : Z := Z.lor (Z.shiftl x n mod 2 ^ 32) (Z.shiftr x (32 - n)).

Definition ch (x y z : Z) : Z := Z.lxor (Z.land x y) (Z.land (Z.lnot x) z).
Definition parity (x y z : Z) : Z := Z.lxor (Z.lxor x y) z.
Definition maj (x y z : Z) : Z :=
  Z.lxor (Z.lxor (Z.land x y) (Z.land x z)) (Z.land y z).

Definition f (t : nat) : Z → Z → Z → Z :=
  if (t <? 20)%nat then ch else if (t <? 40)%nat then parity
  else if (t <? 60)%nat then maj else parity.
Definition k (t : nat) : Z :=
  if (t <? 20)%nat then 0x5A827999 else if (t <? 40)%nat then 0x6ED9EBA1
  else if (t <? 60)%nat then 0x8F1BBCDC else 0xCA62C1D6.

(** The sixteen big-endian words of a block. *)
Fixpoint words (n : nat) (bs : list Z) : list Z :=
  match n with O => [] | S n => be_load (take 4 bs) :: words n (drop 4 bs) end.

(** Message schedule: each further word from four earlier ones. *)
Definition extend (ws : list Z) : list Z :=
  let t := length ws in
  ws ++ [rotl 1 (Z.lxor (Z.lxor (Z.lxor (ws !!! (t - 3)%nat) (ws !!! (t - 8)%nat))
                   (ws !!! (t - 14)%nat)) (ws !!! (t - 16)%nat))].
Definition schedule (bs : list Z) : list Z := Nat.iter 64 extend (words 16 bs).

Record hash := mk_hash { ha : Z; hb : Z; hc : Z; hd : Z; he : Z }.

Definition step (W : list Z) (h : hash) (t : nat) : hash :=
  let T := (rotl 5 (ha h) + f t (hb h) (hc h) (hd h) + he h + k t + W !!! t) mod 2 ^ 32 in
  mk_hash T (ha h) (rotl 30 (hb h)) (hc h) (hd h).

Definition compress (h : hash) (bs : list Z) : hash :=
  let h' := foldl (step (schedule bs)) h (seq 0 80) in
  mk_hash ((ha h + ha h') mod 2 ^ 32) ((hb h + hb h') mod 2 ^ 32)
    ((hc h + hc h') mod 2 ^ 32) ((hd h + hd h') mod 2 ^ 32) ((he h + he h') mod 2 ^ 32).

Definition iv : hash := mk_hash 0x67452301 0xEFCDAB89 0x98BADCFE 0x10325476 0xC3D2E1F0.

(** The hash after the first [n] blocks of [m]. *)
Fixpoint blocks (n : nat) (h : hash) (m : list Z) : hash :=
  match n with O => h | S n => blocks n (compress h (take 64 m)) (drop 64 m) end.

(** Zero bytes of padding: the padded length is 56 modulo 64 before the
    64-bit length is appended. *)
Definition pad_zeros (len : nat) : nat := ((119 - len mod 64) mod 64)%nat.

Definition pad (m : list Z) : list Z :=
  m ++ [0x80] ++ replicate (pad_zeros (length m)) 0 ++ rev (le_store 8 (8 * zlen m)).

Definition hash_words (h : hash) : list Z := [ha h; hb h; hc h; hd h; he h].

Definition sha1 (m : list Z) : list Z :=
  let p := pad m in
  mjoin ((λ w, rev (le_store 4 w)) <$> hash_words (blocks (length p / 64) iv p)).

End Fips.

(** * The transform computes the reference compression function *)

Module TransformFacts.
Import Sha1.

Lemma rol_rotl v n : rol v n = Fips.rotl n v.
Proof. done. Qed.

Ltac bitwise :=
  apply Z.bits_inj'; intros n Hn;
  rewrite ?Z.lxor_spec, ?Z.land_spec, ?Z.lor_spec, ?Z.lnot_spec, ?Z.lxor_spec,
    ?Z.land_spec, ?Z.lor_spec, ?Z.lnot_spec by lia;
  repeat match goal with |- context [Z.testbit ?x n] => destruct (Z.testbit x n) end;
  reflexivity.

Lemma ch_eq w x y : Z.lxor (Z.land w (Z.lxor x y)) y = Fips.ch w x y.
Proof. unfold Fips.ch. bitwise. Qed.
Lemma maj_eq w x y : Z.lor (Z.land (Z.lor w x) y) (Z.land w x) = Fips.maj w x y.
Proof. unfold Fips.maj. bitwise. Qed.

(** [blk0] swaps the bytes of a word. *)
Lemma rol8_bytes p q r s :
  byte_ok p → byte_ok q → byte_ok r → byte_ok s →
  rol (le_load [p; q; r; s]) 8 = le_load [s; p; q; r].
Proof.
  intros ????. unfold rol. rewrite Z.shiftl_mul_pow2, Z.shiftr_div_pow2 by lia.
  unfold byte_ok, u32 in *.
  assert (le_load [p; q; r; s] * 2 ^ 8 mod 2 ^ 32 = le_load [0; p; q; r]) as ->
    by (cbn [le_load]; Z.div_mod_to_equations; lia).
  assert (le_load [p; q; r; s] / 2 ^ (32 - 8) = le_load [s; 0; 0; 0]) as ->
    by (cbn [le_load]; Z.div_mod_to_equations; lia).
  rewrite le_load_lor by (repeat constructor; done || lia).
  simpl zip_with. by rewrite !Z.lor_0_r, Z.lor_0_l.
Qed.

Lemma rol24_bytes p q r s :
  byte_ok p → byte_ok q → byte_ok r → byte_ok s →
  rol (le_load [p; q; r; s]) 24 = le_load [q; r; s; p].
Proof.
  intros ????. unfold rol. rewrite Z.shiftl_mul_pow2, Z.shiftr_div_pow2 by lia.
  unfold byte_ok, u32 in *.
  assert (le_load [p; q; r; s] * 2 ^ 24 mod 2 ^ 32 = le_load [0; 0; 0; p]) as ->
    by (cbn [le_load]; Z.div_mod_to_equations; lia).
  assert (le_load [p; q; r; s] / 2 ^ (32 - 24) = le_load [q; r; s; 0]) as ->
    by (cbn [le_load]; Z.div_mod_to_equations; lia).
  rewrite le_load_lor by (repeat constructor; done || lia).
  simpl zip_with. by rewrite !Z.lor_0_r, !Z.lor_0_l.
Qed.

Lemma land_255 x : byte_ok x → Z.land x 255 = x.
Proof.
  intros H. unfold byte_ok in H. change 255 with (Z.ones 8).
  rewrite Z.land_ones by lia. apply Z.mod_small. lia.
Qed.

Lemma blk0_swap p q r s :
  byte_ok p → byte_ok q → byte_ok r → byte_ok s →
  Z.lor (Z.land (rol (le_load [p; q; r; s]) 24) 0xFF00FF00)
        (Z.land (rol (le_load [p; q; r; s]) 8) 0x00FF00FF) = be_load [p; q; r; s].
Proof.
  intros ????. rewrite rol24_bytes, rol8_bytes by done.
  change 0xFF00FF00 with (le_load [0; 255; 0; 255]).
  change 0x00FF00FF with (le_load [255; 0; 255; 0]).
  rewrite !le_load_land by (repeat constructor; unfold byte_ok in *; lia || done).
  simpl zip_with. rewrite !land_255, !Z.land_0_r by done.
  rewrite le_load_lor by (repeat constructor; unfold byte_ok in *; lia || done).
  simpl zip_with. by rewrite !Z.lor_0_r, !Z.lor_0_l.
Qed.

(** ** The two message schedules *)

Lemma load_words_lookup n bs i :
  (i < n)%nat → load_words n bs !!! i = le_load (take 4 (drop (4 * i) bs)).
Proof.
  revert bs i. induction n as [|n IH]; intros bs [|i] Hi; try lia; [done|].
  simpl. change (load_words n (drop 4 bs) !!! i = le_load (take 4 (drop (4 * S i) bs))).
  rewrite IH, drop_drop by lia. do 3 f_equal. lia.
Qed.

Lemma words_lookup n bs i :
  (i < n)%nat → Fips.words n bs !!! i = be_load (take 4 (drop (4 * i) bs)).
Proof.
  revert bs i. induction n as [|n IH]; intros bs [|i] Hi; try lia; [done|].
  simpl. change (Fips.words n (drop 4 bs) !!! i = be_load (take 4 (drop (4 * S i) bs))).
  rewrite IH, drop_drop by lia. do 3 f_equal. lia.
Qed.

Lemma length_load_words n bs : length (load_words n bs) = n.
Proof. revert bs. induction n; intros; simpl; auto. Qed.
Lemma length_words n bs : length (Fips.words n bs) = n.
Proof. revert bs. induction n; intros; simpl; auto. Qed.

Lemma length_iter_extend n ws : length (Nat.iter n Fips.extend ws) = (length ws + n)%nat.
Proof.
  induction n as [|n IH]; simpl; [lia|]. unfold Fips.extend at 1.
  rewrite length_app, IH. simpl. lia.
Qed.

Lemma iter_extend_lookup n ws i :
  (i < length ws + n)%nat → (16 ≤ length ws)%nat →
  let W := Nat.iter n Fips.extend ws in
  if (i <? length ws)%nat then W !!! i = ws !!! i else
  W !!! i = Fips.rotl 1 (Z.lxor (Z.lxor (Z.lxor (W !!! (i - 3)%nat) (W !!! (i - 8)%nat))
                   (W !!! (i - 14)%nat)) (W !!! (i - 16)%nat)).
Proof.
  intros Hi H16. induction n as [|n IH]; [by rewrite (proj2 (Nat.ltb_lt _ _)) by lia|].
  cbn zeta in *. simpl Nat.iter. pose proof (length_iter_extend n ws) as Hl.
  set (V := Nat.iter n Fips.extend ws) in *. unfold Fips.extend. rewrite Hl.
  destruct (decide (i = length ws + n)%nat) as [->|Hne].
  - rewrite (proj2 (Nat.ltb_ge _ _)) by lia.
    rewrite lookup_total_app_r, Hl, Nat.sub_diag by lia.
    rewrite !lookup_total_app_l by lia. done.
  - specialize (IH ltac:(lia)). rewrite !lookup_total_app_l by lia. done.
Qed.

Lemma schedule_lookup bs t :
  (t < 80)%nat →
  let W := Fips.schedule bs in
  if (t <? 16)%nat then W !!! t = Fips.words 16 bs !!! t else
  W !!! t = Fips.rotl 1 (Z.lxor (Z.lxor (Z.lxor (W !!! (t - 3)%nat) (W !!! (t - 8)%nat))
                   (W !!! (t - 14)%nat)) (W !!! (t - 16)%nat)).
Proof.
  intros Ht. unfold Fips.schedule.
  pose proof (iter_extend_lookup 64 (Fips.words 16 bs) t) as HW.
  rewrite length_words in HW. apply HW; lia.
Qed.
#[local] Opaque Fips.schedule.

(** What the circular block holds before round [t]. *)
Definition sched_inv (bs : list Z) (t : nat) (l : list Z) : Prop :=
  length l = 16%nat ∧
  (∀ s, (s < t)%nat → (t ≤ s + 16)%nat → l !!! (s mod 16)%nat = Fips.schedule bs !!! s) ∧
  (∀ s, (t ≤ s < 16)%nat → l !!! s = load_words 16 bs !!! s).

Definition word_at (t : nat) : list Z → nat → Z * list Z :=
  if (t <? 16)%nat then blk0 else blk.

Lemma land_15 n : Nat.land n 15 = (n mod 16)%nat.
Proof. apply (Nat.land_ones n 4). Qed.

Lemma insert_lookup_total (l : list Z) i j x :
  (i < length l)%nat → <[i := x]> l !!! j = if decide (i = j) then x else l !!! j.
Proof.
  intros Hi. destruct (decide (i = j)) as [->|].
  - by apply list_lookup_total_insert_eq.
  - by apply list_lookup_total_insert_ne.
Qed.

Lemma sched_inv_insert bs t l x :
  sched_inv bs t l → x = Fips.schedule bs !!! t →
  sched_inv bs (S t) (<[(t mod 16)%nat := x]> l).
Proof.
  intros (Hl & Hs & Hr) ->. pose proof (Nat.mod_upper_bound t 16).
  split_and!; [by rewrite length_insert| |]; intros s ?; try intros ?;
    rewrite insert_lookup_total by lia; case_decide as Heq.
  - assert (s = t) as ->; [|done]. pose proof (Nat.div_mod_eq t 16).
    pose proof (Nat.div_mod_eq s 16). lia.
  - destruct (decide (s = t)) as [->|]; [done|]. apply Hs; lia.
  - rewrite Nat.mod_small in Heq by lia. lia.
  - apply Hr. lia.
Qed.

Lemma word_at_ok bs t l :
  bytes_ok bs → length bs = 64%nat → (t < 80)%nat → sched_inv bs t l →
  let '(m, l') := word_at t l t in
  m = Fips.schedule bs !!! t ∧ sched_inv bs (S t) l'.
Proof.
  intros Hb Hlen Ht Hinv. pose proof Hinv as (Hl & Hs & Hr).
  pose proof (schedule_lookup bs t Ht) as HW. cbn zeta in HW. unfold word_at. destruct (Nat.ltb_spec t 16).
  - set (v := fst (blk0 l t)). assert (v = Fips.schedule bs !!! t) as Hv.
    { unfold v. cbn [fst blk0]. rewrite Hr, load_words_lookup by lia.
      rewrite HW, words_lookup by lia.
      pose proof (bytes_ok_take 4 _ (bytes_ok_drop (4 * t) bs Hb)) as Hx.
      assert (length (take 4 (drop (4 * t) bs)) = 4%nat) as Hx4
        by (rewrite length_take, length_drop; lia).
      destruct (take 4 (drop (4 * t) bs)) as [|p [|q [|r [|s [|??]]]]]; try done.
      unfold bytes_ok in Hx. rewrite !Forall_cons_iff in Hx. apply blk0_swap; tauto. }
    split; [done|]. fold v. replace t with (t mod 16)%nat at 2 by (apply Nat.mod_small; lia).
    by apply sched_inv_insert.
  - set (v := fst (blk l t)). assert (v = Fips.schedule bs !!! t) as Hv.
    { unfold v. cbn [fst blk]. rewrite HW, !land_15, rol_rotl.
      assert (∀ j, (j ≤ 16)%nat → ((t + (16 - j)) mod 16 = (t - j) mod 16)%nat) as Hmod.
      { intros j Hj. replace (t + (16 - j))%nat with (t - j + 1 * 16)%nat by lia.
        apply Nat.Div0.mod_add. }
      pose proof (Hmod 3%nat ltac:(lia)) as H3. pose proof (Hmod 8%nat ltac:(lia)) as H8.
      pose proof (Hmod 14%nat ltac:(lia)) as H14. pose proof (Hmod 16%nat ltac:(lia)) as H16.
      simpl (16 - _)%nat in *. rewrite Nat.add_0_r in H16.
      rewrite H3, H8, H14, H16, !Hs by lia. done. }
    split; [done|]. change (sched_inv bs (S t) (<[Nat.land t 15 := v]> l)).
    rewrite land_15. by apply sched_inv_insert.
Qed.

(** ** The unrolled rounds *)

(** The variables that play [v], [w], [x], [y], [z] in round [t]. *)
Definition role (t : nat) : var * var * var * var * var :=
  match (t mod 5)%nat with
  | 0%nat => (a, b, c, d, e) | 1%nat => (e, a, b, c, d) | 2%nat => (d, e, a, b, c)
  | 3%nat => (c, d, e, a, b) | _ => (b, c, d, e, a)
  end.

Definition round_at (t : nat) : work → work :=
  let '(v, w, x, y, z) := role t in
  (if (t <? 16)%nat then R0 else if (t <? 20)%nat then R1 else if (t <? 40)%nat then R2
   else if (t <? 60)%nat then R3 else R4) v w x y z t.

Lemma rounds_eq : rounds = round_at <$> seq 0 80.
Proof. reflexivity. Qed.

(** The reference state the variables hold before round [t]. *)
Definition view (t : nat) (s : work) : Fips.hash :=
  let '(v, w, x, y, z) := role t in
  Fips.mk_hash (var_get s v) (var_get s w) (var_get s x) (var_get s y) (var_get s z).

Lemma role_cases t :
  (role t, role (S t)) ∈
    [((a, b, c, d, e), (e, a, b, c, d)); ((e, a, b, c, d), (d, e, a, b, c));
     ((d, e, a, b, c), (c, d, e, a, b)); ((c, d, e, a, b), (b, c, d, e, a));
     ((b, c, d, e, a), (a, b, c, d, e))].
Proof.
  assert (∀ n, (n < 5)%nat → (t mod 5 = n)%nat → (S t mod 5 = S n mod 5)%nat) as HS.
  { intros n Hn <-. rewrite <- Nat.add_1_r, <- (Nat.add_1_r (t mod 5)).
    by rewrite Nat.Div0.add_mod_idemp_l. }
  pose proof (Nat.mod_upper_bound t 5 ltac:(lia)). unfold role.
  destruct (t mod 5)%nat as [|[|[|[|[|n]]]]] eqn:E; try lia;
    erewrite HS by (eauto; lia); repeat constructor.
Qed.

Lemma round_view f word kk t s :
  let '(v, w, x, y, z) := role t in
  let '(m, l) := word (block s) t in
  let h := view t s in
  view (S t) (round f word kk v w x y z t s) =
    Fips.mk_hash (u32 (Fips.he h + (f (Fips.hb h) (Fips.hc h) (Fips.hd h) + m + kk
                        + rol (Fips.ha h) 5)))
      (Fips.ha h) (rol (Fips.hb h) 30) (Fips.hc h) (Fips.hd h) ∧
  block (round f word kk v w x y z t s) = l.
Proof.
  pose proof (role_cases t) as Hr. unfold view.
  rewrite !elem_of_cons, elem_of_nil in Hr.
  destruct_or! Hr; try done; injection Hr as -> ->; unfold round;
    destruct (word (block s) t) as [m l]; done.
Qed.

Lemma round_at_ok bs t s :
  bytes_ok bs → length bs = 64%nat → (t < 80)%nat → sched_inv bs t (block s) →
  view (S t) (round_at t s) = Fips.step (Fips.schedule bs) (view t s) t ∧
  sched_inv bs (S t) (block (round_at t s)).
Proof.
  intros Hb Hl Ht Hinv. pose proof (word_at_ok bs t (block s) Hb Hl Ht Hinv) as Hw.
  assert (∃ f, round_at t s = (let '(v, w, x, y, z) := role t in
            round f (word_at t) (Fips.k t) v w x y z t s) ∧
          ∀ x y z, f x y z = Fips.f t x y z) as (f & -> & Hf).
  { unfold round_at, word_at, Fips.k, Fips.f.
    destruct (role t) as [[[[v w] x] y] z].
    destruct (Nat.ltb_spec t 16), (Nat.ltb_spec t 20), (Nat.ltb_spec t 40),
      (Nat.ltb_spec t 60); try lia; eexists; (split; [reflexivity|]); intros;
      first [apply ch_eq | apply maj_eq | reflexivity]. }
  pose proof (round_view f (word_at t) (Fips.k t) t s) as Hv.
  destruct (role t) as [[[[v w] x] y] z]. destruct (word_at t (block s) t) as [m l].
  cbn zeta in Hv. destruct Hv as [-> ->], Hw as [-> Hi]. split; [|done].
  unfold Fips.step, u32. rewrite Hf, !rol_rotl. f_equal. f_equal. lia.
Qed.

Lemma rounds_from n t bs s :
  bytes_ok bs → length bs = 64%nat → (t + n ≤ 80)%nat → sched_inv bs t (block s) →
  view (t + n) (foldl (λ s f, f s) s (round_at <$> seq t n)) =
    foldl (Fips.step (Fips.schedule bs)) (view t s) (seq t n).
Proof.
  intros Hb Hl. revert t s. induction n as [|n IH]; intros t s Ht Hi.
  { by rewrite Nat.add_0_r. }
  pose proof (round_at_ok bs t s Hb Hl ltac:(lia) Hi) as [Hv Hi'].
  cbn [seq fmap list_fmap foldl]. rewrite <- Hv, <- Nat.add_succ_comm. apply IH; [lia|done].
Qed.

Definition vars (s : work) : Fips.hash := Fips.mk_hash (va s) (vb s) (vc s) (vd s) (ve s).

Lemma view_0 s : view 0 s = vars s.
Proof. reflexivity. Qed.
Lemma view_80 s : view 80 s = vars s.
Proof. reflexivity. Qed.

Lemma rounds_ok bs s :
  bytes_ok bs → length bs = 64%nat → block s = load_words 16 bs →
  ∃ w, foldl (λ s f, f s) s rounds = w ∧
       vars w = foldl (Fips.step (Fips.schedule bs)) (vars s) (seq 0 80).
Proof.
  intros Hb Hl Hs. rewrite rounds_eq. eexists. split; [reflexivity|].
  rewrite <- view_80, <- (view_0 s). apply (rounds_from 80 0); [done|done|lia|].
  split_and!; [by rewrite Hs, length_load_words|intros; lia|by rewrite Hs].
Qed.

(** The unrolled transform on a five-word state and a 64-byte block. *)
Lemma SHA1Transform_ok h bs rest :
  bytes_ok bs → length bs = 64%nat →
  SHA1Transform (Fips.hash_words h) (bs ++ rest) = Ok (Fips.hash_words (Fips.compress h bs)).
Proof.
  intros Hb Hl. unfold SHA1Transform. rewrite mem_read_app_l, mem_read_ok by len_lia.
  cbn [mbind result_bind]. rewrite drop_0, take_ge by lia.
  unfold Fips.hash_words at 1. cbn zeta.
  destruct (rounds_ok bs (mk_work (Fips.ha h) (Fips.hb h) (Fips.hc h) (Fips.hd h) (Fips.he h)
    (load_words 16 bs)) Hb Hl eq_refl) as (w & -> & Hw).
  unfold Fips.compress. unfold vars in Hw at 2. cbn [va vb vc vd ve] in Hw.
  replace (Fips.mk_hash (Fips.ha h) (Fips.hb h) (Fips.hc h) (Fips.hd h) (Fips.he h)) with h
    in Hw by (by destruct h).
  rewrite <- Hw. reflexivity.
Qed.

Lemma SHA1Transform_block h bs :
  bytes_ok bs → length bs = 64%nat →
  SHA1Transform (Fips.hash_words h) bs = Ok (Fips.hash_words (Fips.compress h bs)).
Proof. intros. rewrite <- (SHA1Transform_ok h bs []) by done. by rewrite app_nil_r. Qed.
End TransformFacts.

(** * The streaming interface *)

Module StreamFacts.
Import Sha1 TransformFacts.
#[local] Opaque Fips.compress.

Lemma blocks_S q h p :
  Fips.blocks (S q) h p = Fips.compress (Fips.blocks q h p) (take 64 (drop (64 * q) p)).
Proof.
  revert h p. induction q as [|q IH]; intros h p; [done|].
  change (Fips.blocks (S (S q)) h p) with (Fips.blocks (S q) (Fips.compress h (take 64 p)) (drop 64 p)).
  rewrite IH, drop_drop.
  replace (64 + 64 * q)%nat with (64 * S q)%nat by lia. reflexivity.
Qed.

Lemma blocks_app q h p k :
  (64 * q ≤ length p)%nat → Fips.blocks q h (p ++ k) = Fips.blocks q h p.
Proof.
  revert h p. induction q as [|q IH]; intros h p Hq; [done|].
  cbn [Fips.blocks]. rewrite take_app_le, drop_app_le by lia. apply IH.
  rewrite length_drop. lia.
Qed.

(** The context [c] has been fed the message [m]. *)
Record ctx_rep (m : list Z) (c : SHA1_CTX) : Prop := {
  rep_state : state c = Fips.hash_words (Fips.blocks (length m / 64) Fips.iv m);
  rep_count : count c = [u32 (8 * zlen m); u32 (8 * zlen m / 2 ^ 32)];
  rep_len : length (buffer c) = 64%nat;
  rep_tail : take (length m mod 64) (buffer c) = drop (64 * (length m / 64)) m
}.

Lemma ctx_rep_init u : length (buffer u) = 64%nat → ctx_rep [] (SHA1Init u).
Proof. intros H. split; [done..|]. simpl. by rewrite take_0. Qed.

Lemma transform_loop_ok m data p fuel q i :
  p = m ++ data → bytes_ok data → (64 * q = length m + i)%nat → (i ≤ length data)%nat →
  zlen data < 2 ^ 32 - 64 → (length data - i < 64 * fuel)%nat →
  ∃ i', transform_loop fuel (Fips.hash_words (Fips.blocks q Fips.iv p)) data (Z.of_nat i) (zlen data)
        = Ok (Fips.hash_words (Fips.blocks (length p / 64) Fips.iv p), Z.of_nat i') ∧
        (64 * (length p / 64) = length m + i')%nat ∧ (i' ≤ length data)%nat.
Proof.
  intros Hp Hd. revert q i. induction fuel as [|fuel IH]; intros q i Hq Hi Hlen Hf; [lia|].
  cbn [transform_loop]. unfold zlen in *. rewrite u32_small by lia.
  destruct (Z.ltb_spec (Z.of_nat i + 63) (Z.of_nat (length data))).
  - rewrite Nat2Z.id, <- (take_drop 64 (drop i data)).
    rewrite SHA1Transform_ok by (eauto with bytes || (rewrite length_take, length_drop; lia)).
    cbn [mbind result_bind].
    assert (drop i data = drop (64 * q) p) as ->.
    { rewrite Hp, Hq, drop_app_ge by lia. f_equal. lia. }
    rewrite <- blocks_S, u32_small by lia.
    replace (Z.of_nat i + 64) with (Z.of_nat (i + 64)) by lia. apply IH; lia.
  - exists i. assert (length p = length m + length data)%nat by (rewrite Hp; apply length_app).
    assert (length p / 64 = q)%nat as Hqq
      by (symmetry; apply (Nat.div_unique _ _ _ (length data - i)); lia).
    rewrite Hqq. split_and!; [done|lia|lia].
Qed.

Lemma update_count L D :
  0 ≤ L → 0 ≤ D →
  let c0 := u32 (u32 L + u32 (Z.shiftl D 3)) in
  let c1 := u32 (L / 2 ^ 32) in
  c0 = u32 (L + 8 * D) ∧
  u32 ((if c0 <? u32 L then u32 (c1 + 1) else c1) + Z.shiftr D 29) = u32 ((L + 8 * D) / 2 ^ 32).
Proof.
  intros HL HD. cbn zeta. rewrite Z.shiftl_mul_pow2, Z.shiftr_div_pow2 by lia.
  unfold u32. change (2 ^ 32) with 4294967296. change (2 ^ 3) with 8.
  change (2 ^ 29) with 536870912.
  split; [Z.div_mod_to_equations; lia|]. case_if; Z.div_mod_to_equations; lia.
Qed.

Lemma update_index n :
  0 ≤ n → Z.land (Z.shiftr (u32 (8 * n)) 3) 63 = n mod 64.
Proof.
  intros. change 63 with (Z.ones 6). rewrite Z.land_ones, Z.shiftr_div_pow2 by lia.
  unfold u32. change (2 ^ 32) with 4294967296. change (2 ^ 3) with 8. change (2 ^ 6) with 64.
  Z.div_mod_to_equations. lia.
Qed.

Lemma update_len_mod (m data : list Z) q r :
  (length m + length data = 64 * q + r)%nat → (r < 64)%nat →
  (length (m ++ data) / 64 = q)%nat ∧ (length (m ++ data) mod 64 = r)%nat.
Proof.
  intros H Hr. rewrite length_app.
  split; [symmetry; by apply (Nat.div_unique _ _ _ r)|symmetry; by apply (Nat.mod_unique _ _ q)].
Qed.

(** [SHA1Update] with the counters and the buffer index it computes. *)
Lemma SHA1Update_unfold m data c :
  zlen data < 2 ^ 32 - 64 → ctx_rep m c →
  let r := Z.of_nat (length m mod 64) in
  SHA1Update c data (zlen data) =
    '(st, buf, i, j) ←
      (if r + zlen data >? 63 then
         bs ← mem_read data 0 (64 - r);
         buf ← mem_write (buffer c) r bs;
         st ← SHA1Transform (state c) buf;
         '(st, i) ← transform_loop (S (Z.to_nat (zlen data / 64))) st data (64 - r) (zlen data);
         Ok (st, buf, i, 0)
       else Ok (state c, buffer c, 0, r));
    bs ← mem_read data i (zlen data - i);
    buf ← mem_write buf j bs;
    Ok (mk_ctx st [u32 (8 * zlen (m ++ data)); u32 (8 * zlen (m ++ data) / 2 ^ 32)] buf).
Proof.
  intros Hlen [_ Hcnt _ _]. cbn zeta. unfold SHA1Update. rewrite Hcnt.
  cbn [lookup_total list_lookup_total].
  destruct (update_count (8 * zlen m) (zlen data)) as [-> ->]; [unfold zlen; lia..|].
  replace (8 * zlen m + 8 * zlen data) with (8 * zlen (m ++ data)) by len_lia.
  rewrite update_index by (unfold zlen; lia).
  assert (zlen m mod 64 = Z.of_nat (length m mod 64)) as ->
    by (unfold zlen; by rewrite Nat2Z.inj_mod).
  pose proof (Nat.mod_upper_bound (length m) 64 ltac:(lia)).
  rewrite (u32_small (Z.of_nat (length m mod 64) + zlen data)) by (unfold zlen in *; lia).
  done.
Qed.

(** Filling the buffer completes block [length m / 64] of the message. *)
Lemma fill_buffer m data c :
  let n := (length m / 64)%nat in let r := (length m mod 64)%nat in
  ctx_rep m c → (64 ≤ r + length data)%nat →
  let blkbuf := take 64 (drop (64 * n) (m ++ data)) in
  length blkbuf = 64%nat ∧
  mem_write (buffer c) (Z.of_nat r) (take (64 - r) data) = Ok blkbuf.
Proof.
  intros n r [_ _ Hbl Htl] Hbig blkbuf.
  pose proof (Nat.div_mod_eq (length m) 64) as Hdm.
  pose proof (Nat.mod_upper_bound (length m) 64 ltac:(lia)) as Hr. fold n r in Hdm, Hr, Htl.
  split; [unfold blkbuf; rewrite length_take, length_drop, length_app; lia|].
  rewrite mem_write_ok by (zify_len; rewrite ?length_take; lia). rewrite Nat2Z.id, Htl.
  f_equal. unfold blkbuf. rewrite drop_app_le by lia.
  rewrite (drop_ge (buffer c)), app_nil_r by (rewrite length_take; lia).
  rewrite take_app, length_drop, (take_ge (drop _ m)) by (rewrite length_drop; lia).
  do 2 f_equal. lia.
Qed.

Lemma SHA1Update_big m data c :
  bytes_ok m → bytes_ok data → zlen data < 2 ^ 32 - 64 → ctx_rep m c →
  (64 ≤ length m mod 64 + length data)%nat →
  ∃ c', SHA1Update c data (zlen data) = Ok c' ∧ ctx_rep (m ++ data) c'.
Proof.
  intros Hm Hd Hlen Hrep Hbig. rewrite (SHA1Update_unfold m) by done.
  destruct (fill_buffer m data c Hrep Hbig) as [Hbl64 Hw].
  pose proof (Nat.div_mod_eq (length m) 64) as Hdm.
  pose proof (Nat.mod_upper_bound (length m) 64 ltac:(lia)) as Hr.
  set (n := (length m / 64)%nat) in *. set (r := (length m mod 64)%nat) in *.
  set (blkbuf := take 64 (drop (64 * n) (m ++ data))) in *.
  destruct (Z.gtb_spec (Z.of_nat r + zlen data) 63); [|unfold zlen in *; lia].
  rewrite mem_read_ok by (unfold zlen in *; lia). cbn [mbind result_bind].
  rewrite drop_0. replace (Z.to_nat (64 - Z.of_nat r)) with (64 - r)%nat by lia.
  rewrite Hw. cbn [mbind result_bind].
  rewrite (rep_state m c Hrep), SHA1Transform_block by (done || (unfold blkbuf; eauto with bytes)).
  cbn [mbind result_bind]. fold n.
  rewrite <- (blocks_app n Fips.iv m data) by lia.
  replace (Fips.compress (Fips.blocks n Fips.iv (m ++ data)) blkbuf)
    with (Fips.blocks (S n) Fips.iv (m ++ data)) by apply blocks_S.
  replace (64 - Z.of_nat r) with (Z.of_nat (64 - r)) by lia.
  destruct (transform_loop_ok m data (m ++ data) (S (Z.to_nat (zlen data / 64))) (S n) (64 - r))
    as (i & -> & Hi & Hil); [done|done|lia|lia|lia| |].
  { unfold zlen in *. rewrite Z2Nat.inj_div, Nat2Z.id by lia.
    change (Z.to_nat 64) with 64%nat. pose proof (Nat.div_mod_eq (length data) 64).
    pose proof (Nat.mod_upper_bound (length data) 64). lia. }
  cbn [mbind result_bind].
  pose proof (Nat.div_mod_eq (length (m ++ data)) 64) as Hdm'.
  pose proof (Nat.mod_upper_bound (length (m ++ data)) 64 ltac:(lia)) as Hr'.
  rewrite Hi, length_app in Hdm'. rewrite length_app in Hr'.
  rewrite mem_read_ok by (unfold zlen; lia). cbn [mbind result_bind].
  rewrite Nat2Z.id, (take_ge (drop i data)) by (rewrite length_drop; unfold zlen; lia).
  rewrite mem_write_ok by (zify_len; rewrite ?length_drop, ?Hbl64; lia).
  change (Z.to_nat 0) with 0%nat. rewrite take_0, app_nil_l, Nat.add_0_l.
  eexists. split; [reflexivity|]. split; cbn [state count buffer]; [done|done| |].
  - rewrite !length_app, !length_drop, Hbl64. lia.
  - rewrite take_app_length' by (rewrite length_app, length_drop in *; lia).
    rewrite Hi, drop_app_ge by lia. f_equal. lia.
Qed.

Lemma SHA1Update_small m data c :
  zlen data < 2 ^ 32 - 64 → ctx_rep m c → (length m mod 64 + length data < 64)%nat →
  ∃ c', SHA1Update c data (zlen data) = Ok c' ∧ ctx_rep (m ++ data) c'.
Proof.
  intros Hlen Hrep Hsmall. rewrite (SHA1Update_unfold m) by done.
  destruct Hrep as [Hst _ Hbl Htl].
  pose proof (Nat.div_mod_eq (length m) 64) as Hdm.
  destruct (update_len_mod m data (length m / 64) (length m mod 64 + length data)) as [Hq Hr'];
    [lia..|].
  destruct (Z.gtb_spec (Z.of_nat (length m mod 64) + zlen data) 63); [unfold zlen in *; lia|].
  cbn [mbind result_bind].
  rewrite mem_read_ok by (unfold zlen; lia). cbn [mbind result_bind].
  rewrite drop_0, take_ge by (unfold zlen; lia).
  rewrite mem_write_ok by (unfold zlen in *; lia). cbn [mbind result_bind].
  eexists. split; [reflexivity|]. rewrite Nat2Z.id, Htl.
  assert (length (drop (64 * (length m / 64)) m) = length m mod 64)%nat
    by (rewrite length_drop; lia).
  split; cbn [state count buffer]; rewrite ?Hq, ?Hr'; [|done| |].
  - by rewrite blocks_app by lia.
  - rewrite !length_app, !length_drop. lia.
  - rewrite drop_app_le, app_assoc by lia. apply take_app_length'. rewrite length_app. lia.
Qed.

Lemma SHA1Update_ok m data c :
  bytes_ok m → bytes_ok data → zlen data < 2 ^ 32 - 64 → ctx_rep m c →
  ∃ c', SHA1Update c data (zlen data) = Ok c' ∧ ctx_rep (m ++ data) c'.
Proof.
  intros. destruct (decide (64 ≤ length m mod 64 + length data)%nat).
  - by apply SHA1Update_big.
  - apply SHA1Update_small; auto with lia.
Qed.

Lemma update_all_ok parts m c :
  bytes_ok m → Forall (λ p, bytes_ok p ∧ zlen p < 2 ^ 32 - 64) parts → ctx_rep m c →
  ∃ c', update_all c parts = Ok c' ∧ ctx_rep (m ++ mjoin parts) c'.
Proof.
  intros Hm Hp. revert m c Hm. induction Hp as [|p ps [Hp Hl] _ IH]; intros m c Hm Hc.
  { exists c. simpl. by rewrite app_nil_r. }
  destruct (SHA1Update_ok m p c) as (c1 & E1 & H1); [done..|].
  destruct (IH (m ++ p) c1) as (c2 & E2 & H2); [eauto with bytes|done|].
  exists c2. cbn [update_all]. rewrite E1. cbn [mbind result_bind].
  rewrite E2. split; [done|]. cbn [mjoin list_join]. by rewrite app_assoc.
Qed.

(** ** Padding *)

Lemma count_mask n : 0 ≤ n → Z.land (u32 (8 * n)) 504 = 8 * (n mod 64).
Proof.
  intros. assert (u32 (8 * n) = Z.shiftl (n mod 2 ^ 29) 3) as ->.
  { rewrite Z.shiftl_mul_pow2 by lia. unfold u32. change (2 ^ 32) with (2 ^ 29 * 8).
    rewrite (Z.mul_comm 8), Z.mul_mod_distr_r by lia. done. }
  change 504 with (Z.shiftl (Z.ones 6) 3). rewrite <- Z.shiftl_land, Z.land_ones by lia.
  rewrite Z.shiftl_mul_pow2 by lia. change (2 ^ 6) with 64. change (2 ^ 29) with 536870912.
  change (2 ^ 3) with 8. Z.div_mod_to_equations. lia.
Qed.

Lemma pad_count x :
  (x < 64)%nat →
  ((120 - x) mod 64 = if decide (x ≤ 56) then 56 - x else 120 - x)%nat.
Proof.
  intros Hx. case_decide.
  - symmetry. apply (Nat.mod_unique _ _ 1); lia.
  - apply Nat.mod_small. lia.
Qed.

Lemma pad_loop_ok z fuel m c :
  bytes_ok m → ctx_rep m c → z = ((120 - length m mod 64) mod 64)%nat → (z ≤ fuel)%nat →
  ∃ c', pad_loop fuel c = Ok c' ∧ ctx_rep (m ++ replicate z 0) c'.
Proof.
  revert fuel m c. induction z as [|z IH]; intros fuel m c Hm Hc Hz Hf;
    pose proof (Nat.mod_upper_bound (length m) 64 ltac:(lia)) as Hx;
    rewrite (pad_count _ Hx) in Hz;
    assert (Z.land (count c !!! 0%nat) 504 = 8 * Z.of_nat (length m mod 64)) as Hmask
      by (rewrite (rep_count _ _ Hc); cbn [lookup_total list_lookup_total];
          rewrite count_mask by (unfold zlen; lia); unfold zlen; by rewrite Nat2Z.inj_mod).
  - assert (length m mod 64 = 56)%nat as E by (case_decide; lia).
    exists c. rewrite app_nil_r. split; [|done].
    destruct fuel; cbn [pad_loop]; rewrite Hmask, E; done.
  - destruct fuel as [|fuel]; [lia|]. cbn [pad_loop]. rewrite Hmask.
    destruct (Z.eqb_spec (8 * Z.of_nat (length m mod 64)) 448); [case_decide; lia|].
    destruct (SHA1Update_ok m [0] c) as (c1 & E1 & H1);
      [done|repeat constructor; done|by unfold zlen|done|].
    change (zlen [0]) with 1 in E1. rewrite E1. cbn [mbind result_bind].
    assert (length (m ++ [0%Z]) mod 64 = (if decide (length m mod 64 = 63) then 0
              else S (length m mod 64)))%nat as Hlen.
    { rewrite length_app, Nat.Div0.add_mod. change (length [0%Z] mod 64)%nat with 1%nat.
      destruct (decide (length m mod 64 = 63)%nat) as [E|E].
      - replace (length m mod 64)%nat with 63%nat. reflexivity.
      - rewrite Nat.mod_small; lia. }
    destruct (IH fuel (m ++ [0]) c1) as (c2 & E2 & H2); [|done| |lia|].
    + apply bytes_ok_app; [done|]. repeat constructor; done.
    + rewrite Hlen, pad_count by (case_decide; lia). repeat case_decide; lia.
    + exists c2. split; [done|]. by rewrite <- app_assoc in H2.
Qed.

Ltac eval_index :=
  repeat match goal with
  | |- context [(3 - Z.land (Z.of_nat ?i) 3) * 8] =>
      let v := eval vm_compute in ((3 - Z.land (Z.of_nat i) 3) * 8) in
      change ((3 - Z.land (Z.of_nat i) 3) * 8) with v
  | |- context [Nat.div ?i 4] =>
      let v := eval vm_compute in (Nat.div i 4) in change (Nat.div i 4) with v
  end.

Lemma land_byte x k : 0 ≤ k → Z.land (Z.shiftr x k) 255 = x / 2 ^ k mod 256.
Proof.
  intros. change 255 with (Z.ones 8). by rewrite Z.land_ones, Z.shiftr_div_pow2 by lia.
Qed.

Lemma word_byte x k : 0 ≤ k → k + 8 ≤ 32 → x mod 2 ^ 32 / 2 ^ k mod 256 = x / 2 ^ k mod 256.
Proof.
  intros. change 256 with (2 ^ 8). apply Z.bits_inj'. intros i Hi.
  rewrite !Z.testbit_mod_pow2, !Z.div_pow2_bits, Z.testbit_mod_pow2 by lia.
  destruct (Z.ltb_spec i 8); [|done]. by rewrite (proj2 (Z.ltb_lt _ _)) by lia.
Qed.

(** The length bytes are the big-endian bit count of the message. *)
Lemma finalcount_ok n :
  finalcount [u32 (8 * n); u32 (8 * n / 2 ^ 32)] = rev (le_store 8 (8 * n)).
Proof.
  unfold finalcount, le_store, u32. cbn [seq fmap list_fmap]. eval_index.
  cbn [Nat.leb lookup_total list_lookup_total rev app]. rewrite !land_byte by lia.
  rewrite !word_byte, !Z.div_div by lia. simpl (2 ^ _). simpl (_ * _).
  rewrite !Z.div_1_r. reflexivity.
Qed.

Lemma digest_bytes h :
  ((λ i, Z.land (Z.shiftr (Fips.hash_words h !!! Nat.div i 4) ((3 - Z.land (Z.of_nat i) 3) * 8)) 255)
    <$> seq 0 20) = mjoin ((λ w, rev (le_store 4 w)) <$> Fips.hash_words h).
Proof.
  destruct h as [x1 x2 x3 x4 x5]. unfold Fips.hash_words. cbn [seq fmap list_fmap mjoin list_join].
  unfold le_store. eval_index.
  cbn [Fips.ha Fips.hb Fips.hc Fips.hd Fips.he lookup_total list_lookup_total rev app].
  rewrite !land_byte by lia. rewrite !Z.div_div by lia. simpl (2 ^ _).
  rewrite !Z.div_1_r. reflexivity.
Qed.

Lemma SHA1Final_ok m c :
  bytes_ok m → ctx_rep m c →
  ∃ c', SHA1Final c = Ok (Fips.sha1 m, c').
Proof.
  intros Hm Hc. unfold SHA1Final. rewrite (rep_count _ _ Hc), finalcount_ok.
  destruct (SHA1Update_ok m [128] c) as (c1 & E1 & H1);
    [done|repeat constructor; done|by unfold zlen|done|].
  change (zlen [128]) with 1 in E1. rewrite E1. cbn [mbind result_bind].
  set (z := Fips.pad_zeros (length m)).
  assert (z = (120 - length (m ++ [128%Z]) mod 64) mod 64)%nat as Hz.
  { unfold z, Fips.pad_zeros. rewrite length_app, Nat.Div0.add_mod.
    change (length [128%Z] mod 64)%nat with 1%nat.
    pose proof (Nat.mod_upper_bound (length m) 64 ltac:(lia)) as Hx.
    destruct (decide (length m mod 64 = 63)%nat) as [->|E]; [done|].
    rewrite (Nat.mod_small (_ + 1)) by lia. f_equal. lia. }
  destruct (pad_loop_ok z 64 (m ++ [128]) c1) as (c2 & E2 & H2);
    [apply bytes_ok_app; [done|repeat constructor; done]|done|done| |].
  { rewrite Hz. pose proof (Nat.mod_upper_bound (120 - length (m ++ [128%Z]) mod 64) 64). lia. }
  rewrite E2. cbn [mbind result_bind].
  assert (zlen (rev (le_store 8 (8 * zlen m))) = 8) as H8
    by (unfold zlen at 1; by rewrite length_rev, length_le_store).
  destruct (SHA1Update_ok ((m ++ [128]) ++ replicate z 0) (rev (le_store 8 (8 * zlen m))) c2)
    as (c3 & E3 & H3); [|eauto with bytes|rewrite H8; lia|done|].
  { apply bytes_ok_app; [apply bytes_ok_app; [done|repeat constructor; done]|eauto with bytes]. }
  rewrite H8 in E3. rewrite E3. cbn [mbind result_bind]. eexists. do 2 f_equal.
  rewrite (rep_state _ _ H3), digest_bytes. unfold Fips.sha1.
  by rewrite <- !app_assoc.
Qed.

(** (C6) A context initialised, fed a message in any number of pieces and
    finalised yields the FIPS 180 SHA-1 digest of the whole message: the
    streaming hash of the client is the reference hash, whatever the
    uninitialised buffer held. *)
Theorem sha1_streaming_correct uninit parts :
  length (buffer uninit) = 64%nat →
  Forall (λ p, bytes_ok p ∧ zlen p < 2 ^ 32 - 64) parts →
  digest_of uninit parts = Ok (Fips.sha1 (mjoin parts)).
Proof.
  intros Hu Hp. unfold digest_of.
  destruct (update_all_ok parts [] (SHA1Init uninit)) as (c & -> & Hc);
    [eauto with bytes|done|by apply ctx_rep_init|].
  cbn [mbind result_bind]. rewrite app_nil_l in Hc.
  destruct (SHA1Final_ok (mjoin parts) c) as (c' & ->); [|done|done].
  clear -Hp. induction Hp as [|p ps [Hp _] _ IH]; simpl; eauto with bytes.
Qed.

Lemma sha1_streaming_correct_witness :
  digest_of (mk_ctx [] [] (replicate 64 77)) [[97]; [98; 99]] =
    Ok [169; 153; 62; 54; 71; 6; 129; 106; 186; 62; 37; 113; 120; 80; 194; 108;
        156; 208; 216; 157].
Proof.
  rewrite (sha1_streaming_correct (mk_ctx [] [] (replicate 64 77)) [[97]; [98; 99]]).
  - vm_compute. reflexivity.
  - reflexivity.
  - repeat constructor; unfold byte_ok, zlen; simpl; lia.
Defined.

(** The unrolled eighty rounds of [SHA1Transform], with their rotating
    variables and circular sixteen-word block, compute the FIPS 180
    compression function on every block and state. *)
Theorem sha1_transform_correct h bs rest :
  bytes_ok bs → length bs = 64%nat →
  SHA1Transform (Fips.hash_words h) (bs ++ rest) = Ok (Fips.hash_words (Fips.compress h bs)).
Proof. apply SHA1Transform_ok. Qed.

Lemma sha1_transform_correct_witness :
  SHA1Transform (Fips.hash_words Fips.iv) (replicate 64 7 ++ []) =
    Ok (Fips.hash_words (Fips.compress Fips.iv (replicate 64 7))).
Proof.
  apply (sha1_transform_correct Fips.iv (replicate 64 7) []).
  - apply Forall_replicate. unfold byte_ok. lia.
  - reflexivity.
Defined.
End StreamFacts.
