(* ===== verification/Types.v ===== *)
(** Data model: [config.h], the structures of [packet.h], [arp.h],
    [lan-play.h] and [ipv4/ipv4.h], and the state the handlers share.

    A [struct packet_ctx] is embedded in [struct lan_play] and points back to
    it, so both are one state here.  The calls that leave the program
    ([uv_pcap_sendpacket], [uv_udp_send], the gateway) are recorded in a
    trace of events; what the outside answers ([time], the return values of
    the send calls) is given by an environment [Env], which may answer every
    call differently. *)
From S2P Require Import Prelude.

(** * [config.h] and the offsets of [packet.h] *)

Definition BUFFER_SIZE : Z := 2048.
Definition SERVER_PORT : Z := 11451.
Definition ETHER_MTU : Z := 1500.
Definition MIN_FRAG_PAYLOAD_LEN : Z := 500.
Definition LC_FRAG_COUNT : Z := 100.
Definition CLIENT_RECV_BUF_LEN : Z := 4096.
Definition LP_KEY_LEN : Z := 20.
Definition AF_INET : Z := 2.
Definition AF_INET6 : Z := 10.

Definition ETHER_OFF_DST : Z := 0.
Definition ETHER_OFF_SRC : Z := 6.
Definition ETHER_OFF_TYPE : Z := 12.
Definition ETHER_OFF_END : Z := 14.
Definition ETHER_TYPE_ARP : Z := 0x0806.
Definition ETHER_TYPE_IPV4 : Z := 0x0800.
Definition ETHER_HEADER_LEN : Z := 14.

Definition IPV4_PROTOCOL_ICMP : Z := 1.
Definition IPV4_PROTOCOL_TCP : Z := 6.
Definition IPV4_PROTOCOL_UDP : Z := 17.
Definition IPV4_HEADER_LEN : Z := 20.
Definition IPV4_OFF_VER_LEN : Z := 0.
Definition IPV4_OFF_DSCP_ECN : Z := 1.
Definition IPV4_OFF_TOTAL_LEN : Z := 2.
Definition IPV4_OFF_ID : Z := 4.
Definition IPV4_OFF_FLAGS_FRAG_OFFSET : Z := 6.
Definition IPV4_OFF_TTL : Z := 8.
Definition IPV4_OFF_PROTOCOL : Z := 9.
Definition IPV4_OFF_CHECKSUM : Z := 10.
Definition IPV4_OFF_SRC : Z := 12.
Definition IPV4_OFF_DST : Z := 16.

Definition IPV4P_OFF_SRC : Z := 0.
Definition IPV4P_OFF_DST : Z := 4.
Definition IPV4P_OFF_ZERO : Z := 8.
Definition IPV4P_OFF_PROTOCOL : Z := 9.
Definition IPV4P_OFF_LENGTH : Z := 10.
Definition IPV4P_OFF_END : Z := 12.

Definition UDP_OFF_SRCPORT : Z := 0.
Definition UDP_OFF_DSTPORT : Z := 2.
Definition UDP_OFF_LENGTH : Z := 4.
Definition UDP_OFF_CHECKSUM : Z := 6.
Definition UDP_OFF_END : Z := 8.

Definition ARP_OFF_HARDWARE : Z := 0.
Definition ARP_OFF_PROTOCOL : Z := 2.
Definition ARP_OFF_HARDWARE_SIZE : Z := 4.
Definition ARP_OFF_PROTOCOL_SIZE : Z := 5.
Definition ARP_OFF_OPCODE : Z := 6.
Definition ARP_OFF_SENDER_MAC : Z := 8.
Definition ARP_OFF_SENDER_IP : Z := 14.
Definition ARP_OFF_TARGET_MAC : Z := 18.
Definition ARP_OFF_TARGET_IP : Z := 24.
Definition ARP_LEN : Z := 28.
Definition ARP_HARDTYPE_ETHER : Z := 1.
Definition ARP_OPCODE_REQUEST : Z := 1.
Definition ARP_OPCODE_REPLY : Z := 2.
Definition ARP_CACHE_LEN : Z := 100.

(** Arithmetic on lengths and the constants above. *)
Create HintDb offs.
#[export] Hint Unfold
  CLIENT_RECV_BUF_LEN LP_KEY_LEN BUFFER_SIZE SERVER_PORT ETHER_MTU MIN_FRAG_PAYLOAD_LEN LC_FRAG_COUNT ETHER_OFF_DST
  ETHER_OFF_SRC ETHER_OFF_TYPE ETHER_OFF_END ETHER_TYPE_ARP ETHER_TYPE_IPV4
  ETHER_HEADER_LEN IPV4_PROTOCOL_ICMP IPV4_PROTOCOL_TCP IPV4_PROTOCOL_UDP
  IPV4_HEADER_LEN IPV4_OFF_VER_LEN IPV4_OFF_DSCP_ECN IPV4_OFF_TOTAL_LEN IPV4_OFF_ID
  IPV4_OFF_FLAGS_FRAG_OFFSET IPV4_OFF_TTL IPV4_OFF_PROTOCOL IPV4_OFF_CHECKSUM
  IPV4_OFF_SRC IPV4_OFF_DST IPV4P_OFF_SRC IPV4P_OFF_DST IPV4P_OFF_ZERO
  IPV4P_OFF_PROTOCOL IPV4P_OFF_LENGTH IPV4P_OFF_END UDP_OFF_SRCPORT UDP_OFF_DSTPORT
  UDP_OFF_LENGTH UDP_OFF_CHECKSUM UDP_OFF_END ARP_OFF_HARDWARE ARP_OFF_PROTOCOL
  ARP_OFF_HARDWARE_SIZE ARP_OFF_PROTOCOL_SIZE ARP_OFF_OPCODE ARP_OFF_SENDER_MAC
  ARP_OFF_SENDER_IP ARP_OFF_TARGET_MAC ARP_OFF_TARGET_IP ARP_LEN ARP_HARDTYPE_ETHER
  ARP_OPCODE_REQUEST ARP_OPCODE_REPLY ARP_CACHE_LEN : offs.
Ltac off_lia := autounfold with offs in *; len_lia.

(** * Packet structures *)

(** Pointers into the received bytes are the bytes from there on. *)
Record ether_frame := mk_ether {
  eth_raw : list Z; eth_raw_len : Z;
  eth_dst : list Z; eth_src : list Z; eth_type : Z; eth_payload : list Z }.

Record ipv4 := mk_ipv4 {
  ip4_ether : ether_frame;
  ip4_version : Z; ip4_header_len : Z; ip4_dscp : Z; ip4_ecn : Z;
  ip4_total_len : Z; ip4_identification : Z; ip4_flags : Z;
  ip4_fragment_offset : Z; ip4_ttl : Z; ip4_protocol : Z; ip4_checksum : Z;
  ip4_src : list Z; ip4_dst : list Z; ip4_payload : list Z }.

Record udp := mk_udp {
  udp_srcport : Z; udp_dstport : Z; udp_length : Z; udp_checksum : Z;
  udp_payload : list Z }.

Record arp := mk_arp {
  hardware_type : Z; protocol_type : Z; hardware_size : Z; protocol_size : Z;
  opcode : Z; sender_mac : list Z; sender_ip : list Z;
  target_mac : list Z; target_ip : list Z }.

(** A linked chain of [struct payload] is the list of its parts. *)
Record payload := mk_payload { ptr : list Z; plen : Z }.

Record arp_item := mk_item { item_ip : list Z; item_mac : list Z; expire_at : Z }.

(** * The state *)

Record packet_ctx := mk_pctx {
  buffer : list Z; buffer_len : Z;
  ip : list Z; subnet_net : list Z; subnet_mask : list Z; mac : list Z;
  identification : Z;
  arp_list : list arp_item; arp_ttl : Z;
  pc_upload_byte : Z; pc_download_byte : Z; pc_upload_packet : Z; pc_download_packet : Z }.

(** [struct slp_addr_in]: its family, the bytes of the address, the port. *)
Record slp_addr_in := mk_addr { sin_family : Z; sin_addr : list Z; sin_port : Z }.

Record lan_client_fragment := mk_frag {
  fr_local_id : Z; fr_src : list Z; fr_id : Z; fr_part : Z; fr_used : Z;
  fr_total_len : Z; fr_buffer : list Z }.

Record lan_play := mk_lp {
  packet_ctx_of : packet_ctx;
  client_buf : list Z;
  pmtu : Z; broadcast : bool; next_real_broadcast : bool;
  frag_id : Z; local_id : Z;
  frags : list lan_client_fragment;
  username : option (list Z); key : list Z;
  server_addr : slp_addr_in;
  upload_byte : Z; download_byte : Z; upload_packet : Z; download_packet : Z }.

Definition server_family (l : lan_play) : Z := sin_family (server_addr l).

(** The handles of [struct lan_play] and the libuv, pcap and gateway calls
    made on them. *)
Inductive uv_handle := Client | ClientKeepaliveTimer | RealBroadcastTimer.
Inductive uv_call :=
  | UdpInit
  | UdpBind (family port : Z)
  | TimerInit (h : uv_handle)
  | TimerStart (h : uv_handle) (timeout repeat : Z)
  | UdpRecvStart
  | UdpRecvStop
  | TimerStop (h : uv_handle)
  | UvClose (h : uv_handle)
  | PcapInit (netif : option (list Z))
  | PcapClose
  | GatewayInit (fake_internet : bool) (proxy : option slp_addr_in)
      (username password : option (list Z))
  | GatewayClose
  | SignalInit
  | SignalStart
  | SignalStop
  | SignalClose
  | UvWalk
  | UvRun.

Inductive event :=
  | EvPcapSend (frame : list Z)             (* uv_pcap_sendpacket *)
  | EvUdpSend (datagram : list Z)           (* uv_udp_send to the relay server *)
  | EvGateway (raw : list Z) (raw_len : Z)  (* gateway_on_packet *)
  | EvPrint (text : list Z)                 (* print_packet, printf *)
  | EvUv (c : uv_call)                      (* any other libuv call *)
  | EvServerInfo (text : list Z)            (* "[Server]: ..." *)
  | EvAskLogin.                             (* "The server ask us to login" *)

Record world := mk_world { lp : lan_play; trace : list event; calls : nat }.

(** The answers of the outside, indexed by the number of calls made before. *)
Class Env := {
  env_time : nat → Z;         (* time(NULL) *)
  env_pcap : nat → Z;         (* uv_pcap_sendpacket *)
  env_udp : nat → Z;          (* uv_udp_send *)
  env_uv : nat → Z;           (* the other libuv calls *)
  env_stack : nat → list Z    (* an uninitialised [uint8_t[6]] *)
}.

Abbreviation IO := (M world).

(** * Field updates *)

Definition set_buffer (b : list Z) (p : packet_ctx) : packet_ctx :=
  mk_pctx b (buffer_len p) (ip p) (subnet_net p) (subnet_mask p) (mac p) (identification p)
    (arp_list p) (arp_ttl p) (pc_upload_byte p) (pc_download_byte p) (pc_upload_packet p)
    (pc_download_packet p).
Definition set_mac (m : list Z) (p : packet_ctx) : packet_ctx :=
  mk_pctx (buffer p) (buffer_len p) (ip p) (subnet_net p) (subnet_mask p) m (identification p)
    (arp_list p) (arp_ttl p) (pc_upload_byte p) (pc_download_byte p) (pc_upload_packet p)
    (pc_download_packet p).
Definition set_identification (i : Z) (p : packet_ctx) : packet_ctx :=
  mk_pctx (buffer p) (buffer_len p) (ip p) (subnet_net p) (subnet_mask p) (mac p) i
    (arp_list p) (arp_ttl p) (pc_upload_byte p) (pc_download_byte p) (pc_upload_packet p)
    (pc_download_packet p).
Definition set_arp_list (l : list arp_item) (p : packet_ctx) : packet_ctx :=
  mk_pctx (buffer p) (buffer_len p) (ip p) (subnet_net p) (subnet_mask p) (mac p)
    (identification p) l (arp_ttl p) (pc_upload_byte p) (pc_download_byte p)
    (pc_upload_packet p) (pc_download_packet p).
Definition count_upload (n : Z) (p : packet_ctx) : packet_ctx :=
  mk_pctx (buffer p) (buffer_len p) (ip p) (subnet_net p) (subnet_mask p) (mac p)
    (identification p) (arp_list p) (arp_ttl p) (u64 (pc_upload_byte p + n))
    (pc_download_byte p) (u64 (pc_upload_packet p + 1)) (pc_download_packet p).
Definition count_download (n : Z) (p : packet_ctx) : packet_ctx :=
  mk_pctx (buffer p) (buffer_len p) (ip p) (subnet_net p) (subnet_mask p) (mac p)
    (identification p) (arp_list p) (arp_ttl p) (pc_upload_byte p)
    (u64 (pc_download_byte p + n)) (pc_upload_packet p) (u64 (pc_download_packet p + 1)).

Definition set_pctx (p : packet_ctx) (l : lan_play) : lan_play :=
  mk_lp p (client_buf l) (pmtu l) (broadcast l) (next_real_broadcast l) (frag_id l)
    (local_id l) (frags l) (username l) (key l) (server_addr l) (upload_byte l) (download_byte l)
    (upload_packet l) (download_packet l).
Definition set_client_buf (b : list Z) (l : lan_play) : lan_play :=
  mk_lp (packet_ctx_of l) b (pmtu l) (broadcast l) (next_real_broadcast l) (frag_id l)
    (local_id l) (frags l) (username l) (key l) (server_addr l) (upload_byte l) (download_byte l)
    (upload_packet l) (download_packet l).
Definition set_next_real_broadcast (b : bool) (l : lan_play) : lan_play :=
  mk_lp (packet_ctx_of l) (client_buf l) (pmtu l) (broadcast l) b (frag_id l)
    (local_id l) (frags l) (username l) (key l) (server_addr l) (upload_byte l) (download_byte l)
    (upload_packet l) (download_packet l).
Definition set_frag_id (i : Z) (l : lan_play) : lan_play :=
  mk_lp (packet_ctx_of l) (client_buf l) (pmtu l) (broadcast l) (next_real_broadcast l) i
    (local_id l) (frags l) (username l) (key l) (server_addr l) (upload_byte l) (download_byte l)
    (upload_packet l) (download_packet l).
Definition set_local_id (i : Z) (l : lan_play) : lan_play :=
  mk_lp (packet_ctx_of l) (client_buf l) (pmtu l) (broadcast l) (next_real_broadcast l)
    (frag_id l) i (frags l) (username l) (key l) (server_addr l) (upload_byte l) (download_byte l)
    (upload_packet l) (download_packet l).
Definition set_frags (f : list lan_client_fragment) (l : lan_play) : lan_play :=
  mk_lp (packet_ctx_of l) (client_buf l) (pmtu l) (broadcast l) (next_real_broadcast l)
    (frag_id l) (local_id l) f (username l) (key l) (server_addr l) (upload_byte l) (download_byte l)
    (upload_packet l) (download_packet l).
Definition set_options (b : bool) (n : Z) (l : lan_play) : lan_play :=
  mk_lp (packet_ctx_of l) (client_buf l) n b (next_real_broadcast l)
    (frag_id l) (local_id l) (frags l) (username l) (key l) (server_addr l) (upload_byte l) (download_byte l)
    (upload_packet l) (download_packet l).
Definition set_server_addr (a : slp_addr_in) (l : lan_play) : lan_play :=
  mk_lp (packet_ctx_of l) (client_buf l) (pmtu l) (broadcast l) (next_real_broadcast l)
    (frag_id l) (local_id l) (frags l) (username l) (key l) a (upload_byte l) (download_byte l)
    (upload_packet l) (download_packet l).
Definition set_username (u : option (list Z)) (l : lan_play) : lan_play :=
  mk_lp (packet_ctx_of l) (client_buf l) (pmtu l) (broadcast l) (next_real_broadcast l)
    (frag_id l) (local_id l) (frags l) u (key l) (server_addr l) (upload_byte l) (download_byte l)
    (upload_packet l) (download_packet l).
Definition set_key (k : list Z) (l : lan_play) : lan_play :=
  mk_lp (packet_ctx_of l) (client_buf l) (pmtu l) (broadcast l) (next_real_broadcast l)
    (frag_id l) (local_id l) (frags l) (username l) k (server_addr l) (upload_byte l) (download_byte l)
    (upload_packet l) (download_packet l).
Definition lp_count_upload (n : Z) (l : lan_play) : lan_play :=
  mk_lp (packet_ctx_of l) (client_buf l) (pmtu l) (broadcast l) (next_real_broadcast l)
    (frag_id l) (local_id l) (frags l) (username l) (key l) (server_addr l) (u64 (upload_byte l + n))
    (download_byte l) (u64 (upload_packet l + 1)) (download_packet l).
Definition lp_count_download (n : Z) (l : lan_play) : lan_play :=
  mk_lp (packet_ctx_of l) (client_buf l) (pmtu l) (broadcast l) (next_real_broadcast l)
    (frag_id l) (local_id l) (frags l) (username l) (key l) (server_addr l) (upload_byte l)
    (u64 (download_byte l + n)) (upload_packet l) (u64 (download_packet l + 1)).

Definition set_lp (l : lan_play) (w : world) : world := mk_world l (trace w) (calls w).
Definition on_lp (f : lan_play → lan_play) (w : world) : world := set_lp (f (lp w)) w.
Definition pctx (w : world) : packet_ctx := packet_ctx_of (lp w).
Definition on_pctx (f : packet_ctx → packet_ctx) (w : world) : world :=
  on_lp (λ l, set_pctx (f (packet_ctx_of l)) l) w.
Definition log_event (e : event) (w : world) : world :=
  mk_world (lp w) (trace w ++ [e]) (calls w).
Definition tick (w : world) : world := mk_world (lp w) (trace w) (S (calls w)).

(** * Calls that leave the program *)

Section Calls.
Context `{Env}.

(** [time(NULL)]. *)
Definition time : IO Z := λ w, Ok (env_time (calls w), tick w).

(** [uv_pcap_sendpacket(&lan_play->pcap, data, size)]. *)
Definition uv_pcap_sendpacket (frame : list Z) : IO Z := λ w,
  Ok (env_pcap (calls w), tick (log_event (EvPcapSend frame) w)).

(** [uv_udp_send] of one buffer to [server_addr]. *)
Definition uv_udp_send (datagram : list Z) : IO Z := λ w,
  Ok (env_udp (calls w), tick (log_event (EvUdpSend datagram) w)).

Definition uv (c : uv_call) : IO Z := λ w,
  Ok (env_uv (calls w), tick (log_event (EvUv c) w)).

Definition gateway_on_packet (raw : list Z) (raw_len : Z) : IO () :=
  modify (log_event (EvGateway raw raw_len)).
End Calls.
