(* ===== verification/Checksum.v ===== *)
(** The two checksum routines of [client-switch-lan-play/ipv4/ipv4.c] against
    the Internet checksum of RFC 1071. *)
From S2P Require Import Prelude.
From S2P Require Import NetBytes.
From S2P Require Import Types.

(** * The program *)

(** [while (len > 1) { sum += ntohs( *buf++); len -= sizeof(uint16_t); }]:
    the remaining pointer, length and sum. *)
Fixpoint sum_words (buf : list Z) (len sum : Z) : result (list Z * Z * Z) :=
  if len >? 1 then
    match buf with
    | x :: y :: t => sum_words t (len - 2) (u32 (sum + htons (le_load [x; y])))
    | _ => Fail OutOfBounds
    end
  else Ok (buf, len, sum).

(** [while (sum > 0xffff) { sum -= 0xffff; }] *)
Fixpoint fold_sum (fuel : nat) (sum : Z) : result Z :=
  if sum >? 0xffff then
    match fuel with O => Fail OutOfFuel | S fuel => fold_sum fuel (u32 (sum - 0xffff)) end
  else Ok sum.
(** Enough iterations for any 32-bit sum. *)
Definition fold_fuel (sum : Z) : nat := Z.to_nat (sum / 0xffff).

Definition calc_checksum (buffer : list Z) (len : Z) : result Z :=
  '(buf, len, sum) ← sum_words buffer len 0;
  sum ← (if len =? 0 then Ok sum
         else b ← READ_NET8 buf 0; Ok (u32 (sum + b)));
  sum ← fold_sum (fold_fuel sum) sum;
  Ok (u16 (Z.lnot sum)).

(** The loop over the parts.  [(uint16_t * )part->ptr + offset] advances the
    pointer by [offset] words. *)
Fixpoint payload_sum (parts : list payload) (offset sum : Z) : result Z :=
  match parts with
  | [] => Ok sum
  | part :: rest =>
      let buf := drop (2 * Z.to_nat offset) (ptr part) in
      let len := plen part - offset in
      '(buf, len, sum) ← sum_words buf len sum;
      if len =? 0 then payload_sum rest 0 sum
      else
        match rest with
        | next :: _ =>
            x ← READ_NET8 buf 0;
            y ← READ_NET8 (ptr next) 0;
            payload_sum rest 1 (u32 (sum + Z.lor (Z.shiftl x 8) y))
        | [] =>
            x ← READ_NET8 buf 0;
            payload_sum rest 1 (u32 (sum + Z.shiftl x 8))
        end
  end.

Definition calc_payload_checksum (parts : list payload) : result Z :=
  sum ← payload_sum parts 0 0;
  sum ← fold_sum (fold_fuel sum) sum;
  Ok (u16 (Z.lnot sum)).

(** * The reference: RFC 1071 *)

Module Rfc1071.

(** The 16-bit words of the data in network order, padded with a zero byte. *)
Fixpoint words (bs : list Z) : list Z :=
  match bs with
  | x :: y :: t => x * 256 + y :: words t
  | [x] => [x * 256]
  | [] => []
  end.

(** One's complement addition of 16-bit words: end-around carry. *)
Definition add (x y : Z) : Z := if x + y >? 0xffff then x + y - 0xffff else x + y.

Definition ocsum (ws : list Z) : Z := foldl add 0 ws.

Definition checksum (bs : list Z) : Z := 0xffff - ocsum (words bs).

End Rfc1071.

(** * Lemmas *)

Fixpoint zsum (l : list Z) : Z := match l with [] => 0 | x :: t => x + zsum t end.

Definition words_ok (ws : list Z) : Prop := Forall (λ w, 0 ≤ w < 65536) ws.

Lemma zsum_app l k : zsum (l ++ k) = zsum l + zsum k.
Proof. induction l; simpl; lia. Qed.

Lemma zsum_bound ws : words_ok ws → 0 ≤ zsum ws ≤ 65535 * zlen ws.
Proof. unfold zlen. induction 1; simpl; lia. Qed.

(** The representative of a sum modulo [0xffff]: zero for zero, and between
    one and [0xffff] otherwise. *)
Definition oc_repr (s : Z) : Z := if s =? 0 then 0 else (s - 1) mod 0xffff + 1.

Lemma oc_repr_range s : 0 ≤ s → 0 ≤ oc_repr s ≤ 0xffff.
Proof. intros. unfold oc_repr. case_if; [lia|]. pose proof (Z.mod_pos_bound (s - 1) 0xffff). lia. Qed.

Lemma oc_repr_small s : 0 ≤ s ≤ 0xffff → oc_repr s = s.
Proof.
  intros. unfold oc_repr. case_if; [lia|].
  destruct (decide (s = 0xffff)) as [->|]; [done|]. rewrite Z.mod_small; lia.
Qed.

Lemma oc_repr_step s : 0xffff < s → oc_repr (s - 0xffff) = oc_repr s.
Proof.
  intros. unfold oc_repr. rewrite !(proj2 (Z.eqb_neq _ _)) by lia.
  rewrite <- (Z.mod_add (s - 0xffff - 1) 1) by lia. do 2 f_equal. lia.
Qed.

Lemma add_oc_repr s w :
  0 ≤ s → 0 ≤ w < 65536 → Rfc1071.add (oc_repr s) w = oc_repr (s + w).
Proof.
  intros Hs Hw. pose proof (oc_repr_range s Hs). unfold Rfc1071.add.
  assert (oc_repr (s + w) = oc_repr (oc_repr s + w)) as ->.
  { unfold oc_repr at 1 3. unfold oc_repr in *.
    destruct (Z.eqb_spec s 0) as [->|]; [done|].
    pose proof (Z.mod_pos_bound (s - 1) 65535 ltac:(lia)).
    rewrite !(proj2 (Z.eqb_neq _ _)) by lia. f_equal.
    replace ((s - 1) mod 65535 + 1 + w - 1) with ((s - 1) mod 65535 + w) by lia.
    rewrite Z.add_mod_idemp_l by lia. f_equal. lia. }
  case_if.
  - rewrite <- (oc_repr_step (oc_repr s + w)) by lia. symmetry. apply oc_repr_small. lia.
  - symmetry. apply oc_repr_small. lia.
Qed.

Lemma ocsum_zsum ws : words_ok ws → Rfc1071.ocsum ws = oc_repr (zsum ws).
Proof.
  intros Hws. unfold Rfc1071.ocsum.
  assert (∀ s, 0 ≤ s → foldl Rfc1071.add (oc_repr s) ws = oc_repr (s + zsum ws)) as H.
  { induction Hws as [|w ws Hw _ IH]; intros s Hs; simpl; [by rewrite Z.add_0_r|].
    rewrite add_oc_repr, IH by lia. f_equal. lia. }
  apply (H 0). lia.
Qed.

Lemma fold_sum_ok fuel s :
  0 ≤ s < 2 ^ 32 → s / 0xffff ≤ Z.of_nat fuel → fold_sum fuel s = Ok (oc_repr s).
Proof.
  revert s. induction fuel as [|fuel IH]; intros s Hs Hf; cbn [fold_sum].
  - destruct (Z.gtb_spec s 0xffff).
    + exfalso. assert (1 ≤ s / 0xffff) by (apply Z.div_le_lower_bound; lia). lia.
    + by rewrite oc_repr_small by lia.
  - destruct (Z.gtb_spec s 0xffff).
    + rewrite u32_small by lia. rewrite IH, oc_repr_step; [done|lia|lia|].
      replace (s - 0xffff) with (s + -1 * 0xffff) by lia. rewrite Z.div_add by lia. lia.
    + by rewrite oc_repr_small by lia.
Qed.

Lemma fold_sum_fuel s : 0 ≤ s < 2 ^ 32 → fold_sum (fold_fuel s) s = Ok (oc_repr s).
Proof.
  intros. apply fold_sum_ok; [done|]. unfold fold_fuel.
  rewrite Z2Nat.id; [done|]. apply Z.div_pos; lia.
Qed.

Lemma lnot_u16 s : 0 ≤ s ≤ 0xffff → u16 (Z.lnot s) = 0xffff - s.
Proof.
  intros. unfold u16, Z.lnot. rewrite <- (Z.mod_add _ 1), Z.mod_small by lia. lia.
Qed.

Lemma words_words_ok bs : bytes_ok bs → words_ok (Rfc1071.words bs).
Proof.
  intros H. induction bs as [bs IH] using (induction_ltof1 _ length).
  destruct bs as [|x [|y t]]; simpl; unfold words_ok; [constructor|..].
  - inversion H; subst. unfold byte_ok in *. repeat constructor; lia.
  - apply Forall_cons_iff in H as [Hx H]. apply Forall_cons_iff in H as [Hy H].
    unfold byte_ok in *. constructor; [lia|]. apply IH; [|done]. unfold ltof. simpl. lia.
Qed.

Lemma length_words16 bs : Z.of_nat (length (Rfc1071.words bs)) = (zlen bs + 1) / 2.
Proof.
  induction bs as [bs IH] using (induction_ltof1 _ length).
  destruct bs as [|x [|y t]]; [done|done|]. simpl length. rewrite Nat2Z.inj_succ, IH.
  - unfold zlen. simpl length. rewrite !Nat2Z.inj_succ.
    replace (Z.succ (Z.succ (Z.of_nat (length t))) + 1) with (Z.of_nat (length t) + 1 + 1 * 2) by lia.
    rewrite Z.div_add by lia. lia.
  - unfold ltof. simpl. lia.
Qed.

Lemma words_even_app bs cs :
  Nat.Even (length bs) → Rfc1071.words (bs ++ cs) = Rfc1071.words bs ++ Rfc1071.words cs.
Proof.
  intros [k Hk]. revert bs Hk. induction k as [|k IH]; intros bs Hk.
  - by destruct bs.
  - destruct bs as [|x [|y t]]; simpl in Hk; try lia. simpl. by rewrite IH by lia.
Qed.

(** The word loop on a buffer that holds [len] bytes. *)
Lemma sum_words_ok bs rest sum :
  bytes_ok bs → Nat.Even (length bs) → 0 ≤ sum →
  sum + zsum (Rfc1071.words bs) < 2 ^ 32 →
  ∀ r, 0 ≤ r ≤ 1 →
  sum_words (bs ++ rest) (zlen bs + r) sum = Ok (rest, r, sum + zsum (Rfc1071.words bs)).
Proof.
  intros Hb [k Hk]. revert bs Hk Hb sum. induction k as [|k IH]; intros bs Hk Hb sum Hs Hlt r Hr.
  - destruct bs; [|simpl in Hk; lia]. cbn [Rfc1071.words zsum app] in *.
    change (zlen [] + r) with r. rewrite Z.add_0_r. destruct rest; cbn [sum_words]; destruct (Z.gtb_spec r 1); (lia || done).
  - destruct bs as [|x [|y t]]; simpl in Hk; try lia.
    apply Forall_cons_iff in Hb as [Hx Hb]. apply Forall_cons_iff in Hb as [Hy Hb].
    cbn [app sum_words].
    destruct (Z.gtb_spec (zlen (x :: y :: t) + r) 1); [|unfold zlen in *; simpl in *; lia].
    rewrite htons_load, be_load2 by (eauto with bytes || done).
    cbn [Rfc1071.words zsum] in *. unfold byte_ok in *.
    pose proof (zsum_bound _ (words_words_ok t Hb)).
    rewrite u32_small by lia.
    replace (zlen (x :: y :: t) + r - 2) with (zlen t + r) by (unfold zlen; simpl; lia).
    rewrite (IH t) by (done || lia). do 2 f_equal. lia.
Qed.

Lemma words_sum_bound bs :
  bytes_ok bs → zlen bs ≤ 131072 → 0 ≤ zsum (Rfc1071.words bs) < 2 ^ 32.
Proof.
  intros Hb Hl. pose proof (zsum_bound _ (words_words_ok bs Hb)) as H.
  unfold zlen in H at 1. rewrite length_words16 in H.
  assert ((zlen bs + 1) / 2 ≤ 65536); [|lia].
  transitivity ((131072 + 1) / 2); [apply Z.div_le_mono; lia|done].
Qed.

Lemma checksum_of_sum bs s :
  bytes_ok bs → s = zsum (Rfc1071.words bs) → 0 ≤ s < 2 ^ 32 →
  (sum ← fold_sum (fold_fuel s) s; Ok (u16 (Z.lnot sum))) = Ok (Rfc1071.checksum bs).
Proof.
  intros Hb -> Hs. rewrite fold_sum_fuel by lia. cbn [mbind result_bind].
  rewrite lnot_u16 by (pose proof (oc_repr_range _ (proj1 Hs)); lia).
  unfold Rfc1071.checksum. by rewrite ocsum_zsum by (by apply words_words_ok).
Qed.

Lemma calc_checksum_even bs rest :
  bytes_ok bs → Nat.Even (length bs) → zlen bs ≤ 131072 →
  calc_checksum (bs ++ rest) (zlen bs) = Ok (Rfc1071.checksum bs).
Proof.
  intros Hb He Hl. pose proof (words_sum_bound bs Hb Hl) as Hs. unfold calc_checksum.
  rewrite <- (Z.add_0_r (zlen bs)), sum_words_ok by (done || lia).
  cbn [mbind result_bind Z.eqb]. by apply checksum_of_sum.
Qed.

(** On any buffer of an even number of bytes, [calc_checksum] is the Internet
    checksum of RFC 1071: every IPv4 header the client builds gets the
    standard checksum. *)
Theorem calc_checksum_even_correct bs rest :
  bytes_ok bs → Nat.Even (length bs) → zlen bs ≤ 131072 →
  calc_checksum (bs ++ rest) (zlen bs) = Ok (Rfc1071.checksum bs).
Proof. apply calc_checksum_even. Qed.

Lemma calc_checksum_even_correct_witness :
  calc_checksum ([69; 0; 0; 28] ++ [9]) (zlen [69; 0; 0; 28]) = Ok 47843.
Proof.
  rewrite (calc_checksum_even_correct [69; 0; 0; 28] [9]).
  - vm_compute. reflexivity.
  - repeat constructor; unfold byte_ok; lia.
  - exists 2%nat. reflexivity.
  - unfold zlen. simpl. lia.
Defined.

Lemma calc_checksum_odd bs x rest :
  bytes_ok bs → byte_ok x → Nat.Even (length bs) → zlen bs ≤ 131070 →
  calc_checksum (bs ++ x :: rest) (zlen bs + 1) = Ok (Rfc1071.checksum (bs ++ [0; x])).
Proof.
  intros Hb Hx He Hl.
  assert (bytes_ok (bs ++ [0; x])) as Hb' by eauto with bytes.
  pose proof (words_sum_bound _ Hb' ltac:(len_lia)) as Hs.
  pose proof (words_sum_bound bs Hb ltac:(lia)) as Hs0.
  rewrite words_even_app, zsum_app in Hs by done. cbn [Rfc1071.words zsum] in Hs.
  unfold calc_checksum. rewrite sum_words_ok by (done || lia).
  cbn [mbind result_bind]. change (1 =? 0) with false. cbv iota.
  rewrite (READ_NET8_ok _ 0 x) by done. cbn [mbind result_bind].
  rewrite u32_small by lia. apply checksum_of_sum; [done| |lia].
  rewrite words_even_app, zsum_app by done. cbn [Rfc1071.words zsum]. lia.
Qed.

Lemma even_split {A} (l : list A) :
  Nat.Even (length l) ∨ ∃ k x, l = k ++ [x] ∧ Nat.Even (length k).
Proof.
  destruct (Nat.Even_or_Odd (length l)) as [|Ho]; [by left|]. right.
  destruct l as [|x k _] using rev_ind; [by destruct Ho as [n Hn]; simpl in Hn; lia|].
  exists k, x. split; [done|]. rewrite length_app, Nat.add_1_r in Ho. by apply Nat.Odd_succ.
Qed.

Lemma calc_checksum_total buf len :
  bytes_ok buf → 0 ≤ len ≤ zlen buf → len ≤ 131070 → ∃ c, calc_checksum buf len = Ok c.
Proof.
  intros Hb Hl Hl'. rewrite <- (take_drop (Z.to_nat len) buf) in Hb |- *.
  apply Forall_app in Hb as [Hb _].
  assert (zlen (take (Z.to_nat len) buf) = len) as Hz by len_lia.
  set (bs := take (Z.to_nat len) buf) in *. set (rest := drop _ buf).
  destruct (even_split bs) as [He|(k & x & Ek & He)].
  - rewrite <- Hz, calc_checksum_even by (done || lia). eauto.
  - rewrite Ek in Hb, Hz |- *. apply Forall_app in Hb as [Hb Hx]. apply Forall_cons_iff in Hx as [Hx _].
    replace len with (zlen k + 1) by len_lia.
    rewrite <- app_assoc. cbn [app]. rewrite calc_checksum_odd by (done || len_lia). eauto.
Qed.

(** The bytes [calc_checksum] effectively adds up: of an odd number of them,
    the last one counts as the low byte of its word. *)
Definition summed (bs : list Z) : list Z :=
  if Nat.even (length bs) then bs
  else take (length bs - 1) bs ++ 0 :: drop (length bs - 1) bs.

Lemma calc_checksum_summed bs rest :
  bytes_ok bs → zlen bs ≤ 131070 →
  calc_checksum (bs ++ rest) (zlen bs) = Ok (Rfc1071.checksum (summed bs)).
Proof.
  intros Hb Hl. unfold summed. destruct (even_split bs) as [He|(k & x & -> & He)].
  - rewrite (proj2 (Nat.even_spec _)) by done. apply calc_checksum_even; done || lia.
  - apply Forall_app in Hb as [Hb Hx]. apply Forall_cons_iff in Hx as [Hx _].
    assert (Nat.even (length (k ++ [x])) = false) as ->.
    { rewrite length_app, Nat.add_comm. change (1 + length k)%nat with (S (length k)).
      rewrite Nat.even_succ, <- Nat.negb_even. by rewrite (proj2 (Nat.even_spec _) He). }
    replace (length (k ++ [x]) - 1)%nat with (length k) by (rewrite length_app; simpl; lia).
    rewrite take_app_length, drop_app_length, <- app_assoc.
    replace (zlen (k ++ [x])) with (zlen k + 1) by len_lia.
    apply calc_checksum_odd; done || len_lia.
Qed.

Lemma summed_bytes_ok bs : bytes_ok bs → bytes_ok (summed bs).
Proof.
  intros Hb. unfold summed. case_match; [done|].
  apply bytes_ok_app; [by apply bytes_ok_take|].
  constructor; [unfold byte_ok; lia|by apply bytes_ok_drop].
Qed.

(** On an odd number of bytes, [calc_checksum] adds the last byte as the
    low byte of its word: the result is the RFC 1071 checksum of the data with
    a zero byte inserted before the last one, not of the data padded at the
    end. *)
Theorem calc_checksum_odd_tail bs x rest :
  bytes_ok bs → byte_ok x → Nat.Even (length bs) → zlen bs ≤ 131070 →
  calc_checksum (bs ++ x :: rest) (zlen bs + 1) = Ok (Rfc1071.checksum (bs ++ [0; x])).
Proof. apply calc_checksum_odd. Qed.

Lemma calc_checksum_odd_tail_witness :
  calc_checksum ([8; 0] ++ [7]) (zlen [8; 0] + 1) = Ok (Rfc1071.checksum [8; 0; 0; 7]) ∧
  Rfc1071.checksum [8; 0; 0; 7] ≠ Rfc1071.checksum [8; 0; 7].
Proof.
  split.
  - apply (calc_checksum_odd_tail [8; 0] 7 []).
    + repeat constructor; unfold byte_ok; lia.
    + unfold byte_ok. lia.
    + exists 1%nat. reflexivity.
    + unfold zlen. simpl. lia.
  - vm_compute. discriminate.
Defined.

(** A packet whose checksum field holds the checksum sums to [0xffff], which
    is what a receiver tests. *)
Lemma checksum_verifies pre post :
  bytes_ok (pre ++ [0; 0] ++ post) → Nat.Even (length pre) →
  let c := Rfc1071.checksum (pre ++ [0; 0] ++ post) in
  Rfc1071.ocsum (Rfc1071.words (pre ++ [c / 256 mod 256; c mod 256] ++ post)) = 0xffff.
Proof.
  intros Hb He. cbn zeta.
  set (c := Rfc1071.checksum (pre ++ [0; 0] ++ post)).
  apply Forall_app in Hb as [Hp Hb]. apply Forall_app in Hb as [_ Ho].
  assert (words_ok (Rfc1071.words (pre ++ [0; 0] ++ post))) as Hw.
  { apply words_words_ok. repeat apply bytes_ok_app; try done. repeat constructor; done. }
  pose proof (zsum_bound _ Hw) as [H0 _].
  assert (c = 0xffff - oc_repr (zsum (Rfc1071.words (pre ++ [0; 0] ++ post)))) as Hc.
  { unfold c, Rfc1071.checksum. by rewrite ocsum_zsum. }
  pose proof (oc_repr_range _ H0) as Hr.
  rewrite ocsum_zsum.
  2:{ apply words_words_ok. repeat apply bytes_ok_app; try done.
      repeat constructor; try (apply Z.mod_pos_bound; lia). }
  rewrite !words_even_app, !zsum_app in * by (done || by exists 1%nat).
  cbn [Rfc1071.words zsum] in *.
  assert (c / 256 mod 256 * 256 + c mod 256 = c) as ->.
  { rewrite (Z.mod_small (c / 256)); [pose proof (Z.div_mod c 256); lia|].
    split; [apply Z.div_pos; lia|apply Z.div_lt_upper_bound; lia]. }
  rewrite Hc. set (s := zsum _ + (_ + zsum (Rfc1071.words post))) in *.
  unfold oc_repr in *. destruct (Z.eqb_spec s 0) as [E|E].
  - rewrite (proj2 (Z.eqb_neq _ _)) by lia.
    replace (_ - 1) with (65534 + 0 * 65535) by lia. done.
  - rewrite (proj2 (Z.eqb_neq _ _)) by lia.
    pose proof (Z.div_mod (s - 1) 65535 ltac:(lia)) as Hd.
    replace (_ - 1) with (65534 + (s - 1) / 65535 * 65535) by lia.
    by rewrite Z.mod_add.
Qed.

Lemma checksum_range bs : bytes_ok bs → 0 ≤ Rfc1071.checksum bs < 65536.
Proof.
  intros Hb. unfold Rfc1071.checksum. pose proof (words_words_ok _ Hb) as Hw.
  rewrite ocsum_zsum by done. pose proof (zsum_bound _ Hw) as [H0 _].
  pose proof (oc_repr_range _ H0). lia.
Qed.

(** ** Chains of payloads *)

Definition payload_ok (p : payload) : Prop :=
  0 ≤ plen p < 65536 ∧ plen p ≤ zlen (ptr p) ∧ bytes_ok (ptr p).
Definition payload_data (p : payload) : list Z := take (Z.to_nat (plen p)) (ptr p).
(** The bytes of a chain. *)
Definition payload_bytes (ps : list payload) : list Z := mjoin (payload_data <$> ps).

(** Every part but the last has an even length. *)
Fixpoint inner_even (ps : list payload) : Prop :=
  match ps with
  | [] | [_] => True
  | p :: rest => Z.Even (plen p) ∧ inner_even rest
  end.

Lemma payload_data_len p : payload_ok p → zlen (payload_data p) = plen p.
Proof. intros (?&?&?). unfold payload_data. len_lia. Qed.
Lemma payload_data_bytes_ok p : payload_ok p → bytes_ok (payload_data p).
Proof. intros (?&?&?). unfold payload_data. eauto with bytes. Qed.
Lemma payload_bytes_ok ps : Forall payload_ok ps → bytes_ok (payload_bytes ps).
Proof.
  induction 1; unfold payload_bytes in *; simpl; eauto using payload_data_bytes_ok with bytes.
Qed.
#[export] Hint Resolve payload_data_bytes_ok payload_bytes_ok : bytes.

Lemma split_even bs :
  bytes_ok bs → (Nat.Even (length bs)) ∨
    ∃ cs x, bs = cs ++ [x] ∧ Nat.Even (length cs) ∧ bytes_ok cs ∧ byte_ok x.
Proof.
  intros Hb. destruct (Nat.Even_or_Odd (length bs)) as [|[k Hk]]; [by left|right].
  destruct (exists_last (l := bs)) as (cs & x & ->); [by destruct bs; simpl in Hk; [lia|]|].
  rewrite length_app in Hk. simpl in Hk. apply Forall_app in Hb as [? Hx].
  inversion Hx; subst. exists cs, x. split_and!; try done. exists k. lia.
Qed.

Lemma payload_sum_ok ps sum :
  Forall payload_ok ps → inner_even ps → 0 ≤ sum →
  sum + zsum (Rfc1071.words (payload_bytes ps)) < 2 ^ 32 →
  payload_sum ps 0 sum = Ok (sum + zsum (Rfc1071.words (payload_bytes ps))).
Proof.
  intros Hps. revert sum. induction Hps as [|p ps Hp Hps IH]; intros sum He Hs Hlt.
  { simpl. by rewrite Z.add_0_r. }
  pose proof (payload_data_len p Hp) as Hl. pose proof (payload_data_bytes_ok p Hp) as Hb.
  cbn [payload_sum Z.to_nat Nat.mul]. rewrite drop_0, Z.sub_0_r, <- Hl.
  assert (ptr p = payload_data p ++ drop (Z.to_nat (plen p)) (ptr p)) as ->
    by (symmetry; apply take_drop).
  set (rest := drop _ _). change (payload_bytes (p :: ps)) with (payload_data p ++ payload_bytes ps) in *.
  pose proof (zsum_bound _ (words_words_ok _ (payload_bytes_ok ps Hps))) as Hr0.
  pose proof (zsum_bound _ (words_words_ok _ Hb)) as Hr1.
  destruct (split_even _ Hb) as [Hev|(cs & x & E & Hce & Hcs & Hx)].
  - rewrite words_even_app, zsum_app in Hlt |- * by done.
    rewrite <- (Z.add_0_r (zlen (payload_data p))), sum_words_ok by (done || lia).
    cbn [mbind result_bind Z.eqb]. rewrite IH; [f_equal; lia| |lia|lia].
    destruct ps; [done|apply He].
  - assert (ps = []) as ->.
    { destruct ps as [|q qs]; [done|]. exfalso. destruct He as [[k Hk] _].
      rewrite <- Hl, E in Hk. destruct Hce as [j Hj]. unfold zlen in Hk.
      rewrite length_app in Hk. simpl in Hk. lia. }
    rewrite E in *. change (payload_bytes []) with (@nil Z) in *. rewrite app_nil_r in *.
    rewrite words_even_app, zsum_app in Hlt |- * by done. cbn [Rfc1071.words zsum] in *.
    unfold byte_ok in Hx. pose proof (zsum_bound _ (words_words_ok _ Hcs)) as Hr2.
    replace (zlen (cs ++ [x])) with (zlen cs + 1) by len_lia.
    rewrite <- app_assoc. rewrite sum_words_ok by (done || lia).
    cbn [mbind result_bind]. change (1 =? 0) with false. cbv iota.
    rewrite (READ_NET8_ok _ 0 x) by done. cbn [mbind result_bind payload_sum].
    rewrite Z.shiftl_mul_pow2 by lia. change (2 ^ 8) with 256.
    rewrite u32_small by lia. f_equal. lia.
Qed.

Lemma calc_payload_checksum_ok ps :
  Forall payload_ok ps → inner_even ps → zlen (payload_bytes ps) ≤ 131072 →
  calc_payload_checksum ps = Ok (Rfc1071.checksum (payload_bytes ps)).
Proof.
  intros Hps He Hl. pose proof (words_sum_bound _ (payload_bytes_ok ps Hps) Hl).
  unfold calc_payload_checksum. rewrite payload_sum_ok by (done || lia).
  cbn [mbind result_bind]. rewrite Z.add_0_l.
  by apply (checksum_of_sum (payload_bytes ps)); [apply payload_bytes_ok|..].
Qed.

(** [calc_payload_checksum] over a chain in which every part but the last
    has an even length is the RFC 1071 checksum of the concatenated bytes;
    the last part may be odd. *)
Theorem calc_payload_checksum_correct ps :
  Forall payload_ok ps → inner_even ps → zlen (payload_bytes ps) ≤ 131072 →
  calc_payload_checksum ps = Ok (Rfc1071.checksum (payload_bytes ps)).
Proof. apply calc_payload_checksum_ok. Qed.

Lemma calc_payload_checksum_correct_witness :
  calc_payload_checksum [mk_payload [1; 2; 3; 4; 5] 4; mk_payload [6; 7; 8] 3] =
    Ok (Rfc1071.checksum [1; 2; 3; 4; 6; 7; 8]).
Proof.
  apply (calc_payload_checksum_correct [mk_payload [1; 2; 3; 4; 5] 4; mk_payload [6; 7; 8] 3]).
  - repeat constructor; unfold byte_ok, zlen; simpl; lia.
  - split; [by exists 2|done].
  - unfold zlen. simpl. lia.
Defined.

(** After a part of odd length the word pointer of the next part is
    advanced by a whole word, not by the byte that was already used: for a
    one-byte part followed by a two-byte part, the second byte of the second
    part is not summed and the byte that lies after the end of the part is
    summed in its place. *)
Theorem calc_payload_checksum_odd_inner x y z w rest :
  bytes_ok (x :: y :: z :: w :: rest) →
  ∃ c, calc_payload_checksum [mk_payload [x] 1; mk_payload (y :: z :: w :: rest) 2] = Ok c ∧
       c = Rfc1071.checksum [x; y; w] ∧
       calc_payload_checksum [mk_payload [x] 1; mk_payload (y :: 0 :: w :: rest) 2] = Ok c.
Proof.
  intros Hb. unfold bytes_ok in Hb. rewrite !Forall_cons_iff in Hb.
  destruct Hb as (Hx & Hy & Hz & Hw & _).
  assert (bytes_ok [x; y; w]) as Hb3 by eauto with bytes.
  pose proof (words_sum_bound [x; y; w] Hb3 ltac:(unfold zlen; simpl; lia)) as Hs.
  exists (Rfc1071.checksum [x; y; w]).
  unfold calc_payload_checksum. unfold byte_ok in *. cbn [Rfc1071.words zsum] in Hs.
  assert (Z.lor (Z.shiftl x 8) y = x * 256 + y) as Hor.
  { rewrite Z.shiftl_mul_pow2 by lia. change (2 ^ 8) with 256.
    pose proof (lor_byte_split 0 y x 0 ltac:(lia) ltac:(lia)) as E.
    rewrite Z.lor_0_l, Z.lor_0_r, Z.mul_0_r, Z.add_0_r, Z.add_0_l in E.
    rewrite (Z.mul_comm x). lia. }
  assert (∀ v, payload_sum [mk_payload [x] 1; mk_payload (y :: v :: w :: rest) 2] 0 0 =
               Ok (x * 256 + y + w * 256)) as Hv.
  { intros v. cbn [payload_sum ptr plen].
    change (drop (2 * Z.to_nat 0) [x]) with [x].
    change (drop (2 * Z.to_nat 1) (y :: v :: w :: rest)) with (w :: rest).
    change (sum_words [x] (1 - 0) 0) with (Ok ([x], 1, 0)).
    cbn [mbind result_bind]. change (1 =? 0) with false. cbv iota.
    rewrite (READ_NET8_ok [x] 0 x), (READ_NET8_ok (y :: v :: w :: rest) 0 y) by done.
    cbn [mbind result_bind]. rewrite Hor, u32_small by lia.
    change (2 - 1) with 1. change (sum_words (w :: rest) 1 ?s) with (Ok (w :: rest, 1, s)).
    cbn [mbind result_bind]. change (1 =? 0) with false. cbv iota.
    rewrite (READ_NET8_ok (w :: rest) 0 w) by done. cbn [mbind result_bind].
    rewrite Z.shiftl_mul_pow2, u32_small by lia. f_equal. }
  rewrite !Hv. cbn [mbind result_bind].
  rewrite (checksum_of_sum [x; y; w]) by (done || (cbn [Rfc1071.words zsum]; lia)).
  done.
Qed.

Lemma calc_payload_checksum_odd_inner_witness :
  ∃ c, calc_payload_checksum [mk_payload [1] 1; mk_payload [2; 3; 4] 2] = Ok c ∧
       c = Rfc1071.checksum [1; 2; 4] ∧
       calc_payload_checksum [mk_payload [1] 1; mk_payload [2; 0; 4] 2] = Ok c.
Proof.
  apply (calc_payload_checksum_odd_inner 1 2 3 4 []).
  repeat constructor; unfold byte_ok; lia.
Defined.
