(* ===== verification/Packet.v ===== *)
(** Sending Ethernet frames and parsing their header:
    [client-switch-lan-play/packet.c] and [lan_play_send_packet] of
    [lan-play.c]. *)
From S2P Require Import Prelude.
From S2P Require Import NetBytes.
From S2P Require Import Types.
From S2P Require Import Checksum.

(** * The program *)

Section Packet.
Context `{Env}.

(** [lan_play_send_packet(lan_play, data, size)]. *)
Definition lan_play_send_packet (data : list Z) (size : Z) : IO Z :=
  frame ← lift (mem_read data 0 size);
  uv_pcap_sendpacket frame.

(** The copy loop of [send_payloads]: [pos] is [buf - self->buffer]. *)
Fixpoint copy_parts (buf : list Z) (blen pos total_len : Z) (parts : list payload)
    : result (list Z * Z) :=
  match parts with
  | [] => Ok (buf, total_len)
  | part :: next =>
      if pos + plen part >=? blen then Fail AssertFailure
      else
        bs ← mem_read (ptr part) 0 (plen part);
        buf ← mem_write buf pos bs;
        copy_parts buf blen (pos + plen part) (u16 (total_len + plen part)) next
  end.

Definition send_payloads (parts : list payload) : IO Z :=
  self ← gets pctx;
  '(buf, total_len) ← lift (copy_parts (buffer self) (buffer_len self) 0 0 parts);
  modify (on_pctx (set_buffer buf));;
  modify (on_pctx (count_upload total_len));;
  lan_play_send_packet buf total_len.

Definition send_ether_ex (dst src : list Z) (type : Z) (payloads : list payload) : IO Z :=
  let buf := replicate 14 0 in
  buf ← lift (CPY_MAC buf ETHER_OFF_DST dst);
  buf ← lift (CPY_MAC buf ETHER_OFF_SRC src);
  buf ← lift (WRITE_NET16 buf ETHER_OFF_TYPE type);
  send_payloads (mk_payload buf ETHER_HEADER_LEN :: payloads).

Definition send_ether (dst : list Z) (type : Z) (payloads : list payload) : IO Z :=
  arg ← gets pctx;
  send_ether_ex dst (mac arg) type payloads.

Definition packet_set_mac (m : list Z) : IO () := modify (on_pctx (set_mac m)).
End Packet.

(** [payload_total_len]: a 16-bit sum. *)
Fixpoint payload_total_len_from (total_len : Z) (parts : list payload) : Z :=
  match parts with
  | [] => total_len
  | part :: next => payload_total_len_from (u16 (total_len + plen part)) next
  end.
Definition payload_total_len (parts : list payload) : Z := payload_total_len_from 0 parts.

Definition AnyMac : list Z := [0xff; 0xff; 0xff; 0xff; 0xff; 0xff].

(** [arp_list_init]: [memset] of the whole cache to zero. *)
Definition empty_item : arp_item := mk_item [0; 0; 0; 0] [0; 0; 0; 0; 0; 0] 0.
Definition arp_list_init : list arp_item := replicate (Z.to_nat ARP_CACHE_LEN) empty_item.

Definition packet_init (buf : list Z) (blen : Z) (ip net mask : list Z) (ttl : Z)
    : result packet_ctx :=
  ip ← CPY_IPV4 (replicate 4 0) 0 ip;
  net ← CPY_IPV4 (replicate 4 0) 0 net;
  mask ← CPY_IPV4 (replicate 4 0) 0 mask;
  Ok (mk_pctx buf blen ip net mask AnyMac 0 arp_list_init ttl 0 0 0 0).

Definition parse_ether (packet : list Z) (len : Z) : result ether_frame :=
  dst ← mem_read packet ETHER_OFF_DST 6;
  src ← mem_read packet ETHER_OFF_SRC 6;
  type ← READ_NET16 packet ETHER_OFF_TYPE;
  Ok (mk_ether packet len dst src type (drop (Z.to_nat ETHER_OFF_END) packet)).

(** * What sending a frame does to the state *)

Definition mac_ok (m : list Z) : Prop := length m = 6%nat ∧ bytes_ok m.

(** The frame is handed to pcap once, the send buffer keeps its size, the
    packet counters grow; nothing else changes. *)
Definition sent (frame : list Z) (w w' : world) : Prop :=
  ∃ buf, length buf = length (buffer (pctx w)) ∧ (bytes_ok (buffer (pctx w)) → bytes_ok buf) ∧
    w' = tick (log_event (EvPcapSend frame)
           (on_pctx (count_upload (zlen frame)) (on_pctx (set_buffer buf) w))).

(** The send buffer of the context. *)
Definition buffer_ok (p : packet_ctx) : Prop :=
  zlen (buffer p) = buffer_len p ∧ buffer_len p ≤ 65536.

(** The invariant of the context: the send buffer is the 2048 bytes of
    [lan_play.buffer], the addresses have their sizes. *)
Record pctx_ok (p : packet_ctx) : Prop := mk_pctx_ok {
  pc_buffer : zlen (buffer p) = BUFFER_SIZE;
  pc_buffer_len : buffer_len p = BUFFER_SIZE;
  pc_bytes : bytes_ok (buffer p);
  pc_ip : ip_ok (ip p);
  pc_net : ip_ok (subnet_net p);
  pc_mask : ip_ok (subnet_mask p);
  pc_mac : mac_ok (mac p) }.

Create HintDb pctx discriminated.
Create HintDb sample discriminated.
Lemma pctx_ok_buffer p : pctx_ok p → buffer_ok p.
Proof. intros []. unfold buffer_ok, BUFFER_SIZE in *. lia. Qed.
#[export] Hint Resolve pctx_ok_buffer pc_ip pc_net pc_mask pc_mac : pctx.

Lemma sent_pctx_ok frame w w' : sent frame w w' → pctx_ok (pctx w) → pctx_ok (pctx w').
Proof.
  intros (buf & Hl & Hb & ->) []. constructor; try done; simpl; [|by apply Hb].
  unfold zlen in *. lia.
Qed.
Lemma sent_trace frame w w' : sent frame w w' → trace w' = trace w ++ [EvPcapSend frame].
Proof. by intros (buf & _ & _ & ->). Qed.
Lemma sent_arp_list frame w w' : sent frame w w' → arp_list (pctx w') = arp_list (pctx w).
Proof. by intros (buf & _ & _ & ->). Qed.

Lemma payload_bytes_cons p ps : payload_bytes (p :: ps) = payload_data p ++ payload_bytes ps.
Proof. done. Qed.

Lemma payload_bytes_part bs n ps :
  n = zlen bs → payload_bytes (mk_payload bs n :: ps) = bs ++ payload_bytes ps.
Proof.
  intros ->. rewrite payload_bytes_cons. unfold payload_data, zlen. cbn [plen ptr].
  by rewrite Nat2Z.id, take_ge.
Qed.
Lemma payload_bytes_single bs n : n = zlen bs → payload_bytes [mk_payload bs n] = bs.
Proof. intros. rewrite payload_bytes_part by done. apply app_nil_r. Qed.

Lemma copy_parts_ok ps buf blen pre rest :
  Forall payload_ok ps → buf = pre ++ rest → zlen buf = blen → blen ≤ 65536 →
  zlen pre + zlen (payload_bytes ps) < blen →
  ∃ buf', copy_parts buf blen (zlen pre) (zlen pre) ps =
            Ok (buf', zlen (pre ++ payload_bytes ps)) ∧
          length buf' = length buf ∧
          take (length (pre ++ payload_bytes ps)) buf' = pre ++ payload_bytes ps ∧
          (bytes_ok buf → bytes_ok buf').
Proof.
  intros Hps. revert buf pre rest. induction Hps as [|p ps Hp Hps IH]; intros buf pre rest -> Hb Hl Ht.
  { exists (pre ++ rest). cbn [copy_parts]. change (payload_bytes []) with (@nil Z).
    rewrite app_nil_r. split_and!; try done. apply take_app_length. }
  rewrite payload_bytes_cons in *. pose proof (payload_data_len p Hp) as Hpl.
  pose proof Hp as (Hp1 & Hp2 & Hp3). cbn [copy_parts].
  assert (zlen (payload_data p ++ payload_bytes ps) = plen p + zlen (payload_bytes ps)) as Ha
    by (rewrite <- Hpl; len_lia).
  rewrite Ha in Ht. assert (0 ≤ zlen (payload_bytes ps)) by (unfold zlen; lia).
  destruct (Z.geb_spec (zlen pre + plen p) blen); [lia|].
  rewrite mem_read_ok by lia. cbn [mbind result_bind]. rewrite drop_0.
  fold (payload_data p).
  assert (length (payload_data p) ≤ length rest)%nat as Hlr.
  { unfold zlen in *. rewrite length_app in *. lia. }
  rewrite mem_write_over by done. cbn [mbind result_bind].
  assert (zlen pre + plen p = zlen (pre ++ payload_data p)) as Hz by (rewrite <- Hpl; len_lia).
  rewrite Hz, u16_small by (unfold zlen in *; lia).
  destruct (IH ((pre ++ payload_data p) ++ drop (length (payload_data p)) rest)
    (pre ++ payload_data p) (drop (length (payload_data p)) rest)) as (b & Hc & Hlen & Htk & Hbk);
    [done| |done|lia|].
  { unfold zlen in *. rewrite !length_app, length_drop in *. lia. }
  rewrite <- !(app_assoc pre (payload_data p) (payload_bytes ps)) in *. exists b. split_and!; [done| |done|].
  - rewrite Hlen, !length_app, length_drop. lia.
  - intros Hbs. apply Forall_app in Hbs as [??]. apply Hbk. eauto with bytes.
Qed.

Lemma copy_parts_too_large ps buf blen pre rest t :
  Forall payload_ok ps → buf = pre ++ rest → zlen buf = blen → zlen pre < blen →
  blen ≤ zlen pre + zlen (payload_bytes ps) →
  copy_parts buf blen (zlen pre) t ps = Fail AssertFailure.
Proof.
  intros Hps. revert buf pre rest t.
  induction Hps as [|p ps Hp Hps IH]; intros buf pre rest t -> Hb Hpre Ht.
  { change (zlen (payload_bytes [])) with 0 in Ht. lia. }
  rewrite payload_bytes_cons in *. pose proof (payload_data_len p Hp) as Hpl.
  pose proof Hp as (Hp1 & Hp2 & Hp3). cbn [copy_parts].
  destruct (Z.geb_spec (zlen pre + plen p) blen); [done|].
  rewrite mem_read_ok by lia. cbn [mbind result_bind]. rewrite drop_0.
  fold (payload_data p).
  assert (length (payload_data p) ≤ length rest)%nat as Hlr.
  { unfold zlen in *. rewrite length_app in *. lia. }
  rewrite mem_write_over by done. cbn [mbind result_bind].
  assert (zlen pre + plen p = zlen (pre ++ payload_data p)) as Hz by (rewrite <- Hpl; len_lia).
  rewrite Hz. apply IH with (drop (length (payload_data p)) rest); [done| |lia|].
  - unfold zlen in *. rewrite !length_app, length_drop in *. lia.
  - unfold zlen in *. rewrite !length_app in *. lia.
Qed.

Section Facts.
Context `{Env}.

Lemma send_payloads_ok ps w :
  Forall payload_ok ps → buffer_ok (pctx w) → zlen (payload_bytes ps) < buffer_len (pctx w) →
  ∃ w', send_payloads ps w = Ok (env_pcap (calls w), w') ∧ sent (payload_bytes ps) w w'.
Proof.
  intros Hps [Hb Hl] Ht.
  destruct (copy_parts_ok ps (buffer (pctx w)) (buffer_len (pctx w)) [] (buffer (pctx w)))
    as (buf & Hc & Hlen & Htk & Hbk); [done..|]. rewrite app_nil_l in Hc, Htk.
  unfold send_payloads, gets, lift, modify, mbind, M_bind. change (zlen []) with 0 in Hc.
  rewrite Hc. unfold lan_play_send_packet, lift, mbind, M_bind.
  rewrite mem_read_ok by (unfold zlen in *; lia).
  rewrite drop_0. unfold zlen at 1. rewrite Nat2Z.id, Htk. unfold uv_pcap_sendpacket.
  eexists. split; [reflexivity|]. exists buf. split_and!; done.
Qed.

Lemma send_payloads_assert ps w :
  Forall payload_ok ps → buffer_ok (pctx w) → 0 < buffer_len (pctx w) ≤ zlen (payload_bytes ps) →
  send_payloads ps w = Fail AssertFailure.
Proof.
  intros Hps [Hb Hl] Ht. unfold send_payloads, gets, lift, mbind, M_bind.
  rewrite (copy_parts_too_large ps _ _ [] (buffer (pctx w)) 0) by (done || (change (zlen []) with 0; lia)).
  done.
Qed.
End Facts.

(** * Ethernet headers *)

Definition be16 (v : Z) : list Z := [v / 256 mod 256; v mod 256].
Definition ether_header (dst src : list Z) (type : Z) : list Z := dst ++ src ++ be16 type.

Lemma length_be16 v : length (be16 v) = 2%nat.
Proof. done. Qed.
#[export] Hint Rewrite length_be16 : len.
Lemma be16_bytes_ok v : bytes_ok (be16 v).
Proof. repeat constructor; apply Z.mod_pos_bound; lia. Qed.
#[export] Hint Resolve be16_bytes_ok : bytes.

Lemma WRITE_NET16_fill pre n off v :
  off = zlen pre →
  WRITE_NET16 (pre ++ replicate (2 + n) 0) off v = Ok ((pre ++ be16 v) ++ replicate n 0).
Proof.
  intros. unfold WRITE_NET16. rewrite htons_store_bytes. by apply mem_write_fill.
Qed.
Lemma WRITE_NET16_mid pre old post off v :
  off = zlen pre → length old = 2%nat →
  WRITE_NET16 (pre ++ old ++ post) off v = Ok (pre ++ be16 v ++ post).
Proof.
  intros. unfold WRITE_NET16. rewrite htons_store_bytes. by apply mem_write_mid.
Qed.
Lemma WRITE_NET8_fill pre n off v :
  off = zlen pre →
  WRITE_NET8 (pre ++ replicate (1 + n) 0) off v = Ok ((pre ++ [v mod 256]) ++ replicate n 0).
Proof. intros. unfold WRITE_NET8. by apply mem_write_fill. Qed.
Lemma WRITE_NET8_mid pre old post off v :
  off = zlen pre → length old = 1%nat →
  WRITE_NET8 (pre ++ old ++ post) off v = Ok (pre ++ [v mod 256] ++ post).
Proof. intros. unfold WRITE_NET8. by apply mem_write_mid. Qed.
Lemma CPY_MAC_fill pre n off m :
  off = zlen pre → length m = 6%nat →
  CPY_MAC (pre ++ replicate (6 + n) 0) off m = Ok ((pre ++ m) ++ replicate n 0).
Proof.
  intros ? Hm. unfold CPY_MAC. rewrite mem_read_all by (unfold zlen; lia).
  by apply mem_write_fill.
Qed.
Lemma CPY_IPV4_fill pre n off a :
  off = zlen pre → length a = 4%nat →
  CPY_IPV4 (pre ++ replicate (4 + n) 0) off a = Ok ((pre ++ a) ++ replicate n 0).
Proof.
  intros ? Ha. unfold CPY_IPV4. rewrite mem_read_all by (unfold zlen; lia).
  by apply mem_write_fill.
Qed.

Lemma be16_load v : 0 ≤ v < 65536 → v / 256 mod 256 * 256 + v mod 256 = v.
Proof. intros. Z.div_mod_to_equations. lia. Qed.

Lemma READ_NET16_mid pre v post off :
  off = zlen pre → 0 ≤ v < 65536 → READ_NET16 (pre ++ be16 v ++ post) off = Ok v.
Proof.
  intros. unfold READ_NET16. rewrite (mem_read_mid _ (be16 v)) by done. cbn [mbind result_bind].
  rewrite htons_load by (eauto with bytes || done). unfold be16.
  by rewrite be_load2, be16_load.
Qed.
Lemma READ_NET8_mid pre v post off :
  off = zlen pre → READ_NET8 (pre ++ [v] ++ post) off = Ok v.
Proof.
  intros. unfold READ_NET8. rewrite (mem_read_mid _ [v]) by done. cbn [mbind result_bind le_load].
  f_equal. lia.
Qed.

Section EtherFacts.
Context `{Env}.

Lemma send_ether_ex_payload dst src type ps w :
  length dst = 6%nat → length src = 6%nat →
  send_ether_ex dst src type ps w =
  send_payloads (mk_payload (ether_header dst src type) 14 :: ps) w.
Proof.
  intros Hd Hs. unfold send_ether_ex.
  assert (zlen (dst ++ src) = 12) by len_lia.
  assert (zlen dst = 6) by (unfold zlen; lia).
  run (CPY_MAC_fill [] 8 ETHER_OFF_DST dst _ _).
  run (CPY_MAC_fill dst 2 ETHER_OFF_SRC src _ _).
  run (WRITE_NET16_fill (dst ++ src) 0 ETHER_OFF_TYPE type _).
  unfold ether_header. by rewrite app_nil_r, <- app_assoc.
Qed.

Lemma ether_header_payload_ok dst src type :
  mac_ok dst → mac_ok src → payload_ok (mk_payload (ether_header dst src type) 14).
Proof.
  intros [Hd ?] [Hs ?]. unfold payload_ok, ether_header; cbn [plen ptr].
  split_and!; [lia..|len_lia|eauto with bytes].
Qed.

Lemma ether_frame_bytes dst src type ps :
  length dst = 6%nat → length src = 6%nat →
  payload_bytes (mk_payload (ether_header dst src type) 14 :: ps) =
  ether_header dst src type ++ payload_bytes ps.
Proof.
  intros. rewrite payload_bytes_cons. f_equal. unfold payload_data. cbn [plen ptr].
  apply take_ge. unfold ether_header. rewrite !length_app. simpl. lia.
Qed.

Lemma send_ether_ex_ok dst src type ps w :
  mac_ok dst → mac_ok src → Forall payload_ok ps → buffer_ok (pctx w) →
  14 + zlen (payload_bytes ps) < buffer_len (pctx w) →
  ∃ w', send_ether_ex dst src type ps w = Ok (env_pcap (calls w), w') ∧
        sent (ether_header dst src type ++ payload_bytes ps) w w'.
Proof.
  intros Hd Hs Hps Hb Hl. rewrite send_ether_ex_payload by (apply Hd || apply Hs).
  rewrite <- ether_frame_bytes by (apply Hd || apply Hs).
  apply send_payloads_ok; [constructor; auto using ether_header_payload_ok|done|].
  rewrite ether_frame_bytes by (apply Hd || apply Hs).
  destruct Hd, Hs. unfold ether_header. len_lia.
Qed.

Lemma send_ether_ok dst type ps w :
  mac_ok dst → mac_ok (mac (pctx w)) → Forall payload_ok ps → buffer_ok (pctx w) →
  14 + zlen (payload_bytes ps) < buffer_len (pctx w) →
  ∃ w', send_ether dst type ps w = Ok (env_pcap (calls w), w') ∧
        sent (ether_header dst (mac (pctx w)) type ++ payload_bytes ps) w w'.
Proof. intros. unfold send_ether. by apply send_ether_ex_ok. Qed.

(** (C40) A frame sent with a payload chain that fits the send buffer reaches
    pcap exactly once as the Ethernet header (destination, source, type in
    network order) followed by the payload bytes, and [parse_ether] on those
    bytes gives back the addresses, the type and the payload; a chain that
    does not fit the buffer stops the program at the assertion before
    anything is sent. *)
Theorem send_ether_roundtrip dst src type ps w :
  mac_ok dst → mac_ok src → 0 ≤ type < 65536 → Forall payload_ok ps →
  buffer_ok (pctx w) → 0 < buffer_len (pctx w) →
  let frame := ether_header dst src type ++ payload_bytes ps in
  parse_ether frame (zlen frame) =
    Ok (mk_ether frame (zlen frame) dst src type (payload_bytes ps)) ∧
  if zlen frame <? buffer_len (pctx w)
  then ∃ w', send_ether_ex dst src type ps w = Ok (env_pcap (calls w), w') ∧
             trace w' = trace w ++ [EvPcapSend frame]
  else send_ether_ex dst src type ps w = Fail AssertFailure.
Proof.
  intros Hd Hs Ht Hps Hb Hb0 frame. pose proof Hd as [Hd6 _]. pose proof Hs as [Hs6 _].
  assert (zlen frame = 14 + zlen (payload_bytes ps)) as Hf
    by (unfold frame, ether_header; len_lia).
  split.
  - unfold parse_ether, frame, ether_header. rewrite <- !app_assoc.
    assert (zlen dst = 6 ∧ zlen src = 6) as [Hd' Hs'] by (unfold zlen; lia).
    run (mem_read_mid [] dst _ _ _ _ _). run (mem_read_mid dst src _ _ _ _ _).
    erewrite ok_bind by (rewrite (app_assoc dst src); apply READ_NET16_mid; [unfold ETHER_OFF_TYPE; len_lia|done]).
    do 2 f_equal. rewrite !app_assoc. apply drop_app_length'.
    unfold ETHER_OFF_END. len_lia.
  - destruct (Z.ltb_spec (zlen frame) (buffer_len (pctx w))) as [Hlt|Hge].
    + destruct (send_ether_ex_ok dst src type ps w) as (w' & E & buf & _ & _ & ->);
        [done..|lia|]. rewrite E. by eexists.
    + rewrite send_ether_ex_payload by done. apply send_payloads_assert; [|done|].
      * constructor; auto using ether_header_payload_ok.
      * rewrite ether_frame_bytes by done. fold frame. lia.
Qed.
End EtherFacts.

(** * A concrete state

    A client at 10.13.37.1/16 with an empty neighbour cache; the clock shows
    1000 seconds and every send succeeds. *)
Module Sample.

Definition env : Env := {| env_time := λ _, 1000; env_pcap := λ _, 0; env_udp := λ _, 0;
  env_uv := λ _, 0; env_stack := λ _, replicate 6 0 |}.
Definition our_mac : list Z := [2; 0; 0; 0; 0; 1].
Definition peer_mac : list Z := [2; 0; 0; 0; 0; 2].
Definition our_ip : list Z := [10; 13; 37; 1].
Definition peer_ip : list Z := [10; 13; 0; 7].
Definition other_ip : list Z := [10; 13; 0; 9].
Definition pc : packet_ctx :=
  mk_pctx (replicate 2048 0) 2048 our_ip [10; 13; 0; 0] [255; 255; 0; 0] our_mac 0
    arp_list_init 30 0 0 0 0.
Definition server : slp_addr_in := mk_addr AF_INET [192; 0; 2; 1] 47916.
Definition client : lan_play :=
  mk_lp pc (replicate 4096 0) 0 false false 0 0 [] None [] server 0 0 0 0.
Definition start : world := mk_world client [] 0.

Ltac bytes_solve := repeat constructor; unfold byte_ok; lia.

Lemma pc_ok : pctx_ok pc.
Proof. constructor; try done; [apply bytes_ok_zeros|split; [done|bytes_solve]..]. Qed.
Lemma peer_mac_ok : mac_ok peer_mac.
Proof. split; [done|bytes_solve]. Qed.
Lemma our_mac_ok : mac_ok our_mac.
Proof. split; [done|bytes_solve]. Qed.
Lemma our_ip_ok : ip_ok our_ip.
Proof. split; [done|bytes_solve]. Qed.
Lemma peer_ip_ok : ip_ok peer_ip.
Proof. split; [done|bytes_solve]. Qed.
Lemma other_ip_ok : ip_ok other_ip.
Proof. split; [done|bytes_solve]. Qed.

End Sample.
#[export] Hint Resolve Sample.pc_ok Sample.peer_mac_ok Sample.our_mac_ok Sample.our_ip_ok
  Sample.peer_ip_ok Sample.other_ip_ok : sample.

Lemma send_ether_roundtrip_witness :
  ∃ w', @send_ether_ex Sample.env Sample.peer_mac Sample.our_mac 0x0800
          [mk_payload [1; 2; 3] 2; mk_payload [4] 1] Sample.start = Ok (0, w') ∧
    trace w' = [EvPcapSend [2; 0; 0; 0; 0; 2; 2; 0; 0; 0; 0; 1; 8; 0; 1; 2; 4]].
Proof.
  destruct (@send_ether_roundtrip Sample.env Sample.peer_mac Sample.our_mac 0x0800
    [mk_payload [1; 2; 3] 2; mk_payload [4] 1] Sample.start) as [_ H].
  - apply Sample.peer_mac_ok.
  - apply Sample.our_mac_ok.
  - lia.
  - repeat (apply Forall_cons_iff; split); [split_and!; try done; Sample.bytes_solve..|constructor].
  - apply pctx_ok_buffer, Sample.pc_ok.
  - done.
  - exact H.
Defined.
