(* ===== verification/Arp.v ===== *)
(** The ARP responder and the neighbour cache: [client-switch-lan-play/arp.c].

    The cache is an array of 100 entries that may hold several entries for
    one address; it is shown to implement a finite map from addresses to
    MAC addresses with an expiry time, through the interface
    [NeighbourCache]. *)
From stdpp Require Import gmap.
From S2P Require Import Prelude.
From S2P Require Import NetBytes.
From S2P Require Import Types.
From S2P Require Import Checksum.
From S2P Require Import Packet.

(** * The program *)

Definition NONE_IP : list Z := [0; 0; 0; 0].
Definition NONE_MAC : list Z := [0; 0; 0; 0; 0; 0].
Definition BROADCASE_MAC : list Z := [0xff; 0xff; 0xff; 0xff; 0xff; 0xff].

Definition parse_arp (ether : ether_frame) : result arp :=
  let packet := eth_payload ether in
  hw ← READ_NET16 packet ARP_OFF_HARDWARE;
  proto ← READ_NET16 packet ARP_OFF_PROTOCOL;
  hs ← READ_NET8 packet ARP_OFF_HARDWARE_SIZE;
  ps ← READ_NET8 packet ARP_OFF_PROTOCOL_SIZE;
  op ← READ_NET16 packet ARP_OFF_OPCODE;
  smac ← mem_read packet ARP_OFF_SENDER_MAC 6;
  sip ← mem_read packet ARP_OFF_SENDER_IP 4;
  tmac ← mem_read packet ARP_OFF_TARGET_MAC 6;
  tip ← mem_read packet ARP_OFF_TARGET_IP 4;
  Ok (mk_arp hw proto hs ps op smac sip tmac tip).

(** The test of the lookup loops, [CMP_IPV4(item->ip, ip) && item->expire_at > now]. *)
Definition item_live (now : Z) (ip : list Z) (item : arp_item) : bool :=
  CMP_IPV4 (item_ip item) ip && (expire_at item >? now).

(** The loops of [arp_has_ip] and [arp_get_mac_by_ip]: the first live entry. *)
Fixpoint arp_find (list : list arp_item) (now : Z) (ip : Datatypes.list Z) : option arp_item :=
  match list with
  | [] => None
  | item :: rest => if item_live now ip item then Some item else arp_find rest now ip
  end.

(** The test of [arp_set]: an entry that may be overwritten. *)
Definition item_free (now : Z) (ip : list Z) (item : arp_item) : bool :=
  CMP_IPV4 (item_ip item) NONE_IP || CMP_IPV4 (item_ip item) ip || (expire_at item <? now).

(** The loop of [arp_set]: the first such entry is replaced. *)
Fixpoint arp_store (list : list arp_item) (now ttl : Z) (ip mac : Datatypes.list Z)
    : option (Datatypes.list arp_item) :=
  match list with
  | [] => None
  | item :: rest =>
      if item_free now ip item then Some (mk_item (take 4 ip) (take 6 mac) (now + ttl) :: rest)
      else cons item <$> arp_store rest now ttl ip mac
  end.

Section Arp.
Context `{Env}.

Definition send_arp_ex (dst_mac : list Z) (opcode : Z)
    (sender_mac sender_ip target_mac target_ip : list Z) : IO Z :=
  let buffer := replicate (Z.to_nat ARP_LEN) 0 in
  buffer ← lift (WRITE_NET16 buffer ARP_OFF_HARDWARE ARP_HARDTYPE_ETHER);
  buffer ← lift (WRITE_NET16 buffer ARP_OFF_PROTOCOL ETHER_TYPE_IPV4);
  buffer ← lift (WRITE_NET8 buffer ARP_OFF_HARDWARE_SIZE 6);
  buffer ← lift (WRITE_NET8 buffer ARP_OFF_PROTOCOL_SIZE 4);
  buffer ← lift (WRITE_NET16 buffer ARP_OFF_OPCODE (u8 opcode));
  buffer ← lift (CPY_MAC buffer ARP_OFF_SENDER_MAC sender_mac);
  buffer ← lift (CPY_IPV4 buffer ARP_OFF_SENDER_IP sender_ip);
  buffer ← lift (CPY_MAC buffer ARP_OFF_TARGET_MAC target_mac);
  buffer ← lift (CPY_IPV4 buffer ARP_OFF_TARGET_IP target_ip);
  send_ether dst_mac ETHER_TYPE_ARP [mk_payload buffer ARP_LEN].

Definition send_arp (opcode : Z) (sender_mac sender_ip target_mac target_ip : list Z) : IO Z :=
  send_arp_ex target_mac opcode sender_mac sender_ip target_mac target_ip.

Definition send_arp_request (target_ip : list Z) : IO Z :=
  self ← gets pctx;
  send_arp_ex BROADCASE_MAC ARP_OPCODE_REQUEST (mac self) (ip self) NONE_MAC target_ip.

Definition arp_has_ip (ip : list Z) : IO bool :=
  self ← gets pctx;
  now ← time;
  mret (match arp_find (arp_list self) now ip with Some _ => true | None => false end).

(** The MAC address found, or [None] for the result [false]. *)
Definition arp_get_mac_by_ip (ip : list Z) : IO (option (list Z)) :=
  self ← gets pctx;
  now ← time;
  match arp_find (arp_list self) now ip with
  | Some item => mret (Some (item_mac item))
  | None => _ ← send_arp_request ip; mret None
  end.

Definition arp_set (mac ip : list Z) : IO bool :=
  self ← gets pctx;
  now ← time;
  match arp_store (arp_list self) now (arp_ttl self) ip mac with
  | Some list => modify (on_pctx (set_arp_list list));; mret true
  | None => mret false
  end.

Definition arp_request (arp : arp) : IO Z :=
  self ← gets pctx;
  if IS_SUBNET (target_ip arp) (subnet_net self) (subnet_mask self) then
    if CMP_IPV4 (target_ip arp) (sender_ip arp) then mret 0
    else if CMP_IPV4 (sender_ip arp) NONE_IP then mret 0
    else
      has ← arp_has_ip (target_ip arp);
      if has : bool then mret 0
      else send_arp ARP_OPCODE_REPLY (mac self) (target_ip arp) (sender_mac arp) (sender_ip arp)
  else mret 0.

Definition arp_reply (arp : arp) : IO Z := mret 0.

Definition process_arp (ether : ether_frame) : IO Z :=
  arp ← lift (parse_arp ether);
  if negb (hardware_type arp =? ARP_HARDTYPE_ETHER)
     || negb (protocol_type arp =? ETHER_TYPE_IPV4)
     || negb (hardware_size arp =? 6)
     || negb (protocol_size arp =? 4)
  then mret (-1)
  else
    _ ← arp_set (sender_mac arp) (sender_ip arp);
    if opcode arp =? ARP_OPCODE_REQUEST then arp_request arp
    else if opcode arp =? ARP_OPCODE_REPLY then arp_reply arp
    else mret (-1).

(** The loop of [arp_for_each] over the indices still to visit; the entry
    is read from the cache as it is when the loop gets to it. *)
Fixpoint arp_for_each_from (now : Z) (cb : arp_item → IO Z) (indices : list nat) : IO () :=
  match indices with
  | [] => mret ()
  | i :: rest =>
      self ← gets pctx;
      item ← lift (arr_get (arp_list self) (Z.of_nat i));
      if expire_at item >? now then
        r ← cb item;
        if r =? 0 then arp_for_each_from now cb rest else mret ()
      else arp_for_each_from now cb rest
  end.

Definition arp_for_each (cb : arp_item → IO Z) : IO () :=
  now ← time;
  arp_for_each_from now cb (seq 0 (Z.to_nat ARP_CACHE_LEN)).
End Arp.

(** * The cache as a table *)

(** What the rest of the program relies on: a cache answers a lookup with the
    address most recently stored for it, until [ttl] has passed.  A store
    may fail (no room), and the clock never goes back. *)
Class NeighbourCache (C : Type) := {
  nc_lookup : C → Z → list Z → option (list Z);
  nc_set : C → Z → Z → list Z → list Z → option C;
  (** [nc_inv ttl now c]: [c] was reached with stores no later than [now]. *)
  nc_inv : Z → Z → C → Prop;
  nc_inv_later ttl t t' c : nc_inv ttl t c → t ≤ t' → nc_inv ttl t' c;
  nc_set_inv ttl now ip mac c c' :
    ip_ok ip → mac_ok mac → nc_inv ttl now c → nc_set c now ttl ip mac = Some c' →
    nc_inv ttl now c';
  nc_lookup_set ttl now ip mac c c' t ip' :
    ip_ok ip → mac_ok mac → nc_inv ttl now c → nc_set c now ttl ip mac = Some c' →
    now ≤ t → ip_ok ip' → ip' ≠ NONE_IP →
    nc_lookup c' t ip' =
      if decide (ip' = ip) then (if now + ttl >? t then Some mac else None)
      else nc_lookup c t ip'
}.

(** The abstract table: address to MAC address and expiry time. *)
Abbreviation table := (gmap (list Z) (list Z * Z)).
Definition table_lookup (m : table) (t : Z) (ip : list Z) : option (list Z) :=
  '(mac, e) ← m !! ip; if e >? t then Some mac else None.
Definition table_set (m : table) (now ttl : Z) (ip mac : list Z) : table :=
  <[ip := (mac, now + ttl)]> m.

(** One store of a history: when, for which address, which MAC address. *)
Record store := mk_store { st_now : Z; st_ip : list Z; st_mac : list Z }.
Definition store_ok (s : store) : Prop := ip_ok (st_ip s) ∧ mac_ok (st_mac s).

(** The stores happen in the order of the list, at times that do not decrease. *)
Fixpoint timed (now : Z) (h : list store) : Prop :=
  match h with [] => True | s :: h => now ≤ st_now s ∧ timed (st_now s) h end.
Fixpoint last_time (now : Z) (h : list store) : Z :=
  match h with [] => now | s :: h => last_time (st_now s) h end.

Section Client.
Context {C : Type} `{NeighbourCache C}.

(** The cache after a history; a store that fails leaves it as it is. *)
Fixpoint cache_run (ttl : Z) (c : C) (h : list store) : C :=
  match h with
  | [] => c
  | s :: h => cache_run ttl (default c (nc_set c (st_now s) ttl (st_ip s) (st_mac s))) h
  end.

(** The table after the stores of the history that succeeded. *)
Fixpoint table_run (ttl : Z) (c : C) (m : table) (h : list store) : table :=
  match h with
  | [] => m
  | s :: h =>
      match nc_set c (st_now s) ttl (st_ip s) (st_mac s) with
      | Some c' => table_run ttl c' (table_set m (st_now s) ttl (st_ip s) (st_mac s)) h
      | None => table_run ttl c m h
      end
  end.

(** The cache answers as the table does, now and later. *)
Definition simulates (ttl now : Z) (c : C) (m : table) : Prop :=
  nc_inv ttl now c ∧
  ∀ t ip, now ≤ t → ip_ok ip → ip ≠ NONE_IP → nc_lookup c t ip = table_lookup m t ip.

Lemma simulates_later ttl t t' c m : simulates ttl t c m → t ≤ t' → simulates ttl t' c m.
Proof. intros [Hi Hl] ?. split; [by eapply nc_inv_later|]. intros. apply Hl; [lia|done..]. Qed.

Lemma table_lookup_set m now ttl ip mac t ip' :
  table_lookup (table_set m now ttl ip mac) t ip' =
    if decide (ip' = ip) then (if now + ttl >? t then Some mac else None)
    else table_lookup m t ip'.
Proof.
  unfold table_lookup, table_set. case_decide as Hc.
  - subst ip'. by rewrite lookup_insert_eq.
  - by rewrite lookup_insert_ne by congruence.
Qed.

Lemma simulates_set ttl now c c' m ip mac :
  ip_ok ip → mac_ok mac → simulates ttl now c m → nc_set c now ttl ip mac = Some c' →
  simulates ttl now c' (table_set m now ttl ip mac).
Proof.
  intros Hip Hm [Hi Hl] E. split; [by eapply (nc_set_inv ttl now ip mac c)|].
  intros t ip' ???. rewrite (nc_lookup_set ttl now ip mac c c') by done.
  rewrite table_lookup_set. case_decide; [done|]. by apply Hl.
Qed.

Lemma simulates_run ttl now c m h :
  Forall store_ok h → timed now h → simulates ttl now c m →
  simulates ttl (last_time now h) (cache_run ttl c h) (table_run ttl c m h).
Proof.
  intros Hh. revert now c m. induction Hh as [|s h [Hi Hm] _ IH]; intros now c m Ht Hs; [done|].
  destruct Ht as [Hn Ht]. cbn [last_time cache_run table_run].
  pose proof (simulates_later _ _ _ _ _ Hs Hn) as Hs'.
  destruct (nc_set c _ _ _ _) as [c'|] eqn:E; simpl; apply IH; eauto using simulates_set.
Qed.
End Client.

(** * The array implements the table *)

Definition item_ok (item : arp_item) : Prop := ip_ok (item_ip item) ∧ mac_ok (item_mac item).

Definition cache_inv (ttl now : Z) (list : list arp_item) : Prop :=
  zlen list = ARP_CACHE_LEN ∧ Forall item_ok list ∧ Forall (λ i, expire_at i ≤ now + ttl) list.

Definition list_lookup_mac (list : list arp_item) (now : Z) (ip : Datatypes.list Z)
    : option (Datatypes.list Z) := item_mac <$> arp_find list now ip.

Lemma item_live_spec now ip item :
  item_ok item → ip_ok ip → item_live now ip item = true ↔ item_ip item = ip ∧ now < expire_at item.
Proof.
  intros [[Hl _] _] [Hi _]. unfold item_live.
  rewrite andb_true_iff, CMP_IPV4_spec by done. by rewrite Z.gtb_lt.
Qed.

Lemma item_free_spec now ip item :
  item_ok item → ip_ok ip →
  item_free now ip item = true ↔ item_ip item = NONE_IP ∨ item_ip item = ip ∨ expire_at item < now.
Proof.
  intros [[Hl _] _] [Hi _]. unfold item_free.
  rewrite !orb_true_iff, !CMP_IPV4_spec by done. rewrite Z.ltb_lt. tauto.
Qed.

Lemma arp_find_expired list now ip :
  Forall (λ i, expire_at i ≤ now) list → arp_find list now ip = None.
Proof.
  induction 1 as [|item l Hi _ IH]; [done|]. simpl. unfold item_live.
  assert ((expire_at item >? now) = false) as -> by lia. by rewrite andb_false_r.
Qed.

Lemma arp_store_preserves (P : arp_item → Prop) list list' now ttl ip mac :
  Forall P list → P (mk_item (take 4 ip) (take 6 mac) (now + ttl)) →
  arp_store list now ttl ip mac = Some list' → length list' = length list ∧ Forall P list'.
Proof.
  intros Hl Hn. revert list'. induction Hl as [|item l Hi Hl IH]; intros list'; simpl; [done|].
  case_if; [intros [= <-]; auto|].
  intros (l' & E' & ->)%fmap_Some_1. destruct (IH _ E'). split; [simpl; lia|auto].
Qed.

Lemma arp_find_store list list' now ttl ip mac t ip' :
  Forall item_ok list → Forall (λ i, expire_at i ≤ now + ttl) list →
  ip_ok ip → mac_ok mac → ip_ok ip' → ip' ≠ NONE_IP → now ≤ t →
  arp_store list now ttl ip mac = Some list' →
  list_lookup_mac list' t ip' =
    if decide (ip' = ip) then (if now + ttl >? t then Some mac else None)
    else list_lookup_mac list t ip'.
Proof.
  intros Hl He Hip [Hm _] Hip' Hn Ht. pose proof Hip as [Hip4 _]. revert list'.
  induction Hl as [|item l Hi Hl IH]; intros list'; cbn [arp_store]; [done|].
  apply Forall_cons_iff in He as [He1 He].
  destruct (item_free now ip item) eqn:Ef.
  - intros [= <-]. rewrite !take_ge by lia. unfold list_lookup_mac. cbn [arp_find].
    unfold item_live at 1. cbn [item_ip item_mac expire_at].
    assert (CMP_IPV4 ip ip' = bool_decide (ip' = ip)) as ->.
    { apply eq_true_iff_eq. rewrite CMP_IPV4_spec, bool_decide_eq_true by (done || apply Hip'). done. }
    case_decide as Hc; [rewrite bool_decide_true by done|rewrite bool_decide_false by done]; simpl.
    + destruct (now + ttl >? t) eqn:Eg; [done|]. rewrite arp_find_expired; [done|].
      eapply Forall_impl; [|exact He]. simpl. lia.
    + destruct (item_live t ip' item) eqn:El; [|done]. exfalso.
      apply item_live_spec in El as [<- ?]; [|done..].
      apply item_free_spec in Ef as [?|[?|?]]; [done..|lia|done|done].
  - intros (l' & E' & ->)%fmap_Some_1. unfold list_lookup_mac. cbn [arp_find].
    destruct (item_live t ip' item) eqn:El; [|by apply IH]. simpl.
    case_decide as Hc; [|done]. subst ip'. apply item_live_spec in El as [El _]; [|done..].
    apply not_true_iff_false in Ef. rewrite item_free_spec in Ef by done. tauto.
Qed.

#[export] Program Instance array_cache : NeighbourCache (list arp_item) := {|
  nc_lookup := list_lookup_mac;
  nc_set := arp_store;
  nc_inv := cache_inv |}.
Next Obligation.
  intros ttl t t' c (? & ? & He) ?. split_and!; [done..|].
  eapply Forall_impl; [|exact He]. simpl. lia.
Qed.
Next Obligation.
  intros ttl now ip mac c c' Hip Hm (Hl & Hi & He) E.
  assert (item_ok (mk_item (take 4 ip) (take 6 mac) (now + ttl))) as Hn.
  { destruct Hip, Hm. split; split; simpl; rewrite ?length_take; eauto with bytes; lia. }
  destruct (arp_store_preserves _ _ _ _ _ _ _ Hi Hn E) as [Hlen ?].
  edestruct (arp_store_preserves (λ i, expire_at i ≤ now + ttl)) as [_ ?]; [done| |done|].
  { simpl. lia. }
  split_and!; [|done..]. unfold zlen in *. lia.
Qed.
Next Obligation.
  intros ttl now ip mac c c' t ip' Hip Hm (_ & Hi & He) E ???. by eapply arp_find_store.
Qed.

Lemma arp_list_init_inv ttl now : 0 ≤ now + ttl → cache_inv ttl now arp_list_init.
Proof.
  intros. split_and!; [done|apply Forall_replicate|apply Forall_replicate; simpl; lia].
  repeat split; simpl; eauto 10 with bytes.
Qed.

Lemma arp_list_init_simulates ttl now : 0 ≤ now + ttl → simulates ttl now arp_list_init ∅.
Proof.
  intros. split; [by apply arp_list_init_inv|]. intros t ip' _ Hip Hn.
  unfold table_lookup. rewrite lookup_empty. simpl. unfold list_lookup_mac.
  assert (∀ n, arp_find (replicate n empty_item) t ip' = None) as Hf; [|unfold arp_list_init; by rewrite Hf].
  induction n as [|n IHn]; [done|]. cbn [replicate arp_find].
  destruct (item_live t ip' empty_item) eqn:E; [|done]. exfalso.
  apply item_live_spec in E as [E _]; [by subst|repeat split; simpl; eauto 10 with bytes|done].
Qed.

(** * ARP packets *)

Definition arp_packet (op : Z) (smac sip tmac tip : list Z) : list Z :=
  be16 ARP_HARDTYPE_ETHER ++ be16 ETHER_TYPE_IPV4 ++ [6] ++ [4] ++ be16 op ++
  smac ++ sip ++ tmac ++ tip.

Lemma length_arp_packet op smac sip tmac tip :
  mac_ok smac → ip_ok sip → mac_ok tmac → ip_ok tip →
  length (arp_packet op smac sip tmac tip) = 28%nat.
Proof. intros [? _] [? _] [? _] [? _]. unfold arp_packet. rewrite !length_app. simpl. lia. Qed.

Lemma arp_packet_payload_ok op smac sip tmac tip :
  mac_ok smac → ip_ok sip → mac_ok tmac → ip_ok tip →
  payload_ok (mk_payload (arp_packet op smac sip tmac tip) ARP_LEN).
Proof.
  intros. split_and!; cbn [plen ptr]; unfold zlen;
    rewrite ?length_arp_packet by done; unfold ARP_LEN; try lia.
  destruct H, H0, H1, H2. unfold arp_packet.
  repeat (apply bytes_ok_app; [eauto with bytes; repeat constructor; unfold byte_ok; lia|]). done.
Qed.

Section ArpPackets.
Context `{Env}.

Lemma send_arp_ex_packet dst op smac sip tmac tip w :
  mac_ok smac → ip_ok sip → mac_ok tmac → ip_ok tip → 0 ≤ op < 256 →
  send_arp_ex dst op smac sip tmac tip w =
  send_ether dst ETHER_TYPE_ARP [mk_payload (arp_packet op smac sip tmac tip) ARP_LEN] w.
Proof.
  intros [Hsm _] [Hsi _] [Htm _] [Hti _] Hop. unfold send_arp_ex. rewrite u8_small by done.
  run (WRITE_NET16_fill [] 26 ARP_OFF_HARDWARE ARP_HARDTYPE_ETHER _).
  run (WRITE_NET16_fill _ 24 ARP_OFF_PROTOCOL ETHER_TYPE_IPV4 _).
  run (WRITE_NET8_fill _ 23 ARP_OFF_HARDWARE_SIZE 6 _).
  run (WRITE_NET8_fill _ 22 ARP_OFF_PROTOCOL_SIZE 4 _).
  run (WRITE_NET16_fill _ 20 ARP_OFF_OPCODE op _).
  run (CPY_MAC_fill _ 14 ARP_OFF_SENDER_MAC smac _ Hsm).
  erewrite lift_bind by (apply (CPY_IPV4_fill _ 10 ARP_OFF_SENDER_IP sip); [off_lia|done]).
  erewrite lift_bind by (apply (CPY_MAC_fill _ 4 ARP_OFF_TARGET_MAC tmac); [off_lia|done]).
  erewrite lift_bind by (apply (CPY_IPV4_fill _ 0 ARP_OFF_TARGET_IP tip); [off_lia|done]).
  unfold arp_packet. rewrite app_nil_r, app_nil_l, <- !app_assoc. done.
Qed.

Lemma send_arp_ex_ok dst op smac sip tmac tip w :
  pctx_ok (pctx w) → mac_ok dst →
  mac_ok smac → ip_ok sip → mac_ok tmac → ip_ok tip → 0 ≤ op < 256 →
  ∃ w', send_arp_ex dst op smac sip tmac tip w = Ok (env_pcap (calls w), w') ∧
        sent (ether_header dst (mac (pctx w)) ETHER_TYPE_ARP ++
              arp_packet op smac sip tmac tip) w w'.
Proof.
  intros Hw Hd Hsm Hsi Htm Hti Hop. rewrite send_arp_ex_packet by done.
  pose proof (length_arp_packet op smac sip tmac tip Hsm Hsi Htm Hti) as Hl.
  assert (payload_bytes [mk_payload (arp_packet op smac sip tmac tip) ARP_LEN] =
          arp_packet op smac sip tmac tip) as Hp
    by (apply payload_bytes_single; unfold zlen; by rewrite Hl).
  destruct (send_ether_ok dst ETHER_TYPE_ARP
    [mk_payload (arp_packet op smac sip tmac tip) ARP_LEN] w) as (w' & E & Hs);
    eauto with pctx.
  - constructor; [by apply arp_packet_payload_ok|constructor].
  - rewrite Hp. unfold zlen. rewrite Hl. destruct Hw. unfold BUFFER_SIZE in *. lia.
  - rewrite Hp in Hs. eauto.
Qed.

(** What a request broadcast for [tip] looks like on the wire. *)
Definition request_frame (p : packet_ctx) (tip : list Z) : list Z :=
  ether_header BROADCASE_MAC (mac p) ETHER_TYPE_ARP ++
  arp_packet ARP_OPCODE_REQUEST (mac p) (ip p) NONE_MAC tip.

Lemma send_arp_request_ok tip w :
  pctx_ok (pctx w) → ip_ok tip →
  ∃ w', send_arp_request tip w = Ok (env_pcap (calls w), w') ∧
        sent (request_frame (pctx w) tip) w w'.
Proof.
  intros Hw Ht. unfold send_arp_request, gets, mbind, M_bind, request_frame.
  apply send_arp_ex_ok; eauto with pctx.
  - split; [done|]. repeat constructor; unfold byte_ok; lia.
  - split; [done|]. repeat constructor; unfold byte_ok; lia.
  - unfold ARP_OPCODE_REQUEST. lia.
Qed.
End ArpPackets.

Lemma parse_arp_packet ether op smac sip tmac tip pad :
  eth_payload ether = arp_packet op smac sip tmac tip ++ pad →
  mac_ok smac → ip_ok sip → mac_ok tmac → ip_ok tip → 0 ≤ op < 65536 →
  parse_arp ether =
    Ok (mk_arp ARP_HARDTYPE_ETHER ETHER_TYPE_IPV4 6 4 op smac sip tmac tip).
Proof.
  intros Hpay [Hsm _] [Hsi _] [Htm _] [Hti _] Hop. unfold parse_arp.
  rewrite Hpay. unfold arp_packet.
  rewrite <- !app_assoc.
  assert (zlen smac = 6 ∧ zlen sip = 4 ∧ zlen tmac = 6 ∧ zlen tip = 4) as (?&?&?&?)
    by (unfold zlen; lia).
  assert (∀ (pre : list Z) n, zlen pre = n → ∀ bs post m, zlen bs = m →
    mem_read (pre ++ bs ++ post) n m = Ok bs) as Hr
    by (intros pre n <- bs post m <-; by apply mem_read_mid).
  erewrite ok_bind by (by apply (READ_NET16_mid [])).
  erewrite ok_bind by (by apply (READ_NET16_mid (be16 ARP_HARDTYPE_ETHER))).
  erewrite ok_bind by (by apply (READ_NET8_mid (be16 ARP_HARDTYPE_ETHER ++ be16 ETHER_TYPE_IPV4))).
  set (h6 := be16 ARP_HARDTYPE_ETHER ++ be16 ETHER_TYPE_IPV4 ++ [6]).
  set (h8 := h6 ++ [4] ++ be16 op).
  erewrite ok_bind by (by apply (READ_NET8_mid h6)).
  erewrite ok_bind by (by apply (READ_NET16_mid (h6 ++ [4]))).
  erewrite ok_bind by (by apply (Hr h8)).
  erewrite ok_bind by (rewrite 5!app_assoc; apply mem_read_mid; [off_lia|done]).
  erewrite ok_bind by (rewrite 6!app_assoc; apply mem_read_mid; [off_lia|done]).
  erewrite ok_bind by (rewrite 7!app_assoc; apply mem_read_mid; [off_lia|done]).
  done.
Qed.

(** * Behaviour of the operations *)

Section ArpFacts.
Context `{Env}.

(** The neighbour table of the context, seen from time [now] on. *)
Definition neighbours (now : Z) (p : packet_ctx) (m : table) : Prop :=
  simulates (arp_ttl p) now (arp_list p) m.

(** [arp_set] finds an entry to overwrite: an unused one, one for the same
    address, or one that has expired. *)
Definition arp_room (now : Z) (ip : list Z) (list : list arp_item) : bool :=
  existsb (item_free now ip) list.

Lemma arp_store_room now ttl ip mac list :
  arp_room now ip list = match arp_store list now ttl ip mac with Some _ => true | None => false end.
Proof.
  unfold arp_room. induction list as [|item l IH]; [done|]. cbn [existsb arp_store].
  destruct (item_free now ip item); [done|]. rewrite IH. by destruct (arp_store l now ttl ip mac).
Qed.

Lemma arp_set_spec mac ip w m now :
  ip_ok ip → mac_ok mac → neighbours now (pctx w) m → now ≤ env_time (calls w) →
  let b := arp_room (env_time (calls w)) ip (arp_list (pctx w)) in
  ∃ l,
    arp_set mac ip w = Ok (b, tick (on_pctx (set_arp_list l) w)) ∧
    simulates (arp_ttl (pctx w)) (env_time (calls w)) l
      (if b then table_set m (env_time (calls w)) (arp_ttl (pctx w)) ip mac else m).
Proof.
  intros Hip Hm Hs Ht b. pose proof (simulates_later _ _ _ _ _ Hs Ht) as Hs'.
  unfold b. rewrite (arp_store_room _ (arp_ttl (pctx w)) _ mac).
  unfold arp_set, gets, time, modify, mbind, M_bind.
  destruct (arp_store _ _ _ _ _) as [l|] eqn:E.
  - exists l. split; [done|]. by eapply simulates_set.
  - exists (arp_list (pctx w)). split; [|done]. by destruct w as [[[]]].
Qed.

Lemma arp_find_lookup now p m t ip :
  neighbours now p m → now ≤ t → ip_ok ip → ip ≠ NONE_IP →
  item_mac <$> arp_find (arp_list p) t ip = table_lookup m t ip.
Proof. intros [_ Hl] ???. by apply Hl. Qed.

Lemma arp_has_ip_spec ip w m now :
  neighbours now (pctx w) m → now ≤ env_time (calls w) → ip_ok ip → ip ≠ NONE_IP →
  arp_has_ip ip w =
    Ok (match table_lookup m (env_time (calls w)) ip with Some _ => true | None => false end, tick w).
Proof.
  intros Hn Ht Hip Hne. rewrite <- (arp_find_lookup now (pctx w)) by done.
  unfold arp_has_ip, gets, time, mbind, M_bind.
  by destruct (arp_find _ _ _).
Qed.

Lemma arp_get_mac_hit ip w m now mac :
  neighbours now (pctx w) m → now ≤ env_time (calls w) → ip_ok ip → ip ≠ NONE_IP →
  table_lookup m (env_time (calls w)) ip = Some mac →
  arp_get_mac_by_ip ip w = Ok (Some mac, tick w) ∧ mac_ok mac.
Proof.
  intros Hn Ht Hip Hne El. rewrite <- (arp_find_lookup now (pctx w)) in El by done.
  apply fmap_Some in El as (item & Hit & ->).
  unfold arp_get_mac_by_ip, gets, time, mbind, M_bind. rewrite Hit. split; [done|].
  destruct Hn as [(_ & Hok & _) _]. revert Hit.
  induction Hok as [|x l Hx _ IH]; cbn [arp_find]; [done|].
  case_if; [intros [= <-]; apply Hx|done].
Qed.

Lemma arp_get_mac_miss ip w m now :
  pctx_ok (pctx w) → neighbours now (pctx w) m → now ≤ env_time (calls w) →
  ip_ok ip → ip ≠ NONE_IP → table_lookup m (env_time (calls w)) ip = None →
  ∃ w', arp_get_mac_by_ip ip w = Ok (None, w') ∧ sent (request_frame (pctx w) ip) (tick w) w'.
Proof.
  intros Hw Hn Ht Hip Hne El. rewrite <- (arp_find_lookup now (pctx w)) in El by done.
  apply fmap_None in El. unfold arp_get_mac_by_ip, gets, time, mbind, M_bind. rewrite El.
  destruct (send_arp_request_ok ip (tick w)) as (w' & -> & Hs); [done..|]. by exists w'.
Qed.

(** (C5) Any history of [arp_set] calls with a clock that does not go back
    leaves the 100-entry array, duplicates and stale entries included, with
    the answers of a finite map: an address (other than 0.0.0.0) is found,
    at any later time, exactly when the last successful store for it is
    less than [ttl] seconds old, with the MAC address of that store. *)
Theorem arp_cache_refines_table ttl now h t ip :
  0 ≤ now + ttl → Forall store_ok h → timed now h → last_time now h ≤ t →
  ip_ok ip → ip ≠ NONE_IP →
  list_lookup_mac (cache_run ttl arp_list_init h) t ip =
  table_lookup (table_run ttl arp_list_init ∅ h) t ip.
Proof.
  intros H0 Hh Hn Ht. pose proof (arp_list_init_simulates ttl now H0) as Hi.
  destruct (simulates_run ttl now _ _ h Hh Hn Hi) as [_ Hl]. by apply Hl.
Qed.

(** (C32) The three cache operations implement the table: [arp_has_ip] and
    [arp_get_mac_by_ip] answer from it, a miss broadcasts exactly one ARP
    request for the address and returns false, a hit sends nothing;
    [arp_set] sends nothing and either stores the pair for [arp_ttl]
    seconds or, when it returns false, changes no answer. *)
Theorem arp_operations_refine w m now ip mac :
  pctx_ok (pctx w) → neighbours now (pctx w) m → now ≤ env_time (calls w) →
  ip_ok ip → ip ≠ NONE_IP → mac_ok mac →
  let t := env_time (calls w) in
  arp_has_ip ip w = Ok (bool_decide (is_Some (table_lookup m t ip)), tick w) ∧
  (∃ w', arp_get_mac_by_ip ip w = Ok (table_lookup m t ip, w') ∧
         neighbours t (pctx w') m ∧
         trace w' = trace w ++
           match table_lookup m t ip with
           | Some _ => []
           | None => [EvPcapSend (request_frame (pctx w) ip)]
           end) ∧
  (∃ b w', arp_set mac ip w = Ok (b, w') ∧ trace w' = trace w ∧
     neighbours t (pctx w') (if b : bool then table_set m t (arp_ttl (pctx w)) ip mac else m)).
Proof.
  intros Hw Hn Ht Hip Hne Hm t. split_and!.
  - rewrite (arp_has_ip_spec _ _ m now) by done. fold t. by destruct (table_lookup m t ip).
  - pose proof (simulates_later _ _ _ _ _ Hn Ht) as Hn'. fold t in Hn'.
    destruct (table_lookup m t ip) as [a|] eqn:El.
    + destruct (arp_get_mac_hit ip w m now a) as [-> _]; [done..|].
      exists (tick w). rewrite app_nil_r. done.
    + destruct (arp_get_mac_miss ip w m now) as (w' & -> & Hs); [done..|].
      exists w'. split_and!; [done| |by rewrite (sent_trace _ _ _ Hs)].
      destruct Hs as (buf & _ & _ & ->). exact Hn'.
  - destruct (arp_set_spec mac ip w m now) as (l & -> & Hs); [done..|].
    eexists _, _. split_and!; [done|done|]. exact Hs.
Qed.

(** The answer to an ARP request.  The sender is learnt; then a reply
    claiming the target address for our MAC is sent to the sender, and only
    then, if the target is in our subnet, is not the sender itself, the
    sender has an address, and no live neighbour is known for the target. *)
Theorem process_arp_request w m now ether smac sip tmac tip pad :
  pctx_ok (pctx w) → neighbours now (pctx w) m →
  now ≤ env_time (calls w) → env_time (calls w) ≤ env_time (S (calls w)) →
  mac_ok smac → ip_ok sip → mac_ok tmac → ip_ok tip → tip ≠ NONE_IP →
  eth_payload ether = arp_packet ARP_OPCODE_REQUEST smac sip tmac tip ++ pad →
  let p := pctx w in
  ∃ (b : bool) r w', process_arp ether w = Ok (r, w') ∧
    neighbours (env_time (calls w)) (pctx w')
      (if b then table_set m (env_time (calls w)) (arp_ttl p) sip smac else m) ∧
    if IS_SUBNET tip (subnet_net p) (subnet_mask p) && bool_decide (tip ≠ sip)
       && bool_decide (sip ≠ NONE_IP)
       && bool_decide (table_lookup m (env_time (S (calls w))) tip = None)
    then r = env_pcap (S (S (calls w))) ∧
         trace w' = trace w ++ [EvPcapSend (ether_header smac (mac p) ETHER_TYPE_ARP ++
                                   arp_packet ARP_OPCODE_REPLY (mac p) tip smac sip)]
    else r = 0 ∧ trace w' = trace w.
Proof.
  intros Hw Hn Ht1 Ht2 Hsm Hsi Htm Hti Hne Hpay p.
  unfold process_arp. erewrite lift_bind by (eapply parse_arp_packet; done || (unfold ARP_OPCODE_REQUEST; lia)).
  cbn [hardware_type protocol_type hardware_size protocol_size Types.sender_mac Types.sender_ip opcode].
  rewrite !Z.eqb_refl. cbn [negb orb].
  destruct (arp_set_spec smac sip w m now) as (l & E & Hs); [done..|].
  set (b := arp_room _ _ _) in *.
  erewrite bind_of_ok by exact E. clear E. set (w1 := tick _). exists b.
  set (m' := if b then _ else m) in *.
  assert (tip ≠ sip → table_lookup m' (env_time (S (calls w))) tip =
                      table_lookup m (env_time (S (calls w))) tip) as Hl'.
  { intros. unfold m'. destruct b; [|done]. rewrite table_lookup_set. by case_decide. }
  assert (neighbours (env_time (calls w)) (pctx w1) m') as Hn1 by exact Hs.
  unfold arp_request, gets. unfold mbind at 1, M_bind at 1.
  cbn [Types.target_ip Types.sender_ip Types.sender_mac].
  change (subnet_net (pctx w1)) with (subnet_net p). change (subnet_mask (pctx w1)) with (subnet_mask p).
  change (mac (pctx w1)) with (mac p).
  destruct (IS_SUBNET tip (subnet_net p) (subnet_mask p)); cbn [andb]; [|by eexists _, _].
  assert (∀ a c, ip_ok a → ip_ok c → CMP_IPV4 a c = negb (bool_decide (a ≠ c))) as Hcmp.
  { intros a c [? _] [? _]. apply eq_true_iff_eq.
    rewrite CMP_IPV4_spec, negb_true_iff, bool_decide_eq_false by done.
    split; [by intros -> ?|]. intros ?. by apply dec_stable. }
  rewrite !Hcmp by (done || split; eauto 10 with bytes).
  destruct (bool_decide_reflect (tip ≠ sip)) as [Hts|]; cbn [andb negb]; [|by eexists _, _].
  destruct (bool_decide_reflect (sip ≠ NONE_IP)); cbn [andb negb]; [|by eexists _, _].
  erewrite bind_of_ok by (eapply (arp_has_ip_spec tip w1 m' (env_time (calls w))); done).
  change (calls w1) with (S (calls w)). rewrite Hl' by done.
  destruct (table_lookup m (env_time (S (calls w))) tip) eqn:El; cbn [bool_decide];
    [by eexists _, _|].
  destruct (send_arp_ex_ok smac ARP_OPCODE_REPLY (mac p) tip smac sip (tick w1)) as (w' & E & Hsent);
    [destruct Hw; by constructor|try done..|unfold ARP_OPCODE_REPLY; lia|]; [apply Hw|].
  exists (env_pcap (S (S (calls w)))), w'. split_and!; [exact E| |].
  - destruct Hsent as (buf & _ & _ & ->). exact Hs.
  - split; [done|]. rewrite (sent_trace _ _ _ Hsent). done.
Qed.

(** ARP packets that are not requests never cause a frame to be sent: a
    reply teaches the sender's address and returns 0, another opcode does
    the same and returns -1, and a packet for other hardware or another
    protocol returns -1 and leaves the state as it was. *)
Theorem process_arp_not_request w m now ether a :
  neighbours now (pctx w) m → now ≤ env_time (calls w) →
  parse_arp ether = Ok a → ip_ok (sender_ip a) → mac_ok (sender_mac a) →
  let known := (hardware_type a =? ARP_HARDTYPE_ETHER) && (protocol_type a =? ETHER_TYPE_IPV4)
               && (hardware_size a =? 6) && (protocol_size a =? 4) in
  if negb known then process_arp ether w = Ok (-1, w)
  else opcode a ≠ ARP_OPCODE_REQUEST →
    ∃ (b : bool) w',
      process_arp ether w = Ok (if opcode a =? ARP_OPCODE_REPLY then 0 else -1, w') ∧
      trace w' = trace w ∧
      neighbours (env_time (calls w)) (pctx w')
        (if b then table_set m (env_time (calls w)) (arp_ttl (pctx w)) (sender_ip a) (sender_mac a)
         else m).
Proof.
  intros Hn Ht Ha Hsi Hsm. unfold process_arp. erewrite lift_bind by exact Ha.
  rewrite <- !negb_andb. destruct (_ && _) eqn:Ek; cbn [negb]; [|done]. intros Hop.
  destruct (arp_set_spec (sender_mac a) (sender_ip a) w m now) as (l & E & Hs); [done..|].
  set (b := arp_room _ _ _) in *.
  erewrite bind_of_ok by exact E. exists b.
  rewrite (proj2 (Z.eqb_neq _ _) Hop). case_if; by eexists.
Qed.
End ArpFacts.

Lemma sample_neighbours : neighbours 1000 Sample.pc ∅.
Proof. apply arp_list_init_simulates. simpl. lia. Qed.

Lemma arp_cache_refines_table_witness :
  list_lookup_mac
    (cache_run 30 arp_list_init [mk_store 100 Sample.peer_ip Sample.our_mac;
                                 mk_store 110 Sample.other_ip Sample.our_mac;
                                 mk_store 120 Sample.peer_ip Sample.peer_mac]) 140 Sample.peer_ip
  = Some Sample.peer_mac.
Proof.
  rewrite (arp_cache_refines_table 30 0); [reflexivity| | | | | |].
  - lia.
  - repeat constructor; simpl; try lia; eauto with sample.
  - simpl. lia.
  - simpl. lia.
  - eauto with sample.
  - discriminate.
Defined.

Lemma arp_operations_refine_witness :
  ∃ w', @arp_get_mac_by_ip Sample.env Sample.peer_ip Sample.start = Ok (None, w') ∧
    trace w' = [EvPcapSend (request_frame Sample.pc Sample.peer_ip)].
Proof.
  destruct (@arp_operations_refine Sample.env Sample.start ∅ 1000 Sample.peer_ip Sample.peer_mac)
    as (_ & (w' & E & _ & T) & _).
  - apply Sample.pc_ok.
  - apply sample_neighbours.
  - simpl. lia.
  - apply Sample.peer_ip_ok.
  - discriminate.
  - apply Sample.peer_mac_ok.
  - exists w'. split; [exact E|exact T].
Defined.

(** A request for 10.13.0.9 from 10.13.0.7. *)
Definition sample_request : ether_frame :=
  mk_ether [] 0 BROADCASE_MAC Sample.peer_mac ETHER_TYPE_ARP
    (arp_packet ARP_OPCODE_REQUEST Sample.peer_mac Sample.peer_ip NONE_MAC Sample.other_ip ++ [0]).

Lemma process_arp_request_witness :
  ∃ w', @process_arp Sample.env sample_request Sample.start = Ok (0, w') ∧
    trace w' = [EvPcapSend (ether_header Sample.peer_mac Sample.our_mac ETHER_TYPE_ARP ++
      arp_packet ARP_OPCODE_REPLY Sample.our_mac Sample.other_ip Sample.peer_mac Sample.peer_ip)].
Proof.
  destruct (@process_arp_request Sample.env Sample.start ∅ 1000 sample_request Sample.peer_mac
    Sample.peer_ip NONE_MAC Sample.other_ip [0]) as (b & r & w' & E & _ & Hr & Ht).
  - apply Sample.pc_ok.
  - apply sample_neighbours.
  - simpl. lia.
  - simpl. lia.
  - apply Sample.peer_mac_ok.
  - apply Sample.peer_ip_ok.
  - split; [done|Sample.bytes_solve].
  - apply Sample.other_ip_ok.
  - discriminate.
  - reflexivity.
  - exists w'. rewrite E, Hr. split; [reflexivity|exact Ht].
Defined.

Lemma process_arp_not_request_witness :
  ∃ w', @process_arp Sample.env
      (mk_ether [] 0 BROADCASE_MAC Sample.peer_mac ETHER_TYPE_ARP
        (arp_packet ARP_OPCODE_REPLY Sample.peer_mac Sample.peer_ip NONE_MAC Sample.other_ip ++ []))
      Sample.start = Ok (0, w') ∧ trace w' = [].
Proof.
  set (ether := mk_ether _ _ _ _ _ _).
  destruct (@process_arp_not_request Sample.env Sample.start ∅ 1000 ether
    (mk_arp ARP_HARDTYPE_ETHER ETHER_TYPE_IPV4 6 4 ARP_OPCODE_REPLY Sample.peer_mac Sample.peer_ip
       NONE_MAC Sample.other_ip)) as (b & w' & E & T & _).
  - apply sample_neighbours.
  - simpl. lia.
  - vm_compute. reflexivity.
  - apply Sample.peer_ip_ok.
  - apply Sample.peer_mac_ok.
  - discriminate.
  - exists w'. split; [exact E|exact T].
Defined.
