(* ===== verification/LanClient.v ===== *)
(** The client of the relay server: [client-switch-lan-play/lan-client.c].

    Datagrams to the server carry a type byte and a payload; an IPv4 packet
    that is larger than the configured path MTU is sent in fragments, which
    the receiving client reassembles in a table of 100 slots.  The relay is
    not part of the program: sending appends a datagram to the trace, and
    [lan_client_recv] is what the event loop runs when one arrives. *)
From S2P Require Import Prelude.
From S2P Require Import NetBytes.
From S2P Require Import Sha1.
From S2P Require Import Types.
From S2P Require Import Checksum.
From S2P Require Import Packet.
From S2P Require Import Arp.

(** * The program *)

Record lan_client_fragment_header := mk_header {
  h_src : list Z; h_dst : list Z; h_id : Z; h_part : Z; h_total_part : Z; h_len : Z; h_pmtu : Z }.

Definition LC_FRAG_SRC : Z := 0.
Definition LC_FRAG_DST : Z := 4.
Definition LC_FRAG_ID : Z := 8.
Definition LC_FRAG_PART : Z := 10.
Definition LC_FRAG_TOTAL_PART : Z := 11.
Definition LC_FRAG_LEN : Z := 12.
Definition LC_FRAG_PMTU : Z := 14.
Definition LC_FRAG_HEADER_LEN : Z := 16.
#[export] Hint Unfold LC_FRAG_SRC LC_FRAG_DST LC_FRAG_ID LC_FRAG_PART LC_FRAG_TOTAL_PART
  LC_FRAG_LEN LC_FRAG_PMTU LC_FRAG_HEADER_LEN : offs.

(** [enum lan_client_type]. *)
Definition LAN_CLIENT_TYPE_KEEPALIVE : Z := 0x00.
Definition LAN_CLIENT_TYPE_IPV4 : Z := 0x01.
Definition LAN_CLIENT_TYPE_PING : Z := 0x02.
Definition LAN_CLIENT_TYPE_IPV4_FRAG : Z := 0x03.
Definition LAN_CLIENT_TYPE_AUTH_ME : Z := 0x04.
Definition LAN_CLIENT_TYPE_INFO : Z := 0x10.

Definition BROADCAST_MAC : list Z := [0xff; 0xff; 0xff; 0xff; 0xff; 0xff].

(** [x << n] for an [int]. *)
Definition shl32 (x n : Z) : result Z :=
  if (0 <=? n) && (n <? 32) then Ok (s32 (Z.shiftl x n)) else Fail ShiftRange.

(** A slot is [memset] to zero. *)
Definition empty_frag : lan_client_fragment :=
  mk_frag 0 [0; 0; 0; 0] 0 0 0 0 (replicate (Z.to_nat ETHER_MTU) 0).

(** ** Reassembly table *)

Fixpoint find_index {A} (f : A → bool) (l : list A) : option nat :=
  match l with
  | [] => None
  | x :: l => if f x then Some O else S <$> find_index f l
  end.

(** First loop of [lan_client_process_frag]: the slot of this packet. *)
Definition frag_matches (header : lan_client_fragment_header) (f : lan_client_fragment) : bool :=
  negb (fr_used f =? 0) && (fr_id f =? h_id header) && CMP_IPV4 (fr_src f) (h_src header).
(** Second loop: a free slot. *)
Definition frag_free (f : lan_client_fragment) : bool := fr_used f =? 0.

(** Third loop: the slot whose [local_id] is furthest from the current one. *)
Fixpoint oldest_frag (local_id : Z) (l : list lan_client_fragment) (i : nat)
    (max_dif : Z) (to_delete : option nat) : Z * option nat :=
  match l with
  | [] => (max_dif, to_delete)
  | f :: l =>
      if negb (fr_used f =? 0) then
        let dif := LABS (s32 (fr_local_id f - local_id)) in
        if dif >? max_dif then oldest_frag local_id l (S i) dif (Some i)
        else oldest_frag local_id l (S i) max_dif to_delete
      else oldest_frag local_id l (S i) max_dif to_delete
  end.

(** The assignments that take a slot for a new packet. *)
Definition claim_frag (local_id : Z) (header : lan_client_fragment_header)
    (f : lan_client_fragment) : lan_client_fragment :=
  mk_frag (u16 local_id) (h_src header) (h_id header) 0 1 (fr_total_len f) (fr_buffer f).

(** The slot for [header], with the table and [local_id] after taking it. *)
Definition select_frag (lp : lan_play) (header : lan_client_fragment_header)
    : option nat * lan_play :=
  let frags := frags lp in
  let take_slot i :=
    (Some i, set_local_id (s32 (local_id lp + 1))
               (set_frags (alter (claim_frag (local_id lp) header) i frags) lp)) in
  match find_index (frag_matches header) frags with
  | Some i => (Some i, lp)
  | None =>
      match find_index frag_free frags with
      | Some i => take_slot i
      | None =>
          match oldest_frag (local_id lp) frags 0 0 None with
          | (max_dif, Some i) => if max_dif >? LC_FRAG_COUNT then take_slot i else (None, lp)
          | (_, None) => (None, lp)
          end
      end
  end.

(** [frag->part |= 1 << header.part; memcpy(...); if (header.part == ...) ...] *)
Definition add_part (header : lan_client_fragment_header) (packet : list Z)
    (f : lan_client_fragment) : result lan_client_fragment :=
  bit ← shl32 1 (h_part header);
  data ← mem_read packet LC_FRAG_HEADER_LEN (h_len header);
  buf ← mem_write (fr_buffer f) (h_pmtu header * h_part header) data;
  let total :=
    if h_part header =? h_total_part header - 1
    then u16 ((h_total_part header - 1) * h_pmtu header + h_len header)
    else fr_total_len f in
  Ok (mk_frag (fr_local_id f) (fr_src f) (fr_id f) (u8 (Z.lor (fr_part f) bit)) (fr_used f)
        total buf).

Definition parse_frag_header (packet : list Z) : result lan_client_fragment_header :=
  src ← mem_read packet LC_FRAG_SRC 4;
  dst ← mem_read packet LC_FRAG_DST 4;
  id ← READ_NET16 packet LC_FRAG_ID;
  part ← READ_NET8 packet LC_FRAG_PART;
  total_part ← READ_NET8 packet LC_FRAG_TOTAL_PART;
  len ← READ_NET16 packet LC_FRAG_LEN;
  pmtu ← READ_NET16 packet LC_FRAG_PMTU;
  Ok (mk_header src dst id part total_part len pmtu).

Definition set_used (u : Z) (f : lan_client_fragment) : lan_client_fragment :=
  mk_frag (fr_local_id f) (fr_src f) (fr_id f) (fr_part f) u (fr_total_len f) (fr_buffer f).

(** Text up to the terminator, as [printf("%.*s")] shows it. *)
Fixpoint c_string (bs : list Z) : list Z :=
  match bs with [] => [] | b :: t => if b =? 0 then [] else b :: c_string t end.

Section LanClient.
Context `{Env}.

(** ** Delivering packets to the LAN *)

Definition lan_client_arp_for_each_cb (packet : list Z) (len : Z) (item : arp_item) : IO Z :=
  _ ← send_ether (item_mac item) ETHER_TYPE_IPV4 [mk_payload packet len];
  mret 0.

Definition lan_client_on_broadcast (packet : list Z) (len : Z) : IO Z :=
  w ← get;
  if next_real_broadcast (lp w) then
    modify (on_lp (set_next_real_broadcast false));;
    send_ether BROADCAST_MAC ETHER_TYPE_IPV4 [mk_payload packet len]
  else
    arp_for_each (lan_client_arp_for_each_cb packet len);;
    mret 0.

Definition lan_client_process (packet : list Z) (len : Z) : IO Z :=
  if len =? 0 then mret 0
  else
    self ← gets pctx;
    dst ← lift (mem_read packet IPV4_OFF_DST 4);
    if IS_BROADCAST dst (subnet_net self) (subnet_mask self) then
      lan_client_on_broadcast packet len
    else
      dst_mac ← arp_get_mac_by_ip dst;
      match dst_mac with
      | None => mret 0
      | Some dst_mac => send_ether dst_mac ETHER_TYPE_IPV4 [mk_payload packet len]
      end.

Definition lan_client_process_frag (packet : list Z) (len : Z) : IO Z :=
  header ← lift (parse_frag_header packet);
  w ← get;
  let '(slot, lp') := select_frag (lp w) header in
  modify (set_lp lp');;
  match slot with
  | None => mret 0
  | Some i =>
      f ← lift (arr_get (frags lp') (Z.of_nat i));
      f ← lift (add_part header packet f);
      modify (on_lp (λ l, set_frags (<[i := f]> (frags l)) l));;
      mask ← lift (shl32 (Z.lnot 0) (h_total_part header));
      if Z.lnot mask =? fr_part f then
        modify (on_lp (λ l, set_frags (<[i := set_used 0 f]> (frags l)) l));;
        lan_client_process (fr_buffer f) (fr_total_len f)
      else mret 0
  end.

(** ** Sending to the relay *)

(** The copy loop of [lan_client_send_raw]. *)
Fixpoint gather (bufs : list payload) : result (list Z) :=
  match bufs with
  | [] => Ok []
  | b :: bufs =>
      bs ← mem_read (ptr b) 0 (plen b);
      rest ← gather bufs;
      Ok (bs ++ rest)
  end.

Definition bufs_len (bufs : list payload) : Z := foldr (λ b n, plen b + n) 0 bufs.

Definition lan_client_send_raw (bufs : list payload) : IO Z :=
  let total_len := bufs_len bufs in
  if total_len =? 0 then mret 0
  else
    packet ← lift (gather bufs);
    ret ← uv_udp_send packet;
    modify (on_lp (lp_count_upload total_len));;
    mret ret.

(** The loop of [lan_client_send] over the fragments. *)
Fixpoint send_frags (fuel : nat) (header packet : list Z) (len pmtu id i pos : Z) : IO Z :=
  if pos <? len then
    match fuel with
    | O => fail OutOfFuel
    | S fuel =>
        let part_len := LMIN pmtu (len - pos) in
        header ← lift (WRITE_NET16 header LC_FRAG_ID id);
        header ← lift (WRITE_NET8 header LC_FRAG_PART i);
        header ← lift (WRITE_NET16 header LC_FRAG_LEN part_len);
        ret ← lan_client_send_raw
          [mk_payload [LAN_CLIENT_TYPE_IPV4_FRAG] 1; mk_payload header LC_FRAG_HEADER_LEN;
           mk_payload (drop (Z.to_nat pos) packet) part_len];
        if ret =? 0
        then send_frags fuel header packet len pmtu id (i + 1) (pos + part_len)
        else mret ret
    end
  else mret 0.

Definition lan_client_send (type : Z) (packet : list Z) (len : Z) : IO Z :=
  w ← get;
  let whole := lan_client_send_raw [mk_payload [type] 1; mk_payload packet len] in
  let pmtu := pmtu (lp w) in
  if (type =? LAN_CLIENT_TYPE_IPV4) && (pmtu >? 0) then
    let total_part := len / pmtu in
    let total_part := if pmtu * total_part <? len then total_part + 1 else total_part in
    if total_part >? 1 then
      let id := frag_id (lp w) in
      modify (on_lp (set_frag_id (s32 (id + 1))));;
      src ← lift (mem_read packet IPV4_OFF_SRC 4);
      dst ← lift (mem_read packet IPV4_OFF_DST 4);
      let header := replicate (Z.to_nat LC_FRAG_HEADER_LEN) 0 in
      header ← lift (CPY_IPV4 header LC_FRAG_SRC src);
      header ← lift (CPY_IPV4 header LC_FRAG_DST dst);
      header ← lift (WRITE_NET8 header LC_FRAG_TOTAL_PART total_part);
      header ← lift (WRITE_NET16 header LC_FRAG_PMTU pmtu);
      send_frags (Z.to_nat total_part) header packet len pmtu id 0 0
    else whole
  else whole.

Definition lan_client_send_keepalive : IO Z := lan_client_send LAN_CLIENT_TYPE_KEEPALIVE [] 0.
Definition lan_client_send_ipv4 (dst_ip packet : list Z) (len : Z) : IO Z :=
  lan_client_send LAN_CLIENT_TYPE_IPV4 packet len.
Definition lan_client_send_auth_me (packet : list Z) (len : Z) : IO Z :=
  lan_client_send LAN_CLIENT_TYPE_AUTH_ME packet len.

(** ** Timers *)

Definition lan_client_real_broadcast_timer : IO () :=
  modify (on_lp (set_next_real_broadcast true)).
Definition lan_client_keepalive_timer : IO () := _ ← lan_client_send_keepalive; mret ().

(** ** Login *)

(** The hash context on the stack; [SHA1Init] does not read it. *)
Definition stack_ctx : Sha1.SHA1_CTX := Sha1.mk_ctx [] [] (replicate 64 0).

Definition auth_digest (key challenge : list Z) (challenge_len : Z) : result (list Z) :=
  key ← mem_read key 0 20;
  ctx ← Sha1.SHA1Update (Sha1.SHA1Init stack_ctx) key 20;
  challenge ← mem_read challenge 0 challenge_len;
  ctx ← Sha1.SHA1Update ctx challenge challenge_len;
  '(digest, _) ← Sha1.SHA1Final ctx;
  Ok digest.

Definition lan_client_process_auth_me (packet : list Z) (len : Z) : IO () :=
  w ← get;
  match username (lp w) with
  | Some username =>
      auth_type ← lift (arr_get packet 0);
      if auth_type =? 0 then
        let challenge := drop 1 packet in
        let challenge_len := u16 (len - 1) in
        let username_len := u16 (zlen username) in
        let response_len := u16 (20 + username_len) in
        let response := replicate (Z.to_nat response_len) 0 in
        digest ← lift (auth_digest (key (lp w)) challenge challenge_len);
        response ← lift (mem_write response 0 digest);
        name ← lift (mem_read username 0 username_len);
        response ← lift (mem_write response 20 name);
        _ ← lan_client_send_auth_me response response_len;
        mret ()
      else mret ()
  | None => modify (log_event EvAskLogin)
  end.

(** ** Receiving from the relay *)

(** [lan_client_alloc_cb]: where libuv puts the datagram, and the room. *)
Definition lan_client_alloc_cb : IO (list Z * Z) :=
  w ← get; mret (client_buf (lp w), CLIENT_RECV_BUF_LEN).

Definition lan_client_on_recv (nread : Z) : IO () :=
  if nread <=? 0 then mret ()
  else
    w ← get;
    let recv_len := u16 nread in
    let buffer := client_buf (lp w) in
    b0 ← lift (arr_get buffer 0);
    let type := Z.land b0 0x7f in
    modify (on_lp (lp_count_download recv_len));;
    let packet := drop 1 buffer in
    let len := u16 (recv_len - 1) in
    if type =? LAN_CLIENT_TYPE_KEEPALIVE then mret ()
    else if type =? LAN_CLIENT_TYPE_IPV4 then _ ← lan_client_process packet len; mret ()
    else if type =? LAN_CLIENT_TYPE_IPV4_FRAG then
      _ ← lan_client_process_frag packet len; mret ()
    else if type =? LAN_CLIENT_TYPE_AUTH_ME then lan_client_process_auth_me packet len
    else if type =? LAN_CLIENT_TYPE_INFO then
      text ← lift (mem_read packet 0 (recv_len - 1));
      modify (log_event (EvServerInfo (c_string text)))
    else mret ().

(** A datagram arrives: it is written to the buffer [lan_client_alloc_cb]
    gives (what does not fit is dropped), then the callback runs.  Bytes of
    an earlier, longer datagram stay behind it in the buffer. *)
Definition lan_client_recv (datagram : list Z) : IO () :=
  '(base, room) ← lan_client_alloc_cb;
  let data := take (Z.to_nat room) datagram in
  buf ← lift (mem_write base 0 data);
  modify (on_lp (set_client_buf buf));;
  lan_client_on_recv (zlen data).

(** ** Start and stop *)

Definition reset_client (l : lan_play) : lan_play :=
  set_frags (replicate (Z.to_nat LC_FRAG_COUNT) empty_frag)
    (set_next_real_broadcast true (set_local_id 0 (set_frag_id 0 l))).
Definition reset_counters (l : lan_play) : lan_play :=
  mk_lp (packet_ctx_of l) (client_buf l) (pmtu l) (broadcast l) (next_real_broadcast l)
    (frag_id l) (local_id l) (frags l) (username l) (key l) (server_addr l) 0 0 0 0.

Definition lan_client_init : IO Z :=
  w ← get;
  if negb (pmtu (lp w) =? 0) && (pmtu (lp w) <? MIN_FRAG_PAYLOAD_LEN) then fail (ExitCalled 1)
  else
    modify (on_lp reset_client);;
    _ ← uv UdpInit;
    (if broadcast (lp w) then _ ← uv (UdpBind AF_INET SERVER_PORT); mret ()
     else if server_family (lp w) =? AF_INET6 then _ ← uv (UdpBind AF_INET6 0); mret ()
     else mret ());;
    _ ← uv (TimerInit ClientKeepaliveTimer);
    _ ← uv (TimerInit RealBroadcastTimer);
    ret ← uv (TimerStart ClientKeepaliveTimer 0 (10 * 1000));
    if negb (ret =? 0) then mret ret
    else
      ret ← uv (TimerStart RealBroadcastTimer 0 1000);
      if negb (ret =? 0) then mret ret
      else
        ret ← uv UdpRecvStart;
        if negb (ret =? 0) then mret ret
        else modify (on_lp reset_counters);; mret ret.

Definition lan_client_close : IO Z :=
  ret ← uv UdpRecvStop;
  if negb (ret =? 0) then mret ret
  else
    ret ← uv (TimerStop ClientKeepaliveTimer);
    if negb (ret =? 0) then mret ret
    else
      ret ← uv (TimerStop RealBroadcastTimer);
      if negb (ret =? 0) then mret ret
      else
        _ ← uv (UvClose Client);
        _ ← uv (UvClose ClientKeepaliveTimer);
        mret 0.
End LanClient.

(** * Fragments on the wire *)

Section Fragments.
(** A packet [pk] cut into parts of [P] bytes. *)
Variables (P : Z) (pk : list Z).

Definition part_len (i : Z) : Z := Z.min P (zlen pk - P * i).
Definition chunk (i : Z) : list Z :=
  take (Z.to_nat (part_len i)) (drop (Z.to_nat (P * i)) pk).
Definition total_parts : Z := (zlen pk + P - 1) / P.

Definition pk_src : list Z := take 4 (drop 12 pk).
Definition pk_dst : list Z := take 4 (drop 16 pk).

Definition frag_header (id i : Z) : list Z :=
  pk_src ++ pk_dst ++ be16 id ++ [i] ++ [total_parts] ++ be16 (part_len i) ++ be16 P.
Definition frag_payload (id i : Z) : list Z := frag_header id i ++ chunk i.

(** The datagrams of the packet, in the order they are sent. *)
Definition frag_datagrams (id : Z) : list (list Z) :=
  (λ i, LAN_CLIENT_TYPE_IPV4_FRAG :: frag_payload id (Z.of_nat i)) <$>
    seq 0 (Z.to_nat total_parts).
End Fragments.

Section FragmentLemmas.
Context (P : Z) (pk : list Z).
Context (HP : 0 < P).

Lemma total_parts_spec : P * (total_parts P pk - 1) < zlen pk ≤ P * total_parts P pk.
Proof. unfold total_parts. clear -HP. Z.div_mod_to_equations. nia. Qed.

(** The count computed by [lan_client_send]. *)
Lemma total_parts_code :
  (if P * (zlen pk / P) <? zlen pk then zlen pk / P + 1 else zlen pk / P) = total_parts P pk.
Proof.
  pose proof total_parts_spec as Hs. pose proof (Z.div_mod (zlen pk) P) as Hd.
  pose proof (Z.mod_pos_bound (zlen pk) P). case_if; nia.
Qed.

Lemma part_len_pos i : 0 ≤ i < total_parts P pk → 0 < part_len P pk i ≤ P.
Proof. intros. pose proof total_parts_spec. unfold part_len. nia. Qed.

Lemma chunk_length i : 0 ≤ i < total_parts P pk → zlen (chunk P pk i) = part_len P pk i.
Proof.
  intros Hi. pose proof total_parts_spec. pose proof (part_len_pos i Hi).
  unfold chunk, part_len in *. len_lia.
Qed.

Context (Hpk : bytes_ok pk) (Hlen : 20 ≤ zlen pk).

Lemma total_parts_pos : 0 < total_parts P pk.
Proof. pose proof total_parts_spec. nia. Qed.

Lemma chunk_bytes_ok i : bytes_ok (chunk P pk i).
Proof. unfold chunk. eauto with bytes. Qed.

Lemma pk_src_ok : ip_ok (pk_src pk).
Proof. split; [unfold pk_src; len_lia|unfold pk_src; eauto with bytes]. Qed.
Lemma pk_dst_ok : ip_ok (pk_dst pk).
Proof. split; [unfold pk_dst; len_lia|unfold pk_dst; eauto with bytes]. Qed.

Lemma length_frag_header id i : length (frag_header P pk id i) = 16%nat.
Proof.
  destruct pk_src_ok, pk_dst_ok. unfold frag_header. rewrite !length_app. simpl. lia.
Qed.

Lemma frag_header_bytes_ok id i :
  total_parts P pk < 256 → 0 ≤ i < total_parts P pk → bytes_ok (frag_header P pk id i).
Proof.
  intros. pose proof total_parts_pos. destruct pk_src_ok, pk_dst_ok. unfold frag_header.
  repeat (apply bytes_ok_app; [eauto with bytes|]);
    (apply be16_bytes_ok || (repeat constructor; unfold byte_ok; lia) || idtac).
Qed.
End FragmentLemmas.

(** ** Sending *)

Section Sending.
Context `{Env}.

(** The world after datagrams were sent one after the other. *)
Fixpoint sent_udp (ds : list (list Z)) (w : world) : world :=
  match ds with
  | [] => w
  | d :: ds => sent_udp ds (on_lp (lp_count_upload (zlen d)) (tick (log_event (EvUdpSend d) w)))
  end.

Lemma sent_udp_trace ds w : trace (sent_udp ds w) = trace w ++ (EvUdpSend <$> ds).
Proof.
  revert w. induction ds as [|d ds IH]; intros w; simpl; [by rewrite app_nil_r|].
  rewrite IH. simpl. by rewrite <- app_assoc.
Qed.
Lemma sent_udp_calls ds w : calls (sent_udp ds w) = (calls w + length ds)%nat.
Proof. revert w. induction ds as [|d ds IH]; intros w; simpl; [lia|]. rewrite IH. simpl. lia. Qed.
Lemma sent_udp_frame ds w (A : Type) (f : lan_play → A) :
  (∀ n l, f (lp_count_upload n l) = f l) → f (lp (sent_udp ds w)) = f (lp w).
Proof. intros Hf. revert w. induction ds as [|d ds IH]; intros w; simpl; [done|]. rewrite IH. apply Hf. Qed.

Lemma gather_ok bufs : Forall payload_ok bufs → gather bufs = Ok (payload_bytes bufs).
Proof.
  induction 1 as [|b bufs (? & ? & ?) _ IH]; [done|]. cbn [gather].
  rewrite mem_read_ok by lia. cbn [mbind result_bind]. rewrite IH. done.
Qed.

Lemma bufs_len_ok bufs : Forall payload_ok bufs → bufs_len bufs = zlen (payload_bytes bufs).
Proof.
  induction 1 as [|b bufs Hb _ IH]; [done|]. rewrite payload_bytes_cons. simpl. rewrite IH.
  rewrite <- (payload_data_len b Hb). len_lia.
Qed.

Lemma lan_client_send_raw_ok bufs w :
  Forall payload_ok bufs → payload_bytes bufs ≠ [] →
  lan_client_send_raw bufs w =
    Ok (env_udp (calls w), sent_udp [payload_bytes bufs] w).
Proof.
  intros Hb Hne. unfold lan_client_send_raw. rewrite bufs_len_ok by done.
  destruct (Z.eqb_spec (zlen (payload_bytes bufs)) 0) as [E|_].
  { destruct (payload_bytes bufs); [done|unfold zlen in E; simpl in E; lia]. }
  erewrite lift_bind by (by apply gather_ok). done.
Qed.

Lemma write_frag_header P pk id i T a b c :
  length a = 2%nat → length b = 1%nat → length c = 2%nat →
  length (pk_src pk) = 4%nat → length (pk_dst pk) = 4%nat → 0 ≤ i < 256 →
  T = total_parts P pk →
  (h ← WRITE_NET16 (pk_src pk ++ pk_dst pk ++ a ++ b ++ [T] ++ c ++ be16 P) LC_FRAG_ID id;
   h ← WRITE_NET8 h LC_FRAG_PART i;
   WRITE_NET16 h LC_FRAG_LEN (part_len P pk i)) = Ok (frag_header P pk id i).
Proof.
  intros Ha Hb Hc Hs Hd Hi ->. unfold frag_header.
  erewrite ok_bind by (rewrite (app_assoc (pk_src pk)); apply WRITE_NET16_mid; [off_lia|done]).
  erewrite ok_bind by (rewrite (app_assoc _ (be16 id)); apply WRITE_NET8_mid; [off_lia|done]).
  rewrite (Z.mod_small i) by done.
  rewrite (app_assoc _ [i]), (app_assoc _ [total_parts P pk]).
  rewrite (WRITE_NET16_mid _ c) by (off_lia || done). by rewrite <- !app_assoc.
Qed.

Lemma frag_bufs_ok P pk rest id i :
  0 < P → bytes_ok (pk ++ rest) → 20 ≤ zlen pk < 65536 → total_parts P pk < 256 →
  0 ≤ i < total_parts P pk →
  let bufs := [mk_payload [LAN_CLIENT_TYPE_IPV4_FRAG] 1;
               mk_payload (frag_header P pk id i) LC_FRAG_HEADER_LEN;
               mk_payload (drop (Z.to_nat (P * i)) (pk ++ rest)) (part_len P pk i)] in
  Forall payload_ok bufs ∧
  payload_bytes bufs = LAN_CLIENT_TYPE_IPV4_FRAG :: frag_payload P pk id i.
Proof.
  intros HP Hb Hl HT Hi bufs. apply Forall_app in Hb as [Hpk Hr].
  pose proof (part_len_pos P pk HP i Hi).
  pose proof (total_parts_spec P pk ltac:(lia)).
  assert (P * i + part_len P pk i ≤ zlen pk) by (unfold part_len; nia).
  pose proof (length_frag_header P pk ltac:(done) ltac:(lia) id i) as Hh.
  assert (drop (Z.to_nat (P * i)) (pk ++ rest) = drop (Z.to_nat (P * i)) pk ++ rest) as Hd
    by (apply drop_app_le; len_lia).
  split.
  - unfold bufs. rewrite !Forall_cons_iff. unfold payload_ok. cbn [plen ptr].
    split_and!; try constructor; try lia.
    + done.
    + unfold byte_ok, LAN_CLIENT_TYPE_IPV4_FRAG; lia.
    + constructor.
    + off_lia.
    + unfold zlen. rewrite Hh. off_lia.
    + apply frag_header_bytes_ok; done || lia.
    + rewrite Hd. unfold part_len in *. len_lia.
    + apply bytes_ok_drop, bytes_ok_app; done.
  - unfold bufs. rewrite !payload_bytes_cons. change (payload_bytes []) with (@nil Z).
    rewrite app_nil_r. unfold frag_payload, payload_data. cbn [plen ptr].
    rewrite Hd, (take_ge (frag_header _ _ _ _)) by (rewrite Hh; done).
    rewrite take_app_le by (unfold part_len in *; len_lia). done.
Qed.

Lemma send_frags_ok P pk rest id n fuel i a b c w :
  0 < P → bytes_ok (pk ++ rest) → 20 ≤ zlen pk < 65536 → total_parts P pk < 256 →
  (∀ k, env_udp k = 0) →
  length a = 2%nat → length b = 1%nat → length c = 2%nat → (n ≤ fuel)%nat →
  Z.of_nat (i + n) = total_parts P pk →
  send_frags fuel (pk_src pk ++ pk_dst pk ++ a ++ b ++ [total_parts P pk] ++ c ++ be16 P)
    (pk ++ rest) (zlen pk) P id (Z.of_nat i) (Z.min (P * Z.of_nat i) (zlen pk)) w =
  Ok (0, sent_udp ((λ i, LAN_CLIENT_TYPE_IPV4_FRAG :: frag_payload P pk id (Z.of_nat i)) <$>
                     seq i n) w).
Proof.
  intros HP Hb Hl HT He. revert fuel i a b c w.
  pose proof (total_parts_spec P pk ltac:(lia)).
  induction n as [|n IH]; intros fuel i a b c w Ha Hbb Hc Hf Hi.
  { destruct fuel; cbn [send_frags]; destruct (Z.ltb_spec (Z.min (P * Z.of_nat i) (zlen pk)) (zlen pk));
      try done; exfalso; nia. }
  destruct fuel as [|fuel]; [lia|]. cbn [send_frags].
  assert (P * Z.of_nat i < zlen pk) by nia.
  destruct (Z.ltb_spec (Z.min (P * Z.of_nat i) (zlen pk)) (zlen pk)); [|lia].
  rewrite Z.min_l by lia.
  assert (LMIN P (zlen pk - P * Z.of_nat i) = part_len P pk (Z.of_nat i)) as ->
    by (unfold LMIN, part_len; case_if; lia).
  pose proof Hb as [Hpk _]%Forall_app.
  pose proof (pk_src_ok pk Hpk ltac:(lia)) as [Hs _]. pose proof (pk_dst_ok pk Hpk ltac:(lia)) as [Hd _].
  pose proof (write_frag_header P pk id (Z.of_nat i) _ a b c Ha Hbb Hc Hs Hd ltac:(lia) eq_refl) as Hw.
  unfold mbind, result_bind in Hw. unfold lift. unfold mbind at 1, M_bind at 1.
  destruct (WRITE_NET16 _ LC_FRAG_ID id) as [h1|]; [|done]. unfold mbind at 1, M_bind at 1.
  destruct (WRITE_NET8 h1 LC_FRAG_PART (Z.of_nat i)) as [h2|]; [|done]. unfold mbind at 1, M_bind at 1.
  rewrite Hw. destruct (frag_bufs_ok P pk rest id (Z.of_nat i)) as [Hbo Hby]; [done..|lia|].
  erewrite bind_of_ok by (apply lan_client_send_raw_ok; [done|by rewrite Hby]).
  rewrite He, Z.eqb_refl, Hby.
  replace (P * Z.of_nat i + part_len P pk (Z.of_nat i)) with (Z.min (P * Z.of_nat (S i)) (zlen pk))
    by (unfold part_len; lia).
  replace (Z.of_nat i + 1) with (Z.of_nat (S i)) by lia.
  unfold frag_header. rewrite IH by (done || lia). done.
Qed.

Lemma total_parts_lt_256 P pk : 500 ≤ P → zlen pk < 65536 → total_parts P pk < 256.
Proof. intros. pose proof (total_parts_spec P pk ltac:(lia)). nia. Qed.

Lemma total_parts_gt_1 P pk : 0 < P → (total_parts P pk >? 1) = (zlen pk >? P).
Proof. intros HP. pose proof (total_parts_spec P pk HP). apply eq_true_iff_eq. rewrite !Z.gtb_lt. nia. Qed.

Lemma init_frag_header src dst T P :
  length src = 4%nat → length dst = 4%nat → 0 ≤ T < 256 →
  (h ← CPY_IPV4 (replicate (Z.to_nat LC_FRAG_HEADER_LEN) 0) LC_FRAG_SRC src;
   h ← CPY_IPV4 h LC_FRAG_DST dst;
   h ← WRITE_NET8 h LC_FRAG_TOTAL_PART T;
   WRITE_NET16 h LC_FRAG_PMTU P) =
  Ok (src ++ dst ++ [0; 0] ++ [0] ++ [T] ++ [0; 0] ++ be16 P).
Proof.
  intros Hs Hd HT.
  erewrite ok_bind by (by apply (CPY_IPV4_fill [] 12)). rewrite app_nil_l.
  erewrite ok_bind by (apply (CPY_IPV4_fill src 8); [off_lia|done]).
  change (replicate 8 0) with ([0; 0; 0] ++ [0] ++ [0; 0; 0; 0]). rewrite app_assoc.
  erewrite ok_bind by (apply WRITE_NET8_mid; [off_lia|done]). rewrite Z.mod_small by done.
  change ([0; 0; 0; 0]) with ([0; 0] ++ [0; 0] ++ []).
  rewrite (app_assoc _ [T]), (app_assoc _ [0; 0]).
  rewrite WRITE_NET16_mid by (off_lia || done). rewrite app_nil_r, <- !app_assoc. done.
Qed.

Definition ipv4_datagrams (P id : Z) (pk : list Z) : list (list Z) :=
  if (P >? 0) && (zlen pk >? P) then frag_datagrams P pk id else [LAN_CLIENT_TYPE_IPV4 :: pk].

Lemma lan_client_send_ipv4_ok w pk rest dst_ip :
  bytes_ok (pk ++ rest) → 20 ≤ zlen pk < 65536 →
  pmtu (lp w) = 0 ∨ 500 ≤ pmtu (lp w) → (∀ k, env_udp k = 0) →
  let ds := ipv4_datagrams (pmtu (lp w)) (frag_id (lp w)) pk in
  ∃ id, lan_client_send_ipv4 dst_ip (pk ++ rest) (zlen pk) w =
    Ok (0, sent_udp ds (on_lp (set_frag_id id) w)).
Proof.
  intros Hb Hl Hp He ds. unfold lan_client_send_ipv4, lan_client_send.
  unfold get, mbind at 1, M_bind at 1. rewrite Z.eqb_refl. cbn [andb].
  assert (lan_client_send_raw [mk_payload [LAN_CLIENT_TYPE_IPV4] 1; mk_payload (pk ++ rest) (zlen pk)] w
          = Ok (0, sent_udp [LAN_CLIENT_TYPE_IPV4 :: pk] w)) as Hraw.
  { assert (payload_bytes [mk_payload [LAN_CLIENT_TYPE_IPV4] 1; mk_payload (pk ++ rest) (zlen pk)] =
      LAN_CLIENT_TYPE_IPV4 :: pk) as Hby.
    { rewrite !payload_bytes_cons. unfold payload_data, zlen. cbn [plen ptr].
      rewrite Nat2Z.id, take_app_length. change (payload_bytes []) with (@nil Z). by rewrite app_nil_r. }
    rewrite lan_client_send_raw_ok, He, Hby; [done| |by rewrite Hby].
    rewrite !Forall_cons_iff. unfold payload_ok. cbn [plen ptr].
    split_and!; try done; try len_lia. repeat constructor; unfold byte_ok, LAN_CLIENT_TYPE_IPV4; lia. }
  assert (w = on_lp (set_frag_id (frag_id (lp w))) w) as Hw by (by destruct w as [[]]).
  unfold ds, ipv4_datagrams. destruct (pmtu (lp w) >? 0) eqn:E; cbn [andb];
    [|exists (frag_id (lp w)); by rewrite <- Hw].
  rewrite total_parts_code, total_parts_gt_1 by lia.
  case_if; [|exists (frag_id (lp w)); by rewrite <- Hw].
  exists (s32 (frag_id (lp w) + 1)).
  pose proof Hb as [Hpk _]%Forall_app. set (P := pmtu (lp w)) in *.
  pose proof (pk_src_ok pk Hpk ltac:(lia)) as [Hs _]. pose proof (pk_dst_ok pk Hpk ltac:(lia)) as [Hd _].
  pose proof (total_parts_lt_256 P pk ltac:(lia) ltac:(lia)) as HT.
  pose proof (total_parts_spec P pk ltac:(lia)).
  erewrite bind_of_ok by reflexivity.
  erewrite lift_bind by (rewrite mem_read_app_l by off_lia; apply mem_read_ok; off_lia).
  erewrite lift_bind by (rewrite mem_read_app_l by off_lia; apply mem_read_ok; off_lia).
  change (take (Z.to_nat 4) (drop (Z.to_nat IPV4_OFF_SRC) pk)) with (pk_src pk).
  change (take (Z.to_nat 4) (drop (Z.to_nat IPV4_OFF_DST) pk)) with (pk_dst pk).
  pose proof (init_frag_header _ _ (total_parts P pk) P Hs Hd ltac:(nia)) as Hi.
  unfold mbind, result_bind in Hi. unfold lift, mbind, M_bind.
  destruct (CPY_IPV4 _ _ _) as [h1|]; [|done]. destruct (CPY_IPV4 h1 _ _) as [h2|]; [|done].
  destruct (WRITE_NET8 h2 _ _) as [h3|]; [|done]. rewrite Hi.
  pose proof (send_frags_ok P pk rest (frag_id (lp w)) (Z.to_nat (total_parts P pk))
    (Z.to_nat (total_parts P pk)) 0 [0; 0] [0] [0; 0]
    (on_lp (set_frag_id (s32 (frag_id (lp w) + 1))) w)) as Hf.
  change (Z.of_nat 0) with 0 in Hf. rewrite Z.mul_0_r, Z.min_l in Hf by lia.
  apply Hf; done || lia || (clear Hf; nia).
Qed.
End Sending.

(** ** Reassembly *)

Lemma find_index_Some {A} (p : A → bool) l j :
  find_index p l = Some j ↔
  (∃ x, l !! j = Some x ∧ p x = true) ∧ ∀ k y, (k < j)%nat → l !! k = Some y → p y = false.
Proof.
  revert j. induction l as [|a l IH]; intros j; simpl.
  { split; [done|]. by intros [(x & ? & _) _]. }
  destruct (p a) eqn:Ea.
  - split.
    + intros [= <-]. split; [by exists a|lia].
    + intros [_ Hb]. destruct j as [|j]; [done|]. specialize (Hb 0%nat a). simpl in Hb.
      rewrite Hb in Ea by (done || lia). done.
  - rewrite fmap_Some. split.
    + intros (j' & Hj & ->). apply IH in Hj as [Hx Hb]. split; [done|].
      intros [|k] y Hk Hy; [by simplify_eq/=|]. apply (Hb k); [lia|done].
    + intros [(x & Hx & Hp) Hb]. destruct j as [|j]; [simplify_eq/=; congruence|].
      exists j. split; [|done]. apply IH. split; [by exists x|].
      intros k y Hk Hy. apply (Hb (S k)); [lia|done].
Qed.

Lemma find_index_None {A} (p : A → bool) l :
  find_index p l = None → ∀ k y, l !! k = Some y → p y = false.
Proof.
  induction l as [|a l IH]; simpl; intros E k y Hk; [done|].
  destruct (p a) eqn:Ea; [done|]. apply fmap_None in E.
  destruct k as [|k]; [by simplify_eq/=|by eapply IH].
Qed.

Lemma find_index_update {A} (p : A → bool) l j x y :
  l !! j = Some x → p y = true →
  find_index p l = None ∨ find_index p l = Some j → find_index p (<[j := y]> l) = Some j.
Proof.
  intros Hx Hy Hf. pose proof (lookup_lt_Some _ _ _ Hx). apply find_index_Some. split.
  - exists y. by rewrite list_lookup_insert_eq.
  - intros k z Hk. rewrite list_lookup_insert_ne by lia. intros Hz.
    destruct Hf as [Hf|[_ Hf]%find_index_Some]; [by eapply find_index_None|by eapply Hf].
Qed.

(** A slot of the table. *)
Definition frag_ok (f : lan_client_fragment) : Prop :=
  zlen (fr_buffer f) = ETHER_MTU ∧ bytes_ok (fr_buffer f).

(** The invariant of the client state: the arrays have their sizes. *)
Record client_ok (l : lan_play) : Prop := mk_client_ok {
  cl_pctx : pctx_ok (packet_ctx_of l);
  cl_buf : zlen (client_buf l) = CLIENT_RECV_BUF_LEN;
  cl_buf_bytes : bytes_ok (client_buf l);
  cl_frags_len : zlen (frags l) = LC_FRAG_COUNT;
  cl_frags : Forall frag_ok (frags l) }.

Lemma be16_u16 v : be16 (u16 v) = be16 v.
Proof.
  unfold be16, u16. change (2 ^ 16) with (256 * 256).
  rewrite Z.rem_mul_r by lia.
  rewrite (Z.mul_comm 256), Z.div_add, Z.mod_add by lia.
  rewrite (Z.div_small (v mod 256)), Z.add_0_l, !Z.mod_mod by (lia || (apply Z.mod_pos_bound; lia)).
  done.
Qed.

Lemma full_mask T part :
  0 ≤ T < 32 → 0 ≤ part →
  (∀ k, T ≤ k → Z.testbit part k = false) →
  (m ← shl32 (Z.lnot 0) T; Ok (Z.lnot m)) = Ok (Z.ones T) ∧
  (Z.ones T = part ↔ ∀ k, 0 ≤ k < T → Z.testbit part k = true).
Proof.
  intros HT Hp Hh. split.
  - unfold shl32. rewrite (proj2 (andb_true_iff _ _)) by lia. cbn [mbind result_bind].
    rewrite Z.shiftl_mul_pow2 by lia. change (Z.lnot 0) with (-1).
    pose proof (Z.pow_lt_mono_r 2 T 32 ltac:(lia)). pose proof (Z.pow_pos_nonneg 2 T).
    assert (2 ^ T ≤ 2 ^ 31) by (apply Z.pow_le_mono_r; lia).
    rewrite s32_small by lia. f_equal. rewrite Z.ones_equiv. unfold Z.lnot. lia.
  - split.
    + intros <- k Hk. apply Z.ones_spec_low. lia.
    + intros Hl. apply Z.bits_inj'. intros k Hk. destruct (Z.lt_ge_cases k T).
      * rewrite Z.ones_spec_low, Hl by lia. done.
      * rewrite Z.ones_spec_high, Hh by lia. done.
Qed.

Section Reassembly.
Context `{Env}.
(** The packet, its part size and the sender's fragment counter. *)
Context (P : Z) (pk : list Z) (id : Z).
Context (HP : 0 < P < 65536) (Hpk : bytes_ok pk) (Hlen : 20 ≤ zlen pk ≤ ETHER_MTU)
  (HT : total_parts P pk ≤ 8).

Abbreviation T := (total_parts P pk).

Definition hdr (i : Z) : lan_client_fragment_header :=
  mk_header (pk_src pk) (pk_dst pk) (u16 id) i T (part_len P pk i) P.

Lemma parse_frag_payload i stale :
  0 ≤ i < T → parse_frag_header (frag_payload P pk id i ++ stale) = Ok (hdr i).
Proof.
  intros Hi. pose proof (pk_src_ok pk Hpk ltac:(lia)) as [Hs _].
  pose proof (pk_dst_ok pk Hpk ltac:(lia)) as [Hd _].
  pose proof (part_len_pos P pk ltac:(lia) i Hi).
  assert (zlen (pk_src pk) = 4 ∧ zlen (pk_dst pk) = 4) as [Hs' Hd'] by (unfold zlen; lia).
  unfold parse_frag_header, frag_payload, frag_header. rewrite <- (be16_u16 id), <- !app_assoc.
  erewrite ok_bind by (by apply (mem_read_mid [])).
  erewrite ok_bind by (by apply mem_read_mid).
  erewrite ok_bind by (rewrite (app_assoc (pk_src pk)); apply READ_NET16_mid; [off_lia|auto with range]).
  erewrite ok_bind by (rewrite (app_assoc (pk_src pk)), (app_assoc _ (be16 _)); apply READ_NET8_mid; off_lia).
  erewrite ok_bind by (rewrite (app_assoc (pk_src pk)), (app_assoc _ (be16 _)), (app_assoc _ [i]);
    apply READ_NET8_mid; off_lia).
  erewrite ok_bind by (rewrite (app_assoc (pk_src pk)), (app_assoc _ (be16 _)), (app_assoc _ [i]),
    (app_assoc _ [T]); apply READ_NET16_mid; [off_lia|lia]).
  erewrite ok_bind by (rewrite (app_assoc (pk_src pk)), (app_assoc _ (be16 _)), (app_assoc _ [i]),
    (app_assoc _ [T]), (app_assoc _ (be16 (part_len _ _ _))); apply READ_NET16_mid; [off_lia|lia]).
  done.
Qed.

(** The slot holds the parts [R] of the packet. *)
Record partial (R : list Z) (f : lan_client_fragment) : Prop := {
  pt_used : fr_used f = 1;
  pt_id : fr_id f = u16 id;
  pt_src : fr_src f = pk_src pk;
  pt_ok : frag_ok f;
  pt_part : 0 ≤ fr_part f;
  pt_bits k : 0 ≤ k → Z.testbit (fr_part f) k = bool_decide (k ∈ R);
  pt_data n : (n < length pk)%nat → Z.of_nat n / P ∈ R → fr_buffer f !! n = pk !! n;
  pt_total : T - 1 ∈ R → fr_total_len f = zlen pk }.

Lemma part_bits part R i :
  0 ≤ part → 0 ≤ i < 8 → (∀ k, 0 ≤ k → Z.testbit part k = bool_decide (k ∈ R)) →
  (∀ k, k ∈ R → 0 ≤ k < 8) →
  let part' := u8 (Z.lor part (s32 (Z.shiftl 1 i))) in
  0 ≤ part' ∧ ∀ k, 0 ≤ k → Z.testbit part' k = bool_decide (k ∈ i :: R).
Proof.
  intros Hp Hi Hb HR part'. split; [apply u8_range|]. intros k Hk. unfold part', u8.
  rewrite Z.shiftl_mul_pow2, Z.mul_1_l by lia.
  assert (2 ^ i ≤ 2 ^ 7) by (apply Z.pow_le_mono_r; lia). pose proof (Z.pow_pos_nonneg 2 i).
  rewrite s32_small by lia.
  rewrite Z.testbit_mod_pow2, Z.lor_spec, Z.pow2_bits_eqb, Hb by lia.
  apply eq_true_iff_eq. rewrite andb_true_iff, orb_true_iff, !bool_decide_eq_true, elem_of_cons.
  split; [intros [? [?|?]]; [by right|left; lia]|].
  intros [->|Hin]; [lia|]. pose proof (HR k Hin). split; [lia|by left].
Qed.

(** Placing part [i] at its offset. *)
Lemma chunk_write i buf buf' :
  0 ≤ i < T → mem_write buf (P * i) (chunk P pk i) = Ok buf' →
  ∀ n, (n < length pk)%nat →
    buf' !! n = if decide (Z.of_nat n / P = i) then pk !! n else buf !! n.
Proof.
  intros Hi Hw n Hn. pose proof (part_len_pos P pk ltac:(lia) i Hi) as Hpl.
  pose proof (chunk_length P pk ltac:(lia) i Hi) as Hc.
  pose proof (total_parts_spec P pk ltac:(lia)) as Hts.
  unfold mem_write in Hw. destruct (in_range _ _ _) eqn:E in Hw; [|done].
  apply in_range_spec in E as (? & _ & ?). apply Ok_inj in Hw as <-.
  pose proof (Z.div_mod (Z.of_nat n) P ltac:(lia)) as Hdm.
  pose proof (Z.mod_pos_bound (Z.of_nat n) P ltac:(lia)) as Hmb.
  assert (length (take (Z.to_nat (P * i)) buf) = Z.to_nat (P * i)) as Htl by len_lia.
  unfold zlen in *. case_decide as Hd.
  - rewrite Hd in Hdm. clear Hd Hi Hts. set (X := P * i) in *.
    rewrite lookup_app_r by lia. rewrite Htl.
    rewrite lookup_app_l by (unfold part_len, zlen in *; fold X in Hc; lia).
    unfold chunk. fold X. rewrite lookup_take_lt by (unfold part_len, zlen; fold X; lia).
    rewrite lookup_drop. f_equal. fold X. lia.
  - destruct (Z.lt_ge_cases (Z.of_nat n) (P * i)).
    + rewrite lookup_app_l by (rewrite Htl; lia). apply lookup_take_lt. lia.
    + assert (P * i + P ≤ Z.of_nat n) by (assert (i < Z.of_nat n / P) by nia; nia).
      rewrite lookup_app_r by (rewrite Htl; lia). rewrite Htl.
      rewrite lookup_app_r by (unfold part_len in *; lia).
      rewrite lookup_drop. f_equal. unfold part_len in *. lia.
Qed.

Lemma add_part_ok R f i stale :
  partial R f → 0 ≤ i < T → (∀ k, k ∈ R → 0 ≤ k < T) →
  ∃ f', add_part (hdr i) (frag_payload P pk id i ++ stale) f = Ok f' ∧ partial (i :: R) f'.
Proof.
  intros [Hu Hid Hs [Hbl Hbb] Hp Hbits Hdata Htot] Hi HR.
  pose proof (part_len_pos P pk ltac:(lia) i Hi) as Hpl.
  pose proof (chunk_length P pk ltac:(lia) i Hi) as Hc.
  pose proof (total_parts_spec P pk ltac:(lia)) as Hts.
  unfold add_part, shl32. cbn [h_part h_len h_pmtu h_total_part hdr].
  rewrite (proj2 (andb_true_iff _ _)) by lia. cbn [mbind result_bind].
  unfold frag_payload. rewrite <- app_assoc.
  rewrite mem_read_mid by
    (done || (unfold zlen; rewrite length_frag_header by (done || lia); done)).
  cbn [mbind result_bind].
  assert (P * i + part_len P pk i ≤ zlen pk) by (unfold part_len; nia).
  destruct (mem_write (fr_buffer f) (P * i) (chunk P pk i)) as [buf|] eqn:Ew.
  2: { rewrite mem_write_ok in Ew by (unfold ETHER_MTU in *; nia). done. }
  cbn [mbind result_bind]. eexists. split; [reflexivity|].
  destruct (part_bits (fr_part f) R i) as [Hp' Hbits']; [done|lia|done|..].
  { intros k Hk. specialize (HR k Hk). lia. }
  constructor; try done.
  - split; [|by eapply mem_write_bytes_ok; [..|exact Ew]; [|apply chunk_bytes_ok]].
    cbn [fr_buffer]. unfold zlen in *. by rewrite (mem_write_length _ _ _ _ Ew).
  - cbn [fr_buffer]. intros n Hn Hin. rewrite (chunk_write i _ _ Hi Ew) by done.
    case_decide as Hd; [done|]. apply Hdata; [done|].
    apply elem_of_cons in Hin as [?|?]; done.
  - cbn [fr_total_len]. intros Hin. destruct (Z.eqb_spec i (T - 1)) as [->|Hne].
    + unfold ETHER_MTU in *. rewrite u16_small; unfold part_len in *; nia.
    + apply Htot. apply elem_of_cons in Hin as [?|?]; [lia|done].
Qed.

(** The table while the parts [R] of the packet have arrived. *)
Definition assembling (R : list Z) (F : list lan_client_fragment) : Prop :=
  Forall frag_ok F ∧
  match R with
  | [] => find_index (frag_matches (hdr 0)) F = None ∧ is_Some (find_index frag_free F)
  | _ => ∃ j f, find_index (frag_matches (hdr 0)) F = Some j ∧ F !! j = Some f ∧ partial R f
  end.

(** Only the table and the slot counter change. *)
Definition retable (n : Z) (F : list lan_client_fragment) (l : lan_play) : lan_play :=
  set_local_id n (set_frags F l).

Lemma claim_partial n f : frag_ok f → partial [] (claim_frag n (hdr 0) f).
Proof.
  intros. constructor; try done.
  - intros k _. by rewrite Z.bits_0.
  - intros ? _ Hin. by apply elem_of_nil in Hin.
  - intros Hin. by apply elem_of_nil in Hin.
Qed.

Lemma partial_matches R f : partial R f → frag_matches (hdr 0) f = true.
Proof.
  intros [Hu Hid Hs _ _ _ _ _]. unfold frag_matches. rewrite Hu, Hid, Hs. cbn [h_id h_src hdr].
  by rewrite Z.eqb_refl, CMP_IPV4_refl.
Qed.

Lemma select_ok R l i :
  assembling R (frags l) →
  ∃ j n F f, select_frag l (hdr i) = (Some j, retable n F l) ∧ F !! j = Some f ∧ partial R f ∧
    find_index (frag_matches (hdr 0)) F = Some j ∧ Forall frag_ok F ∧ length F = length (frags l).
Proof.
  intros [Hok Ha]. unfold select_frag. change (frag_matches (hdr i)) with (frag_matches (hdr 0)).
  destruct R as [|r R].
  - destruct Ha as [Hn [j Hj]]. rewrite Hn, Hj.
    pose proof Hj as [(f & Hf & _) _]%find_index_Some.
    pose proof (Forall_lookup_1 _ _ _ _ Hok Hf) as Hfo.
    exists j, (s32 (local_id l + 1)), (alter (claim_frag (local_id l) (hdr i)) j (frags l)),
      (claim_frag (local_id l) (hdr i) f).
    pose proof (claim_partial (local_id l) f Hfo) as Hcp.
    rewrite (alter_as_insert _ _ _ f) by done. pose proof (lookup_lt_Some _ _ _ Hf).
    split_and!; [done|by apply list_lookup_insert_eq|done| |by apply Forall_insert|by rewrite length_insert].
    eapply find_index_update; [done|by eapply partial_matches|by left].
  - destruct Ha as (j & f & Hj & Hf & Hp). rewrite Hj.
    exists j, (local_id l), (frags l), f. split_and!; try done. by destruct l.
Qed.

(** What handling one part computes. *)
Lemma process_frag_result R i stale len w :
  assembling R (frags (lp w)) → 0 ≤ i < T → (∀ k, k ∈ R → 0 ≤ k < T) →
  ∃ j n F f, length F = length (frags (lp w)) ∧ Forall frag_ok F ∧ (j < length F)%nat ∧
    find_index (frag_matches (hdr 0)) F = Some j ∧ partial (i :: R) f ∧
    ((∀ k, 0 ≤ k < T → k ∈ i :: R) ↔ Z.ones T = fr_part f) ∧
    lan_client_process_frag (frag_payload P pk id i ++ stale) len w =
      if Z.ones T =? fr_part f
      then lan_client_process (fr_buffer f) (fr_total_len f)
             (on_lp (retable n (<[j := set_used 0 f]> F)) w)
      else Ok (0, on_lp (retable n (<[j := f]> F)) w).
Proof.
  intros Ha Hi HR. unfold lan_client_process_frag.
  erewrite lift_bind by (by apply parse_frag_payload).
  unfold get, mbind at 1, M_bind at 1.
  destruct (select_ok R (lp w) i Ha) as (j & n & F & f & -> & Hf & Hp & Hj & Hok & HFl).
  unfold modify, mbind at 1, M_bind at 1. cbn [frags set_local_id retable set_frags].
  erewrite lift_bind by (apply arr_get_nat, Hf).
  destruct (add_part_ok R f i stale Hp Hi HR) as (f' & Hadd & Hp').
  erewrite lift_bind by exact Hadd. unfold mbind at 1, M_bind at 1.
  destruct (full_mask T (fr_part f')) as [Hm Hfull]; [lia|apply Hp'| |].
  { intros k Hk. rewrite (pt_bits _ _ Hp') by lia. apply bool_decide_eq_false.
    rewrite elem_of_cons. intros [->|Hin]; [lia|]. specialize (HR k Hin). lia. }
  destruct (shl32 (Z.lnot 0) T) as [m|] eqn:Em; [|done]. apply Ok_inj in Hm.
  erewrite lift_bind by exact Em. rewrite Hm.
  exists j, n, F, f'. split_and!; [done..|by eapply lookup_lt_Some|done|done| |].
  - rewrite Hfull. split; intros Hk k Hk'; specialize (Hk k Hk').
    + rewrite (pt_bits _ _ Hp') by lia. by apply bool_decide_eq_true.
    + rewrite (pt_bits _ _ Hp') in Hk by lia. by apply bool_decide_eq_true in Hk.
  - case_if; [|done]. unfold mbind, M_bind. f_equal. unfold on_lp, set_lp, retable. f_equal.
    cbn [lp set_frags frags set_local_id]. by rewrite list_insert_insert_eq.
Qed.

Lemma partial_complete R f :
  partial R f → (∀ k, 0 ≤ k < T → k ∈ R) →
  fr_total_len f = zlen pk ∧ take (length pk) (fr_buffer f) = pk.
Proof.
  intros Hp Hall. split.
  - apply (pt_total _ _ Hp). apply Hall. pose proof (total_parts_pos P pk). lia.
  - destruct (pt_ok _ _ Hp) as [Hl _].
    apply list_eq_same_length with (length pk); [done|off_lia|].
    intros n' x y Hn Hx Hy. rewrite lookup_take_lt in Hx by done.
    rewrite (pt_data _ _ Hp) in Hx; [congruence|done|].
    apply Hall. pose proof (total_parts_spec P pk ltac:(lia)). unfold zlen in *.
    split; [apply Z.div_pos; lia|apply Z.div_lt_upper_bound; nia].
Qed.

Lemma process_frag_step R i stale len w :
  assembling R (frags (lp w)) → 0 ≤ i < T → (∀ k, k ∈ R → 0 ≤ k < T) →
  ∃ n F, length F = length (frags (lp w)) ∧ Forall frag_ok F ∧
    let w' := on_lp (retable n F) w in
    let res := lan_client_process_frag (frag_payload P pk id i ++ stale) len w in
    ((∀ k, 0 ≤ k < T → k ∈ i :: R) ∧ is_Some (find_index frag_free F) ∧
       ∃ buf, res = lan_client_process buf (zlen pk) w' ∧ bytes_ok buf ∧
              zlen buf = ETHER_MTU ∧ take (length pk) buf = pk) ∨
    (¬ (∀ k, 0 ≤ k < T → k ∈ i :: R) ∧ res = Ok (0, w') ∧ assembling (i :: R) F).
Proof.
  intros Ha Hi HR.
  destruct (process_frag_result R i stale len w Ha Hi HR)
    as (j & n & F & f & Hl & Hok & Hjl & Hj & Hp & Hall & ->).
  pose proof (pt_ok _ _ Hp) as [Hbl Hbb].
  destruct (lookup_lt_is_Some_2 F j Hjl) as [g Hg].
  destruct (Z.eqb_spec (Z.ones T) (fr_part f)) as [E|E].
  - pose proof (proj2 Hall E) as Hev. destruct (partial_complete _ _ Hp Hev) as [-> Ht].
    exists n, (<[j := set_used 0 f]> F). split; [by rewrite length_insert|].
    split; [by apply Forall_insert|]. left. split; [done|]. split; [|by exists (fr_buffer f)].
    destruct (find_index frag_free (<[j:=set_used 0 f]> F)) eqn:Ef; [by eexists|].
    pose proof (find_index_None _ _ Ef j (set_used 0 f)) as Hc.
    rewrite list_lookup_insert_eq in Hc by done. by specialize (Hc eq_refl).
  - exists n, (<[j := f]> F). split; [by rewrite length_insert|].
    split; [by apply Forall_insert|]. right. split; [by rewrite Hall|].
    split; [done|]. split; [by apply Forall_insert|].
    exists j, f. split; [eapply find_index_update; [done|by eapply partial_matches|by right]|].
    split; [by apply list_lookup_insert_eq|done].
Qed.
End Reassembly.

(** * Delivery to the LAN *)

Section Delivery.
Context `{Env}.

(** The Ethernet frame that carries [bs] to [m]. *)
Definition ipv4_frame (p : packet_ctx) (m bs : list Z) : list Z :=
  ether_header m (mac p) ETHER_TYPE_IPV4 ++ bs.

(** Same context but for the send buffer and the counters. *)
Definition same_links (p p' : packet_ctx) : Prop :=
  mac p' = mac p ∧ ip p' = ip p ∧ subnet_net p' = subnet_net p ∧
  subnet_mask p' = subnet_mask p ∧ arp_list p' = arp_list p ∧ arp_ttl p' = arp_ttl p.

Lemma sent_same_links frame w w' : sent frame w w' → same_links (pctx w) (pctx w').
Proof. intros (buf & _ & _ & ->). by repeat split. Qed.

Lemma same_links_trans p q r : same_links p q → same_links q r → same_links p r.
Proof. unfold same_links. intuition congruence. Qed.

Lemma send_ipv4_frame m packet len w :
  pctx_ok (pctx w) → mac_ok m → bytes_ok packet → 0 ≤ len ≤ zlen packet → len ≤ 2033 →
  ∃ w', send_ether m ETHER_TYPE_IPV4 [mk_payload packet len] w = Ok (env_pcap (calls w), w') ∧
        sent (ipv4_frame (pctx w) m (take (Z.to_nat len) packet)) w w'.
Proof.
  intros Hw Hm Hb Hl Hl'.
  assert (payload_bytes [mk_payload packet len] = take (Z.to_nat len) packet) as Hp
    by (rewrite payload_bytes_cons; apply app_nil_r).
  destruct (send_ether_ok m ETHER_TYPE_IPV4 [mk_payload packet len] w) as (w' & E & Hs);
    eauto with pctx.
  - constructor; [|constructor]. split_and!; cbn [plen ptr]; try done; lia.
  - rewrite Hp, pc_buffer_len by done. off_lia.
  - rewrite Hp in Hs. eauto.
Qed.

Lemma lan_client_cb_loop packet len now l n i w :
  pctx_ok (pctx w) → bytes_ok packet → 0 ≤ len ≤ zlen packet → len ≤ 2033 →
  arp_list (pctx w) = l → Forall item_ok l → (i + n = length l)%nat →
  ∃ w', arp_for_each_from now (lan_client_arp_for_each_cb packet len) (seq i n) w = Ok ((), w') ∧
    pctx_ok (pctx w') ∧ same_links (pctx w) (pctx w') ∧ lp w' = set_pctx (pctx w') (lp w) ∧
    trace w' = trace w ++
      ((λ item, EvPcapSend (ipv4_frame (pctx w) (item_mac item) (take (Z.to_nat len) packet))) <$>
         filter (λ item, now < expire_at item) (drop i l)).
Proof.
  intros Hw Hb Hl Hl'. revert i w Hw. induction n as [|n IH]; intros i w Hw Ha Hok Hn.
  { exists w. rewrite drop_ge by lia. rewrite app_nil_r. split_and!; try done.
    by destruct w as [[]]. }
  destruct (lookup_lt_is_Some_2 l i) as [item Hi]; [lia|]. rewrite (drop_S _ item) by done.
  cbn [seq arp_for_each_from]. unfold gets, mbind at 1, M_bind at 1. rewrite Ha.
  erewrite lift_bind by (apply arr_get_nat, Hi).
  rewrite filter_cons. destruct (expire_at item >? now) eqn:Ex.
  - rewrite decide_True by lia.
    destruct (send_ipv4_frame (item_mac item) packet len w) as (w1 & E1 & S1);
      [done|apply (Forall_lookup_1 _ _ _ _ Hok Hi)|done..|].
    assert (lan_client_arp_for_each_cb packet len item w = Ok (0, w1)) as Ecb
      by (unfold lan_client_arp_for_each_cb; by erewrite bind_of_ok by exact E1).
    erewrite bind_of_ok by exact Ecb.
    rewrite Z.eqb_refl. pose proof (sent_same_links _ _ _ S1) as L1.
    destruct (IH (S i) w1) as (w2 & E2 & P2 & L2 & W2 & T2); [by eapply sent_pctx_ok|..|].
    { destruct L1 as (_ & _ & _ & _ & -> & _). done. }
    { done. } { lia. }
    exists w2. split_and!; [exact E2|done|by eapply same_links_trans| |].
    + rewrite W2. destruct S1 as (? & _ & _ & ->). done.
    + rewrite T2, (sent_trace _ _ _ S1). simpl. rewrite <- app_assoc. simpl.
      unfold ipv4_frame. destruct L1 as (-> & _). done.
  - rewrite decide_False by lia. apply IH; [done..|lia].
Qed.

(** The addresses of a packet that is not a subnet broadcast. *)
Lemma lan_client_process_unicast packet len w :
  20 ≤ zlen packet → 0 < len →
  let dst := take 4 (drop 16 packet) in
  IS_BROADCAST dst (subnet_net (pctx w)) (subnet_mask (pctx w)) = false →
  lan_client_process packet len w =
    (dst_mac ← arp_get_mac_by_ip dst;
     match dst_mac with
     | None => mret 0
     | Some dst_mac => send_ether dst_mac ETHER_TYPE_IPV4 [mk_payload packet len]
     end) w.
Proof.
  intros Hp Hl dst Hd. unfold lan_client_process. destruct (Z.eqb_spec len 0); [lia|].
  unfold gets, mbind at 1, M_bind at 1.
  erewrite lift_bind by (apply mem_read_ok; off_lia).
  change (take (Z.to_nat 4) (drop (Z.to_nat IPV4_OFF_DST) packet)) with dst. by rewrite Hd.
Qed.

Lemma lan_client_process_known packet len w m now mac :
  pctx_ok (pctx w) → neighbours now (pctx w) m → now ≤ env_time (calls w) →
  bytes_ok packet → 20 ≤ zlen packet → 0 < len ≤ zlen packet → len ≤ 2033 →
  let dst := take 4 (drop 16 packet) in
  dst ≠ NONE_IP → IS_BROADCAST dst (subnet_net (pctx w)) (subnet_mask (pctx w)) = false →
  table_lookup m (env_time (calls w)) dst = Some mac →
  ∃ w', lan_client_process packet len w = Ok (env_pcap (S (calls w)), w') ∧
        sent (ipv4_frame (pctx w) mac (take (Z.to_nat len) packet)) (tick w) w'.
Proof.
  intros Hp Hn Ht Hb H20 Hl Hl' dst Hne Hbc El.
  assert (ip_ok dst) as Hd by (split; [unfold dst; len_lia|unfold dst; eauto with bytes]).
  rewrite lan_client_process_unicast by (done || lia). fold dst.
  destruct (arp_get_mac_hit dst w m now mac) as [E Hm]; [done..|].
  erewrite bind_of_ok by exact E.
  destruct (send_ipv4_frame mac packet len (tick w)) as (w' & -> & Hs); [done..|lia|done|].
  by exists w'.
Qed.

(** (C28) Delivery of an IPv4 packet received from the relay.  A unicast packet
    for a known neighbour becomes exactly one frame to its MAC address; for
    an unknown one the packet is dropped and one ARP request is broadcast.
    A subnet broadcast becomes one broadcast frame if the one-per-second
    allowance is unused (and uses it up), and otherwise one frame to every
    live entry of the neighbour cache, in the order of the array. *)
Theorem lan_client_process_delivers packet len w m now :
  client_ok (lp w) → neighbours now (pctx w) m → now ≤ env_time (calls w) →
  bytes_ok packet → 20 ≤ zlen packet → 0 < len ≤ zlen packet → len ≤ 2033 →
  let t := env_time (calls w) in
  let dst := take 4 (drop 16 packet) in
  let p := pctx w in
  let frame m := EvPcapSend (ipv4_frame p m (take (Z.to_nat len) packet)) in
  dst ≠ NONE_IP →
  ∃ r w', lan_client_process packet len w = Ok (r, w') ∧
    trace w' = trace w ++
      (if IS_BROADCAST dst (subnet_net p) (subnet_mask p) then
         if next_real_broadcast (lp w) then [frame BROADCAST_MAC]
         else (λ item, frame (item_mac item)) <$> filter (λ item, t < expire_at item) (arp_list p)
       else match table_lookup m t dst with
            | Some mac => [frame mac]
            | None => [EvPcapSend (request_frame p dst)]
            end) ∧
    next_real_broadcast (lp w') =
      next_real_broadcast (lp w) && negb (IS_BROADCAST dst (subnet_net p) (subnet_mask p)).
Proof.
  intros Hc Hn Ht Hb H20 Hl Hl' t dst p frame Hne. pose proof (cl_pctx _ Hc) as Hp.
  assert (ip_ok dst) as Hd by (split; [unfold dst; len_lia|unfold dst; eauto with bytes]).
  destruct (IS_BROADCAST dst (subnet_net p) (subnet_mask p)) eqn:Ed; cbn [negb].
  - unfold lan_client_process. destruct (Z.eqb_spec len 0); [lia|].
    unfold gets, mbind at 1, M_bind at 1.
    erewrite lift_bind by (apply mem_read_ok; off_lia).
    change (take (Z.to_nat 4) (drop (Z.to_nat IPV4_OFF_DST) packet)) with dst.
    fold p. rewrite Ed.
    unfold lan_client_on_broadcast, get, mbind at 1, M_bind at 1. rewrite andb_false_r.
    destruct (next_real_broadcast (lp w)) eqn:Eb.
    + unfold modify, mbind at 1, M_bind at 1.
      destruct (send_ipv4_frame BROADCAST_MAC packet len (on_lp (set_next_real_broadcast false) w))
        as (w' & -> & Hs); [done|split; [done|Sample.bytes_solve]|done|lia|done|].
      eexists _, w'. split_and!; [done|by rewrite (sent_trace _ _ _ Hs)|].
      by destruct Hs as (? & _ & _ & ->).
    + unfold arp_for_each. unfold time, mbind at 2, M_bind at 2.
      destruct (lan_client_cb_loop packet len t (arp_list p) 100 0 (tick w))
        as (w' & E & _ & _ & W & T); [done|done|lia|done|done|apply Hn| |].
      { destruct Hn as [(Hz & _) _]. unfold p, zlen, ARP_CACHE_LEN in *. lia. }
      exists 0, w'. split_and!; [|exact T|by rewrite W].
      erewrite bind_of_ok by exact E. done.
  - rewrite andb_true_r. destruct (table_lookup m t dst) as [dm|] eqn:El.
    + destruct (lan_client_process_known packet len w m now dm) as (w' & E & Hs); [done..|].
      rewrite E. eexists _, w'. split_and!; [done|by rewrite (sent_trace _ _ _ Hs)|].
      by destruct Hs as (? & _ & _ & ->).
    + rewrite lan_client_process_unicast by (done || lia). fold dst.
      destruct (arp_get_mac_miss dst w m now) as (w' & E & Hs); [done..|].
      erewrite bind_of_ok by exact E. exists 0, w'.
      split_and!; [done|by rewrite (sent_trace _ _ _ Hs)|]. by destruct Hs as (? & _ & _ & ->).
Qed.
End Delivery.

(** * From datagrams to frames *)

Section EndToEnd.
Context `{Env}.

(** The event loop delivers datagrams one after the other. *)
Fixpoint recv_all (ds : list (list Z)) : IO () :=
  match ds with [] => mret () | d :: ds => lan_client_recv d;; recv_all ds end.

(** The state when the handler of a received datagram starts. *)
Definition received (d : list Z) (w : world) : world :=
  on_lp (lp_count_download (zlen d))
    (on_lp (set_client_buf (d ++ drop (length d) (client_buf (lp w)))) w).

Lemma received_client_ok d w :
  client_ok (lp w) → bytes_ok d → zlen d ≤ CLIENT_RECV_BUF_LEN → client_ok (lp (received d w)).
Proof.
  intros [] Hd Hl. constructor; try done; cbn [received on_lp set_lp lp set_client_buf client_buf].
  - simpl. off_lia.
  - simpl. eauto with bytes.
Qed.

(** Dispatch on the type byte; the high bit is ignored. *)
Lemma lan_client_recv_ok b payload w :
  client_ok (lp w) → zlen (b :: payload) ≤ CLIENT_RECV_BUF_LEN →
  let packet := payload ++ drop (S (length payload)) (client_buf (lp w)) in
  let type := Z.land b 0x7f in
  lan_client_recv (b :: payload) w =
    (if type =? LAN_CLIENT_TYPE_KEEPALIVE then mret ()
     else if type =? LAN_CLIENT_TYPE_IPV4 then
       _ ← lan_client_process packet (zlen payload); mret ()
     else if type =? LAN_CLIENT_TYPE_IPV4_FRAG then
       _ ← lan_client_process_frag packet (zlen payload); mret ()
     else if type =? LAN_CLIENT_TYPE_AUTH_ME then lan_client_process_auth_me packet (zlen payload)
     else if type =? LAN_CLIENT_TYPE_INFO then
       modify (log_event (EvServerInfo (c_string payload)))
     else mret ()) (received (b :: payload) w).
Proof.
  intros Hc Hl packet type. pose proof (cl_buf _ Hc) as Hb.
  unfold lan_client_recv, lan_client_alloc_cb, get. unfold mbind at 1, M_bind at 1.
  unfold mbind at 1, M_bind at 1. unfold mret at 1, M_ret at 1.
  rewrite take_ge by off_lia.
  erewrite lift_bind by (apply (mem_write_over [] (client_buf (lp w))); off_lia).
  rewrite app_nil_l. unfold modify at 1, mbind at 1, M_bind at 1.
  unfold lan_client_on_recv. destruct (Z.leb_spec (zlen (b :: payload)) 0); [off_lia|].
  unfold get, mbind at 1, M_bind at 1.
  erewrite lift_bind by reflexivity. unfold modify at 1, mbind at 1, M_bind at 1.
  rewrite (u16_small (zlen _)) by off_lia.
  assert (zlen (b :: payload) - 1 = zlen payload) as -> by len_lia.
  rewrite u16_small by off_lia.
  change (drop 1 (client_buf (lp (on_lp (set_client_buf
    ((b :: payload) ++ drop (length (b :: payload)) (client_buf (lp w)))) w)))) with packet.
  fold type. change (modify (on_lp (lp_count_download (zlen (b :: payload)))) _)
    with (@Ok (() * world) ((), received (b :: payload) w)). cbv beta iota.
  repeat case_if; try done.
  erewrite lift_bind by (unfold packet; rewrite mem_read_app_l by len_lia; by apply mem_read_all).
  done.
Qed.

(** Receiving parts changes the receive buffer, the table and the counters. *)
Definition quiet (w w' : world) : Prop :=
  client_ok (lp w') ∧ pctx w' = pctx w ∧ trace w' = trace w ∧ calls w' = calls w ∧
  next_real_broadcast (lp w') = next_real_broadcast (lp w).

Definition frag_datagram (P : Z) (pk : list Z) (id : Z) (i : nat) : list Z :=
  LAN_CLIENT_TYPE_IPV4_FRAG :: frag_payload P pk id (Z.of_nat i).

Lemma retable_client_ok n F l :
  client_ok l → length F = length (frags l) → Forall frag_ok F → client_ok (retable n F l).
Proof. intros [] Hl Hf. constructor; try done. simpl. unfold zlen in *. lia. Qed.

Section Order.
Context (P : Z) (pk : list Z) (id : Z).
Context (HP : 0 < P < 65536) (Hpk : bytes_ok pk) (Hlen : 20 ≤ zlen pk ≤ ETHER_MTU)
  (HT : total_parts P pk ≤ 8).

Lemma frag_datagram_ok i :
  Z.of_nat i < total_parts P pk →
  bytes_ok (frag_datagram P pk id i) ∧ zlen (frag_datagram P pk id i) ≤ CLIENT_RECV_BUF_LEN.
Proof.
  intros Hi. pose proof (chunk_length P pk ltac:(lia) (Z.of_nat i) ltac:(lia)) as Hc.
  pose proof (length_frag_header P pk Hpk ltac:(lia) id (Z.of_nat i)) as Hh.
  assert (part_len P pk (Z.of_nat i) ≤ zlen pk) by (unfold part_len; nia). split.
  - apply bytes_ok_cons; [unfold byte_ok, LAN_CLIENT_TYPE_IPV4_FRAG; lia|].
    apply bytes_ok_app; [apply frag_header_bytes_ok; done || lia|by apply chunk_bytes_ok].
  - unfold frag_datagram, frag_payload. off_lia.
Qed.

Lemma recv_parts order R w :
  order ≠ [] → client_ok (lp w) → assembling P pk id R (frags (lp w)) →
  NoDup ((Z.of_nat <$> order) ++ R) →
  (∀ k, 0 ≤ k < total_parts P pk ↔ k ∈ (Z.of_nat <$> order) ++ R) →
  ∃ w1 buf, recv_all (frag_datagram P pk id <$> order) w =
      (_ ← lan_client_process buf (zlen pk); mret ()) w1 ∧
    quiet w w1 ∧ is_Some (find_index frag_free (frags (lp w1))) ∧
    bytes_ok buf ∧ zlen buf = ETHER_MTU ∧ take (length pk) buf = pk.
Proof.
  revert R w. induction order as [|i order IH]; intros R w Hne Hc Ha Hnd Hall; [done|].
  cbn [fmap list_fmap app] in Hnd, Hall.
  assert (0 ≤ Z.of_nat i < total_parts P pk) as Hi by (apply Hall; left).
  assert (∀ k, k ∈ R → 0 ≤ k < total_parts P pk) as HR
    by (intros k Hk; apply Hall; right; apply elem_of_app; by right).
  destruct (frag_datagram_ok i) as [Hdb Hdl]; [lia|].
  cbn [fmap list_fmap recv_all]. unfold mbind at 1, M_bind at 1. unfold frag_datagram at 1.
  rewrite lan_client_recv_ok by done. fold (frag_datagram P pk id i).
  cbn [Z.land Pos.land LAN_CLIENT_TYPE_IPV4_FRAG].
  change (_ =? LAN_CLIENT_TYPE_KEEPALIVE) with false.
  change (_ =? LAN_CLIENT_TYPE_IPV4) with false. change (_ =? LAN_CLIENT_TYPE_IPV4_FRAG) with true.
  cbv iota. set (w0 := received _ w).
  assert (client_ok (lp w0)) as Hc0 by (by apply received_client_ok).
  destruct (process_frag_step P pk id HP Hpk Hlen HT R (Z.of_nat i)
    (drop (S (length (frag_payload P pk id (Z.of_nat i)))) (client_buf (lp w)))
    (zlen (frag_payload P pk id (Z.of_nat i))) w0 Ha Hi HR) as (n & F & HFl & HFo & Hcase).
  set (w1 := on_lp (retable n F) w0) in *.
  assert (quiet w w1) as Hq.
  { split_and!; try done. by apply retable_client_ok. }
  apply list.NoDup_cons in Hnd as [Hni Hnd].
  destruct Hcase as [(Hev & Hfree & buf & E & Hbb & Hbl & Hbt)|(Hev & E & Ha')].
  - assert (order = []) as ->.
    { destruct order as [|j order]; [done|]. exfalso. cbn [fmap list_fmap app] in *.
      assert (Z.of_nat j ∈ Z.of_nat i :: R) as Hj by (apply Hev, Hall; right; left).
      apply elem_of_cons in Hj as [Hj|Hj].
      - apply Hni. rewrite <- Hj. by left.
      - apply list.NoDup_cons in Hnd as [Hnj _]. apply Hnj.
        apply elem_of_app. by right. }
    exists w1, buf. split_and!; try done. cbn [fmap list_fmap recv_all].
    unfold mbind at 1, M_bind at 1. rewrite E. unfold mbind, M_bind.
    by destruct (lan_client_process buf (zlen pk) w1) as [[]|].
  - assert (order ≠ []) as Hne'.
    { intros ->. apply Hev. intros k Hk. by apply Hall in Hk. }
    unfold mbind at 1, M_bind at 1. rewrite E. unfold mret at 1, M_ret at 1.
    destruct (IH (Z.of_nat i :: R) w1 Hne') as (w2 & buf & E2 & Hq2 & Hrest); [apply Hq|done|..].
    + by rewrite <- Permutation_middle, list.NoDup_cons.
    + intros k. rewrite <- Permutation_middle. apply Hall.
    + exists w2, buf. split; [exact E2|]. split; [|done].
      unfold quiet in *. intuition congruence.
Qed.
End Order.

(** Once a packet is complete in [buf], it goes out as one frame. *)
Lemma quiet_delivers pk w w1 buf m now mac :
  client_ok (lp w) → neighbours now (pctx w) m → now ≤ env_time (calls w) →
  20 ≤ zlen pk ≤ ETHER_MTU → pk_dst pk ≠ NONE_IP →
  IS_BROADCAST (pk_dst pk) (subnet_net (pctx w)) (subnet_mask (pctx w)) = false →
  table_lookup m (env_time (calls w)) (pk_dst pk) = Some mac →
  quiet w w1 → bytes_ok buf → 20 ≤ zlen buf → zlen pk ≤ zlen buf → take (length pk) buf = pk →
  ∃ w', (_ ← lan_client_process buf (zlen pk); mret ()) w1 = Ok ((), w') ∧
        trace w' = trace w ++ [EvPcapSend (ipv4_frame (pctx w) mac pk)].
Proof.
  intros Hc Hn Ht Hl Hne Hbc El (Hc1 & Hpc & Htr & Hca & _) Hbb Hb20 Hbl Hbt.
  assert (take 4 (drop 16 buf) = pk_dst pk) as Hd.
  { unfold pk_dst. rewrite <- Hbt. rewrite !take_drop_commute, take_take. do 2 f_equal. len_lia. }
  destruct (lan_client_process_known buf (zlen pk) w1 m now mac) as (w2 & E2 & Hs);
    rewrite ?Hd, ?Hpc, ?Hca; try done; [apply Hc|len_lia|off_lia|].
  exists w2. erewrite bind_of_ok by exact E2. split; [done|].
  rewrite (sent_trace _ _ _ Hs). cbn [tick trace]. rewrite Htr, Hpc. unfold zlen.
  by rewrite Nat2Z.id, Hbt.
Qed.
End EndToEnd.

(** The parts of the datagrams, put together, are the packet. *)
Lemma frag_datagrams_join P pk id :
  0 < P → bytes_ok pk → 20 ≤ zlen pk → mjoin (drop 17 <$> frag_datagrams P pk id) = pk.
Proof.
  intros HP Hpk Hl. pose proof (total_parts_spec P pk HP) as Hs.
  assert (∀ n i, Z.of_nat (i + n) = total_parts P pk →
    mjoin (drop 17 <$> ((λ i, LAN_CLIENT_TYPE_IPV4_FRAG :: frag_payload P pk id (Z.of_nat i))
                          <$> seq i n)) = drop (Z.to_nat (P * Z.of_nat i)) pk) as Hj.
  { induction n as [|n IH]; intros i Hi; cbn [seq fmap list_fmap mjoin list_join].
    { symmetry. apply drop_ge. unfold zlen in *. nia. }
    cbn [drop]. unfold frag_payload.
    rewrite drop_app_length' by (by rewrite length_frag_header by (done || lia)).
    etrans; [apply (f_equal (app (chunk P pk (Z.of_nat i)))); exact (IH (S i) ltac:(lia))|].
    unfold chunk. destruct (decide (P * (Z.of_nat i + 1) ≤ zlen pk)).
    - assert (part_len P pk (Z.of_nat i) = P) as -> by (unfold part_len; nia).
      replace (Z.to_nat (P * Z.of_nat (S i))) with (Z.to_nat (P * Z.of_nat i) + Z.to_nat P)%nat by nia.
      rewrite <- drop_drop. apply take_drop.
    - rewrite (drop_ge pk (Z.to_nat (P * Z.of_nat (S i)))) by (unfold zlen in *; nia).
      rewrite app_nil_r. apply take_ge. unfold part_len. len_lia. }
  unfold frag_datagrams. rewrite (Hj _ 0%nat); [|nia].
  change (Z.of_nat 0) with 0. by rewrite Z.mul_0_r.
Qed.

Section Relay.
(** The sending and the receiving client run in environments of their own. *)
Context (ES ER : Env).

(** (C27) An IPv4 packet handed to the relay client is sent whole, after the
    type byte, if no path MTU is set or it is not larger; otherwise as
    ceil(len / pmtu) fragments in order, each with a 16-byte header and at
    most [pmtu] bytes of the packet, so that no datagram is larger than
    [pmtu] plus 17 bytes.  Concatenated, the parts are the packet. *)
Theorem lan_client_send_fragments w pk rest dst_ip :
  bytes_ok (pk ++ rest) → 20 ≤ zlen pk < 65536 →
  pmtu (lp w) = 0 ∨ MIN_FRAG_PAYLOAD_LEN ≤ pmtu (lp w) → (∀ k, @env_udp ES k = 0) →
  let ds := ipv4_datagrams (pmtu (lp w)) (frag_id (lp w)) pk in
  (∃ w', @lan_client_send_ipv4 ES dst_ip (pk ++ rest) (zlen pk) w = Ok (0, w') ∧
         trace w' = trace w ++ (EvUdpSend <$> ds)) ∧
  (0 < pmtu (lp w) → Forall (λ d, zlen d ≤ pmtu (lp w) + 17) ds) ∧
  (0 < pmtu (lp w) < zlen pk → mjoin (drop 17 <$> ds) = pk).
Proof.
  intros Hb Hl Hp He ds. unfold MIN_FRAG_PAYLOAD_LEN in Hp.
  pose proof Hb as [Hpk _]%Forall_app. split_and!.
  - destruct (@lan_client_send_ipv4_ok ES w pk rest dst_ip Hb Hl Hp He) as [id' E].
    eexists. split; [exact E|]. by rewrite sent_udp_trace.
  - intros HP. unfold ds, ipv4_datagrams. set (P := pmtu (lp w)) in *. case_if.
    + unfold frag_datagrams. apply Forall_fmap, Forall_forall. intros i Hi%in_seq.
      unfold compose, frag_payload.
      pose proof (chunk_length P pk ltac:(lia) (Z.of_nat i) ltac:(lia)) as Hc.
      pose proof (part_len_pos P pk ltac:(lia) (Z.of_nat i) ltac:(lia)).
      pose proof (length_frag_header P pk Hpk ltac:(lia) (frag_id (lp w)) (Z.of_nat i)). len_lia.
    + constructor; [|constructor]. len_lia.
  - intros HP. unfold ds, ipv4_datagrams. set (P := pmtu (lp w)) in *.
    rewrite (proj2 (andb_true_iff _ _)) by lia.
    apply frag_datagrams_join; [lia|done|lia].
Qed.

(** (C1) End to end: a packet of at most 1500 bytes given to the sending
    client, with any path MTU [lan_client_init] accepts, produces datagrams
    which, delivered in any order to a receiving client that has a free
    slot, none for the same sender and id, and knows the destination's MAC
    address, make it send exactly one Ethernet frame to that MAC address,
    holding exactly the packet. *)
Theorem relayed_packet_arrives wS wR pk rest dst_ip m now mac :
  bytes_ok (pk ++ rest) → 20 ≤ zlen pk ≤ ETHER_MTU →
  pmtu (lp wS) = 0 ∨ MIN_FRAG_PAYLOAD_LEN ≤ pmtu (lp wS) → (∀ k, @env_udp ES k = 0) →
  client_ok (lp wR) → neighbours now (pctx wR) m → now ≤ @env_time ER (calls wR) →
  let dst := pk_dst pk in
  find_index (λ f, negb (fr_used f =? 0) && (fr_id f =? u16 (frag_id (lp wS)))
                   && CMP_IPV4 (fr_src f) (pk_src pk)) (frags (lp wR)) = None →
  is_Some (find_index frag_free (frags (lp wR))) →
  dst ≠ NONE_IP → IS_BROADCAST dst (subnet_net (pctx wR)) (subnet_mask (pctx wR)) = false →
  table_lookup m (@env_time ER (calls wR)) dst = Some mac →
  let ds := ipv4_datagrams (pmtu (lp wS)) (frag_id (lp wS)) pk in
  ∃ wS', @lan_client_send_ipv4 ES dst_ip (pk ++ rest) (zlen pk) wS = Ok (0, wS') ∧
    trace wS' = trace wS ++ (EvUdpSend <$> ds) ∧
    ∀ ds', ds' ≡ₚ ds →
      ∃ wR', @recv_all ER ds' wR = Ok ((), wR') ∧
        trace wR' = trace wR ++ [EvPcapSend (ipv4_frame (pctx wR) mac pk)].
Proof.
  intros Hb Hl Hp He Hc Hn Ht dst Hnone Hfree Hne Hbc El ds. unfold MIN_FRAG_PAYLOAD_LEN in Hp.
  pose proof Hb as [Hpk _]%Forall_app.
  destruct (@lan_client_send_ipv4_ok ES wS pk rest dst_ip Hb ltac:(off_lia) Hp He) as [id' E].
  eexists. split; [exact E|]. split; [by rewrite sent_udp_trace|]. intros ds' Hds.
  assert (∀ w1 buf, quiet wR w1 → bytes_ok buf → 20 ≤ zlen buf → zlen pk ≤ zlen buf →
    take (length pk) buf = pk →
    ∃ wR', (_ ← @lan_client_process ER buf (zlen pk); mret ()) w1 = Ok ((), wR') ∧
           trace wR' = trace wR ++ [EvPcapSend (ipv4_frame (pctx wR) mac pk)]) as Hdel
    by (intros; eapply quiet_delivers; eauto).
  unfold ds, ipv4_datagrams in Hds. clear ds. set (P := pmtu (lp wS)) in *.
  destruct ((P >? 0) && (zlen pk >? P)) eqn:Ef.
  - unfold frag_datagrams in Hds. apply Permutation_map_inv in Hds as (order & -> & Hperm).
    assert (0 < total_parts P pk ∧ total_parts P pk ≤ 8) as [HT0 HT].
    { pose proof (total_parts_spec P pk ltac:(lia)). unfold ETHER_MTU in *. nia. }
    assert (∀ i, i ∈ order ↔ Z.of_nat i < total_parts P pk) as Hin.
    { intros i. rewrite <- Hperm, elem_of_seq. lia. }
    destruct (@recv_parts ER P pk (frag_id (lp wS)) ltac:(off_lia) Hpk Hl HT order [] wR)
      as (w1 & buf & E1 & Hq & _ & Hbb & Hbl & Hbt).
    + intros ->. specialize (Hin 0%nat). rewrite elem_of_nil in Hin. lia.
    + done.
    + split; [apply Hc|]. split; [exact Hnone|done].
    + rewrite app_nil_r. apply NoDup_fmap; [apply _|]. rewrite <- Hperm. apply NoDup_seq.
    + intros k. rewrite app_nil_r, list_elem_of_fmap. split.
      * intros Hk. exists (Z.to_nat k). split; [lia|]. apply Hin. lia.
      * intros (i & -> & Hi%Hin). lia.
    + destruct (Hdel w1 buf Hq Hbb) as (wR' & E2 & Htr); [off_lia|off_lia|done|].
      exists wR'. split; [|done]. rewrite <- E2. exact E1.
  - apply Permutation_singleton_r in Hds as ->. cbn [recv_all]. unfold mbind at 1, M_bind at 1.
    rewrite lan_client_recv_ok by (done || (off_lia)).
    change (Z.land LAN_CLIENT_TYPE_IPV4 127) with LAN_CLIENT_TYPE_IPV4. cbv iota.
    change (_ =? LAN_CLIENT_TYPE_KEEPALIVE) with false. rewrite Z.eqb_refl.
    destruct (Hdel (received (LAN_CLIENT_TYPE_IPV4 :: pk) wR)
      (pk ++ drop (S (length pk)) (client_buf (lp wR)))) as (wR' & E2 & Htr).
    + split_and!; try done. apply received_client_ok; [done| |off_lia].
      apply bytes_ok_cons; [unfold byte_ok, LAN_CLIENT_TYPE_IPV4; lia|done].
    + apply bytes_ok_app; [done|]. apply bytes_ok_drop, Hc.
    + len_lia.
    + len_lia.
    + apply take_app_length.
    + exists wR'. split; [|exact Htr]. rewrite E2. done.
Qed.
End Relay.

(** * A concrete client *)

Module LanSample.

(** The client of [Sample] with path MTU [n], free slots and a neighbour
    10.13.0.7 learnt at time 1000 in an array that is otherwise empty. *)
Definition cache : list arp_item :=
  mk_item Sample.peer_ip Sample.peer_mac 1030 :: replicate 99 empty_item.
Definition neighbour_table : table := table_set ∅ 1000 30 Sample.peer_ip Sample.peer_mac.
Definition client (n : Z) : lan_play :=
  mk_lp (set_arp_list cache Sample.pc) (replicate 4096 0) n false false 0 0
    (replicate 100 empty_frag) (Some [98; 111; 98]) (replicate 20 7) Sample.server 0 0 0 0.
Definition start (n : Z) : world := mk_world (client n) [] 0.

Lemma frags_ok : Forall frag_ok (replicate 100 empty_frag).
Proof. apply Forall_replicate. split; [done|apply bytes_ok_zeros]. Qed.

Lemma client_is_ok n : client_ok (client n).
Proof.
  constructor; try done; [|apply bytes_ok_zeros|apply frags_ok].
  destruct Sample.pc_ok. by constructor.
Qed.

Lemma start_neighbours n : neighbours 1000 (pctx (start n)) neighbour_table.
Proof.
  destruct (simulates_run 30 1000 arp_list_init ∅ [mk_store 1000 Sample.peer_ip Sample.peer_mac])
    as [Hi Hl]; [|by split|apply arp_list_init_simulates; lia|by split].
  repeat constructor; eauto with sample; try done; Sample.bytes_solve.
Qed.

(** A packet from 10.13.37.1 to 10.13.0.7 of 1100 bytes. *)
Definition packet : list Z :=
  replicate 12 69 ++ Sample.our_ip ++ Sample.peer_ip ++ replicate 1080 42.

Lemma packet_bytes_ok : bytes_ok packet.
Proof.
  repeat apply bytes_ok_app; try (apply Forall_replicate; unfold byte_ok; lia); Sample.bytes_solve.
Qed.

End LanSample.

(** Three fragments, delivered in reverse order. *)
Lemma relayed_packet_arrives_witness :
  ∃ wS' d0 d1 d2,
    @lan_client_send_ipv4 Sample.env Sample.peer_ip (LanSample.packet ++ []) 1100 (LanSample.start 500)
      = Ok (0, wS') ∧
    trace wS' = [EvUdpSend d0; EvUdpSend d1; EvUdpSend d2] ∧
    ∃ wR', @recv_all Sample.env [d2; d1; d0] (LanSample.start 0) = Ok ((), wR') ∧
      trace wR' = [EvPcapSend (ipv4_frame Sample.pc Sample.peer_mac LanSample.packet)].
Proof.
  destruct (relayed_packet_arrives Sample.env Sample.env (LanSample.start 500) (LanSample.start 0)
    LanSample.packet [] Sample.peer_ip LanSample.neighbour_table 1000 Sample.peer_mac)
    as (wS' & E & T & Hd).
  - rewrite app_nil_r. apply LanSample.packet_bytes_ok.
  - vm_compute. split; discriminate.
  - right. vm_compute. discriminate.
  - reflexivity.
  - apply LanSample.client_is_ok.
  - apply LanSample.start_neighbours.
  - vm_compute. discriminate.
  - vm_compute. reflexivity.
  - vm_compute. eexists. reflexivity.
  - vm_compute. discriminate.
  - vm_compute. reflexivity.
  - vm_compute. reflexivity.
  - eexists wS', _, _, _. split; [exact E|]. split; [exact T|].
    apply Hd. symmetry. apply (Permutation_rev (ipv4_datagrams 500 0 LanSample.packet)).
Defined.

Lemma lan_client_send_fragments_witness :
  ∃ w', @lan_client_send_ipv4 Sample.env Sample.peer_ip (LanSample.packet ++ []) 1100 (LanSample.start 500)
          = Ok (0, w') ∧
        zlen (trace w') = 3 ∧
        mjoin (drop 17 <$> ipv4_datagrams 500 0 LanSample.packet) = LanSample.packet.
Proof.
  destruct (lan_client_send_fragments Sample.env (LanSample.start 500) LanSample.packet []
    Sample.peer_ip) as ((w' & E & T) & _ & J).
  - rewrite app_nil_r. apply LanSample.packet_bytes_ok.
  - vm_compute. split; [discriminate|reflexivity].
  - right. vm_compute. discriminate.
  - reflexivity.
  - exists w'. split; [exact E|]. split; [by rewrite T|]. apply J.
    vm_compute. split; reflexivity.
Defined.

Lemma lan_client_process_delivers_witness :
  ∃ r w', @lan_client_process Sample.env LanSample.packet 1100 (LanSample.start 0) = Ok (r, w') ∧
    trace w' = [EvPcapSend (ipv4_frame Sample.pc Sample.peer_mac LanSample.packet)].
Proof.
  destruct (@lan_client_process_delivers Sample.env LanSample.packet 1100 (LanSample.start 0)
    LanSample.neighbour_table 1000) as (r & w' & E & T & _).
  - apply LanSample.client_is_ok.
  - apply LanSample.start_neighbours.
  - vm_compute. discriminate.
  - apply LanSample.packet_bytes_ok.
  - vm_compute. discriminate.
  - vm_compute. split; [reflexivity|discriminate].
  - lia.
  - vm_compute. discriminate.
  - exists r, w'. split; [exact E|]. exact T.
Defined.
