(* ===== verification/LanClientSafety.v ===== *)
(** Further properties of [lan-client.c]: the login answer, the independence
    of packets that are reassembled at the same time, the invariant of the
    client state, start-up, and the datagrams that make the handler stop. *)
From S2P Require Import Prelude.
From S2P Require Import NetBytes.
From S2P Require Import Sha1.
From S2P Require Import Types.
From S2P Require Import Checksum.
From S2P Require Import Packet.
From S2P Require Import Arp.
From S2P Require Import LanClient.

(** * Login *)

Section Login.
Context `{Env}.

Lemma auth_digest_ok key challenge stale :
  zlen key = 20 → bytes_ok key → bytes_ok challenge → zlen challenge < 65536 →
  auth_digest key (challenge ++ stale) (zlen challenge) = Ok (Fips.sha1 (key ++ challenge)).
Proof.
  intros Hk Hkb Hcb Hcl. unfold auth_digest. rewrite (mem_read_all key) by lia. cbn [mbind result_bind].
  destruct (StreamFacts.SHA1Update_ok [] key (Sha1.SHA1Init stack_ctx)) as (c1 & E1 & R1);
    [eauto with bytes|done|lia|by apply StreamFacts.ctx_rep_init|].
  rewrite Hk in E1. rewrite E1. cbn [mbind result_bind].
  rewrite mem_read_app_l, mem_read_all by len_lia. cbn [mbind result_bind].
  destruct (StreamFacts.SHA1Update_ok key challenge c1) as (c2 & E2 & R2); [done|done|lia|done|].
  rewrite E2. cbn [mbind result_bind].
  destruct (StreamFacts.SHA1Final_ok (key ++ challenge) c2) as (c3 & E3); [eauto with bytes|done|].
  by rewrite E3.
Qed.

(** Only IPv4 packets are ever split. *)
Lemma lan_client_send_whole type packet len w :
  (type =? LAN_CLIENT_TYPE_IPV4) = false →
  lan_client_send type packet len w =
    lan_client_send_raw [mk_payload [type] 1; mk_payload packet len] w.
Proof. intros E. unfold lan_client_send, get, mbind at 1, M_bind at 1. by rewrite E. Qed.

Lemma length_sha1 m : length (Fips.sha1 m) = 20%nat.
Proof.
  unfold Fips.sha1, Fips.hash_words. cbn [fmap list_fmap mjoin list_join].
  by rewrite !length_app, !length_rev, !length_le_store.
Qed.

Lemma sha1_bytes_ok m : bytes_ok (Fips.sha1 m).
Proof.
  unfold Fips.sha1, Fips.hash_words. cbn [fmap list_fmap mjoin list_join].
  repeat apply bytes_ok_app; eauto with bytes.
Qed.

Lemma auth_me_ok w name challenge stale :
  zlen (key (lp w)) = LP_KEY_LEN → bytes_ok (key (lp w)) →
  bytes_ok challenge → zlen challenge < 65535 →
  username (lp w) = Some name → bytes_ok name → zlen name < 65516 →
  lan_client_process_auth_me (0 :: challenge ++ stale) (zlen (0 :: challenge)) w =
    Ok ((), sent_udp [LAN_CLIENT_TYPE_AUTH_ME :: Fips.sha1 (key (lp w) ++ challenge) ++ name] w).
Proof.
  intros Hk Hkb Hcb Hcl Hname Hnb Hnl.
  unfold lan_client_process_auth_me, get, mbind at 1, M_bind at 1. rewrite Hname.
  erewrite lift_bind by reflexivity. cbn [Z.eqb drop].
  rewrite (u16_small (zlen name)), (u16_small (20 + zlen name)) by (unfold zlen in *; lia).
  assert (zlen (0 :: challenge) - 1 = zlen challenge) as -> by len_lia.
  rewrite (u16_small (zlen challenge)) by (unfold zlen in *; lia).
  erewrite lift_bind by (by apply auth_digest_ok; [..|lia]).
  set (dg := Fips.sha1 _). pose proof (length_sha1 (key (lp w) ++ challenge)) as Hdl. fold dg in Hdl.
  assert (Z.to_nat (20 + zlen name) = (20 + length name)%nat) as -> by len_lia.
  erewrite lift_bind by (apply (mem_write_fill [] 20); done). rewrite app_nil_l.
  erewrite lift_bind by (by apply mem_read_all).
  erewrite lift_bind by (rewrite <- (Nat.add_0_r (length name));
    apply (mem_write_fill dg (length name) 0); [len_lia|done]).
  rewrite app_nil_r. unfold lan_client_send_auth_me, mbind at 1, M_bind at 1.
  rewrite lan_client_send_whole by done.
  assert (payload_bytes [mk_payload [LAN_CLIENT_TYPE_AUTH_ME] 1; mk_payload (dg ++ name) (20 + zlen name)]
          = LAN_CLIENT_TYPE_AUTH_ME :: dg ++ name) as Hby.
  { rewrite payload_bytes_part, payload_bytes_single by len_lia. done. }
  erewrite lan_client_send_raw_ok; [by rewrite Hby| |by rewrite Hby].
  assert (bytes_ok (dg ++ name)) by (apply bytes_ok_app; [apply sha1_bytes_ok|done]).
  rewrite !Forall_cons_iff; unfold payload_ok; cbn [plen ptr]; split_and!; try done; try len_lia.
  repeat constructor; unfold byte_ok, LAN_CLIENT_TYPE_AUTH_ME; lia.
Qed.

(** What answers the challenge: hash of key and challenge, then the name. *)
Definition login_answer (l : lan_play) (challenge : list Z) : list event :=
  match username l with
  | Some name => [EvUdpSend (LAN_CLIENT_TYPE_AUTH_ME :: Fips.sha1 (key l ++ challenge) ++ name)]
  | None => [EvAskLogin]
  end.

(** The answer to a login challenge of type 0 is one datagram: the type
    byte, the SHA-1 digest (FIPS 180) of the stored key followed by the
    challenge, then the user name.  The challenge is exactly what the
    datagram held, whatever an earlier datagram left behind it in the
    receive buffer.  Without a user name nothing is sent. *)
Theorem auth_me_response w challenge stale :
  zlen (key (lp w)) = LP_KEY_LEN → bytes_ok (key (lp w)) →
  bytes_ok challenge → zlen challenge < 4095 →
  (∀ name, username (lp w) = Some name → bytes_ok name ∧ zlen name < 65516) →
  ∃ w', lan_client_process_auth_me (0 :: challenge ++ stale) (zlen (0 :: challenge)) w = Ok ((), w') ∧
    trace w' = trace w ++ login_answer (lp w) challenge.
Proof.
  intros Hk Hkb Hcb Hcl Hname. unfold login_answer. destruct (username (lp w)) as [name|] eqn:Eu.
  - destruct (Hname name eq_refl) as [Hnb Hnl].
    rewrite (auth_me_ok w name) by (done || lia). eexists. split; [done|]. by rewrite sent_udp_trace.
  - unfold lan_client_process_auth_me, get, mbind at 1, M_bind at 1. rewrite Eu. by eexists.
Qed.
End Login.

(** * Safety of the receive handler *)

Section Safety.
Context `{Env}.

(** [m] returns from every state of [I], in [I] again, with a result in [Q]. *)
Definition runs {A} (I : world → Prop) (m : IO A) (Q : A → Prop) : Prop :=
  ∀ w, I w → ∃ a w', m w = Ok (a, w') ∧ I w' ∧ Q a.

Lemma runs_bind {A B} I (m : IO A) (f : A → IO B) Q R :
  runs I m Q → (∀ a, Q a → runs I (f a) R) → runs I (m ≫= f) R.
Proof.
  intros Hm Hf w Hw. destruct (Hm w Hw) as (a & w1 & E & H1 & Ha).
  destruct (Hf a Ha w1 H1) as (b & w2 & E2 & H2). exists b, w2.
  split; [|done]. by erewrite bind_of_ok.
Qed.
Lemma runs_ret {A} I (a : A) (Q : A → Prop) : Q a → runs I (mret a) Q.
Proof. intros Ha w Hw. by exists a, w. Qed.
Lemma runs_get {A} I (f : world → IO A) Q :
  (∀ w0, I w0 → runs (λ w, I w ∧ w = w0) (f w0) Q) → runs I (get ≫= f) Q.
Proof.
  intros Hf w Hw. destruct (Hf w Hw w) as (a & w' & E & [? _] & ?); [done|]. by exists a, w'.
Qed.
Lemma runs_lift {A B} I (r : result A) (f : A → IO B) Q a :
  r = Ok a → runs I (f a) Q → runs I (lift r ≫= f) Q.
Proof. intros -> Hf w Hw. by apply Hf. Qed.
Lemma runs_weaken {A} I (m : IO A) Q (R : A → Prop) :
  runs I m Q → (∀ a, Q a → R a) → runs I m R.
Proof. intros Hm Hq w Hw. destruct (Hm w Hw) as (a & w' & ? & ? & ?). exists a, w'. auto. Qed.

(** ** The invariant *)

Definition cache_ok (p : packet_ctx) : Prop :=
  zlen (arp_list p) = ARP_CACHE_LEN ∧ Forall item_ok (arp_list p).
Definition total_ok (f : lan_client_fragment) : Prop := 0 ≤ fr_total_len f ≤ ETHER_MTU.
Definition login_ok (l : lan_play) : Prop :=
  zlen (key l) = LP_KEY_LEN ∧ bytes_ok (key l) ∧
  ∀ name, username l = Some name → bytes_ok name ∧ zlen name < 65516.

Record state_ok (w : world) : Prop := mk_state_ok {
  st_client : client_ok (lp w);
  st_cache : cache_ok (pctx w);
  st_totals : Forall total_ok (frags (lp w));
  st_login : login_ok (lp w);
  st_pmtu : pmtu (lp w) = 0 ∨ MIN_FRAG_PAYLOAD_LEN ≤ pmtu (lp w) }.

(** A change of the packet context keeps the invariant if it keeps its part. *)
Lemma state_ok_pctx w p e c :
  state_ok w → pctx_ok p → cache_ok p →
  state_ok (mk_world (set_pctx p (lp w)) e c).
Proof. intros [[] ? ? ? ?] ??. constructor; try done. Qed.

Lemma sent_state_ok frame w w' : sent frame w w' → state_ok w → state_ok w'.
Proof.
  intros Hs Hw. pose proof (sent_pctx_ok _ _ _ Hs (cl_pctx _ (st_client _ Hw))) as Hp.
  pose proof (sent_arp_list _ _ _ Hs) as Ha.
  destruct Hs as (buf & _ & _ & ->).
  apply (state_ok_pctx w (count_upload (zlen frame) (set_buffer buf (pctx w)))); [done..|].
  apply (st_cache _ Hw).
Qed.

Lemma tick_state_ok w : state_ok w → state_ok (tick w).
Proof. by intros []. Qed.

(** The invariant with a reassembly table that stays as it is. *)
Definition keeps (F : list lan_client_fragment) (w : world) : Prop :=
  state_ok w ∧ frags (lp w) = F.

Lemma sent_keeps F frame w w' : sent frame w w' → keeps F w → keeps F w'.
Proof.
  intros Hs [Hw <-]. split; [by eapply sent_state_ok|]. by destruct Hs as (? & _ & _ & ->).
Qed.

Lemma runs_send_frame F m packet len :
  mac_ok m → bytes_ok packet → 0 ≤ len ≤ zlen packet → len ≤ 2033 →
  runs (keeps F) (send_ether m ETHER_TYPE_IPV4 [mk_payload packet len]) (λ _, True).
Proof.
  intros ???? w Hw. destruct (send_ipv4_frame m packet len w) as (w' & E & Hs); [apply Hw|done..|].
  exists (env_pcap (calls w)), w'. split_and!; [done|by eapply sent_keeps|done].
Qed.

Lemma runs_arp_get_mac F dst :
  ip_ok dst → runs (keeps F) (arp_get_mac_by_ip dst) (λ r, ∀ m, r = Some m → mac_ok m).
Proof.
  intros Hd w Hw. unfold arp_get_mac_by_ip, gets, time, mbind, M_bind.
  assert (keeps F (tick w)) as Hw1 by (split; [apply tick_state_ok|]; apply Hw).
  destruct (arp_find (arp_list (pctx w)) (env_time (calls w)) dst) as [item|] eqn:E.
  - exists (Some (item_mac item)), (tick w). split_and!; [done|done|].
    intros m [= <-]. destruct (st_cache _ (proj1 Hw)) as [_ Hok]. revert E.
    induction Hok as [|x l Hx _ IH]; cbn [arp_find]; [done|].
    case_if; [intros [= <-]; apply Hx|done].
  - destruct (send_arp_request_ok dst (tick w)) as (w' & -> & Hs); [apply Hw|done|].
    exists None, w'. split_and!; [done|by eapply sent_keeps|done].
Qed.

Lemma runs_on_broadcast F packet len :
  bytes_ok packet → 0 ≤ len ≤ zlen packet → len ≤ 2033 →
  runs (keeps F) (lan_client_on_broadcast packet len) (λ _, True).
Proof.
  intros Hb Hl Hl' w Hw. unfold lan_client_on_broadcast, get, mbind at 1, M_bind at 1. case_if.
  - unfold modify, mbind at 1, M_bind at 1. apply (runs_send_frame F); [|done..|].
    { split; [done|Sample.bytes_solve]. }
    destruct Hw as [[[] ? ? ? ?] ?]. by split.
  - unfold arp_for_each. unfold time, mbind at 2, M_bind at 2.
    pose proof (st_cache _ (proj1 Hw)) as [Hz Hok].
    destruct (lan_client_cb_loop packet len (env_time (calls w)) (arp_list (pctx w)) 100 0 (tick w))
      as (w' & Er & P' & L' & W' & _); [apply Hw|done..| |].
    { unfold zlen, ARP_CACHE_LEN in Hz. lia. }
    exists 0, w'. erewrite bind_of_ok by exact Er. split_and!; [done| |done].
    split; [|by rewrite W'; apply Hw].
    destruct w' as [l' tr' c']. cbn [lp] in W'. rewrite W'.
    apply (state_ok_pctx (tick w)); [apply tick_state_ok, Hw|done|].
    destruct L' as (_ & _ & _ & _ & Ha & _). unfold cache_ok. by rewrite Ha.
Qed.

Lemma keeps_lan_client_process F packet len :
  bytes_ok packet → 20 ≤ zlen packet → 0 ≤ len ≤ zlen packet → len ≤ 2033 →
  runs (keeps F) (lan_client_process packet len) (λ _, True).
Proof.
  intros Hb H20 Hl Hl'. unfold lan_client_process. case_if; [by apply runs_ret|].
  intros w Hw. unfold gets, mbind at 1, M_bind at 1.
  set (dst := take 4 (drop 16 packet)).
  assert (ip_ok dst) as Hd by (split; [unfold dst; len_lia|unfold dst; eauto with bytes]).
  erewrite lift_bind by (apply mem_read_ok; off_lia).
  change (take (Z.to_nat 4) (drop (Z.to_nat IPV4_OFF_DST) packet)) with dst.
  case_if; [by apply (runs_on_broadcast F)|].
  apply (runs_bind (keeps F) _ _ _ (λ _, True) (runs_arp_get_mac F dst Hd)); [|done].
  intros [m|] Hm; [|by apply runs_ret]. apply runs_send_frame; auto.
Qed.

Lemma runs_lan_client_process packet len :
  bytes_ok packet → 20 ≤ zlen packet → 0 ≤ len ≤ zlen packet → len ≤ 2033 →
  runs state_ok (lan_client_process packet len) (λ _, True).
Proof.
  intros ???? w Hw. destruct (keeps_lan_client_process (frags (lp w)) packet len) with w
    as (a & w' & E & [? _] & _); try done. by exists a, w'.
Qed.

(** ** Fragments *)

Definition header_ok (h : lan_client_fragment_header) : Prop :=
  ip_ok (h_src h) ∧ 0 ≤ h_part h < 256 ∧ 0 ≤ h_total_part h < 256 ∧
  0 ≤ h_len h < 65536 ∧ 0 ≤ h_pmtu h < 65536.

Lemma parse_frag_header_total packet :
  bytes_ok packet → LC_FRAG_HEADER_LEN ≤ zlen packet →
  ∃ h, parse_frag_header packet = Ok h ∧ header_ok h.
Proof.
  intros Hb Hl. unfold parse_frag_header.
  do 2 (erewrite ok_bind by (apply mem_read_ok; off_lia)).
  destruct (READ_NET16_total packet LC_FRAG_ID) as (v1 & E1 & R1); [off_lia..|].
  destruct (READ_NET8_total packet LC_FRAG_PART) as (v2 & E2 & R2); [done|off_lia..|].
  destruct (READ_NET8_total packet LC_FRAG_TOTAL_PART) as (v3 & E3 & R3); [done|off_lia..|].
  destruct (READ_NET16_total packet LC_FRAG_LEN) as (v4 & E4 & R4); [off_lia..|].
  destruct (READ_NET16_total packet LC_FRAG_PMTU) as (v5 & E5 & R5); [off_lia..|].
  rewrite E1, E2, E3, E4, E5. eexists. split; [done|].
  split_and!; cbn [h_src h_part h_total_part h_len h_pmtu]; try lia.
  split; [off_lia|eauto with bytes].
Qed.

(** What the handler needs of a fragment header and does not check. *)
Definition frag_safe (h : lan_client_fragment_header) : Prop :=
  h_part h < 32 ∧ h_total_part h < 32 ∧ h_pmtu h * h_part h + h_len h ≤ ETHER_MTU.

Definition slots_ok (F : list lan_client_fragment) : Prop :=
  Forall frag_ok F ∧ Forall total_ok F.

Lemma slots_ok_insert F i f : slots_ok F → frag_ok f → total_ok f → slots_ok (<[i := f]> F).
Proof. intros [??] ??. split; by apply Forall_insert. Qed.

Lemma oldest_frag_bound c F i d o md j :
  (∀ k, o = Some k → (k < i + length F)%nat) →
  oldest_frag c F i d o = (md, Some j) → (j < i + length F)%nat.
Proof.
  revert i d o. induction F as [|f F IH]; intros i d o Ho; cbn [oldest_frag length].
  { intros [= _ ->]. by apply Ho. }
  assert (∀ k, o = Some k → (k < S i + length F)%nat) as Ho'
    by (intros k Hk; specialize (Ho k Hk); simpl in Ho; lia).
  assert (∀ k, Some i = Some k → (k < S i + length F)%nat) as Hi by (intros k [= <-]; lia).
  repeat case_if; intros E'; apply IH in E'; done || lia.
Qed.

Lemma claim_slots n h F i : slots_ok F → slots_ok (alter (claim_frag n h) i F).
Proof.
  intros [Hf Ht]. split; apply Forall_alter; auto; intros f Hf'; intros; done.
Qed.

Lemma select_frag_slots l h :
  slots_ok (frags l) →
  ∃ slot n F, select_frag l h = (slot, retable n F l) ∧ slots_ok F ∧
    length F = length (frags l) ∧ ∀ i, slot = Some i → (i < length F)%nat.
Proof.
  intros Hs. unfold select_frag.
  assert (l = retable (local_id l) (frags l) l) as Hl by (by destruct l).
  assert (∀ i, (i < length (frags l))%nat → ∃ slot n F,
    (Some i, set_local_id (s32 (local_id l + 1))
       (set_frags (alter (claim_frag (local_id l) h) i (frags l)) l)) = (slot, retable n F l) ∧
    slots_ok F ∧ length F = length (frags l) ∧ ∀ i, slot = Some i → (i < length F)%nat) as Htake.
  { intros i Hi. eexists _, _, _. split; [reflexivity|]. split; [by apply claim_slots|].
    split; [apply length_alter|]. intros ? [= <-]. by rewrite length_alter. }
  assert (∃ slot n F, (@None nat, l) = (slot, retable n F l) ∧ slots_ok F ∧
    length F = length (frags l) ∧ ∀ i, slot = Some i → (i < length F)%nat) as Hnone.
  { exists None, (local_id l), (frags l). by rewrite <- Hl. }
  assert (∀ p i, find_index p (frags l) = Some i → (i < length (frags l))%nat) as Hfi.
  { intros p i [(x & Hx & _) _]%find_index_Some. by eapply lookup_lt_Some. }
  destruct (find_index (frag_matches h) (frags l)) as [i|] eqn:E1.
  { exists (Some i), (local_id l), (frags l). rewrite <- Hl. split_and!; try done.
    intros ? [= <-]. by eapply Hfi. }
  destruct (find_index frag_free (frags l)) as [i|] eqn:E2; [by eapply Htake, Hfi|].
  destruct (oldest_frag (local_id l) (frags l) 0 0 None) as [md [i|]] eqn:E3; [|done].
  case_if; [|done]. apply Htake. by apply oldest_frag_bound in E3.
Qed.

Lemma add_part_safe h packet f :
  bytes_ok packet → LC_FRAG_HEADER_LEN + ETHER_MTU ≤ zlen packet →
  header_ok h → frag_safe h → frag_ok f → total_ok f →
  ∃ f', add_part h packet f = Ok f' ∧ frag_ok f' ∧ total_ok f'.
Proof.
  intros Hb Hl (_ & Hp & Ht & Hh & Hm) (H32 & _ & Hfit) [Hfl Hfb] Hto. unfold add_part, shl32.
  rewrite (proj2 (andb_true_iff _ _)) by lia. cbn [mbind result_bind].
  assert (0 ≤ h_pmtu h * h_part h) by nia.
  rewrite mem_read_ok by off_lia. cbn [mbind result_bind].
  set (data := take _ _). assert (zlen data = h_len h) as Hd by (unfold data; off_lia).
  destruct (mem_write (fr_buffer f) (h_pmtu h * h_part h) data) as [buf|] eqn:Ew.
  2: { rewrite mem_write_ok in Ew by lia. done. }
  cbn [mbind result_bind]. eexists. split; [reflexivity|]. split.
  - split; cbn [fr_buffer].
    + unfold zlen in *. by rewrite (mem_write_length _ _ _ _ Ew).
    + eapply mem_write_bytes_ok; [done| |exact Ew]. unfold data. eauto with bytes.
  - unfold total_ok in *. cbn [fr_total_len]. destruct (Z.eqb_spec (h_part h) (h_total_part h - 1)) as [He|]; [|done].
    rewrite <- He, (Z.mul_comm (h_part h)). unfold ETHER_MTU in *. rewrite u16_small; lia.
Qed.

Lemma state_ok_frags w n F :
  state_ok w → slots_ok F → length F = length (frags (lp w)) → state_ok (on_lp (retable n F) w).
Proof.
  intros [Hc ? ? ? ?] [??] Hl. constructor; try done. by apply retable_client_ok.
Qed.

(** What the handler computes for a safe fragment. *)
Lemma process_frag_compute packet len h w :
  bytes_ok packet → LC_FRAG_HEADER_LEN + ETHER_MTU ≤ zlen packet →
  parse_frag_header packet = Ok h → header_ok h → frag_safe h → state_ok w →
  ∃ slot n F, select_frag (lp w) h = (slot, retable n F (lp w)) ∧
    slots_ok F ∧ length F = length (frags (lp w)) ∧
    match slot with
    | None => lan_client_process_frag packet len w = Ok (0, on_lp (retable n F) w)
    | Some i => ∃ f f' (b : bool), F !! i = Some f ∧ add_part h packet f = Ok f' ∧
        frag_ok f' ∧ total_ok f' ∧
        lan_client_process_frag packet len w =
          if b then lan_client_process (fr_buffer f') (fr_total_len f')
                      (on_lp (retable n (<[i := set_used 0 f']> F)) w)
          else Ok (0, on_lp (retable n (<[i := f']> F)) w)
    end.
Proof.
  intros Hb Hl E Hh Hs Hw.
  destruct (select_frag_slots (lp w) h) as (slot & n & F & Hsel & HF & HFl & Hi);
    [split; [apply Hw|apply Hw]|].
  exists slot, n, F. split_and!; [done..|]. unfold lan_client_process_frag.
  destruct slot as [i|]; cycle 1.
  { erewrite lift_bind by exact E. unfold get, mbind, M_bind. by rewrite Hsel. }
  specialize (Hi i eq_refl).
  destruct (lookup_lt_is_Some_2 F i Hi) as [f Hf].
  destruct (add_part_safe h packet f) as (f' & Ea & Hfo & Hft); try done;
    [apply (Forall_lookup_1 _ _ _ _ (proj1 HF) Hf)|apply (Forall_lookup_1 _ _ _ _ (proj2 HF) Hf)|].
  assert (∃ m, shl32 (Z.lnot 0) (h_total_part h) = Ok m) as [m Em].
  { unfold shl32. destruct Hs as (_ & Ht & _), Hh as (_ & _ & Ht0 & _).
    rewrite (proj2 (andb_true_iff _ _)) by lia. by eexists. }
  exists f, f', (Z.lnot m =? fr_part f'). split_and!; [done..|].
  erewrite lift_bind by exact E. unfold get, mbind at 1, M_bind at 1. rewrite Hsel.
  unfold modify, mbind at 1, M_bind at 1. cbn [frags set_local_id retable set_frags].
  change (set_lp (set_local_id n (set_frags F (lp w))) w) with (on_lp (retable n F) w).
  erewrite lift_bind by (apply arr_get_nat, Hf).
  erewrite lift_bind by exact Ea. unfold mbind at 1, M_bind at 1.
  erewrite lift_bind by exact Em. case_if; [|done].
  unfold mbind, M_bind. f_equal. unfold on_lp, set_lp, retable. f_equal.
  cbn [lp set_frags frags set_local_id]. by rewrite list_insert_insert_eq.
Qed.

(** In both outcomes the slot is written and the rest of the table is kept. *)
Lemma process_frag_finish (b : bool) i n F f' w res :
  state_ok w → slots_ok F → length F = length (frags (lp w)) → frag_ok f' → total_ok f' →
  res = (if b then lan_client_process (fr_buffer f') (fr_total_len f')
                     (on_lp (retable n (<[i := set_used 0 f']> F)) w)
         else Ok (0, on_lp (retable n (<[i := f']> F)) w)) →
  ∃ r w', res = Ok (r, w') ∧ state_ok w' ∧
    frags (lp w') = <[i := if b then set_used 0 f' else f']> F.
Proof.
  intros Hw HF HFl Hfo Hft ->.
  assert (∀ g, frag_ok g → total_ok g → state_ok (on_lp (retable n (<[i := g]> F)) w)) as Hput.
  { intros g Hg1 Hg2. apply state_ok_frags; [done|by apply slots_ok_insert|].
    by rewrite length_insert. }
  destruct b; [|eexists _, _; split_and!; [done|by apply Hput|done]].
  pose proof Hfo as [Hfl Hfb]. pose proof Hft as Hft'. unfold total_ok, ETHER_MTU in Hft'.
  destruct (keeps_lan_client_process (<[i := set_used 0 f']> F) (fr_buffer f') (fr_total_len f'))
    with (on_lp (retable n (<[i := set_used 0 f']> F)) w) as (r & w' & E & [? ?] & _);
    [done|off_lia|off_lia|lia|split; [by apply Hput|done]|].
  by exists r, w'.
Qed.

Lemma runs_process_frag packet len :
  bytes_ok packet → LC_FRAG_HEADER_LEN + ETHER_MTU ≤ zlen packet →
  (∀ h, parse_frag_header packet = Ok h → frag_safe h) →
  runs state_ok (lan_client_process_frag packet len) (λ _, True).
Proof.
  intros Hb Hl Hsafe w Hw.
  destruct (parse_frag_header_total packet) as (h & E & Hh); [done|off_lia|].
  destruct (process_frag_compute packet len h w) as (slot & n & F & _ & HF & HFl & Hslot); auto.
  destruct slot as [i|].
  - destruct Hslot as (f & f' & b & Hf & Ha & Hfo & Hft & Hres).
    destruct (process_frag_finish b i n F f' w _ Hw HF HFl Hfo Hft Hres) as (r & w' & ? & ? & _).
    by exists r, w'.
  - eexists _, _. split_and!; [exact Hslot|by apply state_ok_frags|done].
Qed.

(** ** Packets in reassembly do not disturb each other *)

Lemma find_index_other {A} (p : A → bool) l i j x :
  find_index p l = Some j → i ≠ j → p x = false → find_index p (<[i := x]> l) = Some j.
Proof.
  intros [(y & Hy & Hp) Hb]%find_index_Some Hij Hx. apply find_index_Some. split.
  - exists y. by rewrite list_lookup_insert_ne.
  - intros k z Hk. destruct (decide (i = k)) as [->|].
    + intros Hz. apply list_lookup_insert_Some in Hz as [(_ & <- & _)|(? & _)]; done.
    + rewrite list_lookup_insert_ne by done. by apply Hb.
Qed.

(** The slot taken for [h]: the one of its packet, or a free one. *)
Lemma select_frag_usable l h :
  is_Some (find_index (frag_matches h) (frags l)) ∨ is_Some (find_index frag_free (frags l)) →
  ∃ i n f0 f, frags l !! i = Some f0 ∧ (frag_matches h f0 = true ∨ fr_used f0 = 0) ∧
    select_frag l h = (Some i, retable n (<[i := f]> (frags l)) l) ∧ frag_matches h f = true.
Proof.
  intros Hu. unfold select_frag.
  destruct (find_index (frag_matches h) (frags l)) as [i|] eqn:E1.
  - apply find_index_Some in E1 as [(f & Hf & Hm) _].
    exists i, (local_id l), f, f. rewrite list_insert_id by done.
    split_and!; [done|by left| |done]. by destruct l.
  - destruct Hu as [[? ?]|[i Hi]]; [done|]. rewrite Hi.
    apply find_index_Some in Hi as [(f & Hf & Hm) _].
    exists i, (s32 (local_id l + 1)), f, (claim_frag (local_id l) h f).
    rewrite (alter_as_insert _ _ _ f) by done. split_and!; [done| |done|].
    + right. unfold frag_free in Hm. lia.
    + unfold frag_matches, claim_frag. cbn [fr_used fr_id fr_src].
      by rewrite Z.eqb_refl, CMP_IPV4_refl.
Qed.

Lemma add_part_matches h h' packet f f' :
  add_part h' packet f = Ok f' → frag_matches h f' = frag_matches h f.
Proof.
  unfold add_part. destruct (shl32 _ _); [|done]. destruct (mem_read _ _ _); [|done].
  cbn [mbind result_bind]. destruct (mem_write _ _ _); [|done]. by intros <-%Ok_inj.
Qed.

Lemma frag_matches_key h h' f :
  ip_ok (h_src h) → ip_ok (h_src h') → frag_matches h f = true → frag_matches h' f = true →
  h_id h = h_id h' ∧ h_src h = h_src h'.
Proof.
  intros [Hl _] [Hl' _]. unfold frag_matches, CMP_IPV4. rewrite !andb_true_iff, !bool_decide_eq_true.
  intros [[_ Hi] Hs] [[_ Hi'] Hs']. split; [lia|].
  rewrite (take_ge (h_src h)) in Hs by lia. rewrite (take_ge (h_src h')) in Hs' by lia. congruence.
Qed.
End Safety.

Section Interleaving.
Context `{Env}.

(** (C39) Fragments of different packets may be interleaved: handling a safe
    fragment of another packet (another sender or another id) while a slot
    is in use for it or free leaves the parts of this packet that have
    arrived, and its claim to a slot, as they were. *)
Theorem reassembly_independent P pk id R packet len h w :
  0 < P < 65536 → bytes_ok pk → 20 ≤ zlen pk ≤ ETHER_MTU → R ≠ [] →
  assembling P pk id R (frags (lp w)) → state_ok w →
  bytes_ok packet → LC_FRAG_HEADER_LEN + ETHER_MTU ≤ zlen packet →
  parse_frag_header packet = Ok h → frag_safe h →
  (h_src h, h_id h) ≠ (pk_src pk, u16 id) →
  is_Some (find_index (frag_matches h) (frags (lp w))) ∨
    is_Some (find_index frag_free (frags (lp w))) →
  ∃ r w', lan_client_process_frag packet len w = Ok (r, w') ∧ state_ok w' ∧
    assembling P pk id R (frags (lp w')).
Proof.
  intros HP Hpk Hlen HR [Hok Ha] Hw Hb Hl E Hs Hkey Hu.
  destruct (parse_frag_header_total packet) as (h' & E' & Hh); [done|off_lia|].
  assert (h' = h) as -> by congruence.
  destruct (process_frag_compute packet len h w) as (slot & n & F & Hsel & HF & HFl & Hslot); auto.
  destruct (select_frag_usable (lp w) h Hu) as (i & n' & f0 & f & Hf0 & Hold & Hsel' & Hm).
  rewrite Hsel' in Hsel. injection Hsel as <- Hret.
  assert (F = <[i := f]> (frags (lp w))) as -> by congruence.
  pose proof (lookup_lt_Some _ _ _ Hf0) as Hi.
  destruct Hslot as (f1 & f' & b & Hf & Hadd & Hfo & Hft & Hres).
  rewrite list_lookup_insert_eq in Hf by done. injection Hf as <-.
  destruct (process_frag_finish b i n _ f' w _ Hw HF HFl Hfo Hft Hres) as (r & w' & Er & Hw' & Hfr).
  exists r, w'. split_and!; [done..|]. rewrite Hfr, list_insert_insert_eq.
  set (ours := hdr P pk id 0) in *.
  assert (∀ g, frag_matches h g = true → frag_matches ours g = false) as Hdiff.
  { intros g Hg. apply not_true_iff_false. intros Hg'. apply Hkey.
    destruct (frag_matches_key h ours g) as [-> ->]; [apply Hh|apply pk_src_ok; done || lia|done..]. }
  assert (frag_matches ours (if b then set_used 0 f' else f') = false) as Hg.
  { destruct b; [done|]. rewrite (add_part_matches _ _ _ _ _ Hadd). by apply Hdiff. }
  split; [apply Forall_insert; [done|by destruct b]|].
  destruct R as [|k R]; [done|]. destruct Ha as (j & fj & Hj & Hfj & Hp).
  assert (i ≠ j).
  { intros ->. assert (f0 = fj) as -> by congruence.
    pose proof (partial_matches P pk id _ _ Hp) as Hmj.
    destruct Hold as [Hold|Hold]; [fold ours in Hmj; by rewrite (Hdiff fj Hold) in Hmj|].
    by rewrite (pt_used _ _ _ _ _ Hp) in Hold. }
  exists j, fj. split_and!; [by apply find_index_other|by rewrite list_lookup_insert_ne|done].
Qed.
End Interleaving.

Section Receiving.
Context `{Env}.

Lemma sent_udp_state_ok ds w : state_ok w → state_ok (sent_udp ds w).
Proof.
  revert w. induction ds as [|d ds IH]; intros w Hw; simpl; [done|]. apply IH.
  destruct Hw as [[] ? ? ? ?]. constructor; try done.
Qed.

Lemma runs_process_auth_me packet len :
  bytes_ok packet → 1 ≤ len ≤ zlen packet → len < 65536 →
  runs state_ok (lan_client_process_auth_me packet len) (λ _, True).
Proof.
  intros Hb Hl Hl' w Hw. destruct packet as [|b packet]; [unfold zlen in Hl; simpl in Hl; lia|].
  pose proof (st_login _ Hw) as (Hk & Hkb & Hname).
  destruct (username (lp w)) as [name|] eqn:Eu.
  - destruct (Hname name eq_refl) as [Hnb Hnl]. destruct (decide (b = 0)) as [->|Hb0].
    + assert (∃ challenge stale, packet = challenge ++ stale ∧ len = zlen (0 :: challenge))
        as (challenge & stale & -> & ->).
      { exists (take (Z.to_nat (len - 1)) packet), (drop (Z.to_nat (len - 1)) packet).
        split; [by rewrite take_drop|len_lia]. }
      apply Forall_cons_iff in Hb as [_ [Hb _]%Forall_app].
      rewrite (auth_me_ok w name) by (done || len_lia).
      eexists _, _. split_and!; [done|by apply sent_udp_state_ok|done].
    + unfold lan_client_process_auth_me, get, mbind at 1, M_bind at 1. rewrite Eu.
      erewrite lift_bind by reflexivity. rewrite (proj2 (Z.eqb_neq _ _) Hb0). by apply runs_ret.
  - unfold lan_client_process_auth_me, get, mbind at 1, M_bind at 1. rewrite Eu.
    eexists _, _. split_and!; [done| |done]. by destruct Hw.
Qed.

(** ** Every datagram *)

(** The datagrams the handler can take: their IPv4 packet fits the send
    buffer; a fragment header stays within the slot and the shift; a login
    message is not empty.  The relay is trusted for these: the code checks
    none of them. *)
Definition datagram_safe (l : lan_play) (d : list Z) : Prop :=
  match d with
  | [] => True
  | b :: payload =>
      let type := Z.land b 0x7f in
      let packet := payload ++ drop (length d) (client_buf l) in
      (type = LAN_CLIENT_TYPE_IPV4 → zlen payload ≤ 2033) ∧
      (type = LAN_CLIENT_TYPE_IPV4_FRAG →
         ∀ h, parse_frag_header packet = Ok h → frag_safe h) ∧
      (type = LAN_CLIENT_TYPE_AUTH_ME → payload ≠ [])
  end.

Lemma received_state_ok d w :
  state_ok w → bytes_ok d → zlen d ≤ CLIENT_RECV_BUF_LEN → state_ok (received d w).
Proof.
  intros Hw Hd Hl. destruct Hw as [Hc ? ? ? ?]. constructor; try done. by apply received_client_ok.
Qed.

Lemma lan_client_recv_ok_safe d w :
  state_ok w → bytes_ok d → zlen d ≤ CLIENT_RECV_BUF_LEN → datagram_safe (lp w) d →
  ∃ w', lan_client_recv d w = Ok ((), w') ∧ state_ok w'.
Proof.
  intros Hw Hb Hl Hs. pose proof (st_client _ Hw) as Hc. pose proof (cl_buf _ Hc) as Hcb.
  assert (∀ {A} (m : IO A) w1, state_ok w1 → runs state_ok m (λ _, True) →
    ∃ w', (_ ← m; mret ()) w1 = Ok ((), w') ∧ state_ok w') as Hdo.
  { intros A m w1 Hw1 Hm. destruct (Hm w1 Hw1) as (a & w' & E & Hw' & _).
    exists w'. split; [|done]. by erewrite bind_of_ok. }
  destruct d as [|b payload].
  { exists (on_lp (set_client_buf (client_buf (lp w))) w). split; [|by destruct Hw as [[] ? ? ? ?]].
    unfold lan_client_recv, lan_client_alloc_cb, get, mbind, M_bind, mret, M_ret. rewrite take_nil.
    unfold lift. rewrite mem_write_ok by len_lia. done. }
  rewrite lan_client_recv_ok by done.
  set (packet := payload ++ drop (S (length payload)) (client_buf (lp w))).
  destruct Hs as (Hs1 & Hs2 & Hs3).
  pose proof (received_state_ok _ w Hw Hb Hl) as Hw0. apply Forall_cons_iff in Hb as [_ Hb].
  assert (bytes_ok packet) as Hpb by (apply bytes_ok_app; [done|apply bytes_ok_drop, Hc]).
  assert (zlen packet = 4095) as Hpl by (unfold packet; off_lia).
  assert (zlen payload ≤ 4095) by off_lia.
  assert (∀ x, (Z.land b 127 =? x) = true → Z.land b 127 = x) as Heq by (intros; lia).
  repeat case_if.
  - by eexists.
  - apply Hdo; [done|]. apply runs_lan_client_process; [done|lia|off_lia|].
    by apply Hs1, Heq.
  - apply Hdo; [done|]. apply runs_process_frag; [done|off_lia|]. apply Hs2. by apply Heq.
  - destruct (runs_process_auth_me packet (zlen payload) Hpb) with (received (b :: payload) w)
      as (a & w' & E' & Hw' & _); [|lia|done|].
    + specialize (Hs3 (Heq _ E2)). destruct payload; [done|]. len_lia.
    + destruct a. by exists w'.
  - eexists. split; [done|]. by destruct Hw0.
  - by eexists.
Qed.

(** Memory safety of the receive path: from a well-formed state every
    datagram of at most 4096 bytes that is safe in the sense of
    [datagram_safe] is handled to the end, with no access out of bounds, no
    failed assertion and no bad shift, whatever the outside answers, and
    leaves a well-formed state. *)
Theorem lan_client_recv_safe d w :
  state_ok w → bytes_ok d → zlen d ≤ CLIENT_RECV_BUF_LEN → datagram_safe (lp w) d →
  ∃ w', lan_client_recv d w = Ok ((), w') ∧ state_ok w'.
Proof. apply lan_client_recv_ok_safe. Qed.
End Receiving.

(** * Datagrams that stop the program *)

Section Faults.
Context `{Env}.

(** The handler does not check the fragment header it trusts: a part
    number of 32 or more makes it shift out of range, and a part that would
    end beyond the 1500 bytes of the slot is copied out of bounds. *)
Theorem unsafe_fragment_faults packet len h w :
  state_ok w → bytes_ok packet → LC_FRAG_HEADER_LEN ≤ zlen packet →
  parse_frag_header packet = Ok h →
  is_Some (find_index (frag_matches h) (frags (lp w))) ∨
    is_Some (find_index frag_free (frags (lp w))) →
  (32 ≤ h_part h → lan_client_process_frag packet len w = Fail ShiftRange) ∧
  (h_part h < 32 → ETHER_MTU < h_pmtu h * h_part h + h_len h →
   lan_client_process_frag packet len w = Fail OutOfBounds).
Proof.
  intros Hw Hb Hl E Hu.
  destruct (parse_frag_header_total packet) as (h' & E' & (Hsrc & Hp & Ht & Hh & Hm)); [done..|].
  assert (h' = h) as -> by congruence. clear E'.
  destruct (select_frag_usable (lp w) h Hu) as (i & n & f0 & f & Hf0 & _ & Hsel & _).
  pose proof (lookup_lt_Some _ _ _ Hf0) as Hi.
  destruct (select_frag_slots (lp w) h) as (slot & n' & F & Hsel' & [HF _] & _); [split; apply Hw|].
  rewrite Hsel in Hsel'. injection Hsel' as <- Hret.
  assert (F = <[i := f]> (frags (lp w))) as -> by congruence.
  assert ((<[i := f]> (frags (lp w))) !! i = Some f) as Hf by (by apply list_lookup_insert_eq).
  pose proof (Forall_lookup_1 _ _ _ _ HF Hf) as [Hfl _].
  assert (lan_client_process_frag packet len w =
    (f' ← lift (add_part h packet f);
     modify (on_lp (λ l, set_frags (<[i := f']> (frags l)) l));;
     mask ← lift (shl32 (Z.lnot 0) (h_total_part h));
     if Z.lnot mask =? fr_part f' then
       modify (on_lp (λ l, set_frags (<[i := set_used 0 f']> (frags l)) l));;
       lan_client_process (fr_buffer f') (fr_total_len f')
     else mret 0) (on_lp (retable n (<[i := f]> (frags (lp w)))) w)) as ->.
  { unfold lan_client_process_frag. erewrite lift_bind by exact E.
    unfold get, mbind at 1, M_bind at 1. rewrite Hsel. unfold modify at 1. unfold mbind at 1, M_bind at 1.
    cbn [frags set_local_id retable set_frags].
    etrans; [apply (lift_bind _ _ _ f), arr_get_nat, Hf|]. done. }
  split; intros Hpart; [|intros Hbig]; unfold mbind at 1, M_bind at 1, lift at 1;
    unfold add_part, shl32.
  - by rewrite (proj2 (andb_false_iff _ _)) by lia.
  - rewrite (proj2 (andb_true_iff _ _)) by lia. cbn [mbind result_bind].
    destruct (mem_read packet LC_FRAG_HEADER_LEN (h_len h)) as [data|e] eqn:Ed; cbn [mbind result_bind].
    + apply mem_read_length in Ed. unfold mem_write, in_range.
      by rewrite (proj2 (andb_false_iff _ _)) by lia.
    + unfold mem_read in Ed. destruct (in_range _ _ _) in Ed; [done|]. by injection Ed as <-.
Qed.

(** An IPv4 datagram larger than what the send buffer holds with the
    Ethernet header, for a destination whose MAC address is known, runs into
    the assertion of [send_payloads]: one datagram from the relay can stop
    the client. *)
Theorem oversized_packet_asserts payload w m now mac :
  state_ok w → neighbours now (pctx w) m → now ≤ env_time (calls w) →
  bytes_ok payload → 2034 ≤ zlen payload ≤ 4095 →
  let dst := take 4 (drop 16 payload) in
  dst ≠ NONE_IP → IS_BROADCAST dst (subnet_net (pctx w)) (subnet_mask (pctx w)) = false →
  table_lookup m (env_time (calls w)) dst = Some mac →
  lan_client_recv (LAN_CLIENT_TYPE_IPV4 :: payload) w = Fail AssertFailure.
Proof.
  intros Hw Hn Ht Hb Hl dst Hne Hbc El. pose proof (st_client _ Hw) as Hc.
  rewrite lan_client_recv_ok by (done || off_lia).
  change (Z.land LAN_CLIENT_TYPE_IPV4 127 =? LAN_CLIENT_TYPE_KEEPALIVE) with false.
  change (Z.land LAN_CLIENT_TYPE_IPV4 127 =? LAN_CLIENT_TYPE_IPV4) with true. cbv iota.
  set (packet := payload ++ _).
  assert (bytes_ok packet) as Hpb by (apply bytes_ok_app; [done|apply bytes_ok_drop, Hc]).
  assert (20 ≤ zlen packet) by (unfold packet; len_lia).
  assert (zlen payload ≤ zlen packet) by (unfold packet; len_lia).
  assert (take 4 (drop 16 packet) = dst) as Hd.
  { unfold packet, dst. rewrite drop_app_le by len_lia. apply take_app_le. len_lia. }
  unfold mbind at 1, M_bind at 1. rewrite lan_client_process_unicast; rewrite ?Hd; try done; [|lia].
  destruct (arp_get_mac_hit dst (received (LAN_CLIENT_TYPE_IPV4 :: payload) w) m now mac) as [E Hm];
    try done.
  { split; [unfold dst; len_lia|unfold dst; eauto with bytes]. }
  erewrite bind_of_ok by exact E. unfold send_ether, gets, mbind at 1, M_bind at 1.
  pose proof (pc_mac _ (cl_pctx _ Hc)) as Hmac.
  rewrite send_ether_ex_payload by (apply Hm || apply Hmac).
  rewrite send_payloads_assert; [done| | |].
  - constructor; [by apply ether_header_payload_ok|]. constructor; [|constructor].
    split_and!; cbn [plen ptr]; done || lia.
  - apply pctx_ok_buffer, Hc.
  - change (pctx (tick (received _ w))) with (pctx w).
    pose proof (pc_buffer_len _ (cl_pctx _ Hc)) as Hbl; fold (pctx w) in Hbl; rewrite Hbl.
    rewrite ether_frame_bytes by (apply Hm || apply Hmac).
    rewrite payload_bytes_cons. change (payload_bytes []) with (@nil Z). rewrite app_nil_r.
    unfold payload_data. cbn [plen ptr]. destruct Hm, Hmac.
    change (Types.mac (pctx w)) with (Types.mac (packet_ctx_of (lp w))). unfold ether_header. off_lia.
Qed.

(** A login datagram with no payload: the length of the challenge wraps
    to 65535 and, when the byte left in the receive buffer after the type
    byte is zero, the hash reads past the end of the buffer. *)
Theorem empty_challenge_overreads w :
  state_ok w → username (lp w) ≠ None → client_buf (lp w) !! 1%nat = Some 0 →
  lan_client_recv [LAN_CLIENT_TYPE_AUTH_ME] w = Fail OutOfBounds.
Proof.
  intros Hw Hu H1. pose proof (st_client _ Hw) as Hc. pose proof (cl_buf _ Hc) as Hcb.
  pose proof (st_login _ Hw) as (Hk & Hkb & _).
  rewrite lan_client_recv_ok by (done || off_lia).
  change (Z.land LAN_CLIENT_TYPE_AUTH_ME 127 =? LAN_CLIENT_TYPE_KEEPALIVE) with false.
  change (Z.land LAN_CLIENT_TYPE_AUTH_ME 127 =? LAN_CLIENT_TYPE_IPV4) with false.
  change (Z.land LAN_CLIENT_TYPE_AUTH_ME 127 =? LAN_CLIENT_TYPE_IPV4_FRAG) with false.
  change (Z.land LAN_CLIENT_TYPE_AUTH_ME 127 =? LAN_CLIENT_TYPE_AUTH_ME) with true. cbv iota.
  cbn [app length]. rewrite (drop_S _ _ _ H1). set (w0 := received _ w).
  unfold lan_client_process_auth_me, get, mbind at 1, M_bind at 1.
  change (username (lp w0)) with (username (lp w)).
  destruct (username (lp w)) as [name|]; [|done].
  erewrite lift_bind by reflexivity. cbn [Z.eqb].
  unfold mbind at 1, M_bind at 1, lift at 1. change (u16 (zlen [] - 1)) with 65535.
  change (key (lp w0)) with (key (lp w)). unfold auth_digest.
  rewrite (mem_read_all (key (lp w))) by (rewrite Hk; done). cbn [mbind result_bind].
  destruct (StreamFacts.SHA1Update_ok [] (key (lp w)) (Sha1.SHA1Init stack_ctx)) as (c1 & E1 & R1);
    [eauto with bytes|done|rewrite Hk; off_lia|by apply StreamFacts.ctx_rep_init|].
  rewrite Hk in E1. unfold LP_KEY_LEN in E1. rewrite E1. cbn [mbind result_bind].
  unfold mem_read, in_range.
  rewrite (proj2 (andb_false_iff _ _)); [done|]. right. apply Z.leb_gt. off_lia.
Qed.
End Faults.

(** * Start-up *)

Section Init.
Context `{Env}.

(** What [lan_client_init] leaves in the state, whatever libuv answers. *)
Definition initialised (w w' : world) : Prop :=
  client_ok (lp w') ∧ pctx w' = pctx w ∧ pmtu (lp w') = pmtu (lp w) ∧
  frags (lp w') = replicate 100 empty_frag ∧ frag_id (lp w') = 0 ∧ local_id (lp w') = 0 ∧
  next_real_broadcast (lp w') = true ∧ username (lp w') = username (lp w) ∧
  key (lp w') = key (lp w) ∧ server_addr (lp w') = server_addr (lp w).

Definition uv_step (c : uv_call) (w : world) : world := tick (log_event (EvUv c) w).
Lemma uv_bind {A} c (f : Z → IO A) w : (uv c ≫= f) w = f (env_uv (calls w)) (uv_step c w).
Proof. done. Qed.
Lemma modify_bind {A} g (f : () → IO A) w : (modify g ≫= f) w = f () (g w).
Proof. done. Qed.
Lemma get_bind {A} (f : world → IO A) w : (get ≫= f) w = f w w.
Proof. done. Qed.

Definition bind_calls (l : lan_play) : list uv_call :=
  if broadcast l then [UdpBind AF_INET SERVER_PORT]
  else if server_family l =? AF_INET6 then [UdpBind AF_INET6 0] else [].

Lemma reset_client_ok l :
  pctx_ok (packet_ctx_of l) → zlen (client_buf l) = CLIENT_RECV_BUF_LEN → bytes_ok (client_buf l) →
  client_ok (reset_client l).
Proof. intros. constructor; try done. apply LanSample.frags_ok. Qed.

Lemma lan_client_init_ok w :
  pctx_ok (pctx w) → zlen (client_buf (lp w)) = CLIENT_RECV_BUF_LEN → bytes_ok (client_buf (lp w)) →
  if negb (pmtu (lp w) =? 0) && (pmtu (lp w) <? MIN_FRAG_PAYLOAD_LEN)
  then lan_client_init w = Fail (ExitCalled 1)
  else ∃ r w', lan_client_init w = Ok (r, w') ∧ initialised w w' ∧
    let setup := UdpInit :: bind_calls (lp w) ++ [TimerInit ClientKeepaliveTimer; TimerInit RealBroadcastTimer] in
    let n := (calls w + length setup)%nat in
    let starts := [TimerStart ClientKeepaliveTimer 0 10000; TimerStart RealBroadcastTimer 0 1000; UdpRecvStart] in
    let failed k := negb (env_uv (n + k)%nat =? 0) in
    let done := if failed 0%nat then 1%nat else if failed 1%nat then 2%nat else 3%nat in
    r = env_uv (n + (done - 1))%nat ∧
    trace w' = trace w ++ (EvUv <$> setup ++ take done starts).
Proof.
  intros Hp Hb Hbb. pose proof (reset_client_ok (lp w) Hp Hb Hbb) as Hok.
  assert (∀ e c, initialised w (mk_world (reset_client (lp w)) e c)) as Hi by done.
  assert (∀ e c, initialised w (mk_world (reset_counters (reset_client (lp w))) e c)) as Hi'.
  { intros. split; [by destruct Hok|done]. }
  destruct (negb (pmtu (lp w) =? 0) && (pmtu (lp w) <? MIN_FRAG_PAYLOAD_LEN)) eqn:Eg;
    unfold lan_client_init; rewrite get_bind; cbv beta; rewrite Eg; [done|].
  rewrite modify_bind, uv_bind.
  set (w1 := uv_step UdpInit (on_lp reset_client w)).
  assert (∃ w2, (if broadcast (lp w) then _ ← uv (UdpBind AF_INET SERVER_PORT); mret ()
     else if server_family (lp w) =? AF_INET6 then _ ← uv (UdpBind AF_INET6 0); mret ()
     else mret ()) w1 = Ok ((), w2) ∧ lp w2 = reset_client (lp w) ∧
     calls w2 = (S (calls w) + length (bind_calls (lp w)))%nat ∧
     trace w2 = trace w ++ (EvUv <$> UdpInit :: bind_calls (lp w))) as (w2 & E2 & L2 & C2 & T2).
  { unfold bind_calls. repeat case_if; rewrite ?uv_bind; eexists; (split; [reflexivity|]);
      (split; [done|]); (split; [simpl; lia|]); simpl; by rewrite <- ?app_assoc. }
  erewrite bind_of_ok by exact E2. rewrite !uv_bind.
  destruct w2 as [l2 t2 c2]. cbn [lp calls trace] in L2, C2, T2. subst l2 t2.
  unfold uv_step, tick, log_event. cbn [lp trace calls].
  rewrite length_cons, length_app. cbn [length].
  replace (calls w + S (length (bind_calls (lp w)) + 2))%nat with (S (S c2)) by lia. clear C2.
  rewrite !(Nat.add_comm (S (S c2))). cbn [Nat.add].
  repeat case_if; rewrite ?uv_bind, ?modify_bind; repeat case_if;
    rewrite ?uv_bind, ?modify_bind; repeat case_if; simpl in *; try congruence;
    (eexists _, _; split_and!; [reflexivity|first [apply Hi|apply Hi']|done|]);
    cbn [trace uv_step tick log_event on_lp set_lp];
    change (list_fmap uv_call event EvUv) with (fmap (M := list) EvUv);
    rewrite !fmap_app; simpl; by rewrite <- !app_assoc.
Qed.

(** [lan_client_init] refuses a path MTU below 500 by exiting; otherwise
    it empties the reassembly table, resets the counters of fragments and
    allows one real broadcast, then initialises, binds and starts the
    handles in a fixed order; the first start that fails ends it with that
    error code and skips the rest. *)
Theorem lan_client_init_spec w :
  pctx_ok (pctx w) → zlen (client_buf (lp w)) = CLIENT_RECV_BUF_LEN → bytes_ok (client_buf (lp w)) →
  if negb (pmtu (lp w) =? 0) && (pmtu (lp w) <? MIN_FRAG_PAYLOAD_LEN)
  then lan_client_init w = Fail (ExitCalled 1)
  else ∃ r w', lan_client_init w = Ok (r, w') ∧ initialised w w' ∧
    let setup := UdpInit :: bind_calls (lp w) ++ [TimerInit ClientKeepaliveTimer; TimerInit RealBroadcastTimer] in
    let n := (calls w + length setup)%nat in
    let starts := [TimerStart ClientKeepaliveTimer 0 10000; TimerStart RealBroadcastTimer 0 1000; UdpRecvStart] in
    let failed k := negb (env_uv (n + k)%nat =? 0) in
    let done := if failed 0%nat then 1%nat else if failed 1%nat then 2%nat else 3%nat in
    r = env_uv (n + (done - 1))%nat ∧
    trace w' = trace w ++ (EvUv <$> setup ++ take done starts).
Proof. apply lan_client_init_ok. Qed.
End Init.

(** * The theorems at a concrete state *)

Lemma sample_state_ok : state_ok (LanSample.start 0).
Proof.
  constructor; [apply LanSample.client_is_ok| | | |by left].
  - split; [done|]. apply Forall_cons_iff. split; [split; eauto with sample|].
    apply Forall_replicate. split; split; try done; Sample.bytes_solve.
  - apply Forall_replicate. vm_compute. split; discriminate.
  - split_and!; [done|apply Forall_replicate; unfold byte_ok; lia|].
    intros name [= <-]. split; [Sample.bytes_solve|done].
Qed.

Lemma auth_me_response_witness :
  ∃ w', @lan_client_process_auth_me Sample.env (0 :: [1; 2; 3] ++ [9; 9]) 4 (LanSample.start 0) = Ok ((), w') ∧
    trace w' = [EvUdpSend (4 :: Fips.sha1 (replicate 20 7 ++ [1; 2; 3]) ++ [98; 111; 98])].
Proof.
  destruct (@auth_me_response Sample.env (LanSample.start 0) [1; 2; 3] [9; 9]) as (w' & E & T).
  - reflexivity.
  - exact (proj1 (proj2 (st_login _ sample_state_ok))).
  - Sample.bytes_solve.
  - reflexivity.
  - exact (proj2 (proj2 (st_login _ sample_state_ok))).
  - exists w'. split; [exact E|exact T].
Defined.

(** The first fragment of the sample packet has been received. *)
Definition sample_slot : lan_client_fragment :=
  mk_frag 0 Sample.our_ip 0 1 1 0 (take 500 LanSample.packet ++ replicate 1000 0).
Definition sample_frags : list lan_client_fragment := sample_slot :: replicate 99 empty_frag.
Definition sample_partial : world :=
  mk_world (set_frags sample_frags (LanSample.client 0)) [] 0.

Lemma sample_slot_ok : frag_ok sample_slot.
Proof.
  split; [reflexivity|]. apply bytes_ok_app; [|apply bytes_ok_zeros].
  apply bytes_ok_take, LanSample.packet_bytes_ok.
Qed.

Lemma sample_partial_ok : state_ok sample_partial.
Proof.
  destruct sample_state_ok as [[] Hc Ht Hl Hp].
  assert (Forall frag_ok (replicate 99 empty_frag)) by
    (apply Forall_replicate; split; [done|apply bytes_ok_zeros]).
  assert (Forall total_ok (replicate 99 empty_frag)) by
    (apply Forall_replicate; vm_compute; split; discriminate).
  constructor; [constructor; try done; apply Forall_cons_iff; split; [apply sample_slot_ok|done]
    |done| |done|by left].
  apply Forall_cons_iff. split; [vm_compute; split; discriminate|done].
Qed.

Lemma sample_assembling : assembling 500 LanSample.packet 0 [0] sample_frags.
Proof.
  split; [apply (cl_frags _ (st_client _ sample_partial_ok))|].
  exists 0%nat, sample_slot. split; [reflexivity|]. split; [reflexivity|].
  constructor; try reflexivity; [apply sample_slot_ok|simpl; lia| | |].
  - intros k Hk. apply eq_true_iff_eq. rewrite bool_decide_eq_true, list_elem_of_singleton.
    simpl. destruct k; split; done || lia.
  - intros n Hn Hin. apply list_elem_of_singleton in Hin.
    assert (n < 500)%nat by (Z.div_mod_to_equations; lia).
    change (fr_buffer sample_slot) with (take 500 LanSample.packet ++ replicate 1000 0).
    rewrite lookup_app_l by (rewrite length_take; change (length LanSample.packet) with 1100%nat; lia).
    apply lookup_take_lt. lia.
  - intros Hin. apply list_elem_of_singleton in Hin. vm_compute in Hin. discriminate.
Qed.

(** Part 2 of 3 of a packet of another sender, with a stale byte behind it. *)
Definition other_fragment : list Z :=
  Sample.other_ip ++ Sample.peer_ip ++ [0; 0; 1; 3; 0; 4; 2; 0] ++ replicate 1600 5.
Definition other_header : lan_client_fragment_header :=
  mk_header Sample.other_ip Sample.peer_ip 0 1 3 4 512.

Lemma other_fragment_ok : bytes_ok other_fragment.
Proof.
  repeat apply bytes_ok_app; try (apply Forall_replicate; unfold byte_ok; lia); Sample.bytes_solve.
Qed.

Lemma reassembly_independent_witness :
  ∃ r w', @lan_client_process_frag Sample.env other_fragment 20 sample_partial = Ok (r, w') ∧
    assembling 500 LanSample.packet 0 [0] (frags (lp w')).
Proof.
  destruct (@reassembly_independent Sample.env 500 LanSample.packet 0 [0] other_fragment 20
    other_header sample_partial) as (r & w' & E & _ & A).
  - lia.
  - apply LanSample.packet_bytes_ok.
  - vm_compute. split; discriminate.
  - discriminate.
  - apply sample_assembling.
  - apply sample_partial_ok.
  - apply other_fragment_ok.
  - vm_compute. discriminate.
  - vm_compute. reflexivity.
  - vm_compute. repeat split; done.
  - vm_compute. discriminate.
  - right. vm_compute. eexists. reflexivity.
  - exists r, w'. split; [exact E|exact A].
Defined.

Lemma lan_client_recv_safe_witness :
  ∃ w', @lan_client_recv Sample.env (LAN_CLIENT_TYPE_IPV4_FRAG :: take 20 other_fragment)
          (LanSample.start 0) = Ok ((), w') ∧ state_ok w'.
Proof.
  apply (@lan_client_recv_safe Sample.env (LAN_CLIENT_TYPE_IPV4_FRAG :: take 20 other_fragment)
    (LanSample.start 0)).
  - apply sample_state_ok.
  - apply bytes_ok_cons; [unfold byte_ok, LAN_CLIENT_TYPE_IPV4_FRAG; lia|].
    apply bytes_ok_take, other_fragment_ok.
  - vm_compute. discriminate.
  - split_and!; try (vm_compute; discriminate). intros _ h Hh. vm_compute in Hh.
    injection Hh as <-. vm_compute. repeat split; done.
Defined.

(** The same fragment with part number 40, and one that ends at 1504. *)
Lemma unsafe_fragment_faults_witness :
  @lan_client_process_frag Sample.env
    (Sample.other_ip ++ Sample.peer_ip ++ [0; 0; 2; 3; 1; 224; 2; 0] ++ replicate 1000 5) 1000
    (LanSample.start 0) = Fail OutOfBounds.
Proof.
  refine (proj2 (@unsafe_fragment_faults Sample.env _ 1000
    (mk_header Sample.other_ip Sample.peer_ip 0 2 3 480 512) (LanSample.start 0) _ _ _ _ _) _ _).
  - apply sample_state_ok.
  - repeat apply bytes_ok_app; try (apply Forall_replicate; unfold byte_ok; lia); Sample.bytes_solve.
  - vm_compute. discriminate.
  - vm_compute. reflexivity.
  - right. vm_compute. eexists. reflexivity.
  - simpl. lia.
  - reflexivity.
Defined.

Lemma oversized_packet_asserts_witness :
  @lan_client_recv Sample.env
    (LAN_CLIENT_TYPE_IPV4 :: replicate 12 69 ++ Sample.our_ip ++ Sample.peer_ip ++ replicate 2100 0)
    (LanSample.start 0) = Fail AssertFailure.
Proof.
  apply (@oversized_packet_asserts Sample.env
    (replicate 12 69 ++ Sample.our_ip ++ Sample.peer_ip ++ replicate 2100 0)
    (LanSample.start 0) LanSample.neighbour_table 1000 Sample.peer_mac).
  - apply sample_state_ok.
  - apply LanSample.start_neighbours.
  - vm_compute. discriminate.
  - repeat apply bytes_ok_app; try (apply Forall_replicate; unfold byte_ok; lia); Sample.bytes_solve.
  - vm_compute. split; discriminate.
  - vm_compute. discriminate.
  - vm_compute. reflexivity.
  - vm_compute. reflexivity.
Defined.

Lemma empty_challenge_overreads_witness :
  @lan_client_recv Sample.env [LAN_CLIENT_TYPE_AUTH_ME] (LanSample.start 0) = Fail OutOfBounds.
Proof.
  apply (@empty_challenge_overreads Sample.env (LanSample.start 0)).
  - apply sample_state_ok.
  - discriminate.
  - reflexivity.
Defined.

Lemma lan_client_init_spec_witness :
  ∃ w', @lan_client_init Sample.env (LanSample.start 500) = Ok (0, w') ∧ client_ok (lp w').
Proof.
  destruct (@lan_client_init_spec Sample.env (LanSample.start 500)) as (r & w' & E & I & R & _).
  - apply (cl_pctx _ (LanSample.client_is_ok 500)).
  - reflexivity.
  - apply (cl_buf_bytes _ (LanSample.client_is_ok 500)).
  - exists w'. split; [rewrite E, R; reflexivity|apply I].
Defined.
