(* ===== verification/Ipv4.v ===== *)
(** IPv4, ICMP and UDP: [client-switch-lan-play/ipv4/ipv4.c], [icmp.c] and
    [udp.c] (the checksums are in [Checksum]).

    An IPv4 packet seen on the LAN is answered (ping of our address), given
    to the relay, sent on to a neighbour, or handed to the gateway. *)
From S2P Require Import Prelude.
From S2P Require Import NetBytes.
From S2P Require Import Types.
From S2P Require Import Checksum.
From S2P Require Import Packet.
From S2P Require Import Arp.
From S2P Require Import LanClient.

(** * The program *)

Definition parse_ipv4 (ether : ether_frame) : result ipv4 :=
  let packet := eth_payload ether in
  t ← READ_NET8 packet IPV4_OFF_VER_LEN;
  let version := Z.shiftr t 4 in
  let header_len := u8 (Z.land t 0xF * 4) in
  t ← READ_NET8 packet IPV4_OFF_DSCP_ECN;
  let dscp := Z.shiftr t 2 in
  let ecn := Z.land t 3 in
  total_len ← READ_NET16 packet IPV4_OFF_TOTAL_LEN;
  identification ← READ_NET16 packet IPV4_OFF_ID;
  tt ← READ_NET16 packet IPV4_OFF_FLAGS_FRAG_OFFSET;
  let flags := Z.shiftr tt 13 in
  let fragment_offset := Z.land tt 0x1fff in
  ttl ← READ_NET8 packet IPV4_OFF_TTL;
  protocol ← READ_NET8 packet IPV4_OFF_PROTOCOL;
  checksum ← READ_NET16 packet IPV4_OFF_PROTOCOL;
  src ← mem_read packet IPV4_OFF_SRC 4;
  dst ← mem_read packet IPV4_OFF_DST 4;
  Ok (mk_ipv4 ether version header_len dscp ecn total_len identification flags fragment_offset
        ttl protocol checksum src dst (drop (Z.to_nat header_len) packet)).

(** The header written by [send_ipv4_ex]. *)
Definition ipv4_header_bytes (src dst : list Z) (protocol identification total_len : Z)
    : result (list Z) :=
  let buf := replicate (Z.to_nat IPV4_HEADER_LEN) 0 in
  buf ← WRITE_NET8 buf IPV4_OFF_VER_LEN 0x45;
  buf ← WRITE_NET8 buf IPV4_OFF_DSCP_ECN 0x00;
  buf ← WRITE_NET16 buf IPV4_OFF_TOTAL_LEN (IPV4_HEADER_LEN + total_len);
  buf ← WRITE_NET16 buf IPV4_OFF_ID identification;
  buf ← WRITE_NET16 buf IPV4_OFF_FLAGS_FRAG_OFFSET 0;
  buf ← WRITE_NET8 buf IPV4_OFF_TTL 128;
  buf ← WRITE_NET8 buf IPV4_OFF_PROTOCOL protocol;
  buf ← WRITE_NET16 buf IPV4_OFF_CHECKSUM 0x0000;
  buf ← CPY_IPV4 buf IPV4_OFF_SRC src;
  buf ← CPY_IPV4 buf IPV4_OFF_DST dst;
  checksum ← calc_checksum buf IPV4_HEADER_LEN;
  WRITE_NET16 buf IPV4_OFF_CHECKSUM checksum.

(** [parse_udp] *)
Definition parse_udp (ipv4 : ipv4) : result udp :=
  let packet := ip4_payload ipv4 in
  srcport ← READ_NET16 packet UDP_OFF_SRCPORT;
  dstport ← READ_NET16 packet UDP_OFF_DSTPORT;
  length ← READ_NET16 packet UDP_OFF_LENGTH;
  checksum ← READ_NET16 packet UDP_OFF_CHECKSUM;
  Ok (mk_udp srcport dstport length checksum (drop (Z.to_nat UDP_OFF_END) packet)).

(** The UDP header written by [send_udp_ex], checksum over the pseudo header,
    the header and the payload. *)
Definition udp_header_bytes (src : list Z) (srcport : Z) (dst : list Z) (dstport : Z)
    (payload : list payload) : result (list Z) :=
  let udp_length := u16 (UDP_OFF_END + payload_total_len payload) in
  let buf := replicate (Z.to_nat UDP_OFF_END) 0 in
  buf ← WRITE_NET16 buf UDP_OFF_SRCPORT srcport;
  buf ← WRITE_NET16 buf UDP_OFF_DSTPORT dstport;
  buf ← WRITE_NET16 buf UDP_OFF_LENGTH udp_length;
  buf ← WRITE_NET16 buf UDP_OFF_CHECKSUM 0;
  let pseudo_header := replicate (Z.to_nat IPV4P_OFF_END) 0 in
  pseudo_header ← CPY_IPV4 pseudo_header IPV4P_OFF_SRC src;
  pseudo_header ← CPY_IPV4 pseudo_header IPV4P_OFF_DST dst;
  pseudo_header ← WRITE_NET8 pseudo_header IPV4P_OFF_ZERO 0;
  pseudo_header ← WRITE_NET8 pseudo_header IPV4P_OFF_PROTOCOL IPV4_PROTOCOL_UDP;
  pseudo_header ← WRITE_NET16 pseudo_header IPV4P_OFF_LENGTH udp_length;
  checksum ← calc_payload_checksum
    (mk_payload pseudo_header IPV4P_OFF_END :: mk_payload buf UDP_OFF_END :: payload);
  WRITE_NET16 buf UDP_OFF_CHECKSUM checksum.

(** The reply [process_icmp] builds in its 2048-byte buffer. *)
Definition icmp_reply_bytes (request : list Z) (icmp_len : Z) : result (list Z) :=
  let payload := replicate (Z.to_nat BUFFER_SIZE) 0 in
  data ← mem_read request 0 icmp_len;
  payload ← mem_write payload 0 data;
  payload ← WRITE_NET8 payload 0 0;
  payload ← WRITE_NET16 payload 2 0x0000;
  sum ← calc_checksum payload icmp_len;
  WRITE_NET16 payload 2 sum.

Section Ipv4.
Context `{Env}.

Definition send_ipv4_ex (src dst : list Z) (protocol : Z) (payload : list payload) : IO Z :=
  arg ← gets pctx;
  modify (on_pctx (set_identification (u16 (identification arg + 1))));;
  buffer ← lift (ipv4_header_bytes src dst protocol (identification arg) (payload_total_len payload));
  dst_mac ← arp_get_mac_by_ip dst;
  match dst_mac with
  | None => mret 0
  | Some dst_mac =>
      send_ether dst_mac ETHER_TYPE_IPV4 (mk_payload buffer IPV4_HEADER_LEN :: payload)
  end.

Definition send_ipv4 (dst : list Z) (protocol : Z) (payload : list payload) : IO Z :=
  arg ← gets pctx;
  send_ipv4_ex (ip arg) dst protocol payload.

Definition process_icmp (ipv4 : ipv4) : IO Z :=
  let icmp_len := ip4_total_len ipv4 - ip4_header_len ipv4 in
  payload ← lift (icmp_reply_bytes (ip4_payload ipv4) icmp_len);
  _ ← send_ipv4 (ip4_src ipv4) IPV4_PROTOCOL_ICMP [mk_payload payload (u16 icmp_len)];
  mret 0.

Definition send_udp_ex (src : list Z) (srcport : Z) (dst : list Z) (dstport : Z)
    (payload : list payload) : IO Z :=
  buf ← lift (udp_header_bytes src srcport dst dstport payload);
  send_ipv4_ex src dst IPV4_PROTOCOL_UDP (mk_payload buf UDP_OFF_END :: payload).

(** The bytes of an uninitialised [uint8_t dst_mac[6]]. *)
Definition stack_mac : IO (list Z) := λ w, Ok (take 6 (env_stack (calls w) ++ replicate 6 0), w).

(** The part of [process_ipv4] behind [arp_set]. *)
Definition route_ipv4 (ether : ether_frame) (ipv4 : ipv4) : IO Z :=
  arg ← gets pctx;
  let part := mk_payload (eth_payload ether) (ip4_total_len ipv4) in
  if CMP_IPV4 (ip4_dst ipv4) (ip arg) then
    if ip4_protocol ipv4 =? IPV4_PROTOCOL_ICMP then process_icmp ipv4 else mret 0
  else if IS_SUBNET (ip4_dst ipv4) (subnet_net arg) (subnet_mask arg) then
    if IS_BROADCAST (ip4_dst ipv4) (subnet_net arg) (subnet_mask arg) then
      _ ← lan_client_send_ipv4 (ip4_dst ipv4) (eth_payload ether) (ip4_total_len ipv4);
      send_ether (eth_src ether) ETHER_TYPE_IPV4 [part]
    else
      has ← arp_has_ip (ip4_dst ipv4);
      if has : bool then
        dst_mac ← stack_mac;
        found ← arp_get_mac_by_ip (ip4_dst ipv4);
        send_ether (default dst_mac found) ETHER_TYPE_IPV4 [part]
      else lan_client_send_ipv4 (ip4_dst ipv4) (eth_payload ether) (ip4_total_len ipv4)
  else if CMP_MAC (mac arg) (eth_dst ether) then
    gateway_on_packet (eth_raw ether) (eth_raw_len ether);; mret 0
  else mret 0.

Definition process_ipv4 (ether : ether_frame) : IO Z :=
  ipv4 ← lift (parse_ipv4 ether);
  _ ← arp_set (eth_src ether) (ip4_src ipv4);
  route_ipv4 ether ipv4.
End Ipv4.

(** * Headers *)

(** The header with checksum [c]. *)
Definition ipv4_header_with (src dst : list Z) (protocol id total c : Z) : list Z :=
  ([0x45; 0] ++ be16 total ++ be16 id ++ be16 0 ++ [128; protocol]) ++ be16 c ++ src ++ dst.
Definition ipv4_header (src dst : list Z) (protocol id total : Z) : list Z :=
  ipv4_header_with src dst protocol id total
    (Rfc1071.checksum (ipv4_header_with src dst protocol id total 0)).

Lemma ipv4_header_with_ok src dst protocol id total c :
  ip_ok src → ip_ok dst → 0 ≤ protocol < 256 →
  bytes_ok (ipv4_header_with src dst protocol id total c) ∧
  length (ipv4_header_with src dst protocol id total c) = 20%nat.
Proof.
  intros [Hs ?] [Hd ?] ?. unfold ipv4_header_with. split.
  - repeat apply bytes_ok_app; try apply be16_bytes_ok; try done;
      repeat constructor; unfold byte_ok; lia.
  - rewrite !length_app, Hs, Hd. done.
Qed.

Lemma ipv4_header_bytes_ok src dst protocol id total :
  ip_ok src → ip_ok dst → 0 ≤ protocol < 256 →
  ipv4_header_bytes src dst protocol id total = Ok (ipv4_header src dst protocol id (20 + total)).
Proof.
  intros Hs Hd Hp. pose proof Hs as [Hs4 _]. pose proof Hd as [Hd4 _].
  pose proof (ipv4_header_with_ok src dst protocol id (20 + total) 0 Hs Hd Hp) as [Hb Hl].
  unfold ipv4_header_bytes.
  run (WRITE_NET8_fill [] 19 IPV4_OFF_VER_LEN 0x45 _).
  run (WRITE_NET8_fill _ 18 IPV4_OFF_DSCP_ECN 0 _).
  run (WRITE_NET16_fill _ 16 IPV4_OFF_TOTAL_LEN (20 + total) _).
  run (WRITE_NET16_fill _ 14 IPV4_OFF_ID id _).
  run (WRITE_NET16_fill _ 12 IPV4_OFF_FLAGS_FRAG_OFFSET 0 _).
  run (WRITE_NET8_fill _ 11 IPV4_OFF_TTL 128 _).
  run (WRITE_NET8_fill _ 10 IPV4_OFF_PROTOCOL protocol _).
  run (WRITE_NET16_fill _ 8 IPV4_OFF_CHECKSUM 0 _).
  run (CPY_IPV4_fill _ 4 IPV4_OFF_SRC src _ Hs4).
  erewrite ok_bind by (apply (CPY_IPV4_fill _ 0 IPV4_OFF_DST dst); [off_lia|done]).
  rewrite app_nil_r, (Z.mod_small protocol) by done.
  match goal with |- (calc_checksum ?b _ ≫= _) = _ =>
    assert (b = ipv4_header_with src dst protocol id (20 + total) 0) as ->
      by (unfold ipv4_header_with; rewrite app_nil_l, <- !app_assoc; done) end.
  erewrite ok_bind.
  2: { rewrite <- (app_nil_r (ipv4_header_with _ _ _ _ _ _)).
       replace IPV4_HEADER_LEN with (zlen (ipv4_header_with src dst protocol id (20 + total) 0))
         by (unfold zlen; by rewrite Hl).
       apply calc_checksum_even; [done|rewrite Hl; by exists 10%nat|unfold zlen; rewrite Hl; lia]. }
  unfold ipv4_header, ipv4_header_with at 1 3. by apply WRITE_NET16_mid.
Qed.

Lemma payload_total_len_ok ps :
  Forall payload_ok ps → zlen (payload_bytes ps) < 65536 →
  payload_total_len ps = zlen (payload_bytes ps).
Proof.
  intros Hps Hl. unfold payload_total_len.
  assert (∀ n, 0 ≤ n → n + zlen (payload_bytes ps) < 65536 →
    payload_total_len_from n ps = n + zlen (payload_bytes ps)) as H; [|by rewrite H].
  clear Hl. induction Hps as [|p ps Hp _ IH]; intros n Hn Hl; simpl.
  { change (payload_bytes []) with (@nil Z). unfold zlen. simpl. lia. }
  rewrite payload_bytes_cons in *. pose proof (payload_data_len p Hp).
  assert (zlen (payload_data p ++ payload_bytes ps) = plen p + zlen (payload_bytes ps)) as Ha by len_lia.
  pose proof Hp as (? & _ & _). rewrite Ha in *. rewrite u16_small by len_lia. rewrite IH by lia. lia.
Qed.

Lemma ipv4_header_verifies src dst protocol id total :
  ip_ok src → ip_ok dst → 0 ≤ protocol < 256 →
  Rfc1071.ocsum (Rfc1071.words (ipv4_header src dst protocol id total)) = 0xffff.
Proof.
  intros Hs Hd Hp. unfold ipv4_header, ipv4_header_with.
  apply (checksum_verifies ([69; 0] ++ be16 total ++ be16 id ++ be16 0 ++ [128; protocol]) (src ++ dst));
    [|by exists 5%nat].
  exact (proj1 (ipv4_header_with_ok src dst protocol id total 0 Hs Hd Hp)).
Qed.

Lemma ipv4_header_ok src dst protocol id total :
  ip_ok src → ip_ok dst → 0 ≤ protocol < 256 →
  bytes_ok (ipv4_header src dst protocol id total) ∧
  length (ipv4_header src dst protocol id total) = 20%nat.
Proof. intros. by apply ipv4_header_with_ok. Qed.

Section SendFacts.
Context `{Env}.

(** The context after the packet has taken its identification. *)
Definition next_id (w : world) : world :=
  on_pctx (set_identification (u16 (identification (pctx w) + 1))) w.

Lemma next_id_ok w : pctx_ok (pctx w) → pctx_ok (pctx (next_id w)).
Proof. intros []. by constructor. Qed.

(** The IPv4 packet [send_ipv4_ex] builds. *)
Definition ipv4_packet (src dst : list Z) (protocol id : Z) (data : list Z) : list Z :=
  ipv4_header src dst protocol id (20 + zlen data) ++ data.

Lemma send_ipv4_ex_ok src dst protocol ps w m now :
  pctx_ok (pctx w) → neighbours now (pctx w) m → now ≤ env_time (calls w) →
  ip_ok src → ip_ok dst → dst ≠ NONE_IP → 0 ≤ protocol < 256 →
  Forall payload_ok ps → zlen (payload_bytes ps) < 2014 →
  let packet := ipv4_packet src dst protocol (identification (pctx w)) (payload_bytes ps) in
  match table_lookup m (env_time (calls w)) dst with
  | Some mac => ∃ w', send_ipv4_ex src dst protocol ps w = Ok (env_pcap (S (calls w)), w') ∧
      sent (ipv4_frame (pctx w) mac packet) (tick (next_id w)) w'
  | None => ∃ w', send_ipv4_ex src dst protocol ps w = Ok (0, w') ∧
      sent (request_frame (pctx w) dst) (tick (next_id w)) w'
  end.
Proof.
  intros Hw Hn Ht Hs Hd Hne Hp Hps Hl packet.
  set (h := ipv4_header src dst protocol (identification (pctx w)) (20 + zlen (payload_bytes ps))).
  assert (send_ipv4_ex src dst protocol ps w =
    (dst_mac ← arp_get_mac_by_ip dst;
     match dst_mac with
     | None => mret 0
     | Some dst_mac => send_ether dst_mac ETHER_TYPE_IPV4 (mk_payload h IPV4_HEADER_LEN :: ps)
     end) (next_id w)) as Hcomp.
  { unfold send_ipv4_ex, gets, modify.
    unfold mbind at 1, M_bind at 1. unfold mbind at 1, M_bind at 1. fold (next_id w).
    rewrite payload_total_len_ok by (done || lia).
    by erewrite lift_bind by (by apply ipv4_header_bytes_ok). }
  rewrite !Hcomp. clear Hcomp.
  pose proof (ipv4_header_ok src dst protocol (identification (pctx w)) (20 + zlen (payload_bytes ps)) Hs Hd Hp)
    as [Hhb Hhl]. fold h in Hhb, Hhl.
  assert (neighbours now (pctx (next_id w)) m) as Hn' by exact Hn.
  destruct (table_lookup m (env_time (calls w)) dst) as [mac|] eqn:El.
  - destruct (arp_get_mac_hit dst (next_id w) m now mac) as [E Hm]; [done..|].
    erewrite bind_of_ok by exact E.
    destruct (send_ether_ok mac ETHER_TYPE_IPV4 (mk_payload h IPV4_HEADER_LEN :: ps) (tick (next_id w)))
      as (w' & -> & Hsent).
    + done.
    + apply Hw.
    + constructor; [|done]. split_and!; cbn [plen ptr]; try done. unfold zlen. rewrite Hhl. off_lia.
    + by apply pctx_ok_buffer, next_id_ok.
    + rewrite payload_bytes_part by (unfold zlen; by rewrite Hhl).
      change (buffer_len (pctx (tick (next_id w)))) with (buffer_len (pctx w)).
      rewrite (pc_buffer_len _ Hw). off_lia.
    + exists w'. split; [done|]. rewrite payload_bytes_part in Hsent by (unfold zlen; by rewrite Hhl).
      exact Hsent.
  - destruct (arp_get_mac_miss dst (next_id w) m now) as (w' & E & Hsent); [|done..|].
    { by apply next_id_ok. }
    exists w'. erewrite bind_of_ok by exact E. done.
Qed.

(** Sending an IPv4 packet to a known neighbour emits exactly one
    frame: a 20-byte header with the addresses, the protocol, the total
    length and the next identification, whose checksum verifies, followed by
    the payload.  For an unknown destination one ARP request is broadcast
    and 0 is returned.  The identification advances either way. *)
Theorem send_ipv4_spec dst protocol ps w m now :
  pctx_ok (pctx w) → neighbours now (pctx w) m → now ≤ env_time (calls w) →
  ip_ok dst → dst ≠ NONE_IP → 0 ≤ protocol < 256 →
  Forall payload_ok ps → zlen (payload_bytes ps) < 2014 →
  let p := pctx w in
  let header := ipv4_header (ip p) dst protocol (identification p) (20 + zlen (payload_bytes ps)) in
  Rfc1071.ocsum (Rfc1071.words header) = 0xffff ∧
  ∃ r w', send_ipv4 dst protocol ps w = Ok (r, w') ∧
    identification (pctx w') = u16 (identification p + 1) ∧
    match table_lookup m (env_time (calls w)) dst with
    | Some mac => r = env_pcap (S (calls w)) ∧
        trace w' = trace w ++ [EvPcapSend (ipv4_frame p mac (header ++ payload_bytes ps))]
    | None => r = 0 ∧ trace w' = trace w ++ [EvPcapSend (request_frame p dst)]
    end.
Proof.
  intros Hw Hn Ht Hd Hne Hp Hps Hl p header. split; [by apply ipv4_header_verifies; [apply Hw|..]|].
  pose proof (send_ipv4_ex_ok (ip p) dst protocol ps w m now Hw Hn Ht (pc_ip _ Hw) Hd Hne Hp Hps Hl) as Hs.
  cbv zeta in Hs. unfold send_ipv4, gets, mbind at 1, M_bind at 1. fold p.
  destruct (table_lookup m (env_time (calls w)) dst) as [mac|];
    destruct Hs as (w' & -> & Hsent); eexists _, w'; (split; [done|]);
    (split; [by destruct Hsent as (? & _ & _ & ->)|]);
    (split; [done|]); by rewrite (sent_trace _ _ _ Hsent).
Qed.
End SendFacts.

(** ** Parsing *)

(** Parsing the packet [send_ipv4_ex] builds, wherever it stands in the
    captured bytes, gives back version 4, a 20-byte header, the total length,
    identification, ttl 128, the protocol, both addresses and the payload. The
    parsed checksum is not the header's: it is read at the offset of the
    protocol, so it is the protocol byte followed by the high byte of the
    checksum. *)
Theorem parse_ipv4_of_built ether src dst protocol id data pad :
  ip_ok src → ip_ok dst → 0 ≤ protocol < 256 → 0 ≤ id < 65536 → zlen data < 65516 →
  eth_payload ether = ipv4_packet src dst protocol id data ++ pad →
  let c := Rfc1071.checksum (ipv4_header_with src dst protocol id (20 + zlen data) 0) in
  parse_ipv4 ether =
    Ok (mk_ipv4 ether 4 20 0 0 (20 + zlen data) id 0 0 128 protocol (protocol * 256 + c / 256)
          src dst (data ++ pad)).
Proof.
  intros Hs Hd Hp Hid Hl Hpay c. pose proof Hs as [Hs4 _]. pose proof Hd as [Hd4 _].
  pose proof (ipv4_header_with_ok src dst protocol id (20 + zlen data) 0 Hs Hd Hp) as [Hb0 _].
  pose proof (checksum_range _ Hb0) as Hc. fold c in Hc.
  unfold parse_ipv4. rewrite Hpay. unfold ipv4_packet, ipv4_header, ipv4_header_with.
  fold (ipv4_header_with src dst protocol id (20 + zlen data) 0). fold c.
  rewrite <- !app_assoc. cbn [app].
  set (rest := src ++ dst ++ data ++ pad).
  change (69 :: 0 :: be16 (20 + zlen data) ++ be16 id ++ be16 0 ++ 128 :: protocol :: be16 c ++ rest)
    with ([69] ++ [0] ++ be16 (20 + zlen data) ++ be16 id ++ be16 0 ++ [128] ++ [protocol] ++ be16 c ++ rest).
  erewrite ok_bind by (by apply (READ_NET8_mid [])).
  erewrite ok_bind by (by apply (READ_NET8_mid [69])).
  erewrite ok_bind by (apply (READ_NET16_mid ([69] ++ [0])); [done|unfold zlen in *; lia]).
  erewrite ok_bind by (by apply (READ_NET16_mid ([69] ++ [0] ++ be16 (20 + zlen data)))).
  erewrite ok_bind by (by apply (READ_NET16_mid ([69] ++ [0] ++ be16 (20 + zlen data) ++ be16 id))).
  set (h8 := [69] ++ [0] ++ be16 (20 + zlen data) ++ be16 id ++ be16 0).
  erewrite ok_bind by (by apply (READ_NET8_mid h8)).
  erewrite ok_bind by (by apply (READ_NET8_mid (h8 ++ [128]))).
  assert (READ_NET16 ((h8 ++ [128]) ++ be16 (protocol * 256 + c / 256) ++ [c mod 256] ++ rest)
            IPV4_OFF_PROTOCOL = Ok (protocol * 256 + c / 256)) as Hck.
  { apply READ_NET16_mid; [done|]. assert (0 ≤ c / 256 < 256) by (Z.div_mod_to_equations; lia). lia. }
  assert (be16 (protocol * 256 + c / 256) = [protocol; c / 256 mod 256]) as Hbe.
  { unfold be16. assert (0 ≤ c / 256 < 256) by (Z.div_mod_to_equations; lia).
    rewrite Z.div_add_l, (Z.div_small (c / 256) 256), Z.add_0_r, (Z.mod_small protocol) by lia.
    by rewrite Z.add_comm, Z.mod_add by lia. }
  rewrite Hbe in Hck. erewrite ok_bind by exact Hck. clear Hck Hbe.
  set (h12 := h8 ++ [128] ++ [protocol] ++ be16 c).
  erewrite ok_bind by (by apply (mem_read_mid h12 src); unfold zlen; rewrite ?Hs4).
  erewrite ok_bind by (apply (mem_read_mid (h12 ++ src) dst (data ++ pad));
    [unfold h12, h8; off_lia|unfold zlen; by rewrite Hd4]).
  f_equal. f_equal.
  change (drop (Z.to_nat (u8 (Z.land 69 15 * 4))) _) with (drop 8 (src ++ dst ++ data ++ pad)).
  rewrite (app_assoc src). apply drop_app_length'. len_lia.
Qed.

(** * UDP *)

Definition udp_header_with (srcport dstport length c : Z) : list Z :=
  (be16 srcport ++ be16 dstport ++ be16 length) ++ be16 c ++ [].
Definition pseudo_header (src dst : list Z) (length : Z) : list Z :=
  src ++ dst ++ [0; IPV4_PROTOCOL_UDP] ++ be16 length.
(** The datagram with its checksum. *)
Definition udp_checksum_of (src dst : list Z) (srcport dstport : Z) (data : list Z) : Z :=
  let len := 8 + zlen data in
  Rfc1071.checksum (pseudo_header src dst len ++ udp_header_with srcport dstport len 0 ++ data).
Definition udp_header (src dst : list Z) (srcport dstport : Z) (data : list Z) : list Z :=
  udp_header_with srcport dstport (8 + zlen data) (udp_checksum_of src dst srcport dstport data).

Lemma pseudo_header_bytes_ok src dst length :
  ip_ok src → ip_ok dst → bytes_ok (pseudo_header src dst length).
Proof.
  intros [_ ?] [_ ?]. unfold pseudo_header, IPV4_PROTOCOL_UDP.
  repeat apply bytes_ok_app; try apply be16_bytes_ok; try done. repeat constructor; unfold byte_ok; lia.
Qed.
Lemma udp_header_with_bytes_ok sp dp length c : bytes_ok (udp_header_with sp dp length c).
Proof. unfold udp_header_with. repeat apply bytes_ok_app; try apply be16_bytes_ok. constructor. Qed.
Lemma length_udp_header_with sp dp l c : length (udp_header_with sp dp l c) = 8%nat.
Proof. done. Qed.
#[export] Hint Rewrite length_udp_header_with : len.
Lemma length_pseudo_header src dst len :
  ip_ok src → ip_ok dst → length (pseudo_header src dst len) = 12%nat.
Proof. intros [H1 _] [H2 _]. unfold pseudo_header. rewrite !length_app, H1, H2. done. Qed.

Lemma udp_header_bytes_ok src srcport dst dstport ps :
  ip_ok src → ip_ok dst → Forall payload_ok ps → inner_even ps → zlen (payload_bytes ps) < 65528 →
  udp_header_bytes src srcport dst dstport ps = Ok (udp_header src dst srcport dstport (payload_bytes ps)).
Proof.
  intros Hs Hd Hps Hev Hl. pose proof Hs as [Hs4 _]. pose proof Hd as [Hd4 _].
  unfold udp_header_bytes. rewrite payload_total_len_ok by (done || lia).
  rewrite u16_small by (change UDP_OFF_END with 8; unfold zlen in *; lia).
  change (UDP_OFF_END + zlen (payload_bytes ps)) with (8 + zlen (payload_bytes ps)).
  set (len := 8 + zlen (payload_bytes ps)).
  run (WRITE_NET16_fill [] 6 UDP_OFF_SRCPORT srcport _).
  run (WRITE_NET16_fill _ 4 UDP_OFF_DSTPORT dstport _).
  run (WRITE_NET16_fill _ 2 UDP_OFF_LENGTH len _).
  run (WRITE_NET16_fill _ 0 UDP_OFF_CHECKSUM 0 _).
  run (CPY_IPV4_fill [] 8 IPV4P_OFF_SRC src _ Hs4).
  erewrite ok_bind by (apply (CPY_IPV4_fill _ 4 IPV4P_OFF_DST dst); [off_lia|done]).
  erewrite ok_bind by (apply (WRITE_NET8_fill _ 3 IPV4P_OFF_ZERO 0); off_lia).
  erewrite ok_bind by (apply (WRITE_NET8_fill _ 2 IPV4P_OFF_PROTOCOL IPV4_PROTOCOL_UDP); off_lia).
  erewrite ok_bind by (apply (WRITE_NET16_fill _ 0 IPV4P_OFF_LENGTH len); off_lia).
  rewrite !app_nil_r, !app_nil_l.
  match goal with |- (calc_payload_checksum (mk_payload ?a _ :: mk_payload ?b _ :: _) ≫= _) = _ =>
    assert (a = pseudo_header src dst len) as ->
      by (unfold pseudo_header; rewrite <- !app_assoc; done);
    assert (b = udp_header_with srcport dstport len 0) as ->
      by (unfold udp_header_with; rewrite app_nil_r, <- !app_assoc; done) end.
  erewrite ok_bind.
  2: { apply calc_payload_checksum_ok.
    - constructor; [|constructor; [|done]]; (split_and!; cbn [plen ptr]; try done).
      + unfold zlen. by rewrite length_pseudo_header.
      + by apply pseudo_header_bytes_ok.
      + apply udp_header_with_bytes_ok.
    - split; [by exists 6|]. destruct ps; [done|]. split; [by exists 4|done].
    - rewrite !payload_bytes_part by (done || (unfold zlen; by rewrite length_pseudo_header)).
      pose proof (length_pseudo_header src dst len Hs Hd). len_lia. }
  rewrite !payload_bytes_part by (done || (unfold zlen; by rewrite length_pseudo_header)).
  unfold udp_header, udp_checksum_of. fold len. unfold udp_header_with at 1 3. by apply WRITE_NET16_mid.
Qed.

Lemma udp_checksum_verifies src dst sp dp data :
  ip_ok src → ip_ok dst → bytes_ok data →
  Rfc1071.ocsum (Rfc1071.words (pseudo_header src dst (8 + zlen data) ++ udp_header src dst sp dp data ++ data))
    = 0xffff.
Proof.
  intros Hs Hd Hb. set (len := 8 + zlen data).
  pose proof (checksum_verifies (pseudo_header src dst len ++ be16 sp ++ be16 dp ++ be16 len) data) as Hv.
  assert (∀ c, pseudo_header src dst len ++ udp_header_with sp dp len c ++ data =
    (pseudo_header src dst len ++ be16 sp ++ be16 dp ++ be16 len) ++ be16 c ++ data) as Hr
    by (intros; unfold udp_header_with; rewrite app_nil_r, <- !app_assoc; done).
  unfold udp_header, udp_checksum_of. fold len. rewrite !Hr. apply Hv.
  - repeat first [by apply pseudo_header_bytes_ok|apply be16_bytes_ok|done|apply bytes_ok_app].
    repeat constructor; unfold byte_ok; lia.
  - rewrite !length_app, length_pseudo_header by done. by exists 9%nat.
Qed.

Section UdpFacts.
Context `{Env}.

(** A UDP datagram to a known neighbour is sent as one frame whose UDP
    checksum (over the pseudo header, the header and the payload) and IPv4
    header checksum both verify, and [parse_udp] on what follows the IPv4
    header gives back the ports, the length, the checksum and the payload.
    The parts of the payload but the last must have even lengths. *)
Theorem send_udp_roundtrip src srcport dst dstport ps w m now mac :
  pctx_ok (pctx w) → neighbours now (pctx w) m → now ≤ env_time (calls w) →
  ip_ok src → ip_ok dst → dst ≠ NONE_IP → 0 ≤ srcport < 65536 → 0 ≤ dstport < 65536 →
  Forall payload_ok ps → inner_even ps → zlen (payload_bytes ps) < 2006 →
  table_lookup m (env_time (calls w)) dst = Some mac →
  let data := payload_bytes ps in
  let datagram := udp_header src dst srcport dstport data ++ data in
  let packet := ipv4_packet src dst IPV4_PROTOCOL_UDP (identification (pctx w)) datagram in
  (∃ r w', send_udp_ex src srcport dst dstport ps w = Ok (r, w') ∧
     trace w' = trace w ++ [EvPcapSend (ipv4_frame (pctx w) mac packet)]) ∧
  Rfc1071.ocsum (Rfc1071.words (pseudo_header src dst (zlen datagram) ++ datagram)) = 0xffff ∧
  (∀ ipv4 pad, ip4_payload ipv4 = datagram ++ pad →
     parse_udp ipv4 = Ok (mk_udp srcport dstport (zlen datagram)
       (udp_checksum_of src dst srcport dstport data) (data ++ pad))).
Proof.
  intros Hw Hn Ht Hs Hd Hne Hsp Hdp Hps Hev Hl El data datagram packet.
  pose proof (payload_bytes_ok ps Hps) as Hb. fold data in Hb.
  assert (zlen datagram = 8 + zlen data) as Hdl by (unfold datagram, udp_header, udp_header_with; len_lia).
  split_and!.
  - unfold send_udp_ex. erewrite lift_bind by (apply udp_header_bytes_ok; done || lia).
    fold data. set (h := udp_header src dst srcport dstport data).
    pose proof (send_ipv4_ex_ok src dst IPV4_PROTOCOL_UDP (mk_payload h UDP_OFF_END :: ps) w m now) as Hsend.
    rewrite El in Hsend. destruct Hsend as (w' & E & Hsent); try done.
    + constructor; [|done]. split_and!; cbn [plen ptr]; try done. apply udp_header_with_bytes_ok.
    + rewrite payload_bytes_part by done. change (zlen datagram < 2014). rewrite Hdl. unfold data. lia.
    + eexists _, w'. split; [exact E|]. rewrite (sent_trace _ _ _ Hsent), payload_bytes_part by done. done.
  - rewrite Hdl. by apply udp_checksum_verifies.
  - intros ip4 pad Hpay. unfold parse_udp. rewrite Hpay. rewrite Hdl.
    assert (0 ≤ udp_checksum_of src dst srcport dstport data < 65536) as Hc.
    { apply checksum_range. by repeat first [by apply pseudo_header_bytes_ok
        |apply udp_header_with_bytes_ok|done|apply bytes_ok_app]. }
    unfold datagram, udp_header, udp_header_with. set (c := udp_checksum_of _ _ _ _ _) in *.
    rewrite app_nil_r, <- !app_assoc. fold data in Hl.
    erewrite ok_bind by (by apply (READ_NET16_mid [])).
    erewrite ok_bind by (by apply (READ_NET16_mid (be16 srcport))).
    erewrite ok_bind by (apply (READ_NET16_mid (be16 srcport ++ be16 dstport)); [done|unfold zlen in *; lia]).
    erewrite ok_bind by (by apply (READ_NET16_mid (be16 srcport ++ be16 dstport ++ be16 (8 + zlen data)))).
    done.
Qed.
End UdpFacts.

(** [parse_ipv4] reads its 20 bytes and nothing else. *)
Lemma parse_ipv4_total ether :
  bytes_ok (eth_payload ether) → 20 ≤ zlen (eth_payload ether) →
  ∃ i, parse_ipv4 ether = Ok i ∧ ip_ok (ip4_src i) ∧ ip_ok (ip4_dst i) ∧
    0 ≤ ip4_total_len i < 65536 ∧
    ip4_payload i = drop (Z.to_nat (ip4_header_len i)) (eth_payload ether) ∧ 0 ≤ ip4_header_len i.
Proof.
  intros Hb Hl. unfold parse_ipv4. set (p := eth_payload ether) in *.
  destruct (READ_NET8_total p IPV4_OFF_VER_LEN) as (v1 & -> & _); [done|off_lia..|].
  destruct (READ_NET8_total p IPV4_OFF_DSCP_ECN) as (v2 & -> & _); [done|off_lia..|].
  destruct (READ_NET16_total p IPV4_OFF_TOTAL_LEN) as (v3 & -> & R3); [off_lia..|].
  destruct (READ_NET16_total p IPV4_OFF_ID) as (v4 & -> & _); [off_lia..|].
  destruct (READ_NET16_total p IPV4_OFF_FLAGS_FRAG_OFFSET) as (v5 & -> & _); [off_lia..|].
  destruct (READ_NET8_total p IPV4_OFF_TTL) as (v6 & -> & _); [done|off_lia..|].
  destruct (READ_NET8_total p IPV4_OFF_PROTOCOL) as (v7 & -> & _); [done|off_lia..|].
  destruct (READ_NET16_total p IPV4_OFF_PROTOCOL) as (v8 & -> & _); [off_lia..|].
  cbn [mbind result_bind]. do 2 (erewrite ok_bind by (apply mem_read_ok; off_lia)).
  eexists. split; [done|]. cbn [ip4_src ip4_dst ip4_total_len ip4_payload ip4_header_len].
  split_and!; try done; try lia; [split; [off_lia|eauto with bytes]..|].
  apply u8_range.
Qed.

(** * ICMP echo *)

(** The reply to a request of type [t] and code [code] with [rest] after its
    checksum; the checksum is the one [calc_checksum] computes. *)
Definition icmp_reply (code : Z) (rest : list Z) : list Z :=
  [0; code] ++ be16 (Rfc1071.checksum (summed ([0; code] ++ [0; 0] ++ rest))) ++ rest.

Lemma icmp_reply_bytes_ok t code c1 c2 rest pad :
  bytes_ok (t :: code :: c1 :: c2 :: rest) → zlen rest ≤ 2044 →
  icmp_reply_bytes ((t :: code :: c1 :: c2 :: rest) ++ pad) (4 + zlen rest) =
    Ok (icmp_reply code rest ++ replicate (2044 - length rest) 0).
Proof.
  intros Hb Hl. unfold icmp_reply_bytes. set (req := t :: code :: c1 :: c2 :: rest).
  assert (zlen req = 4 + zlen rest) as Hr by (unfold req; len_lia).
  erewrite ok_bind by (rewrite mem_read_app_l by (rewrite ?Hr; unfold zlen in *; lia); by apply mem_read_all).
  replace (Z.to_nat BUFFER_SIZE) with (length req + (2044 - length rest))%nat
    by (unfold req, BUFFER_SIZE; unfold zlen in *; simpl; lia).
  erewrite ok_bind by (apply (mem_write_fill [] (length req) _ 0 req); done).
  rewrite app_nil_l. set (tail := replicate _ 0).
  change (req ++ tail) with ([] ++ [t] ++ code :: c1 :: c2 :: rest ++ tail).
  erewrite ok_bind by (by apply WRITE_NET8_mid). rewrite app_nil_l.
  change ([0 mod 256] ++ code :: c1 :: c2 :: rest ++ tail) with ([0; code] ++ [c1; c2] ++ rest ++ tail).
  erewrite ok_bind by (by apply WRITE_NET16_mid). change (be16 0) with [0; 0].
  apply Forall_cons_iff in Hb as [_ Hb]. apply Forall_cons_iff in Hb as [Hc Hb].
  apply Forall_cons_iff in Hb as [_ Hb]. apply Forall_cons_iff in Hb as [_ Hb].
  erewrite ok_bind.
  2: { replace ([0; code] ++ [0; 0] ++ rest ++ tail) with (([0; code] ++ [0; 0] ++ rest) ++ tail) by done.
       replace (4 + zlen rest) with (zlen ([0; code] ++ [0; 0] ++ rest)) by len_lia.
       apply calc_checksum_summed; [|len_lia].
       repeat constructor; done || (unfold byte_ok in *; lia). }
  change ([0; code] ++ [0; 0] ++ rest ++ tail) with ([0; code] ++ be16 0 ++ rest ++ tail).
  rewrite WRITE_NET16_mid by done. unfold icmp_reply. done.
Qed.

Lemma icmp_reply_ok code rest :
  byte_ok code → bytes_ok rest →
  bytes_ok (icmp_reply code rest) ∧ zlen (icmp_reply code rest) = 4 + zlen rest ∧
  (Nat.Even (length rest) → Rfc1071.ocsum (Rfc1071.words (icmp_reply code rest)) = 0xffff).
Proof.
  intros Hc Hr. assert (bytes_ok ([0; code] ++ [0; 0] ++ rest)) as Hb.
  { repeat constructor; done || (unfold byte_ok in *; lia). }
  unfold icmp_reply. split_and!.
  - repeat apply bytes_ok_app; try apply be16_bytes_ok; try done.
    repeat constructor; done || (unfold byte_ok in *; lia).
  - len_lia.
  - intros [k Hk]. unfold summed. rewrite (proj2 (Nat.even_spec _)); [|exists (2 + k)%nat; simpl; lia].
    by apply (checksum_verifies [0; code] rest); [|exists 1%nat].
Qed.

Section IcmpFacts.
Context `{Env}.

(** What a packet of ours for [dst] makes the client send: the packet in one
    frame when the MAC address is known, an ARP request otherwise (the packet
    is dropped). *)
Definition frame_or_request (p : packet_ctx) (known : option (list Z)) (dst packet : list Z)
    : list Z :=
  match known with Some mac => ipv4_frame p mac packet | None => request_frame p dst end.

(** An ICMP message to our address is answered by an IPv4 packet from us to
    the sender whose ICMP message has type 0, the request's code and the
    request's remaining bytes, and, if the length is even, a checksum that
    verifies (see [calc_checksum_odd_tail] for the others). *)
Theorem process_icmp_echo ipv4 t code c1 c2 rest pad w m now :
  pctx_ok (pctx w) → neighbours now (pctx w) m → now ≤ env_time (calls w) →
  bytes_ok (t :: code :: c1 :: c2 :: rest) → zlen rest < 2010 →
  ip4_payload ipv4 = (t :: code :: c1 :: c2 :: rest) ++ pad →
  ip4_total_len ipv4 - ip4_header_len ipv4 = 4 + zlen rest →
  ip_ok (ip4_src ipv4) → ip4_src ipv4 ≠ NONE_IP →
  let p := pctx w in
  (∃ w', process_icmp ipv4 w = Ok (0, w') ∧ neighbours now (pctx w') m ∧
     trace w' = trace w ++ [EvPcapSend (frame_or_request p
       (table_lookup m (env_time (calls w)) (ip4_src ipv4)) (ip4_src ipv4)
       (ipv4_packet (ip p) (ip4_src ipv4) IPV4_PROTOCOL_ICMP (identification p) (icmp_reply code rest)))]) ∧
  (Nat.Even (length rest) → Rfc1071.ocsum (Rfc1071.words (icmp_reply code rest)) = 0xffff).
Proof.
  intros Hw Hn Ht Hb Hl Hpay Hlen Hs Hne p.
  assert (byte_ok code ∧ bytes_ok rest) as [Hc Hr]
    by (unfold bytes_ok in *; rewrite !Forall_cons_iff in Hb; tauto).
  destruct (icmp_reply_ok code rest Hc Hr) as (Hrb & Hrl & Hsum). split; [|done].
  unfold process_icmp. rewrite Hpay, Hlen.
  erewrite lift_bind by (apply icmp_reply_bytes_ok; done || lia).
  rewrite u16_small by (unfold zlen in *; lia).
  set (reply := icmp_reply code rest) in *. set (tail := replicate _ 0).
  assert (payload_bytes [mk_payload (reply ++ tail) (4 + zlen rest)] = reply) as Hby.
  { rewrite payload_bytes_cons. change (payload_bytes []) with (@nil Z). rewrite app_nil_r.
    unfold payload_data. cbn [plen ptr]. rewrite <- Hrl. unfold zlen. rewrite Nat2Z.id. apply take_app_length. }
  pose proof (send_ipv4_ex_ok (ip p) (ip4_src ipv4) IPV4_PROTOCOL_ICMP
    [mk_payload (reply ++ tail) (4 + zlen rest)] w m now Hw Hn Ht (pc_ip _ Hw) Hs Hne) as Hsend.
  rewrite Hby in Hsend.
  assert (∃ r w', send_ipv4_ex (ip p) (ip4_src ipv4) IPV4_PROTOCOL_ICMP
      [mk_payload (reply ++ tail) (4 + zlen rest)] w = Ok (r, w') ∧
    sent (frame_or_request p (table_lookup m (env_time (calls w)) (ip4_src ipv4)) (ip4_src ipv4)
      (ipv4_packet (ip p) (ip4_src ipv4) IPV4_PROTOCOL_ICMP (identification p) reply)) (tick (next_id w)) w')
    as (r & w' & E & Hsent).
  { destruct (table_lookup _ _ _); (destruct Hsend as (w' & E & Hsent);
      [done| |lia|by eexists _, w']); constructor; try constructor; cbn [plen ptr];
      first [unfold zlen in *; lia|split; [len_lia|unfold tail; eauto with bytes]]. }
  exists w'. unfold send_ipv4, gets. unfold mbind, M_bind in *. fold p. rewrite E.
  split_and!; [done| |by rewrite (sent_trace _ _ _ Hsent)].
  destruct Hsent as (buf & _ & _ & ->). exact Hn.
Qed.

(** The ICMP handler trusts the lengths of the header: a total length
    below the header length, or an ICMP message of more than 2048 bytes, is
    copied out of bounds. *)
Theorem process_icmp_unchecked_length ipv4 w :
  let icmp_len := ip4_total_len ipv4 - ip4_header_len ipv4 in
  icmp_len < 0 ∨ 2048 < icmp_len → process_icmp ipv4 w = Fail OutOfBounds.
Proof.
  intros icmp_len Hbad. unfold process_icmp. fold icmp_len.
  assert (icmp_reply_bytes (ip4_payload ipv4) icmp_len = Fail OutOfBounds) as E.
  { unfold icmp_reply_bytes.
    destruct (mem_read (ip4_payload ipv4) 0 icmp_len) as [data|e] eqn:Ed; cbn [mbind result_bind].
    - pose proof (mem_read_length _ _ _ _ Ed) as Hdl. unfold mem_write.
      destruct (in_range _ 0 (zlen data)) eqn:Er; [|done]. exfalso.
      apply in_range_spec in Er as (_ & ? & Hle). unfold zlen at 2 in Hle.
      rewrite length_replicate in Hle. unfold BUFFER_SIZE, zlen in *. lia.
    - unfold mem_read in Ed. destruct (in_range _ _ _) in Ed; [done|]. by injection Ed as <-. }
  unfold mbind, M_bind, lift. by rewrite E.
Qed.
End IcmpFacts.

(** * Dispatch *)

Section Dispatch.
Context `{Env}.

(** What an IPv4 packet [pk] from the LAN, in frame [ether], makes the client
    send when it is not an ICMP message for the client itself; [known] and
    [found] are the MAC addresses the two lookups find for its destination,
    [unset] is what the uninitialised [dst_mac] holds. *)
Definition ipv4_effects (l : lan_play) (ether : ether_frame) (dst pk : list Z)
    (known found : option (list Z)) (unset : list Z) : list event :=
  let p := packet_ctx_of l in
  let relayed := EvUdpSend <$> ipv4_datagrams (pmtu l) (frag_id l) pk in
  if CMP_IPV4 dst (ip p) then []
  else if IS_SUBNET dst (subnet_net p) (subnet_mask p) then
    if IS_BROADCAST dst (subnet_net p) (subnet_mask p)
    then relayed ++ [EvPcapSend (ipv4_frame p (eth_src ether) pk)]
    else match known, found with
         | Some _, Some mac => [EvPcapSend (ipv4_frame p mac pk)]
         | Some _, None => [EvPcapSend (request_frame p dst); EvPcapSend (ipv4_frame p unset pk)]
         | None, _ => relayed
         end
  else if CMP_MAC (mac p) (eth_dst ether) then [EvGateway (eth_raw ether) (eth_raw_len ether)]
  else [].

Lemma send_part_ok mac ether pk rest w :
  pctx_ok (pctx w) → mac_ok mac → bytes_ok (pk ++ rest) → zlen pk ≤ 2033 →
  eth_payload ether = pk ++ rest →
  ∃ w', send_ether mac ETHER_TYPE_IPV4 [mk_payload (eth_payload ether) (zlen pk)] w =
          Ok (env_pcap (calls w), w') ∧
        sent (ipv4_frame (pctx w) mac pk) w w'.
Proof.
  intros Hw Hm Hb Hl ->. destruct (send_ipv4_frame mac (pk ++ rest) (zlen pk) w) as (w' & E & Hs);
    [done..|len_lia|lia|].
  exists w'. split; [done|]. unfold zlen in Hs at 1. by rewrite Nat2Z.id, take_app_length in Hs.
Qed.

Lemma send_part_keeps mac ether pk rest w m t :
  pctx_ok (pctx w) → mac_ok mac → bytes_ok (pk ++ rest) → zlen pk ≤ 2033 →
  eth_payload ether = pk ++ rest → neighbours t (pctx w) m →
  ∃ r w', send_ether mac ETHER_TYPE_IPV4 [mk_payload (eth_payload ether) (zlen pk)] w = Ok (r, w') ∧
    neighbours t (pctx w') m ∧ trace w' = trace w ++ [EvPcapSend (ipv4_frame (pctx w) mac pk)].
Proof.
  intros Hw Hm Hb Hl Hpay Hn. destruct (send_part_ok mac ether pk rest w) as (w' & E & Hs); [done..|].
  exists (env_pcap (calls w)), w'. split_and!; [done| |exact (sent_trace _ _ _ Hs)].
  destruct Hs as (buf & _ & _ & ->). exact Hn.
Qed.

(** The MAC address a lookup finds is used, or else the uninitialised one. *)
Lemma neighbour_part_ok ether pk rest dst w m t :
  pctx_ok (pctx w) → neighbours t (pctx w) m → t ≤ env_time (calls w) →
  ip_ok dst → dst ≠ NONE_IP → bytes_ok (env_stack (calls w)) →
  bytes_ok (pk ++ rest) → zlen pk ≤ 2033 → eth_payload ether = pk ++ rest →
  let p := pctx w in
  let unset := take 6 (env_stack (calls w) ++ replicate 6 0) in
  ∃ r w', (dst_mac ← stack_mac;
           found ← arp_get_mac_by_ip dst;
           send_ether (default dst_mac found) ETHER_TYPE_IPV4
             [mk_payload (eth_payload ether) (zlen pk)]) w = Ok (r, w') ∧
    neighbours t (pctx w') m ∧
    trace w' = trace w ++ match table_lookup m (env_time (calls w)) dst with
                          | Some mac => [EvPcapSend (ipv4_frame p mac pk)]
                          | None => [EvPcapSend (request_frame p dst); EvPcapSend (ipv4_frame p unset pk)]
                          end.
Proof.
  intros Hw Hn Ht Hd Hne Hst Hb Hl Hpay p unset. unfold stack_mac. unfold mbind at 1, M_bind at 1.
  fold unset. destruct (table_lookup m (env_time (calls w)) dst) as [dm|] eqn:El.
  - destruct (arp_get_mac_hit dst w m t dm) as [E Hdm]; [done..|].
    erewrite bind_of_ok by exact E. change (default _ (Some dm)) with dm.
    by destruct (send_part_keeps dm ether pk rest (tick w) m t) as (r & w' & ? & ? & ?); eauto.
  - destruct (arp_get_mac_miss dst w m t) as (w1 & E & Hs); [done..|].
    erewrite bind_of_ok by exact E. change (default _ None) with unset.
    assert (mac_ok unset) as Hu.
    { split; [unfold unset; len_lia|]. by apply bytes_ok_take, bytes_ok_app, (bytes_ok_zeros 6). }
    pose proof (sent_trace _ _ _ Hs) as T1.
    assert (pctx_ok (pctx w1)) as Hw1 by exact (sent_pctx_ok _ _ _ Hs Hw).
    destruct Hs as (buf & _ & _ & Ew).
    assert (neighbours t (pctx w1) m) as Hn1 by (rewrite Ew; exact Hn).
    destruct (send_part_keeps unset ether pk rest w1 m t) as (r & w' & E2 & Hn2 & T2); [done..|].
    exists r, w'. split_and!; [done|done|]. rewrite T2, T1, <- app_assoc. cbn [app].
    do 4 f_equal. by rewrite Ew.
Qed.

Lemma route_ipv4_echo ether ipv4 w :
  ip4_dst ipv4 = ip (pctx w) → ip4_protocol ipv4 = IPV4_PROTOCOL_ICMP →
  route_ipv4 ether ipv4 w = process_icmp ipv4 w.
Proof.
  intros Hd Hp. unfold route_ipv4, gets, mbind at 1, M_bind at 1. rewrite Hd, Hp.
  assert (CMP_IPV4 (ip (pctx w)) (ip (pctx w)) = true) as -> by (by apply bool_decide_eq_true). done.
Qed.

Lemma route_ipv4_effects ether ipv4 pk rest w m t :
  pctx_ok (pctx w) → neighbours t (pctx w) m → t ≤ env_time (calls w) →
  t ≤ env_time (S (calls w)) → bytes_ok (env_stack (S (calls w))) →
  (∀ k, env_udp k = 0) → pmtu (lp w) = 0 ∨ 500 ≤ pmtu (lp w) →
  IS_SUBNET NONE_IP (subnet_net (pctx w)) (subnet_mask (pctx w)) = false →
  ip_ok (ip4_dst ipv4) → mac_ok (eth_src ether) →
  eth_payload ether = pk ++ rest → bytes_ok (pk ++ rest) →
  ip4_total_len ipv4 = zlen pk → 20 ≤ zlen pk ≤ 2033 →
  ¬ (ip4_dst ipv4 = ip (pctx w) ∧ ip4_protocol ipv4 = IPV4_PROTOCOL_ICMP) →
  ∃ r w', route_ipv4 ether ipv4 w = Ok (r, w') ∧ neighbours t (pctx w') m ∧
    trace w' = trace w ++ ipv4_effects (lp w) ether (ip4_dst ipv4) pk
      (table_lookup m (env_time (calls w)) (ip4_dst ipv4))
      (table_lookup m (env_time (S (calls w))) (ip4_dst ipv4))
      (take 6 (env_stack (S (calls w)) ++ replicate 6 0)).
Proof.
  intros Hw Hn Ht1 Ht2 Hst Hudp Hpm Hzero Hd Hsm Hpay Hb Htl Hl Hecho.
  assert (∀ w0, lp w0 = lp w → ∃ w2, lan_client_send_ipv4 (ip4_dst ipv4) (eth_payload ether) (ip4_total_len ipv4) w0
      = Ok (0, w2) ∧ pctx w2 = pctx w ∧
    trace w2 = trace w0 ++ (EvUdpSend <$> ipv4_datagrams (pmtu (lp w)) (frag_id (lp w)) pk)) as Hrelay.
  { intros w0 E0. rewrite Hpay, Htl. rewrite <- E0 in Hpm |- *.
    destruct (lan_client_send_ipv4_ok w0 pk rest (ip4_dst ipv4)) as [id E]; [done|lia|done..|].
    eexists. split; [exact E|]. rewrite sent_udp_trace. split; [|done].
    etrans; [by apply (sent_udp_frame _ _ _ packet_ctx_of)|]. exact (f_equal packet_ctx_of E0). }
  unfold route_ipv4, gets, ipv4_effects. unfold mbind at 1, M_bind at 1. fold (pctx w). rewrite Htl.
  destruct (CMP_IPV4 (ip4_dst ipv4) (ip (pctx w))) eqn:Eus.
  { apply CMP_IPV4_spec in Eus; [|apply Hd|apply (pc_ip _ Hw)].
    rewrite (proj2 (Z.eqb_neq _ _)) by tauto. exists 0, w. by rewrite app_nil_r. }
  destruct (IS_SUBNET (ip4_dst ipv4) (subnet_net (pctx w)) (subnet_mask (pctx w))) eqn:Esub;
    [destruct (IS_BROADCAST (ip4_dst ipv4) (subnet_net (pctx w)) (subnet_mask (pctx w)))|].
  - destruct (Hrelay w) as (w2 & E & Hp2 & T2); [done|]. rewrite Htl in E. erewrite bind_of_ok by exact E.
    rewrite <- Hp2 in Hw, Hn.
    destruct (send_part_keeps (eth_src ether) ether pk rest w2 m t) as (r & w3 & E3 & Hn3 & T3); [done..|lia|done|done|].
    exists r, w3. split_and!; [done|done|]. by rewrite T3, T2, <- app_assoc, Hp2.
  - assert (ip4_dst ipv4 ≠ NONE_IP) as Hne by (intros E; rewrite E, Hzero in Esub; done).
    erewrite bind_of_ok by (by apply (arp_has_ip_spec _ w m t)).
    destruct (table_lookup m (env_time (calls w)) (ip4_dst ipv4)) as [dm|] eqn:El.
    + apply (neighbour_part_ok ether pk rest (ip4_dst ipv4) (tick w) m t); done || lia.
    + destruct (Hrelay (tick w)) as (w2 & E & Hp2 & T2); [done|]. rewrite Htl in E. rewrite E.
      exists 0, w2. by rewrite Hp2.
  - destruct (CMP_MAC _ _); [|exists 0, w; by rewrite app_nil_r]. by eexists 0, _.
Qed.

(** (C29) Routing of an IPv4 packet seen on the LAN.  Its sender is learnt,
    if the cache has an entry that is unused, expired or for the same
    address, and otherwise the neighbours are as before.  An ICMP message
    for our address goes to the echo handler: a message of at least four
    bytes and less than 2014 is answered to its sender (or, if the sender is
    not in the cache at that moment, an ARP request for it goes out).  Any
    other packet for our address is ignored; a subnet broadcast goes to the
    relay and back to its sender; a packet for another address of the subnet
    goes to the relay, fragmented as the path MTU demands, when no live
    entry is known for it, and else, unchanged and in one frame, to the
    neighbour, unless the entry expires between the two lookups of the code:
    then an ARP request goes out and the frame goes to whatever the
    uninitialised MAC address holds.  A packet for outside the subnet is
    handed to the gateway when [CMP_MAC] takes it for one addressed to our MAC
    and ignored when not.  The packet has 20 to 2033 bytes, all of them there, the clock does
    not go back, and the socket to the relay takes every datagram. *)
Theorem process_ipv4_routes ether ipv4 pk rest w m now :
  pctx_ok (pctx w) → neighbours now (pctx w) m →
  now ≤ env_time (calls w) → env_time (calls w) ≤ env_time (S (calls w)) →
  env_time (S (calls w)) ≤ env_time (S (S (calls w))) → bytes_ok (env_stack (S (S (calls w)))) →
  (∀ k, env_udp k = 0) → pmtu (lp w) = 0 ∨ 500 ≤ pmtu (lp w) →
  IS_SUBNET NONE_IP (subnet_net (pctx w)) (subnet_mask (pctx w)) = false →
  parse_ipv4 ether = Ok ipv4 → mac_ok (eth_src ether) →
  eth_payload ether = pk ++ rest → bytes_ok (pk ++ rest) →
  ip4_total_len ipv4 = zlen pk → 20 ≤ zlen pk ≤ 2033 →
  let p := pctx w in
  let t := env_time (calls w) in
  let src := ip4_src ipv4 in
  let dst := ip4_dst ipv4 in
  let m' := if arp_room t src (arp_list p) then table_set m t (arp_ttl p) src (eth_src ether) else m in
  if bool_decide (dst = ip p) && (ip4_protocol ipv4 =? IPV4_PROTOCOL_ICMP) then
    (∃ l, neighbours t (set_arp_list l p) m' ∧
       process_ipv4 ether w = process_icmp ipv4 (tick (on_pctx (set_arp_list l) w))) ∧
    (∀ ty code c1 c2 data pad, ip4_payload ipv4 = (ty :: code :: c1 :: c2 :: data) ++ pad →
       ip4_total_len ipv4 - ip4_header_len ipv4 = 4 + zlen data → zlen data < 2010 → src ≠ NONE_IP →
       ∃ w', process_ipv4 ether w = Ok (0, w') ∧ neighbours t (pctx w') m' ∧
         trace w' = trace w ++ [EvPcapSend (frame_or_request p
           (table_lookup m' (env_time (S (calls w))) src) src
           (ipv4_packet (ip p) src IPV4_PROTOCOL_ICMP (identification p) (icmp_reply code data)))])
  else
    ∃ r w', process_ipv4 ether w = Ok (r, w') ∧ neighbours t (pctx w') m' ∧
      trace w' = trace w ++ ipv4_effects (lp w) ether dst pk
        (table_lookup m' (env_time (S (calls w))) dst)
        (table_lookup m' (env_time (S (S (calls w)))) dst)
        (take 6 (env_stack (S (S (calls w))) ++ replicate 6 0)).
Proof.
  intros Hw Hn Ht1 Ht2 Ht3 Hst Hudp Hpm Hzero Hparse Hsm Hpay Hb Htl Hl p t src dst m'.
  destruct (parse_ipv4_total ether) as (i & Ei & Hs & Hd & _ & Hbody & _); [by rewrite Hpay|rewrite Hpay; len_lia|].
  rewrite Hparse in Ei. injection Ei as <-. fold src in Hs. fold dst in Hd.
  assert (∃ l, neighbours t (set_arp_list l p) m' ∧
    process_ipv4 ether w = route_ipv4 ether ipv4 (tick (on_pctx (set_arp_list l) w)))
    as (l & Hn1 & Eq).
  { destruct (arp_set_spec (eth_src ether) src w m now) as (l & E & Hset); [done..|].
    exists l. split; [exact Hset|]. unfold process_ipv4. erewrite lift_bind by exact Hparse.
    by erewrite bind_of_ok by exact E. }
  rewrite Eq. clearbody m'. set (w1 := tick _) in *.
  assert (pctx_ok (pctx w1)) as Hw1 by (destruct Hw; by constructor).
  assert (t ≤ env_time (S (calls w1))) as Ht by (change (t ≤ env_time (S (S (calls w)))); unfold t; lia).
  destruct (bool_decide_reflect (dst = ip p)) as [Hus|Hus]; cbn [andb]; [destruct (Z.eqb_spec (ip4_protocol ipv4) IPV4_PROTOCOL_ICMP)|].
  - rewrite (route_ipv4_echo ether ipv4 w1) by done. split; [by exists l|].
    intros ty code c1 c2 data pad Hicmp Hlen Hdl Hne.
    assert (bytes_ok (ip4_payload ipv4)) as Hpb by (rewrite Hbody, Hpay; by apply bytes_ok_drop).
    rewrite Hicmp in Hpb. apply Forall_app in Hpb as [Hpb _].
    by destruct (process_icmp_echo ipv4 ty code c1 c2 data pad w1 m' t) as [He _].
  - apply (route_ipv4_effects ether ipv4 pk rest w1 m' t); try done. by intros [].
  - apply (route_ipv4_effects ether ipv4 pk rest w1 m' t); try done. by intros [].
Qed.
End Dispatch.

(** * The theorems at a concrete state *)

Lemma send_ipv4_spec_witness :
  ∃ r w', @send_ipv4 Sample.env Sample.peer_ip IPV4_PROTOCOL_TCP [mk_payload [1; 2; 3] 3] (LanSample.start 0)
            = Ok (r, w') ∧
    trace w' = [EvPcapSend (ipv4_frame Sample.pc Sample.peer_mac
      (ipv4_header Sample.our_ip Sample.peer_ip 6 0 23 ++ [1; 2; 3]))].
Proof.
  destruct (@send_ipv4_spec Sample.env Sample.peer_ip IPV4_PROTOCOL_TCP [mk_payload [1; 2; 3] 3]
    (LanSample.start 0) LanSample.neighbour_table 1000) as (_ & r & w' & E & _ & Hm).
  - apply (cl_pctx _ (LanSample.client_is_ok 0)).
  - apply LanSample.start_neighbours.
  - vm_compute. discriminate.
  - apply Sample.peer_ip_ok.
  - discriminate.
  - unfold IPV4_PROTOCOL_TCP. lia.
  - repeat constructor; unfold byte_ok, zlen; simpl; lia.
  - vm_compute. reflexivity.
  - exists r, w'. split; [exact E|]. apply Hm.
Defined.

Definition sample_ether (bs : list Z) : ether_frame :=
  mk_ether [] 0 Sample.our_mac Sample.peer_mac ETHER_TYPE_IPV4 bs.

Lemma parse_ipv4_of_built_witness :
  ∃ p, parse_ipv4 (sample_ether (ipv4_packet Sample.our_ip Sample.peer_ip 17 5 [1; 2] ++ [9])) = Ok p ∧
    ip4_payload p = [1; 2; 9] ∧ ip4_checksum p ≠ 0x2693.
Proof.
  eexists. split.
  - apply (parse_ipv4_of_built _ Sample.our_ip Sample.peer_ip 17 5 [1; 2] [9]).
    + apply Sample.our_ip_ok.
    + apply Sample.peer_ip_ok.
    + lia.
    + lia.
    + vm_compute. reflexivity.
    + reflexivity.
  - split; [reflexivity|]. vm_compute. discriminate.
Defined.

Lemma send_udp_roundtrip_witness :
  ∃ r w', @send_udp_ex Sample.env Sample.our_ip 4000 Sample.peer_ip 53
            [mk_payload [1; 2] 2; mk_payload [3; 4; 5] 3] (LanSample.start 0) = Ok (r, w') ∧
    zlen (trace w') = 1.
Proof.
  destruct (@send_udp_roundtrip Sample.env Sample.our_ip 4000 Sample.peer_ip 53
    [mk_payload [1; 2] 2; mk_payload [3; 4; 5] 3] (LanSample.start 0) LanSample.neighbour_table 1000
    Sample.peer_mac) as ((r & w' & E & T) & _).
  - apply (cl_pctx _ (LanSample.client_is_ok 0)).
  - apply LanSample.start_neighbours.
  - vm_compute. discriminate.
  - apply Sample.our_ip_ok.
  - apply Sample.peer_ip_ok.
  - discriminate.
  - lia.
  - lia.
  - repeat constructor; unfold byte_ok, zlen; simpl; lia.
  - split; [by exists 1|done].
  - vm_compute. reflexivity.
  - vm_compute. reflexivity.
  - exists r, w'. split; [exact E|]. by rewrite T.
Defined.

(** A ping of our address from 10.13.0.7, with 4 bytes of data. *)
Definition sample_ping : ipv4 :=
  mk_ipv4 (sample_ether []) 4 20 0 0 28 1 0 0 64 IPV4_PROTOCOL_ICMP 0 Sample.peer_ip Sample.our_ip
    ([8; 0; 1; 2; 10; 20; 30; 40] ++ [0]).

Lemma process_icmp_echo_witness :
  ∃ w', @process_icmp Sample.env sample_ping (LanSample.start 0) = Ok (0, w') ∧
    trace w' = [EvPcapSend (ipv4_frame Sample.pc Sample.peer_mac
      (ipv4_packet Sample.our_ip Sample.peer_ip 1 0 [0; 0; 215; 195; 10; 20; 30; 40]))].
Proof.
  destruct (@process_icmp_echo Sample.env sample_ping 8 0 1 2 [10; 20; 30; 40] [0]
    (LanSample.start 0) LanSample.neighbour_table 1000) as ((w' & E & _ & T) & _).
  - apply (cl_pctx _ (LanSample.client_is_ok 0)).
  - apply LanSample.start_neighbours.
  - vm_compute. discriminate.
  - Sample.bytes_solve.
  - vm_compute. reflexivity.
  - reflexivity.
  - reflexivity.
  - apply Sample.peer_ip_ok.
  - discriminate.
  - exists w'. split; [exact E|]. rewrite T. vm_compute. reflexivity.
Defined.

Lemma process_icmp_unchecked_length_witness :
  @process_icmp Sample.env (mk_ipv4 (sample_ether []) 4 60 0 0 20 1 0 0 64 IPV4_PROTOCOL_ICMP 0
    Sample.peer_ip Sample.our_ip (replicate 100 0)) (LanSample.start 0) = Fail OutOfBounds.
Proof. apply (@process_icmp_unchecked_length Sample.env). left. simpl. lia. Defined.

(** A TCP packet from 10.13.37.1 to an address of the subnet nobody knows. *)
Definition sample_tcp : list Z := ipv4_packet Sample.peer_ip Sample.other_ip IPV4_PROTOCOL_TCP 7 [1; 2; 3].

Lemma sample_tcp_bytes_ok : bytes_ok (sample_tcp ++ [0]).
Proof.
  apply bytes_ok_app; [|Sample.bytes_solve]. apply bytes_ok_app; [|Sample.bytes_solve].
  apply ipv4_header_ok; [apply Sample.peer_ip_ok|apply Sample.other_ip_ok|unfold IPV4_PROTOCOL_TCP; lia].
Qed.

Lemma process_ipv4_routes_witness :
  ∃ r w', @process_ipv4 Sample.env (sample_ether (sample_tcp ++ [0])) (LanSample.start 0) = Ok (r, w') ∧
    trace w' = [EvUdpSend (LAN_CLIENT_TYPE_IPV4 :: sample_tcp)].
Proof.
  set (ether := sample_ether (sample_tcp ++ [0])).
  destruct (@process_ipv4_routes Sample.env ether
    (mk_ipv4 ether 4 20 0 0 23 7 0 0 128 6
       (6 * 256 + Rfc1071.checksum (ipv4_header_with Sample.peer_ip Sample.other_ip 6 7 23 0) / 256)
       Sample.peer_ip Sample.other_ip [1; 2; 3; 0])
    sample_tcp [0] (LanSample.start 0) LanSample.neighbour_table 1000) as (r & w' & E & _ & T).
  - apply (cl_pctx _ (LanSample.client_is_ok 0)).
  - apply LanSample.start_neighbours.
  - vm_compute. discriminate.
  - vm_compute. discriminate.
  - vm_compute. discriminate.
  - Sample.bytes_solve.
  - reflexivity.
  - left. reflexivity.
  - vm_compute. reflexivity.
  - vm_compute. reflexivity.
  - apply Sample.peer_mac_ok.
  - reflexivity.
  - apply sample_tcp_bytes_ok.
  - vm_compute. reflexivity.
  - vm_compute. split; discriminate.
  - exists r, w'. split; [exact E|]. rewrite T. vm_compute. reflexivity.
Defined.
