(* ===== verification/Helper.v ===== *)
(** Addresses given as text: [client-switch-lan-play/helper.c].

    C strings are the bytes before the terminator.  [getaddrinfo] and the
    [ioctl] that reads a MAC address are parameters. *)
From Stdlib Require Import Ascii String.
From S2P Require Import Prelude.
From S2P Require Import NetBytes.
From S2P Require Import Types.
Local Open Scope Z_scope.

(** * C strings and the number parsers of the C library *)

Fixpoint str (s : string) : list Z :=
  match s with
  | EmptyString => []
  | String c s => Z.of_nat (nat_of_ascii c) :: str s
  end.

Definition is_space (c : Z) : bool := (c =? 32) || ((9 <=? c) && (c <=? 13)).
Definition is_digit (c : Z) : bool := (48 <=? c) && (c <=? 57).

Fixpoint skip_spaces (s : list Z) : list Z :=
  match s with c :: t => if is_space c then skip_spaces t else s | [] => [] end.

(** The digits at the start of [s]: their value after [acc], how many, the rest. *)
Fixpoint scan_digits (acc : Z) (n : nat) (s : list Z) : Z * nat * list Z :=
  match s with
  | c :: t => if is_digit c then scan_digits (acc * 10 + (c - 48)) (S n) t else (acc, n, s)
  | [] => (acc, n, [])
  end.

(** An optional sign and digits, after white space: the value and what
    follows, or [None] when there is no digit. *)
Definition scan_int (s : list Z) : option (Z * list Z) :=
  let s := skip_spaces s in
  let '(neg, s) := match s with
                   | 45 :: t => (true, t) | 43 :: t => (false, t) | _ => (false, s) end in
  let '(v, n, rest) := scan_digits 0 0 s in
  match n with O => None | _ => Some (if neg then - v else v, rest) end.

(** [strtol(s, &err, 10)] and [*err], on a string short enough not to overflow. *)
Definition strtol (s : list Z) : Z * list Z :=
  match scan_int s with Some (v, rest) => (v, rest) | None => (0, s) end.

(** [sscanf(ip, "%d.%d.%d.%d", ...)]: the numbers read before the first mismatch. *)
Fixpoint sscanf_dotted (n : nat) (s : list Z) : list Z :=
  match n with
  | O => []
  | S n =>
      match scan_int s with
      | None => []
      | Some (v, rest) =>
          s32 v :: match rest with 46 :: rest => sscanf_dotted n rest | _ => [] end
      end
  end.

(** * The program *)

(** [eprintf(" %02x", b)] of a byte. *)
Definition hex_digit (d : Z) : Z := if d <? 10 then 48 + d else 87 + d.
Definition hex_byte (b : Z) : list Z := [32; hex_digit (b / 16); hex_digit (b mod 16)].

(** The loops that print bytes sixteen to a line; [i] counts the bytes
    printed before. *)
Fixpoint hex_lines (i : Z) (bs : list Z) : list Z :=
  match bs with
  | [] => []
  | b :: bs => hex_byte b ++ (if (i + 1) mod 16 =? 0 then [10] else []) ++ hex_lines (i + 1) bs
  end.

(** [print_hex]: what is written to [stderr]. *)
Definition print_hex (buf : list Z) (len : Z) : result (list Z) :=
  bs ← mem_read buf 0 (Z.max 0 len);
  Ok (hex_lines 0 bs ++ [10; 10]).

(** [str2ip]; [stack] is what the uninitialised [int p[4]] holds. *)
Definition str2ip (stack : list Z) (ip : list Z) : list Z :=
  let p := sscanf_dotted 4 ip in
  u8 <$> take 4 (p ++ drop (length p) stack).

(** [while (i < len && str[i] != stop) i++;] *)
Fixpoint find_char (stop : Z) (s : list Z) (i : nat) : nat :=
  match s with
  | [] => i
  | c :: t => if c =? stop then i else find_char stop t (S i)
  end.

Definition UINT16_MAX : Z := 65535.

(** [parse_ip_port]: the address, the port and [is_ipv6], or [None] for -1. *)
Definition parse_ip_port (s : list Z) (out_addr_len : Z) : option (list Z * Z * bool) :=
  let len := zlen s in
  if (len <? 1) || (len >? 1000) then None
  else
    '(addr_start, addr_len, port_start, is_ipv6) ←
      (if default 0 (s !! 0%nat) =? 91 then
         let i := Z.of_nat (find_char 93 (drop 1 s) 1) in
         if i >=? len then None
         else if (i + 1 >=? len) || negb (default 0 (s !! Z.to_nat (i + 1)) =? 58) then None
         else Some (1, i - 1, i + 2, true)
       else
         let i := Z.of_nat (find_char 58 s 0) in
         if i >=? len then None else Some (0, i, i + 1, false));
    let port_len := len - port_start in
    if addr_len >=? out_addr_len then None
    else
      let out_addr := take (Z.to_nat addr_len) (drop (Z.to_nat addr_start) s) in
      if port_len >=? 6 then None
      else
        let port_str := drop (Z.to_nat port_start) s in
        let '(conv_res, err) := strtol port_str in
        if match port_str with [] => true | _ => false end
           || match err with [] => false | _ => true end then None
        else if (conv_res <? 0) || (conv_res >? UINT16_MAX) then None
        else Some (out_addr, conv_res, is_ipv6).

Section Resolver.
(** [getaddrinfo(node, NULL, hints.ai_family)]: family and address of the
    first result, or [None] when it fails. *)
Variable getaddrinfo : list Z → Z → option (Z * list Z).

Definition parse_addr (s : list Z) : option slp_addr_in :=
  '(addr_str, port, is_ipv6) ← parse_ip_port s 128;
  '(family, addr) ← getaddrinfo addr_str (if is_ipv6 : bool then AF_INET6 else AF_INET);
  if family =? AF_INET then Some (mk_addr AF_INET addr (htons port))
  else if family =? AF_INET6 then Some (mk_addr AF_INET6 addr (htons port))
  else None.
End Resolver.

(** [ip2str]; [uv_ip4_name] and [uv_ip6_name] are parameters. *)
Definition ip2str (uv_ip4_name uv_ip6_name : list Z → list Z) (sin_family : Z)
    (sa_family : Z) (addr : list Z) : list Z :=
  if negb (sin_family =? sa_family) then str "Error: family mismatch"
  else if sin_family =? AF_INET then uv_ip4_name addr
  else if sin_family =? AF_INET6 then uv_ip6_name addr
  else str "Error: unsupported sin_family".

(** [get_mac_address] on Linux: [ioctl(SIOCGIFHWADDR)] for the named device. *)
Definition IFNAMSIZ : Z := 16.
Definition get_mac_address (ioctl : list Z → option (list Z)) (name : list Z)
    : result (list Z) :=
  ifr_name ← mem_write (replicate (Z.to_nat IFNAMSIZ) 0) 0 (name ++ [0]);
  match ioctl ifr_name with
  | None => Fail (ExitCalled 1)
  | Some sa_data => mem_read sa_data 0 6
  end.

(** ** [compare_guid] (Windows) *)

(** The first two loops: what follows the first opening brace, if any. *)
Fixpoint after_brace (s : list Z) : result (option (list Z)) :=
  match s with
  | [] => Fail OutOfBounds
  | c :: t => if c =? 0 then Ok None else if c =? 123 then Ok (Some t) else after_brace t
  end.

(** The last loop; the tests [if (!pc)] and [if (!ic)] are on the pointers. *)
Fixpoint match_guid (pc ic : list Z) : result Z :=
  match pc, ic with
  | p :: pc, i :: ic =>
      if (p =? 125) && (i =? 125) then Ok 0
      else if negb (p =? i) then Ok (s32 (i - p))
      else match_guid pc ic
  | _, _ => Fail OutOfBounds
  end.

(** The arguments are the memory from the pointers on, terminators included. *)
Definition compare_guid (wszPcapName wszIfName : list Z) : result Z :=
  pc ← after_brace wszPcapName;
  match pc with
  | None => Ok (-1)
  | Some pc =>
      ic ← after_brace wszIfName;
      match ic with
      | None => Ok 1
      | Some ic => match_guid pc ic
      end
  end.

(** * Lemmas *)

(** Decimal digits without leading zeros. *)
Fixpoint digits (fuel : nat) (n : Z) : list Z :=
  match fuel with
  | O => []
  | S fuel => if n <? 10 then [48 + n] else digits fuel (n / 10) ++ [48 + n mod 10]
  end.
Definition decimal (n : Z) : list Z := digits 20 n.

Definition dec_value (acc : Z) (ds : list Z) : Z := foldl (λ a c, a * 10 + (c - 48)) acc ds.

Lemma scan_digits_app acc n ds rest :
  Forall (λ c, is_digit c = true) ds →
  scan_digits acc n (ds ++ rest) = scan_digits (dec_value acc ds) (n + length ds) rest.
Proof.
  intros Hd. revert acc n. induction Hd as [|c ds Hc _ IH]; intros acc n; simpl.
  { by rewrite Nat.add_0_r. }
  rewrite Hc, IH. unfold dec_value. simpl. f_equal. lia.
Qed.

Lemma digits_ok fuel n :
  0 ≤ n < 10 ^ Z.of_nat fuel →
  Forall (λ c, is_digit c = true) (digits fuel n) ∧ (0 < fuel → length (digits fuel n) > 0)%nat ∧
  ∀ acc, dec_value acc (digits fuel n) = acc * 10 ^ zlen (digits fuel n) + n.
Proof.
  revert n. induction fuel as [|fuel IH]; intros n Hn.
  { simpl in *. split_and!; [constructor|lia|]. intros acc. unfold zlen. simpl. lia. }
  rewrite Nat2Z.inj_succ, Z.pow_succ_r in Hn by lia. cbn [digits].
  assert (∀ d, 0 ≤ d < 10 → is_digit (48 + d) = true) as Hdig by (intros; unfold is_digit; lia).
  destruct (Z.ltb_spec n 10).
  - split_and!; [constructor; [apply Hdig; lia|constructor]|simpl; lia|].
    intros acc. unfold dec_value, zlen. simpl. lia.
  - destruct (IH (n / 10)) as (Hf & _ & Hv); [Z.div_mod_to_equations; lia|].
    pose proof (Z.mod_pos_bound n 10 ltac:(lia)). split_and!.
    + apply Forall_app. split; [done|]. constructor; [by apply Hdig|constructor].
    + rewrite length_app. simpl. lia.
    + intros acc. unfold dec_value in *. rewrite foldl_app. simpl. rewrite Hv.
      unfold zlen. rewrite length_app. cbn [length]. rewrite Nat2Z.inj_add, Z.pow_add_r by lia.
      change (10 ^ Z.of_nat 1) with 10. pose proof (Z.div_mod n 10). lia.
Qed.

Lemma digits_length fuel n k : 0 ≤ n < 10 ^ Z.of_nat (S k) → (length (digits fuel n) ≤ S k)%nat.
Proof.
  revert n k. induction fuel as [|fuel IH]; intros n k Hn; [simpl; lia|]. cbn [digits].
  destruct (Z.ltb_spec n 10); [simpl; lia|]. rewrite length_app. cbn [length].
  destruct k as [|k]; [simpl in Hn; lia|].
  rewrite Nat2Z.inj_succ, Z.pow_succ_r in Hn by lia.
  specialize (IH (n / 10) k ltac:(Z.div_mod_to_equations; lia)). lia.
Qed.

(** A number written in decimal is read back, up to what follows it. *)
Lemma scan_int_decimal p rest :
  0 ≤ p ≤ 65535 → default false (is_digit <$> head rest) = false →
  scan_int (decimal p ++ rest) = Some (p, rest) ∧ decimal p ≠ [].
Proof.
  intros Hp Hrest. unfold decimal.
  destruct (digits_ok 20 p) as (Hf & Hne & Hv); [simpl; lia|]. specialize (Hne ltac:(lia)).
  destruct (digits 20 p) as [|c ds] eqn:E; [simpl in Hne; lia|]. split; [|done].
  assert (is_digit c = true) as Hc by (apply Forall_cons_iff in Hf; tauto).
  unfold scan_int. cbn [app skip_spaces].
  assert (is_space c = false) as -> by (unfold is_space, is_digit in *; lia).
  assert (∀ l : list Z, match c :: l with 45 :: t => (true, t) | 43 :: t => (false, t) | _ => (false, c :: l) end
          = (false, c :: l)) as ->.
  { assert (c = 48 ∨ c = 49 ∨ c = 50 ∨ c = 51 ∨ c = 52 ∨ c = 53 ∨ c = 54 ∨ c = 55 ∨ c = 56 ∨ c = 57)
      as Hcase by (unfold is_digit in Hc; lia).
    by repeat destruct Hcase as [->|Hcase]; subst. }
  pose proof (scan_digits_app 0 0 (c :: ds) rest Hf) as Hs. cbn [app] in Hs. rewrite Hs, Hv.
  rewrite Z.mul_0_l, Z.add_0_l. cbn [length Nat.add].
  destruct rest as [|x rest]; cbn [scan_digits]; [done|]. simpl in Hrest. by rewrite Hrest.
Qed.

Lemma strtol_decimal p : 0 ≤ p ≤ 65535 → strtol (decimal p) = (p, []) ∧ decimal p ≠ [].
Proof.
  intros Hp. destruct (scan_int_decimal p [] Hp eq_refl) as [E Hne]. split; [|done].
  rewrite app_nil_r in E. unfold strtol. by rewrite E.
Qed.

Lemma find_char_app stop pre post i :
  stop ∉ pre → find_char stop (pre ++ (stop :: post)) i = (i + length pre)%nat.
Proof.
  revert i. induction pre as [|c pre IH]; intros i Hn; simpl.
  { rewrite Z.eqb_refl. lia. }
  apply not_elem_of_cons in Hn as [Hc Hn].
  rewrite (proj2 (Z.eqb_neq _ _)) by done. rewrite IH by done. lia.
Qed.

Lemma find_char_found stop s i :
  (find_char stop s i < i + length s)%nat →
  ∃ pre post, s = (pre ++ (stop :: post)) ∧ (stop ∉ pre) ∧ find_char stop s i = (i + length pre)%nat.
Proof.
  revert i. induction s as [|c s IH]; intros i; simpl; [lia|].
  destruct (Z.eqb_spec c stop) as [->|Hc].
  - intros _. exists [], s. split_and!; [done|apply not_elem_of_nil|simpl; lia].
  - intros Hl. destruct (IH (S i)) as (pre & post & -> & Hn & E); [lia|].
    exists (c :: pre), post. split_and!; [done| |simpl; lia].
    apply not_elem_of_cons. auto.
Qed.

(** How an address is written: [host:port], or [[host]:port] for IPv6. *)
Definition written (is_ipv6 : bool) (host port : list Z) : list Z :=
  if is_ipv6 then [91] ++ host ++ [93; 58] ++ port else host ++ [58] ++ port.

(** A host that can be written: it does not contain the character that ends
    it, and an IPv4 host does not look like a bracketed one. *)
Definition host_ok (is_ipv6 : bool) (host : list Z) : Prop :=
  if is_ipv6 then (93 ∉ host) else (58 ∉ host) ∧ head host ≠ Some 91.

Lemma parse_written is_ipv6 host port n :
  host_ok is_ipv6 host → zlen (written is_ipv6 host port) ≤ 1000 →
  parse_ip_port (written is_ipv6 host port) n =
    if zlen host >=? n then None
    else if zlen port >=? 6 then None
    else let '(conv_res, err) := strtol port in
         if match port with [] => true | _ => false end
            || match err with [] => false | _ => true end then None
         else if (conv_res <? 0) || (conv_res >? UINT16_MAX) then None
         else Some (host, conv_res, is_ipv6).
Proof.
  intros Hh Hl. unfold parse_ip_port. destruct is_ipv6; cbn [written] in *.
  - set (s := [91] ++ host ++ [93; 58] ++ port).
    assert (zlen s = zlen host + zlen port + 3) as Hs by (unfold s; len_lia). fold s in Hl.
    assert (0 ≤ zlen host ∧ 0 ≤ zlen port) as [??] by (unfold zlen; lia).
    assert ((zlen s <? 1) || (zlen s >? 1000) = false) as -> by lia. cbv iota.
    change (default 0 (s !! 0%nat) =? 91) with true. cbv iota.
    change (drop 1 s) with (host ++ 93 :: 58 :: port).
    rewrite find_char_app by exact Hh.
    replace (Z.of_nat (1 + length host)) with (zlen host + 1) by (unfold zlen; lia).
    destruct (Z.geb_spec (zlen host + 1) (zlen s)); [lia|].
    assert (s !! Z.to_nat (zlen host + 1 + 1) = Some 58) as ->.
    { unfold s. replace (Z.to_nat (zlen host + 1 + 1)) with (S (length host + 1)) by (unfold zlen; lia).
      cbn [app]. change ((91 :: host ++ 93 :: 58 :: port) !! S (length host + 1)) with
        ((host ++ 93 :: 58 :: port) !! (length host + 1)%nat).
      rewrite lookup_app_r by lia. by replace (length host + 1 - length host)%nat with 1%nat by lia. }
    assert ((zlen host + 1 + 1 >=? zlen s) || negb (default 0 (Some 58) =? 58) = false) as ->
      by (simpl; lia). cbv iota.
    cbn [mbind option_bind]. replace (zlen host + 1 - 1) with (zlen host) by lia.
    replace (zlen s - (zlen host + 1 + 2)) with (zlen port) by lia.
    assert (take (Z.to_nat (zlen host)) (drop (Z.to_nat 1) s) = host) as ->.
    { unfold s, zlen. rewrite Nat2Z.id. change (drop (Z.to_nat 1) ([91] ++ host ++ [93; 58] ++ port))
        with (host ++ [93; 58] ++ port). apply take_app_length. }
    assert (drop (Z.to_nat (zlen host + 1 + 2)) s = port) as ->; [|done].
    unfold s. rewrite !app_assoc. apply drop_app_length'. len_lia.
  - destruct Hh as [Hh Hb]. set (s := host ++ [58] ++ port).
    assert (zlen s = zlen host + zlen port + 1) as Hs by (unfold s; len_lia). fold s in Hl.
    assert (0 ≤ zlen host ∧ 0 ≤ zlen port) as [??] by (unfold zlen; lia).
    assert ((zlen s <? 1) || (zlen s >? 1000) = false) as -> by lia. cbv iota.
    assert ((default 0 (s !! 0%nat) =? 91) = false) as ->.
    { unfold s. destruct host as [|c host]; [done|]. simpl in *. apply Z.eqb_neq. congruence. }
    cbv iota.
    assert (find_char 58 s 0 = length host) as -> by (by apply (find_char_app 58 host port)).
    fold (zlen host).
    destruct (Z.geb_spec (zlen host) (zlen s)); [lia|].
    cbn [mbind option_bind].
    replace (zlen s - (zlen host + 1)) with (zlen port) by lia.
    assert (take (Z.to_nat (zlen host)) (drop (Z.to_nat 0) s) = host) as ->.
    { unfold s, zlen. rewrite Nat2Z.id, drop_0. apply take_app_length. }
    assert (drop (Z.to_nat (zlen host + 1)) s = port) as ->; [|done].
    unfold s. rewrite app_assoc. apply drop_app_length'. len_lia.
Qed.

Lemma zlen_decimal p : 0 ≤ p ≤ 65535 → zlen (decimal p) ≤ 5.
Proof.
  intros Hp. assert (0 ≤ p < 10 ^ Z.of_nat 5) as Hp' by (change (10 ^ Z.of_nat 5) with 100000; lia).
  pose proof (digits_length 20 p 4 Hp'). unfold zlen, decimal. lia.
Qed.

(** [parse_ip_port] reads back what was written: for every host that fits
    the buffer and every port, [host:port] and [[host]:port] give the host,
    the port and whether brackets were used. *)
Theorem parse_ip_port_roundtrip is_ipv6 host p n :
  host_ok is_ipv6 host → zlen host < n → n ≤ 900 → 0 ≤ p ≤ 65535 →
  parse_ip_port (written is_ipv6 host (decimal p)) n = Some (host, p, is_ipv6).
Proof.
  intros Hh Hl Hn Hp. pose proof (zlen_decimal p Hp) as Hd.
  rewrite parse_written by (done || (unfold written; destruct is_ipv6; len_lia)).
  destruct (Z.geb_spec (zlen host) n); [lia|]. destruct (Z.geb_spec (zlen (decimal p)) 6); [lia|].
  destruct (strtol_decimal p Hp) as [-> Hne]. destruct (decimal p); [done|].
  unfold UINT16_MAX. cbn [orb]. by rewrite (proj2 (orb_false_iff _ _)) by lia.
Qed.

(** Whatever [parse_ip_port] accepts was written as [host:port] or
    [[host]:port]: the host fits the buffer with its terminator, the port text
    has at most five characters, [strtol] consumes all of it, and the port is
    a 16-bit number. *)
Theorem parse_ip_port_sound s n host p is_ipv6 :
  n ≤ 900 → parse_ip_port s n = Some (host, p, is_ipv6) →
  zlen host < n ∧ 0 ≤ p ≤ 65535 ∧ host_ok is_ipv6 host ∧
  ∃ port, s = written is_ipv6 host port ∧ 0 < zlen port ≤ 5 ∧ strtol port = (p, []).
Proof.
  intros Hn E.
  assert (∃ b h port, s = written b h port ∧ host_ok b h) as (b & h & port & -> & Hh).
  { unfold parse_ip_port in E. destruct ((zlen s <? 1) || (zlen s >? 1000)); [done|].
    destruct s as [|c s]; [done|]. simpl default in E.
    destruct (Z.eqb_spec c 91) as [->|Hc].
    - exists true. change (drop 1 (91 :: s)) with s in E. rewrite ?drop_0 in E.
      destruct (Z.geb_spec (Z.of_nat (find_char 93 s 1)) (zlen (91 :: s))) as [|Hlt]; [done|].
      destruct (find_char_found 93 s 1) as (pre & post & -> & Hni & Ef); [unfold zlen in Hlt; simpl in *; lia|].
      rewrite Ef in E. destruct ((Z.of_nat (1 + length pre) + 1 >=? _) || negb _) eqn:Eg; [done|].
      apply orb_false_iff in Eg as [_ Eg]. apply negb_false_iff, Z.eqb_eq in Eg.
      replace (Z.to_nat (Z.of_nat (1 + length pre) + 1)) with (S (length pre) + 1)%nat in Eg by lia.
      change (91 :: pre ++ 93 :: post) with ((91 :: pre) ++ 93 :: post) in Eg.
      rewrite lookup_app_r in Eg by (simpl; lia). cbn [length] in Eg.
      replace (S (length pre) + 1 - S (length pre))%nat with 1%nat in Eg by lia.
      destruct post as [|x post]; [done|]. simpl in Eg. subst x.
      exists pre, post. split; [done|exact Hni].
    - exists false. destruct (Z.geb_spec (Z.of_nat (find_char 58 (c :: s) 0)) (zlen (c :: s))) as [|Hlt]; [done|].
      destruct (find_char_found 58 (c :: s) 0) as (pre & post & Es & Hni & _); [unfold zlen in Hlt; simpl in *; lia|].
      exists pre, post. split; [done|]. split; [done|]. destruct pre as [|x pre]; [done|].
      simpl in *. congruence. }
  destruct (decide (zlen (written b h port) ≤ 1000)) as [Hle|Hbig].
  - rewrite parse_written in E by done. destruct (Z.geb_spec (zlen h) n); [done|].
    destruct (Z.geb_spec (zlen port) 6); [done|]. destruct (strtol port) as [v err] eqn:Es.
    destruct (_ || _) eqn:E1 in E; [done|]. destruct (_ || _) eqn:E2 in E; [done|].
    injection E as -> -> ->. apply orb_false_iff in E2 as [??]. unfold UINT16_MAX in *.
    split_and!; [lia|lia|lia|done|]. exists port. destruct port, err; try done.
    split_and!; [done|unfold zlen; simpl; lia|unfold zlen in *; lia|done].
  - unfold parse_ip_port in E.
    by assert ((zlen (written b h port) <? 1) || (zlen (written b h port) >? 1000) = true) as Hb by lia;
      rewrite Hb in E.
Qed.

Lemma sscanf_step n p rest :
  0 ≤ p < 256 → default false (is_digit <$> head rest) = false →
  sscanf_dotted (S n) (decimal p ++ rest) =
    p :: match rest with 46 :: rest => sscanf_dotted n rest | _ => [] end.
Proof.
  intros Hp Hr. cbn [sscanf_dotted]. destruct (scan_int_decimal p rest) as [-> _]; [lia|done|].
  by rewrite s32_small by lia.
Qed.

(** The dotted form of an address. *)
Definition dotted (a b c d : Z) : list Z :=
  decimal a ++ [46] ++ decimal b ++ [46] ++ decimal c ++ [46] ++ decimal d.

(** [str2ip] gives the four bytes of an address in dotted form, whatever
    its uninitialised array held and whatever text follows the last number. *)
Theorem str2ip_dotted stack a b c d rest :
  byte_ok a → byte_ok b → byte_ok c → byte_ok d →
  default false (is_digit <$> head rest) = false →
  str2ip stack (dotted a b c d ++ rest) = [a; b; c; d].
Proof.
  unfold byte_ok. intros Ha Hb Hc Hd Hr. unfold str2ip, dotted. rewrite <- !app_assoc.
  do 4 (rewrite sscanf_step by done; cbn [app]).
  replace (match rest with 46 :: rest0 => sscanf_dotted 0 rest0 | _ => [] end) with (@nil Z)
    by (destruct rest as [|x rest]; [done|]; by do 8 (try case_match)).
  simpl. by rewrite !u8_small by lia.
Qed.

(** * Witnesses *)

Lemma parse_ip_port_roundtrip_witness :
  parse_ip_port (str "[fe80::1]:11451") 128 = Some (str "fe80::1", 11451, true) ∧
  parse_ip_port (str "switch.lan-play.com:11451") 128 = Some (str "switch.lan-play.com", 11451, false).
Proof.
  split.
  - apply (parse_ip_port_roundtrip true (str "fe80::1") 11451 128);
      [|vm_compute; reflexivity|vm_compute; discriminate|lia].
    unfold host_ok. apply (bool_decide_eq_true_1 (93 ∉ _)). vm_compute. reflexivity.
  - apply (parse_ip_port_roundtrip false (str "switch.lan-play.com") 11451 128);
      [|vm_compute; reflexivity|vm_compute; discriminate|lia].
    split; [apply (bool_decide_eq_true_1 (58 ∉ _)); vm_compute; reflexivity|discriminate].
Defined.

Lemma parse_ip_port_sound_witness :
  ∃ port, str "10.13.0.1:08080" = written false (str "10.13.0.1") port ∧
    0 < zlen port ≤ 5 ∧ strtol port = (8080, []).
Proof.
  refine (proj2 (proj2 (proj2 (parse_ip_port_sound (str "10.13.0.1:08080") 128 (str "10.13.0.1") 8080 false _ _))));
    [lia|vm_compute; reflexivity].
Defined.

Lemma str2ip_dotted_witness : str2ip [7; 7; 7; 7] (str "10.13.37.1/16") = [10; 13; 37; 1].
Proof.
  apply (str2ip_dotted [7; 7; 7; 7] 10 13 37 1 (str "/16")); try (unfold byte_ok; lia).
  vm_compute. reflexivity.
Defined.
