(* ===== verification/Options.v ===== *)
(** Command-line options: [parse_arguments], [options_relay_server_addr] and
    [options_socks5_server_addr] of [client-switch-lan-play/main.c], with
    [struct cli_options] and [OPTIONS_DEF] of [lan-play.h]. *)
From stdpp Require Import strings.
From S2P Require Import Prelude.
From S2P Require Import Types.
From S2P Require Import Helper.
Local Open Scope Z_scope.

(** * The program *)

(** A [char *] option: null, memory the program did not allocate (a string of
    [argv] or a literal), or a [strdup]ed string. *)
Inductive c_str := Null | Static (s : list Z) | Heap (s : list Z).
Definition text (p : c_str) : option (list Z) :=
  match p with Null => None | Static s | Heap s => Some s end.
Definition is_null (p : c_str) : bool := match p with Null => true | _ => false end.

Record cli_options := mk_options {
  opt_help : Z; opt_version : Z;
  opt_broadcast : bool; opt_pmtu : Z; fake_internet : bool; list_if : bool;
  netif_ipaddr : c_str; netif : c_str; netif_netmask : c_str;
  relay_server_addr : c_str; relay_username : c_str; relay_password : c_str;
  relay_password_file : c_str;
  socks5_server_addr : c_str; socks5_username : c_str; socks5_password : c_str;
  socks5_password_file : c_str;
  rpc : c_str; rpc_token : c_str; rpc_protocol : c_str }.

Definition set_help (x : Z) (o : cli_options) : cli_options :=
  mk_options x (opt_version o) (opt_broadcast o) (opt_pmtu o) (fake_internet o) (list_if o)
    (netif_ipaddr o) (netif o) (netif_netmask o) (relay_server_addr o) (relay_username o)
    (relay_password o) (relay_password_file o) (socks5_server_addr o) (socks5_username o)
    (socks5_password o) (socks5_password_file o) (rpc o) (rpc_token o) (rpc_protocol o).
Definition set_version (x : Z) (o : cli_options) : cli_options :=
  mk_options (opt_help o) x (opt_broadcast o) (opt_pmtu o) (fake_internet o) (list_if o)
    (netif_ipaddr o) (netif o) (netif_netmask o) (relay_server_addr o) (relay_username o)
    (relay_password o) (relay_password_file o) (socks5_server_addr o) (socks5_username o)
    (socks5_password o) (socks5_password_file o) (rpc o) (rpc_token o) (rpc_protocol o).
Definition set_broadcast (x : bool) (o : cli_options) : cli_options :=
  mk_options (opt_help o) (opt_version o) x (opt_pmtu o) (fake_internet o) (list_if o)
    (netif_ipaddr o) (netif o) (netif_netmask o) (relay_server_addr o) (relay_username o)
    (relay_password o) (relay_password_file o) (socks5_server_addr o) (socks5_username o)
    (socks5_password o) (socks5_password_file o) (rpc o) (rpc_token o) (rpc_protocol o).
Definition set_pmtu (x : Z) (o : cli_options) : cli_options :=
  mk_options (opt_help o) (opt_version o) (opt_broadcast o) x (fake_internet o) (list_if o)
    (netif_ipaddr o) (netif o) (netif_netmask o) (relay_server_addr o) (relay_username o)
    (relay_password o) (relay_password_file o) (socks5_server_addr o) (socks5_username o)
    (socks5_password o) (socks5_password_file o) (rpc o) (rpc_token o) (rpc_protocol o).
Definition set_fake_internet (x : bool) (o : cli_options) : cli_options :=
  mk_options (opt_help o) (opt_version o) (opt_broadcast o) (opt_pmtu o) x (list_if o)
    (netif_ipaddr o) (netif o) (netif_netmask o) (relay_server_addr o) (relay_username o)
    (relay_password o) (relay_password_file o) (socks5_server_addr o) (socks5_username o)
    (socks5_password o) (socks5_password_file o) (rpc o) (rpc_token o) (rpc_protocol o).
Definition set_list_if (x : bool) (o : cli_options) : cli_options :=
  mk_options (opt_help o) (opt_version o) (opt_broadcast o) (opt_pmtu o) (fake_internet o) x
    (netif_ipaddr o) (netif o) (netif_netmask o) (relay_server_addr o) (relay_username o)
    (relay_password o) (relay_password_file o) (socks5_server_addr o) (socks5_username o)
    (socks5_password o) (socks5_password_file o) (rpc o) (rpc_token o) (rpc_protocol o).
Definition set_netif (x : c_str) (o : cli_options) : cli_options :=
  mk_options (opt_help o) (opt_version o) (opt_broadcast o) (opt_pmtu o) (fake_internet o)
    (list_if o) (netif_ipaddr o) x (netif_netmask o) (relay_server_addr o) (relay_username o)
    (relay_password o) (relay_password_file o) (socks5_server_addr o) (socks5_username o)
    (socks5_password o) (socks5_password_file o) (rpc o) (rpc_token o) (rpc_protocol o).
Definition set_relay_server_addr (x : c_str) (o : cli_options) : cli_options :=
  mk_options (opt_help o) (opt_version o) (opt_broadcast o) (opt_pmtu o) (fake_internet o)
    (list_if o) (netif_ipaddr o) (netif o) (netif_netmask o) x (relay_username o)
    (relay_password o) (relay_password_file o) (socks5_server_addr o) (socks5_username o)
    (socks5_password o) (socks5_password_file o) (rpc o) (rpc_token o) (rpc_protocol o).
Definition set_relay_username (x : c_str) (o : cli_options) : cli_options :=
  mk_options (opt_help o) (opt_version o) (opt_broadcast o) (opt_pmtu o) (fake_internet o)
    (list_if o) (netif_ipaddr o) (netif o) (netif_netmask o) (relay_server_addr o) x
    (relay_password o) (relay_password_file o) (socks5_server_addr o) (socks5_username o)
    (socks5_password o) (socks5_password_file o) (rpc o) (rpc_token o) (rpc_protocol o).
Definition set_relay_password (x : c_str) (o : cli_options) : cli_options :=
  mk_options (opt_help o) (opt_version o) (opt_broadcast o) (opt_pmtu o) (fake_internet o)
    (list_if o) (netif_ipaddr o) (netif o) (netif_netmask o) (relay_server_addr o)
    (relay_username o) x (relay_password_file o) (socks5_server_addr o) (socks5_username o)
    (socks5_password o) (socks5_password_file o) (rpc o) (rpc_token o) (rpc_protocol o).
Definition set_relay_password_file (x : c_str) (o : cli_options) : cli_options :=
  mk_options (opt_help o) (opt_version o) (opt_broadcast o) (opt_pmtu o) (fake_internet o)
    (list_if o) (netif_ipaddr o) (netif o) (netif_netmask o) (relay_server_addr o)
    (relay_username o) (relay_password o) x (socks5_server_addr o) (socks5_username o)
    (socks5_password o) (socks5_password_file o) (rpc o) (rpc_token o) (rpc_protocol o).
Definition set_socks5_server_addr (x : c_str) (o : cli_options) : cli_options :=
  mk_options (opt_help o) (opt_version o) (opt_broadcast o) (opt_pmtu o) (fake_internet o)
    (list_if o) (netif_ipaddr o) (netif o) (netif_netmask o) (relay_server_addr o)
    (relay_username o) (relay_password o) (relay_password_file o) x (socks5_username o)
    (socks5_password o) (socks5_password_file o) (rpc o) (rpc_token o) (rpc_protocol o).
Definition set_rpc (x : c_str) (o : cli_options) : cli_options :=
  mk_options (opt_help o) (opt_version o) (opt_broadcast o) (opt_pmtu o) (fake_internet o)
    (list_if o) (netif_ipaddr o) (netif o) (netif_netmask o) (relay_server_addr o)
    (relay_username o) (relay_password o) (relay_password_file o) (socks5_server_addr o)
    (socks5_username o) (socks5_password o) (socks5_password_file o) x (rpc_token o)
    (rpc_protocol o).
Definition set_rpc_token (x : c_str) (o : cli_options) : cli_options :=
  mk_options (opt_help o) (opt_version o) (opt_broadcast o) (opt_pmtu o) (fake_internet o)
    (list_if o) (netif_ipaddr o) (netif o) (netif_netmask o) (relay_server_addr o)
    (relay_username o) (relay_password o) (relay_password_file o) (socks5_server_addr o)
    (socks5_username o) (socks5_password o) (socks5_password_file o) (rpc o) x (rpc_protocol o).
Definition set_rpc_protocol (x : c_str) (o : cli_options) : cli_options :=
  mk_options (opt_help o) (opt_version o) (opt_broadcast o) (opt_pmtu o) (fake_internet o)
    (list_if o) (netif_ipaddr o) (netif o) (netif_netmask o) (relay_server_addr o)
    (relay_username o) (relay_password o) (relay_password_file o) (socks5_server_addr o)
    (socks5_username o) (socks5_password o) (socks5_password_file o) (rpc o) (rpc_token o) x.

(** [struct cli_options options] before the first call: static storage. *)
Definition zero_options : cli_options :=
  mk_options 0 0 false 0 false false Null Null Null Null Null Null Null Null Null Null Null
    Null Null Null.

(** What [parse_arguments] prints, and the call of [setvbuf]. *)
Inductive message :=
  | RequiresArgument (arg : list Z)
  | UnknownParameter (arg : list Z)
  | RelayRequired
  | PasswordMissing
  | PasswordTwice
  | Unbuffered.

Definition atoi (s : list Z) : Z :=
  match scan_int s with Some (v, _) => s32 v | None => 0 end.

(** What an argument asks for: a change of the options, or one that takes the
    next argument ([CHECK_PARAM]). *)
Inductive action :=
  | Flag (f : cli_options → cli_options)
  | Param (f : list Z → cli_options → cli_options)
  | Setvbuf.

Definition is_arg (arg : list Z) (name : string) : bool := bool_decide (arg = str name).

(** The chain of [strcmp] in the loop. *)
Definition action_of (arg : list Z) : option action :=
  if is_arg arg "--help" then Some (Flag (set_help 1))
  else if is_arg arg "--version" then Some (Flag (set_version 1))
  else if is_arg arg "--netif" then Some (Param (λ v, set_netif (Heap v)))
  else if is_arg arg "--relay-server-addr" then Some (Param (λ v, set_relay_server_addr (Static v)))
  else if is_arg arg "--username" then Some (Param (λ v, set_relay_username (Static v)))
  else if is_arg arg "--password" then Some (Param (λ v, set_relay_password (Static v)))
  else if is_arg arg "--password-file" then Some (Param (λ v, set_relay_password_file (Static v)))
  else if is_arg arg "--socks5-server-addr" then Some (Param (λ v, set_socks5_server_addr (Static v)))
  else if is_arg arg "--list-if" then Some (Flag (set_list_if true))
  else if is_arg arg "--broadcast" then
    Some (Flag (λ o, set_relay_server_addr (Static (str "255.255.255.255:11451")) (set_broadcast true o)))
  else if is_arg arg "--pmtu" then Some (Param (λ v, set_pmtu (atoi v)))
  else if is_arg arg "--fake-internet" then Some (Flag (set_fake_internet true))
  else if is_arg arg "--set-ionbf" then Some Setvbuf
  else if is_arg arg "--rpc" then Some (Param (λ v, set_rpc (Static v)))
  else if is_arg arg "--rpc-token" then Some (Param (λ v, set_rpc_token (Static v)))
  else if is_arg arg "--rpc-protocol" then Some (Param (λ v, set_rpc_protocol (Static v)))
  else None.

(** The loop over [argv[1..]]; [false] when an argument is missing. *)
Fixpoint parse_loop (args : list (list Z)) (o : cli_options) (out : list message)
    : bool * cli_options * list message :=
  match args with
  | [] => (true, o, out)
  | arg :: args =>
      match action_of arg with
      | Some (Flag f) => parse_loop args (f o) out
      | Some (Param f) =>
          match args with
          | [] => (false, o, out ++ [RequiresArgument arg])
          | v :: args => parse_loop args (f v o) out
          end
      | Some Setvbuf => parse_loop args o (out ++ [Unbuffered])
      | None => parse_loop args o (out ++ [UnknownParameter arg])
      end
  end.

(** A user name needs exactly one of the password and the password file; the
    message of the failed check. *)
Definition check_login (username password password_file : c_str) : option message :=
  if negb (is_null username) then
    if is_null password && is_null password_file then Some PasswordMissing
    else if negb (is_null password) && negb (is_null password_file) then Some PasswordTwice
    else None
  else None.

(** What follows the loop. *)
Definition parse_finish (o : cli_options) (out : list message) : Z * cli_options * list message :=
  if negb (opt_help o =? 0) || negb (opt_version o =? 0) || list_if o || negb (is_null (rpc o))
  then (0, o, out)
  else
    let '(o, out) :=
      if is_null (relay_server_addr o) then
        if negb (is_null (socks5_server_addr o))
        then (set_relay_server_addr (Static (str "127.0.0.1:11451")) o, out)
        else (o, out ++ [RelayRequired])
      else (o, out) in
    match check_login (socks5_username o) (socks5_password o) (socks5_password_file o) with
    | Some e => (-1, o, out ++ [e])
    | None =>
        match check_login (relay_username o) (relay_password o) (relay_password_file o) with
        | Some e => (-1, o, out ++ [e])
        | None => (0, o, out)
        end
    end.

(** [parse_arguments(argc, argv)]: every field of [options] is reset first. *)
Definition parse_arguments (argv : list (list Z)) (options : cli_options)
    : Z * cli_options * list message :=
  match argv with
  | [] => (-1, options, [])
  | _ :: args =>
      let '(ok, o, out) := parse_loop args zero_options [] in
      if ok : bool then parse_finish o out else (-1, o, out)
  end.

(** [OPTIONS_DEF]: the body of [options_relay_server_addr] and
    [options_socks5_server_addr]; [arg] is the string passed, if any. *)
Definition options_def (current : c_str) (arg : option (list Z)) : result c_str :=
  _ ← match current with Static _ => Fail InvalidFree | _ => Ok () end;
  Ok match arg with
     | Some (c :: s) => Heap (c :: s)
     | _ => Null
     end.
Definition options_relay_server_addr (arg : option (list Z)) (o : cli_options) : result cli_options :=
  p ← options_def (relay_server_addr o) arg; Ok (set_relay_server_addr p o).
Definition options_socks5_server_addr (arg : option (list Z)) (o : cli_options) : result cli_options :=
  p ← options_def (socks5_server_addr o) arg; Ok (set_socks5_server_addr p o).

(** * Command lines *)

(** One option with its value, how it is written, and what each field of the
    options takes from it. *)
Inductive setting :=
  | SHelp | SVersion | SListIf | SBroadcast | SFakeInternet | SIonbf
  | SNetif (v : list Z) | SRelay (v : list Z) | SUsername (v : list Z) | SPassword (v : list Z)
  | SPasswordFile (v : list Z) | SSocks5 (v : list Z) | SPmtu (v : list Z)
  | SRpc (v : list Z) | SRpcToken (v : list Z) | SRpcProtocol (v : list Z).

Definition render (s : setting) : list (list Z) :=
  match s with
  | SHelp => [str "--help"] | SVersion => [str "--version"] | SListIf => [str "--list-if"]
  | SBroadcast => [str "--broadcast"] | SFakeInternet => [str "--fake-internet"]
  | SIonbf => [str "--set-ionbf"]
  | SNetif v => [str "--netif"; v] | SRelay v => [str "--relay-server-addr"; v]
  | SUsername v => [str "--username"; v] | SPassword v => [str "--password"; v]
  | SPasswordFile v => [str "--password-file"; v] | SSocks5 v => [str "--socks5-server-addr"; v]
  | SPmtu v => [str "--pmtu"; v] | SRpc v => [str "--rpc"; v]
  | SRpcToken v => [str "--rpc-token"; v] | SRpcProtocol v => [str "--rpc-protocol"; v]
  end.

(** The value of the last setting that [f] accepts. *)
Definition last_of {A} (f : setting → option A) (ss : list setting) : option A := list.last (omap f ss).

Definition relay_of (s : setting) : option (list Z) :=
  match s with SRelay v => Some v | SBroadcast => Some (str "255.255.255.255:11451") | _ => None end.
Definition netif_of (s : setting) := match s with SNetif v => Some v | _ => None end.
Definition username_of (s : setting) := match s with SUsername v => Some v | _ => None end.
Definition password_of (s : setting) := match s with SPassword v => Some v | _ => None end.
Definition password_file_of (s : setting) := match s with SPasswordFile v => Some v | _ => None end.
Definition socks5_of (s : setting) := match s with SSocks5 v => Some v | _ => None end.
Definition pmtu_of (s : setting) := match s with SPmtu v => Some (atoi v) | _ => None end.
Definition rpc_of (s : setting) := match s with SRpc v => Some v | _ => None end.
Definition broadcast_of (s : setting) := match s with SBroadcast => Some true | _ => None end.
Definition stops (s : setting) : bool :=
  match s with SHelp | SVersion | SListIf | SRpc _ => true | _ => false end.

(** The options after the loop, field by field. *)
Record options_are (ss : list setting) (o : cli_options) : Prop := mk_options_are {
  are_relay : relay_server_addr o = from_option Static Null (last_of relay_of ss);
  are_netif : netif o = from_option Heap Null (last_of netif_of ss);
  are_username : relay_username o = from_option Static Null (last_of username_of ss);
  are_password : relay_password o = from_option Static Null (last_of password_of ss);
  are_password_file : relay_password_file o = from_option Static Null (last_of password_file_of ss);
  are_socks5 : socks5_server_addr o = from_option Static Null (last_of socks5_of ss);
  are_socks5_username : socks5_username o = Null;
  are_pmtu : opt_pmtu o = default 0 (last_of pmtu_of ss);
  are_broadcast : opt_broadcast o = default false (last_of broadcast_of ss);
  are_stops : negb (opt_help o =? 0) || negb (opt_version o =? 0) || list_if o
                || negb (is_null (rpc o)) = existsb stops ss }.

Lemma last_of_snoc {A} (f : setting → option A) ss s :
  last_of f (ss ++ [s]) = match f s with Some a => Some a | None => last_of f ss end.
Proof.
  unfold last_of. rewrite omap_app. simpl. destruct (f s); [by rewrite last_snoc|by rewrite app_nil_r].
Qed.

(** One setting is one or two turns of the loop. *)
Lemma parse_loop_render s args ss o out :
  options_are ss o →
  ∃ o' out', parse_loop (render s ++ args) o out = parse_loop args o' out' ∧
             options_are (ss ++ [s]) o'.
Proof.
  intros [].
  destruct s; (eexists _, _; split; [reflexivity|]); constructor; rewrite ?last_of_snoc, ?existsb_app;
    simpl; rewrite ?orb_false_r, ?orb_true_r; try done;
    rewrite <- are_stops0; by destruct (negb _), (negb _), (list_if o).
Qed.

Lemma parse_loop_settings todo ss o out :
  options_are ss o →
  ∃ o' out', parse_loop (mjoin (render <$> todo)) o out = (true, o', out') ∧
             options_are (ss ++ todo) o'.
Proof.
  revert ss o out. induction todo as [|s todo IH]; intros ss o out Ho.
  { exists o, out. by rewrite app_nil_r. }
  destruct (parse_loop_render s (mjoin (render <$> todo)) ss o out Ho) as (o1 & out1 & E & Ho1).
  destruct (IH _ _ out1 Ho1) as (o2 & out2 & E2 & Ho2). exists o2, out2.
  rewrite <- app_assoc in Ho2. split; [|done].
  rewrite fmap_cons. change (mjoin (render s :: _)) with (render s ++ mjoin (render <$> todo)).
  by rewrite E.
Qed.

Lemma zero_options_are : options_are [] zero_options.
Proof. by constructor. Qed.

Definition given {A} (o : option A) : bool := match o with Some _ => true | None => false end.

(** A command line made of any sequence of known options is read as the
    last value given for each of them, a value that looks like an option
    included; [--broadcast] counts as a relay address.  It is refused exactly
    when a user name comes without a password and without a password file, or
    with both, and none of [--help], [--version], [--list-if] and [--rpc] is
    there.  Without a relay address the local one is used if a SOCKS5 server
    is given. *)
Theorem parse_arguments_settings prog ss o0 :
  let stop := existsb stops ss in
  let user := given (last_of username_of ss) in
  let pass := given (last_of password_of ss) in
  let file := given (last_of password_file_of ss) in
  ∃ o out,
    parse_arguments (prog :: mjoin (render <$> ss)) o0 =
      (if negb stop && user && eqb pass file then -1 else 0, o, out) ∧
    text (netif o) = last_of netif_of ss ∧
    text (relay_username o) = last_of username_of ss ∧
    text (relay_password o) = last_of password_of ss ∧
    text (socks5_server_addr o) = last_of socks5_of ss ∧
    opt_pmtu o = default 0 (last_of pmtu_of ss) ∧
    opt_broadcast o = default false (last_of broadcast_of ss) ∧
    text (relay_server_addr o) =
      match last_of relay_of ss with
      | Some a => Some a
      | None => if negb stop && given (last_of socks5_of ss) then Some (str "127.0.0.1:11451") else None
      end.
Proof.
  intros stop user pass file. unfold parse_arguments.
  destruct (parse_loop_settings ss [] zero_options [] zero_options_are) as (o & out & -> & Ho).
  cbn [app] in Ho. unfold parse_finish. rewrite (are_stops _ _ Ho). fold stop.
  assert (∀ x, text (from_option Static Null x) = x) as Ht by (by intros []).
  assert (∀ x, text (from_option Heap Null x) = x) as Hth by (by intros []).
  assert (∀ x, is_null (from_option Static Null x) = negb (given x)) as Hg by (by intros []).
  destruct stop; cbn [negb andb].
  { exists o, out. destruct Ho. split; [done|].
    rewrite are_relay0, are_netif0, are_username0, are_password0, are_socks6, !Ht, Hth.
    split_and!; try done. by destruct (last_of relay_of ss). }
  set (p := if is_null (relay_server_addr o) then _ else (o, out)).
  assert (∃ out', p = (if is_null (relay_server_addr o) && negb (is_null (socks5_server_addr o))
    then set_relay_server_addr (Static (str "127.0.0.1:11451")) o else o, out')) as [out' ->].
  { unfold p. destruct (is_null _), (is_null _); by eexists. }
  set (o' := if _ && _ then _ else o).
  assert (socks5_username o' = Null ∧ relay_username o' = relay_username o ∧
    relay_password o' = relay_password o ∧ relay_password_file o' = relay_password_file o ∧
    socks5_server_addr o' = socks5_server_addr o ∧ netif o' = netif o ∧
    opt_pmtu o' = opt_pmtu o ∧ opt_broadcast o' = opt_broadcast o) as (E1 & E2 & E3 & E4 & E5 & E6 & E7 & E8).
  { unfold o'. destruct Ho. by case_if. }
  assert (text (relay_server_addr o') = match last_of relay_of ss with
      | Some a => Some a
      | None => if given (last_of socks5_of ss) then Some (str "127.0.0.1:11451") else None end) as E9.
  { unfold o'. destruct Ho. rewrite are_relay0, are_socks6, !Hg.
    destruct (last_of relay_of ss), (last_of socks5_of ss); simpl; rewrite ?are_relay0; done. }
  rewrite E1. cbn [check_login is_null negb].
  unfold check_login. destruct Ho. rewrite E2, E3, E4, are_username0, are_password0, are_password_file0, !Hg.
  fold user pass file.
  destruct user eqn:Eu, pass eqn:Ep, file eqn:Ef; cbn [negb andb eqb]; eexists o', _;
    (split; [reflexivity|]); rewrite E5, E6, E2, E3, E7, E8, are_netif0, are_username0, are_password0,
      are_socks6, !Ht, Hth; done.
Qed.

(** * The options set by the remote control *)

Definition not_heap (p : c_str) : Prop := match p with Heap _ => False | _ => True end.
Definition addrs_static (o : cli_options) : Prop :=
  not_heap (relay_server_addr o) ∧ not_heap (socks5_server_addr o).

(** Each action keeps the two addresses off the heap. *)
Definition action_static (a : action) : Prop :=
  match a with
  | Flag f => ∀ o, addrs_static o → addrs_static (f o)
  | Param f => ∀ v o, addrs_static o → addrs_static (f v o)
  | Setvbuf => True
  end.

Lemma action_of_static arg a : action_of arg = Some a → action_static a.
Proof. unfold action_of. repeat case_if; intros [= <-]; try done; (by intros ? []) || by intros ?? []. Qed.

Lemma parse_loop_static args o out :
  addrs_static o → let '(_, o', _) := parse_loop args o out in addrs_static o'.
Proof.
  revert o out. induction args as [args IH] using (induction_ltof1 _ (@length _)).
  unfold ltof in IH. intros o out Ho. destruct args as [|arg args]; [done|]. cbn [parse_loop].
  destruct (action_of arg) as [[f|f|]|] eqn:E; try (apply IH; [simpl; lia|]; try done).
  - by apply (action_of_static _ _ E).
  - destruct args as [|v args]; [done|]. apply IH; [simpl; lia|]. by apply (action_of_static _ _ E).
Qed.

Lemma parse_finish_static o out :
  addrs_static o → let '(_, o', _) := parse_finish o out in addrs_static o'.
Proof.
  intros Ho. unfold parse_finish. case_if; [done|].
  destruct (if is_null (relay_server_addr o) then _ else _) as [o' out'] eqn:E'.
  assert (addrs_static o') as Ho'.
  { revert E'. destruct Ho. repeat case_if; by intros [= <- <-]. }
  repeat case_match; by simplify_eq.
Qed.

(** [parse_arguments] stores the relay address without copying it, so the
    first [options_relay_server_addr] of the remote control (which frees the
    old value) works exactly when the command line gave no relay address;
    otherwise it frees memory that [malloc] did not return.  Once the option
    has been set that way, it can be set again. *)
Theorem options_relay_after_arguments argv arg arg' :
  let '(_, o, _) := parse_arguments argv zero_options in
  match text (relay_server_addr o) with
  | Some _ => options_relay_server_addr arg o = Fail InvalidFree
  | None =>
      ∃ o' o'', options_relay_server_addr arg o = Ok o' ∧
        options_relay_server_addr arg' o' = Ok o'' ∧
        text (relay_server_addr o'') = match arg' with Some (c :: s) => Some (c :: s) | _ => None end
  end.
Proof.
  assert (let '(_, o, _) := parse_arguments argv zero_options in addrs_static o) as Hs.
  { unfold parse_arguments. destruct argv as [|prog args]; [done|].
    pose proof (parse_loop_static args zero_options [] ltac:(done)) as Hl.
    destruct (parse_loop args zero_options []) as [[[] o] out]; [|done]. by apply parse_finish_static. }
  destruct (parse_arguments argv zero_options) as [[r o] out]. destruct Hs as [Hr _].
  unfold options_relay_server_addr, options_def. destruct (relay_server_addr o); cbn in *; [|done..].
  destruct arg as [[|c s]|], arg' as [[|c' s']|]; by eexists _, _.
Qed.
