(* ===== verification/LanPlay.v ===== *)
(** The client put together: the capture handler ([process_ether],
    [get_packet], [print_packet] of [packet.c]), start and stop
    ([lan-play.c]).

    The capture library, the gateway and libuv are outside: their calls are
    events of the trace, their answers come from [Env]. *)
From stdpp Require Import strings.
From S2P Require Import Prelude.
From S2P Require Import NetBytes.
From S2P Require Import Sha1.
From S2P Require Import Types.
From S2P Require Import Checksum.
From S2P Require Import Packet.
From S2P Require Import Arp.
From S2P Require Import LanClient.
From S2P Require Import LanClientSafety.
From S2P Require Import Ipv4.
From S2P Require Import Helper.
From S2P Require Import Options.
Local Open Scope Z_scope.

(** * The program *)

Definition SERVER_IP : list Z := str "10.13.37.1".
Definition SUBNET_NET : list Z := str "10.13.0.0".
Definition SUBNET_MASK : list Z := str "255.255.0.0".

(** [struct pcap_pkthdr]: the length on the wire, the length captured and the
    time of capture. *)
Record pcap_pkthdr := mk_pkthdr { hdr_len : Z; hdr_caplen : Z; hdr_sec : Z }.

(** [%d] of an [int]. *)
Definition fmt_d (x : Z) : list Z := if x <? 0 then 45 :: decimal (- x) else decimal x.

(** [payload_print_hex]: the bytes of all parts, sixteen to a line; [i] counts
    the bytes printed before. *)
Fixpoint payload_hex_from (i : Z) (parts : list payload) : result (list Z) :=
  match parts with
  | [] => Ok [10; 10]
  | part :: next =>
      bs ← mem_read (ptr part) 0 (plen part);
      rest ← payload_hex_from (i + plen part) next;
      Ok (hex_lines i bs ++ rest)
  end.
Definition payload_print_hex (parts : list payload) : result (list Z) := payload_hex_from 0 parts.

Section LanPlay.
Context `{Env}.
(** The C library's [ctime] and [getaddrinfo], and the uninitialised array of
    [str2ip]. *)
Variable ctime : Z → list Z.
Variable getaddrinfo : list Z → Z → option (Z * list Z).
Variable stack : list Z.

(** ** [packet.c] *)

Definition print_packet (pkthdr : pcap_pkthdr) (packet : list Z) : IO () :=
  modify (log_event (EvPrint (str "Packet length: " ++ fmt_d (s32 (hdr_len pkthdr)) ++ [10])));;
  modify (log_event (EvPrint (str "Number of bytes: " ++ fmt_d (s32 (hdr_caplen pkthdr)) ++ [10])));;
  modify (log_event (EvPrint (str "Recieved time: " ++ ctime (hdr_sec pkthdr))));;
  bs ← lift (mem_read packet 0 (hdr_len pkthdr));
  modify (log_event (EvPrint (hex_lines 0 bs ++ [10; 10]))).

Definition packet_close : IO Z := mret 0.

Definition process_ether (packet : list Z) (len : Z) : IO Z :=
  ether ← lift (parse_ether packet len);
  arg ← gets pctx;
  if CMP_MAC (eth_src ether) (mac arg) then mret 0
  else if eth_type ether =? ETHER_TYPE_ARP then process_arp ether
  else if eth_type ether =? ETHER_TYPE_IPV4 then process_ipv4 ether
  else mret 0.

Definition get_packet (pkthdr : pcap_pkthdr) (packet : list Z) : IO () :=
  if hdr_len pkthdr >=? 65536 then print_packet pkthdr packet
  else
    modify (on_pctx (count_download (hdr_len pkthdr)));;
    r ← process_ether packet (u16 (hdr_len pkthdr));
    if negb (r =? 0) then print_packet pkthdr packet else mret ().

(** ** [lan-play.c] *)

Definition init_pcap (netif : option (list Z)) : IO Z :=
  ret ← uv (PcapInit netif);
  if negb (ret =? 0) then mret (-1) else mret 0.

Definition lan_play_close (options : cli_options) : IO Z :=
  _ ← uv PcapClose;
  ret ← packet_close;
  if negb (ret =? 0) then mret ret
  else
    ret ← (if negb (is_null (relay_server_addr options)) then lan_client_close else mret 0);
    if negb (ret =? 0) then mret ret
    else
      ret ← uv GatewayClose;
      if negb (ret =? 0) then mret ret else mret 0.

Definition lan_play_pcap_handler (pkthdr : pcap_pkthdr) (packet mac : list Z) : IO () :=
  packet_set_mac mac;; get_packet pkthdr packet.

(** The key of the login: the SHA-1 of the password. *)
Definition password_key (password : list Z) : result (list Z) :=
  ctx ← Sha1.SHA1Update (Sha1.SHA1Init stack_ctx) password (u32 (zlen password));
  '(digest, _) ← Sha1.SHA1Final ctx;
  Ok digest.

(** [packet_init] on [SEND_BUFFER], which is static and keeps what it held. *)
Definition init_packet (send_buffer : list Z) : IO Z :=
  let ip := str2ip stack SERVER_IP in
  let subnet_net := str2ip stack SUBNET_NET in
  let subnet_mask := str2ip stack SUBNET_MASK in
  p ← lift (packet_init send_buffer BUFFER_SIZE ip subnet_net subnet_mask 30);
  modify (on_pctx (λ _, p));;
  mret 0.

Definition lan_play_init (options : cli_options) (send_buffer : list Z) : IO Z :=
  modify (on_lp (set_options (opt_broadcast options) (opt_pmtu options)));;
  ok ← match text (relay_server_addr options) with
       | None => mret true
       | Some addr =>
           match parse_addr getaddrinfo addr with
           | None => mret false
           | Some a => modify (on_lp (set_server_addr a));; mret true
           end
       end;
  if negb ok then mret (-1)
  else
    modify (on_lp (set_username (text (relay_username options))));;
    match text (relay_password options) with
    | None => mret ()
    | Some password =>
        key ← lift (password_key password); modify (on_lp (set_key key))
    end;;
    ret ← init_pcap (text (netif options));
    if negb (ret =? 0) then mret ret
    else
      ret ← init_packet send_buffer;
      if negb (ret =? 0) then mret ret
      else
        ret ← (if negb (is_null (relay_server_addr options)) then lan_client_init else mret 0);
        if negb (ret =? 0) then mret ret
        else
          match text (socks5_server_addr options) with
          | Some addr =>
              match parse_addr getaddrinfo addr with
              | None => mret (-1)
              | Some a => uv (GatewayInit (fake_internet options) (Some a)
                               (text (socks5_username options)) (text (socks5_password options)))
              end
          | None => uv (GatewayInit (fake_internet options) None
                         (text (socks5_username options)) (text (socks5_password options)))
          end.

(** A packet of the gateway for the LAN; the answer is [false] (0) when the
    neighbour is unknown. *)
Definition lan_play_gateway_send_packet (data : list Z) (len : Z) : IO Z :=
  dst ← lift (mem_read data IPV4_OFF_DST 4);
  dst_mac ← arp_get_mac_by_ip dst;
  match dst_mac with
  | None => mret 0
  | Some dst_mac => send_ether dst_mac ETHER_TYPE_IPV4 [mk_payload data len]
  end.
End LanPlay.

(** * Start-up *)

Lemma password_key_ok password :
  bytes_ok password → zlen password < 2 ^ 32 - 64 → password_key password = Ok (Fips.sha1 password).
Proof.
  intros Hb Hl. unfold password_key. rewrite u32_small by (unfold zlen in *; lia).
  destruct (StreamFacts.SHA1Update_ok [] password (Sha1.SHA1Init stack_ctx)) as (c1 & E1 & R1);
    [eauto with bytes|done|done|by apply StreamFacts.ctx_rep_init|].
  rewrite E1. cbn [mbind result_bind].
  destruct (StreamFacts.SHA1Final_ok password c1) as (c2 & ->); done.
Qed.

Section StartUp.
Context `{Env}.
Variable getaddrinfo : list Z → Z → option (Z * list Z).
Variable stack : list Z.

Definition login_key (options : cli_options) (old : list Z) : list Z :=
  match text (relay_password options) with Some p => Fips.sha1 p | None => old end.

(** The state after the options have been copied. *)
Definition configure (o : cli_options) (a : slp_addr_in) (w : world) : world :=
  on_lp (λ l, set_key (login_key o (key l)) (set_username (text (relay_username o))
    (set_server_addr a (set_options (opt_broadcast o) (opt_pmtu o) l)))) w.

(** The context [lan_play_init] makes: 10.13.37.1/16, an empty neighbour
    cache whose entries live 30 seconds. *)
Definition fresh_pctx (buf : list Z) : packet_ctx :=
  mk_pctx buf BUFFER_SIZE [10; 13; 37; 1] [10; 13; 0; 0] [255; 255; 0; 0] AnyMac 0 arp_list_init 30 0 0 0 0.

Lemma init_packet_ok buf w :
  init_packet stack buf w = Ok (0, on_pctx (λ _, fresh_pctx buf) w).
Proof. reflexivity. Qed.

Lemma fresh_pctx_ok buf : zlen buf = BUFFER_SIZE → bytes_ok buf → pctx_ok (fresh_pctx buf).
Proof. intros. constructor; try done; split; try done; Sample.bytes_solve. Qed.

Lemma lan_play_init_configure o buf addr a w :
  text (relay_server_addr o) = Some addr → parse_addr getaddrinfo addr = Some a →
  (∀ p, text (relay_password o) = Some p → bytes_ok p ∧ zlen p < 2 ^ 32 - 64) →
  env_uv (calls w) = 0 →
  lan_play_init getaddrinfo stack o buf w =
    (ret ← lan_client_init;
     if negb (ret =? 0) then mret ret
     else match text (socks5_server_addr o) with
          | Some addr =>
              match parse_addr getaddrinfo addr with
              | None => mret (-1)
              | Some a => uv (GatewayInit (fake_internet o) (Some a)
                               (text (socks5_username o)) (text (socks5_password o)))
              end
          | None => uv (GatewayInit (fake_internet o) None
                         (text (socks5_username o)) (text (socks5_password o)))
          end)
    (on_pctx (λ _, fresh_pctx buf) (tick (log_event (EvUv (PcapInit (text (netif o)))) (configure o a w)))).
Proof.
  intros Ha Hp Hpw Hpc. unfold lan_play_init. rewrite Ha, Hp.
  assert (is_null (relay_server_addr o) = false) as -> by (by destruct (relay_server_addr o)).
  unfold init_pcap, configure, login_key.
  destruct (text (relay_password o)) as [p|] eqn:Epw.
  - destruct (Hpw p eq_refl) as [Hb Hl]. pose proof (password_key_ok p Hb Hl) as Hk.
    unfold modify, uv, lift, mbind, M_bind, mret, M_ret. cbn [negb].
    rewrite Hk. cbn [calls on_lp set_lp]. rewrite Hpc. reflexivity.
  - unfold modify, uv, lift, mbind, M_bind, mret, M_ret. cbn [negb calls on_lp set_lp].
    rewrite Hpc. destruct w as [[]]. reflexivity.
Qed.

(** What static storage holds before the first start. *)
Definition storage_ok (l : lan_play) : Prop :=
  zlen (client_buf l) = CLIENT_RECV_BUF_LEN ∧ bytes_ok (client_buf l) ∧
  zlen (key l) = LP_KEY_LEN ∧ bytes_ok (key l).

(** The options [lan_play_init] accepts: addresses that parse, a path MTU
    the client takes, texts of bounded length. *)
Definition options_ok (o : cli_options) : Prop :=
  (opt_pmtu o = 0 ∨ MIN_FRAG_PAYLOAD_LEN ≤ opt_pmtu o) ∧
  (∀ p, text (relay_password o) = Some p → bytes_ok p ∧ zlen p < 2 ^ 32 - 64) ∧
  (∀ u, text (relay_username o) = Some u → bytes_ok u ∧ zlen u < 65516).

Definition start_calls (o : cli_options) (a : slp_addr_in) (proxy : option slp_addr_in) : list uv_call :=
  [PcapInit (text (netif o)); UdpInit] ++
  (if opt_broadcast o then [UdpBind AF_INET SERVER_PORT]
   else if sin_family a =? AF_INET6 then [UdpBind AF_INET6 0] else []) ++
  [TimerInit ClientKeepaliveTimer; TimerInit RealBroadcastTimer;
   TimerStart ClientKeepaliveTimer 0 10000; TimerStart RealBroadcastTimer 0 1000; UdpRecvStart;
   GatewayInit (fake_internet o) proxy (text (socks5_username o)) (text (socks5_password o))].

Lemma login_ok_configured o l :
  storage_ok l → options_ok o → zlen (login_key o (key l)) = LP_KEY_LEN ∧ bytes_ok (login_key o (key l)).
Proof.
  intros (_ & _ & Hk & Hkb) (_ & Hpw & _). unfold login_key.
  destruct (text (relay_password o)); [|done]. split; [|apply sha1_bytes_ok].
  unfold zlen. by rewrite length_sha1.
Qed.

(** (C31) Start-up with good options and calls that all succeed ends with 0 in
    a well-formed state: 10.13.37.1/16, no neighbour, the relay's address,
    the user name, the SHA-1 of the password as login key; the capture, the
    client's handles and the gateway were started in this order. *)
Theorem lan_play_init_spec o buf w addr a proxy :
  storage_ok (lp w) → zlen buf = BUFFER_SIZE → bytes_ok buf → options_ok o →
  text (relay_server_addr o) = Some addr → parse_addr getaddrinfo addr = Some a →
  match text (socks5_server_addr o) with
  | Some s => ∃ p, parse_addr getaddrinfo s = Some p ∧ proxy = Some p
  | None => proxy = None
  end →
  (∀ k, env_uv k = 0) →
  ∃ w', lan_play_init getaddrinfo stack o buf w = Ok (0, w') ∧ state_ok w' ∧
    pctx w' = fresh_pctx buf ∧ server_addr (lp w') = a ∧
    username (lp w') = text (relay_username o) ∧ key (lp w') = login_key o (key (lp w)) ∧
    trace w' = trace w ++ (EvUv <$> start_calls o a proxy).
Proof.
  intros Hst Hbl Hbb Ho Ha Hp Hs5 Huv. pose proof Ho as (Hpm & Hpw & Hun).
  pose proof (login_ok_configured o (lp w) Hst Ho) as [Hk Hkb].
  rewrite (lan_play_init_configure o buf addr a) by (done || apply Huv).
  set (w1 := on_pctx _ _).
  pose proof (lan_client_init_ok w1 (fresh_pctx_ok buf Hbl Hbb) (proj1 Hst) (proj1 (proj2 Hst))) as Hi.
  change (pmtu (lp w1)) with (opt_pmtu o) in Hi.
  destruct (negb (opt_pmtu o =? 0) && _) eqn:Eg in Hi; [unfold MIN_FRAG_PAYLOAD_LEN in *; lia|].
  cbv zeta beta in Hi. rewrite !Huv in Hi. cbn [Z.eqb negb] in Hi.
  destruct Hi as (r & w2 & E & (Hc & Hpc & Hpmtu & Hfr & _ & _ & _ & Hu & Hkey & Hsrv) & Hr & Ht).
  erewrite bind_of_ok by exact E. rewrite Hr. cbn [Z.eqb negb].
  assert (∀ px, uv (GatewayInit (fake_internet o) px (text (socks5_username o)) (text (socks5_password o))) w2
    = Ok (0, uv_step (GatewayInit (fake_internet o) px (text (socks5_username o)) (text (socks5_password o))) w2)) as Hgw
    by (intros; unfold uv; by rewrite Huv).
  assert (∃ w', match text (socks5_server_addr o) with
    | Some addr => match parse_addr getaddrinfo addr with
        | None => mret (-1)
        | Some a => uv (GatewayInit (fake_internet o) (Some a) (text (socks5_username o)) (text (socks5_password o)))
        end
    | None => uv (GatewayInit (fake_internet o) None (text (socks5_username o)) (text (socks5_password o)))
    end w2 = Ok (0, w') ∧ w' = uv_step (GatewayInit (fake_internet o) proxy (text (socks5_username o)) (text (socks5_password o))) w2)
    as (w' & -> & ->).
  { destruct (text (socks5_server_addr o)) as [s|]; [destruct Hs5 as (p & -> & ->)|subst proxy];
      rewrite Hgw; by eexists. }
  eexists. split; [reflexivity|]. split_and!; try done.
  - constructor; try done; cbn [uv_step tick log_event lp].
    + change (cache_ok (pctx w2)). rewrite Hpc. split; [done|].
      apply Forall_replicate. split; split; try done; Sample.bytes_solve.
    + rewrite Hfr. apply Forall_replicate. vm_compute. split; discriminate.
    + unfold login_ok. rewrite Hkey, Hu. done.
    + rewrite Hpmtu. exact Hpm.
  - cbn [uv_step tick log_event trace]. rewrite Ht. cbn [trace w1 tick log_event on_pctx on_lp set_lp configure].
    unfold start_calls, bind_calls. change (broadcast (lp w1)) with (opt_broadcast o).
    change (server_family (lp w1)) with (sin_family a).
    rewrite <- !app_assoc. f_equal. repeat case_if; reflexivity.
Qed.
End StartUp.

Lemma hex_lines_app i bs cs : hex_lines i (bs ++ cs) = hex_lines i bs ++ hex_lines (i + zlen bs) cs.
Proof.
  revert i. induction bs as [|b bs IH]; intros i.
  { cbn [app hex_lines]. by replace (i + zlen []) with i by (unfold zlen; simpl; lia). }
  cbn [app hex_lines]. rewrite IH. replace (i + 1 + zlen bs) with (i + zlen (b :: bs)) by len_lia.
  by rewrite <- !app_assoc.
Qed.

(** Dumping a chain of parts prints its bytes as if they were contiguous. *)
Lemma payload_print_hex_ok ps :
  Forall payload_ok ps → payload_print_hex ps = Ok (hex_lines 0 (payload_bytes ps) ++ [10; 10]).
Proof.
  intros Hps. unfold payload_print_hex. generalize 0 at 1 2 as i.
  induction Hps as [|p ps Hp _ IH]; intros i; [done|]. pose proof Hp as (? & ? & ?).
  cbn [payload_hex_from]. rewrite mem_read_ok by lia. cbn [mbind result_bind]. rewrite drop_0.
  fold (payload_data p). rewrite IH, payload_bytes_cons, hex_lines_app, payload_data_len by done.
  cbn [mbind result_bind]. by rewrite <- app_assoc.
Qed.

(** * The theorem at a concrete state *)

Definition sample_options : cli_options :=
  snd (fst (parse_arguments [str "lan-play"; str "--relay-server-addr"; str "relay.example:11451";
    str "--username"; str "bob"; str "--password"; str "secret"] zero_options)).
Definition sample_resolver (node : list Z) (family : Z) : option (Z * list Z) :=
  Some (AF_INET, [192; 0; 2; 1]).
Definition sample_static : world :=
  mk_world (set_key (replicate 20 0) Sample.client) [] 0.

Lemma lan_play_init_spec_witness :
  ∃ w', @lan_play_init Sample.env sample_resolver [7; 7; 7; 7] sample_options (replicate 2048 0) sample_static
          = Ok (0, w') ∧
        state_ok w' ∧ server_addr (lp w') = Sample.server ∧ key (lp w') = Fips.sha1 (str "secret").
Proof.
  destruct (@lan_play_init_spec Sample.env sample_resolver [7; 7; 7; 7] sample_options (replicate 2048 0)
    sample_static (str "relay.example:11451") Sample.server None)
    as (w' & E & Hok & _ & Hs & _ & Hk & _).
  - split_and!; [done|apply bytes_ok_zeros|done|apply bytes_ok_zeros].
  - done.
  - apply bytes_ok_zeros.
  - split_and!.
    + left. reflexivity.
    + intros p E. injection E as <-. split; [Sample.bytes_solve|done].
    + intros u E. injection E as <-. split; [Sample.bytes_solve|done].
  - reflexivity.
  - vm_compute. reflexivity.
  - reflexivity.
  - reflexivity.
  - exists w'. split; [exact E|]. split; [exact Hok|]. split; [exact Hs|exact Hk].
Defined.
