(* ===== verification/EventLoop.v ===== *)
(** The client as a state machine: libuv calls one handler at a time, a frame
    captured on the LAN, a datagram of the relay, one of the two timers or a
    packet of the gateway.  The handlers of [LanPlay] and [LanClient] keep the
    invariant [state_ok] and never fault, as long as the frames carry what
    their headers announce. *)
From stdpp Require Import relations.
From S2P Require Import Prelude.
From S2P Require Import NetBytes.
From S2P Require Import Types.
From S2P Require Import Checksum.
From S2P Require Import Packet.
From S2P Require Import Arp.
From S2P Require Import LanClient.
From S2P Require Import LanClientSafety.
From S2P Require Import Ipv4.
From S2P Require Import LanPlay.

Section LanSafety.
Context `{Env}.

(** ** Calls that leave the reassembly table alone *)

Lemma runs_of_keeps {A} (m : IO A) Q : (∀ F, runs (keeps F) m Q) → runs state_ok m Q.
Proof.
  intros Hm w Hw. destruct (Hm (frags (lp w)) w) as (a & w' & E & [? _] & ?); [done|]. by exists a, w'.
Qed.

Lemma runs_gets {A} (f : packet_ctx → IO A) Q :
  (∀ p, pctx_ok p → runs state_ok (f p) Q) → runs state_ok (gets pctx ≫= f) Q.
Proof. intros Hf w Hw. apply (Hf (pctx w)); [apply (cl_pctx _ (st_client _ Hw))|done]. Qed.

Lemma runs_modify_pctx (f : packet_ctx → packet_ctx) :
  (∀ p, pctx_ok p → cache_ok p → pctx_ok (f p) ∧ cache_ok (f p)) →
  runs state_ok (modify (on_pctx f)) (λ _, True).
Proof.
  intros Hf w Hw. destruct (Hf (pctx w)) as [? ?]; [apply (cl_pctx _ (st_client _ Hw))|apply Hw|].
  eexists _, _. split_and!; [done| |done]. by apply (state_ok_pctx w).
Qed.

Lemma runs_sent {A} (m : IO A) (frame : world → list Z) :
  (∀ w, state_ok w → ∃ a w', m w = Ok (a, w') ∧ sent (frame w) w w') → runs state_ok m (λ _, True).
Proof.
  intros Hm w Hw. destruct (Hm w Hw) as (a & w' & E & Hs). exists a, w'.
  split_and!; [done|by eapply sent_state_ok|done].
Qed.

Lemma runs_event e : runs state_ok (modify (log_event e)) (λ _, True).
Proof. intros w Hw. eexists _, _. split_and!; [done| |done]. by destruct Hw. Qed.

Lemma runs_seq {A B} (m : IO A) (n : IO B) Q :
  runs state_ok m (λ _, True) → runs state_ok n Q → runs state_ok (_ ← m; n) Q.
Proof. intros Hm Hn. eapply runs_bind; [exact Hm|by intros]. Qed.

(** ** ARP *)

Lemma runs_arp_set mac ip :
  mac_ok mac → ip_ok ip → runs state_ok (arp_set mac ip) (λ _, True).
Proof.
  intros Hm Hi w Hw. pose proof (st_cache _ Hw) as [Hl Hok].
  unfold arp_set, gets, time, modify, mbind, M_bind.
  change (arp_list (pctx (tick w))) with (arp_list (pctx w)).
  destruct (arp_store _ _ _ _ _) as [l|] eqn:E; (eexists _, _; split_and!; [done| |done]).
  - apply (arp_store_preserves item_ok) in E as [El Hl']; [|done|].
    + apply (state_ok_pctx w); [done| |].
      * destruct (cl_pctx _ (st_client _ Hw)). by constructor.
      * split; [|done]. unfold zlen in *. cbn [arp_list set_arp_list]. lia.
    + destruct Hm, Hi. split; split; cbn [item_ip item_mac]; rewrite ?length_take; try lia; eauto with bytes.
  - by apply tick_state_ok.
Qed.

Lemma runs_arp_has_ip ip : runs state_ok (arp_has_ip ip) (λ _, True).
Proof.
  intros w Hw. unfold arp_has_ip, gets, time, mbind, M_bind.
  destruct (arp_find _ _ _); (eexists _, _; split_and!; [done|by apply tick_state_ok|done]).
Qed.

Lemma parse_arp_total ether :
  bytes_ok (eth_payload ether) → ARP_LEN ≤ zlen (eth_payload ether) →
  ∃ a, parse_arp ether = Ok a ∧
    mac_ok (sender_mac a) ∧ ip_ok (sender_ip a) ∧ mac_ok (target_mac a) ∧ ip_ok (target_ip a).
Proof.
  intros Hb Hl. unfold parse_arp. set (p := eth_payload ether) in *.
  destruct (READ_NET16_total p ARP_OFF_HARDWARE) as (v1 & -> & _); [off_lia..|].
  destruct (READ_NET16_total p ARP_OFF_PROTOCOL) as (v2 & -> & _); [off_lia..|].
  destruct (READ_NET8_total p ARP_OFF_HARDWARE_SIZE) as (v3 & -> & _); [done|off_lia..|].
  destruct (READ_NET8_total p ARP_OFF_PROTOCOL_SIZE) as (v4 & -> & _); [done|off_lia..|].
  destruct (READ_NET16_total p ARP_OFF_OPCODE) as (v5 & -> & _); [off_lia..|].
  cbn [mbind result_bind]. do 4 (erewrite ok_bind by (apply mem_read_ok; off_lia)).
  eexists. split; [done|]. cbn [sender_mac sender_ip target_mac target_ip].
  split_and!; split; try off_lia; eauto with bytes.
Qed.

Lemma runs_process_arp ether :
  bytes_ok (eth_payload ether) → ARP_LEN ≤ zlen (eth_payload ether) →
  runs state_ok (process_arp ether) (λ _, True).
Proof.
  intros Hb Hl. destruct (parse_arp_total ether Hb Hl) as (a & E & Hsm & Hsi & Htm & Hti).
  unfold process_arp. eapply runs_lift; [exact E|]. case_if; [by apply runs_ret|].
  apply runs_seq; [by apply runs_arp_set|]. case_if; [|case_if; by apply runs_ret].
  unfold arp_request. apply runs_gets. intros p Hp. do 3 (case_if; try by apply runs_ret).
  eapply runs_bind; [apply runs_arp_has_ip|]. intros [] _; [by apply runs_ret|].
  unfold send_arp. apply (runs_sent _ (λ w, ether_header (sender_mac a) (mac (pctx w)) ETHER_TYPE_ARP ++
    arp_packet ARP_OPCODE_REPLY (mac p) (target_ip a) (sender_mac a) (sender_ip a))).
  intros w Hw. destruct (send_arp_ex_ok (sender_mac a) ARP_OPCODE_REPLY (mac p) (target_ip a)
    (sender_mac a) (sender_ip a) w) as (w' & E' & Hs); [apply (cl_pctx _ (st_client _ Hw))|done| |done..| |].
  - apply Hp.
  - unfold ARP_OPCODE_REPLY; lia.
  - eauto.
Qed.

(** ** Sending to the relay, whatever it answers *)

Lemma mem_write_total m off bs :
  bytes_ok m → bytes_ok bs → 0 ≤ off → off + zlen bs ≤ zlen m →
  ∃ m', mem_write m off bs = Ok m' ∧ zlen m' = zlen m ∧ bytes_ok m'.
Proof.
  intros Hm Hbs Ho Hl. eexists. split; [by apply mem_write_ok|]. split; [len_lia|eauto with bytes].
Qed.

Lemma WRITE_NET8_total m off v :
  bytes_ok m → 0 ≤ off → off + 1 ≤ zlen m →
  ∃ m', WRITE_NET8 m off v = Ok m' ∧ zlen m' = zlen m ∧ bytes_ok m'.
Proof. intros. apply mem_write_total; try done. apply le_store_bytes_ok. Qed.
Lemma WRITE_NET16_total m off v :
  bytes_ok m → 0 ≤ off → off + 2 ≤ zlen m →
  ∃ m', WRITE_NET16 m off v = Ok m' ∧ zlen m' = zlen m ∧ bytes_ok m'.
Proof. intros. apply mem_write_total; try done. apply le_store_bytes_ok. Qed.
Lemma CPY_IPV4_total m off src :
  bytes_ok m → ip_ok src → 0 ≤ off → off + 4 ≤ zlen m →
  ∃ m', CPY_IPV4 m off src = Ok m' ∧ zlen m' = zlen m ∧ bytes_ok m'.
Proof.
  intros Hm [Hs Hb] ??. unfold CPY_IPV4. rewrite mem_read_all by (unfold zlen; by rewrite Hs).
  apply mem_write_total; try done. unfold zlen in *. lia.
Qed.

Lemma runs_send_raw bufs :
  Forall payload_ok bufs → runs state_ok (lan_client_send_raw bufs) (λ _, True).
Proof.
  intros Hb w Hw. unfold lan_client_send_raw. case_if; [by eexists _, _|].
  erewrite lift_bind by (by apply gather_ok).
  eexists _, _. split_and!; [reflexivity| |done]. rewrite (bufs_len_ok _ Hb).
  apply (sent_udp_state_ok [payload_bytes bufs] w Hw).
Qed.

Lemma payload_ok_intro bs n : 0 ≤ n < 65536 → n ≤ zlen bs → bytes_ok bs → payload_ok (mk_payload bs n).
Proof. done. Qed.

Lemma runs_send_frags fuel header packet len pmtu id i pos :
  zlen header = LC_FRAG_HEADER_LEN → bytes_ok header → bytes_ok packet → 0 ≤ pos →
  len ≤ zlen packet → len < 65536 → 0 < pmtu → len - pos ≤ Z.of_nat fuel * pmtu →
  runs state_ok (send_frags fuel header packet len pmtu id i pos) (λ _, True).
Proof.
  intros Hhl Hhb Hpb. revert header i pos Hhl Hhb.
  induction fuel as [|fuel IH]; intros header i pos Hhl Hhb Hpos Hl Hl' Hp Hf; cbn [send_frags].
  { destruct (Z.ltb_spec pos len); [lia|by apply runs_ret]. }
  destruct (Z.ltb_spec pos len) as [Hlt|]; [|by apply runs_ret].
  set (part := LMIN pmtu (len - pos)).
  assert (part ≤ len - pos ∧ 0 < part ∧ (part = pmtu ∨ part = len - pos)) as (? & ? & Hcase)
    by (unfold part, LMIN; case_if; lia).
  destruct (WRITE_NET16_total header LC_FRAG_ID id) as (h1 & E1 & L1 & B1); [done|off_lia..|].
  destruct (WRITE_NET8_total h1 LC_FRAG_PART i) as (h2 & E2 & L2 & B2); [done|off_lia..|].
  destruct (WRITE_NET16_total h2 LC_FRAG_LEN part) as (h3 & E3 & L3 & B3); [done|off_lia..|].
  eapply runs_lift; [exact E1|]. eapply runs_lift; [exact E2|]. eapply runs_lift; [exact E3|].
  eapply runs_bind.
  - apply runs_send_raw. rewrite !Forall_cons_iff. split_and!; [| | |constructor]; apply payload_ok_intro;
      try done; try off_lia; [|by apply bytes_ok_drop].
    repeat constructor. unfold byte_ok, LAN_CLIENT_TYPE_IPV4_FRAG. lia.
  - intros ret _. case_if; [|by apply runs_ret]. apply IH; try done; [congruence|lia|].
    destruct Hcase; nia.
Qed.

Lemma runs_send_ipv4_relay dst_ip packet len :
  bytes_ok packet → 20 ≤ zlen packet → 0 ≤ len ≤ zlen packet → len < 65536 →
  runs state_ok (lan_client_send_ipv4 dst_ip packet len) (λ _, True).
Proof.
  intros Hb H20 Hl Hl'.
  assert (runs state_ok (lan_client_send_raw [mk_payload [LAN_CLIENT_TYPE_IPV4] 1; mk_payload packet len])
    (λ _, True)) as Hwhole.
  { apply runs_send_raw. rewrite !Forall_cons_iff. split_and!; [| |constructor]; apply payload_ok_intro;
      try done; try off_lia. repeat constructor; unfold byte_ok, LAN_CLIENT_TYPE_IPV4; lia. }
  unfold lan_client_send_ipv4, lan_client_send. intros w Hw.
  unfold get, mbind at 1, M_bind at 1. case_if; [|by apply Hwhole].
  set (P := pmtu (lp w)) in *. set (T := if P * (len / P) <? len then _ else _).
  case_if; [|by apply Hwhole]. assert (0 < P) as HP by lia.
  destruct (st_pmtu _ Hw) as [HP0|HP5]; [unfold P in HP; lia|]. fold P in HP5.
  assert (len ≤ T * P) as HT.
  { unfold T. pose proof (Z.div_mod len P). pose proof (Z.mod_pos_bound len P). case_if; nia. }
  assert (ip_ok (take (Z.to_nat 4) (drop (Z.to_nat IPV4_OFF_SRC) packet))) as Hsrc
    by (split; [off_lia|eauto with bytes]).
  assert (ip_ok (take (Z.to_nat 4) (drop (Z.to_nat IPV4_OFF_DST) packet))) as Hdst
    by (split; [off_lia|eauto with bytes]).
  set (h0 := replicate (Z.to_nat LC_FRAG_HEADER_LEN) 0).
  assert (zlen h0 = LC_FRAG_HEADER_LEN) as L0 by done.
  destruct (CPY_IPV4_total h0 LC_FRAG_SRC _ (bytes_ok_zeros _) Hsrc) as (h1 & E1 & L1 & B1); [off_lia..|].
  destruct (CPY_IPV4_total h1 LC_FRAG_DST _ B1 Hdst) as (h2 & E2 & L2 & B2); [off_lia..|].
  destruct (WRITE_NET8_total h2 LC_FRAG_TOTAL_PART T B2) as (h3 & E3 & L3 & B3); [off_lia..|].
  destruct (WRITE_NET16_total h3 LC_FRAG_PMTU P B3) as (h4 & E4 & L4 & B4); [off_lia..|].
  eapply runs_seq; [|eapply runs_lift; [apply mem_read_ok; off_lia|];
    eapply runs_lift; [apply mem_read_ok; off_lia|]; eapply runs_lift; [exact E1|];
    eapply runs_lift; [exact E2|]; eapply runs_lift; [exact E3|]; eapply runs_lift; [exact E4|];
    apply runs_send_frags; try done; lia || congruence|exact Hw].
  intros v Hv. eexists _, _. split_and!; [done| |done]. destruct Hv as [[] ? ? ? ?]. by constructor.
Qed.

Lemma runs_keepalive : runs state_ok lan_client_keepalive_timer (λ _, True).
Proof.
  unfold lan_client_keepalive_timer. eapply runs_bind; [|by intros; apply runs_ret].
  intros w Hw. unfold lan_client_send_keepalive, lan_client_send, get, mbind at 1, M_bind at 1.
  cbn [andb]. apply runs_send_raw; [|done]. rewrite !Forall_cons_iff.
  split_and!; [| |constructor]; apply payload_ok_intro; try done; try (unfold zlen; simpl; lia); [|constructor].
  repeat constructor. unfold byte_ok, LAN_CLIENT_TYPE_KEEPALIVE. lia.
Qed.

(** ** IPv4 *)

Lemma runs_send_ether m type ps :
  mac_ok m → Forall payload_ok ps → zlen (payload_bytes ps) ≤ 2033 →
  runs state_ok (send_ether m type ps) (λ _, True).
Proof.
  intros Hm Hps Hl. apply (runs_sent _ (λ w, ether_header m (mac (pctx w)) type ++ payload_bytes ps)).
  intros w Hw. pose proof (cl_pctx _ (st_client _ Hw)) as Hp. change (pctx_ok (pctx w)) in Hp.
  destruct (send_ether_ok m type ps w) as (w' & E & Hs); [done|apply Hp|done|by apply pctx_ok_buffer| |eauto].
  rewrite (pc_buffer_len _ Hp). off_lia.
Qed.

Lemma runs_arp_get dst : ip_ok dst → runs state_ok (arp_get_mac_by_ip dst) (λ r, ∀ m, r = Some m → mac_ok m).
Proof. intros. apply runs_of_keeps. intros F. by apply runs_arp_get_mac. Qed.

Lemma runs_send_ipv4 dst protocol ps :
  ip_ok dst → 0 ≤ protocol < 256 → Forall payload_ok ps → zlen (payload_bytes ps) ≤ 2013 →
  runs state_ok (send_ipv4 dst protocol ps) (λ _, True).
Proof.
  intros Hd Hp Hps Hl. unfold send_ipv4, send_ipv4_ex.
  apply runs_gets. intros p Hpc. apply runs_gets. intros p' Hpc'.
  apply runs_seq; [apply runs_modify_pctx; intros ? [] ?; split; [by constructor|done]|].
  eapply runs_lift; [apply ipv4_header_bytes_ok; [apply Hpc|done..]|].
  set (h := ipv4_header _ _ _ _ _).
  destruct (ipv4_header_ok (ip p) dst protocol (identification p')
    (20 + payload_total_len ps) (pc_ip _ Hpc) Hd Hp) as [Hhb Hhl]. fold h in Hhb, Hhl.
  eapply runs_bind; [by apply runs_arp_get|]. intros [m|] Hm; [|by apply runs_ret].
  apply runs_send_ether; [by apply Hm| |].
  - constructor; [|done]. apply payload_ok_intro; [off_lia|unfold zlen; rewrite Hhl; off_lia|done].
  - rewrite payload_bytes_part by (unfold zlen; by rewrite Hhl). len_lia.
Qed.

Lemma icmp_reply_total request n :
  bytes_ok request → 0 ≤ n ≤ zlen request → n ≤ 2048 →
  ∃ r, icmp_reply_bytes request n = Ok r ∧ zlen r = 2048 ∧ bytes_ok r.
Proof.
  intros Hb Hl Hn. unfold icmp_reply_bytes.
  erewrite ok_bind by (apply mem_read_ok; lia). set (data := take _ _).
  assert (zlen data = n) as Hdl by (unfold data; len_lia).
  assert (bytes_ok data) as Hdb by (unfold data; eauto with bytes).
  assert (zlen (replicate (Z.to_nat BUFFER_SIZE) 0) = 2048) as L0 by done.
  destruct (mem_write_total _ 0 data (bytes_ok_zeros (Z.to_nat BUFFER_SIZE)) Hdb) as (b1 & -> & L1 & B1); [lia..|].
  cbn [mbind result_bind].
  destruct (WRITE_NET8_total b1 0 0 B1) as (b2 & -> & L2 & B2); [lia..|]. cbn [mbind result_bind].
  destruct (WRITE_NET16_total b2 2 0 B2) as (b3 & -> & L3 & B3); [lia..|]. cbn [mbind result_bind].
  destruct (calc_checksum_total b3 n B3) as [c ->]; [lia..|]. cbn [mbind result_bind].
  destruct (WRITE_NET16_total b3 2 c B3) as (b4 & -> & L4 & B4); [lia..|]. exists b4. split_and!; [done|lia|done].
Qed.

Lemma runs_process_icmp ipv4 :
  let n := ip4_total_len ipv4 - ip4_header_len ipv4 in
  ip_ok (ip4_src ipv4) → bytes_ok (ip4_payload ipv4) → 0 ≤ n ≤ zlen (ip4_payload ipv4) → n ≤ 2013 →
  runs state_ok (process_icmp ipv4) (λ _, True).
Proof.
  intros n Hs Hb Hl Hn. destruct (icmp_reply_total (ip4_payload ipv4) n Hb Hl) as (r & E & Hr & Hrb); [lia|].
  unfold process_icmp. fold n. eapply runs_lift; [exact E|]. rewrite u16_small by lia.
  apply runs_seq; [|by apply runs_ret].
  assert (payload_ok (mk_payload r n)) as Hp by (apply payload_ok_intro; done || lia).
  apply runs_send_ipv4; [done|unfold IPV4_PROTOCOL_ICMP; lia|by constructor|].
  rewrite payload_bytes_cons. change (payload_bytes []) with (@nil Z).
  rewrite app_nil_r, payload_data_len by done. done.
Qed.

(** What an IPv4 packet must be for [process_ipv4] to be safe; the code does
    not check it: it is all there, it fits the send buffer, and an ICMP
    message for us has a header no longer than itself. *)
Definition ipv4_safe (our_ip : list Z) (ether : ether_frame) : Prop :=
  20 ≤ zlen (eth_payload ether) ∧
  ∀ i, parse_ipv4 ether = Ok i →
    ip4_total_len i ≤ zlen (eth_payload ether) ∧ ip4_total_len i ≤ 2033 ∧
    (ip4_dst i = our_ip → ip4_protocol i = IPV4_PROTOCOL_ICMP →
     0 ≤ ip4_total_len i - ip4_header_len i ≤ 2013).

(** The bytes of the uninitialised [dst_mac] of [process_ipv4]. *)
Definition stack_ok : Prop := ∀ k, bytes_ok (env_stack k).

Lemma runs_process_ipv4 ether our_ip :
  stack_ok → bytes_ok (eth_payload ether) → mac_ok (eth_src ether) → ipv4_safe our_ip ether →
  ∀ w, state_ok w → ip (pctx w) = our_ip →
    ∃ a w', process_ipv4 ether w = Ok (a, w') ∧ state_ok w'.
Proof.
  intros Hst Hb Hm [H20 Hsafe] w Hw Hip.
  destruct (parse_ipv4_total ether Hb H20) as (i & E & Hs & Hd & Ht & Hpay & Hhl).
  destruct (Hsafe i E) as (Htl & Htm & Hicmp). clear Hsafe.
  unfold process_ipv4. erewrite lift_bind by exact E.
  destruct (runs_arp_set (eth_src ether) (ip4_src i) Hm Hs w Hw) as (b & w1 & E1 & Hw1 & _).
  assert (ip (pctx w1) = our_ip) as Hip1.
  { revert E1. unfold arp_set, gets, time, modify, mbind, M_bind.
    destruct (arp_store _ _ _ _ _); intros [= _ <-]; exact Hip. }
  erewrite bind_of_ok by exact E1. unfold route_ipv4, gets, mbind at 1, M_bind at 1. rewrite Hip1.
  assert (payload_ok (mk_payload (eth_payload ether) (ip4_total_len i))) as Hp
    by (apply payload_ok_intro; done || lia).
  assert (∀ m, mac_ok m → runs state_ok (send_ether m ETHER_TYPE_IPV4
    [mk_payload (eth_payload ether) (ip4_total_len i)]) (λ _, True)) as Hsend.
  { intros m Hmm. apply runs_send_ether; [done|by constructor|]. rewrite payload_bytes_cons.
    change (payload_bytes []) with (@nil Z). rewrite app_nil_r, payload_data_len by done. done. }
  assert (runs state_ok (lan_client_send_ipv4 (ip4_dst i) (eth_payload ether) (ip4_total_len i)) (λ _, True))
    as Hrelay by (apply runs_send_ipv4_relay; done || lia).
  assert (∀ m : IO Z, runs state_ok m (λ _, True) → ∃ a w', m w1 = Ok (a, w') ∧ state_ok w') as Hgo.
  { intros m Hr. destruct (Hr w1 Hw1) as (a & w' & ? & ? & _). eauto. }
  destruct (CMP_IPV4 (ip4_dst i) our_ip) eqn:Ec.
  { case_if; [|by eexists _, _].
    assert (0 ≤ ip4_total_len i - ip4_header_len i ≤ 2013) as Hn.
    { apply Hicmp; [|lia]. apply CMP_IPV4_spec in Ec; [done|apply Hd|].
      rewrite <- Hip. apply (cl_pctx _ (st_client _ Hw)). }
    apply Hgo, runs_process_icmp; [done|rewrite Hpay; by apply bytes_ok_drop|rewrite Hpay; len_lia|lia]. }
  case_if; [case_if|case_if; [|by eexists _, _]].
  - apply Hgo, runs_seq; [done|]. by apply Hsend.
  - apply Hgo. eapply runs_bind; [apply runs_arp_has_ip|]. intros [] _; [|done].
    eapply runs_bind with (Q := mac_ok).
    { intros v Hv. eexists _, _. split_and!; [done|done|]. split; [len_lia|].
      apply bytes_ok_take, bytes_ok_app; [apply Hst|apply (bytes_ok_zeros 6)]. }
    intros dm Hdm. eapply runs_bind; [by apply runs_arp_get|]. intros found Hf. apply Hsend.
    destruct found as [m|]; [by apply Hf|done].
  - apply Hgo, runs_seq; [apply runs_event|by apply runs_ret].
Qed.
End LanSafety.

(** * The event loop *)

(** What libuv can call the program with. *)
Inductive input :=
  | Frame (pkthdr : pcap_pkthdr) (packet mac : list Z)  (* lan_play_pcap_handler *)
  | Datagram (d : list Z)                               (* lan_client_on_recv *)
  | KeepaliveTimer                                      (* lan_client_keepalive_timer *)
  | BroadcastTimer                                      (* lan_client_real_broadcast_timer *)
  | GatewayPacket (data : list Z) (len : Z).            (* lan_play_gateway_send_packet *)

Section Loop.
Context `{Env}.
Variable ctime : Z → list Z.

Definition handle (i : input) : IO () :=
  match i with
  | Frame pkthdr packet mac => lan_play_pcap_handler ctime pkthdr packet mac
  | Datagram d => lan_client_recv d
  | KeepaliveTimer => lan_client_keepalive_timer
  | BroadcastTimer => lan_client_real_broadcast_timer
  | GatewayPacket data len => _ ← lan_play_gateway_send_packet data len; mret ()
  end.

(** A captured frame is safe when it was captured whole, has an Ethernet
    header, and its ARP or IPv4 packet is all there. *)
Definition frame_safe (p : packet_ctx) (pkthdr : pcap_pkthdr) (packet mac : list Z) : Prop :=
  bytes_ok packet ∧ mac_ok mac ∧ 0 ≤ hdr_len pkthdr ≤ zlen packet ∧ ETHER_HEADER_LEN ≤ zlen packet ∧
  ∀ ether, parse_ether packet (u16 (hdr_len pkthdr)) = Ok ether → CMP_MAC (eth_src ether) mac = false →
    (eth_type ether = ETHER_TYPE_ARP → ARP_LEN ≤ zlen (eth_payload ether)) ∧
    (eth_type ether = ETHER_TYPE_IPV4 → ipv4_safe (ip p) ether).

Definition input_safe (w : world) (i : input) : Prop :=
  match i with
  | Frame pkthdr packet mac => frame_safe (pctx w) pkthdr packet mac
  | Datagram d => bytes_ok d ∧ zlen d ≤ CLIENT_RECV_BUF_LEN ∧ datagram_safe (lp w) d
  | KeepaliveTimer | BroadcastTimer => True
  | GatewayPacket data len =>
      bytes_ok data ∧ 20 ≤ zlen data ∧ 0 ≤ len ≤ zlen data ∧ len ≤ 2033
  end.

Lemma runs_print_packet pkthdr packet :
  0 ≤ hdr_len pkthdr ≤ zlen packet → runs state_ok (print_packet ctime pkthdr packet) (λ _, True).
Proof.
  intros Hl. unfold print_packet. do 3 (apply runs_seq; [apply runs_event|]).
  eapply runs_lift; [apply mem_read_ok; lia|]. apply runs_event.
Qed.

Lemma parse_ether_total packet len :
  bytes_ok packet → ETHER_HEADER_LEN ≤ zlen packet →
  ∃ e, parse_ether packet len = Ok e ∧ mac_ok (eth_src e) ∧ bytes_ok (eth_payload e).
Proof.
  intros Hb Hl. unfold parse_ether. do 2 (erewrite ok_bind by (apply mem_read_ok; off_lia)).
  destruct (READ_NET16_total packet ETHER_OFF_TYPE) as (v & -> & _); [off_lia..|].
  eexists. split; [done|]. cbn [eth_src eth_payload]. split; [split; [off_lia|]|]; eauto with bytes.
Qed.

Lemma handle_frame_ok pkthdr packet mac w :
  stack_ok → state_ok w → frame_safe (pctx w) pkthdr packet mac →
  ∃ w', lan_play_pcap_handler ctime pkthdr packet mac w = Ok ((), w') ∧ state_ok w'.
Proof.
  intros Hst Hw (Hb & Hm & Hlen & H14 & Hsafe).
  destruct (parse_ether_total packet (u16 (hdr_len pkthdr)) Hb H14) as (e & Ee & Hes & Hep).
  specialize (Hsafe e Ee).
  unfold lan_play_pcap_handler, packet_set_mac. rewrite modify_bind.
  set (w1 := on_pctx (set_mac mac) w).
  assert (state_ok w1) as Hw1.
  { pose proof (cl_pctx _ (st_client _ Hw)) as []. apply (state_ok_pctx w); [done|by constructor|apply Hw]. }
  unfold get_packet. case_if.
  { destruct (runs_print_packet pkthdr packet Hlen w1 Hw1) as ([] & w' & ? & ? & _). eauto. }
  rewrite modify_bind. set (w2 := on_pctx (count_download (hdr_len pkthdr)) w1).
  assert (state_ok w2) as Hw2.
  { pose proof (cl_pctx _ (st_client _ Hw1)) as []. apply (state_ok_pctx w1); [done|by constructor|apply Hw1]. }
  assert (∃ r w3, process_ether packet (u16 (hdr_len pkthdr)) w2 = Ok (r, w3) ∧ state_ok w3)
    as (r & w3 & E3 & Hw3).
  { unfold process_ether. erewrite lift_bind by exact Ee. unfold gets, mbind at 1, M_bind at 1.
    change (Types.mac (pctx w2)) with mac.
    destruct (CMP_MAC (eth_src e) mac); [by eexists _, _|]. destruct (Hsafe eq_refl) as [Harp Hip].
    repeat case_if; [|apply (runs_process_ipv4 e (ip (pctx w))); try done; apply Hip; lia|by eexists _, _].
    destruct (runs_process_arp e Hep ltac:(apply Harp; lia) w2 Hw2) as (a & w' & ? & ? & _). eauto. }
  erewrite bind_of_ok by exact E3. case_if; [|by exists w3].
  destruct (runs_print_packet pkthdr packet Hlen w3 Hw3) as ([] & w' & ? & ? & _). eauto.
Qed.

Lemma runs_gateway_send data len :
  bytes_ok data → 20 ≤ zlen data → 0 ≤ len ≤ zlen data → len ≤ 2033 →
  runs state_ok (lan_play_gateway_send_packet data len) (λ _, True).
Proof.
  intros Hb H20 Hl Hl'. unfold lan_play_gateway_send_packet.
  eapply runs_lift; [apply mem_read_ok; off_lia|].
  eapply runs_bind; [apply runs_arp_get; split; [off_lia|eauto with bytes]|].
  intros [m|] Hm; [|by apply runs_ret]. assert (payload_ok (mk_payload data len)) by (split_and!; done || (simpl; lia)).
  apply runs_send_ether; [by apply Hm|by constructor|].
  rewrite payload_bytes_cons. change (payload_bytes []) with (@nil Z).
  by rewrite app_nil_r, payload_data_len.
Qed.

Lemma handle_ok i w :
  stack_ok → state_ok w → input_safe w i → ∃ w', handle i w = Ok ((), w') ∧ state_ok w'.
Proof.
  intros Hst Hw. destruct i; cbn [input_safe handle].
  - by apply handle_frame_ok.
  - intros (? & ? & ?). by apply lan_client_recv_ok_safe.
  - intros _. destruct (runs_keepalive w Hw) as ([] & w' & ? & ? & _). eauto.
  - intros _. eexists. split; [done|]. destruct Hw as [[] ? ? ? ?]. by constructor.
  - intros (? & ? & ? & ?). destruct (runs_gateway_send data len) with w as (a & w' & E & ? & _); [done..|].
    exists w'. split; [|done]. by erewrite bind_of_ok.
Qed.

(** One turn of the loop with a safe input, and a run of it. *)
Inductive step : world → world → Prop :=
  | step_input i w w' : input_safe w i → handle i w = Ok ((), w') → step w w'.

(** (C2) The client never faults: whatever sequence of safe inputs it has
    handled since a well-formed state, with whatever answers from libuv,
    pcap and the clock, its state is well formed (the arrays have their
    sizes, every neighbour and every fragment is well formed) and the next
    safe input is handled to the end. *)
Theorem event_loop_safe w w' i :
  stack_ok → state_ok w → rtc step w w' → input_safe w' i →
  state_ok w' ∧ ∃ w'', handle i w' = Ok ((), w'') ∧ step w' w''.
Proof.
  intros Hst Hw Hr Hi.
  assert (state_ok w') as Hw'.
  { clear Hi. induction Hr as [|w w1 w' [j v v' Hj E] _ IH]; [done|]. apply IH.
    destruct (handle_ok j v Hst Hw Hj) as (v1 & E1 & ?). congruence. }
  split; [done|]. destruct (handle_ok i w' Hst Hw' Hi) as (w'' & E & _).
  exists w''. split; [done|]. by econstructor.
Qed.
End Loop.

(** * The theorems at a concrete state *)

(** The frame of an ARP request for 10.13.0.9 from 10.13.0.7. *)
Definition sample_frame : list Z :=
  ether_header BROADCASE_MAC Sample.peer_mac ETHER_TYPE_ARP ++
  arp_packet ARP_OPCODE_REQUEST Sample.peer_mac Sample.peer_ip NONE_MAC Sample.other_ip.

Definition capture_mac : list Z := [10; 0; 0; 0; 0; 1].

Lemma sample_frame_safe p :
  frame_safe p (mk_pkthdr 42 42 0) sample_frame capture_mac.
Proof.
  split_and!; [|split; [done|Sample.bytes_solve]|simpl; lia|vm_compute; discriminate| |].
  - apply (bool_decide_eq_true_1 (Forall (λ b, 0 ≤ b < 256) sample_frame)). vm_compute. reflexivity.
  - vm_compute. discriminate.
  - intros ether E. vm_compute in E. injection E as <-. intros _.
    split; [intros _; vm_compute; discriminate|intros E; vm_compute in E; discriminate].
Qed.

Lemma event_loop_safe_witness :
  ∃ w', @step Sample.env (λ _, []) (LanSample.start 0) w' ∧
    ∃ w'', @handle Sample.env (λ _, []) (Frame (mk_pkthdr 42 42 0) sample_frame capture_mac) w' = Ok ((), w'').
Proof.
  eexists. assert (@step Sample.env (λ _, []) (LanSample.start 0)
    (on_lp (set_next_real_broadcast true) (LanSample.start 0))) as Hs.
  { apply (step_input _ BroadcastTimer); [exact I|reflexivity]. }
  split; [exact Hs|].
  destruct (@event_loop_safe Sample.env (λ _, []) _ _ (Frame (mk_pkthdr 42 42 0) sample_frame capture_mac)
    (λ k, bytes_ok_zeros 6) sample_state_ok (rtc_once _ _ Hs) (sample_frame_safe _))
    as (_ & w'' & E & _).
  exists w''. exact E.
Defined.
