(* ===== verification/Main.v ===== *)
(** The entry points of [client-switch-lan-play/main.c]: [main], [old_main],
    the listing of interfaces and the handler of SIGINT. *)
From stdpp Require Import strings.
From S2P Require Import Prelude.
From S2P Require Import Types.
From S2P Require Import LanClient.
From S2P Require Import LanClientSafety.
From S2P Require Import Helper.
From S2P Require Import Options.
From S2P Require Import LanPlay.
Local Open Scope Z_scope.

(** * The program *)

(** [struct pcap_addr]: the family and the four bytes of an IPv4 address. *)
Record pcap_addr := mk_pcap_addr { pa_family : Z; pa_ip : Z * Z * Z * Z }.
(** [pcap_if_t]; the list of devices is a linked list. *)
Record pcap_if := mk_pcap_if {
  if_name : list Z; if_description : option (list Z); if_addresses : list pcap_addr }.

Definition inet_ntoa (ip : Z * Z * Z * Z) : list Z := let '(a, b, c, d) := ip in dotted a b c d.

(** The loop over the addresses of a device: what is printed, and [first]. *)
Fixpoint list_addresses (first : bool) (l : list pcap_addr) : list Z * bool :=
  match l with
  | [] => ([], first)
  | a :: l =>
      if pa_family a =? AF_INET then
        let '(out, first') := list_addresses false l in
        ((if first then [10; 9] ++ str "IP: [" else [44]) ++ inet_ntoa (pa_ip a) ++ out, first')
      else list_addresses first l
  end.

Definition list_interface (i : Z) (d : pcap_if) : list Z :=
  fmt_d i ++ str ". " ++ if_name d ++
  match if_description d with
  | Some t => str " (" ++ t ++ str ")"
  | None => str " (No description available)"
  end ++
  (let '(out, first) := list_addresses true (if_addresses d) in
   out ++ (if first then [] else [93])) ++ [10].

(** [list_interfaces]: what is printed and the number of devices. *)
Fixpoint list_interfaces_from (i : Z) (devs : list pcap_if) : list Z * Z :=
  match devs with
  | [] => ([], i)
  | d :: devs =>
      let '(out, n) := list_interfaces_from (i + 1) devs in
      (list_interface (i + 1) d ++ out, n)
  end.
Definition list_interfaces (alldevs : list pcap_if) : list Z * Z := list_interfaces_from 0 alldevs.

(** A handle seen by [uv_walk]: is it closing. *)
Definition walk_cb (is_closing : bool) : bool := if negb is_closing then true else is_closing.

Section Main.
Context `{Env}.
(** The C library, the list of capture devices ([None] when it cannot be
    read), the word typed on the terminal, and the remote control. *)
Variable getaddrinfo : list Z → Z → option (Z * list Z).
Variable stack : list Z.
Variable findalldevs : option (list pcap_if).
Variable terminal : list Z.
Variable version : list Z.
Variable help : list Z → list Z.
Variable rpc_main : option (list Z) → option (list Z) → option (list Z) → IO Z.

Definition printf (t : list Z) : IO () := modify (log_event (EvPrint t)).
Definition rt_assert (val : bool) : IO () := if negb val then fail (ExitCalled 1) else mret ().
Definition print_version : IO () := printf (str "switch-lan-play " ++ version ++ [10]).
Definition print_help (name : list Z) : IO () := printf (help name).

Definition list_netif : IO () :=
  match findalldevs with
  | None => fail (ExitCalled 1)
  | Some alldevs => printf (fst (list_interfaces alldevs))
  end.

Definition lan_play_signal_cb (options : cli_options) (signum : Z) : IO () :=
  printf (str "stopping signum: " ++ fmt_d signum ++ [10]);;
  _ ← lan_play_close options;
  _ ← uv SignalStop;
  _ ← uv SignalClose;
  _ ← uv UvWalk;
  mret ().

(** [scanf("%100s", relay_server_addr)] into a zeroed array. *)
Definition read_relay_addr : IO (list Z) :=
  printf (str "Input the relay server address [ domain/ip:port ]:");;
  mret (take 100 terminal).

Definition old_main (options : cli_options) (send_buffer : list Z) : IO Z :=
  if negb (opt_version options =? 0) then print_version;; mret 0
  else if list_if options then list_netif;; mret 0
  else
    options ← (if is_null (relay_server_addr options) then
                 addr ← read_relay_addr; mret (set_relay_server_addr (Static addr) options)
               else mret options);
    match parse_addr getaddrinfo (default [] (text (relay_server_addr options))) with
    | None => mret (-1)
    | Some a =>
        modify (on_lp (set_server_addr a));;
        ret ← uv SignalInit; rt_assert (ret =? 0);;
        ret ← uv SignalStart; rt_assert (ret =? 0);;
        printf (if is_null (netif options)
                then str "Interface not specified, opening all interfaces" ++ [10]
                else str "Opening single interface" ++ [10]);;
        ret ← lan_play_init getaddrinfo stack options send_buffer; rt_assert (ret =? 0);;
        uv UvRun
    end.

Definition main (argv : list (list Z)) (send_buffer : list Z) : IO Z :=
  let '(ret, options, _) := parse_arguments argv zero_options in
  if negb (ret =? 0) then print_help (default [] (head argv));; mret 1
  else if negb (opt_help options =? 0) then
    print_version;; print_help (default [] (head argv));; mret 0
  else if negb (is_null (rpc options)) then
    rpc_main (text (rpc options)) (text (rpc_token options)) (text (rpc_protocol options))
  else old_main options send_buffer.
End Main.

(** * What is listed, and stopping *)

Lemma list_interfaces_count i devs : snd (list_interfaces_from i devs) = i + zlen devs.
Proof.
  revert i. induction devs as [|d devs IH]; intros i; cbn [list_interfaces_from].
  { unfold zlen. simpl. lia. }
  pose proof (IH (i + 1)) as Hd. destruct (list_interfaces_from (i + 1) devs). simpl in *. len_lia.
Qed.

Section Stop.
Context `{Env}.

(** The calls of a clean stop, in order. *)
Definition close_calls (o : cli_options) : list uv_call :=
  [PcapClose] ++
  (if is_null (relay_server_addr o) then []
   else [UdpRecvStop; TimerStop ClientKeepaliveTimer; TimerStop RealBroadcastTimer;
         UvClose Client; UvClose ClientKeepaliveTimer]) ++
  [GatewayClose].

(** Solves the case where [n] calls were made. *)
Ltac stopped n Hbad :=
  solve [eexists _, _, n; (split; [reflexivity|]);
    (split; [cbn [trace tick log_event]; rewrite <- !app_assoc; reflexivity|]);
    (split; [done|]); intros; first [done|by eapply Hbad]].

(** The calls of [lan_play_close] are a prefix of a clean stop: the first one
    that fails ends it and its code is returned. *)
Lemma lan_play_close_prefix o w :
  ∃ r w' n, lan_play_close o w = Ok (r, w') ∧
    trace w' = trace w ++ (EvUv <$> take n (close_calls o)) ∧ lp w' = lp w ∧
    (r = 0 → n = length (close_calls o)).
Proof.
  unfold lan_play_close, packet_close, lan_client_close, close_calls.
  assert (∀ x, negb (x =? 0) = true → x = 0 → ∀ n m : nat, n = m) as Hbad by (intros x E ->; done).
  destruct (relay_server_addr o); cbn [is_null negb];
    unfold uv, mbind, M_bind, mret, M_ret; cbn [Z.eqb negb calls tick log_event];
    repeat (case_if; cbn [Z.eqb negb calls tick log_event]);
    try discriminate;
    first [stopped 2%nat Hbad|stopped 3%nat Hbad|stopped 4%nat Hbad|stopped 7%nat Hbad].
Qed.
End Stop.
