(* ===== verification/UvTcp.v ===== *)
(** TCP connections of the gateway: the [uvl_tcp_t] half of
    [uv_lwip/uv_lwip.c] (write queue, receive buffer, closing).

    A connection object sits between lwIP, which calls [uvl_client_recv_func],
    [uvl_client_sent_func] and [uvl_client_err_func], libuv, which runs the
    two async callbacks, and its owner, which reads, writes and closes.
    Write requests are linked through their [next] pointers and live in a
    store, because their owner frees them.  The calls into lwIP and libuv are
    recorded in a trace and answered by an environment; the owner's callbacks
    are parameters. *)
From stdpp Require Import gmap.
From S2P Require Import Prelude.
From S2P Require Import NetBytes.

(** * The program *)

Definition TCP_MSS : Z := 512.
Definition TCP_WND : Z := 4 * TCP_MSS.
Definition UVL_TCP_RECV_BUF_LEN : Z := TCP_WND.

Definition ERR_OK : Z := 0.
Definition ERR_MEM : Z := -1.
Definition ERR_ABRT : Z := -13.
Definition UV_EOF : Z := -4095.
Definition UV_ECANCELED : Z := -125.
Definition UV_ENOBUFS : Z := -105.
Definition UV_EALREADY : Z := -114.

(** [struct uvl_tcp_buf]. *)
Record uvl_tcp_buf := mk_buf { recv_buf : list Z; recv_used : Z }.

(** [struct uvl_write]; the number of buffers is the length of the list. *)
Record uvl_write_t := mk_write {
  send_bufs : list (list Z); sent_bufs : Z; sent : Z; pending : Z;
  total_sent : Z; total_len : Z; next : option positive }.
Definition send_nbufs (r : uvl_write_t) : Z := zlen (send_bufs r).

(** What the code uses of a [struct tcp_pcb]: the room in the send buffer, the
    bytes not yet acknowledged, and whether the callbacks are set. *)
Record tcp_pcb := mk_pcb { snd_buf : Z; unacked : Z; callbacks : bool }.

(** [struct sockaddr_in]: family, address and port in network order. *)
Record sockaddr_in := mk_sockaddr { sin_family : Z; sin_addr : list Z; sin_port : Z }.

(** [struct uvl_tcp]; of the two read callbacks only whether they are set,
    [close_cb] as the identity of the function. *)
Record uvl_tcp_t := mk_tcp {
  buf : option uvl_tcp_buf;
  cur_write : option positive; tail_write : option positive;
  closed : bool; alloc_cb : bool; read_cb : bool; close_cb : option positive;
  pcb : option tcp_pcb; local_addr : sockaddr_in; remote_addr : sockaddr_in;
  sent_bytes : Z; recv_bytes : Z; closed_handle : Z }.

Inductive tcp_event :=
  | TcpWrite (data : list Z)
  | TcpOutput
  | TcpClose
  | TcpAbort
  | TcpRecved (n : Z)
  | AsyncSendRead
  | AsyncSendWrite
  | CloseHandles
  | ReadCb (nread : Z) (data : list Z)
  | WriteCb (req : positive) (status : Z)
  | CloseCb (cb : positive).

(** The connection, the requests that are allocated, the calls made so far. *)
Record conn := mk_conn {
  client : uvl_tcp_t; reqs : gmap positive uvl_write_t; events : list tcp_event; ncalls : nat }.

(** The answers of lwIP and libuv and the buffers the owner allocates, by the
    number of calls made before. *)
Class TcpEnv := {
  ans_write : nat → Z;           (* tcp_write *)
  ans_output : nat → Z;          (* tcp_output *)
  ans_close : nat → Z;           (* tcp_close *)
  ans_async : nat → Z;           (* uv_async_send *)
  ans_alloc : nat → option Z     (* alloc_cb: the length, or a null base *)
}.

Abbreviation TCP := (M conn).

(** ** Field updates *)

Definition set_buf (b : option uvl_tcp_buf) (c : uvl_tcp_t) : uvl_tcp_t :=
  mk_tcp b (cur_write c) (tail_write c) (closed c) (alloc_cb c) (read_cb c) (close_cb c) (pcb c)
    (local_addr c) (remote_addr c) (sent_bytes c) (recv_bytes c) (closed_handle c).
Definition set_queue (cur tail : option positive) (c : uvl_tcp_t) : uvl_tcp_t :=
  mk_tcp (buf c) cur tail (closed c) (alloc_cb c) (read_cb c) (close_cb c) (pcb c)
    (local_addr c) (remote_addr c) (sent_bytes c) (recv_bytes c) (closed_handle c).
Definition set_closed (b : bool) (c : uvl_tcp_t) : uvl_tcp_t :=
  mk_tcp (buf c) (cur_write c) (tail_write c) b (alloc_cb c) (read_cb c) (close_cb c) (pcb c)
    (local_addr c) (remote_addr c) (sent_bytes c) (recv_bytes c) (closed_handle c).
Definition set_reader (a r : bool) (c : uvl_tcp_t) : uvl_tcp_t :=
  mk_tcp (buf c) (cur_write c) (tail_write c) (closed c) a r (close_cb c) (pcb c)
    (local_addr c) (remote_addr c) (sent_bytes c) (recv_bytes c) (closed_handle c).
Definition set_close_cb (b : option positive) (c : uvl_tcp_t) : uvl_tcp_t :=
  mk_tcp (buf c) (cur_write c) (tail_write c) (closed c) (alloc_cb c) (read_cb c) b (pcb c)
    (local_addr c) (remote_addr c) (sent_bytes c) (recv_bytes c) (closed_handle c).
Definition set_pcb (p : option tcp_pcb) (c : uvl_tcp_t) : uvl_tcp_t :=
  mk_tcp (buf c) (cur_write c) (tail_write c) (closed c) (alloc_cb c) (read_cb c) (close_cb c) p
    (local_addr c) (remote_addr c) (sent_bytes c) (recv_bytes c) (closed_handle c).
Definition set_bytes (s r : Z) (c : uvl_tcp_t) : uvl_tcp_t :=
  mk_tcp (buf c) (cur_write c) (tail_write c) (closed c) (alloc_cb c) (read_cb c) (close_cb c) (pcb c)
    (local_addr c) (remote_addr c) s r (closed_handle c).
Definition set_addrs (l r : sockaddr_in) (c : uvl_tcp_t) : uvl_tcp_t :=
  mk_tcp (buf c) (cur_write c) (tail_write c) (closed c) (alloc_cb c) (read_cb c) (close_cb c) (pcb c)
    l r (sent_bytes c) (recv_bytes c) (closed_handle c).
Definition set_closed_handle (n : Z) (c : uvl_tcp_t) : uvl_tcp_t :=
  mk_tcp (buf c) (cur_write c) (tail_write c) (closed c) (alloc_cb c) (read_cb c) (close_cb c) (pcb c)
    (local_addr c) (remote_addr c) (sent_bytes c) (recv_bytes c) n.

Definition on_client (f : uvl_tcp_t → uvl_tcp_t) (s : conn) : conn :=
  mk_conn (f (client s)) (reqs s) (events s) (ncalls s).
Definition on_reqs (f : gmap positive uvl_write_t → gmap positive uvl_write_t) (s : conn) : conn :=
  mk_conn (client s) (f (reqs s)) (events s) (ncalls s).
Definition emit (e : tcp_event) (s : conn) : conn :=
  mk_conn (client s) (reqs s) (events s ++ [e]) (ncalls s).
Definition count_call (s : conn) : conn := mk_conn (client s) (reqs s) (events s) (S (ncalls s)).

Definition ASSERT (b : bool) : TCP () := if b then mret () else fail AssertFailure.

(** [*req] of an allocated request. *)
Definition get_req (id : positive) : TCP uvl_write_t := λ s,
  match reqs s !! id with Some r => Ok (r, s) | None => Fail OutOfBounds end.
Definition put_req (id : positive) (r : uvl_write_t) : TCP () := modify (on_reqs <[id := r]>).
(** [client->pcb->...] *)
Definition get_pcb : TCP tcp_pcb := λ s,
  match pcb (client s) with Some p => Ok (p, s) | None => Fail NullPointer end.
Definition get_buf : TCP uvl_tcp_buf := λ s,
  match buf (client s) with Some b => Ok (b, s) | None => Fail NullPointer end.

Section Tcp.
Context `{TcpEnv}.

(** ** Calls into lwIP and libuv *)

Definition tcp_sndbuf : TCP Z := p ← get_pcb; mret (snd_buf p).

(** [tcp_write] with [TCP_WRITE_FLAG_COPY]: on success the data is queued and
    takes room in the send buffer. *)
Definition tcp_write (data : list Z) : TCP Z :=
  p ← get_pcb;
  err ← gets (λ s, ans_write (ncalls s));
  modify count_call;;
  if err =? ERR_OK then
    modify (emit (TcpWrite data));;
    modify (on_client (set_pcb (Some (mk_pcb (snd_buf p - zlen data) (unacked p + zlen data) (callbacks p)))));;
    mret err
  else mret err.

Definition tcp_output : TCP Z :=
  _ ← get_pcb;
  err ← gets (λ s, ans_output (ncalls s));
  modify count_call;; modify (emit TcpOutput);; mret err.

Definition tcp_close : TCP Z :=
  _ ← get_pcb;
  err ← gets (λ s, ans_close (ncalls s));
  modify count_call;; modify (emit TcpClose);; mret err.

(** [tcp_err(pcb, NULL); tcp_recv(pcb, NULL); tcp_sent(pcb, NULL);] *)
Definition drop_callbacks : TCP () :=
  p ← get_pcb; modify (on_client (set_pcb (Some (mk_pcb (snd_buf p) (unacked p) false)))).

Definition tcp_recved (n : Z) : TCP () := _ ← get_pcb; modify (emit (TcpRecved n)).

Definition uv_async_send (e : tcp_event) : TCP Z :=
  ret ← gets (λ s, ans_async (ncalls s));
  modify count_call;; modify (emit e);; mret ret.

(** ** The callbacks of the owner *)

(** What the owner does in its callbacks. *)
Variable on_read : Z → list Z → TCP ().
Variable on_write : positive → Z → TCP ().
Variable on_close : TCP ().

Definition call_read_cb (nread : Z) (data : list Z) : TCP () :=
  modify (emit (ReadCb nread data));; on_read nread data.
Definition call_write_cb (req : positive) (status : Z) : TCP () :=
  modify (emit (WriteCb req status));; on_write req status.

(** ** Closing *)

Definition uvl_client_freed : TCP () :=
  modify (on_client (set_pcb None));;
  modify (on_client (set_closed true));;
  c ← gets client;
  if read_cb c then
    call_read_cb UV_EOF [];;
    modify (on_client (λ c, set_reader (alloc_cb c) false c))
  else mret ().

Definition uvl_client_abort : TCP Z :=
  c ← gets client;
  ASSERT (match pcb c with Some _ => true | None => false end);;
  ASSERT (negb (closed c));;
  drop_callbacks;;
  modify (emit TcpAbort);;
  uvl_client_freed;;
  mret ERR_ABRT.

Definition uvl_client_close_func : TCP Z :=
  c ← gets client;
  ASSERT (negb (closed c));;
  drop_callbacks;;
  err ← tcp_close;
  if err =? ERR_OK then uvl_client_freed;; mret err else uvl_client_abort.

Definition uvl_client_err_func : TCP () := uvl_client_freed.

(** ** Writing *)

Definition add_sent (n : Z) (r : uvl_write_t) : uvl_write_t :=
  mk_write (send_bufs r) (sent_bufs r) (u32 (sent r + n)) (u32 (pending r + n))
    (u32 (total_sent r + n)) (total_len r) (next r).
Definition next_buf (r : uvl_write_t) : uvl_write_t :=
  mk_write (send_bufs r) (u32 (sent_bufs r + 1)) 0 (pending r) (total_sent r) (total_len r) (next r).

(** The [do ... while] loop: [Some ret] for a return, [None] for [may_next].
    The second turn at the latest finds nothing to write. *)
Fixpoint write_loop (fuel : nat) (id : positive) (b : list Z) : TCP (option Z) :=
  match fuel with
  | O => fail OutOfFuel
  | S fuel =>
      req ← get_req id;
      sndbuf ← tcp_sndbuf;
      let to_write := LMIN (zlen b - sent req) sndbuf in
      if to_write =? 0 then mret None
      else
        data ← lift (mem_read b (sent req) to_write);
        err ← tcp_write data;
        if negb (err =? ERR_OK) then
          if err =? ERR_MEM then mret (Some 0)
          else ret ← uvl_client_close_func; mret (Some ret)
        else
          put_req id (add_sent to_write req);;
          modify (on_client (λ c, set_bytes (sent_bytes c) (u32 (recv_bytes c + to_write)) c));;
          if sent (add_sent to_write req) <? zlen b then write_loop fuel id b else mret None
  end.

Definition uvl_imp_write_buf_to_tcp (id : positive) : TCP Z :=
  req ← get_req id;
  b ← lift (arr_get (send_bufs req) (sent_bufs req));
  r ← write_loop 2 id b;
  match r with
  | Some ret => mret ret
  | None =>
      sndbuf ← tcp_sndbuf;
      if sndbuf =? 0 then mret 0
      else req ← get_req id; put_req id (next_buf req);; mret 1
  end.

(** The first loop: the first request with a buffer left. *)
Fixpoint first_unsent (fuel : nat) (req : option positive) : TCP (option positive) :=
  match req with
  | None => mret None
  | Some id =>
      match fuel with
      | O => fail OutOfFuel
      | S fuel =>
          r ← get_req id;
          if sent_bufs r <? send_nbufs r then mret (Some id) else first_unsent fuel (next r)
      end
  end.

(** The second loop; [false] when the function returns from inside it. *)
Fixpoint write_reqs (fuel : nat) (req : option positive) : TCP bool :=
  match req with
  | None => mret true
  | Some id =>
      match fuel with
      | O => fail OutOfFuel
      | S fuel =>
          ret ← uvl_imp_write_buf_to_tcp id;
          if ret =? 0 then mret true
          else if ret =? -1 then mret false
          else
            r ← get_req id;
            write_reqs fuel (if sent_bufs r =? send_nbufs r then next r else Some id)
      end
  end.

(** The number of buffers of all requests bounds the turns of both loops. *)
Definition all_bufs (m : gmap positive uvl_write_t) : nat :=
  map_fold (λ _ r n, S (length (send_bufs r) + n))%nat 0%nat m.

Definition uvl_imp_write_to_tcp : TCP () :=
  c ← gets client;
  ASSERT (match cur_write c with Some _ => true | None => false end);;
  ASSERT (match pcb c with Some _ => true | None => false end);;
  fuel ← gets (λ s, S (all_bufs (reqs s)));
  req ← first_unsent fuel (cur_write c);
  go ← write_reqs fuel req;
  if go : bool then
    err ← tcp_output;
    if negb (err =? ERR_OK) then _ ← uvl_client_close_func; mret () else mret ()
  else mret ().

(** The loop of [uvl_cancel_reqs]: [next] is read before the callback, which
    may free the request. *)
Fixpoint cancel_loop (fuel : nat) (req : option positive) : TCP () :=
  match req with
  | None => mret ()
  | Some id =>
      match fuel with
      | O => fail OutOfFuel
      | S fuel => r ← get_req id; call_write_cb id UV_ECANCELED;; cancel_loop fuel (next r)
      end
  end.

Definition uvl_cancel_reqs : TCP () :=
  c ← gets client;
  fuel ← gets (λ s, S (size (reqs s)));
  cancel_loop fuel (cur_write c);;
  modify (on_client (set_queue None None));;
  c ← gets client;
  if read_cb c then
    call_read_cb UV_ECANCELED [];;
    modify (on_client (λ c, set_reader (alloc_cb c) false c))
  else mret ().

(** The loop of [uvl_async_tcp_write_cb] over the finished requests. *)
Fixpoint finish_loop (fuel : nat) (req : option positive) : TCP () :=
  match req with
  | None => mret ()
  | Some id =>
      match fuel with
      | O => fail OutOfFuel
      | S fuel =>
          r ← get_req id;
          if (total_sent r =? total_len r) && (pending r =? 0) then
            modify (on_client (λ c, set_queue (next r) (tail_write c) c));;
            call_write_cb id 0;;
            finish_loop fuel (next r)
          else mret ()
      end
  end.

Definition uvl_async_tcp_write_cb : TCP () :=
  c ← gets client;
  fuel ← gets (λ s, S (size (reqs s)));
  finish_loop fuel (cur_write c);;
  modify (on_client (λ c, match cur_write c with None => set_queue None None c | Some _ => c end));;
  c ← gets client;
  if closed c then uvl_cancel_reqs
  else match cur_write c with Some _ => uvl_imp_write_to_tcp | None => mret () end.

Definition set_next (n : option positive) (r : uvl_write_t) : uvl_write_t :=
  mk_write (send_bufs r) (sent_bufs r) (sent r) (pending r) (total_sent r) (total_len r) n.
Definition bufs_total (bufs : list (list Z)) : Z := foldl (λ n b, u32 (n + zlen b)) 0 bufs.

(** [uvl_write]: the caller's request [id] is filled in and appended. *)
Definition uvl_write (id : positive) (bufs : list (list Z)) : TCP Z :=
  put_req id (mk_write bufs 0 0 0 0 0 None);;
  c ← gets client;
  match tail_write c with
  | Some t => r ← get_req t; put_req t (set_next (Some id) r)
  | None => mret ()
  end;;
  modify (on_client (λ c,
    set_queue (match cur_write c with None => Some id | Some x => Some x end) (Some id) c));;
  r ← get_req id;
  put_req id (mk_write (send_bufs r) (sent_bufs r) (sent r) (pending r) (total_sent r)
                (bufs_total bufs) (next r));;
  uv_async_send AsyncSendWrite.

Definition sub_pending (n : Z) (r : uvl_write_t) : uvl_write_t :=
  mk_write (send_bufs r) (sent_bufs r) (sent r) (u32 (pending r - n)) (total_sent r) (total_len r) (next r).

(** The loop of [uvl_client_sent_func]: every turn moves to the next request. *)
Fixpoint ack_loop (fuel : nat) (req : option positive) (len : Z) : TCP () :=
  if len >? 0 then
    match fuel with
    | O => fail OutOfFuel
    | S fuel =>
        match req with
        | None => fail NullPointer
        | Some id =>
            r ← get_req id;
            let to_sub := LMIN (pending r) len in
            put_req id (sub_pending to_sub r);;
            ack_loop fuel (next r) (u16 (len - to_sub))
        end
    end
  else mret ().

Definition uvl_client_sent_func (len : Z) : TCP Z :=
  c ← gets client;
  ASSERT (negb (closed c));;
  ASSERT (len >? 0);;
  modify (on_client (λ c, set_bytes (u32 (sent_bytes c + len)) (recv_bytes c) c));;
  fuel ← gets (λ s, S (size (reqs s)));
  ack_loop fuel (cur_write c) len;;
  _ ← uv_async_send AsyncSendWrite;
  mret ERR_OK.

(** ** Reading *)

(** [uvl_client_recv_func]: the data of the [pbuf] chain, or [None] when the
    peer has closed.  The chain is freed once it is copied. *)
Definition uvl_client_recv_func (p : option (list Z)) : TCP Z :=
  c ← gets client;
  ASSERT (negb (closed c));;
  ASSERT (match pcb c with Some _ => true | None => false end);;
  match p with
  | None => uvl_client_close_func
  | Some data =>
      ASSERT (zlen data >? 0);;
      b ← get_buf;
      if zlen data >? UVL_TCP_RECV_BUF_LEN - recv_used b then mret ERR_MEM
      else
        bytes ← lift (mem_write (recv_buf b) (recv_used b) data);
        modify (on_client (set_buf (Some (mk_buf bytes (u16 (recv_used b + zlen data))))));;
        ret ← uv_async_send AsyncSendRead;
        mret (if ret =? 0 then ERR_OK else ERR_ABRT)
  end.

Definition uvl_async_tcp_read_cb : TCP () :=
  b ← get_buf;
  ASSERT (recv_used b <=? UVL_TCP_RECV_BUF_LEN);;
  c ← gets client;
  if read_cb c then
    if recv_used b >? 0 then
      (if alloc_cb c then mret () else fail NullPointer);;
      room ← gets (λ s, ans_alloc (ncalls s));
      modify count_call;;
      if match room with None => true | Some len => len <? recv_used b end then
        call_read_cb UV_ENOBUFS []
      else
        data ← lift (mem_read (recv_buf b) 0 (recv_used b));
        tcp_recved (recv_used b);;
        modify (on_client (set_buf (Some (mk_buf (recv_buf b) 0))));;
        call_read_cb (recv_used b) data
    else mret ()
  else mret ().

Definition uvl_read_start : TCP Z :=
  c ← gets client;
  if read_cb c then mret UV_EALREADY
  else if closed c then call_read_cb UV_EOF [];; mret 0
  else
    err ← uv_async_send AsyncSendRead;
    (if err =? 0 then modify (on_client (set_reader true true)) else mret ());;
    mret err.

Definition uvl_read_stop : TCP Z := modify (on_client (set_reader false false));; mret 0.

(** ** Life cycle *)

(** The connection part of [uvl_accept]. *)
Definition accept_client (p : tcp_pcb) (local remote : sockaddr_in) : TCP () :=
  modify (on_client (set_pcb (Some (mk_pcb (snd_buf p) (unacked p) true))));;
  modify (on_client (set_addrs local remote));;
  modify (on_client (set_bytes 0 0));;
  modify (on_client (set_closed_handle 0)).

(** [uvl_tcp_init]; [junk] is what [malloc] returns.  The two answers are those
    of [uv_async_init]; the addresses are cleared last. *)
Definition uvl_tcp_init (junk : list Z) : TCP Z :=
  modify (on_client (λ c, mk_tcp (Some (mk_buf junk 0)) None None false false false None None
                            (local_addr c) (remote_addr c) (sent_bytes c) (recv_bytes c) (closed_handle c)));;
  ret ← gets (λ s, ans_async (ncalls s)); modify count_call;;
  if negb (ret =? 0) then mret ret
  else
    ret ← gets (λ s, ans_async (ncalls s)); modify count_call;;
    if negb (ret =? 0) then mret ret
    else modify (on_client (set_addrs (mk_sockaddr 0 [0; 0; 0; 0] 0) (mk_sockaddr 0 [0; 0; 0; 0] 0)));; mret 0.

Definition uvl_tcp_close_handle_cb : TCP () :=
  modify (on_client (λ c, set_closed_handle (closed_handle c + 1) c));;
  c ← gets client;
  if closed_handle c =? 2 then
    modify (on_client (λ c, mk_tcp None None None (closed c) false false (close_cb c) None
                              (local_addr c) (remote_addr c) (sent_bytes c) (recv_bytes c) 0));;
    match close_cb c with
    | None => fail NullPointer
    | Some cb =>
        modify (on_client (set_close_cb None));;
        modify (emit (CloseCb cb));;
        on_close
    end
  else mret ().

Definition uvl_tcp_close (cb : positive) : TCP Z :=
  c ← gets client;
  ASSERT (match close_cb c with None => true | Some f => (f =? cb)%positive end);;
  (if closed c then mret () else _ ← uvl_client_close_func; mret ());;
  uvl_cancel_reqs;;
  modify (emit CloseHandles);;
  modify (on_client (set_close_cb (Some cb)));;
  mret 0.
End Tcp.
