(* ===== verification/UvTcpFacts.v ===== *)
(** The write queue of a gateway connection ([UvTcp]) delivers its stream: what
    lwIP is given is what the owner wrote, in order, each byte once; requests
    complete in order, after their bytes are acknowledged. *)
From stdpp Require Import gmap.
From S2P Require Import Prelude.
From S2P Require Import NetBytes.
From S2P Require Import UvTcp.

(** * Linked queues *)

Abbreviation node := (positive * uvl_write_t)%type.

(** The requests reached from [cur] through [next]. *)
Fixpoint seg (m : gmap positive uvl_write_t) (cur : option positive) (L : list node) : Prop :=
  match L with
  | [] => cur = None
  | (id, r) :: L => cur = Some id ∧ m !! id = Some r ∧ seg m (next r) L
  end.

Lemma seg_insert m cur L id r : id ∉ L.*1 → seg m cur L → seg (<[id := r]> m) cur L.
Proof.
  revert cur. induction L as [|[j q] L IH]; intros cur Hn; [done|].
  rewrite fmap_cons in Hn. apply not_elem_of_cons in Hn as [Hj Hn].
  intros (-> & Hl & Hs). split_and!; [done|by rewrite lookup_insert_ne|by apply IH].
Qed.

Lemma seg_delete m cur L id : id ∉ L.*1 → seg m cur L → seg (delete id m) cur L.
Proof.
  revert cur. induction L as [|[j q] L IH]; intros cur Hn; [done|].
  rewrite fmap_cons in Hn. apply not_elem_of_cons in Hn as [Hj Hn].
  intros (-> & Hl & Hs). split_and!; [done|by rewrite lookup_delete_ne|by apply IH].
Qed.

Lemma seg_lookup m cur A id r B : seg m cur (A ++ (id, r) :: B) → m !! id = Some r ∧ seg m (next r) B.
Proof.
  revert cur. induction A as [|[j q] A IH]; intros cur; simpl; [tauto|].
  intros (_ & _ & Hs). by eapply IH.
Qed.

Lemma NoDup_middle {A} (l k : list A) x : NoDup (l ++ x :: k) → (x ∉ l) ∧ (x ∉ k) ∧ NoDup (l ++ k).
Proof.
  rewrite list.NoDup_app, list.NoDup_cons. intros (Hl & Hd & Hx & Hk). split_and!; [|done|].
  - intros Hin. apply (Hd x Hin). left.
  - apply list.NoDup_app. split_and!; [done| |done]. intros y Hy Hin. apply (Hd y Hy). by right.
Qed.

(** Changing a request in place, its [next] pointer apart. *)
Lemma seg_update m cur A id r r' B :
  NoDup (A ++ (id, r) :: B).*1 → next r' = next r →
  seg m cur (A ++ (id, r) :: B) → seg (<[id := r']> m) cur (A ++ (id, r') :: B).
Proof.
  rewrite fmap_app, fmap_cons. intros Hn Hr. apply NoDup_middle in Hn as (Ha & Hb & _).
  revert cur Ha. induction A as [|[j q] A IH]; intros cur Ha; simpl.
  - intros (-> & _ & Hs). rewrite lookup_insert_eq, Hr. split_and!; [done..|]. by apply seg_insert.
  - rewrite fmap_cons in Ha. apply not_elem_of_cons in Ha as [Hj Ha].
    intros (-> & Hl & Hs). split_and!; [done|by rewrite lookup_insert_ne by done|by apply IH].
Qed.

(** Appending behind the last request. *)
Lemma seg_append m cur A t r id q :
  NoDup (A ++ [(t, r)]).*1 → (id ∉ (A ++ [(t, r)]).*1) → seg m cur (A ++ [(t, r)]) → next q = None →
  seg (<[t := set_next (Some id) r]> (<[id := q]> m)) cur (A ++ [(t, set_next (Some id) r); (id, q)]).
Proof.
  rewrite !fmap_app. cbn [fmap list_fmap fst]. intros Hn Hid Hs Hq.
  apply NoDup_middle in Hn as (Ha & _ & _). apply not_elem_of_app in Hid as [Hid Hid'].
  apply not_elem_of_cons in Hid' as [Hne _].
  revert cur Ha Hid Hs. induction A as [|[j p] A IH]; intros cur Ha Hid; simpl.
  - intros (-> & _ & _). rewrite lookup_insert_eq, lookup_insert_ne, lookup_insert_eq by done. done.
  - rewrite fmap_cons in Ha, Hid. apply not_elem_of_cons in Ha as [Hj Ha].
    apply not_elem_of_cons in Hid as [Hj' Hid]. intros (-> & Hl & Hs).
    split_and!; [done|by rewrite !lookup_insert_ne by done|by apply IH].
Qed.

Lemma seg_size m cur L : NoDup L.*1 → seg m cur L → (length L ≤ size m)%nat.
Proof.
  revert m cur. induction L as [|[id r] L IH]; intros m cur; simpl; [lia|].
  intros [Hn Hd]%list.NoDup_cons (_ & Hl & Hs).
  pose proof (IH (delete id m) (next r) Hd (seg_delete _ _ _ _ Hn Hs)).
  assert (size (delete id m) = Nat.pred (size m)) by (apply map_size_delete_Some; eauto).
  assert (size m ≠ 0%nat) by (apply map_size_non_empty_iff; intros ->; by rewrite lookup_empty in Hl).
  lia.
Qed.

(** The buffers of the queue are among all buffers. *)
Definition nodes_bufs (L : list node) : nat :=
  foldr (λ x n, S (length (send_bufs x.2) + n))%nat 0%nat L.

Lemma all_bufs_insert m id r :
  m !! id = None → all_bufs (<[id := r]> m) = S (length (send_bufs r) + all_bufs m).
Proof. intros Hl. unfold all_bufs. rewrite map_fold_insert_L; [done| |done]. intros. lia. Qed.

Lemma seg_bufs m cur L : NoDup L.*1 → seg m cur L → (nodes_bufs L ≤ all_bufs m)%nat.
Proof.
  revert m cur. induction L as [|[id r] L IH]; intros m cur; simpl; [lia|].
  intros [Hn Hd]%list.NoDup_cons (_ & Hl & Hs).
  pose proof (IH (delete id m) (next r) Hd (seg_delete _ _ _ _ Hn Hs)).
  rewrite <- (insert_delete_id m id r Hl), all_bufs_insert by apply lookup_delete_eq. lia.
Qed.

(** * Requests *)

(** The bytes of a request that lwIP was not given yet. *)
Definition unsent (r : uvl_write_t) : list Z := drop (Z.to_nat (total_sent r)) (concat (send_bufs r)).
Definition unsent_all (L : list node) : list Z := concat (unsent <$> L.*2).
Definition pending_all (L : list node) : Z := foldr (λ x n, pending x.2 + n) 0 L.

Record req_ok (r : uvl_write_t) : Prop := {
  ok_pos : 0 ≤ sent_bufs r ≤ send_nbufs r;
  ok_nbufs : 0 < send_nbufs r < 4294967296;
  ok_len : total_len r = zlen (concat (send_bufs r));
  ok_small : total_len r < 4294967296;
  ok_pending : 0 ≤ pending r ≤ total_sent r;
  ok_sent : total_sent r = zlen (concat (take (Z.to_nat (sent_bufs r)) (send_bufs r))) + sent r;
  ok_cur : ∀ b, send_bufs r !! Z.to_nat (sent_bufs r) = Some b → 0 ≤ sent r ≤ zlen b;
  ok_done : sent_bufs r = send_nbufs r → sent r = 0 }.

Definition written (r : uvl_write_t) : Prop := sent_bufs r = send_nbufs r.

(** Requests are written in order: behind the first one that is not written
    none is started. *)
Fixpoint ordered (L : list node) : Prop :=
  match L with
  | [] => True
  | x :: L => (written x.2 ∧ ordered L) ∨ (sent_bufs x.2 < send_nbufs x.2 ∧ Forall (λ y, sent_bufs y.2 = 0) L)
  end.

Lemma concat_at {A} (l : list (list A)) i b :
  l !! i = Some b → concat l = concat (take i l) ++ b ++ concat (drop (S i) l).
Proof. intros E. rewrite <- (take_drop_middle l i b E) at 1. by rewrite concat_app. Qed.

Lemma drop_add_app {A} (l k : list A) n : drop (length l + n) (l ++ k) = drop n k.
Proof. by rewrite <- drop_drop, drop_app_length. Qed.

Lemma unsent_at r b :
  req_ok r → send_bufs r !! Z.to_nat (sent_bufs r) = Some b →
  unsent r = drop (Z.to_nat (sent r)) b ++ concat (drop (S (Z.to_nat (sent_bufs r))) (send_bufs r)).
Proof.
  intros Hr E. unfold unsent. pose proof (ok_cur _ Hr b E) as Hc.
  rewrite (concat_at _ _ _ E), (ok_sent _ Hr).
  replace (Z.to_nat _) with (length (concat (take (Z.to_nat (sent_bufs r)) (send_bufs r))) + Z.to_nat (sent r))%nat
    by (zify_len; lia).
  rewrite drop_add_app, drop_app_le by (zify_len; lia). done.
Qed.

Lemma unsent_written r : req_ok r → written r → unsent r = [].
Proof.
  intros Hr Hw. unfold unsent. apply drop_ge. rewrite (ok_sent _ Hr), (ok_done _ Hr Hw), Hw.
  unfold send_nbufs. rewrite take_ge by (zify_len; lia). zify_len. lia.
Qed.

(** The bytes given to lwIP never exceed the request. *)
Lemma total_sent_le r : req_ok r → 0 ≤ total_sent r ≤ total_len r.
Proof.
  intros Hr. pose proof (ok_pending _ Hr). split; [lia|].
  rewrite (ok_len _ Hr), (ok_sent _ Hr). pose proof (ok_pos _ Hr) as Hp.
  destruct (decide (sent_bufs r = send_nbufs r)) as [Hw|Hw].
  - rewrite (ok_done _ Hr Hw), Hw. unfold send_nbufs. rewrite take_ge by (zify_len; lia). lia.
  - destruct (lookup_lt_is_Some_2 (send_bufs r) (Z.to_nat (sent_bufs r))) as [b E];
      [unfold send_nbufs in *; zify_len; lia|].
    pose proof (ok_cur _ Hr b E). rewrite (concat_at _ _ _ E). zify_len. rewrite !length_app. lia.
Qed.

Lemma unsent_length r : req_ok r → zlen (unsent r) = total_len r - total_sent r.
Proof.
  intros Hr. pose proof (total_sent_le r Hr). pose proof (ok_len _ Hr). unfold unsent. zify_len.
  rewrite length_drop. lia.
Qed.

(** Giving lwIP the next [n] bytes of the current buffer. *)
Lemma add_sent_ok r b n :
  req_ok r → send_bufs r !! Z.to_nat (sent_bufs r) = Some b → 0 ≤ n ≤ zlen b - sent r →
  req_ok (add_sent n r) ∧ sent (add_sent n r) = sent r + n ∧ pending (add_sent n r) = pending r + n ∧
  unsent r = take (Z.to_nat n) (drop (Z.to_nat (sent r)) b) ++ unsent (add_sent n r).
Proof.
  intros Hr E Hn. pose proof (ok_cur _ Hr b E) as Hc. pose proof (ok_pending _ Hr).
  assert (total_sent r + n ≤ total_len r) as Ht.
  { rewrite (ok_len _ Hr), (ok_sent _ Hr), (concat_at _ _ _ E). zify_len. rewrite !length_app. lia. }
  pose proof (ok_small _ Hr). pose proof (ok_sent _ Hr).
  assert (0 ≤ zlen (concat (take (Z.to_nat (sent_bufs r)) (send_bufs r)))) by (zify_len; lia).
  assert (req_ok (add_sent n r)) as Hr'.
  { constructor; unfold send_nbufs; cbn [add_sent send_bufs sent_bufs sent pending total_sent total_len];
      autorewrite with small; try apply Hr; try lia.
    - intros b' E'. rewrite E in E'. injection E' as <-. lia.
    - intros Hw. apply (ok_done _ Hr) in Hw as Hs. exfalso.
      apply lookup_lt_Some in E. unfold send_nbufs in *. zify_len. lia. }
  split_and!; [done|cbn [add_sent sent pending]; autorewrite with small; done..|].
  rewrite (unsent_at r b Hr E), (unsent_at (add_sent n r) b Hr' E).
  cbn [add_sent send_bufs sent_bufs sent]. autorewrite with small.
  rewrite app_assoc. f_equal. rewrite Z2Nat.inj_add, <- drop_drop by lia. by rewrite take_drop.
Qed.

Lemma next_buf_ok r b :
  req_ok r → send_bufs r !! Z.to_nat (sent_bufs r) = Some b → sent r = zlen b →
  req_ok (next_buf r) ∧ sent_bufs (next_buf r) = sent_bufs r + 1 ∧ unsent (next_buf r) = unsent r.
Proof.
  intros Hr E Hs. pose proof (ok_pos _ Hr). pose proof (ok_nbufs _ Hr).
  pose proof (lookup_lt_Some _ _ _ E) as Hl.
  assert (sent_bufs r + 1 ≤ send_nbufs r) by (unfold send_nbufs in *; zify_len; lia).
  assert (sent_bufs (next_buf r) = sent_bufs r + 1) as Hb
    by (cbn [next_buf sent_bufs]; autorewrite with small; done).
  split_and!; [|done|done].
  constructor; unfold send_nbufs; rewrite ?Hb; cbn [next_buf send_bufs sent pending total_sent total_len];
    try apply Hr; try done.
  - unfold send_nbufs in *. lia.
  - rewrite (ok_sent _ Hr), Hs, Z2Nat.inj_add, Nat.add_1_r by lia.
    rewrite (take_S_r _ _ b E), concat_app. simpl. zify_len. rewrite !length_app. simpl. lia.
  - intros. zify_len. lia.
Qed.

(** * The invariant of an open connection *)

(** What a trace says: the bytes lwIP was given, the requests reported to
    their owner with the status, the bytes the reader was handed. *)
Definition given (e : tcp_event) : list Z := match e with TcpWrite d => d | _ => [] end.
Definition finished (e : tcp_event) : list (positive * Z) :=
  match e with WriteCb id st => [(id, st)] | _ => [] end.
Definition handed (e : tcp_event) : list Z := match e with ReadCb _ d => d | _ => [] end.
Definition out (s : conn) : list Z := concat (given <$> events s).
Definition completed (s : conn) : list (positive * Z) := concat (finished <$> events s).
Definition delivered (s : conn) : list Z := concat (handed <$> events s).

Lemma concat_fmap_snoc {A B} (f : A → list B) l x : concat (f <$> l ++ [x]) = concat (f <$> l) ++ f x.
Proof. rewrite fmap_app, concat_app. simpl. by rewrite app_nil_r. Qed.

(** The requests the owner submitted, with their buffers. *)
Abbreviation history := (list (positive * list (list Z))).
Definition as_submitted (x : node) : positive * list (list Z) := (x.1, send_bufs x.2).
Definition with_status (st : Z) (h : history) : list (positive * Z) := (λ x, (x.1, st)) <$> h.
Definition stream (h : history) : list Z := concat ((λ x, concat x.2) <$> h).

(** [h] was submitted and [i] accepted from lwIP; [L] is the queue. *)
Record conn_inv (h : history) (i : list Z) (L : list node) (s : conn) : Prop := {
  ci_seg : seg (reqs s) (cur_write (client s)) L;
  ci_nodup : NoDup L.*1;
  ci_tail : tail_write (client s) = fst <$> list.last L;
  ci_reqs : Forall (λ x, req_ok x.2) L;
  ci_ordered : ordered L;
  ci_open : closed (client s) = false;
  ci_pcb : ∃ p, pcb (client s) = Some p ∧ 0 ≤ snd_buf p ∧ unacked p = pending_all L;
  ci_queue : ∃ h1, h = h1 ++ (as_submitted <$> L) ∧ with_status 0 h1 = completed s;
  ci_stream : stream h = out s ++ unsent_all L;
  ci_buf : ∃ b, buf (client s) = Some b ∧ zlen (recv_buf b) = UVL_TCP_RECV_BUF_LEN ∧
    0 ≤ recv_used b ≤ UVL_TCP_RECV_BUF_LEN ∧
    i = delivered s ++ take (Z.to_nat (recv_used b)) (recv_buf b);
  ci_reader : read_cb (client s) = true → alloc_cb (client s) = true;
  ci_closing : close_cb (client s) = None ∧ closed_handle (client s) = 0 }.

Lemma unsent_all_app A B : unsent_all (A ++ B) = unsent_all A ++ unsent_all B.
Proof. unfold unsent_all. by rewrite !fmap_app, concat_app. Qed.
Lemma unsent_all_cons x L : unsent_all (x :: L) = unsent x.2 ++ unsent_all L.
Proof. done. Qed.
Lemma pending_all_app A B : pending_all (A ++ B) = pending_all A + pending_all B.
Proof. induction A as [|x A IH]; simpl; [lia|]. unfold pending_all in *. rewrite IH. lia. Qed.
Lemma pending_all_nonneg L : Forall (λ x, req_ok x.2) L → 0 ≤ pending_all L.
Proof. induction 1 as [|x L Hx _ IH]; simpl; [lia|]. pose proof (ok_pending _ Hx). unfold pending_all in *. lia. Qed.

Lemma unsent_all_written A :
  Forall (λ x, req_ok x.2) A → Forall (λ x, written x.2) A → unsent_all A = [].
Proof.
  intros Ho Hw. induction Hw as [|x A Hx _ IH]; [done|].
  apply Forall_cons_iff in Ho as [Hr Ho]. by rewrite unsent_all_cons, unsent_written, IH.
Qed.

Lemma ordered_app A B : Forall (λ x, written x.2) A → ordered (A ++ B) ↔ ordered B.
Proof.
  induction 1 as [|x A Hx _ IH]; [done|]. simpl. rewrite IH. unfold written in *. split; [|tauto].
  intros [[_ ?]|[? _]]; [done|lia].
Qed.

(** Replacing one request of the queue, after giving [d] to lwIP. *)
Lemma conn_inv_update h i A id r r' B s s' p p' d n :
  conn_inv h i (A ++ (id, r) :: B) s → Forall (λ x, written x.2) A → sent_bufs r < send_nbufs r →
  pcb (client s) = Some p →
  req_ok r' → next r' = next r → send_bufs r' = send_bufs r → unsent r = d ++ unsent r' →
  pending r' = pending r + zlen d →
  reqs s' = <[id := r']> (reqs s) → out s' = out s ++ d → completed s' = completed s →
  delivered s' = delivered s →
  client s' = set_pcb (Some p') (set_bytes (sent_bytes (client s)) n (client s)) →
  0 ≤ snd_buf p' → unacked p' = unacked p + zlen d →
  conn_inv h i (A ++ (id, r') :: B) s'.
Proof.
  intros [] HA Hlt Hp Hr' Hnx Hbufs Hun Hpe Hreqs Hout Hcomp Hdel Hc Hsnd Hack.
  assert ((A ++ (id, r') :: B).*1 = (A ++ (id, r) :: B).*1) as Hfst by (by rewrite !fmap_app).
  pose proof ci_reqs0 as Hrs. apply Forall_app in Hrs as [HrA [HrB _]%Forall_cons_iff].
  destruct ci_pcb0 as (p0 & Hp0 & _ & Hun0). rewrite Hp in Hp0. injection Hp0 as <-.
  constructor; rewrite ?Hc; cbn [set_pcb set_bytes cur_write tail_write closed pcb buf read_cb alloc_cb].
  - rewrite Hreqs. by apply (seg_update _ _ _ _ r).
  - by rewrite Hfst.
  - by rewrite ci_tail0, <- !(fmap_last fst), Hfst.
  - apply Forall_app. apply Forall_app in ci_reqs0 as [? [_ ?]%Forall_cons_iff]. by split; [|constructor].
  - rewrite ordered_app in ci_ordered0 |- * by done. simpl in *. unfold written, send_nbufs in *. rewrite Hbufs.
    destruct ci_ordered0 as [[? _]|[_ Hf]]; [lia|].
    pose proof (ok_pos _ Hr') as Hpos. unfold send_nbufs in Hpos. rewrite Hbufs in Hpos.
    destruct (decide (sent_bufs r' = zlen (send_bufs r))); [left|right; split; [lia|done]].
    split; [done|]. destruct B as [|y B]; [done|]. simpl. apply Forall_cons_iff in Hf as [Hy Hf].
    right. rewrite Hy. split; [|done].
    apply Forall_app in ci_reqs0 as [_ [_ [Hy' _]%Forall_cons_iff]%Forall_cons_iff].
    apply (ok_nbufs _ Hy').
  - done.
  - exists p'. split_and!; [done..|]. rewrite Hack, Hun0, !pending_all_app. simpl. rewrite Hpe. lia.
  - destruct ci_queue0 as (h1 & -> & Hh). exists h1. rewrite Hcomp. split; [|done].
    by rewrite !fmap_app, !fmap_cons; unfold as_submitted; cbn [fst snd]; rewrite Hbufs.
  - rewrite ci_stream0, Hout, !unsent_all_app, unsent_all_written by done.
    rewrite !unsent_all_cons. cbn [snd]. by rewrite Hun, <- !app_assoc.
  - by rewrite Hdel.
  - done.
  - done.
Qed.

(** * Writing *)

(** The owner takes the data it is handed, and frees a request when it is
    told that the request is over ([IConnection] of [uv_lwip.hpp]). *)
Definition take_data (nread : Z) (data : list Z) : TCP () := mret ().
Definition free_req (id : positive) (status : Z) : TCP () := modify (on_reqs (delete id)).

Section Writing.
Context `{TcpEnv}.
(** lwIP takes data or asks to wait; it does not fail. *)
Context (Hwrite : ∀ n, ans_write n = ERR_OK ∨ ans_write n = ERR_MEM).
Context (Houtput : ∀ n, ans_output n = ERR_OK).

(** A [tcp_write] between two states was refused. *)
Definition refused (s s' : conn) : Prop :=
  ∃ n, (ncalls s ≤ n < ncalls s')%nat ∧ ans_write n = ERR_MEM.
Definition no_room (s : conn) : Prop := ∃ p, pcb (client s) = Some p ∧ snd_buf p = 0.

(** The state after a successful [tcp_write]. *)
Definition wrote (d : list Z) (p : tcp_pcb) (s : conn) : conn :=
  on_client (set_pcb (Some (mk_pcb (snd_buf p - zlen d) (unacked p + zlen d) (callbacks p))))
    (emit (TcpWrite d) (count_call s)).

Lemma tcp_write_accepted d p s :
  pcb (client s) = Some p → ans_write (ncalls s) = ERR_OK → tcp_write d s = Ok (ERR_OK, wrote d p s).
Proof.
  intros Hp Ha. unfold tcp_write, get_pcb, mbind, M_bind, gets, modify. by rewrite Hp, Ha.
Qed.

Lemma tcp_write_refused d p s :
  pcb (client s) = Some p → ans_write (ncalls s) = ERR_MEM → tcp_write d s = Ok (ERR_MEM, count_call s).
Proof. intros Hp Ha. unfold tcp_write, get_pcb, mbind, M_bind, gets, modify. by rewrite Hp, Ha. Qed.

Lemma tcp_sndbuf_ok p s : pcb (client s) = Some p → tcp_sndbuf s = Ok (snd_buf p, s).
Proof. intros Hp. unfold tcp_sndbuf, get_pcb, mbind, M_bind. by rewrite Hp. Qed.

Lemma get_req_ok id r s : reqs s !! id = Some r → get_req id s = Ok (r, s).
Proof. intros E. unfold get_req. by rewrite E. Qed.

Lemma LMIN_spec a b : LMIN a b = Z.min a b.
Proof. unfold LMIN. case_if; lia. Qed.

(** No room, or nothing left in the buffer: the loop ends. *)
Lemma write_loop_idle fuel id b r p s :
  reqs s !! id = Some r → pcb (client s) = Some p → 0 ≤ snd_buf p → sent r ≤ zlen b →
  (snd_buf p = 0 ∨ sent r = zlen b) → write_loop take_data (S fuel) id b s = Ok (None, s).
Proof.
  intros Er Ep Hs Hl Hd. cbn [write_loop]. erewrite bind_of_ok by (by apply get_req_ok).
  erewrite bind_of_ok by (by apply tcp_sndbuf_ok). cbv zeta.
  rewrite LMIN_spec. by replace (Z.min _ _ =? 0) with true by lia.
Qed.

(** The loop over one buffer: it ends with the buffer written or the send
    buffer of lwIP full, or returns 0 when lwIP has no memory. *)
Lemma write_loop_ok h i A id r B s b :
  conn_inv h i (A ++ (id, r) :: B) s → Forall (λ x, written x.2) A →
  send_bufs r !! Z.to_nat (sent_bufs r) = Some b →
  ∃ o r' s', write_loop take_data 2 id b s = Ok (o, s') ∧
    conn_inv h i (A ++ (id, r') :: B) s' ∧ send_bufs r' = send_bufs r ∧ sent_bufs r' = sent_bufs r ∧
    (ncalls s ≤ ncalls s')%nat ∧
    match o with
    | Some ret => ret = 0 ∧ refused s s'
    | None => sent r' = zlen b ∨ no_room s'
    end.
Proof.
  intros Hi HA Eb. pose proof (ci_seg _ _ _ _ Hi) as Hseg. apply seg_lookup in Hseg as [Er _].
  destruct (ci_pcb _ _ _ _ Hi) as (p & Ep & Hs & _).
  pose proof (ci_reqs _ _ _ _ Hi) as Hr. apply Forall_app in Hr as [_ [Hr _]%Forall_cons_iff]. cbn in Hr.
  pose proof (ok_cur _ Hr b Eb) as Hc.
  assert (sent_bufs r < send_nbufs r) as Hlt.
  { apply lookup_lt_Some in Eb. pose proof (ok_pos _ Hr). unfold send_nbufs. zify_len. lia. }
  destruct (decide (snd_buf p = 0 ∨ sent r = zlen b)) as [Hd|Hd].
  { exists None, r, s. split_and!; [|done..|]; [eapply write_loop_idle; [done..|lia|done]|].
    destruct Hd; [right; by exists p|by left]. }
  assert (snd_buf p ≠ 0) as Hd1 by tauto. assert (sent r ≠ zlen b) as Hd2 by tauto. clear Hd.
  cbn [write_loop]. erewrite bind_of_ok by (by apply get_req_ok).
  erewrite bind_of_ok by (by apply tcp_sndbuf_ok). cbv zeta. rewrite LMIN_spec.
  set (n := Z.min (zlen b - sent r) (snd_buf p)).
  replace (n =? 0) with false by lia.
  erewrite lift_bind by (apply mem_read_ok; lia).
  set (d := take _ _). assert (zlen d = n) as Hd by (unfold d; zify_len; rewrite length_take, length_drop; lia).
  destruct (Hwrite (ncalls s)) as [Ha|Ha].
  2: { erewrite bind_of_ok by (by eapply tcp_write_refused). cbn [negb].
    exists (Some 0), r, (count_call s). split_and!; [done|by destruct Hi|done..|cbn; lia|done|].
    exists (ncalls s). split; [cbn; lia|done]. }
  erewrite bind_of_ok by (by eapply tcp_write_accepted). rewrite Z.eqb_refl. cbn [negb].
  unfold put_req at 1. erewrite bind_of_ok by done. erewrite bind_of_ok by done.
  set (s1 := on_client _ _).
  destruct (add_sent_ok r b n Hr Eb ltac:(lia)) as (Hr1 & Es1 & Ep1 & Eu1).
  set (p1 := mk_pcb (snd_buf p - zlen d) (unacked p + zlen d) (callbacks p)).
  assert (conn_inv h i (A ++ (id, add_sent n r) :: B) s1) as Hi1.
  { eapply (conn_inv_update h i A id r _ B s s1 p p1 d); try done; try (rewrite Ep1; lia); cbn; try lia.
    - unfold out. cbn. apply concat_fmap_snoc.
    - unfold completed. cbn. rewrite concat_fmap_snoc. by rewrite app_nil_r.
    - unfold delivered. cbn. rewrite concat_fmap_snoc. by rewrite app_nil_r. }
  exists None, (add_sent n r), s1. rewrite Es1.
  destruct (Z.ltb_spec (sent r + n) (zlen b)) as [Hlt'|Hge].
  - assert (no_room s1) as Hno by (exists p1; cbn; split; [done|lia]).
    split_and!; [|done..|cbn; lia|by right].
    assert (reqs s1 !! id = Some (add_sent n r)) as Er1 by apply lookup_insert_eq.
    apply (write_loop_idle 0 id b _ p1 s1 Er1); [done|cbn; lia|lia|left; cbn; lia].
  - split_and!; [done..|cbn; lia|]. left. lia.
Qed.

(** Calls that neither move data nor complete a request. *)
Lemma conn_inv_call h i L s e :
  given e = [] → finished e = [] → handed e = [] →
  conn_inv h i L s → conn_inv h i L (emit e (count_call s)).
Proof.
  intros Hg Hf Hh [].
  assert (out (emit e (count_call s)) = out s) as Ho
    by (unfold out; cbn [emit events count_call]; by rewrite concat_fmap_snoc, Hg, app_nil_r).
  assert (completed (emit e (count_call s)) = completed s) as Hc
    by (unfold completed; cbn [emit events count_call]; by rewrite concat_fmap_snoc, Hf, app_nil_r).
  assert (delivered (emit e (count_call s)) = delivered s) as Hd
    by (unfold delivered; cbn [emit events count_call]; by rewrite concat_fmap_snoc, Hh, app_nil_r).
  constructor; rewrite ?Ho, ?Hc, ?Hd; done.
Qed.

Definition stalled (s s' : conn) : Prop := no_room s' ∨ refused s s'.

Lemma queue_head_lt h i A id r B s b :
  conn_inv h i (A ++ (id, r) :: B) s → send_bufs r !! Z.to_nat (sent_bufs r) = Some b →
  req_ok r ∧ sent_bufs r < send_nbufs r.
Proof.
  intros Hi Eb. pose proof (ci_reqs _ _ _ _ Hi) as Hr.
  apply Forall_app in Hr as [_ [Hr _]%Forall_cons_iff]. cbn in Hr. split; [done|].
  apply lookup_lt_Some in Eb. pose proof (ok_pos _ Hr). unfold send_nbufs. zify_len. lia.
Qed.

Lemma write_buf_ok h i A id r B s :
  conn_inv h i (A ++ (id, r) :: B) s → Forall (λ x, written x.2) A → sent_bufs r < send_nbufs r →
  ∃ ret r' s', uvl_imp_write_buf_to_tcp take_data id s = Ok (ret, s') ∧
    conn_inv h i (A ++ (id, r') :: B) s' ∧ send_bufs r' = send_bufs r ∧ (ncalls s ≤ ncalls s')%nat ∧
    (ret = 0 ∧ stalled s s' ∨ ret = 1 ∧ sent_bufs r' = sent_bufs r + 1).
Proof.
  intros Hi HA Hlt. pose proof (ci_seg _ _ _ _ Hi) as Hseg. apply seg_lookup in Hseg as [Er _].
  pose proof (ci_reqs _ _ _ _ Hi) as Hr. apply Forall_app in Hr as [_ [Hr _]%Forall_cons_iff]. cbn in Hr.
  pose proof (ok_pos _ Hr) as Hpos.
  destruct (lookup_lt_is_Some_2 (send_bufs r) (Z.to_nat (sent_bufs r))) as [b Eb];
    [unfold send_nbufs in *; zify_len; lia|].
  unfold uvl_imp_write_buf_to_tcp. erewrite bind_of_ok by (by apply get_req_ok).
  erewrite lift_bind by (unfold arr_get; replace (sent_bufs r <? 0) with false by lia; by rewrite Eb).
  destruct (write_loop_ok h i A id r B s b Hi HA Eb) as (o & r' & s' & E & Hi' & Hb & Hn & Hc & Ho).
  erewrite bind_of_ok by exact E. destruct o as [ret|].
  { destruct Ho as [-> Href]. exists 0, r', s'. split_and!; try done. left. split; [done|by right]. }
  destruct (ci_pcb _ _ _ _ Hi') as (p & Ep & Hs & Hun).
  erewrite bind_of_ok by (by apply tcp_sndbuf_ok).
  destruct (Z.eqb_spec (snd_buf p) 0) as [H0|H0].
  { exists 0, r', s'. split_and!; try done. left. split; [done|]. left. by exists p. }
  destruct Ho as [Hsent|(p' & Ep' & H0')]; [|congruence].
  pose proof (ci_seg _ _ _ _ Hi') as Hseg'. apply seg_lookup in Hseg' as [Er' _].
  erewrite bind_of_ok by (by apply get_req_ok). unfold put_req. erewrite bind_of_ok by done.
  assert (send_bufs r' !! Z.to_nat (sent_bufs r') = Some b) as Eb' by (by rewrite Hb, Hn).
  destruct (queue_head_lt _ _ _ _ _ _ _ _ Hi' Eb') as [Hr' Hlt'].
  destruct (next_buf_ok r' b Hr' Eb' Hsent) as (Hr1 & Hn1 & Hu1).
  exists 1, (next_buf r'), (on_reqs <[id:=next_buf r']> s').
  split_and!; [done| |done..|].
  - eapply (conn_inv_update h i A id r' _ B s' _ p p [] (recv_bytes (client s'))); try done; cbn; rewrite ?Z.add_0_r; try done.
    + by rewrite app_nil_r.
    + destruct (client s'). by cbn in *; subst.
  - right. by rewrite Hn1, Hn.
Qed.

(** The turns the second loop may take. *)
Definition turns (L : list node) : nat :=
  foldr (λ x n, Z.to_nat (send_nbufs x.2 - sent_bufs x.2) + n)%nat 0%nat L.

(** Writing from the first request with a buffer left, as far as lwIP goes. *)
Lemma write_reqs_ok h i : ∀ fuel A B s,
  conn_inv h i (A ++ B) s → Forall (λ x, written x.2) A →
  match B with [] => True | x :: B => sent_bufs x.2 < send_nbufs x.2 ∧ Forall (λ y, sent_bufs y.2 = 0) B end →
  (turns B ≤ fuel)%nat →
  ∃ L s', write_reqs take_data fuel (fst <$> head B) s = Ok (true, s') ∧ conn_inv h i L s' ∧
    (ncalls s ≤ ncalls s')%nat ∧ (Forall (λ x, written x.2) L ∨ stalled s s').
Proof.
  induction fuel as [|fuel IH]; intros A [|[id r] B] s Hi HA HB Hf.
  1, 3: exists A, s; rewrite app_nil_r in Hi; split_and!; [done..|by left].
  { exfalso. cbn in *. lia. }
  destruct HB as [Hlt HB]. cbn [fst snd fmap option_fmap option_map head write_reqs] in *.
  destruct (write_buf_ok h i A id r B s Hi HA Hlt) as (ret & r' & s1 & E & Hi1 & Hb & Hc & Ho).
  erewrite bind_of_ok by exact E. destruct Ho as [[-> Hst]|[-> Hn]].
  { exists (A ++ (id, r') :: B), s1. split_and!; [done..|by right]. }
  change (1 =? 0) with false. change (1 =? -1) with false. cbv iota.
  pose proof (ci_seg _ _ _ _ Hi1) as Hseg. apply seg_lookup in Hseg as [Er Hnx].
  erewrite bind_of_ok by (by apply get_req_ok).
  assert (send_nbufs r' = send_nbufs r) as Hnb by (unfold send_nbufs; by rewrite Hb).
  assert (∀ L s', conn_inv h i L s' → (ncalls s1 ≤ ncalls s')%nat →
    Forall (λ x, written x.2) L ∨ stalled s1 s' → Forall (λ x, written x.2) L ∨ stalled s s') as Hmono.
  { intros L s' _ Hc' [?|[?|(n & Hn' & Ha)]]; [by left|by right; left|].
    right. right. exists n. split; [lia|done]. }
  destruct (Z.eqb_spec (sent_bufs r') (send_nbufs r')) as [Hw|Hw].
  - replace (next r') with (fst <$> head B) by (destruct B as [|[??] ?]; [done|by destruct Hnx]).
    destruct (IH (A ++ [(id, r')]) B s1) as (L & s' & E' & Hi' & Hc' & Ho).
    + by rewrite <- app_assoc.
    + apply Forall_app. split; [done|]. by constructor.
    + destruct B as [|y B]; [done|]. apply Forall_cons_iff in HB as [Hy HB]. split; [|done].
      rewrite Hy. pose proof (ci_reqs _ _ _ _ Hi1) as Hr.
      apply Forall_app in Hr as [_ [_ [Hry _]%Forall_cons_iff]%Forall_cons_iff]. apply (ok_nbufs _ Hry).
    + cbn in Hf. unfold turns. lia.
    + exists L, s'. split_and!; [done..|lia|]. eauto.
  - destruct (IH A ((id, r') :: B) s1) as (L & s' & E' & Hi' & Hc' & Ho); try done.
    + cbn. split; [|done]. pose proof (ci_reqs _ _ _ _ Hi1) as Hr.
      apply Forall_app in Hr as [_ [Hr _]%Forall_cons_iff]. pose proof (ok_pos _ Hr) as Hp. cbn in Hp. lia.
    + cbn in *. lia.
    + exists L, s'. split_and!; [done..|lia|]. eauto.
Qed.

Lemma turns_le L : Forall (λ x, req_ok x.2) L → (turns L ≤ nodes_bufs L)%nat ∧ (length L ≤ nodes_bufs L)%nat.
Proof.
  unfold turns, nodes_bufs. induction 1 as [|x L Hx _ IH]; [done|]. cbn [foldr length].
  pose proof (ok_pos _ Hx). unfold send_nbufs, zlen in *. lia.
Qed.

Lemma first_unsent_ok : ∀ L fuel cur s,
  seg (reqs s) cur L → Forall (λ x, req_ok x.2) L → ordered L → (length L ≤ fuel)%nat →
  ∃ A B, L = A ++ B ∧ first_unsent fuel cur s = Ok (fst <$> head B, s) ∧ Forall (λ x, written x.2) A ∧
    match B with [] => True | x :: B => sent_bufs x.2 < send_nbufs x.2 ∧ Forall (λ y, sent_bufs y.2 = 0) B end.
Proof.
  induction L as [|[id r] L IH]; intros fuel cur s Hs Hr Ho Hf.
  - exists [], []. cbn in Hs. subst. by destruct fuel.
  - destruct Hs as (-> & El & Hs). apply Forall_cons_iff in Hr as [Hr HrL]. cbn in Hr.
    destruct fuel as [|fuel]; [cbn in Hf; lia|]. cbn [first_unsent].
    erewrite bind_of_ok by (by apply get_req_ok).
    destruct Ho as [[Hw Ho]|[Hlt Ho]]; cbn [snd] in *; unfold written in *.
    + destruct (IH fuel (next r) s Hs HrL Ho) as (A & B & -> & E & HA & HB); [cbn in Hf; lia|].
      exists ((id, r) :: A), B. split_and!; [done| |by constructor|done].
      by replace (sent_bufs r <? send_nbufs r) with false by lia.
    + exists [], ((id, r) :: L). split_and!; [done| |done..].
      by replace (sent_bufs r <? send_nbufs r) with true by lia.
Qed.

(** The queue is written as far as lwIP takes it; what is left is to flush it. *)
Definition flush : TCP () :=
  err ← tcp_output;
  if negb (err =? ERR_OK) then _ ← uvl_client_close_func take_data; mret () else mret ().

Lemma uvl_imp_write_queue_ok h i L s :
  conn_inv h i L s → L ≠ [] →
  ∃ L' s', uvl_imp_write_to_tcp take_data s = flush s' ∧ conn_inv h i L' s' ∧
    (ncalls s ≤ ncalls s')%nat ∧ (Forall (λ x, written x.2) L' ∨ stalled s s').
Proof.
  intros Hi HL. pose proof Hi as []. destruct ci_pcb0 as (p & Ep & _).
  assert (is_Some (cur_write (client s))) as [cur Ec]
    by (destruct L as [|[??]?]; [done|]; destruct ci_seg0 as [-> _]; by eexists).
  unfold uvl_imp_write_to_tcp. erewrite bind_of_ok by done. rewrite Ec, Ep.
  do 2 (erewrite bind_of_ok by done). erewrite bind_of_ok by done.
  pose proof (seg_bufs _ _ _ ci_nodup0 ci_seg0) as Hb. pose proof (turns_le L ci_reqs0) as [Ht Hl].
  rewrite Ec in ci_seg0.
  destruct (first_unsent_ok L (S (all_bufs (reqs s))) (Some cur) s ci_seg0 ci_reqs0 ci_ordered0)
    as (A & B & HAB & E & HA & HB); [lia|].
  erewrite bind_of_ok by exact E. subst L.
  assert (turns B ≤ turns (A ++ B))%nat by (clear; induction A; cbn; [done|unfold turns in *; lia]).
  destruct (write_reqs_ok h i (S (all_bufs (reqs s))) A B s Hi HA HB) as (L & s1 & E1 & Hi1 & Hc1 & Ho);
    [lia|].
  erewrite bind_of_ok by exact E1. exists L, s1. split_and!; [done..|lia|].
  destruct Ho as [?|[?|(n & Hn & Ha)]]; [by left|right; by left|right; right].
  exists n. split; [lia|done].
Qed.

Lemma tcp_output_answers s p :
  pcb (client s) = Some p → tcp_output s = Ok (ans_output (ncalls s), emit TcpOutput (count_call s)).
Proof. intros Hp. unfold tcp_output, get_pcb, mbind, M_bind, gets, modify. by rewrite Hp. Qed.

Lemma uvl_imp_write_to_tcp_ok h i L s :
  conn_inv h i L s → L ≠ [] →
  ∃ L' s', uvl_imp_write_to_tcp take_data s = Ok ((), s') ∧ conn_inv h i L' s' ∧
    (ncalls s ≤ ncalls s')%nat ∧ (Forall (λ x, written x.2) L' ∨ stalled s s').
Proof.
  intros Hi HL. destruct (uvl_imp_write_queue_ok h i L s Hi HL) as (L' & s1 & -> & Hi1 & Hc1 & Ho).
  destruct (ci_pcb _ _ _ _ Hi1) as (p1 & Ep1 & _). unfold flush.
  erewrite bind_of_ok by (by apply (tcp_output_answers s1 p1)). rewrite Houtput. cbn [negb].
  exists L', (emit TcpOutput (count_call s1)). split_and!; [done|by apply conn_inv_call|cbn; lia|].
  destruct Ho as [?|[?|(n & Hn & Ha)]]; [by left|right; by left|right; right].
  exists n. split; [cbn; lia|done].
Qed.

(** ** Completing requests *)

Lemma ordered_fresh L : Forall (λ x, req_ok x.2) L → Forall (λ x, sent_bufs x.2 = 0) L → ordered L.
Proof.
  destruct L as [|x L]; [done|]. intros [Hx _]%Forall_cons_iff [Hf HL]%Forall_cons_iff. right.
  rewrite Hf. split; [apply (ok_nbufs _ Hx)|done].
Qed.

Lemma unsent_done r : req_ok r → total_sent r = total_len r → unsent r = [].
Proof. intros Hr E. pose proof (unsent_length r Hr). apply nil_length_inv. zify_len. lia. Qed.

(** The test on [cur_write] behind the loop. *)
Definition fix_tail (c : uvl_tcp_t) : uvl_tcp_t :=
  match cur_write c with None => set_queue None None c | Some _ => c end.

(** The state after one turn of the loop. *)
Definition pop (id : positive) (r : uvl_write_t) (s : conn) : conn :=
  on_reqs (delete id) (emit (WriteCb id 0) (on_client (λ c, set_queue (next r) (tail_write c) c) s)).

Lemma pop_inv h i id r L s :
  conn_inv h i ((id, r) :: L) (on_client fix_tail s) → total_sent r = total_len r → pending r = 0 →
  conn_inv h i L (on_client fix_tail (pop id r s)).
Proof.
  intros [] Ht Hp. destruct ci_seg0 as (Ec & El & Hs).
  assert (cur_write (client s) = Some id) as Ec'
    by (unfold on_client, fix_tail in Ec; cbn [client] in Ec; destruct (cur_write (client s)) eqn:E; [by rewrite <- E|done]).
  assert (fix_tail (client s) = client s) as Efix by (unfold fix_tail; by rewrite Ec').
  unfold on_client in *. cbn [client reqs] in *. rewrite Efix in *.
  apply list.NoDup_cons in ci_nodup0 as [Hnin Hnd]. apply Forall_cons_iff in ci_reqs0 as [Hr HrL]. cbn in Hr.
  assert (seg (delete id (reqs s)) (next r) L) as Hseg by (by apply seg_delete).
  assert (fix_tail (set_queue (next r) (tail_write (client s)) (client s)) =
    set_queue (next r) (fst <$> list.last L) (client s)) as Hfix.
  { unfold fix_tail. rewrite ci_tail0. destruct L as [|[j q] L]; [by cbn in Hseg; rewrite Hseg|].
    destruct Hseg as [-> _]. done. }
  constructor; cbn [pop on_reqs on_client emit client reqs]; rewrite ?Hfix; cbn [set_queue cur_write tail_write buf];
    try done.
  - destruct ci_ordered0 as [[_ ?]|[_ ?]]; [done|by apply ordered_fresh].
  - destruct ci_pcb0 as (p & ? & ? & Hun). exists p. split_and!; [done..|].
    rewrite Hun. unfold pending_all. cbn. lia.
  - destruct ci_queue0 as (h1 & -> & Hh). exists (h1 ++ [as_submitted (id, r)]).
    rewrite <- app_assoc. split; [done|]. unfold with_status in *. rewrite fmap_app, Hh. unfold completed. cbn [events pop on_reqs emit on_client].
    rewrite concat_fmap_snoc. done.
  - rewrite ci_stream0, unsent_all_cons. cbn [snd]. rewrite unsent_done by done.
    unfold out. cbn [events pop on_reqs emit on_client]. rewrite concat_fmap_snoc. cbn [given handed app]. by rewrite app_nil_r.
  - destruct ci_buf0 as (b & ? & ? & ? & ->). exists b. split_and!; [done|done|lia|lia|].
    unfold delivered. cbn [events pop on_reqs emit on_client]. rewrite concat_fmap_snoc. cbn [given handed app]. by rewrite app_nil_r.
Qed.

Lemma finish_loop_ok h i : ∀ L fuel s,
  conn_inv h i L (on_client fix_tail s) → (length L ≤ fuel)%nat →
  ∃ L' s', finish_loop free_req fuel (cur_write (client s)) s = Ok ((), s') ∧
    conn_inv h i L' (on_client fix_tail s') ∧ ncalls s' = ncalls s ∧
    match L' with [] => True | x :: _ => total_sent x.2 = total_len x.2 → pending x.2 ≠ 0 end.
Proof.
  induction L as [|[id r] L IH]; intros fuel s Hi Hf; pose proof (ci_seg _ _ _ _ Hi) as Hs;
    unfold on_client, fix_tail in Hs; cbn [client reqs] in Hs.
  - destruct (cur_write (client s)) eqn:E; [cbn in Hs; congruence|].
    exists [], s. split_and!; try done. by destruct fuel.
  - destruct (cur_write (client s)) eqn:E; [|by destruct Hs]. destruct Hs as (Ec & El & Hs).
    rewrite E in Ec. injection Ec as ->. destruct fuel as [|fuel]; [cbn in Hf; lia|]. cbn [finish_loop].
    erewrite bind_of_ok by (by apply get_req_ok).
    destruct (total_sent r =? total_len r) eqn:E1; cbn [andb];
      [destruct (pending r =? 0) eqn:E2|]; cbn [andb].
    2, 3: exists ((id, r) :: L), s; split_and!; [done..|cbn; lia].
    erewrite bind_of_ok by done.
    assert (Hpop : call_write_cb free_req id 0 (on_client (λ c, set_queue (next r) (tail_write c) c) s)
      = Ok ((), pop id r s)) by done.
    erewrite bind_of_ok by exact Hpop.
    assert (conn_inv h i L (on_client fix_tail (pop id r s))) as Hi' by (apply pop_inv; [done|lia..]).
    destruct (IH fuel (pop id r s) Hi') as (L' & s' & E' & Hi'' & Hn & Hh); [cbn in Hf; lia|].
    exists L', s'. split_and!; [done|done|by rewrite Hn|done].
Qed.

Lemma conn_inv_fix_tail h i L s : conn_inv h i L s → on_client fix_tail s = s.
Proof.
  intros []. destruct s as [c m e n]. unfold on_client. cbn [client reqs events ncalls] in *. f_equal.
  unfold fix_tail. destruct (cur_write c) eqn:E; [done|].
  destruct L as [|[??]?]; [|by destruct ci_seg0]. destruct c; cbn in *; by subst.
Qed.

(** The async write callback: once the finished requests are reported, the
    rest is written. *)
Lemma uvl_async_tcp_write_cb_open h i L s :
  conn_inv h i L s →
  ∃ L1 s1, conn_inv h i L1 s1 ∧ ncalls s1 = ncalls s ∧
    uvl_async_tcp_write_cb take_data free_req s =
      match L1 with [] => Ok ((), s1) | _ => uvl_imp_write_to_tcp take_data s1 end.
Proof.
  intros Hi. pose proof (conn_inv_fix_tail _ _ _ _ Hi) as Hfix.
  unfold uvl_async_tcp_write_cb. do 2 (erewrite bind_of_ok by done).
  destruct (finish_loop_ok h i L (S (size (reqs s))) s) as (L1 & s1 & E1 & Hi1 & Hn1 & _).
  { by rewrite Hfix. }
  { pose proof (seg_size _ _ _ (ci_nodup _ _ _ _ Hi) (ci_seg _ _ _ _ Hi)). lia. }
  erewrite bind_of_ok by exact E1. erewrite bind_of_ok by done.
  change (λ c, match cur_write c with Some _ => c | None => set_queue None None c end) with fix_tail.
  set (s2 := on_client fix_tail s1) in *. erewrite bind_of_ok by done.
  exists L1, s2. split_and!; [done|by rewrite <- Hn1|].
  rewrite (ci_open _ _ _ _ Hi1). pose proof (ci_seg _ _ _ _ Hi1) as Hs.
  destruct L1 as [|[id r] L1]; cbn [seg] in Hs; [by rewrite Hs|]. by destruct Hs as [-> _].
Qed.

(** It never faults, and leaves no work that lwIP would have taken. *)
Lemma uvl_async_tcp_write_cb_ok h i L s :
  conn_inv h i L s →
  ∃ L' s', uvl_async_tcp_write_cb take_data free_req s = Ok ((), s') ∧ conn_inv h i L' s' ∧
    (Forall (λ x, written x.2) L' ∨ stalled s s').
Proof.
  intros Hi. destruct (uvl_async_tcp_write_cb_open h i L s Hi) as (L1 & s1 & Hi1 & Hn1 & ->).
  destruct L1 as [|x L1]; [exists [], s1; split_and!; [done..|by left]|].
  destruct (uvl_imp_write_to_tcp_ok h i (x :: L1) s1 Hi1) as (L' & s' & E' & Hi' & Hn & Ho); [done|].
  exists L', s'. split_and!; [done..|].
  destruct Ho as [?|[?|(n & Hn' & Ha)]]; [by left|right; by left|right; right].
  exists n. split; [|done]. rewrite <- Hn1. lia.
Qed.

(** ** Acknowledgements *)

(** Some of the bytes pending in the first request are acknowledged. *)
Definition acked (x y : node) : Prop :=
  ∃ n, 0 ≤ n ≤ pending x.2 ∧ y = (x.1, sub_pending n x.2).

Lemma acked_refl L : Forall (λ x, req_ok x.2) L → Forall2 acked L L.
Proof.
  induction 1 as [|[id r] L Hr _ IH]; constructor; [|done]. cbn in Hr. exists 0. cbn.
  pose proof (ok_pending _ Hr). pose proof (total_sent_le _ Hr). pose proof (ok_small _ Hr).
  split; [lia|]. unfold sub_pending. rewrite Z.sub_0_r, u32_small by lia. by destruct r.
Qed.

Lemma sub_pending_ok n r :
  req_ok r → 0 ≤ n ≤ pending r → req_ok (sub_pending n r) ∧ pending (sub_pending n r) = pending r - n.
Proof.
  intros Hr Hn. pose proof (ok_pending _ Hr). pose proof (total_sent_le _ Hr). pose proof (ok_small _ Hr).
  assert (pending (sub_pending n r) = pending r - n) as Hp by (cbn; by rewrite u32_small by lia).
  split; [|done]. constructor; rewrite ?Hp; try apply Hr. cbn. lia.
Qed.

Lemma acked_queue L L' :
  Forall (λ x, req_ok x.2) L → Forall2 acked L L' →
  L'.*1 = L.*1 ∧ Forall (λ x, req_ok x.2) L' ∧ (ordered L → ordered L') ∧
  as_submitted <$> L' = as_submitted <$> L ∧ unsent_all L' = unsent_all L ∧
  (Forall (λ x, sent_bufs x.2 = 0) L → Forall (λ x, sent_bufs x.2 = 0) L').
Proof.
  intros Hr HF. induction HF as [|[id r] y L L' (n & Hn & ->) HF IH]; [done|].
  apply Forall_cons_iff in Hr as [Hr HrL]. cbn [fst snd] in *.
  destruct (IH HrL) as (H1 & H2 & H3 & H4 & H5 & H6). destruct (sub_pending_ok n r Hr Hn) as [Hok _].
  split_and!.
  - by rewrite !fmap_cons, H1.
  - by constructor.
  - cbn. unfold written, send_nbufs. cbn. tauto.
  - by rewrite !fmap_cons, H4.
  - rewrite !unsent_all_cons, H5. done.
  - intros [? ?]%Forall_cons_iff. constructor; [done|tauto].
Qed.

Lemma ack_loop_ok : ∀ B A fuel len s cur,
  seg (reqs s) cur (A ++ B) → NoDup (A ++ B).*1 → Forall (λ x, req_ok x.2) B →
  0 ≤ len ≤ pending_all B → len < 65536 → (length B ≤ fuel)%nat →
  ∃ B' m, ack_loop fuel (fst <$> head B) len s = Ok ((), on_reqs (λ _, m) s) ∧ seg m cur (A ++ B') ∧
    Forall2 acked B B' ∧ pending_all B' = pending_all B - len.
Proof.
  induction B as [|[id r] B IH]; intros A fuel len s cur Hs Hnd Hr Hl Hm Hf.
  { cbn in Hl. assert (len = 0) as -> by lia. exists [], (reqs s).
    destruct fuel; cbn; split_and!; try done; by destruct s. }
  pose proof (seg_lookup _ _ _ _ _ _ Hs) as [El Hnx].
  pose proof Hr as [Hr1 HrB]%Forall_cons_iff. cbn in Hr1.
  destruct (decide (len = 0)) as [->|Hne].
  { exists ((id, r) :: B), (reqs s). split_and!; [|done|by apply acked_refl|lia].
    destruct fuel; cbn; by destruct s. }
  destruct fuel as [|fuel]; [cbn in Hf; lia|]. cbn [fmap option_fmap option_map head fst ack_loop].
  replace (len >? 0) with true by lia. erewrite bind_of_ok by (by apply get_req_ok). cbv zeta.
  rewrite LMIN_spec. unfold put_req. erewrite bind_of_ok by done.
  set (n := Z.min (pending r) len). pose proof (ok_pending _ Hr1).
  destruct (sub_pending_ok n r Hr1 ltac:(lia)) as [Hok Hpend].
  rewrite u16_small by lia. set (s1 := on_reqs _ s).
  assert (pending_all ((id, r) :: B) = pending r + pending_all B) as Hpa by done.
  pose proof (pending_all_nonneg B HrB).
  destruct (IH (A ++ [(id, sub_pending n r)]) fuel (len - n) s1 cur) as (B' & m & E & Hs' & HF & Hp).
  - rewrite <- app_assoc. by apply (seg_update _ _ _ _ r).
  - rewrite <- app_assoc. by rewrite fmap_app in *.
  - done.
  - destruct (Z.min_spec (pending r) len); lia.
  - lia.
  - cbn in Hf. lia.
  - exists ((id, sub_pending n r) :: B'), m. split_and!.
    + replace (next r) with (fst <$> head B) by (destruct B as [|[??]?]; [done|by destruct Hnx]).
      rewrite E. by destruct s.
    + by rewrite <- app_assoc in Hs'.
    + constructor; [|done]. exists n. split; [cbn; lia|done].
    + unfold pending_all in *. cbn [foldr snd]. rewrite Hpend. lia.
Qed.

Lemma uv_async_send_ok e s : uv_async_send e s = Ok (ans_async (ncalls s), emit e (count_call s)).
Proof. done. Qed.

(** What lwIP does to its control block before it calls the sent callback. *)
Definition lwip_acked (len : Z) (c : uvl_tcp_t) : uvl_tcp_t :=
  match pcb c with
  | Some p => set_pcb (Some (mk_pcb (snd_buf p + len) (unacked p - len) (callbacks p))) c
  | None => c
  end.

Lemma uvl_client_sent_func_ok h i L s p len :
  conn_inv h i L s → pcb (client s) = Some p → 0 < len ≤ unacked p → len < 65536 →
  ∃ L' s', uvl_client_sent_func len (on_client (lwip_acked len) s) = Ok (ERR_OK, s') ∧ conn_inv h i L' s'.
Proof.
  intros Hi Ep Hl Hm. pose proof Hi as []. destruct ci_pcb0 as (p0 & Ep0 & Hs & Hun).
  rewrite Ep in Ep0. injection Ep0 as <-.
  set (s0 := on_client (lwip_acked len) s). unfold uvl_client_sent_func. erewrite bind_of_ok by done.
  assert (client s0 = set_pcb (Some (mk_pcb (snd_buf p + len) (unacked p - len) (callbacks p))) (client s)) as Hc
    by (cbn; unfold lwip_acked; by rewrite Ep).
  rewrite Hc. cbn [set_pcb closed cur_write]. rewrite ci_open0. erewrite bind_of_ok by done.
  replace (len >? 0) with true by lia. erewrite bind_of_ok by done. do 2 (erewrite bind_of_ok by done).
  set (s1 := on_client _ s0).
  replace (cur_write (client s)) with (fst <$> head L) by (destruct L as [|[??]?]; [done|by destruct ci_seg0 as [-> _]]).
  pose proof (seg_size _ _ _ ci_nodup0 ci_seg0).
  destruct (ack_loop_ok L [] (S (size (reqs s1))) len s1 (cur_write (client s))) as (L' & m & E & Hs' & HF & Hp);
    [done|done|done|lia|lia|cbn; lia|].
  erewrite bind_of_ok by exact E. set (s2 := on_reqs _ s1).
  destruct (acked_queue L L' ci_reqs0 HF) as (H1 & H2 & H3 & H4 & H5 & _).
  exists L', (emit AsyncSendWrite (count_call s2)). split; [by erewrite bind_of_ok by apply uv_async_send_ok|]. apply conn_inv_call; [done..|].
  constructor; cbn [s2 s1 on_reqs on_client client reqs]; rewrite ?Hc;
    cbn [set_bytes set_pcb cur_write tail_write closed pcb buf alloc_cb read_cb]; try done; try tauto.
  - by rewrite H1.
  - by rewrite ci_tail0, <- !(fmap_last fst), H1.
  - eexists. split_and!; [done|cbn; lia|]. cbn. lia.
  - by rewrite H4.
  - by rewrite H5.
Qed.
End Writing.
