(* ===== verification/UvStream.v ===== *)
(** A gateway connection as a whole ([UvTcp]): the owner submits requests,
    lwIP acknowledges and receives, libuv runs the async callbacks, in any
    order.  The bytes lwIP is given are the submitted ones, in order; requests
    complete in order, once their bytes are acknowledged; the reader gets the
    received bytes in order.  The error paths, which do not, are at the end. *)
From stdpp Require Import gmap.
From S2P Require Import Prelude.
From S2P Require Import NetBytes.
From S2P Require Import UvTcp.
From S2P Require Import UvTcpFacts.

(** * Submitting a request *)

Lemma bufs_total_ok bufs : zlen (concat bufs) < 4294967296 → bufs_total bufs = zlen (concat bufs).
Proof.
  unfold bufs_total. assert (∀ n, 0 ≤ n → n + zlen (concat bufs) < 4294967296 →
    foldl (λ n b, u32 (n + zlen b)) n bufs = n + zlen (concat bufs)) as H; [|intros; rewrite H; lia].
  induction bufs as [|b bufs IH]; intros n Hn Hb; cbn in *; [zify_len; cbn; lia|].
  assert (zlen (b ++ concat bufs) = zlen b + zlen (concat bufs)) as Hz by (zify_len; rewrite length_app; lia).
  rewrite Hz in *. assert (0 ≤ zlen b ∧ 0 ≤ zlen (concat bufs)) by (zify_len; lia).
  rewrite u32_small, IH by lia. lia.
Qed.

(** The request as [uvl_write] fills it in. *)
Definition fresh_req (bufs : list (list Z)) : uvl_write_t :=
  mk_write bufs 0 0 0 0 (bufs_total bufs) None.

Lemma fresh_req_ok bufs :
  bufs ≠ [] → zlen bufs < 4294967296 → zlen (concat bufs) < 4294967296 → req_ok (fresh_req bufs).
Proof.
  intros Hne Hn Hl. assert (0 < zlen bufs) by (destruct bufs; [done|zify_len; cbn; lia]).
  constructor; unfold send_nbufs; cbn; try lia; try done.
  - by apply bufs_total_ok.
  - by rewrite bufs_total_ok.
  - intros b _. zify_len. lia.
Qed.

Lemma seg_ids_in m cur L id : seg m cur L → m !! id = None → id ∉ L.*1.
Proof.
  revert cur. induction L as [|[j r] L IH]; intros cur Hs Hn; [by apply not_elem_of_nil|].
  destruct Hs as (_ & Hl & Hs). rewrite fmap_cons. apply not_elem_of_cons. split; [|by eapply IH].
  intros ->. cbn in Hn. congruence.
Qed.

Lemma set_next_ok n r : req_ok r → req_ok (set_next n r).
Proof. intros []. by constructor. Qed.

(** Changing the [next] pointer of the last request. *)
Lemma queue_relink A t r n :
  let L := A ++ [(t, r)] in let L' := A ++ [(t, set_next n r)] in
  L'.*1 = L.*1 ∧ (Forall (λ x, req_ok x.2) L → Forall (λ x, req_ok x.2) L') ∧ (ordered L → ordered L') ∧
  as_submitted <$> L' = as_submitted <$> L ∧ unsent_all L' = unsent_all L ∧ pending_all L' = pending_all L.
Proof.
  cbv zeta. split_and!.
  - by rewrite !fmap_app.
  - rewrite !Forall_app. intros [? [? _]%Forall_cons_iff]. split; [done|].
    constructor; [by apply set_next_ok|done].
  - induction A as [|x A IH]; cbn; [done|]. intros [[? ?]|[? Hf]]; [left; tauto|right].
    split; [done|]. apply Forall_app in Hf as [? [? _]%Forall_cons_iff]. apply Forall_app.
    split; [done|]. by constructor.
  - by rewrite !fmap_app.
  - by rewrite !unsent_all_app.
  - by rewrite !pending_all_app.
Qed.

Lemma ordered_snoc L x : ordered L → sent_bufs x.2 = 0 → req_ok x.2 → ordered (L ++ [x]).
Proof.
  intros HL Hx Hr. induction L as [|y L IH]; cbn.
  - right. rewrite Hx. split; [apply (ok_nbufs _ Hr)|done].
  - destruct HL as [[? ?]|[? ?]]; [left; tauto|right]. split; [done|]. apply Forall_app. split; [done|by constructor].
Qed.

Section Stream.
Context `{TcpEnv}.

(** Every state of a submitted request leads to the same final record. *)
Lemma uvl_write_state id bufs s t r :
  tail_write (client s) = Some t → reqs s !! t = Some r → t ≠ id →
  ∃ s', uvl_write id bufs s = Ok (ans_async (ncalls s), emit AsyncSendWrite (count_call s')) ∧
    reqs s' = <[id := fresh_req bufs]> (<[t := set_next (Some id) r]> (<[id := mk_write bufs 0 0 0 0 0 None]> (reqs s))) ∧
    client s' = set_queue (match cur_write (client s) with None => Some id | Some x => Some x end) (Some id) (client s) ∧
    events s' = events s ∧ ncalls s' = ncalls s.
Proof.
  intros Ht Er Hne. unfold uvl_write, put_req. erewrite bind_of_ok by done. erewrite bind_of_ok by done.
  cbn [on_reqs client]. rewrite Ht.
  erewrite bind_of_ok by (erewrite bind_of_ok by (apply get_req_ok; cbn; by rewrite lookup_insert_ne by done); done).
  erewrite bind_of_ok by done.
  erewrite bind_of_ok by (apply get_req_ok; cbn; rewrite lookup_insert_ne by done; by rewrite lookup_insert_eq).
  erewrite bind_of_ok by done. by eexists.
Qed.

Lemma uvl_write_state_empty id bufs s :
  tail_write (client s) = None →
  ∃ s', uvl_write id bufs s = Ok (ans_async (ncalls s), emit AsyncSendWrite (count_call s')) ∧
    reqs s' = <[id := fresh_req bufs]> (<[id := mk_write bufs 0 0 0 0 0 None]> (reqs s)) ∧
    client s' = set_queue (match cur_write (client s) with None => Some id | Some x => Some x end) (Some id) (client s) ∧
    events s' = events s ∧ ncalls s' = ncalls s.
Proof.
  intros Ht. unfold uvl_write, put_req. erewrite bind_of_ok by done. erewrite bind_of_ok by done.
  cbn [on_reqs client]. rewrite Ht. erewrite bind_of_ok by done. erewrite bind_of_ok by done.
  erewrite bind_of_ok by (apply get_req_ok; cbn; by rewrite lookup_insert_eq).
  erewrite bind_of_ok by done. by eexists.
Qed.

Lemma stream_snoc h id bufs : stream (h ++ [(id, bufs)]) = stream h ++ concat bufs.
Proof. unfold stream. by rewrite concat_fmap_snoc. Qed.

(** The invariant once the request is linked in. *)
Lemma conn_inv_submit h i L L' id bufs s s' :
  conn_inv h i L s → req_ok (fresh_req bufs) →
  L'.*1 = L.*1 → Forall (λ x, req_ok x.2) L' → ordered L' → as_submitted <$> L' = as_submitted <$> L →
  unsent_all L' = unsent_all L → pending_all L' = pending_all L → (id ∉ L.*1) →
  seg (reqs s') (cur_write (client s')) (L' ++ [(id, fresh_req bufs)]) →
  (∃ cur, client s' = set_queue cur (Some id) (client s)) → events s' = events s →
  conn_inv (h ++ [(id, bufs)]) i (L' ++ [(id, fresh_req bufs)]) s'.
Proof.
  intros [] Hr H1 H2 H3 H4 H5 H6 Hid Hseg [cur Hc] He. rewrite Hc in Hseg.
  constructor; rewrite ?Hc; cbn [set_queue cur_write tail_write closed pcb buf read_cb alloc_cb]; try done.
  - rewrite fmap_app, H1. apply list.NoDup_app. split_and!; [done| |apply NoDup_singleton].
    intros j Hj Hj'. apply list_elem_of_singleton in Hj'. cbn in Hj'. by subst.
  - by rewrite last_snoc.
  - apply Forall_app. split; [done|by constructor].
  - by apply ordered_snoc.
  - destruct ci_pcb as (p & ? & ? & Hun). exists p. split_and!; [done..|].
    rewrite pending_all_app, H6, Hun. cbn. lia.
  - destruct ci_queue as (h1 & -> & Hh). exists h1. rewrite fmap_app, H4, <- app_assoc.
    split; [done|]. rewrite Hh. unfold completed. by rewrite He.
  - rewrite stream_snoc, ci_stream, unsent_all_app, H5, <- app_assoc. unfold out. rewrite He.
    do 2 f_equal. unfold unsent_all. cbn. by rewrite app_nil_r.
  - destruct ci_buf as (b & ? & ? & ? & ->). exists b. unfold delivered. rewrite He. split_and!; [done|done|lia|lia|done].
Qed.

Lemma uvl_write_ok h i L s id bufs :
  conn_inv h i L s → reqs s !! id = None → bufs ≠ [] → zlen bufs < 4294967296 →
  zlen (concat bufs) < 4294967296 →
  ∃ n L' s', uvl_write id bufs s = Ok (n, s') ∧ conn_inv (h ++ [(id, bufs)]) i L' s'.
Proof.
  intros Hi Hid Hne Hn Hl. pose proof (fresh_req_ok bufs Hne Hn Hl) as Hr. pose proof Hi as [].
  pose proof (seg_ids_in _ _ _ _ ci_seg Hid) as Hnin.
  destruct (list.last L) as [[t r]|] eqn:El.
  - apply last_Some in El as [A ->]. destruct (seg_lookup _ _ _ _ _ _ ci_seg) as [Et _].
    assert (t ≠ id) by (intros ->; congruence).
    destruct (uvl_write_state id bufs s t r) as (s' & E & Hm & Hc & He & Hnc); [by rewrite ci_tail|done..|].
    destruct (queue_relink A t r (Some id)) as (Q1 & Q2 & Q3 & Q4 & Q5 & Q6).
    eexists _, ((A ++ [(t, set_next (Some id) r)]) ++ [(id, fresh_req bufs)]), _.
    split; [exact E|]. apply conn_inv_call; [done..|].
    apply (conn_inv_submit h i (A ++ [(t, r)]) _ id bufs s); try done; try tauto; [|by eexists].
    rewrite Hm, Hc. cbn [set_queue cur_write].
    replace (match cur_write (client s) with Some x => Some x | None => Some id end) with (cur_write (client s))
      by (destruct A as [|[??]?]; destruct ci_seg as [-> _]; done).
    eapply (seg_update _ _ _ id (mk_write bufs 0 0 0 0 0 None)); [|done|].
    + rewrite fmap_app, Q1. apply list.NoDup_app. split_and!; [done| |apply NoDup_singleton].
      intros j Hj Hj'. apply list_elem_of_singleton in Hj'. cbn in Hj'. by subst.
    + rewrite <- app_assoc. by apply (seg_append (reqs s) _ A t r id (mk_write bufs 0 0 0 0 0 None)).
  - apply last_None in El as ->. cbn in ci_seg.
    destruct (uvl_write_state_empty id bufs s) as (s' & E & Hm & Hc & He & Hnc); [by rewrite ci_tail|].
    eexists _, [(id, fresh_req bufs)], _. split; [exact E|]. apply conn_inv_call; [done..|].
    apply (conn_inv_submit h i [] [] id bufs s); try done; [|by eexists].
    rewrite Hm, Hc, ci_seg. cbn. by rewrite lookup_insert_eq.
Qed.

(** ** Reading *)

(** Steps that touch the receive side only. *)
Lemma conn_inv_read h i i' L s s' es b a r :
  conn_inv h i L s → reqs s' = reqs s → client s' = set_reader a r (set_buf (Some b) (client s)) →
  events s' = events s ++ es → concat (given <$> es) = [] → concat (finished <$> es) = [] →
  zlen (recv_buf b) = UVL_TCP_RECV_BUF_LEN → 0 ≤ recv_used b ≤ UVL_TCP_RECV_BUF_LEN →
  i' = (delivered s ++ concat (handed <$> es)) ++ take (Z.to_nat (recv_used b)) (recv_buf b) →
  (r = true → a = true) → conn_inv h i' L s'.
Proof.
  intros [] Hm Hc He Hg Hf Hb Hu Hi Hra.
  constructor; rewrite ?Hc, ?Hm; cbn [set_reader set_buf cur_write tail_write closed pcb buf read_cb alloc_cb];
    try done.
  - unfold completed. by rewrite He, fmap_app, concat_app, Hf, app_nil_r.
  - unfold out. by rewrite He, fmap_app, concat_app, Hg, app_nil_r.
  - exists b. split_and!; [done|done|lia|lia|]. unfold delivered at 1. by rewrite He, fmap_app, concat_app.
Qed.

Lemma uvl_client_recv_func_ok h i L s b data :
  conn_inv h i L s → buf (client s) = Some b → data ≠ [] →
  ∃ n s', uvl_client_recv_func take_data (Some data) s = Ok (n, s') ∧
    conn_inv h (if zlen data >? UVL_TCP_RECV_BUF_LEN - recv_used b then i else i ++ data) L s'.
Proof.
  intros Hi Eb Hd. pose proof Hi as []. destruct ci_pcb as (p & Ep & _).
  destruct ci_buf as (b0 & Eb0 & Hl & Hu & Hdel). rewrite Eb in Eb0. injection Eb0 as <-.
  assert (0 < zlen data) as Hz by (destruct data; [done|zify_len; cbn; lia]).
  unfold uvl_client_recv_func. erewrite bind_of_ok by done. rewrite ci_open, Ep.
  do 2 (erewrite bind_of_ok by done). replace (zlen data >? 0) with true by lia. erewrite bind_of_ok by done.
  erewrite bind_of_ok by (unfold get_buf; by rewrite Eb).
  destruct (zlen data >? UVL_TCP_RECV_BUF_LEN - recv_used b) eqn:E; [by eexists _, _|].
  unfold UVL_TCP_RECV_BUF_LEN, TCP_WND, TCP_MSS in *.
  erewrite lift_bind by (apply mem_write_ok; lia). erewrite bind_of_ok by done.
  erewrite bind_of_ok by apply uv_async_send_ok.
  eexists _, _. split; [done|]. apply conn_inv_call; [done..|]. rewrite u16_small by lia.
  set (m := _ ++ data ++ _).
  assert (zlen m = 2048) as Hm by (unfold m; zify_len; rewrite !length_app, length_take, length_drop; lia).
  eapply (conn_inv_read h i _ L s _ [] (mk_buf m (recv_used b + zlen data)) (alloc_cb (client s)) (read_cb (client s)));
    try done.
  - by rewrite app_nil_r.
  - cbn [recv_used]. unfold UVL_TCP_RECV_BUF_LEN, TCP_WND, TCP_MSS. lia.
  - cbn [fmap list_fmap concat recv_used recv_buf]. rewrite app_nil_r, Hdel, <- app_assoc. f_equal.
    unfold m. rewrite (app_assoc (take _ _)). symmetry. apply take_app_length'.
    zify_len. rewrite length_app, length_take. lia.
Qed.

(** The async read callback hands over everything that is buffered, once the
    reader gives it room. *)
Lemma uvl_async_tcp_read_cb_ok h i L s :
  conn_inv h i L s →
  ∃ s', uvl_async_tcp_read_cb take_data s = Ok ((), s') ∧ conn_inv h i L s' ∧
    (read_cb (client s) = true → match ans_alloc (ncalls s) with Some n => UVL_TCP_RECV_BUF_LEN ≤ n | None => False end →
     delivered s' = i).
Proof.
  intros Hi. pose proof Hi as []. destruct ci_pcb as (p & Ep & _). destruct ci_buf as (b & Eb & Hl & Hu & Hdel).
  unfold uvl_async_tcp_read_cb. erewrite bind_of_ok by (unfold get_buf; by rewrite Eb).
  replace (recv_used b <=? UVL_TCP_RECV_BUF_LEN) with true by lia. do 2 (erewrite bind_of_ok by done).
  destruct (read_cb (client s)) eqn:Er; [|by exists s].
  destruct (Z.gtb_spec (recv_used b) 0) as [Hp|Hp].
  2: { exists s. split_and!; [done..|]. intros _ _. rewrite Hdel.
       replace (Z.to_nat (recv_used b)) with 0%nat by lia. by rewrite app_nil_r. }
  rewrite ci_reader by done. do 3 (erewrite bind_of_ok by done).
  set (full := match ans_alloc (ncalls s) with None => true | Some len => len <? recv_used b end).
  destruct full eqn:Ef.
  - eexists. split; [done|]. split.
    + apply (conn_inv_read h i i L s _ [ReadCb UV_ENOBUFS []] b (alloc_cb (client s)) (read_cb (client s)));
        try done; cbn; rewrite ?app_nil_r; try done;
        [destruct (client s); cbn in *; by subst|intros _; by apply ci_reader].
    + intros _ Hroom. unfold full in Ef. destruct (ans_alloc (ncalls s)); [lia|done].
  - erewrite lift_bind by (apply mem_read_ok; lia). change (Z.to_nat 0) with 0%nat. rewrite drop_0.
    set (d := take _ _). assert (i = delivered s ++ d) as Hd by done.
    assert (E : tcp_recved (recv_used b) (count_call s) = Ok ((), emit (TcpRecved (recv_used b)) (count_call s)))
      by (unfold tcp_recved, get_pcb, mbind, M_bind, modify; cbn; by rewrite Ep).
    erewrite bind_of_ok by exact E. erewrite bind_of_ok by done. eexists. split; [done|].
    split.
    + eapply (conn_inv_read h i i L s _ [TcpRecved (recv_used b); ReadCb (recv_used b) d] (mk_buf (recv_buf b) 0)
        (alloc_cb (client s)) (read_cb (client s))); try done.
      * cbn. by rewrite <- app_assoc.
      * cbn. rewrite !app_nil_r. done.
      * intros _. by apply ci_reader.
    + intros _ _. unfold delivered. cbn. rewrite !concat_fmap_snoc. cbn. by rewrite app_nil_r.
Qed.

Lemma uvl_read_start_ok h i L s :
  conn_inv h i L s → ∃ n s', uvl_read_start take_data s = Ok (n, s') ∧ conn_inv h i L s'.
Proof.
  intros Hi. pose proof Hi as []. destruct ci_buf as (b & Eb & Hl & Hu & Hdel).
  unfold uvl_read_start. erewrite bind_of_ok by done. destruct (read_cb (client s)) eqn:Er; [by eexists _, _|].
  rewrite ci_open. erewrite bind_of_ok by apply uv_async_send_ok.
  pose proof (conn_inv_call h i L s AsyncSendRead eq_refl eq_refl eq_refl Hi) as Hi1.
  destruct (ans_async (ncalls s) =? 0); [|erewrite bind_of_ok by done; by eexists _, _].
  erewrite bind_of_ok by done. eexists _, _. split; [done|].
  eapply (conn_inv_read h i i L _ _ [] b true true Hi1); try done.
  - cbn. destruct (client s). cbn in *. by subst.
  - by rewrite app_nil_r.
  - cbn. rewrite app_nil_r, Hdel. unfold delivered. cbn. by rewrite concat_fmap_snoc, app_nil_r.
Qed.

Lemma uvl_read_stop_ok h i L s :
  conn_inv h i L s → ∃ s', uvl_read_stop s = Ok (0, s') ∧ conn_inv h i L s'.
Proof.
  intros Hi. pose proof Hi as []. destruct ci_buf as (b & Eb & Hl & Hu & Hdel).
  eexists. split; [done|].
  eapply (conn_inv_read h i i L s _ [] b false false Hi); try done.
  - cbn. destruct (client s). cbn in *. by subst.
  - by rewrite app_nil_r.
  - cbn. by rewrite app_nil_r.
Qed.

(** ** Sessions *)

Inductive op :=
  | Submit (id : positive) (bufs : list (list Z))   (* uvl_write *)
  | RunWrite                                        (* the write async callback *)
  | Acknowledge (len : Z)                           (* the sent callback of lwIP *)
  | Receive (data : list Z)                         (* the receive callback of lwIP *)
  | RunRead                                         (* the read async callback *)
  | StartReading
  | StopReading.

Definition run_op (o : op) : TCP () :=
  match o with
  | Submit id bufs => _ ← uvl_write id bufs; mret ()
  | RunWrite => uvl_async_tcp_write_cb take_data free_req
  | Acknowledge len => modify (on_client (lwip_acked len));; _ ← uvl_client_sent_func len; mret ()
  | Receive data => _ ← uvl_client_recv_func take_data (Some data); mret ()
  | RunRead => uvl_async_tcp_read_cb take_data
  | StartReading => _ ← uvl_read_start take_data; mret ()
  | StopReading => _ ← uvl_read_stop; mret ()
  end.

(** A request is not queued twice, has a buffer and fits 32 bits; lwIP
    acknowledges bytes it was given, 16 bits at a time, and hands over
    non-empty data. *)
Definition allowed (o : op) (s : conn) : Prop :=
  match o with
  | Submit id bufs =>
      reqs s !! id = None ∧ bufs ≠ [] ∧ zlen bufs < 4294967296 ∧ zlen (concat bufs) < 4294967296
  | Acknowledge len => 0 < len < 65536 ∧ ∃ p, pcb (client s) = Some p ∧ len ≤ unacked p
  | Receive data => data ≠ []
  | _ => True
  end.

(** What was submitted, and what the receive buffer had room for. *)
Definition submitted (o : op) (h : history) : history :=
  match o with Submit id bufs => h ++ [(id, bufs)] | _ => h end.
Definition accepted (o : op) (s : conn) (i : list Z) : list Z :=
  match o, buf (client s) with
  | Receive data, Some b => if zlen data >? UVL_TCP_RECV_BUF_LEN - recv_used b then i else i ++ data
  | _, _ => i
  end.

(** A connection after [uvl_tcp_init] and [uvl_accept]. *)
Definition open_conn (junk : list Z) (p : tcp_pcb) (l r : sockaddr_in) : TCP Z :=
  ret ← uvl_tcp_init junk; accept_client p l r;; mret ret.

Inductive session : history → list Z → conn → Prop :=
  | session_open junk p l r c n s :
      zlen junk = UVL_TCP_RECV_BUF_LEN → 0 ≤ snd_buf p → unacked p = 0 →
      open_conn junk p l r (mk_conn c ∅ [] n) = Ok (0, s) → session [] [] s
  | session_step h i s o s' :
      session h i s → allowed o s → run_op o s = Ok ((), s') → session (submitted o h) (accepted o s i) s'.

Context (Hwrite : ∀ n, ans_write n = ERR_OK ∨ ans_write n = ERR_MEM).
Context (Houtput : ∀ n, ans_output n = ERR_OK).

Lemma open_conn_inv junk p l r c n s :
  zlen junk = UVL_TCP_RECV_BUF_LEN → 0 ≤ snd_buf p → unacked p = 0 →
  open_conn junk p l r (mk_conn c ∅ [] n) = Ok (0, s) → conn_inv [] [] [] s.
Proof.
  intros Hj Hs Hu (ret & s1 & E1 & E2)%bind_ok_inv. injection E2 as -> <-.
  unfold uvl_tcp_init, mbind, M_bind, modify, gets, mret, M_ret in E1. cbn in E1.
  destruct (ans_async n =? 0) eqn:Ea; cbn in E1; [|injection E1; lia].
  destruct (ans_async (S n) =? 0) eqn:Eb; cbn in E1; [|injection E1; lia].
  injection E1 as <-. constructor; cbn; try done.
  - constructor.
  - by eexists.
  - by exists [].
  - eexists. cbn. by split_and!.
Qed.

(** The calls that do not give lwIP anything. *)
Lemma run_op_other h i L s o :
  conn_inv h i L s → allowed o s → o ≠ RunWrite →
  ∃ L' s', run_op o s = Ok ((), s') ∧ conn_inv (submitted o h) (accepted o s i) L' s'.
Proof.
  intros Hi Ha Hne. destruct o as [id bufs| |len|data| | |]; cbn [run_op submitted accepted] in *; try done.
  - destruct Ha as (? & ? & ? & ?).
    destruct (uvl_write_ok h i L s id bufs) as (n & L' & s' & E & Hi'); [done..|].
    exists L', s'. by erewrite bind_of_ok by exact E.
  - destruct Ha as (? & p & Ep & ?). erewrite bind_of_ok by done.
    destruct (uvl_client_sent_func_ok h i L s p len) as (L' & s' & E & Hi'); [done..|lia|lia|].
    exists L', s'. by erewrite bind_of_ok by exact E.
  - destruct (ci_buf _ _ _ _ Hi) as (b & Eb & _).
    destruct (uvl_client_recv_func_ok h i L s b data) as (n & s' & E & Hi'); [done..|].
    exists L, s'. rewrite Eb. by erewrite bind_of_ok by exact E.
  - destruct (uvl_async_tcp_read_cb_ok h i L s Hi) as (s' & E & Hi' & _). by exists L, s'.
  - destruct (uvl_read_start_ok h i L s Hi) as (n & s' & E & Hi').
    exists L, s'. by erewrite bind_of_ok by exact E.
  - destruct (uvl_read_stop_ok h i L s Hi) as (s' & E & Hi').
    exists L, s'. by erewrite bind_of_ok by exact E.
Qed.

Lemma run_op_ok h i L s o :
  conn_inv h i L s → allowed o s →
  ∃ L' s', run_op o s = Ok ((), s') ∧ conn_inv (submitted o h) (accepted o s i) L' s'.
Proof.
  intros Hi Ha. assert (o = RunWrite ∨ o ≠ RunWrite) as [->|Hne] by (destruct o; auto).
  - destruct (uvl_async_tcp_write_cb_ok Hwrite Houtput h i L s Hi) as (L' & s' & E & Hi' & _). by exists L', s'.
  - by apply (run_op_other h i L).
Qed.

Lemma session_inv h i s : session h i s → ∃ L, conn_inv h i L s.
Proof.
  induction 1 as [|h i s o s' _ [L Hi] Ha E].
  - exists []. by eapply open_conn_inv.
  - destruct (run_op_ok h i L s o Hi Ha) as (L' & s1 & E1 & Hi1). rewrite E in E1. injection E1 as <-. by exists L'.
Qed.

Lemma conn_inv_acked h i L s p :
  conn_inv h i L s → pcb (client s) = Some p →
  zlen (stream (take (length (completed s)) h)) ≤ zlen (out s) - unacked p.
Proof.
  intros [] Ep. destruct ci_pcb as (p0 & Ep0 & _ & Hun). rewrite Ep in Ep0. injection Ep0 as <-. rewrite Hun.
  destruct ci_queue as (h1 & Hh & <-). unfold with_status. rewrite Hh, length_fmap, take_app_length.
  assert (pending_all L + zlen (unsent_all L) ≤ zlen (stream (as_submitted <$> L))) as HL.
  { clear -ci_reqs. induction ci_reqs as [|x L Hx _ IH]; [done|]. unfold stream in *.
    rewrite !fmap_cons, unsent_all_cons. cbn [concat].
    assert (∀ a b : list Z, zlen (a ++ b) = zlen a + zlen b) as Hz by (intros; zify_len; rewrite length_app; lia).
    rewrite !Hz, unsent_length by done. pose proof (ok_pending _ Hx). pose proof (ok_len _ Hx).
    unfold pending_all in *. cbn [foldr as_submitted snd] in *. lia. }
  assert (zlen (stream h) = zlen (out s) + zlen (unsent_all L)) by (rewrite ci_stream; zify_len; rewrite length_app; lia).
  assert (zlen (stream h) = zlen (stream h1) + zlen (stream (as_submitted <$> L))).
  { rewrite Hh. unfold stream. rewrite fmap_app, concat_app. zify_len. rewrite length_app. lia. }
  lia.
Qed.

(** (C19) The two streams of a connection, whatever the order of the owner's calls,
    lwIP's callbacks and libuv's callbacks: lwIP was given a prefix of the
    bytes submitted, in the order of submission; the requests reported as
    complete are the oldest ones, and every byte of theirs is acknowledged; the
    reader was handed a prefix of the bytes received, at most one receive buffer
    behind. *)
Theorem connection_streams h i s :
  session h i s →
  out s `prefix_of` stream h ∧ completed s `prefix_of` with_status 0 h ∧
  (∃ p, pcb (client s) = Some p ∧
     zlen (stream (take (length (completed s)) h)) ≤ zlen (out s) - unacked p) ∧
  delivered s `prefix_of` i ∧ zlen i - zlen (delivered s) ≤ UVL_TCP_RECV_BUF_LEN.
Proof.
  intros [L Hi]%session_inv. pose proof Hi as [].
  destruct ci_buf as (b & _ & Hl & Hu & Hdel). split_and!.
  - eexists. exact ci_stream.
  - destruct ci_queue as (h1 & -> & <-). unfold with_status. rewrite fmap_app. by eexists.
  - destruct ci_pcb as (p & Ep & _). exists p. split; [done|]. by eapply conn_inv_acked.
  - eexists. exact Hdel.
  - rewrite Hdel. zify_len. rewrite length_app, length_take. lia.
Qed.

(** (C21) Progress: after the write callback everything submitted is in lwIP's
    hands, or lwIP's send buffer is full, or lwIP refused for lack of memory. *)
Theorem connection_writes_on h i s :
  session h i s →
  ∃ s', run_op RunWrite s = Ok ((), s') ∧ (out s' = stream h ∨ no_room s' ∨ refused s s').
Proof.
  intros [L Hi]%session_inv.
  destruct (uvl_async_tcp_write_cb_ok Hwrite Houtput h i L s Hi) as (L' & s' & E & Hi' & Ho).
  exists s'. split; [done|]. destruct Ho as [Hw|Ho]; [left|by right].
  rewrite (ci_stream _ _ _ _ Hi'), (unsent_all_written _ (ci_reqs _ _ _ _ Hi') Hw). by rewrite app_nil_r.
Qed.

(** The read callback hands a reader that gives a full buffer everything that
    was received. *)
Theorem connection_delivers h i s n :
  session h i s → read_cb (client s) = true → ans_alloc (ncalls s) = Some n → UVL_TCP_RECV_BUF_LEN ≤ n →
  ∃ s', run_op RunRead s = Ok ((), s') ∧ delivered s' = i.
Proof.
  intros [L Hi]%session_inv Hr Ha Hn.
  destruct (uvl_async_tcp_read_cb_ok h i L s Hi) as (s' & E & _ & Hd). exists s'. split; [done|].
  apply Hd; [done|]. by rewrite Ha.
Qed.

(** (C23) When the peer closes while received data waits for the read callback, the
    reader is told end of file and the data is never delivered: the callback
    that was scheduled finds no reader, and reading again gives end of file. *)
Theorem close_drops_received h i s :
  session h i s → read_cb (client s) = true → ans_close (ncalls s) = ERR_OK →
  ∃ s', uvl_client_recv_func take_data None s = Ok (ERR_OK, s') ∧
    events s' = events s ++ [TcpClose; ReadCb UV_EOF []] ∧ buf (client s') = buf (client s) ∧
    uvl_async_tcp_read_cb take_data s' = Ok ((), s') ∧
    ∃ s'', uvl_read_start take_data s' = Ok (0, s'') ∧ delivered s'' = delivered s.
Proof.
  intros [L Hi]%session_inv Hr Ha. pose proof Hi as [].
  destruct ci_pcb as (p & Ep & _). destruct ci_buf as (b & Eb & Hl & Hu & _).
  destruct s as [c m ev n]. destruct c. cbn in *. subst.
  eexists. split; [by unfold uvl_client_recv_func, uvl_client_close_func, drop_callbacks, tcp_close, uvl_client_freed,
    call_read_cb, get_pcb, mbind, M_bind, gets, modify, mret, M_ret; cbn; rewrite Ha|].
  split; [cbn; by rewrite <- app_assoc|]. split; [done|]. split.
  - unfold uvl_async_tcp_read_cb, mbind, M_bind. cbn. by replace (recv_used b <=? UVL_TCP_RECV_BUF_LEN) with true by lia.
  - eexists. split; [done|]. unfold delivered. cbn. rewrite !concat_fmap_snoc. cbn. by rewrite !app_nil_r.
Qed.
End Stream.

(** * Closing *)

Section Closing.
Context `{TcpEnv}.

(** Both answers of [tcp_close] leave a connection without a control block and
    without a reader. *)
Lemma close_func_ok s p :
  closed (client s) = false → pcb (client s) = Some p →
  ∃ ret s' es, uvl_client_close_func take_data s = Ok (ret, s') ∧ (ret = 0 ∨ ret = ERR_ABRT) ∧
    events s' = events s ++ es ∧ concat (finished <$> es) = [] ∧ concat (given <$> es) = [] ∧
    concat (handed <$> es) = [] ∧ reqs s' = reqs s ∧
    pcb (client s') = None ∧ closed (client s') = true ∧ read_cb (client s') = false ∧
    cur_write (client s') = cur_write (client s) ∧ close_cb (client s') = close_cb (client s) ∧
    closed_handle (client s') = closed_handle (client s) ∧
    tail_write (client s') = tail_write (client s) ∧ buf (client s') = buf (client s).
Proof.
  intros Hc Hp. destruct s as [c m ev n]. destruct c. cbn in *. subst.
  unfold uvl_client_close_func, drop_callbacks, tcp_close, uvl_client_freed, uvl_client_abort,
    call_read_cb, get_pcb, mbind, M_bind, gets, modify, mret, M_ret. cbn.
  destruct (Z.eqb_spec (ans_close n) ERR_OK) as [E|E], read_cb;
    cbn; eexists _, _, _; (split; [done|]); (split; [by (left + right)|]); cbn; rewrite <- ?app_assoc;
    (split; [done|]); done.
Qed.

Lemma completed_app s s' es :
  events s' = events s ++ es → completed s' = completed s ++ concat (finished <$> es).
Proof. intros E. unfold completed. by rewrite E, fmap_app, concat_app. Qed.

(** Every queued request is reported as cancelled and freed, in order. *)
Lemma cancel_loop_ok : ∀ L fuel s cur,
  seg (reqs s) cur L → NoDup L.*1 → (length L ≤ fuel)%nat →
  ∃ s', cancel_loop free_req fuel cur s = Ok ((), s') ∧ client s' = client s ∧
    completed s' = completed s ++ with_status UV_ECANCELED (as_submitted <$> L) ∧
    out s' = out s ∧ (∀ id, id ∈ L.*1 → reqs s' !! id = None) ∧
    (∀ id, reqs s !! id = None → reqs s' !! id = None).
Proof.
  induction L as [|[id r] L IH]; intros fuel s cur Hs Hd Hf.
  - cbn in Hs. subst. exists s. destruct fuel; cbn; rewrite app_nil_r; split_and!; try done; by intros ? ?%not_elem_of_nil.
  - destruct Hs as (-> & El & Hs). rewrite fmap_cons in Hd. apply list.NoDup_cons in Hd as [Hn Hd].
    destruct fuel as [|fuel]; [cbn in Hf; lia|]. cbn [cancel_loop].
    erewrite bind_of_ok by (by apply get_req_ok).
    set (s1 := on_reqs (delete id) (emit (WriteCb id UV_ECANCELED) s)).
    assert (E1 : call_write_cb free_req id UV_ECANCELED s = Ok ((), s1)) by done.
    erewrite bind_of_ok by exact E1.
    destruct (IH fuel s1 (next r)) as (s' & E & Hc & Hcomp & Ho & Hfree & Hkeep);
      [by apply seg_delete|done|cbn in Hf; lia|].
    exists s'. split_and!; [done|by rewrite Hc| | | |].
    + rewrite Hcomp, (completed_app s s1 [WriteCb id UV_ECANCELED]) by done.
      rewrite <- app_assoc. done.
    + rewrite Ho. unfold out. cbn. rewrite concat_fmap_snoc. cbn. by rewrite app_nil_r.
    + intros j. rewrite fmap_cons. intros [->|Hj]%elem_of_cons; [|by apply Hfree].
      apply Hkeep. cbn. apply lookup_delete_eq.
    + intros j Hj. apply Hkeep. cbn. destruct (decide (j = id)) as [->|]; [apply lookup_delete_eq|].
      by rewrite lookup_delete_ne by done.
Qed.

(** What the owner does when it hears that the connection is closed. *)
Definition stay_closed : TCP () := mret ().

(** libuv closes the two handles one after the other. *)
Lemma handles_closed s cb :
  closed_handle (client s) = 0 → close_cb (client s) = Some cb →
  ∃ s', (uvl_tcp_close_handle_cb stay_closed;; uvl_tcp_close_handle_cb stay_closed) s = Ok ((), s') ∧
    events s' = events s ++ [CloseCb cb] ∧ reqs s' = reqs s ∧ buf (client s') = None ∧ pcb (client s') = None ∧
    cur_write (client s') = None ∧ tail_write (client s') = None.
Proof.
  intros Hh Hc. destruct s as [c m ev n]. destruct c. cbn in *. subst.
  eexists. split; [reflexivity|]. done.
Qed.

Context (Hwrite : ∀ n, ans_write n = ERR_OK ∨ ans_write n = ERR_MEM).
Context (Houtput : ∀ n, ans_output n = ERR_OK).

(** (C22) Closing an open connection, whatever [tcp_close] answers: over the life of
    the connection every request is reported to its owner exactly once, in the
    order of submission, first those that completed and then the rest as
    cancelled, and none of those is still allocated; once libuv has closed
    both handles the receive buffer is gone and the owner is told once. *)
Theorem connection_closes h i s cb :
  session h i s →
  ∃ s1 s2, uvl_tcp_close take_data free_req cb s = Ok (0, s1) ∧
    (uvl_tcp_close_handle_cb stay_closed;; uvl_tcp_close_handle_cb stay_closed) s1 = Ok ((), s2) ∧
    completed s2 = with_status 0 (take (length (completed s)) h) ++
      with_status UV_ECANCELED (drop (length (completed s)) h) ∧
    (∀ id, id ∈ (drop (length (completed s)) h).*1 → reqs s2 !! id = None) ∧ out s2 = out s ∧
    events s2 = events s1 ++ [CloseCb cb] ∧ buf (client s2) = None ∧ pcb (client s2) = None ∧
    cur_write (client s2) = None ∧ tail_write (client s2) = None.
Proof.
  intros [L Hi]%(session_inv Hwrite Houtput). pose proof Hi as []. destruct ci_pcb as (p & Ep & _).
  destruct ci_closing as [Hcb Hh]. destruct ci_queue as (h1 & -> & Hh1).
  destruct (close_func_ok s p ci_open Ep)
    as (ret & sa & es & E & _ & Hev & Hf & Hg & _ & Hm & Hpa & Hca & Hra & Hcur & Hcba & Hha & _).
  assert (completed sa = completed s) as Hcompa by (rewrite (completed_app s sa es), Hf by done; apply app_nil_r).
  destruct (cancel_loop_ok L (S (size (reqs sa))) sa (cur_write (client sa))) as (sb & Eb & Hcb' & Hcompb & Hob & Hfree & _).
  { by rewrite Hm, Hcur. }
  { done. }
  { pose proof (seg_size _ _ _ ci_nodup ci_seg). rewrite Hm. lia. }
  assert (out sa = out s) as Hoa by (unfold out; by rewrite Hev, fmap_app, concat_app, Hg, app_nil_r).
  assert (∃ s1, uvl_tcp_close take_data free_req cb s = Ok (0, s1) ∧ events s1 = events sb ++ [CloseHandles] ∧
    reqs s1 = reqs sb ∧ closed_handle (client s1) = 0 ∧ close_cb (client s1) = Some cb) as (s1 & E1 & Hev1 & Hm1 & Hh1' & Hc1).
  { eexists. split; [|split_and!].
    - unfold uvl_tcp_close. erewrite bind_of_ok by done. rewrite Hcb. erewrite bind_of_ok by done. rewrite ci_open.
      erewrite bind_of_ok by (by erewrite bind_of_ok by exact E).
      erewrite bind_of_ok; [reflexivity|].
      unfold uvl_cancel_reqs. do 2 (erewrite bind_of_ok by done). erewrite bind_of_ok by exact Eb.
      do 2 (erewrite bind_of_ok by done). cbn. by rewrite Hcb', Hra.
    - done.
    - done.
    - cbn. by rewrite Hcb', Hha.
    - done. }
  destruct (handles_closed s1 cb Hh1' Hc1) as (s2 & E2 & Hev2 & Hm2 & ?).
  assert (length (completed s) = length h1) as -> by (rewrite <- Hh1; apply length_fmap).
  exists s1, s2. rewrite take_app_length, drop_app_length.
  assert (events s2 = events sb ++ [CloseHandles; CloseCb cb]) as Hev' by (by rewrite Hev2, Hev1, <- app_assoc).
  split_and!; try done; try tauto.
  - rewrite (completed_app sb s2 _ Hev'), app_nil_r, Hcompb, Hcompa, <- Hh1. done.
  - intros id Hid. rewrite Hm2, Hm1. apply Hfree. by rewrite <- list_fmap_compose in Hid.
  - rewrite <- Hoa, <- Hob. unfold out. by rewrite Hev', fmap_app, concat_app, app_nil_r.
Qed.
End Closing.

(** * The error path of a write *)

Lemma all_bufs_lookup m id r : m !! id = Some r → (length (send_bufs r) < all_bufs m)%nat.
Proof.
  intros E. rewrite <- (insert_delete_id m id r E), all_bufs_insert by apply lookup_delete_eq. lia.
Qed.

(** The first request of the queue has bytes of its current buffer left. *)
Definition head_write (s : conn) (id : positive) (r : uvl_write_t) (b : list Z) : Prop :=
  cur_write (client s) = Some id ∧ reqs s !! id = Some r ∧ 0 ≤ sent_bufs r < send_nbufs r ∧
  send_bufs r !! Z.to_nat (sent_bufs r) = Some b ∧ 0 ≤ sent r < zlen b.

(** A fatal answer of [tcp_write] to the first buffer of the queue crashes the
    program: the connection is closed, which clears [pcb], and then the
    function goes on to [tcp_output] (or to the next buffer, since
    [uvl_client_abort] does not return -1) with the null pointer. *)
Theorem fatal_write_null_pcb `{TcpEnv} s id r b p :
  head_write s id r b →
  closed (client s) = false → pcb (client s) = Some p → 0 < snd_buf p →
  ans_write (ncalls s) ≠ ERR_OK → ans_write (ncalls s) ≠ ERR_MEM →
  uvl_imp_write_to_tcp take_data s = Fail NullPointer.
Proof.
  intros (Hcur & Er & Hsb & Eb & Hs) Hcl Hp Hsnd Ha1 Ha2.
  pose proof (all_bufs_lookup _ _ _ Er) as Hfuel.
  assert (∃ ret s', uvl_imp_write_buf_to_tcp take_data id s = Ok (ret, s') ∧ (ret = 0 ∨ ret = ERR_ABRT) ∧
    pcb (client s') = None ∧ reqs s' = reqs s) as (ret & s' & E & Hret & Hp' & Hm').
  { destruct (close_func_ok (count_call s) p) as (ret & s' & es & E & Hret & _ & _ & _ & _ & Hm' & Hp' & _); [done..|].
    exists ret, s'. split; [|done].
    assert (write_loop take_data 2 id b s = Ok (Some ret, s')) as El.
    2: { unfold uvl_imp_write_buf_to_tcp. erewrite bind_of_ok by (by apply get_req_ok).
      erewrite lift_bind by (unfold arr_get; replace (sent_bufs r <? 0) with false by lia; by rewrite Eb).
      by erewrite bind_of_ok by exact El. }
    cbn [write_loop]. erewrite bind_of_ok by (by apply get_req_ok).
    erewrite bind_of_ok by (by apply tcp_sndbuf_ok). cbv zeta. rewrite LMIN_spec.
    replace (Z.min _ _ =? 0) with false by lia. erewrite lift_bind by (apply mem_read_ok; lia).
    erewrite bind_of_ok; [|unfold tcp_write, get_pcb, mbind, M_bind, gets, modify; rewrite Hp;
      by rewrite (proj2 (Z.eqb_neq _ _) Ha1)].
    rewrite (proj2 (Z.eqb_neq _ _) Ha1), (proj2 (Z.eqb_neq _ _) Ha2). cbn [negb].
    by erewrite bind_of_ok by exact E. }
  unfold uvl_imp_write_to_tcp. erewrite bind_of_ok by done. rewrite Hcur, Hp.
  do 3 (erewrite bind_of_ok by done). cbn [first_unsent].
  erewrite bind_of_ok; [|erewrite bind_of_ok by (by apply get_req_ok);
    by replace (sent_bufs r <? send_nbufs r) with true by lia].
  destruct (all_bufs (reqs s)) as [|fuel] eqn:Ef; [lia|].
  assert (Er' : reqs s' !! id = Some r) by (by rewrite Hm').
  destruct Hret as [-> | ->].
  - erewrite bind_of_ok by (cbn [write_reqs]; by erewrite bind_of_ok by exact E).
    apply bind_of_fail. unfold tcp_output, get_pcb, mbind, M_bind. by rewrite Hp'.
  - apply bind_of_fail. cbn [write_reqs]. erewrite bind_of_ok by exact E.
    change (ERR_ABRT =? 0) with false. change (ERR_ABRT =? -1) with false. cbv iota.
    erewrite bind_of_ok by (by apply get_req_ok).
    replace (sent_bufs r =? send_nbufs r) with false by lia. apply bind_of_fail.
    unfold uvl_imp_write_buf_to_tcp. erewrite bind_of_ok by (by apply get_req_ok).
    erewrite lift_bind by (unfold arr_get; replace (sent_bufs r <? 0) with false by lia; by rewrite Eb).
    apply bind_of_fail. cbn [write_loop]. erewrite bind_of_ok by (by apply get_req_ok).
    apply bind_of_fail. unfold tcp_sndbuf, get_pcb, mbind, M_bind. by rewrite Hp'.
Qed.

(** * An example session *)

Definition quiet_lwip : TcpEnv := {|
  ans_write := λ n, if Nat.eqb n 5 then ERR_MEM else ERR_OK; ans_output := λ _, ERR_OK; ans_close := λ _, ERR_OK;
  ans_async := λ _, 0; ans_alloc := λ _, Some 65536 |}.
Definition ERR_CONN : Z := -11.
Definition broken_lwip : TcpEnv := {|
  ans_write := λ _, ERR_CONN; ans_output := λ _, ERR_OK; ans_close := λ _, ERR_OK;
  ans_async := λ _, 0; ans_alloc := λ _, Some 65536 |}.

Definition no_addr : sockaddr_in := mk_sockaddr 0 [0; 0; 0; 0] 0.
Definition idle_client : uvl_tcp_t := mk_tcp None None None true false false None None no_addr no_addr 0 0 0.
Definition example_ops : list op :=
  [Submit 1 [[1; 2; 3]; [4; 5]]; RunWrite; Submit 2 [[6]]; StartReading; Acknowledge 2; Receive [7; 8];
   RunWrite; Acknowledge 3; RunRead; RunWrite; Receive [9]].

(** Runs steps, with what was submitted and accepted so far. *)
Fixpoint replay `{TcpEnv} (os : list op) (x : history * list Z * conn) : option (history * list Z * conn) :=
  match os with
  | [] => Some x
  | o :: os =>
      match run_op o x.2 with
      | Ok (_, s') => replay os (submitted o x.1.1, accepted o x.2 x.1.2, s')
      | Fail _ => None
      end
  end.

(** [allowed] as a test. *)
Definition allowed_b (o : op) (s : conn) : bool :=
  match o with
  | Submit id bufs =>
      match reqs s !! id with None => true | Some _ => false end &&
      negb (match bufs with [] => true | _ => false end) && (zlen bufs <? 4294967296) &&
      (zlen (concat bufs) <? 4294967296)
  | Acknowledge len =>
      (0 <? len) && (len <? 65536) && match pcb (client s) with Some p => len <=? unacked p | None => false end
  | Receive data => negb (match data with [] => true | _ => false end)
  | _ => true
  end.

Lemma allowed_b_sound o s : allowed_b o s = true → allowed o s.
Proof.
  destruct o as [id bufs| |len|data| | |]; cbn [allowed allowed_b]; try done.
  - destruct (reqs s !! id); [done|]. destruct bufs; [done|]. intros. split_and!; [done|done|lia|lia].
  - destruct (pcb (client s)) as [p|]; [|by rewrite andb_false_r]. intros. split; [lia|]. exists p. split; [done|lia].
  - by destruct data.
Qed.

Fixpoint all_allowed `{TcpEnv} (os : list op) (s : conn) : bool :=
  match os with
  | [] => true
  | o :: os => allowed_b o s && match run_op o s with Ok (_, s') => all_allowed os s' | Fail _ => false end
  end.

Lemma replay_session `{TcpEnv} os : ∀ h i s h' i' s',
  session h i s → all_allowed os s = true → replay os (h, i, s) = Some (h', i', s') → session h' i' s'.
Proof.
  induction os as [|o os IH]; intros h i s h' i' s' Hs Ha E; cbn in *; [by injection E as <- <- <-|].
  apply andb_true_iff in Ha as [Ho Ha]. destruct (run_op o s) as [[[] s1]|] eqn:E1; [|done].
  eapply IH; [|exact Ha|exact E]. eapply session_step; [done|by apply allowed_b_sound|done].
Qed.

Definition example_start : option conn :=
  match @open_conn quiet_lwip (replicate 2048 0) (mk_pcb 4 0 false) no_addr no_addr (mk_conn idle_client ∅ [] 0) with
  | Ok (0, s) => Some s
  | _ => None
  end.

Lemma example_session :
  ∃ s, @session quiet_lwip [(1%positive, [[1; 2; 3]; [4; 5]]); (2%positive, [[6]])] [7; 8; 9] s ∧
    out s = [1; 2; 3; 4; 5; 6] ∧ completed s = [(1%positive, 0)] ∧ delivered s = [7; 8] ∧
    read_cb (client s) = true ∧ (6 <= ncalls s)%nat.
Proof.
  assert (match example_start with Some s =>
    all_allowed (H := quiet_lwip) example_ops s = true ∧
    (replay (H := quiet_lwip) example_ops ([], [], s)) ≫= (λ x, Some (x.1, out x.2, completed x.2, delivered x.2, read_cb (client x.2), bool_decide (6 <= ncalls x.2)%nat)) =
      Some ([(1%positive, [[1; 2; 3]; [4; 5]]); (2%positive, [[6]])], [7; 8; 9], [1; 2; 3; 4; 5; 6], [(1%positive, 0)], [7; 8], true, true)
    | None => False end) as Hx by (vm_compute; done).
  destruct example_start as [s|] eqn:Es; [|done]. destruct Hx as [Ha Hr].
  destruct (replay example_ops ([], [], s)) as [[[h i] s']|] eqn:Er; [|done].
  cbn in Hr. injection Hr as -> -> Ho Hc Hd Hrd Hn. exists s'. split_and!; try done.
  2: by apply bool_decide_eq_true in Hn.
  eapply replay_session; [|exact Ha|exact Er].
  unfold example_start in Es. destruct (open_conn _ _ _ _ _) as [[[| |] s0]|] eqn:Eo; try done. injection Es as ->.
  eapply session_open; [..|exact Eo]; done.
Qed.

Lemma quiet_write n : @ans_write quiet_lwip n = ERR_OK ∨ @ans_write quiet_lwip n = ERR_MEM.
Proof. cbn. destruct (Nat.eqb n 5); auto. Qed.

Lemma connection_streams_witness :
  ∃ s h i, @session quiet_lwip h i s ∧ out s `prefix_of` stream h ∧ delivered s `prefix_of` i.
Proof.
  destruct example_session as (s & Hs & _). eexists s, _, _. split; [exact Hs|].
  pose proof (@connection_streams quiet_lwip quiet_write (λ _, eq_refl) _ _ _ Hs) as (Ho & _ & _ & Hd & _).
  by split.
Defined.

Lemma connection_writes_on_witness :
  ∃ s s', @run_op quiet_lwip RunWrite s = Ok ((), s') ∧
    (out s' = [1; 2; 3; 4; 5; 6] ∨ no_room s' ∨ refused (H := quiet_lwip) s s').
Proof.
  destruct example_session as (s & Hs & _). exists s.
  exact (@connection_writes_on quiet_lwip quiet_write (λ _, eq_refl) _ _ s Hs).
Defined.

Lemma connection_delivers_witness :
  ∃ s s', @run_op quiet_lwip RunRead s = Ok ((), s') ∧ delivered s' = [7; 8; 9].
Proof.
  destruct example_session as (s & Hs & _ & _ & _ & Hr & _). exists s.
  apply (@connection_delivers quiet_lwip quiet_write (λ _, eq_refl) _ _ s 65536 Hs Hr); [reflexivity|]. discriminate.
Defined.

Lemma close_drops_received_witness :
  ∃ s s' s'', @session quiet_lwip [(1%positive, [[1; 2; 3]; [4; 5]]); (2%positive, [[6]])] [7; 8; 9] s ∧
    @uvl_client_recv_func quiet_lwip take_data None s = Ok (ERR_OK, s') ∧
    @uvl_read_start quiet_lwip take_data s' = Ok (0, s'') ∧ delivered s'' = [7; 8].
Proof.
  destruct example_session as (s & Hs & _ & _ & Hd & Hr & _). exists s.
  destruct (@close_drops_received quiet_lwip quiet_write (λ _, eq_refl) _ _ s Hs Hr eq_refl) as (s' & E & _ & _ & _ & s'' & E' & Hd').
  exists s', s''. split_and!; [exact Hs|exact E|exact E'|]. by rewrite Hd'.
Defined.

Lemma connection_closes_witness :
  ∃ s s1 s2, @session quiet_lwip [(1%positive, [[1; 2; 3]; [4; 5]]); (2%positive, [[6]])] [7; 8; 9] s ∧
    @uvl_tcp_close quiet_lwip take_data free_req 9 s = Ok (0, s1) ∧
    (uvl_tcp_close_handle_cb stay_closed;; uvl_tcp_close_handle_cb stay_closed) s1 = Ok ((), s2) ∧
    completed s2 = [(1%positive, 0); (2%positive, UV_ECANCELED)].
Proof.
  destruct example_session as (s & Hs & _ & Hc & _). exists s.
  destruct (@connection_closes quiet_lwip quiet_write (λ _, eq_refl) _ _ s 9 Hs) as (s1 & s2 & E1 & E2 & Hr & _).
  exists s1, s2. split_and!; [exact Hs|exact E1|exact E2|]. rewrite Hr, Hc. reflexivity.
Defined.

(** A connection with one request, and lwIP no longer connected. *)
Definition broken_conn : conn :=
  mk_conn (mk_tcp (Some (mk_buf [] 0)) (Some 1%positive) (Some 1%positive) false false false None
             (Some (mk_pcb 100 0 true)) no_addr no_addr 0 0 0)
    {[ 1%positive := fresh_req [[1; 2; 3]] ]} [] 0.

Lemma fatal_write_null_pcb_witness :
  @uvl_imp_write_to_tcp broken_lwip take_data broken_conn = Fail NullPointer.
Proof.
  apply (@fatal_write_null_pcb broken_lwip broken_conn 1%positive (fresh_req [[1; 2; 3]]) [1; 2; 3] (mk_pcb 100 0 true));
    try reflexivity; try discriminate. split_and!; reflexivity || discriminate.
Defined.
