(* ===== verification/UvLife.v ===== *)
(** A gateway connection over its whole life ([UvTcp]): besides the calls of
    [UvStream], the peer may close, lwIP may report an error, [tcp_output] and
    [tcp_close] may fail, and the owner closes in the end.  In whatever order
    that happens, no call faults, and the requests are reported in the order
    of submission, each at most once, all of them once the owner has closed. *)
From stdpp Require Import gmap.
From S2P Require Import Prelude.
From S2P Require Import NetBytes.
From S2P Require Import UvTcp.
From S2P Require Import UvTcpFacts.
From S2P Require Import UvStream.

(** * What may happen to a connection *)

Inductive event :=
  | Op (o : op)                 (* a call of [UvStream] *)
  | PeerCloses                  (* the receive callback of lwIP, without data *)
  | ConnectionError             (* the error callback of lwIP *)
  | Close (cb : positive)       (* uvl_tcp_close *)
  | HandleClosed.               (* libuv has closed one of the two handles *)

Section Life.
Context `{TcpEnv}.

Definition run_event (e : event) : TCP () :=
  match e with
  | Op o => run_op o
  | PeerCloses => _ ← uvl_client_recv_func take_data None; mret ()
  | ConnectionError => uvl_client_err_func take_data
  | Close cb => _ ← uvl_tcp_close take_data free_req cb; mret ()
  | HandleClosed => uvl_tcp_close_handle_cb stay_closed
  end.

(** The owner has not closed the object. *)
Definition in_use (s : conn) : Prop := close_cb (client s) = None ∧ is_Some (buf (client s)).

(** lwIP calls back as long as the callbacks are set, that is until the
    connection is closed; the owner closes once, and libuv runs no async
    callback after that. *)
Definition permitted (e : event) (s : conn) : Prop :=
  match e with
  | Op (Acknowledge len) => allowed (Acknowledge len) s
  | Op (Receive data) => data ≠ [] ∧ closed (client s) = false
  | Op o => allowed o s ∧ in_use s
  | PeerCloses | ConnectionError => closed (client s) = false
  | Close _ => in_use s
  | HandleClosed => close_cb (client s) ≠ None
  end.

Definition asked (e : event) (h : history) : history :=
  match e with Op o => submitted o h | _ => h end.

(** [h] are the requests submitted so far. *)
Inductive life : history → conn → Prop :=
  | life_open junk p l r c n s :
      zlen junk = UVL_TCP_RECV_BUF_LEN → 0 ≤ snd_buf p → unacked p = 0 →
      open_conn junk p l r (mk_conn c ∅ [] n) = Ok (0, s) → life [] s
  | life_step h s e s' :
      life h s → permitted e s → run_event e s = Ok ((), s') → life (asked e h) s'.

(** * The states of a connection *)

Definition queue_ok (L : list node) (s : conn) : Prop :=
  seg (reqs s) (cur_write (client s)) L ∧ NoDup L.*1 ∧ tail_write (client s) = fst <$> list.last L.

Definition reported (s : conn) : list positive := (completed s).*1.

(** lwIP has let go of the connection, the owner not yet. *)
Record shut (h : history) (L : list node) (s : conn) : Prop := {
  sh_queue : queue_ok L s;
  sh_closed : closed (client s) = true;
  sh_pcb : pcb (client s) = None;
  sh_reader : read_cb (client s) = false;
  sh_buf : ∃ b, buf (client s) = Some b ∧ recv_used b ≤ UVL_TCP_RECV_BUF_LEN;
  sh_closing : close_cb (client s) = None ∧ closed_handle (client s) = 0;
  sh_reported : h.*1 = reported s ++ L.*1 }.

(** The owner has closed; libuv has closed one handle at most, or both. *)
Record closing (h : history) (s : conn) : Prop := {
  cl_closed : closed (client s) = true;
  cl_pcb : pcb (client s) = None;
  cl_handles : (∃ cb, close_cb (client s) = Some cb ∧ 0 ≤ closed_handle (client s) ≤ 1) ∨
    (close_cb (client s) = None ∧ buf (client s) = None);
  cl_reported : h.*1 = reported s }.

Definition life_inv (h : history) (s : conn) : Prop :=
  (∃ i L, conn_inv h i L s) ∨ (∃ L, shut h L s) ∨ closing h s.

Lemma conn_inv_queue h i L s : conn_inv h i L s → queue_ok L s.
Proof. by intros []. Qed.

Lemma conn_inv_reported h i L s : conn_inv h i L s → h.*1 = reported s ++ L.*1.
Proof.
  intros []. destruct ci_queue as (h1 & -> & Hh). unfold reported. rewrite <- Hh.
  unfold with_status. rewrite fmap_app. by rewrite <- !list_fmap_compose.
Qed.

(** What closing leaves of an open connection. *)
Lemma conn_inv_shut h i L s s' es :
  conn_inv h i L s → reqs s' = reqs s → events s' = events s ++ es → concat (finished <$> es) = [] →
  pcb (client s') = None → closed (client s') = true → read_cb (client s') = false →
  cur_write (client s') = cur_write (client s) → tail_write (client s') = tail_write (client s) →
  buf (client s') = buf (client s) → close_cb (client s') = close_cb (client s) →
  closed_handle (client s') = closed_handle (client s) → shut h L s'.
Proof.
  intros Hi Hm He Hf Hp Hc Hr Hq Ht Hb Hcb Hh. pose proof (conn_inv_reported _ _ _ _ Hi) as Hrep.
  pose proof Hi as []. constructor; try done.
  - split_and!; [by rewrite Hm, Hq|done|by rewrite Ht].
  - destruct ci_buf as (b & Eb & _ & Hu & _). exists b. rewrite Hb. split; [done|lia].
  - by rewrite Hcb, Hh.
  - unfold reported. by rewrite (completed_app s s' es He), Hf, app_nil_r.
Qed.

Lemma close_func_shut h i L s :
  conn_inv h i L s → ∃ ret s', uvl_client_close_func take_data s = Ok (ret, s') ∧ shut h L s'.
Proof.
  intros Hi. destruct (ci_pcb _ _ _ _ Hi) as (p & Ep & _).
  destruct (close_func_ok s p (ci_open _ _ _ _ Hi) Ep)
    as (ret & s' & es & E & _ & He & Hf & _ & _ & Hm & Hp & Hc & Hr & Hq & Hcb & Hh & Ht & Hb).
  exists ret, s'. split; [done|]. by apply (conn_inv_shut h i L s s' es).
Qed.

Lemma err_func_shut h i L s :
  conn_inv h i L s → ∃ s', uvl_client_err_func take_data s = Ok ((), s') ∧ shut h L s'.
Proof.
  intros Hi. assert (∃ s' es, uvl_client_err_func take_data s = Ok ((), s') ∧ reqs s' = reqs s ∧
    events s' = events s ++ es ∧ concat (finished <$> es) = [] ∧ pcb (client s') = None ∧
    closed (client s') = true ∧ read_cb (client s') = false ∧ cur_write (client s') = cur_write (client s) ∧
    tail_write (client s') = tail_write (client s) ∧ buf (client s') = buf (client s) ∧
    close_cb (client s') = close_cb (client s) ∧ closed_handle (client s') = closed_handle (client s))
    as (s' & es & E & ? & ? & ? & ? & ? & ? & ? & ? & ? & ? & ?).
  { destruct s as [c m ev n]. destruct c. unfold uvl_client_err_func, uvl_client_freed, call_read_cb,
      mbind, M_bind, gets, modify, mret, M_ret. cbn.
    destruct read_cb; cbn; [eexists _, [ReadCb UV_EOF []]|eexists _, []]; rewrite ?app_nil_r; by split_and!. }
  exists s'. split; [done|]. by apply (conn_inv_shut h i L s s' es).
Qed.

(** * Queueing, finishing and cancelling, in any state *)

Lemma uvl_write_queued L s id bufs :
  queue_ok L s → reqs s !! id = None →
  ∃ n L' s', uvl_write id bufs s = Ok (n, s') ∧ queue_ok L' s' ∧ L'.*1 = L.*1 ++ [id] ∧
    completed s' = completed s ∧ ∃ cur, client s' = set_queue cur (Some id) (client s).
Proof.
  intros (Hseg & Hnd & Htail) Hid. pose proof (seg_ids_in _ _ _ _ Hseg Hid) as Hnin.
  assert (NoDup (L.*1 ++ [id])) as Hnd'.
  { apply list.NoDup_app. split_and!; [done| |apply NoDup_singleton].
    intros j Hj ->%list_elem_of_singleton. done. }
  assert (∀ s', events s' = events s ++ [AsyncSendWrite] → completed s' = completed s) as Hcomp
    by (intros s' E; rewrite (completed_app s s' _ E); apply app_nil_r).
  destruct (list.last L) as [[t r]|] eqn:El.
  - apply last_Some in El as [A ->]. destruct (seg_lookup _ _ _ _ _ _ Hseg) as [Et _].
    assert (t ≠ id) by (intros ->; congruence).
    destruct (uvl_write_state id bufs s t r) as (s' & E & Hm & Hc & He & _); [by rewrite Htail|done..|].
    set (L' := (A ++ [(t, set_next (Some id) r)]) ++ [(id, fresh_req bufs)]).
    assert (L'.*1 = (A ++ [(t, r)]).*1 ++ [id]) as HL' by (unfold L'; by rewrite !fmap_app).
    eexists _, L', _. split; [exact E|]. split_and!; [split_and!; [|by rewrite HL'|]|done| |].
    + cbn [reqs client emit count_call]. rewrite Hm, Hc. cbn [set_queue cur_write].
      replace (match cur_write (client s) with Some x => Some x | None => Some id end) with (cur_write (client s))
        by (destruct A as [|[??]?]; destruct Hseg as [-> _]; done).
      unfold L'. eapply (seg_update _ _ _ id (mk_write bufs 0 0 0 0 0 None)); [|done|].
      * by rewrite !fmap_app in *.
      * rewrite <- app_assoc. by apply (seg_append (reqs s) _ A t r id (mk_write bufs 0 0 0 0 0 None)).
    + cbn. rewrite Hc. unfold L'. by rewrite last_snoc.
    + apply Hcomp. cbn. by rewrite He.
    + cbn. by eexists.
  - apply last_None in El as ->. cbn in Hseg.
    destruct (uvl_write_state_empty id bufs s) as (s' & E & Hm & Hc & He & _); [by rewrite Htail|].
    eexists _, [(id, fresh_req bufs)], _. split; [exact E|].
    split_and!; [split_and!; [|by apply NoDup_singleton|]|done| |].
    + cbn. rewrite Hm, Hc, Hseg. cbn. by rewrite lookup_insert_eq.
    + cbn. by rewrite Hc.
    + apply Hcomp. cbn. by rewrite He.
    + cbn. by eexists.
Qed.

(** The requests that are finished leave the queue, in order. *)
Lemma finish_loop_queue : ∀ L fuel s,
  seg (reqs s) (cur_write (client s)) L → NoDup L.*1 → (length L ≤ fuel)%nat →
  ∃ A B s', L = A ++ B ∧ finish_loop free_req fuel (cur_write (client s)) s = Ok ((), s') ∧
    seg (reqs s') (cur_write (client s')) B ∧ reported s' = reported s ++ A.*1 ∧
    ∃ cur, client s' = set_queue cur (tail_write (client s)) (client s).
Proof.
  induction L as [|[id r] L IH]; intros fuel s Hs Hnd Hf.
  - cbn in Hs. exists [], [], s. rewrite Hs. split_and!; [done|by destruct fuel|done|by rewrite app_nil_r|].
    exists None. rewrite <- Hs. by destruct (client s).
  - destruct Hs as (Ec & El & Hs). rewrite fmap_cons in Hnd. apply list.NoDup_cons in Hnd as [Hn Hd].
    destruct fuel as [|fuel]; [cbn in Hf; lia|]. rewrite Ec. cbn [finish_loop].
    erewrite bind_of_ok by (by apply get_req_ok).
    destruct ((total_sent r =? total_len r) && (pending r =? 0)).
    2: { exists [], ((id, r) :: L), s. split_and!; [done..|by rewrite app_nil_r|].
         exists (Some id). rewrite <- Ec. by destruct (client s). }
    erewrite bind_of_ok by done.
    assert (Hpop : call_write_cb free_req id 0 (on_client (λ c, set_queue (next r) (tail_write c) c) s)
      = Ok ((), pop id r s)) by done.
    erewrite bind_of_ok by exact Hpop.
    destruct (IH fuel (pop id r s)) as (A & B & s' & -> & E & Hs' & Hrep & cur & Hc);
      [by apply seg_delete|done|cbn in Hf; lia|].
    exists ((id, r) :: A), B, s'. split_and!; [done|exact E|done| |].
    + rewrite Hrep. unfold reported, completed, pop. cbn [events on_reqs emit on_client].
      rewrite concat_fmap_snoc. cbn [finished]. rewrite fmap_app, <- app_assoc. done.
    + exists cur. rewrite Hc. done.
Qed.

Lemma cancel_reqs_ok L s :
  queue_ok L s → read_cb (client s) = false →
  ∃ s', uvl_cancel_reqs take_data free_req s = Ok ((), s') ∧ client s' = set_queue None None (client s) ∧
    reported s' = reported s ++ L.*1.
Proof.
  intros (Hseg & Hnd & _) Hr.
  destruct (cancel_loop_ok L (S (size (reqs s))) s (cur_write (client s))) as (s1 & E & Hc & Hcomp & _);
    [done|done|pose proof (seg_size _ _ _ Hnd Hseg); lia|].
  eexists. split; [|split].
  - unfold uvl_cancel_reqs. do 2 (erewrite bind_of_ok by done). erewrite bind_of_ok by exact E.
    do 2 (erewrite bind_of_ok by done). cbn. rewrite Hc. cbn. by rewrite Hr.
  - cbn. by rewrite Hc.
  - unfold reported. change (completed (on_client _ s1)) with (completed s1). rewrite Hcomp, fmap_app.
    unfold with_status. by rewrite <- !list_fmap_compose.
Qed.

(** * Steps of a connection lwIP has let go of *)

Lemma shut_write_cb h L s :
  shut h L s → ∃ s', uvl_async_tcp_write_cb take_data free_req s = Ok ((), s') ∧ shut h [] s'.
Proof.
  intros []. destruct sh_queue0 as (Hseg & Hnd & Htail).
  unfold uvl_async_tcp_write_cb. do 2 (erewrite bind_of_ok by done).
  destruct (finish_loop_queue L (S (size (reqs s))) s) as (A & B & s1 & -> & E1 & Hs1 & Hrep & cur & Hc);
    [done|done|pose proof (seg_size _ _ _ Hnd Hseg); lia|].
  erewrite bind_of_ok by exact E1. erewrite bind_of_ok by done.
  change (λ c, match cur_write c with Some _ => c | None => set_queue None None c end) with fix_tail.
  rewrite Hc in Hs1. cbn [set_queue cur_write] in Hs1. set (s2 := on_client fix_tail s1).
  assert (∃ t, client s2 = set_queue cur t (client s) ∧ t = fst <$> list.last B) as (t & Hc2 & Ht).
  { exists (fst <$> list.last B). split; [|done]. unfold s2, fix_tail. cbn [client on_client]. rewrite Hc.
    cbn [set_queue cur_write tail_write]. destruct B as [|[id r] B]; [by rewrite Hs1|].
    destruct Hs1 as [-> _]. by rewrite Htail, last_app_cons. }
  rewrite fmap_app in Hnd. apply list.NoDup_app in Hnd as (_ & _ & Hnd).
  erewrite bind_of_ok by done. rewrite Hc2. cbn [set_queue closed]. rewrite sh_closed0.
  destruct (cancel_reqs_ok B s2) as (s' & E' & Hc' & Hrep').
  { split_and!; [by rewrite Hc2|done|by rewrite Hc2]. }
  { by rewrite Hc2. }
  exists s'. split; [exact E'|]. rewrite Hc2 in Hc'. constructor; rewrite ?Hc'; try done.
  - split_and!; [by rewrite Hc'|by apply NoDup_nil_2|by rewrite Hc'].
  - cbn. rewrite app_nil_r, Hrep'. change (reported s2) with (reported s1). rewrite Hrep, sh_reported0.
    by rewrite fmap_app, app_assoc.
Qed.

Lemma shut_submit h L s id bufs :
  shut h L s → reqs s !! id = None →
  ∃ n L' s', uvl_write id bufs s = Ok (n, s') ∧ shut (h ++ [(id, bufs)]) L' s'.
Proof.
  intros [] Hid. destruct (uvl_write_queued L s id bufs) as (n & L' & s' & E & Hq & HL & Hcomp & cur & Hc); [done..|].
  exists n, L', s'. split; [done|]. constructor; rewrite ?Hc; try done.
  unfold reported. by rewrite HL, fmap_app, Hcomp, sh_reported0, <- app_assoc.
Qed.

(** What [uvl_tcp_close] does once lwIP has let go. *)
Lemma shut_cancel h L s cb :
  shut h L s →
  ∃ s', (uvl_cancel_reqs take_data free_req;; modify (emit CloseHandles);;
         modify (on_client (set_close_cb (Some cb)));; mret 0) s = Ok (0, s') ∧ closing h s'.
Proof.
  intros []. destruct (cancel_reqs_ok L s) as (s1 & E & Hc & Hrep); [done..|].
  eexists. split; [erewrite bind_of_ok by exact E; by do 2 (erewrite bind_of_ok by done)|].
  constructor; cbn [client on_client emit]; rewrite ?Hc; try done.
  - left. exists cb. split; [done|]. cbn. destruct sh_closing0 as [_ ->]. lia.
  - rewrite sh_reported0, <- Hrep. unfold reported, completed. cbn [events on_client emit].
    by rewrite fmap_app, concat_app, app_nil_r.
Qed.

Lemma shut_close h L s cb :
  shut h L s → ∃ s', uvl_tcp_close take_data free_req cb s = Ok (0, s') ∧ closing h s'.
Proof.
  intros Hs. destruct (shut_cancel h L s cb Hs) as (s' & E & Hc). exists s'. split; [|done].
  unfold uvl_tcp_close. erewrite bind_of_ok by done. destruct (sh_closing _ _ _ Hs) as [-> _].
  erewrite bind_of_ok by done. rewrite (sh_closed _ _ _ Hs). by erewrite bind_of_ok by done.
Qed.

Lemma closing_handle h s :
  closing h s → close_cb (client s) ≠ None →
  ∃ s', uvl_tcp_close_handle_cb stay_closed s = Ok ((), s') ∧ closing h s'.
Proof.
  intros [] Hn. destruct cl_handles0 as [(cb & Hcb & Hh)|[? _]]; [|done].
  unfold uvl_tcp_close_handle_cb. do 2 (erewrite bind_of_ok by done).
  cbn [client on_client set_closed_handle closed_handle]. destruct (Z.eqb_spec (closed_handle (client s) + 1) 2).
  - erewrite bind_of_ok by done. cbn [close_cb set_closed_handle]. rewrite Hcb.
    eexists. split; [done|]. constructor; [done|done|by right|].
    rewrite cl_reported0. unfold reported, completed. cbn [events on_client emit].
    by rewrite fmap_app, concat_app, app_nil_r.
  - eexists. split; [done|]. constructor; try done.
    left. exists cb. split; [done|]. cbn. lia.
Qed.

(** * Steps of an open connection *)

Context (Hwrite : ∀ n, ans_write n = ERR_OK ∨ ans_write n = ERR_MEM).

Lemma open_write_cb h i L s :
  conn_inv h i L s →
  ∃ s', uvl_async_tcp_write_cb take_data free_req s = Ok ((), s') ∧
    ((∃ L, conn_inv h i L s') ∨ ∃ L, shut h L s').
Proof.
  intros Hi. destruct (uvl_async_tcp_write_cb_open h i L s Hi) as (L1 & s1 & Hi1 & _ & ->).
  destruct L1 as [|x L1]; [exists s1; split; [done|left; by exists []]|].
  destruct (uvl_imp_write_queue_ok Hwrite h i (x :: L1) s1 Hi1) as (L2 & s2 & -> & Hi2 & _); [done|].
  destruct (ci_pcb _ _ _ _ Hi2) as (p & Ep & _). unfold flush.
  erewrite bind_of_ok by (by apply (tcp_output_answers s2 p)).
  pose proof (conn_inv_call h i L2 s2 TcpOutput eq_refl eq_refl eq_refl Hi2) as Hi3.
  destruct (ans_output (ncalls s2) =? ERR_OK); cbn [negb]; [eexists; split; [done|left; by exists L2]|].
  destruct (close_func_shut h i L2 _ Hi3) as (ret & s' & E & Hs).
  exists s'. split; [by erewrite bind_of_ok by exact E|right; by exists L2].
Qed.

Lemma open_close h i L s cb :
  conn_inv h i L s → ∃ s', uvl_tcp_close take_data free_req cb s = Ok (0, s') ∧ closing h s'.
Proof.
  intros Hi. destruct (close_func_shut h i L s Hi) as (ret & s1 & E & Hs).
  destruct (shut_cancel h L s1 cb Hs) as (s' & E' & Hc). exists s'. split; [|done].
  unfold uvl_tcp_close. erewrite bind_of_ok by done. destruct (ci_closing _ _ _ _ Hi) as [-> _].
  erewrite bind_of_ok by done. rewrite (ci_open _ _ _ _ Hi).
  by erewrite bind_of_ok by (by erewrite bind_of_ok by exact E).
Qed.

Lemma open_step h i L s e :
  conn_inv h i L s → permitted e s →
  ∃ s', run_event e s = Ok ((), s') ∧ life_inv (asked e h) s'.
Proof.
  intros Hi Hp. destruct e as [o| | |cb|]; cbn [run_event asked].
  - assert (allowed o s) as Ha by (destruct o; cbn [permitted allowed] in *; tauto).
    assert (o = RunWrite ∨ o ≠ RunWrite) as [->|Hne] by (destruct o; auto).
    + destruct (open_write_cb h i L s Hi) as (s' & E & [[L' Hi']|[L' Hi']]); exists s'; (split; [done|]);
        [left; by exists i, L'|right; left; by exists L'].
    + destruct (run_op_other h i L s o Hi Ha Hne) as (L' & s' & E & Hi').
      exists s'. split; [done|left; by eexists _, L'].
  - destruct (close_func_shut h i L s Hi) as (ret & s' & E & Hs). exists s'. split; [|right; left; by exists L].
    destruct (ci_pcb _ _ _ _ Hi) as (p & Ep & _). erewrite bind_of_ok; [done|].
    unfold uvl_client_recv_func. erewrite bind_of_ok by done. rewrite (ci_open _ _ _ _ Hi), Ep.
    do 2 (erewrite bind_of_ok by done). exact E.
  - destruct (err_func_shut h i L s Hi) as (s' & E & Hs). exists s'. split; [done|right; left; by exists L].
  - destruct (open_close h i L s cb Hi) as (s' & E & Hc). exists s'.
    split; [by erewrite bind_of_ok by exact E|by right; right].
  - destruct (ci_closing _ _ _ _ Hi) as [Hc _]. by destruct Hp.
Qed.

Lemma shut_step h L s e :
  shut h L s → permitted e s →
  ∃ s', run_event e s = Ok ((), s') ∧ life_inv (asked e h) s'.
Proof.
  intros Hs Hp. pose proof Hs as [].
  destruct e as [o| | |cb|]; cbn [run_event asked permitted] in *; try congruence.
  - destruct o as [id bufs| |len|data| | |]; cbn [run_op submitted].
    + destruct Hp as [(? & _) _]. destruct (shut_submit h L s id bufs Hs) as (n & L' & s' & E & Hs'); [done|].
      exists s'. split; [by erewrite bind_of_ok by exact E|right; left; by exists L'].
    + destruct (shut_write_cb h L s Hs) as (s' & E & Hs'). exists s'. split; [done|right; left; by exists []].
    + destruct Hp as (_ & p & Hp & _). congruence.
    + destruct Hp as [_ ?]. congruence.
    + exists s. split; [|right; left; by exists L]. destruct sh_buf0 as (b & Eb & Hu).
      unfold uvl_async_tcp_read_cb. erewrite bind_of_ok by (unfold get_buf; by rewrite Eb).
      replace (recv_used b <=? UVL_TCP_RECV_BUF_LEN) with true by lia. do 2 (erewrite bind_of_ok by done).
      by rewrite sh_reader0.
    + exists (emit (ReadCb UV_EOF []) s). split.
      * unfold uvl_read_start. erewrite bind_of_ok; [done|]. erewrite bind_of_ok by done.
        rewrite sh_reader0, sh_closed0. by erewrite bind_of_ok by done.
      * right. left. exists L. constructor; try done. rewrite sh_reported0. unfold reported, completed.
        cbn [events emit]. by rewrite fmap_app, concat_app, app_nil_r.
    + eexists. split; [done|]. right. left. by exists L.
  - destruct (shut_close h L s cb Hs) as (s' & E & Hc). exists s'.
    split; [by erewrite bind_of_ok by exact E|by right; right].
  - by destruct sh_closing0.
Qed.

Lemma closing_step h s e :
  closing h s → permitted e s →
  ∃ s', run_event e s = Ok ((), s') ∧ life_inv (asked e h) s'.
Proof.
  intros Hc Hp. pose proof Hc as [].
  assert (¬ in_use s) as Hin.
  { intros [Hcb [b Hb]]. destruct cl_handles0 as [(cb & ? & _)|[_ ?]]; congruence. }
  destruct e as [o| | |cb|]; cbn [run_event asked permitted] in *; try congruence; try done.
  - destruct o; try (by destruct Hp); [destruct Hp as (_ & p & Hp & _); congruence|destruct Hp; congruence].
  - destruct (closing_handle h s Hc Hp) as (s' & E & Hc'). exists s'. split; [done|by right; right].
Qed.

Lemma life_invariant h s : life h s → life_inv h s.
Proof.
  induction 1 as [|h s e s' _ IH Hp E].
  - left. exists [], []. by eapply open_conn_inv.
  - assert (∃ s1, run_event e s = Ok ((), s1) ∧ life_inv (asked e h) s1) as (s1 & E1 & Hi1).
    { destruct IH as [(i & L & Hi)|[[L Hs]|Hc]];
        [by eapply open_step|by eapply shut_step|by eapply closing_step]. }
    rewrite E in E1. by injection E1 as <-.
Qed.

(** (C20) The whole life of a connection: whatever the order in which the owner
    submits, starts and stops reading and closes, lwIP acknowledges, hands
    over data, reports that the peer has closed or that the connection has
    failed, and libuv runs the two callbacks and closes the two handles, and
    whatever [tcp_output], [tcp_close], [uv_async_send] and the allocation of
    the reader answer, every call returns, without an assertion failing, a
    null or freed pointer being read or a buffer being overrun; and each
    submitted request is reported to its owner at most once, in the order of
    submission, and exactly once when the owner has closed.  The calls keep to
    [permitted] (a request is not queued twice and has a buffer; lwIP
    acknowledges at most what it was given and does not call back once the
    connection is closed; the owner closes once and does nothing after that;
    its callbacks take the data and free the request), and [tcp_write]
    answers [ERR_OK] or [ERR_MEM]: that this is needed is
    [UvStream.fatal_write_null_pcb]. *)
Theorem connection_never_faults h s e :
  life h s → permitted e s →
  ∃ s', run_event e s = Ok ((), s') ∧ reported s' `prefix_of` (asked e h).*1 ∧
    (close_cb (client s') ≠ None → reported s' = (asked e h).*1).
Proof.
  intros Hl Hp. assert (∃ s', run_event e s = Ok ((), s') ∧ life_inv (asked e h) s') as (s' & E & Hi).
  { destruct (life_invariant h s Hl) as [(i & L & Hi)|[[L Hs]|Hc]];
      [by eapply open_step|by eapply shut_step|by eapply closing_step]. }
  exists s'. split; [done|]. destruct Hi as [(i & L & Hi)|[[L Hs]|Hc]].
  - rewrite (conn_inv_reported _ _ _ _ Hi). split; [by eexists|]. by destruct (ci_closing _ _ _ _ Hi) as [-> _].
  - rewrite (sh_reported _ _ _ Hs). split; [by eexists|]. by destruct (sh_closing _ _ _ Hs) as [-> _].
  - by rewrite (cl_reported _ _ Hc).
Qed.
End Life.

(** * An example life *)

(** [permitted] as a test. *)
Definition permitted_b (e : event) (s : conn) : bool :=
  let used := match close_cb (client s), buf (client s) with None, Some _ => true | _, _ => false end in
  match e with
  | Op (Acknowledge len) => allowed_b (Acknowledge len) s
  | Op (Receive data) => allowed_b (Receive data) s && negb (closed (client s))
  | Op o => allowed_b o s && used
  | PeerCloses | ConnectionError => negb (closed (client s))
  | Close _ => used
  | HandleClosed => match close_cb (client s) with Some _ => true | None => false end
  end.

Lemma permitted_b_sound e s : permitted_b e s = true → permitted e s.
Proof.
  assert ((match close_cb (client s), buf (client s) with None, Some _ => true | _, _ => false end) = true →
    in_use s) as Hu.
  { unfold in_use. destruct (close_cb (client s)), (buf (client s)); try done. }
  destruct e as [o| | |cb|]; cbn [permitted permitted_b]; [|by rewrite negb_true_iff|by rewrite negb_true_iff|exact Hu|].
  - pose proof (allowed_b_sound o s) as Ha. destruct o; cbn [allowed] in *;
      rewrite ?andb_true_iff, ?negb_true_iff; intros Hp; tauto.
  - by destruct (close_cb (client s)).
Qed.

Fixpoint replay_life `{TcpEnv} (es : list event) (h : history) (s : conn) : option (history * conn) :=
  match es with
  | [] => Some (h, s)
  | e :: es =>
      if permitted_b e s then
        match run_event e s with Ok (_, s') => replay_life es (asked e h) s' | Fail _ => None end
      else None
  end.

Lemma replay_life_sound `{TcpEnv} es : ∀ h s h' s',
  life h s → replay_life es h s = Some (h', s') → life h' s'.
Proof.
  induction es as [|e es IH]; intros h s h' s' Hl; cbn; [by intros [= <- <-]|].
  destruct (permitted_b e s) eqn:Ep; [|done]. destruct (run_event e s) as [[[] s1]|] eqn:E; [|done].
  apply IH. eapply life_step; [done|by apply permitted_b_sound|done].
Qed.

(** lwIP takes the data, but neither [tcp_output] nor [tcp_close] succeeds. *)
Definition failing_lwip : TcpEnv := {|
  ans_write := λ _, ERR_OK; ans_output := λ _, -4; ans_close := λ _, ERR_MEM;
  ans_async := λ _, 0; ans_alloc := λ _, Some 65536 |}.

Definition life_start : option conn :=
  match @open_conn failing_lwip (replicate 2048 0) (mk_pcb 4 0 false) no_addr no_addr
          (mk_conn idle_client ∅ [] 0) with
  | Ok (0, s) => Some s
  | _ => None
  end.

(** The connection is aborted in the write callback; the owner submits once
    more, reads to the end of file, and closes. *)
Definition life_events : list event :=
  [Op (Submit 1 [[1; 2; 3]; [4; 5]]); Op StartReading; Op (Receive [7]); Op RunWrite; Op (Submit 2 [[6]]);
   Op RunRead; Op StartReading].

Lemma connection_never_faults_witness :
  ∃ h s s', @life failing_lwip h s ∧ @run_event failing_lwip (Close 9) s = Ok ((), s') ∧
    pcb (client s) = None ∧ reported s = [] ∧ reported s' = [1%positive; 2%positive].
Proof.
  assert (match life_start with Some s =>
    match replay_life (H := failing_lwip) life_events [] s with
    | Some (h, s') => h.*1 = [1%positive; 2%positive] ∧ pcb (client s') = None ∧ reported s' = [] ∧
        permitted_b (Close 9) s' = true ∧
        match run_event (H := failing_lwip) (Close 9) s' with Ok (_, s2) => close_cb (client s2) = Some 9%positive | _ => False end
    | None => False
    end
    | None => False end) as Hx by (vm_compute; tauto).
  destruct life_start as [s0|] eqn:Es; [|destruct Hx].
  destruct (replay_life life_events [] s0) as [[h s]|] eqn:Er; [|destruct Hx].
  destruct Hx as (Hh & Hp & Hr & Hok & Hcb). exists h, s.
  assert (@life failing_lwip h s) as Hl.
  { eapply replay_life_sound; [|exact Er]. unfold life_start in Es.
    destruct (open_conn _ _ _ _ _) as [[[| |] s1]|] eqn:Eo; try done. injection Es as ->.
    eapply life_open; [..|exact Eo]; done. }
  destruct (@connection_never_faults failing_lwip (λ _, or_introl eq_refl) h s (Close 9) Hl)
    as (s' & E & _ & Hall); [by apply permitted_b_sound|].
  exists s'. rewrite E in Hcb. split_and!; [exact Hl|exact E|exact Hp|exact Hr|].
  rewrite Hall by (by rewrite Hcb). exact Hh.
Defined.
