(* ===== verification/UvLwip.v ===== *)
(** The network interface of the gateway: the [uvl_t] half of
    [uv_lwip/uv_lwip.c].  IP packets go into lwIP through [uvl_input] and come
    out through [uvl_netif_output_func]; connections that lwIP accepts are
    offered to the owner; a libuv timer drives lwIP's timers.  Calls into lwIP
    and libuv are recorded and answered by an environment, the owner's
    callbacks are parameters. *)
From stdpp Require Import gmap.
From S2P Require Import Prelude.
From S2P Require Import NetBytes.
From S2P Require Import UvTcp.
From S2P Require Import UvTcpFacts.
From S2P Require Import UvStream.

(** * Data *)

Definition UVL_NBUF_LEN : Z := 10.
Definition ERR_IF : Z := -12.
Definition AF_INET : Z := 2.
(** Milliseconds between two calls of lwIP's timers ([tcp_priv.h],
    [ip4_frag.h], [nd6.h], [ip6_frag.h]). *)
Definition TCP_TMR_INTERVAL : Z := 250.
Definition IP_TMR_INTERVAL : Z := 1000.
Definition ND6_TMR_INTERVAL : Z := 1000.
Definition IP6_REASS_TMR_INTERVAL : Z := 1000.

(** [ip_addr_t]. *)
Inductive ip_addr := IPv4 (addr : list Z) | IPv6 (addr : list Z).

(** A control block that lwIP hands to the accept callback. *)
Record new_pcb := mk_new_pcb {
  np_id : positive; np_pcb : tcp_pcb;
  np_local_ip : ip_addr; np_local_port : Z; np_remote_ip : ip_addr; np_remote_port : Z }.

(** What the code sets of a [struct netif]. *)
Record netif := mk_netif {
  name : list Z; num : Z; mtu : Z; has_output : bool; up : bool; link_up : bool; pretend_tcp : bool }.

(** [struct uvl]; of the callbacks [output] and [connection_cb] whether they
    are set, [close_cb] as the identity of the function. *)
Record uvl_t := mk_uvl {
  h_output : bool; h_connection_cb : bool; h_close_cb : option positive;
  the_netif : option netif; listener : option positive; waiting_pcb : option new_pcb;
  tcp_timer_mod4 : Z; h_closed : bool }.

Inductive uvl_event :=
  | LwipInit | NetifAdd | SetDefault | NetifRemove | FreeNetif
  | TimerInit | TimerStart (timeout repeat : Z) | TimerStop | TimerClose
  | TcpTmr | IpReassTmr | Nd6Tmr | Ip6ReassTmr
  | Output (bufs : list (list Z))
  | ConnectionCb (status : Z) | CloseHandleCb (cb : positive)
  | TcpNew (id : positive) | BindToNetif (id : positive) | TcpListen (id : positive) | TcpAccept (id : positive)
  | ClosePcb (id : positive) | AbortPcb (id : positive)
  | Ip4Input (p : list (list Z)) | Ip6Input (p : list (list Z)) | PbufFree.

Record uvl_state := mk_uvl_state {
  handle : uvl_t; lwip_ready : bool; hevents : list uvl_event; hcalls : nat }.

Class UvlEnv := {
  ans_timer : nat → Z;                       (* uv_timer_init, uv_timer_start *)
  ans_netif_add : nat → bool;                (* netif_add does not return NULL *)
  ans_tcp_new : nat → option positive;       (* tcp_new_ip_type *)
  ans_bind : nat → Z;                        (* tcp_bind_to_netif *)
  ans_listen : nat → option positive;        (* tcp_listen *)
  ans_tcp_close : nat → Z;                   (* tcp_close of a listener *)
  ans_output_cb : nat → Z;                   (* the owner's output function *)
  ans_pbuf : nat → option (list nat);        (* pbuf_alloc: the lengths of the chain *)
  ans_take : nat → Z;                        (* pbuf_take *)
  ans_input : nat → Z                        (* ip4_input, ip6_input *)
}.

Abbreviation UVL := (M uvl_state).

Definition on_handle (f : uvl_t → uvl_t) (s : uvl_state) : uvl_state :=
  mk_uvl_state (f (handle s)) (lwip_ready s) (hevents s) (hcalls s).
Definition set_callbacks (o c : bool) (cb : option positive) (h : uvl_t) : uvl_t :=
  mk_uvl o c cb (the_netif h) (listener h) (waiting_pcb h) (tcp_timer_mod4 h) (h_closed h).
Definition set_netif (n : option netif) (h : uvl_t) : uvl_t :=
  mk_uvl (h_output h) (h_connection_cb h) (h_close_cb h) n (listener h) (waiting_pcb h) (tcp_timer_mod4 h) (h_closed h).
Definition set_listener (l : option positive) (h : uvl_t) : uvl_t :=
  mk_uvl (h_output h) (h_connection_cb h) (h_close_cb h) (the_netif h) l (waiting_pcb h) (tcp_timer_mod4 h) (h_closed h).
Definition set_waiting (p : option new_pcb) (h : uvl_t) : uvl_t :=
  mk_uvl (h_output h) (h_connection_cb h) (h_close_cb h) (the_netif h) (listener h) p (tcp_timer_mod4 h) (h_closed h).
Definition set_mod4 (n : Z) (h : uvl_t) : uvl_t :=
  mk_uvl (h_output h) (h_connection_cb h) (h_close_cb h) (the_netif h) (listener h) (waiting_pcb h) n (h_closed h).

Definition note (e : uvl_event) : UVL () := λ s,
  Ok ((), mk_uvl_state (handle s) (lwip_ready s) (hevents s ++ [e]) (hcalls s)).
(** An answer of the environment. *)
Definition ask {A} (ans : nat → A) : UVL A := λ s,
  Ok (ans (hcalls s), mk_uvl_state (handle s) (lwip_ready s) (hevents s) (S (hcalls s))).
Definition HASSERT (b : bool) : UVL () := if b then mret () else fail AssertFailure.
Definition is_some {A} (o : option A) : bool := match o with Some _ => true | None => false end.

(** * Packets *)

Section Uvl.
Context `{UvlEnv}.

(** The [do ... while] loop over the chain: [bufs] is the array on the stack,
    whose slots are free until they are written. *)
Fixpoint collect_bufs (p : list (list Z)) (i : Z) (bufs : list (option (list Z))) : result (Z * list (option (list Z))) :=
  match p with
  | [] => Ok (i, bufs)
  | seg :: p => bufs ← arr_set bufs i (Some seg); collect_bufs p (i + 1) bufs
  end.

(** [uvl_netif_output_func]; the packet of lwIP is a chain [p] of at least one
    part. *)
Definition uvl_netif_output_func (p : list (list Z)) : UVL Z :=
  '(i, bufs) ← lift (collect_bufs p 0 (replicate (Z.to_nat UVL_NBUF_LEN) None));
  HASSERT (i <? UVL_NBUF_LEN);;
  h ← gets handle;
  (if h_output h then mret () else fail NullPointer);;
  note (Output (omap id (take (Z.to_nat i) bufs)));;
  ret ← ask ans_output_cb;
  mret (if ret =? 0 then ERR_OK else ERR_IF).

Definition uvl_netif_init_func (n : netif) : netif * Z :=
  (mk_netif [104; 111] 0 (mtu n) true (up n) (link_up n) (pretend_tcp n), ERR_OK).

Definition uvl_netif_input_func (p : list (list Z)) : UVL Z :=
  first ← lift (arr_get p 0);
  let ip_version := match first with b :: _ => Z.shiftr b 4 | [] => 0 end in
  if ip_version =? 4 then note (Ip4Input p);; ask ans_input
  else if ip_version =? 6 then note (Ip6Input p);; ask ans_input
  else note PbufFree;; mret ERR_OK.

(** What [pbuf_take] leaves in a chain of these lengths. *)
Fixpoint fill_chain (lens : list nat) (bs : list Z) : list (list Z) :=
  match lens with [] => [] | n :: lens => take n bs :: fill_chain lens (drop n bs) end.

Definition uvl_input (buf : list Z) : UVL Z :=
  p ← ask ans_pbuf;
  match p with
  | None => mret (-1)
  | Some lens =>
      taken ← ask ans_take;
      if negb (taken =? ERR_OK) then note PbufFree;; mret (-1)
      else
        h ← gets handle;
        (if is_some (the_netif h) then mret () else fail NullPointer);;
        err ← uvl_netif_input_func (fill_chain lens buf);
        if negb (err =? ERR_OK) then note PbufFree;; mret (-1) else mret 0
  end.

(** * Connections *)

(** [ip] is what the array on the stack holds. *)
Definition addr_from_lwip (ip : list Z) (a : ip_addr) : list Z :=
  match a with IPv6 _ => ip | IPv4 b => b end.

(** [uvl_accept] for the connection [k]. *)
Definition uvl_accept (junk_l junk_r : list Z) (k : conn) : UVL (Z * conn) :=
  h ← gets handle;
  HASSERT (is_some (waiting_pcb h));;
  match waiting_pcb h with
  | None => fail AssertFailure
  | Some newpcb =>
      let local := mk_sockaddr AF_INET (addr_from_lwip junk_l (np_local_ip newpcb))
                     (htons (np_local_port newpcb)) in
      let remote := mk_sockaddr AF_INET (addr_from_lwip junk_r (np_remote_ip newpcb))
                     (htons (np_remote_port newpcb)) in
      '(_, k) ← lift (accept_client (np_pcb newpcb) local remote k);
      modify (on_handle (set_waiting None));;
      mret (0, k)
  end.

(** What the owner does when a connection waits. *)
Variable on_connection : Z → UVL ().

Definition uvl_listener_accept_func (newpcb : new_pcb) (err : Z) : UVL Z :=
  h ← gets handle;
  HASSERT (err =? ERR_OK);;
  HASSERT (is_some (listener h));;
  HASSERT (h_connection_cb h);;
  modify (on_handle (set_waiting (Some newpcb)));;
  note (ConnectionCb 0);; on_connection 0;;
  h ← gets handle;
  if is_some (waiting_pcb h) then
    note (AbortPcb (np_id newpcb));;
    modify (on_handle (set_waiting None));;
    mret ERR_ABRT
  else mret ERR_OK.

(** * Timers and life cycle *)

Definition uvl_timer : UVL () :=
  modify (on_handle (λ h, set_mod4 (Z.rem (tcp_timer_mod4 h + 1) 4) h));;
  note TcpTmr;;
  h ← gets handle;
  if tcp_timer_mod4 h =? 0 then
    HASSERT (IP_TMR_INTERVAL =? 4 * TCP_TMR_INTERVAL);; note IpReassTmr;;
    HASSERT (ND6_TMR_INTERVAL =? 4 * TCP_TMR_INTERVAL);; note Nd6Tmr;;
    HASSERT (IP6_REASS_TMR_INTERVAL =? 4 * TCP_TMR_INTERVAL);; note Ip6ReassTmr
  else mret ().

Variable on_handle_closed : positive → UVL ().

Definition uvl_timer_close_cb : UVL () :=
  h ← gets handle;
  match h_close_cb h with
  | Some cb => note (CloseHandleCb cb);; on_handle_closed cb
  | None => mret ()
  end.

Definition uvl_close (close_cb : option positive) : UVL Z :=
  h ← gets handle;
  match close_cb with
  | Some cb => if h_closed h then note (CloseHandleCb cb);; on_handle_closed cb else mret ()
  | None => mret ()
  end;;
  h ← gets handle;
  match listener h with
  | Some l =>
      err ← ask ans_tcp_close;
      note (ClosePcb l);;
      (if negb (err =? ERR_OK) then note (AbortPcb l) else mret ());;
      modify (on_handle (set_listener None))
  | None => mret ()
  end;;
  h ← gets handle;
  match the_netif h with
  | Some _ => note NetifRemove;; note FreeNetif;; modify (on_handle (set_netif None))
  | None => mret ()
  end;;
  note TimerStop;;
  modify (on_handle (λ h, set_callbacks (h_output h) (h_connection_cb h) close_cb h));;
  note TimerClose;;
  mret 0.

(** [netif_add] runs the init function of the interface.  [junk] is the object
    [malloc] returned. *)
Definition netif_add (junk : netif) : UVL bool :=
  note NetifAdd;;
  ok ← ask ans_netif_add;
  if ok : bool then modify (on_handle (set_netif (Some (uvl_netif_init_func junk).1)));; mret true
  else mret false.

Definition uvl_init_lwip (junk : netif) : UVL Z :=
  modify (on_handle (set_netif (Some junk)));;
  ready ← gets lwip_ready;
  (if ready : bool then mret ()
   else note LwipInit;; modify (λ s, mk_uvl_state (handle s) true (hevents s) (hcalls s)));;
  ok ← netif_add junk;
  if ok : bool then
    modify (on_handle (λ h, set_netif (option_map (λ n,
      mk_netif (name n) (num n) 1300 (has_output n) true true true) (the_netif h)) h));;
    note SetDefault;;
    mret 0
  else mret (-1).

Definition uvl_init (junk : netif) : UVL Z :=
  modify (on_handle (λ h, mk_uvl false false None (the_netif h) None None 0 false));;
  note TimerInit;; ret ← ask ans_timer;
  if negb (ret =? 0) then mret ret
  else
    note (TimerStart 0 250);; ret ← ask ans_timer;
    if negb (ret =? 0) then mret ret
    else uvl_init_lwip junk.

Definition uvl_bind : UVL Z :=
  modify (on_handle (λ h, set_callbacks true (h_connection_cb h) (h_close_cb h) h));; mret 0.

Definition uvl_listen : UVL Z :=
  modify (on_handle (λ h, set_callbacks (h_output h) true (h_close_cb h) h));;
  l ← ask ans_tcp_new;
  match l with
  | None => mret (-1)
  | Some l =>
      note (TcpNew l);;
      note (BindToNetif l);; err ← ask ans_bind;
      if negb (err =? ERR_OK) then note (ClosePcb l);; mret (-1)
      else
        note (TcpListen l);; lis ← ask ans_listen;
        modify (on_handle (set_listener lis));;
        match lis with
        | None => note (ClosePcb l);; mret (-1)
        | Some lis => note (TcpAccept lis);; mret 0
        end
  end.
End Uvl.

#[export] Instance uvl_event_eq_dec : EqDecision uvl_event.
Proof. solve_decision. Defined.

(** * Output *)

Lemma collect_bufs_spec p : ∀ sofar k,
  collect_bufs p (zlen sofar) ((Some <$> sofar) ++ replicate k None) =
  if (length p <=? k)%nat then
    Ok (zlen (sofar ++ p), (Some <$> sofar ++ p) ++ replicate (k - length p) None)
  else Fail OutOfBounds.
Proof.
  induction p as [|x p IH]; intros sofar k; cbn [collect_bufs length].
  { by rewrite app_nil_r, Nat.sub_0_r. }
  assert (∀ k, in_range (zlen ((Some <$> sofar) ++ replicate k None)) (zlen sofar) 1 = negb (k =? 0)%nat) as Hr.
  { intros j. destruct (in_range _ _ 1) eqn:E; unfold zlen in E; rewrite length_app, length_fmap, length_replicate in E.
    - apply in_range_spec in E. destruct j; [lia|done].
    - destruct j; [done|]. rewrite (proj2 (in_range_spec _ _ _)) in E; [done|lia]. }
  unfold arr_set. rewrite Hr. destruct k as [|k]; cbn [Nat.eqb negb].
  - done.
  - cbn [mbind result_bind].
    unfold zlen at 2. rewrite Nat2Z.id.
    assert (<[length sofar := Some x]> ((Some <$> sofar) ++ replicate (S k) None)
      = (Some <$> sofar ++ [x]) ++ replicate k None) as ->.
    { rewrite <- (Nat.add_0_r (length sofar)) at 1. rewrite <- (length_fmap Some sofar), insert_app_r.
      by rewrite fmap_app, <- app_assoc. }
    replace (zlen sofar + 1) with (zlen (sofar ++ [x])) by len_lia. rewrite IH.
    rewrite <- !app_assoc. done.
Qed.

Lemma omap_id_Some {A} (l : list A) : omap id (Some <$> l) = l.
Proof. induction l as [|x l IH]; cbn; [done|]. by rewrite IH. Qed.

Section UvlFacts.
Context `{UvlEnv}.

(** (C34) A packet of lwIP reaches the owner's output function in one call, part by
    part in order, when it has at most nine parts.  Ten parts fill the array
    and stop at the assertion, which is off by one; more are written past the
    end of the array before the assertion is reached. *)
Theorem uvl_netif_output_spec p s :
  p ≠ [] → h_output (handle s) = true →
  uvl_netif_output_func p s =
  if zlen p <? UVL_NBUF_LEN then
    Ok (if ans_output_cb (hcalls s) =? 0 then ERR_OK else ERR_IF,
        mk_uvl_state (handle s) (lwip_ready s) (hevents s ++ [Output p]) (S (hcalls s)))
  else if zlen p =? UVL_NBUF_LEN then Fail AssertFailure else Fail OutOfBounds.
Proof.
  intros Hp Ho. unfold uvl_netif_output_func.
  pose proof (collect_bufs_spec p [] 10) as E. cbn [app fmap list_fmap] in E. change (zlen []) with 0 in E.
  change (Z.to_nat UVL_NBUF_LEN) with 10%nat. unfold mbind at 1, M_bind at 1, lift. rewrite E. clear E.
  unfold UVL_NBUF_LEN. destruct (Nat.leb_spec (length p) 10) as [Hl|Hl].
  2: { replace (zlen p <? 10) with false by len_lia. by replace (zlen p =? 10) with false by len_lia. }
  destruct (Z.ltb_spec (zlen p) 10) as [Hlt|Hge].
  - erewrite bind_of_ok by done. erewrite bind_of_ok by done. rewrite Ho. erewrite bind_of_ok by done.
    unfold zlen at 1. rewrite Nat2Z.id, <- (length_fmap Some p) at 1.
    rewrite take_app_length, omap_id_Some. done.
  - by replace (zlen p =? 10) with true by len_lia.
Qed.

(** * Timers *)

Fixpoint ticks (n : nat) : UVL () := match n with O => mret () | S n => uvl_timer;; ticks n end.

Definition calls (e : uvl_event) (es : list uvl_event) : nat := length (filter (e =.) es).

Definition timer_events (mod4 : Z) : list uvl_event :=
  TcpTmr :: (if mod4 =? 0 then [IpReassTmr; Nd6Tmr; Ip6ReassTmr] else []).

Lemma uvl_timer_ok s :
  uvl_timer s = Ok ((), mk_uvl_state (set_mod4 (Z.rem (tcp_timer_mod4 (handle s) + 1) 4) (handle s)) (lwip_ready s)
    (hevents s ++ timer_events (Z.rem (tcp_timer_mod4 (handle s) + 1) 4)) (hcalls s)).
Proof.
  unfold uvl_timer, timer_events, mbind, M_bind, modify, note, gets. cbn [handle on_handle set_mod4 tcp_timer_mod4].
  case_if; [|done]. change (IP_TMR_INTERVAL =? 4 * TCP_TMR_INTERVAL) with true.
  change (ND6_TMR_INTERVAL =? 4 * TCP_TMR_INTERVAL) with true.
  change (IP6_REASS_TMR_INTERVAL =? 4 * TCP_TMR_INTERVAL) with true. cbn. by rewrite <- !app_assoc.
Qed.

(** Driven every 250 ms, the timer calls lwIP's TCP timer at every turn and the
    three reassembly and neighbour timers, which lwIP wants once per second, at
    every fourth. *)
Theorem uvl_timer_rates n s :
  0 ≤ tcp_timer_mod4 (handle s) < 4 →
  ∃ s' es, ticks n s = Ok ((), s') ∧ hevents s' = hevents s ++ es ∧
    tcp_timer_mod4 (handle s') = (tcp_timer_mod4 (handle s) + Z.of_nat n) mod 4 ∧
    calls TcpTmr es = n ∧
    Z.of_nat (calls IpReassTmr es) = (tcp_timer_mod4 (handle s) + Z.of_nat n) / 4 ∧
    calls Nd6Tmr es = calls IpReassTmr es ∧ calls Ip6ReassTmr es = calls IpReassTmr es.
Proof.
  revert s. induction n as [|n IH]; intros s Hm.
  { exists s, []. rewrite app_nil_r, Z.add_0_r, Z.mod_small, Z.div_small by lia. done. }
  cbn [ticks]. erewrite bind_of_ok by apply uvl_timer_ok.
  set (m := tcp_timer_mod4 (handle s)) in *. rewrite Z.rem_mod_nonneg by lia.
  pose proof (Z.mod_pos_bound (m + 1) 4 ltac:(lia)) as Hb.
  set (s1 := mk_uvl_state _ _ _ _).
  destruct (IH s1) as (s' & es & E & He & Hm' & H1 & H2 & H3 & H4); [done|].
  change (tcp_timer_mod4 (handle s1)) with ((m + 1) mod 4) in *. change (hevents s1) with (hevents s ++ timer_events ((m + 1) mod 4)) in *.
  exists s', (timer_events ((m + 1) mod 4) ++ es).
  assert (∀ e, calls e (timer_events ((m + 1) mod 4) ++ es) = (calls e (timer_events ((m + 1) mod 4)) + calls e es)%nat) as Hc
    by (intros; unfold calls; by rewrite list.filter_app, length_app).
  rewrite !Hc, H1, H3, H4. unfold timer_events. split_and!.
  - done.
  - rewrite He, app_assoc. done.
  - rewrite Hm', Zplus_mod_idemp_l. f_equal. lia.
  - case_if; done.
  - rewrite Nat2Z.inj_add, H2. destruct (Z.eqb_spec ((m + 1) mod 4) 0) as [E0|E0].
    + change (calls IpReassTmr [TcpTmr; IpReassTmr; Nd6Tmr; Ip6ReassTmr]) with 1%nat. assert (m = 3) as -> by (destruct (decide (m = 3)); [done|rewrite Z.mod_small in E0; lia]).
      change ((3 + 1) mod 4) with 0. replace (3 + Z.of_nat (S n)) with (Z.of_nat n + 1 * 4) by lia.
      rewrite Z.div_add, Z.add_0_l by lia. lia.
    + assert (m ≠ 3) by (intros ->; done). rewrite (Z.mod_small (m + 1)) by lia.
      change (calls IpReassTmr [TcpTmr]) with 0%nat. rewrite Z.add_0_l. f_equal. lia.
  - case_if; done.
  - case_if; done.
Qed.

(** * Input *)

Definition after (s : uvl_state) (es : list uvl_event) (n : nat) : uvl_state :=
  mk_uvl_state (handle s) (lwip_ready s) (hevents s ++ es) (n + hcalls s).

Lemma fill_chain_concat lens : ∀ bs, sum_list lens = length bs → concat (fill_chain lens bs) = bs.
Proof.
  induction lens as [|n lens IH]; intros bs Hl; cbn in *; [by destruct bs|].
  rewrite IH by (rewrite length_drop; lia). apply take_drop.
Qed.

(** (C33) [uvl_input] on every branch: the packet, whole and in the buffers lwIP
    allocated for it, goes to the IPv4 or IPv6 input by its version, and its
    buffers are given away or freed exactly once, also when a step fails.
    Packets of another version are dropped without an error. *)
Theorem uvl_input_spec buf lens b rest s :
  buf = b :: rest → match lens with n :: _ => n ≠ 0%nat | [] => False end → sum_list lens = length buf →
  ans_pbuf (hcalls s) = Some lens → is_some (the_netif (handle s)) = true →
  let p := fill_chain lens buf in
  concat p = buf ∧
  uvl_input buf s =
    if negb (ans_take (1 + hcalls s) =? ERR_OK) then Ok (-1, after s [PbufFree] 2)
    else if negb (Z.shiftr b 4 =? 4) && negb (Z.shiftr b 4 =? 6) then Ok (0, after s [PbufFree] 2)
    else
      let e := if Z.shiftr b 4 =? 4 then Ip4Input p else Ip6Input p in
      if ans_input (2 + hcalls s) =? ERR_OK then Ok (0, after s [e] 3)
      else Ok (-1, after s [e; PbufFree] 3).
Proof.
  intros -> Hlens Hsum Ha Hn p. split; [by apply fill_chain_concat|].
  destruct lens as [|[|n] lens]; [done|done|].
  unfold uvl_input. erewrite bind_of_ok by done. rewrite Ha. erewrite bind_of_ok by done. cbn [hcalls Nat.add].
  case_if; [done|]. erewrite bind_of_ok by done. cbn [handle]. rewrite Hn. erewrite bind_of_ok by done.
  unfold uvl_netif_input_func. unfold mbind at 1, M_bind at 1. erewrite lift_bind by done. cbv zeta beta iota.
  fold p. cbn [fill_chain take p]. cbv iota.
  destruct (Z.shiftr b 4 =? 4) eqn:E4; cbn [negb andb].
  { unfold note, ask, mbind, M_bind. cbn [hcalls handle lwip_ready hevents].
    destruct (ans_input _ =? ERR_OK) eqn:E5; cbn; [done|by rewrite <- app_assoc]. }
  destruct (Z.shiftr b 4 =? 6) eqn:E6; cbn [negb andb]; [|done].
  unfold note, ask, mbind, M_bind. cbn [hcalls handle lwip_ready hevents].
  destruct (ans_input _ =? ERR_OK) eqn:E5; cbn; [done|by rewrite <- app_assoc].
Qed.

(** * Connections *)

(** A connection that waits is bound to the object the owner offers: the object
    starts a session, knows both ends of the connection, its ports in network
    order, and nothing waits any more. *)
Theorem uvl_accept_opens_session `{TcpEnv} s np jl jr junk c n k l r :
  waiting_pcb (handle s) = Some np → np_local_ip np = IPv4 l → np_remote_ip np = IPv4 r →
  0 ≤ snd_buf (np_pcb np) → unacked (np_pcb np) = 0 →
  zlen junk = UVL_TCP_RECV_BUF_LEN → uvl_tcp_init junk (mk_conn c ∅ [] n) = Ok (0, k) →
  ∃ k', uvl_accept jl jr k s = Ok ((0, k'), on_handle (set_waiting None) s) ∧ session [] [] k' ∧
    local_addr (client k') = mk_sockaddr AF_INET l (htons (np_local_port np)) ∧
    remote_addr (client k') = mk_sockaddr AF_INET r (htons (np_remote_port np)) ∧
    ∃ p, pcb (client k') = Some p ∧ snd_buf p = snd_buf (np_pcb np) ∧ callbacks p = true.
Proof.
  intros Hw Hl Hr Hs Hu Hj Hk. eexists. split.
  { unfold uvl_accept. erewrite bind_of_ok by done. rewrite Hw. erewrite bind_of_ok by done.
    rewrite Hl, Hr. cbn [addr_from_lwip]. done. }
  split_and!; [|done|done|by eexists].
  eapply (session_open junk (np_pcb np) _ _ c n); [done..|].
  unfold open_conn. erewrite bind_of_ok by exact Hk. done.
Qed.

(** * Life cycle *)

(** The owner that only takes note of the end. *)
Definition ignore_close (cb : positive) : UVL () := mret ().

Definition start (junk : netif) : UVL (Z * Z) :=
  r ← uvl_init junk; _ ← uvl_bind; r' ← uvl_listen; mret (r, r').

(** (C38) Starting and stopping the interface.  When the outside calls succeed, the
    interface [ho0] is up with an MTU of 1300, takes connections for every
    address and is the default one; closing releases the listener, the
    interface and the timer, and the owner hears of it once the timer is
    closed, once. *)
Theorem uvl_start_stop junk s l l' cb :
  ans_timer (hcalls s) = 0 → ans_timer (1 + hcalls s) = 0 → ans_netif_add (2 + hcalls s) = true →
  ans_tcp_new (3 + hcalls s) = Some l → ans_bind (4 + hcalls s) = ERR_OK → ans_listen (5 + hcalls s) = Some l' →
  ans_tcp_close (6 + hcalls s) = ERR_OK →
  ∃ s1 s2 s3, start junk s = Ok ((0, 0), s1) ∧
    the_netif (handle s1) = Some (mk_netif [104; 111] 0 1300 true true true true) ∧
    listener (handle s1) = Some l' ∧ h_output (handle s1) = true ∧
    hevents s1 = hevents s ++ [TimerInit; TimerStart 0 250] ++ (if lwip_ready s then [] else [LwipInit]) ++
      [NetifAdd; SetDefault; TcpNew l; BindToNetif l; TcpListen l; TcpAccept l'] ∧
    uvl_close ignore_close (Some cb) s1 = Ok (0, s2) ∧ uvl_timer_close_cb ignore_close s2 = Ok ((), s3) ∧
    listener (handle s3) = None ∧ the_netif (handle s3) = None ∧
    hevents s3 = hevents s1 ++ [ClosePcb l'; NetifRemove; FreeNetif; TimerStop; TimerClose; CloseHandleCb cb].
Proof.
  destruct s as [h ready ev n]. cbn [hcalls hevents lwip_ready Nat.add]. intros H1 H2 H3 H4 H5 H6 H7.
  destruct ready; (do 3 eexists; split_and!;
    [unfold start, uvl_init, uvl_init_lwip, netif_add, uvl_bind, uvl_listen, mbind, M_bind, ask, note, gets, modify, mret, M_ret;
     cbn; rewrite H1; cbn; rewrite H2; cbn; rewrite H3; cbn; rewrite H4; cbn; rewrite H5; cbn; rewrite H6; cbn; reflexivity
    |done|done|done|cbn; by rewrite <- !app_assoc
    |unfold uvl_close, mbind, M_bind, ask, note, gets, modify, mret, M_ret; cbn; rewrite H7; cbn; reflexivity
    |unfold uvl_timer_close_cb, mbind, M_bind, note, gets; cbn; reflexivity
    |done|done|cbn; by rewrite <- !app_assoc]).
Qed.

(** [uvl_close] tests a flag that nothing sets: closing a second time does not
    report at once that the handle is closed, as the test means to, but stops
    and closes the timer again, which libuv does not allow. *)
Theorem uvl_close_twice s cb :
  h_closed (handle s) = false → listener (handle s) = None → the_netif (handle s) = None →
  ∃ s1 s2, uvl_close ignore_close (Some cb) s = Ok (0, s1) ∧ uvl_close ignore_close (Some cb) s1 = Ok (0, s2) ∧
    hevents s2 = hevents s ++ [TimerStop; TimerClose; TimerStop; TimerClose].
Proof.
  destruct s as [h ready ev n]. destruct h. cbn. intros -> -> ->.
  do 2 eexists. split_and!; [reflexivity|reflexivity|]. cbn. by rewrite <- !app_assoc.
Qed.
End UvlFacts.

(** * Examples *)

Definition calm_lwip : UvlEnv := {|
  ans_timer := λ _, 0; ans_netif_add := λ _, true; ans_tcp_new := λ _, Some 1%positive; ans_bind := λ _, ERR_OK;
  ans_listen := λ _, Some 2%positive; ans_tcp_close := λ _, ERR_OK; ans_output_cb := λ _, 0;
  ans_pbuf := λ _, Some [2; 1]%nat; ans_take := λ _, ERR_OK; ans_input := λ _, ERR_OK |}.
Definition zero_netif : netif := mk_netif [0; 0] 0 0 false false false false.
Definition example_handle : uvl_t :=
  mk_uvl true true None (Some zero_netif) (Some 2%positive)
    (Some (mk_new_pcb 3 (mk_pcb 16384 0 false) (IPv4 [10; 13; 0; 1]) 80 (IPv4 [10; 13; 2; 3]) 4660)) 1 false.
Definition example_state : uvl_state := mk_uvl_state example_handle true [] 0.

Lemma uvl_netif_output_spec_witness :
  @uvl_netif_output_func calm_lwip (replicate 10 [1]) example_state = Fail AssertFailure.
Proof. rewrite (@uvl_netif_output_spec calm_lwip); [reflexivity|discriminate|reflexivity]. Defined.

Lemma uvl_timer_rates_witness :
  ∃ s' es, @ticks 10 example_state = Ok ((), s') ∧ hevents s' = es ∧ calls TcpTmr es = 10%nat ∧
    Z.of_nat (calls IpReassTmr es) = 2.
Proof.
  destruct (uvl_timer_rates 10 example_state) as (s' & es & E & He & _ & H1 & H2 & _);
    [split; [discriminate|reflexivity]|].
  exists s', es. split_and!; [exact E|rewrite He; reflexivity|exact H1|rewrite H2; reflexivity].
Defined.

Lemma uvl_input_spec_witness :
  @uvl_input calm_lwip [69; 0; 7] example_state = Ok (0, after example_state [Ip4Input [[69; 0]; [7]]] 3).
Proof.
  rewrite (proj2 (@uvl_input_spec calm_lwip [69; 0; 7] [2; 1]%nat 69 [0; 7] example_state
    eq_refl ltac:(discriminate) eq_refl eq_refl eq_refl)). reflexivity.
Defined.

Lemma uvl_accept_opens_session_witness :
  ∃ k, @session quiet_lwip [] [] k ∧ sin_port (remote_addr (client k)) = 13330.
Proof.
  destruct (@uvl_accept_opens_session quiet_lwip example_state
    (mk_new_pcb 3 (mk_pcb 16384 0 false) (IPv4 [10; 13; 0; 1]) 80 (IPv4 [10; 13; 2; 3]) 4660)
    [0; 0; 0; 0] [0; 0; 0; 0] (replicate 2048 0) idle_client 0
    (mk_conn (mk_tcp (Some (mk_buf (replicate 2048 0) 0)) None None false false false None None no_addr no_addr 0 0 0) ∅ [] 2)
    [10; 13; 0; 1] [10; 13; 2; 3] eq_refl eq_refl eq_refl ltac:(discriminate) eq_refl eq_refl eq_refl)
    as (k & _ & Hs & _ & Hr & _).
  exists k. split; [exact Hs|]. rewrite Hr. reflexivity.
Defined.

Lemma uvl_start_stop_witness :
  ∃ s1 s2 s3, @start calm_lwip zero_netif example_state = Ok ((0, 0), s1) ∧
    @uvl_close calm_lwip ignore_close (Some 7%positive) s1 = Ok (0, s2) ∧
    uvl_timer_close_cb ignore_close s2 = Ok ((), s3) ∧ the_netif (handle s3) = None.
Proof.
  destruct (@uvl_start_stop calm_lwip zero_netif example_state 1 2 7 eq_refl eq_refl eq_refl eq_refl eq_refl eq_refl eq_refl)
    as (s1 & s2 & s3 & E1 & _ & _ & _ & _ & E2 & E3 & _ & Hn & _).
  exists s1, s2, s3. split_and!; [exact E1|exact E2|exact E3|exact Hn].
Defined.

Definition closed_handle_state : uvl_state := mk_uvl_state (mk_uvl true true None None None None 0 false) true [] 0.

Lemma uvl_close_twice_witness :
  ∃ s1 s2, @uvl_close calm_lwip ignore_close (Some 7%positive) closed_handle_state = Ok (0, s1) ∧
    @uvl_close calm_lwip ignore_close (Some 7%positive) s1 = Ok (0, s2) ∧
    hevents s2 = [TimerStop; TimerClose; TimerStop; TimerClose].
Proof. exact (@uvl_close_twice calm_lwip closed_handle_state 7 eq_refl eq_refl eq_refl). Defined.
