(* ===== verification/LwipChksum.v ===== *)
(** The Internet checksum of lwIP ([lwip/src/core/inet_chksum.c]) as the
    gateway builds it: little-endian, the second version of the routine, IPv4
    and IPv6.  It sums the data as it lies in memory and swaps the bytes of the
    sum where the data starts at an odd address or a part of the chain has an
    odd length; the result is the checksum of RFC 1071 in network order. *)
From S2P Require Import Prelude.
From S2P Require Import NetBytes.
From S2P Require Import Types.
From S2P Require Import Checksum.
From S2P Require Import UvLwip.

(** * The program *)

(** What the checksum reads of a [struct pbuf]: address, readable bytes and
    length of its part of the packet.  A chain is the list of its parts. *)
Record pbuf := mk_pbuf { p_addr : Z; p_payload : list Z; p_len : Z }.

Definition FOLD_U32T (u : Z) : Z := u32 (Z.shiftr u 16 + Z.land u 0xffff).
Definition SWAP_BYTES_IN_WORD (w : Z) : Z :=
  Z.lor (Z.shiftl (Z.land w 0xff) 8) (Z.shiftr (Z.land w 0xff00) 8).

(** [while (len > 1) { sum += *ps++; len -= 2; }] *)
Fixpoint sum_shorts (ps : list Z) (len sum : Z) : result (list Z * Z * Z) :=
  if len >? 1 then
    match ps with
    | x :: y :: t => sum_shorts t (len - 2) (u32 (sum + le_load [x; y]))
    | _ => Fail OutOfBounds
    end
  else Ok (ps, len, sum).

(** [lwip_standard_chksum] of the bytes at address [addr]. *)
Definition lwip_standard_chksum (addr : Z) (dataptr : list Z) (len : Z) : result Z :=
  let odd := Z.odd addr in
  '(t1, pb, len) ← (if odd && (len >? 0) then
                      b ← arr_get dataptr 0; Ok (b, drop 1 dataptr, len - 1)
                    else Ok (0, dataptr, len));
  '(ps, len, sum) ← sum_shorts pb len 0;
  t0 ← (if len >? 0 then arr_get ps 0 else Ok 0);
  let sum := u32 (sum + le_load [t0; t1]) in
  let sum := FOLD_U32T (FOLD_U32T sum) in
  let sum := if odd then SWAP_BYTES_IN_WORD sum else sum in
  Ok (u16 sum).

(** [LWIP_CHKSUM] of a part of a packet. *)
Definition LWIP_CHKSUM (q : pbuf) (len : Z) : result Z := lwip_standard_chksum (p_addr q) (p_payload q) len.

(** The loop over the chain: whether the sum is swapped, and the sum. *)
Fixpoint chain_sum (p : list pbuf) (swapped : bool) (acc : Z) : result (bool * Z) :=
  match p with
  | [] => Ok (swapped, acc)
  | q :: p =>
      c ← LWIP_CHKSUM q (p_len q);
      let acc := FOLD_U32T (u32 (acc + c)) in
      if negb (Z.rem (p_len q) 2 =? 0) then chain_sum p (negb swapped) (SWAP_BYTES_IN_WORD acc)
      else chain_sum p swapped acc
  end.

(** What both pseudo header routines do after the loop. *)
Definition pseudo_finish (proto proto_len : Z) (swapped : bool) (acc : Z) : Z :=
  let acc := if swapped then SWAP_BYTES_IN_WORD acc else acc in
  let acc := u32 (acc + htons proto) in
  let acc := u32 (acc + htons proto_len) in
  let acc := FOLD_U32T (FOLD_U32T acc) in
  u16 (Z.lnot (Z.land acc 0xffff)).

Definition inet_cksum_pseudo_base (p : list pbuf) (proto proto_len acc : Z) : result Z :=
  '(swapped, acc) ← chain_sum p false acc;
  Ok (pseudo_finish proto proto_len swapped acc).

(** Both halves of a 32-bit word are added. *)
Definition add_halves (acc addr : Z) : Z :=
  u32 (u32 (acc + Z.land addr 0xffff) + Z.land (Z.shiftr addr 16) 0xffff).

Definition fold_addrs_4 (src dest : list Z) : Z :=
  let acc := add_halves (add_halves 0 (le_load src)) (le_load dest) in
  FOLD_U32T (FOLD_U32T acc).

Definition inet_chksum_pseudo (p : list pbuf) (proto proto_len : Z) (src dest : list Z) : result Z :=
  inet_cksum_pseudo_base p proto proto_len (fold_addrs_4 src dest).

(** The loop over the four words of two IPv6 addresses. *)
Fixpoint addrs_6 (n : nat) (src dest : list Z) (acc : Z) : Z :=
  match n with
  | O => acc
  | S n => addrs_6 n (drop 4 src) (drop 4 dest) (add_halves (add_halves acc (load32 src)) (load32 dest))
  end.

Definition fold_addrs_6 (src dest : list Z) : Z := FOLD_U32T (FOLD_U32T (addrs_6 4 src dest 0)).

Definition ip6_chksum_pseudo (p : list pbuf) (proto proto_len : Z) (src dest : list Z) : result Z :=
  inet_cksum_pseudo_base p proto proto_len (fold_addrs_6 src dest).

(** The bytes of an address; [ip_2_ip4] and [ip_2_ip6] read the same union. *)
Definition addr_bytes (a : ip_addr) : list Z := match a with IPv4 b | IPv6 b => b end.
Definition IP_IS_V6 (a : ip_addr) : bool := match a with IPv6 _ => true | IPv4 _ => false end.

Definition ip_chksum_pseudo (p : list pbuf) (proto proto_len : Z) (src dest : ip_addr) : result Z :=
  if IP_IS_V6 dest then ip6_chksum_pseudo p proto proto_len (addr_bytes src) (addr_bytes dest)
  else inet_chksum_pseudo p proto proto_len (addr_bytes src) (addr_bytes dest).

(** The loop over the first [chksum_len] bytes of the chain. *)
Fixpoint chain_sum_partial (p : list pbuf) (chksum_len : Z) (swapped : bool) (acc : Z) : result (bool * Z) :=
  match p with
  | [] => Ok (swapped, acc)
  | q :: p =>
      if chksum_len >? 0 then
        let chklen := if p_len q >? chksum_len then chksum_len else p_len q in
        c ← LWIP_CHKSUM q chklen;
        let chksum_len := u16 (chksum_len - chklen) in
        if negb (chksum_len <? 0x7fff) then Fail AssertFailure
        else
          let acc := FOLD_U32T (u32 (acc + c)) in
          if negb (Z.rem (p_len q) 2 =? 0) then chain_sum_partial p chksum_len (negb swapped) (SWAP_BYTES_IN_WORD acc)
          else chain_sum_partial p chksum_len swapped acc
      else Ok (swapped, acc)
  end.

Definition inet_cksum_pseudo_partial_base (p : list pbuf) (proto proto_len chksum_len acc : Z) : result Z :=
  '(swapped, acc) ← chain_sum_partial p chksum_len false acc;
  Ok (pseudo_finish proto proto_len swapped acc).

Definition inet_chksum_pseudo_partial (p : list pbuf) (proto proto_len chksum_len : Z) (src dest : list Z) : result Z :=
  inet_cksum_pseudo_partial_base p proto proto_len chksum_len (fold_addrs_4 src dest).

Definition ip6_chksum_pseudo_partial (p : list pbuf) (proto proto_len chksum_len : Z) (src dest : list Z) : result Z :=
  inet_cksum_pseudo_partial_base p proto proto_len chksum_len (fold_addrs_6 src dest).

Definition ip_chksum_pseudo_partial (p : list pbuf) (proto proto_len chksum_len : Z) (src dest : ip_addr) : result Z :=
  if IP_IS_V6 dest then ip6_chksum_pseudo_partial p proto proto_len chksum_len (addr_bytes src) (addr_bytes dest)
  else inet_chksum_pseudo_partial p proto proto_len chksum_len (addr_bytes src) (addr_bytes dest).

Definition inet_chksum (addr : Z) (dataptr : list Z) (len : Z) : result Z :=
  c ← lwip_standard_chksum addr dataptr len; Ok (u16 (Z.lnot c)).

Definition inet_chksum_pbuf (p : list pbuf) : result Z :=
  '(swapped, acc) ← chain_sum p false 0;
  let acc := if (swapped : bool) then SWAP_BYTES_IN_WORD acc else acc in
  Ok (u16 (Z.lnot (Z.land acc 0xffff))).

(** * One's complement arithmetic *)

(** [a] and [b] represent the same one's complement number. *)
Definition oc_eq (a b : Z) : Prop :=
  0 ≤ a ∧ 0 ≤ b ∧ (∃ k, a = b + 65535 * k) ∧ (a = 0 ↔ b = 0).

Lemma oc_eq_refl a : 0 ≤ a → oc_eq a a.
Proof. intros. split_and!; [done..|by exists 0; lia|done]. Qed.
Lemma oc_eq_sym a b : oc_eq a b → oc_eq b a.
Proof. intros (? & ? & [k ->] & ?). split_and!; [done..|exists (-k); lia|tauto]. Qed.
Lemma oc_eq_trans a b c : oc_eq a b → oc_eq b c → oc_eq a c.
Proof. intros (? & ? & [k ->] & ?) (_ & ? & [j ->] & ?). split_and!; [done..|exists (k + j); lia|tauto]. Qed.
Lemma oc_eq_add a a' b b' : oc_eq a a' → oc_eq b b' → oc_eq (a + b) (a' + b').
Proof.
  intros (? & ? & [k Hk] & ?) (? & ? & [j Hj] & ?). split_and!; [lia..|exists (k + j); lia|lia].
Qed.
Lemma oc_eq_mul c a b : 0 < c → oc_eq a b → oc_eq (c * a) (c * b).
Proof. intros Hc (? & ? & [k Hk] & ?). split_and!; [nia..|exists (c * k); nia|nia]. Qed.
(** Multiplying by [65536] changes nothing. *)
Lemma oc_eq_shift a : 0 ≤ a → oc_eq (65536 * a) a.
Proof. intros. split_and!; [lia..|exists a; lia|lia]. Qed.
Lemma oc_eq_repr s : 0 ≤ s → oc_eq (oc_repr s) s.
Proof.
  intros Hs. pose proof (oc_repr_range s Hs). unfold oc_repr in *. destruct (Z.eqb_spec s 0) as [->|Hn].
  - by apply oc_eq_refl.
  - pose proof (Z.mod_pos_bound (s - 1) 65535 ltac:(lia)). split_and!; [lia..| |lia].
    exists (- ((s - 1) / 65535)). pose proof (Z.div_mod (s - 1) 65535 ltac:(lia)). lia.
Qed.
Lemma oc_eq_small a b : oc_eq a b → a ≤ 65535 → b ≤ 65535 → a = b.
Proof.
  intros (Ha & Hb & [k Hk] & Hz) H1 H2. destruct (decide (k = 0)) as [->|]; [lia|].
  assert (k = 1 ∨ k = -1) as [-> | ->] by lia; lia.
Qed.
(** The canonical representative. *)
Lemma oc_eq_is_repr a s : oc_eq a s → a ≤ 65535 → a = oc_repr s.
Proof.
  intros Ha Hl. pose proof Ha as (H1 & H2 & _). pose proof (oc_repr_range s H2).
  apply oc_eq_small; [|lia..]. eapply oc_eq_trans; [exact Ha|]. by apply oc_eq_sym, oc_eq_repr.
Qed.

Lemma FOLD_div u : 0 ≤ u < 4294967296 → FOLD_U32T u = u / 65536 + u mod 65536.
Proof.
  intros Hu. unfold FOLD_U32T. rewrite Z.shiftr_div_pow2 by lia.
  change 0xffff with (Z.ones 16). rewrite Z.land_ones by lia. change (2 ^ 16) with 65536.
  pose proof (Z.mod_pos_bound u 65536 ltac:(lia)). pose proof (Z.div_lt_upper_bound u 65536 65536 ltac:(lia) ltac:(lia)).
  pose proof (Z.div_pos u 65536 ltac:(lia) ltac:(lia)). by rewrite u32_small by lia.
Qed.

Lemma FOLD_oc u : 0 ≤ u < 4294967296 → oc_eq (FOLD_U32T u) u ∧ FOLD_U32T u ≤ 131070.
Proof.
  intros Hu. rewrite FOLD_div by done.
  pose proof (Z.mod_pos_bound u 65536 ltac:(lia)). pose proof (Z.div_lt_upper_bound u 65536 65536 ltac:(lia) ltac:(lia)).
  pose proof (Z.div_pos u 65536 ltac:(lia) ltac:(lia)). pose proof (Z.div_mod u 65536 ltac:(lia)).
  split; [|lia]. split_and!; [lia..|exists (- (u / 65536)); lia|lia].
Qed.

(** One fold is enough below [2 * 65535], two always. *)
Lemma FOLD_once u : 0 ≤ u ≤ 131070 → oc_eq (FOLD_U32T u) u ∧ FOLD_U32T u ≤ 65535.
Proof.
  intros Hu. destruct (FOLD_oc u ltac:(lia)) as [Ho _]. split; [done|]. rewrite FOLD_div by lia.
  pose proof (Z.mod_pos_bound u 65536 ltac:(lia)). pose proof (Z.div_mod u 65536 ltac:(lia)). lia.
Qed.
Lemma FOLD_twice u : 0 ≤ u < 4294967296 → FOLD_U32T (FOLD_U32T u) = oc_repr u.
Proof.
  intros Hu. destruct (FOLD_oc u Hu) as [Ho Hl]. pose proof Ho as (H0 & _).
  destruct (FOLD_once (FOLD_U32T u) ltac:(lia)) as [Ho' Hl'].
  apply oc_eq_is_repr; [|done]. by eapply oc_eq_trans.
Qed.

Lemma SWAP_val w : 0 ≤ w ≤ 65535 → SWAP_BYTES_IN_WORD w = w mod 256 * 256 + w / 256.
Proof.
  intros Hw. unfold SWAP_BYTES_IN_WORD.
  assert (Z.land w 0xff = w mod 256) as -> by (change 0xff with (Z.ones 8); by rewrite Z.land_ones by lia).
  assert (Z.shiftr (Z.land w 0xff00) 8 = w / 256) as ->.
  { rewrite Z.shiftr_land. change (Z.shiftr 0xff00 8) with (Z.ones 8). rewrite Z.land_ones, Z.shiftr_div_pow2 by lia.
    change (2 ^ 8) with 256. apply Z.mod_small. split; [apply Z.div_pos; lia|apply Z.div_lt_upper_bound; lia]. }
  rewrite Z.shiftl_mul_pow2 by lia. change (2 ^ 8) with 256.
  pose proof (Z.mod_pos_bound w 256 ltac:(lia)).
  assert (0 ≤ w / 256 < 256) by (split; [apply Z.div_pos; lia|apply Z.div_lt_upper_bound; lia]).
  transitivity (Z.lor (0 + 256 * (w mod 256)) (w / 256 + 256 * 0)); [f_equal; lia|].
  rewrite lor_byte_split, Z.lor_0_l, Z.lor_0_r by lia. lia.
Qed.

(** Swapping the bytes multiplies by [256]. *)
Lemma SWAP_oc w : 0 ≤ w ≤ 65535 → oc_eq (SWAP_BYTES_IN_WORD w) (256 * w) ∧ 0 ≤ SWAP_BYTES_IN_WORD w ≤ 65535.
Proof.
  intros Hw. rewrite SWAP_val by done. pose proof (Z.mod_pos_bound w 256 ltac:(lia)).
  assert (0 ≤ w / 256 < 256) by (split; [apply Z.div_pos; lia|apply Z.div_lt_upper_bound; lia]).
  pose proof (Z.div_mod w 256 ltac:(lia)).
  split; [|lia]. split_and!; [lia..|exists (- (w / 256)); lia|lia].
Qed.

(** * Sums of bytes *)

(** The value of the words the routine adds, the last one padded. *)
Fixpoint lsum (bs : list Z) : Z :=
  match bs with x :: y :: t => le_load [x; y] + lsum t | [x] => x | [] => 0 end.

Lemma le_load_app a b : le_load (a ++ b) = le_load a + 256 ^ zlen a * le_load b.
Proof.
  induction a as [|x a IH]; [change (zlen []) with 0; cbn [app le_load]; lia|]. cbn [app le_load]. rewrite IH.
  unfold zlen. cbn [length]. rewrite Nat2Z.inj_succ, Z.pow_succ_r by lia. ring.
Qed.

Lemma le_load_nonneg bs : bytes_ok bs → 0 ≤ le_load bs.
Proof. intros H. apply (le_load_range bs H). Qed.

Lemma oc_eq_cons2 x y t s :
  byte_ok x → byte_ok y → 0 ≤ le_load t → oc_eq s (le_load t) →
  oc_eq (le_load [x; y] + s) (le_load (x :: y :: t)).
Proof.
  intros Hx Hy Ht Hs. cbn [le_load]. unfold byte_ok in *.
  replace (x + 256 * (y + 256 * le_load t)) with ((x + 256 * (y + 256 * 0)) + 65536 * le_load t) by lia.
  apply oc_eq_add; [apply oc_eq_refl; lia|]. eapply oc_eq_trans; [exact Hs|]. apply oc_eq_sym, oc_eq_shift. lia.
Qed.

(** The sum represents the data read as one little-endian number. *)
Lemma lsum_oc bs : bytes_ok bs → oc_eq (lsum bs) (le_load bs).
Proof.
  induction bs as [bs IH] using (induction_ltof1 _ length). intros Hb.
  destruct bs as [|x [|y t]]; cbn [lsum].
  - by apply oc_eq_refl.
  - apply Forall_cons_iff in Hb as [Hx _]. unfold byte_ok in Hx. cbn [le_load].
    rewrite Z.mul_0_r, Z.add_0_r. apply oc_eq_refl. lia.
  - apply Forall_cons_iff in Hb as [Hx [Hy Hb]%Forall_cons_iff].
    apply oc_eq_cons2; [done..|by apply le_load_nonneg|]. apply IH; [unfold ltof; cbn; lia|done].
Qed.

(** So do the words in network order, swapped. *)
Lemma words_oc bs : bytes_ok bs → oc_eq (256 * zsum (Rfc1071.words bs)) (le_load bs).
Proof.
  induction bs as [bs IH] using (induction_ltof1 _ length). intros Hb.
  destruct bs as [|x [|y t]]; cbn [Rfc1071.words zsum].
  - by apply oc_eq_refl.
  - apply Forall_cons_iff in Hb as [Hx _]. unfold byte_ok in Hx. cbn [le_load].
    replace (256 * (x * 256 + 0)) with (65536 * x) by lia. rewrite Z.mul_0_r, Z.add_0_r. apply oc_eq_shift. lia.
  - apply Forall_cons_iff in Hb as [Hx [Hy Hb]%Forall_cons_iff].
    pose proof (IH t ltac:(unfold ltof; cbn; lia) Hb) as Ht.
    eapply oc_eq_trans; [|apply (oc_eq_cons2 x y t); [done..|by apply le_load_nonneg|exact Ht]].
    unfold byte_ok in *. cbn [le_load]. pose proof Ht as (H0 & _).
    replace (256 * (x * 256 + y + zsum (Rfc1071.words t)))
      with ((256 * y + 65536 * x) + 256 * zsum (Rfc1071.words t)) by lia.
    apply oc_eq_add; [|apply oc_eq_refl; lia].
    replace (x + 256 * (y + 256 * 0)) with (256 * y + x) by lia.
    apply oc_eq_add; [apply oc_eq_refl; lia|apply oc_eq_shift; lia].
Qed.

Lemma lsum_bound bs : bytes_ok bs → 0 ≤ lsum bs ≤ 65535 * ((zlen bs + 1) / 2).
Proof.
  induction bs as [bs IH] using (induction_ltof1 _ length). intros Hb.
  destruct bs as [|x [|y t]]; cbn [lsum le_load].
  - split; vm_compute; discriminate.
  - apply Forall_cons_iff in Hb as [Hx _]. unfold byte_ok in Hx. change ((zlen [x] + 1) / 2) with 1. lia.
  - apply Forall_cons_iff in Hb as [Hx [Hy Hb]%Forall_cons_iff]. unfold byte_ok in *.
    pose proof (IH t ltac:(unfold ltof; cbn; lia) Hb) as Ht.
    replace (zlen (x :: y :: t) + 1) with (zlen t + 1 + 1 * 2) by (unfold zlen; cbn [length]; lia).
    rewrite Z.div_add by lia. lia.
Qed.

Lemma lsum_even_app a b : Nat.Even (length a) → lsum (a ++ b) = lsum a + lsum b.
Proof.
  intros [k Hk]. revert a Hk. induction k as [|k IH]; intros a Hk.
  - by destruct a.
  - destruct a as [|x [|y t]]; simpl in Hk; try lia. cbn [app lsum]. rewrite IH by lia. lia.
Qed.

Lemma sum_shorts_ok bs rest sum r :
  bytes_ok bs → Nat.Even (length bs) → 0 ≤ sum → sum + lsum bs < 4294967296 → 0 ≤ r ≤ 1 →
  sum_shorts (bs ++ rest) (zlen bs + r) sum = Ok (rest, r, sum + lsum bs).
Proof.
  intros Hb [k Hk]. revert bs Hk Hb sum. induction k as [|k IH]; intros bs Hk Hb sum Hs Hlt Hr.
  - destruct bs; [|simpl in Hk; lia]. cbn [lsum app] in *.
    change (zlen [] + r) with r. rewrite Z.add_0_r.
    destruct rest; cbn [sum_shorts]; destruct (Z.gtb_spec r 1); (lia || done).
  - destruct bs as [|x [|y t]]; simpl in Hk; try lia.
    apply Forall_cons_iff in Hb as [Hx [Hy Hb]%Forall_cons_iff]. unfold byte_ok in *.
    pose proof (lsum_bound t Hb) as Ht. cbn [app sum_shorts lsum] in *.
    destruct (Z.gtb_spec (zlen (x :: y :: t) + r) 1); [|unfold zlen in *; simpl in *; lia].
    assert (0 ≤ le_load [x; y]) by (cbn [le_load]; lia).
    rewrite u32_small by lia.
    replace (zlen (x :: y :: t) + r - 2) with (zlen t + r) by (unfold zlen; simpl; lia).
    rewrite (IH t) by (done || lia). do 2 f_equal. lia.
Qed.

(** * The routine *)

(** The word loop with both end bytes. *)
Lemma sum_ends bs rest t1 (k : Z → result Z) :
  bytes_ok bs → byte_ok t1 → zlen bs ≤ 131072 → lsum bs + 256 * t1 < 4294967296 →
  ('(ps, len, sum) ← sum_shorts (bs ++ rest) (zlen bs) 0;
   t0 ← (if len >? 0 then arr_get ps 0 else Ok 0);
   k (u32 (sum + le_load [t0; t1]))) = k (lsum bs + 256 * t1).
Proof.
  intros Hb Ht1 Hl Hlt. pose proof (lsum_bound bs Hb) as Hs. unfold byte_ok in Ht1.
  destruct (even_split bs) as [He|(m & x & -> & He)].
  - rewrite <- (Z.add_0_r (zlen bs)), sum_shorts_ok by (done || lia). cbn [mbind result_bind].
    change (0 >? 0) with false. cbv iota. cbn [mbind result_bind le_load].
    rewrite u32_small by lia. f_equal. lia.
  - apply Forall_app in Hb as [Hm [Hx _]%Forall_cons_iff]. unfold byte_ok in Hx.
    rewrite lsum_even_app in * by done. cbn [lsum] in *. pose proof (lsum_bound m Hm).
    replace (zlen (m ++ [x])) with (zlen m + 1) by (unfold zlen; rewrite length_app; cbn [length]; lia).
    rewrite <- app_assoc, sum_shorts_ok by (done || lia). cbn [mbind result_bind app].
    change (1 >? 0) with true. cbv iota. change (arr_get (x :: rest) 0) with (Ok x). cbn [mbind result_bind le_load].
    rewrite u32_small by lia. f_equal. lia.
Qed.

Lemma oc_repr_u16 s : 0 ≤ s → u16 (oc_repr s) = oc_repr s.
Proof. intros. pose proof (oc_repr_range s). apply u16_small. lia. Qed.

(** Swapping a representative. *)
Lemma SWAP_repr s s' : 0 ≤ s → oc_eq (256 * s) s' → SWAP_BYTES_IN_WORD (oc_repr s) = oc_repr s'.
Proof.
  intros Hs He. pose proof (oc_repr_range s Hs) as Hr. destruct (SWAP_oc (oc_repr s) ltac:(lia)) as [Ho Hl].
  apply oc_eq_is_repr; [|lia]. eapply oc_eq_trans; [exact Ho|]. eapply oc_eq_trans; [|exact He].
  apply oc_eq_mul; [lia|]. by apply oc_eq_repr.
Qed.

Lemma oc_repr_oc a b : oc_eq a b → oc_repr a = oc_repr b.
Proof.
  intros H. pose proof H as (Ha & _). apply oc_eq_is_repr; [|pose proof (oc_repr_range a); lia].
  eapply oc_eq_trans; [by apply oc_eq_repr|done].
Qed.

Lemma standard_chksum_ok addr bs rest :
  bytes_ok bs → zlen bs ≤ 131072 →
  lwip_standard_chksum addr (bs ++ rest) (zlen bs) = Ok (oc_repr (le_load bs)).
Proof.
  intros Hb Hl. pose proof (lsum_bound bs Hb) as Hs. pose proof (le_load_nonneg bs Hb) as Hn.
  assert ((zlen bs + 1) / 2 ≤ 65536) as H2.
  { transitivity ((131072 + 1) / 2); [apply Z.div_le_mono; lia|done]. }
  unfold lwip_standard_chksum. destruct (Z.odd addr); cbn [andb].
  - destruct bs as [|b bs].
    { cbn [app mbind result_bind]. change (zlen []) with 0. change (0 >? 0) with false. cbv iota.
      cbn [mbind result_bind]. destruct rest; done. }
    destruct (Z.gtb_spec (zlen (b :: bs)) 0); [|unfold zlen in *; cbn [length] in *; lia].
    change (arr_get ((b :: bs) ++ rest) 0) with (Ok b). cbn [mbind result_bind app drop].
    replace (zlen (b :: bs) - 1) with (zlen bs) by (unfold zlen; cbn [length]; lia).
    apply Forall_cons_iff in Hb as [Hb0 Hb]. pose proof (lsum_bound bs Hb) as Hs'.
    assert (zlen bs ≤ 131071) as Hl' by (unfold zlen in *; cbn [length] in *; lia).
    assert ((zlen bs + 1) / 2 ≤ 65536) as H2'.
    { transitivity ((131071 + 1) / 2); [apply Z.div_le_mono; lia|done]. }
    pose proof Hb0 as Hb0'. unfold byte_ok in Hb0'.
    etransitivity; [apply (sum_ends bs rest b (λ sum, Ok (u16 (SWAP_BYTES_IN_WORD (FOLD_U32T (FOLD_U32T sum))))));
      (done || lia)|]. cbv beta. rewrite FOLD_twice by lia.
    rewrite (SWAP_repr _ (le_load (b :: bs))); [by rewrite oc_repr_u16|lia|].
    cbn [le_load]. replace (256 * (lsum bs + 256 * b)) with (65536 * b + 256 * lsum bs) by lia.
    apply oc_eq_add; [apply oc_eq_shift; lia|]. apply oc_eq_mul; [lia|]. by apply lsum_oc.
  - cbn [mbind result_bind].
    etransitivity; [apply (sum_ends bs rest 0 (λ sum, Ok (u16 (FOLD_U32T (FOLD_U32T sum)))));
      (done || apply byte_ok_0 || lia)|]. cbv beta. rewrite FOLD_twice by lia. rewrite Z.mul_0_r, Z.add_0_r, (oc_repr_oc _ _ (lsum_oc bs Hb)).
    by rewrite oc_repr_u16.
Qed.

(** Sums of RFC 1071 in network order. *)
Lemma htons_val x : 0 ≤ x ≤ 65535 → htons x = x mod 256 * 256 + x / 256.
Proof.
  intros Hx. unfold htons, le_store. rewrite be_load2. f_equal. apply Z.mod_small.
  split; [apply Z.div_pos; lia|apply Z.div_lt_upper_bound; lia].
Qed.

Lemma htons_ocsum bs : bytes_ok bs → htons (Rfc1071.ocsum (Rfc1071.words bs)) = oc_repr (le_load bs).
Proof.
  intros Hb. pose proof (words_words_ok bs Hb) as Hw. rewrite ocsum_zsum by done.
  pose proof (zsum_bound _ Hw) as [H0 _]. pose proof (oc_repr_range _ H0).
  rewrite htons_val, <- SWAP_val by lia. apply SWAP_repr; [done|]. by apply words_oc.
Qed.

(** The complement commutes with the swap. *)
Lemma htons_complement x : 0 ≤ x ≤ 65535 → 65535 - htons x = htons (65535 - x).
Proof.
  intros Hx. rewrite !htons_val by lia. pose proof (Z.div_mod x 256 ltac:(lia)).
  pose proof (Z.mod_pos_bound x 256 ltac:(lia)).
  assert (0 ≤ x / 256 < 256) by (split; [apply Z.div_pos; lia|apply Z.div_lt_upper_bound; lia]).
  assert (65535 - x = (255 - x mod 256) + (255 - x / 256) * 256) as -> by lia.
  rewrite Z.mod_add, Z.div_add by lia. rewrite (Z.mod_small (255 - _)), (Z.div_small (255 - _)) by lia. lia.
Qed.

Lemma complement_checksum bs :
  bytes_ok bs → u16 (Z.lnot (oc_repr (le_load bs))) = htons (Rfc1071.checksum bs).
Proof.
  intros Hb. pose proof (oc_repr_range _ (le_load_nonneg bs Hb)) as Hr. rewrite lnot_u16 by lia.
  rewrite <- htons_ocsum by done. unfold Rfc1071.checksum. apply htons_complement.
  rewrite ocsum_zsum by (by apply words_words_ok).
  pose proof (zsum_bound _ (words_words_ok bs Hb)) as [H0 _]. pose proof (oc_repr_range _ H0). lia.
Qed.

(** lwIP's checksum of a buffer is the checksum of RFC 1071 in network order,
    wherever the buffer lies in memory and whether its length is even or odd,
    up to the 131072 bytes the routine is documented for. *)
Theorem lwip_standard_chksum_correct addr bs rest :
  bytes_ok bs → zlen bs ≤ 131072 →
  lwip_standard_chksum addr (bs ++ rest) (zlen bs) = Ok (htons (Rfc1071.ocsum (Rfc1071.words bs))) ∧
  inet_chksum addr (bs ++ rest) (zlen bs) = Ok (htons (Rfc1071.checksum bs)).
Proof.
  intros Hb Hl. rewrite htons_ocsum by done. unfold inet_chksum. rewrite standard_chksum_ok by done.
  split; [done|]. cbn [mbind result_bind]. by rewrite complement_checksum.
Qed.

(** * Chains *)

Definition part_ok (q : pbuf) : Prop := 0 ≤ p_len q < 65536 ∧ p_len q ≤ zlen (p_payload q) ∧ bytes_ok (p_payload q).
Definition part_bytes (q : pbuf) : list Z := take (Z.to_nat (p_len q)) (p_payload q).
Definition chain_bytes (p : list pbuf) : list Z := concat (part_bytes <$> p).

Lemma part_bytes_ok q : part_ok q → bytes_ok (part_bytes q).
Proof. intros (_ & _ & H). by apply bytes_ok_take. Qed.
Lemma part_bytes_len q : part_ok q → zlen (part_bytes q) = p_len q.
Proof. intros (H1 & H2 & _). unfold part_bytes, zlen in *. rewrite length_take. lia. Qed.
Lemma chain_bytes_ok p : Forall part_ok p → bytes_ok (chain_bytes p).
Proof.
  induction 1 as [|q p Hq _ IH]; [constructor|]. unfold chain_bytes. cbn.
  apply bytes_ok_app; [by apply part_bytes_ok|exact IH].
Qed.

(** The value a byte string has in a sum that is swapped or not. *)
Definition weigh (sw : bool) (v : Z) : Z := if sw then 256 * v else v.

Lemma weigh_oc sw a b : oc_eq a b → oc_eq (weigh sw a) (weigh sw b).
Proof. destruct sw; [|done]. apply oc_eq_mul. lia. Qed.
Lemma weigh_nonneg sw v : 0 ≤ v → 0 ≤ weigh sw v.
Proof. destruct sw; cbn; lia. Qed.

(** Bytes behind an even or odd number of others. *)
Lemma weigh_pow (n : nat) x :
  0 ≤ x → oc_eq (256 ^ Z.of_nat n * x) (weigh (Nat.odd n) x).
Proof.
  induction n as [n IH] using (well_founded_induction lt_wf). intros Hx.
  destruct n as [|[|n]]; [cbn; rewrite Z.mul_1_l; by apply oc_eq_refl|cbn; by apply oc_eq_refl; lia|].
  change (Nat.odd (S (S n))) with (Nat.odd n). eapply oc_eq_trans; [|apply IH; [lia|done]].
  replace (256 ^ Z.of_nat (S (S n)) * x) with (65536 * (256 ^ Z.of_nat n * x)).
  - apply oc_eq_shift. apply Z.mul_nonneg_nonneg; [apply Z.pow_nonneg; lia|done].
  - rewrite !Nat2Z.inj_succ, !Z.pow_succ_r by lia. ring.
Qed.

(** Adding the sum of one part, and swapping the whole or not. *)
Lemma chain_step sw toggle acc v d :
  0 ≤ acc ≤ 65535 → 0 ≤ v → 0 ≤ d → oc_eq acc (weigh sw v) →
  let acc1 := FOLD_U32T (u32 (acc + oc_repr d)) in
  let acc2 := if toggle : bool then SWAP_BYTES_IN_WORD acc1 else acc1 in
  0 ≤ acc2 ≤ 65535 ∧ oc_eq acc2 (weigh (xorb sw toggle) (v + weigh sw d)).
Proof.
  intros Ha Hv Hd He acc1 acc2. pose proof (oc_repr_range d Hd) as Hr.
  assert (oc_eq acc1 (weigh sw v + d) ∧ 0 ≤ acc1 ≤ 65535) as [H1 H1r].
  { unfold acc1. rewrite u32_small by lia. destruct (FOLD_once (acc + oc_repr d) ltac:(lia)) as [Ho Hl].
    pose proof Ho as (H0 & _). split; [|lia]. eapply oc_eq_trans; [exact Ho|].
    apply oc_eq_add; [done|]. by apply oc_eq_repr. }
  assert (oc_eq (65536 * v + 256 * d) (v + 256 * d)) as Hvd
    by (apply oc_eq_add; [by apply oc_eq_shift|apply oc_eq_refl; lia]).
  unfold acc2. destruct toggle.
  - destruct (SWAP_oc acc1 H1r) as [H2 H2r]. split; [done|].
    eapply oc_eq_trans; [exact H2|]. eapply oc_eq_trans; [apply oc_eq_mul; [lia|exact H1]|].
    destruct sw; cbn [weigh xorb].
    + replace (256 * (256 * v + d)) with (65536 * v + 256 * d) by lia. exact Hvd.
    + apply oc_eq_refl. lia.
  - split; [done|]. eapply oc_eq_trans; [exact H1|]. destruct sw; cbn [weigh xorb].
    + replace (256 * (v + 256 * d)) with (256 * v + 65536 * d) by lia.
      apply oc_eq_add; [apply oc_eq_refl; lia|]. by apply oc_eq_sym, oc_eq_shift.
    + apply oc_eq_refl. lia.
Qed.

Lemma chksum_part q n :
  part_ok q → 0 ≤ n ≤ p_len q →
  LWIP_CHKSUM q n = Ok (oc_repr (le_load (take (Z.to_nat n) (p_payload q)))).
Proof.
  intros (H1 & H2 & H3) Hn. unfold LWIP_CHKSUM.
  assert (zlen (take (Z.to_nat n) (p_payload q)) = n) as Hz by (unfold zlen in *; rewrite length_take; lia).
  pose proof (standard_chksum_ok (p_addr q) (take (Z.to_nat n) (p_payload q)) (drop (Z.to_nat n) (p_payload q))
    (bytes_ok_take _ _ H3)) as E.
  rewrite Hz, take_drop in E. apply E. lia.
Qed.

Lemma rem2_odd n : 0 ≤ n → negb (Z.rem n 2 =? 0) = Nat.odd (Z.to_nat n).
Proof.
  intros Hn. rewrite Z.rem_mod_nonneg by lia.
  destruct (Nat.Even_or_Odd (Z.to_nat n)) as [Ev|Od].
  - destruct Ev as [k Hk]. replace n with (0 + Z.of_nat k * 2) at 1 by lia. rewrite Z.mod_add by lia.
    rewrite Hk, Nat.odd_mul. done.
  - destruct (Nat.odd (Z.to_nat n)) eqn:E; [|by apply Nat.odd_spec in Od; congruence].
    destruct Od as [k Hk]. replace n with (1 + Z.of_nat k * 2) by lia. by rewrite Z.mod_add by lia.
Qed.

(** A part and the rest of the data. *)
Lemma weigh_split sw v a b :
  bytes_ok a → bytes_ok b → 0 ≤ v →
  oc_eq (v + weigh sw (le_load a) + weigh (xorb sw (Nat.odd (length a))) (le_load b))
        (v + weigh sw (le_load (a ++ b))).
Proof.
  intros Ha Hb Hv. pose proof (le_load_nonneg a Ha). pose proof (le_load_nonneg b Hb) as H0.
  rewrite le_load_app. pose proof (weigh_pow (length a) (le_load b) H0) as Hp.
  replace (weigh sw (le_load a + 256 ^ zlen a * le_load b))
    with (weigh sw (le_load a) + weigh sw (256 ^ zlen a * le_load b)) by (destruct sw; cbn; lia).
  rewrite Z.add_assoc. apply oc_eq_add; [apply oc_eq_refl; pose proof (weigh_nonneg sw (le_load a)); lia|].
  apply oc_eq_sym. eapply oc_eq_trans; [apply weigh_oc; exact Hp|].
  destruct sw, (Nat.odd (length a)); cbn [weigh xorb]; try (apply oc_eq_refl; lia).
  replace (256 * (256 * le_load b)) with (65536 * le_load b) by lia. by apply oc_eq_shift.
Qed.

Lemma chain_sum_ok p : ∀ sw acc v,
  Forall part_ok p → 0 ≤ acc ≤ 65535 → 0 ≤ v → oc_eq acc (weigh sw v) →
  ∃ sw' acc', chain_sum p sw acc = Ok (sw', acc') ∧ 0 ≤ acc' ≤ 65535 ∧
    oc_eq acc' (weigh sw' (v + weigh sw (le_load (chain_bytes p)))).
Proof.
  induction p as [|q p IH]; intros sw acc v Hp Ha Hv He.
  { exists sw, acc. split_and!; [done|lia|lia|]. cbn [chain_bytes fmap list_fmap concat le_load].
    replace (v + weigh sw 0) with v by (destruct sw; cbn; lia). done. }
  apply Forall_cons_iff in Hp as [Hq Hp]. pose proof (part_bytes_ok q Hq) as Hd.
  pose proof (le_load_nonneg _ Hd) as Hd0. pose proof Hq as (Hl & _).
  cbn [chain_sum]. rewrite (chksum_part q (p_len q)) by (done || lia). cbn [mbind result_bind]. cbv zeta.
  change (take _ _) with (part_bytes q). rewrite rem2_odd by lia.
  destruct (chain_step sw (Nat.odd (Z.to_nat (p_len q))) acc v (le_load (part_bytes q)) Ha Hv Hd0 He) as [Hr Ho].
  set (v' := v + weigh sw (le_load (part_bytes q))) in *.
  assert (0 ≤ v') as Hv' by (pose proof (weigh_nonneg sw (le_load (part_bytes q))); lia).
  assert (chain_bytes (q :: p) = part_bytes q ++ chain_bytes p) as -> by done.
  pose proof (weigh_split sw v (part_bytes q) (chain_bytes p) Hd (chain_bytes_ok p Hp) Hv) as Hs.
  replace (length (part_bytes q)) with (Z.to_nat (p_len q)) in Hs
    by (pose proof (part_bytes_len q Hq); unfold zlen in *; lia).
  destruct (Nat.odd (Z.to_nat (p_len q))) eqn:Eo.
  - destruct (IH (negb sw) _ v' Hp Hr Hv') as (sw' & acc' & E & Hr' & Ho'); [by destruct sw|].
    exists sw', acc'. split; [done|]. split; [done|]. eapply oc_eq_trans; [exact Ho'|].
    apply weigh_oc. by destruct sw.
  - destruct (IH sw _ v' Hp Hr Hv') as (sw' & acc' & E & Hr' & Ho'); [by destruct sw|].
    exists sw', acc'. split; [done|]. split; [done|]. eapply oc_eq_trans; [exact Ho'|].
    apply weigh_oc. by destruct sw.
Qed.

(** * Pseudo headers *)

Lemma le_load_even_app a b :
  bytes_ok a → bytes_ok b → Nat.Even (length a) → oc_eq (le_load a + le_load b) (le_load (a ++ b)).
Proof.
  intros Ha Hb He. pose proof (weigh_split false 0 a b Ha Hb ltac:(lia)) as H.
  replace (Nat.odd (length a)) with false in H
    by (rewrite <- Nat.negb_even; by rewrite (proj2 (Nat.even_spec _) He)).
  exact H.
Qed.

Lemma add_halves_oc acc addr :
  0 ≤ acc → acc + 131070 < 4294967296 → 0 ≤ addr < 4294967296 →
  oc_eq (add_halves acc addr) (acc + addr) ∧ 0 ≤ add_halves acc addr ≤ acc + 131070.
Proof.
  intros H0 Hacc Ha. unfold add_halves. change 0xffff with (Z.ones 16). rewrite !Z.land_ones, Z.shiftr_div_pow2 by lia.
  change (2 ^ 16) with 65536. pose proof (Z.mod_pos_bound addr 65536 ltac:(lia)).
  assert (0 ≤ addr / 65536 < 65536) by (split; [apply Z.div_pos; lia|apply Z.div_lt_upper_bound; lia]).
  rewrite (Z.mod_small (addr / 65536)) by lia. pose proof (Z.div_mod addr 65536 ltac:(lia)).
  rewrite (u32_small (acc + addr mod 65536)), u32_small by lia. split; [|lia].
  split_and!; [lia..|exists (- (addr / 65536)); lia|lia].
Qed.

Lemma le_load_4 b : bytes_ok b → (length b <= 4)%nat → 0 ≤ le_load b < 4294967296.
Proof.
  intros Hb Hl. destruct (le_load_range b Hb) as [H0 H1]. split; [done|].
  eapply Z.lt_le_trans; [exact H1|]. change 4294967296 with (256 ^ 4). apply Z.pow_le_mono_r; unfold zlen; lia.
Qed.

Lemma fold_addrs_4_ok src dest :
  bytes_ok src → bytes_ok dest → length src = 4%nat → length dest = 4%nat →
  fold_addrs_4 src dest = oc_repr (le_load src + le_load dest).
Proof.
  intros Hs Hd Hls Hld. unfold fold_addrs_4.
  pose proof (le_load_4 src Hs ltac:(lia)). pose proof (le_load_4 dest Hd ltac:(lia)).
  destruct (add_halves_oc 0 (le_load src)) as [H1 H1r]; [lia..|].
  destruct (add_halves_oc (add_halves 0 (le_load src)) (le_load dest)) as [H2 H2r]; [lia..|].
  rewrite FOLD_twice by lia. apply oc_repr_oc. eapply oc_eq_trans; [exact H2|].
  apply oc_eq_add; [exact H1|apply oc_eq_refl; lia].
Qed.

Lemma addrs_6_ok n : ∀ src dest acc,
  bytes_ok src → bytes_ok dest → length src = (4 * n)%nat → length dest = (4 * n)%nat →
  0 ≤ acc → acc + Z.of_nat n * 262140 < 4294967296 →
  oc_eq (addrs_6 n src dest acc) (acc + (le_load src + le_load dest)) ∧
  0 ≤ addrs_6 n src dest acc ≤ acc + Z.of_nat n * 262140.
Proof.
  induction n as [|n IH]; intros src dest acc Hs Hd Hls Hld H0 Hacc; cbn [addrs_6].
  { destruct src, dest; try done. cbn [le_load]. split; [|lia]. rewrite !Z.add_0_r. by apply oc_eq_refl. }
  pose proof (bytes_ok_take 4 src Hs) as Hs1. pose proof (bytes_ok_take 4 dest Hd) as Hd1.
  pose proof (bytes_ok_drop 4 src Hs) as Hs2. pose proof (bytes_ok_drop 4 dest Hd) as Hd2.
  assert (length (take 4 src) = 4%nat ∧ length (take 4 dest) = 4%nat) as [Ls Ld] by (rewrite !length_take; lia).
  pose proof (le_load_4 _ Hs1 ltac:(lia)). pose proof (le_load_4 _ Hd1 ltac:(lia)). unfold load32.
  destruct (add_halves_oc acc (le_load (take 4 src))) as [A1 R1]; [lia..|].
  destruct (add_halves_oc (add_halves acc (le_load (take 4 src))) (le_load (take 4 dest))) as [A2 R2]; [lia..|].
  destruct (IH (drop 4 src) (drop 4 dest)
    (add_halves (add_halves acc (le_load (take 4 src))) (le_load (take 4 dest)))) as [Ho Hr];
    [done|done|rewrite length_drop; lia|rewrite length_drop; lia|lia|lia|].
  split; [|lia]. eapply oc_eq_trans; [exact Ho|].
  assert (Nat.Even 4) as H4 by (by exists 2%nat).
  pose proof (le_load_even_app (take 4 src) (drop 4 src) Hs1 Hs2 ltac:(by rewrite Ls)) as E1.
  pose proof (le_load_even_app (take 4 dest) (drop 4 dest) Hd1 Hd2 ltac:(by rewrite Ld)) as E2.
  rewrite take_drop in E1, E2. pose proof (le_load_nonneg _ Hs2). pose proof (le_load_nonneg _ Hd2).
  eapply oc_eq_trans; [apply oc_eq_add; [exact A2|apply oc_eq_refl; lia]|].
  eapply oc_eq_trans; [apply oc_eq_add; [apply oc_eq_add; [exact A1|apply oc_eq_refl; lia]|apply oc_eq_refl; lia]|].
  replace (acc + le_load (take 4 src) + le_load (take 4 dest) + (le_load (drop 4 src) + le_load (drop 4 dest)))
    with (acc + ((le_load (take 4 src) + le_load (drop 4 src)) + (le_load (take 4 dest) + le_load (drop 4 dest)))) by lia.
  apply oc_eq_add; [by apply oc_eq_refl|]. by apply oc_eq_add.
Qed.

(** The pseudo headers of RFC 793 and RFC 2460. *)
Definition pseudo_header (src dest : ip_addr) (proto proto_len : Z) : list Z :=
  addr_bytes src ++ addr_bytes dest ++
  match dest with
  | IPv4 _ => [0; proto; proto_len / 256; proto_len mod 256]
  | IPv6 _ => [0; 0; proto_len / 256; proto_len mod 256; 0; 0; 0; proto]
  end.

(** Two addresses of one version. *)
Definition addrs_ok (src dest : ip_addr) : Prop :=
  bytes_ok (addr_bytes src) ∧ bytes_ok (addr_bytes dest) ∧
  match src, dest with
  | IPv4 a, IPv4 b => length a = 4%nat ∧ length b = 4%nat
  | IPv6 a, IPv6 b => length a = 16%nat ∧ length b = 16%nat
  | _, _ => False
  end.

Definition fold_addrs (src dest : ip_addr) : Z :=
  match dest with
  | IPv4 b => fold_addrs_4 (addr_bytes src) b
  | IPv6 b => fold_addrs_6 (addr_bytes src) b
  end.

Lemma fold_addrs_ok src dest :
  addrs_ok src dest → fold_addrs src dest = oc_repr (le_load (addr_bytes src) + le_load (addr_bytes dest)).
Proof.
  intros (Hs & Hd & Hl). destruct src as [a|a], dest as [b|b]; cbn [addr_bytes fold_addrs] in *; try done.
  - destruct Hl. by apply fold_addrs_4_ok.
  - destruct Hl as [La Lb]. unfold fold_addrs_6.
    destruct (addrs_6_ok 4 a b 0 Hs Hd La Lb) as [Ho Hr]; [lia|done|].
    rewrite FOLD_twice by (change (Z.of_nat 4) with 4 in Hr; lia). by apply oc_repr_oc.
Qed.

Lemma pseudo_header_ok src dest proto n :
  addrs_ok src dest → byte_ok proto → 0 ≤ n < 65536 → bytes_ok (pseudo_header src dest proto n).
Proof.
  intros (Hs & Hd & _) Hp Hn. unfold pseudo_header. apply bytes_ok_app; [done|]. apply bytes_ok_app; [done|].
  assert (byte_ok (n / 256)) by (split; [apply Z.div_pos; lia|apply Z.div_lt_upper_bound; lia]).
  assert (byte_ok (n mod 256)) by (apply Z.mod_pos_bound; lia).
  destruct dest; eauto 10 with bytes.
Qed.

(** The sum of pseudo header and data. *)
Lemma pseudo_sum src dest proto n data :
  addrs_ok src dest → byte_ok proto → 0 ≤ n < 65536 → bytes_ok data →
  oc_eq (le_load (addr_bytes src) + le_load (addr_bytes dest) + le_load data + htons proto + htons n)
        (le_load (pseudo_header src dest proto n ++ data)).
Proof.
  intros Ha Hp Hn Hdata. pose proof (pseudo_header_ok src dest proto n Ha Hp Hn) as Hph.
  destruct Ha as (Hs & Hd & Hl). unfold byte_ok in Hp.
  assert (htons proto = 256 * proto) as -> by (rewrite htons_val by lia; rewrite Z.mod_small, Z.div_small by lia; lia).
  rewrite (htons_val n) by lia.
  assert (0 ≤ n / 256 < 256) by (split; [apply Z.div_pos; lia|apply Z.div_lt_upper_bound; lia]).
  pose proof (Z.mod_pos_bound n 256 ltac:(lia)).
  pose proof (le_load_nonneg _ Hs). pose proof (le_load_nonneg _ Hd). pose proof (le_load_nonneg _ Hdata).
  unfold pseudo_header in *. set (tail := match dest with IPv4 _ => _ | IPv6 _ => _ end) in *.
  apply Forall_app in Hph as [_ Hph]. pose proof Hph as [_ Ht]%Forall_app.
  assert (Nat.Even (length (addr_bytes src)) ∧ Nat.Even (length (addr_bytes dest)) ∧ Nat.Even (length tail)) as (E1 & E2 & E3).
  { unfold tail. destruct src, dest; cbn [addr_bytes] in *; try done; destruct Hl as [-> ->];
      split_and!; (by exists 2%nat) || (by exists 4%nat) || (by exists 8%nat). }
  assert (oc_eq (256 * proto + (n mod 256 * 256 + n / 256)) (le_load tail)) as Htail.
  { unfold tail. destruct dest; cbn [le_load].
    - replace (0 + 256 * (proto + 256 * (n / 256 + 256 * (n mod 256 + 256 * 0))))
        with (256 * proto + 65536 * (n mod 256 * 256 + n / 256)) by lia.
      apply oc_eq_add; [apply oc_eq_refl; lia|]. apply oc_eq_sym, oc_eq_shift. lia.
    - replace (0 + 256 * (0 + 256 * (n / 256 + 256 * (n mod 256 + 256 * (0 + 256 * (0 + 256 * (0 + 256 * (proto + 256 * 0))))))))
        with (65536 * (65536 * (65536 * (256 * proto))) + 65536 * (n mod 256 * 256 + n / 256)) by lia.
      apply oc_eq_add; apply oc_eq_sym; [|apply oc_eq_shift; lia].
      eapply oc_eq_trans; [apply oc_eq_shift; lia|]. eapply oc_eq_trans; [apply oc_eq_shift; lia|]. apply oc_eq_shift. lia. }
  rewrite <- !app_assoc. eapply oc_eq_trans; [|apply le_load_even_app; [done| |done]];
    [|apply bytes_ok_app; [done|]; by apply bytes_ok_app].
  replace (le_load (addr_bytes src) + le_load (addr_bytes dest) + le_load data + 256 * proto + (n mod 256 * 256 + n / 256))
    with (le_load (addr_bytes src) + (le_load (addr_bytes dest) + (256 * proto + (n mod 256 * 256 + n / 256) + le_load data))) by lia.
  apply oc_eq_add; [apply oc_eq_refl; lia|].
  eapply oc_eq_trans; [|apply le_load_even_app; [done| |done]]; [|by apply bytes_ok_app].
  apply oc_eq_add; [apply oc_eq_refl; lia|].
  eapply oc_eq_trans; [|by apply le_load_even_app]. apply oc_eq_add; [done|apply oc_eq_refl; lia].
Qed.

(** Unswapping, adding protocol and length, folding and complementing. *)
Lemma pseudo_finish_ok proto n sw acc v :
  byte_ok proto → 0 ≤ n < 65536 → 0 ≤ acc ≤ 65535 → 0 ≤ v → oc_eq acc (weigh sw v) →
  pseudo_finish proto n sw acc = u16 (Z.lnot (oc_repr (v + htons proto + htons n))).
Proof.
  intros Hp Hn Ha Hv He. unfold pseudo_finish, byte_ok in *.
  pose proof (htons_range proto). pose proof (htons_range n).
  set (acc1 := if sw then SWAP_BYTES_IN_WORD acc else acc).
  assert (oc_eq acc1 v ∧ 0 ≤ acc1 ≤ 65535) as [H1 H1r].
  { unfold acc1. destruct sw; [|done]. destruct (SWAP_oc acc Ha) as [Ho Hr]. split; [|done].
    eapply oc_eq_trans; [exact Ho|]. eapply oc_eq_trans; [apply oc_eq_mul; [lia|exact He]|]. cbn [weigh].
    replace (256 * (256 * v)) with (65536 * v) by lia. by apply oc_eq_shift. }
  rewrite (u32_small (acc1 + htons proto)), u32_small by lia. rewrite FOLD_twice by lia.
  pose proof (oc_repr_range (acc1 + htons proto + htons n) ltac:(lia)) as Hr.
  change 0xffff with (Z.ones 16) at 1. rewrite Z.land_ones, Z.mod_small by (change (2 ^ 16) with 65536; lia).
  do 2 f_equal. apply oc_repr_oc.
  apply oc_eq_add; [|apply oc_eq_refl; lia]. apply oc_eq_add; [done|apply oc_eq_refl; lia].
Qed.

Lemma pseudo_base_ok src dest p proto n :
  addrs_ok src dest → Forall part_ok p → byte_ok proto → 0 ≤ n < 65536 →
  inet_cksum_pseudo_base p proto n (fold_addrs src dest) =
  Ok (htons (Rfc1071.checksum (pseudo_header src dest proto n ++ chain_bytes p))).
Proof.
  intros Ha Hp Hpr Hn. pose proof Ha as (Hs & Hd & _).
  pose proof (le_load_nonneg _ Hs). pose proof (le_load_nonneg _ Hd).
  pose proof (chain_bytes_ok p Hp) as Hc. pose proof (le_load_nonneg _ Hc).
  rewrite fold_addrs_ok by done. set (v := le_load (addr_bytes src) + le_load (addr_bytes dest)).
  assert (0 ≤ v) as Hv by (unfold v; lia).
  unfold inet_cksum_pseudo_base.
  destruct (chain_sum_ok p false (oc_repr v) v Hp (oc_repr_range v Hv) Hv) as (sw & acc & E & Hr & Ho);
    [by apply oc_eq_repr|].
  rewrite E. cbn [mbind result_bind weigh] in *.
  rewrite (pseudo_finish_ok proto n sw acc (v + le_load (chain_bytes p))) by (done || lia).
  rewrite <- complement_checksum by (apply bytes_ok_app; [by apply pseudo_header_ok|done]).
  do 3 f_equal. apply oc_repr_oc. by apply pseudo_sum.
Qed.

(** (C30) The checksum lwIP computes for a TCP segment in a chain of buffers: the
    checksum of RFC 1071 over the pseudo header of the two addresses and all
    the bytes of the chain, in network order, for IPv4 and IPv6, wherever the
    parts of the chain lie in memory and however long each of them is. *)
Theorem ip_chksum_pseudo_correct src dest p proto n :
  addrs_ok src dest → Forall part_ok p → byte_ok proto → 0 ≤ n < 65536 →
  ip_chksum_pseudo p proto n src dest =
  Ok (htons (Rfc1071.checksum (pseudo_header src dest proto n ++ chain_bytes p))).
Proof.
  intros Ha Hp Hpr Hn. rewrite <- pseudo_base_ok by done.
  unfold ip_chksum_pseudo, ip6_chksum_pseudo, inet_chksum_pseudo.
  destruct src, dest; cbn [IP_IS_V6 addr_bytes fold_addrs]; reflexivity.
Qed.

(** The checksum of a chain without a pseudo header. *)
Lemma inet_chksum_pbuf_ok p :
  Forall part_ok p → inet_chksum_pbuf p = Ok (htons (Rfc1071.checksum (chain_bytes p))).
Proof.
  intros Hp. pose proof (chain_bytes_ok p Hp) as Hc. pose proof (le_load_nonneg _ Hc).
  unfold inet_chksum_pbuf.
  destruct (chain_sum_ok p false 0 0 Hp) as (sw & acc & E & Hr & Ho); [lia|lia|by apply oc_eq_refl|].
  rewrite E. cbn [mbind result_bind weigh]. rewrite Z.add_0_l in Ho. cbn [weigh] in Ho.
  rewrite <- complement_checksum by done. do 3 f_equal.
  set (acc1 := if sw then SWAP_BYTES_IN_WORD acc else acc).
  assert (oc_eq acc1 (le_load (chain_bytes p)) ∧ 0 ≤ acc1 ≤ 65535) as [H1 H1r].
  { unfold acc1. destruct sw; [|done]. destruct (SWAP_oc acc Hr) as [Hs Hsr]. split; [|done].
    eapply oc_eq_trans; [exact Hs|]. eapply oc_eq_trans; [apply oc_eq_mul; [lia|exact Ho]|]. cbn [weigh].
    replace (256 * (256 * le_load (chain_bytes p))) with (65536 * le_load (chain_bytes p)) by lia. by apply oc_eq_shift. }
  change 0xffff with (Z.ones 16). rewrite Z.land_ones, Z.mod_small by (change (2 ^ 16) with 65536; lia).
  apply oc_eq_is_repr; [done|lia].
Qed.

(** ** The first bytes of a chain *)

Lemma chain_sum_partial_ok p : ∀ m sw acc v,
  Forall part_ok p → 0 ≤ m ≤ 32766 → 0 ≤ acc ≤ 65535 → 0 ≤ v → oc_eq acc (weigh sw v) →
  ∃ sw' acc', chain_sum_partial p m sw acc = Ok (sw', acc') ∧ 0 ≤ acc' ≤ 65535 ∧
    oc_eq acc' (weigh sw' (v + weigh sw (le_load (take (Z.to_nat m) (chain_bytes p))))).
Proof.
  induction p as [|q p IH]; intros m sw acc v Hp Hm Ha Hv He.
  { exists sw, acc. split_and!; [done|lia|lia|]. cbn [chain_bytes fmap list_fmap concat]. rewrite take_nil.
    cbn [le_load]. replace (v + weigh sw 0) with v by (destruct sw; cbn; lia). done. }
  cbn [chain_sum_partial]. destruct (Z.gtb_spec m 0) as [Hm0|Hm0].
  2: { exists sw, acc. split_and!; [done|lia|lia|]. replace (Z.to_nat m) with 0%nat by lia. rewrite take_0.
       cbn [le_load]. replace (v + weigh sw 0) with v by (destruct sw; cbn; lia). done. }
  apply Forall_cons_iff in Hp as [Hq Hp]. pose proof (part_bytes_ok q Hq) as Hd. pose proof Hq as (Hl & Hlp & Hbq).
  set (k := if p_len q >? m then m else p_len q). cbv zeta.
  assert (0 ≤ k ≤ p_len q ∧ k ≤ m) as [Hk Hkm] by (unfold k; destruct (Z.gtb_spec (p_len q) m); lia).
  rewrite (chksum_part q k) by (done || lia). cbn [mbind result_bind]. rewrite u16_small by lia.
  replace (m - k <? 0x7fff) with true by lia. cbn [negb]. rewrite rem2_odd by lia.
  set (d := take (Z.to_nat k) (p_payload q)). assert (bytes_ok d) as Hdo by (by apply bytes_ok_take).
  pose proof (le_load_nonneg d Hdo) as Hd0.
  destruct (chain_step sw (Nat.odd (Z.to_nat (p_len q))) acc v (le_load d) Ha Hv Hd0 He) as [Hr Ho].
  set (v' := v + weigh sw (le_load d)) in *.
  assert (0 ≤ v') as Hv' by (pose proof (weigh_nonneg sw (le_load d)); lia).
  set (sw1 := xorb sw (Nat.odd (Z.to_nat (p_len q)))) in *.
  pose proof (part_bytes_len q Hq) as Hpl.
  set (rest := take (Z.to_nat (m - k)) (chain_bytes p)).
  assert (bytes_ok rest) as Hro by (apply bytes_ok_take; by apply chain_bytes_ok).
  assert (take (Z.to_nat m) (chain_bytes (q :: p)) = d ++ rest ∧
    (rest ≠ [] → length d = Z.to_nat (p_len q))) as [Htake Hrest].
  { assert (chain_bytes (q :: p) = part_bytes q ++ chain_bytes p) as -> by done.
    unfold rest, d, k, zlen in *. destruct (Z.gtb_spec (p_len q) m).
    - rewrite take_app_le by lia. unfold part_bytes. rewrite take_take, Nat.min_l by lia.
      replace (Z.to_nat (m - m)) with 0%nat by lia. rewrite take_0, app_nil_r. split; [done|done].
    - rewrite take_app_ge by lia. split; [|rewrite length_take; lia]. unfold part_bytes at 1. do 2 f_equal. lia. }
  rewrite Htake.
  assert (oc_eq (v' + weigh sw1 (le_load rest)) (v + weigh sw (le_load (d ++ rest)))) as Hsplit.
  { destruct rest as [|x rest'] eqn:Erest.
    - rewrite app_nil_r. cbn [le_load]. replace (weigh sw1 0) with 0 by (by destruct sw1). rewrite Z.add_0_r.
      by apply oc_eq_refl.
    - rewrite <- Erest in *. unfold v', sw1. rewrite <- Hrest by (by rewrite Erest). by apply weigh_split. }
  assert (∃ sw' acc', chain_sum_partial p (m - k) sw1
      (if Nat.odd (Z.to_nat (p_len q)) then SWAP_BYTES_IN_WORD (FOLD_U32T (u32 (acc + oc_repr (le_load d))))
       else FOLD_U32T (u32 (acc + oc_repr (le_load d)))) = Ok (sw', acc') ∧ 0 ≤ acc' ≤ 65535 ∧
      oc_eq acc' (weigh sw' (v + weigh sw (le_load (d ++ rest))))) as (sw' & acc' & E & Hr' & Ho').
  { destruct (IH (m - k) sw1 _ v' Hp ltac:(lia) Hr Hv' Ho) as (sw' & acc' & E & Hr' & Ho').
    exists sw', acc'. split_and!; [done|lia|lia|]. eapply oc_eq_trans; [exact Ho'|]. by apply weigh_oc. }
  exists sw', acc'. split; [|done]. rewrite <- E. unfold sw1. destruct (Nat.odd (Z.to_nat (p_len q))), sw; done.
Qed.

(** With a coverage of [m] bytes, as UDP-Lite has, only the first [m] bytes of
    the chain are summed; more than 32766 bytes may stop at the assertion. *)
Theorem ip_chksum_pseudo_partial_correct src dest p proto n m :
  addrs_ok src dest → Forall part_ok p → byte_ok proto → 0 ≤ n < 65536 → 0 ≤ m ≤ 32766 →
  ip_chksum_pseudo_partial p proto n m src dest =
  Ok (htons (Rfc1071.checksum (pseudo_header src dest proto n ++ take (Z.to_nat m) (chain_bytes p)))).
Proof.
  intros Ha Hp Hpr Hn Hm. pose proof Ha as (Hs & Hd & Hl).
  pose proof (le_load_nonneg _ Hs). pose proof (le_load_nonneg _ Hd).
  assert (bytes_ok (take (Z.to_nat m) (chain_bytes p))) as Hc by (apply bytes_ok_take; by apply chain_bytes_ok).
  pose proof (le_load_nonneg _ Hc).
  transitivity (inet_cksum_pseudo_partial_base p proto n m (fold_addrs src dest)); 
    [unfold ip_chksum_pseudo_partial, ip6_chksum_pseudo_partial, inet_chksum_pseudo_partial;
     destruct src, dest; cbn [IP_IS_V6 addr_bytes fold_addrs]; reflexivity|].
  rewrite fold_addrs_ok by done. set (v := le_load (addr_bytes src) + le_load (addr_bytes dest)).
  assert (0 ≤ v) as Hv by (unfold v; lia).
  unfold inet_cksum_pseudo_partial_base.
  destruct (chain_sum_partial_ok p m false (oc_repr v) v Hp Hm (oc_repr_range v Hv) Hv)
    as (sw & acc & E & Hr & Ho); [by apply oc_eq_repr|].
  rewrite E. cbn [mbind result_bind weigh] in *.
  rewrite (pseudo_finish_ok proto n sw acc (v + le_load (take (Z.to_nat m) (chain_bytes p)))) by (done || lia).
  rewrite <- complement_checksum by (apply bytes_ok_app; [by apply pseudo_header_ok|done]).
  do 3 f_equal. apply oc_repr_oc. by apply pseudo_sum.
Qed.

(** * Examples *)

Lemma lwip_standard_chksum_correct_witness :
  inet_chksum 1001 ([69; 0; 0; 28; 7] ++ [9]) (zlen [69; 0; 0; 28; 7]) =
    Ok (htons (Rfc1071.checksum [69; 0; 0; 28; 7])).
Proof.
  apply (lwip_standard_chksum_correct 1001 [69; 0; 0; 28; 7] [9]).
  - repeat constructor; unfold byte_ok; lia.
  - unfold zlen. cbn. lia.
Defined.

(** A chain of an even and two odd parts, one of them at an odd address. *)
Definition example_chain : list pbuf :=
  [mk_pbuf 2000 [0; 80; 1; 187; 99] 4; mk_pbuf 3001 [1; 2; 3] 3; mk_pbuf 4000 [250; 251; 252; 253; 254] 5].

Lemma example_chain_ok : Forall part_ok example_chain.
Proof. repeat constructor; unfold byte_ok, zlen; cbn; lia. Qed.
Lemma example_addrs_ok : addrs_ok (IPv4 [10; 13; 0; 1]) (IPv4 [10; 13; 2; 3]).
Proof. repeat constructor; unfold byte_ok; cbn; lia. Qed.

Lemma ip_chksum_pseudo_correct_witness :
  ip_chksum_pseudo example_chain 6 12 (IPv4 [10; 13; 0; 1]) (IPv4 [10; 13; 2; 3]) =
    Ok (htons (Rfc1071.checksum [10; 13; 0; 1; 10; 13; 2; 3; 0; 6; 0; 12; 0; 80; 1; 187; 1; 2; 3; 250; 251; 252; 253; 254])).
Proof.
  apply (ip_chksum_pseudo_correct (IPv4 [10; 13; 0; 1]) (IPv4 [10; 13; 2; 3]) example_chain 6 12
    example_addrs_ok example_chain_ok); [unfold byte_ok; lia|lia].
Defined.

Lemma ip_chksum_pseudo_partial_correct_witness :
  ip_chksum_pseudo_partial example_chain 6 12 6 (IPv4 [10; 13; 0; 1]) (IPv4 [10; 13; 2; 3]) =
    Ok (htons (Rfc1071.checksum [10; 13; 0; 1; 10; 13; 2; 3; 0; 6; 0; 12; 0; 80; 1; 187; 1; 2])).
Proof.
  apply (ip_chksum_pseudo_partial_correct (IPv4 [10; 13; 0; 1]) (IPv4 [10; 13; 2; 3]) example_chain 6 12 6
    example_addrs_ok example_chain_ok); [unfold byte_ok; lia|lia|lia].
Defined.
