(* ===== verification/LwipPbuf.v ===== *)
(** The packet buffers of lwIP ([lwip/src/core/pbuf.c]): a packet is a chain of
    buffers linked by [next] and shared by counting references.  This file has
    the operations and what they do to the contents of a packet; the reference
    counts are the subject of [LwipPbufRefs].

    The allocated buffers are a finite map from addresses; a buffer that was
    freed is not in the map, and using it is a fault.  The memory a payload
    pointer reaches belongs to its buffer: [pb_room] lies before the pointer,
    [pb_payload] from it on.  Two sources of buffers are outside: the memory
    pools (which the build takes from [malloc]) and the owners of custom
    buffers, whose function frees them. *)
From stdpp Require Import gmap.
From S2P Require Import Prelude.

(** * The program *)

Definition ERR_OK : Z := 0.
Definition ERR_MEM : Z := -1.

Inductive pbuf_type := PBUF_RAM | PBUF_ROM | PBUF_REF | PBUF_POOL.
Inductive pbuf_layer := PBUF_TRANSPORT | PBUF_IP | PBUF_LINK | PBUF_RAW_TX | PBUF_RAW.

#[export] Instance pbuf_type_eq_dec : EqDecision pbuf_type.
Proof. solve_decision. Defined.

Definition PBUF_FLAG_IS_CUSTOM : Z := 0x02.

(** Sizes, with the values of [custom/lwipopts.h]: [MEM_ALIGNMENT] is 4,
    [TCP_MSS] is 512 and IPv6 is on. *)
Definition LWIP_MEM_ALIGN_SIZE (size : Z) : Z := Z.land (size + 4 - 1) (Z.lnot (4 - 1)).
Definition PBUF_LINK_ENCAPSULATION_HLEN : Z := 0.
Definition PBUF_LINK_HLEN : Z := 14 + 0.
Definition PBUF_IP_HLEN : Z := 40.
Definition PBUF_TRANSPORT_HLEN : Z := 20.
Definition PBUF_POOL_BUFSIZE : Z := LWIP_MEM_ALIGN_SIZE (512 + 40 + PBUF_LINK_ENCAPSULATION_HLEN + PBUF_LINK_HLEN).
Definition PBUF_POOL_BUFSIZE_ALIGNED : Z := LWIP_MEM_ALIGN_SIZE PBUF_POOL_BUFSIZE.

(** [struct pbuf]. *)
Record pbuf := mk_pbuf {
  pb_next : option positive; pb_room : list Z; pb_payload : list Z;
  pb_tot_len : Z; pb_len : Z; pb_type : pbuf_type; pb_flags : Z; pb_ref : Z }.

Abbreviation heap := (gmap positive pbuf).
(** The buffers, and [pbuf_free_ooseq_pending]. *)
Record store := mk_store { bufs : heap; pbuf_free_ooseq_pending : bool }.
Abbreviation PB := (M store).

Definition with_bufs (h : heap) (s : store) : store := mk_store h (pbuf_free_ooseq_pending s).

(** A block of a memory pool: its address, the bytes behind the structure, and
    what is in the place of the flags. *)
Record block := mk_block { bl_addr : positive; bl_mem : list Z; bl_flags : Z }.

Definition set_ref (n : Z) (b : pbuf) : pbuf :=
  mk_pbuf (pb_next b) (pb_room b) (pb_payload b) (pb_tot_len b) (pb_len b) (pb_type b) (pb_flags b) n.
Definition set_tot_len (n : Z) (b : pbuf) : pbuf :=
  mk_pbuf (pb_next b) (pb_room b) (pb_payload b) n (pb_len b) (pb_type b) (pb_flags b) (pb_ref b).
Definition set_len (n : Z) (b : pbuf) : pbuf :=
  mk_pbuf (pb_next b) (pb_room b) (pb_payload b) (pb_tot_len b) n (pb_type b) (pb_flags b) (pb_ref b).
Definition set_next (p : option positive) (b : pbuf) : pbuf :=
  mk_pbuf p (pb_room b) (pb_payload b) (pb_tot_len b) (pb_len b) (pb_type b) (pb_flags b) (pb_ref b).
Definition set_flags (n : Z) (b : pbuf) : pbuf :=
  mk_pbuf (pb_next b) (pb_room b) (pb_payload b) (pb_tot_len b) (pb_len b) (pb_type b) n (pb_ref b).
Definition set_payload (room bs : list Z) (b : pbuf) : pbuf :=
  mk_pbuf (pb_next b) room bs (pb_tot_len b) (pb_len b) (pb_type b) (pb_flags b) (pb_ref b).

(** [*p], and an assignment to it. *)
Definition get_pbuf (p : positive) : PB pbuf := λ s,
  match bufs s !! p with Some b => Ok (b, s) | None => Fail OutOfBounds end.
Definition put_pbuf (p : positive) (b : pbuf) : PB () := modify (λ s, with_bufs (<[p := b]> (bufs s)) s).
Definition del_pbuf (p : positive) : PB () := modify (λ s, with_bufs (delete p (bufs s)) s).
Definition deref (p : option positive) : PB positive :=
  match p with Some p => mret p | None => fail NullPointer end.
Definition LWIP_ASSERT (b : bool) : PB () := if b then mret () else fail AssertFailure.
(** Assertions are on, so [LWIP_ERROR] stops like [LWIP_ASSERT]. *)
Definition LWIP_ERROR (b : bool) : PB () := LWIP_ASSERT b.
(** The turns of a loop over a chain. *)
Definition chain_fuel : PB nat := gets (λ s, S (size (bufs s))).

(** The payload pointer moves back by [n] bytes, or forward if [n] is negative. *)
Definition move_payload (n : Z) (b : pbuf) : result pbuf :=
  let mem := pb_room b ++ pb_payload b in
  let off := zlen (pb_room b) - n in
  if in_range (zlen mem) off 0
  then Ok (set_payload (take (Z.to_nat off) mem) (drop (Z.to_nat off) mem) b) else Fail OutOfBounds.

Section program.
(** What the pools answer to a request for [n] bytes behind a structure, and
    the function that frees a custom buffer. *)
Variable malloc : Z → heap → option block.
Variable custom_free_function : positive → PB ().

Definition memp_malloc (n : Z) : PB (option block) := gets (λ s, malloc n (bufs s)).
Definition pbuf_pool_is_empty : PB () := modify (λ s, mk_store (bufs s) true).

(** ** Reference counts *)

Definition free_one (p : positive) (b : pbuf) : PB () :=
  if negb (Z.land (pb_flags b) PBUF_FLAG_IS_CUSTOM =? 0) then custom_free_function p else del_pbuf p.

Fixpoint free_loop (fuel : nat) (p : option positive) (count : Z) : PB Z :=
  match p with
  | None => mret count
  | Some p =>
      match fuel with
      | O => fail OutOfFuel
      | S fuel =>
          b ← get_pbuf p;
          LWIP_ASSERT (0 <? pb_ref b);;
          let ref := u16 (pb_ref b - 1) in
          put_pbuf p (set_ref ref b);;
          if ref =? 0 then free_one p b;; free_loop fuel (pb_next b) (u8 (count + 1))
          else mret count
      end
  end.

Definition pbuf_free (p : option positive) : PB Z :=
  LWIP_ASSERT (bool_decide (is_Some p));;
  fuel ← chain_fuel; free_loop fuel p 0.

Definition pbuf_ref (p : option positive) : PB () :=
  match p with
  | None => mret ()
  | Some p =>
      b ← get_pbuf p;
      let ref := u16 (pb_ref b + 1) in
      put_pbuf p (set_ref ref b);; LWIP_ASSERT (0 <? ref)
  end.

Fixpoint clen_loop (fuel : nat) (p : option positive) (len : Z) : PB Z :=
  match p with
  | None => mret len
  | Some p =>
      match fuel with
      | O => fail OutOfFuel
      | S fuel => b ← get_pbuf p; clen_loop fuel (pb_next b) (u16 (len + 1))
      end
  end.
Definition pbuf_clen (p : option positive) : PB Z := fuel ← chain_fuel; clen_loop fuel p 0.

(** ** Chains *)

(** The walk of [pbuf_cat] to the last buffer of the first chain. *)
Fixpoint cat_loop (fuel : nat) (p t : positive) : PB () :=
  match fuel with
  | O => fail OutOfFuel
  | S fuel =>
      b ← get_pbuf p;
      match pb_next b with
      | Some q =>
          bt ← get_pbuf t;
          put_pbuf p (set_tot_len (u16 (pb_tot_len b + pb_tot_len bt)) b);; cat_loop fuel q t
      | None =>
          LWIP_ASSERT (pb_tot_len b =? pb_len b);;
          bt ← get_pbuf t;
          put_pbuf p (set_next (Some t) (set_tot_len (u16 (pb_tot_len b + pb_tot_len bt)) b))
      end
  end.

Definition pbuf_cat (h t : option positive) : PB () :=
  LWIP_ERROR (bool_decide (is_Some h) && bool_decide (is_Some t));;
  h ← deref h; t ← deref t; fuel ← chain_fuel; cat_loop fuel h t.

Definition pbuf_chain (h t : option positive) : PB () := pbuf_cat h t;; pbuf_ref t.

(** The part for a buffer [p] that has a successor [q]. *)
Definition dechain_tail (p : positive) (b : pbuf) (q : positive) : PB Z :=
  bq ← get_pbuf q;
  LWIP_ASSERT (pb_tot_len bq =? pb_tot_len b - pb_len b);;
  put_pbuf q (set_tot_len (u16 (pb_tot_len b - pb_len b)) bq);;
  b ← get_pbuf p;
  put_pbuf p (set_tot_len (pb_len b) (set_next None b));;
  pbuf_free (Some q).

Definition pbuf_dechain (p : positive) : PB (option positive) :=
  b ← get_pbuf p;
  tail_gone ← (match pb_next b with None => mret 1 | Some q => dechain_tail p b q end);
  b' ← get_pbuf p;
  LWIP_ASSERT (pb_tot_len b' =? pb_len b');;
  mret (if tail_gone >? 0 then None else pb_next b).

(** ** Allocation *)

Definition layer_offset (layer : pbuf_layer) : Z :=
  match layer with
  | PBUF_TRANSPORT => PBUF_LINK_ENCAPSULATION_HLEN + PBUF_LINK_HLEN + PBUF_IP_HLEN + PBUF_TRANSPORT_HLEN
  | PBUF_IP => PBUF_LINK_ENCAPSULATION_HLEN + PBUF_LINK_HLEN + PBUF_IP_HLEN
  | PBUF_LINK => PBUF_LINK_ENCAPSULATION_HLEN + PBUF_LINK_HLEN
  | PBUF_RAW_TX => PBUF_LINK_ENCAPSULATION_HLEN
  | PBUF_RAW => 0
  end.

(** What [pbuf_alloc] writes into a block; the size of the structure is a
    multiple of [MEM_ALIGNMENT] and so is the address of a block. *)
Definition new_pbuf (bl : block) (off tot_len len : Z) (type : pbuf_type) (flags : Z) : pbuf :=
  mk_pbuf None (take (Z.to_nat off) (bl_mem bl)) (drop (Z.to_nat off) (bl_mem bl)) tot_len len type flags 1.

(** The loop for the tail of a chain from the pool: [r] is its last buffer.  Of
    its assertions those on alignment and the one on [p], which repeats the one
    in front of the loop, are left out. *)
Fixpoint pool_loop (fuel : nat) (p r : positive) (rem_len : Z) : PB bool :=
  if rem_len >? 0 then
    match fuel with
    | O => fail OutOfFuel
    | S fuel =>
        q ← memp_malloc PBUF_POOL_BUFSIZE_ALIGNED;
        match q with
        | None => pbuf_pool_is_empty;; _ ← pbuf_free (Some p); mret false
        | Some bl =>
            let q := bl_addr bl in
            LWIP_ASSERT (rem_len <? 0xffff);;
            let len := Z.min (u16 rem_len) PBUF_POOL_BUFSIZE_ALIGNED in
            put_pbuf q (new_pbuf bl 0 (u16 rem_len) len PBUF_POOL 0);;
            br ← get_pbuf r; put_pbuf r (set_next (Some q) br);;
            pool_loop fuel p q (rem_len - len)
        end
    end
  else mret true.

(** The cases of [pbuf_alloc], up to what is common to them. *)
Definition alloc_pool (offset length : Z) : PB (option positive) :=
  p ← memp_malloc PBUF_POOL_BUFSIZE_ALIGNED;
  match p with
  | None => pbuf_pool_is_empty;; mret None
  | Some bl =>
      let len := Z.min length (PBUF_POOL_BUFSIZE_ALIGNED - offset) in
      LWIP_ASSERT (offset + len <=? PBUF_POOL_BUFSIZE_ALIGNED);;
      LWIP_ASSERT (0 <? PBUF_POOL_BUFSIZE_ALIGNED - offset);;
      put_pbuf (bl_addr bl) (new_pbuf bl offset length len PBUF_POOL (bl_flags bl));;
      ok ← pool_loop (Z.to_nat length) (bl_addr bl) (bl_addr bl) (length - len);
      mret (if ok : bool then Some (bl_addr bl) else None)
  end.

Definition alloc_ram (offset length : Z) : PB (option positive) :=
  p ← memp_malloc (offset + LWIP_MEM_ALIGN_SIZE length);
  match p with
  | None => mret None
  | Some bl =>
      put_pbuf (bl_addr bl) (new_pbuf bl offset length length PBUF_RAM (bl_flags bl));;
      mret (Some (bl_addr bl))
  end.

Definition alloc_ref (length : Z) (type : pbuf_type) : PB (option positive) :=
  p ← memp_malloc 0;
  match p with
  | None => mret None
  | Some bl =>
      put_pbuf (bl_addr bl) (set_payload [] [] (new_pbuf bl 0 length length type (bl_flags bl)));;
      mret (Some (bl_addr bl))
  end.

Definition pbuf_alloc (layer : pbuf_layer) (length : Z) (type : pbuf_type) : PB (option positive) :=
  let offset := LWIP_MEM_ALIGN_SIZE (layer_offset layer) in
  p ← (match type with
       | PBUF_POOL => alloc_pool offset length
       | PBUF_RAM => alloc_ram offset length
       | PBUF_ROM | PBUF_REF => alloc_ref length type
       end);
  match p with
  | None => mret None
  | Some p => b ← get_pbuf p; put_pbuf p (set_flags 0 (set_ref 1 b));; mret (Some p)
  end.

(** [payload_mem] is the memory behind the pointer, or none for a null pointer. *)
Definition pbuf_alloced_custom (l : pbuf_layer) (length : Z) (type : pbuf_type) (p : positive)
    (payload_mem : option (list Z)) (payload_mem_len : Z) : PB (option positive) :=
  let offset := LWIP_MEM_ALIGN_SIZE (layer_offset l) in
  if offset + length >? payload_mem_len then mret None
  else
    mem ← match payload_mem with
          | Some mem => lift (mem_read mem 0 offset);; mret mem
          | None => mret []
          end;
    put_pbuf p (mk_pbuf None (take (Z.to_nat offset) mem) (drop (Z.to_nat offset) mem)
                  length length type PBUF_FLAG_IS_CUSTOM 1);;
    mret (Some p).

(** ** Changing the length *)

(** The loop over the buffers that stay; the new last one and its length. *)
Fixpoint realloc_loop (fuel : nat) (q : positive) (rem_len grow : Z) : PB (positive * Z) :=
  match fuel with
  | O => fail OutOfFuel
  | S fuel =>
      b ← get_pbuf q;
      if rem_len >? pb_len b then
        LWIP_ASSERT (grow <? 0xffff);;
        put_pbuf q (set_tot_len (u16 (pb_tot_len b + u16 grow)) b);;
        LWIP_ASSERT (bool_decide (is_Some (pb_next b)));;
        q ← deref (pb_next b);
        realloc_loop fuel q (u16 (rem_len - pb_len b)) grow
      else mret (q, rem_len)
  end.

Definition free_next (b : pbuf) : PB () :=
  match pb_next b with Some n => _ ← pbuf_free (Some n); mret () | None => mret () end.

(** [q] becomes the last buffer; [mem_trim] does nothing when memory comes from
    [malloc]. *)
Definition cut_after (q : positive) (rem_len : Z) : PB () :=
  b ← get_pbuf q;
  put_pbuf q (set_tot_len rem_len (set_len rem_len b));;
  free_next b;;
  b ← get_pbuf q;
  put_pbuf q (set_next None b).

Definition pbuf_realloc (p : option positive) (new_len : Z) : PB () :=
  LWIP_ASSERT (bool_decide (is_Some p));;
  p ← deref p;
  b ← get_pbuf p;
  if new_len >=? pb_tot_len b then mret ()
  else
    let grow := new_len - pb_tot_len b in
    fuel ← chain_fuel;
    '(q, rem_len) ← realloc_loop fuel p new_len grow;
    cut_after q rem_len.

Definition pbuf_header_impl (p : option positive) (header_size_increment : Z) (force : bool) : PB Z :=
  LWIP_ASSERT (bool_decide (is_Some p));;
  p ← deref p;
  if header_size_increment =? 0 then mret 0
  else
    b ← get_pbuf p;
    let increment_magnitude := u16 (if header_size_increment <? 0 then - header_size_increment else header_size_increment) in
    LWIP_ERROR (negb (header_size_increment <? 0) || (increment_magnitude <=? pb_len b));;
    let move :=
      b ← lift (move_payload header_size_increment b);
      put_pbuf p (set_tot_len (u16 (pb_tot_len b + header_size_increment))
                   (set_len (u16 (pb_len b + header_size_increment)) b));;
      mret 0 in
    match pb_type b with
    | PBUF_RAM | PBUF_POOL => if header_size_increment >? zlen (pb_room b) then mret 1 else move
    | PBUF_REF | PBUF_ROM =>
        if (header_size_increment <? 0) && (increment_magnitude <=? pb_len b) then move
        else if (header_size_increment >? 0) && force then move
        else mret 1
    end.

Definition pbuf_header (p : option positive) (header_size_increment : Z) : PB Z :=
  pbuf_header_impl p header_size_increment false.
Definition pbuf_header_force (p : option positive) (header_size_increment : Z) : PB Z :=
  pbuf_header_impl p header_size_increment true.

(** ** Copying *)

Definition copy_step (p_to p_from : option positive) (offset_to offset_from : Z) :
    PB (option positive * option positive * Z * Z) :=
  to ← deref p_to; bt ← get_pbuf to;
  from ← deref p_from; bf ← get_pbuf from;
  let len := if pb_len bt - offset_to >=? pb_len bf - offset_from
             then u16 (pb_len bf - offset_from) else u16 (pb_len bt - offset_to) in
  bs ← lift (mem_read (pb_payload bf) offset_from len);
  mem ← lift (mem_write (pb_payload bt) offset_to bs);
  put_pbuf to (set_payload (pb_room bt) mem bt);;
  let offset_to := u16 (offset_to + len) in
  let offset_from := u16 (offset_from + len) in
  LWIP_ASSERT (offset_to <=? pb_len bt);;
  LWIP_ASSERT (offset_from <=? pb_len bf);;
  let '(p_from, offset_from) := if offset_from >=? pb_len bf then (pb_next bf, 0) else (p_from, offset_from) in
  '(p_to, offset_to) ← (if offset_to =? pb_len bt then
       LWIP_ERROR (bool_decide (is_Some (pb_next bt)) || negb (bool_decide (is_Some p_from)));;
       mret (pb_next bt, 0)
     else mret (p_to, offset_to));
  mret (p_to, p_from, offset_to, offset_from).

(** A buffer that ends its packet must end its chain. *)
Definition no_queue (p : option positive) : PB () :=
  match p with
  | None => mret ()
  | Some p =>
      b ← get_pbuf p;
      if pb_len b =? pb_tot_len b then LWIP_ERROR (negb (bool_decide (is_Some (pb_next b)))) else mret ()
  end.

Fixpoint copy_loop (fuel : nat) (p_to p_from : option positive) (offset_to offset_from : Z) : PB () :=
  match fuel with
  | O => fail OutOfFuel
  | S fuel =>
      '(p_to, p_from, offset_to, offset_from) ← copy_step p_to p_from offset_to offset_from;
      no_queue p_from;; no_queue p_to;;
      match p_from with
      | None => mret ()
      | Some _ => copy_loop fuel p_to p_from offset_to offset_from
      end
  end.

Definition pbuf_copy (p_to p_from : option positive) : PB Z :=
  LWIP_ERROR (bool_decide (is_Some p_to));; to ← deref p_to; bt ← get_pbuf to;
  LWIP_ERROR (bool_decide (is_Some p_from));; from ← deref p_from; bf ← get_pbuf from;
  LWIP_ERROR (pb_tot_len bt >=? pb_tot_len bf);;
  n ← chain_fuel; copy_loop (n + n) p_to p_from 0 0;; mret ERR_OK.

(** The bytes copied and the destination after the loop. *)
Fixpoint copy_partial_loop (fuel : nat) (p : option positive) (dataptr : list Z)
    (len offset left copied_total : Z) : PB (Z * list Z) :=
  match p with
  | None => mret (copied_total, dataptr)
  | Some p =>
      if len =? 0 then mret (copied_total, dataptr)
      else
        match fuel with
        | O => fail OutOfFuel
        | S fuel =>
            b ← get_pbuf p;
            if negb (offset =? 0) && (offset >=? pb_len b) then
              copy_partial_loop fuel (pb_next b) dataptr len (u16 (offset - pb_len b)) left copied_total
            else
              let n := u16 (pb_len b - offset) in
              let n := if n >? len then len else n in
              bs ← lift (mem_read (pb_payload b) offset n);
              dataptr ← lift (mem_write dataptr left bs);
              copy_partial_loop fuel (pb_next b) dataptr (u16 (len - n)) 0 (u16 (left + n)) (u16 (copied_total + n))
        end
  end.

Definition pbuf_copy_partial (buf : option positive) (dataptr : option (list Z)) (len offset : Z) :
    PB (Z * option (list Z)) :=
  LWIP_ERROR (bool_decide (is_Some buf));;
  match dataptr with
  | None => fail AssertFailure
  | Some data =>
      fuel ← chain_fuel; '(n, data) ← copy_partial_loop fuel buf data len offset 0 0; mret (n, Some data)
  end.

Fixpoint skip_loop (fuel : nat) (q : option positive) (offset_left : Z) : PB (option positive * Z) :=
  match q with
  | None => mret (None, offset_left)
  | Some p =>
      match fuel with
      | O => fail OutOfFuel
      | S fuel =>
          b ← get_pbuf p;
          if pb_len b <=? offset_left then skip_loop fuel (pb_next b) (u16 (offset_left - pb_len b))
          else mret (q, offset_left)
      end
  end.

Definition pbuf_skip_const (input : option positive) (in_offset : Z) : PB (option positive * Z) :=
  fuel ← chain_fuel; skip_loop fuel input in_offset.
Definition pbuf_skip (input : option positive) (in_offset : Z) : PB (option positive * Z) :=
  pbuf_skip_const input in_offset.

Fixpoint take_loop (fuel : nat) (p : option positive) (dataptr : list Z) (total_copy_len copied_total : Z) : PB (Z * Z) :=
  if total_copy_len =? 0 then mret (total_copy_len, copied_total)
  else
    match fuel with
    | O => fail OutOfFuel
    | S fuel =>
        LWIP_ASSERT (bool_decide (is_Some p));;
        p ← deref p; b ← get_pbuf p;
        let n := if total_copy_len >? pb_len b then pb_len b else total_copy_len in
        bs ← lift (mem_read dataptr copied_total n);
        mem ← lift (mem_write (pb_payload b) 0 bs);
        put_pbuf p (set_payload (pb_room b) mem b);;
        take_loop fuel (pb_next b) dataptr (u16 (total_copy_len - n)) (u16 (copied_total + n))
    end.

Definition pbuf_take (buf : option positive) (dataptr : option (list Z)) (len : Z) : PB Z :=
  LWIP_ERROR (bool_decide (is_Some buf));;
  match dataptr with
  | None => fail AssertFailure
  | Some data =>
      p ← deref buf; b ← get_pbuf p;
      LWIP_ERROR (pb_tot_len b >=? len);;
      fuel ← chain_fuel;
      '(total_copy_len, copied_total) ← take_loop fuel buf data len 0;
      LWIP_ASSERT ((total_copy_len =? 0) && (copied_total =? len));;
      mret ERR_OK
  end.

Definition pbuf_take_at (buf : option positive) (dataptr : list Z) (len offset : Z) : PB Z :=
  '(q, target_offset) ← pbuf_skip buf offset;
  match q with
  | None => mret ERR_MEM
  | Some q =>
      b ← get_pbuf q;
      if pb_tot_len b >=? target_offset + len then
        let first_copy_len := u16 (Z.min (pb_len b - target_offset) len) in
        bs ← lift (mem_read dataptr 0 first_copy_len);
        mem ← lift (mem_write (pb_payload b) target_offset bs);
        put_pbuf q (set_payload (pb_room b) mem b);;
        let remaining_len := u16 (len - first_copy_len) in
        if remaining_len >? 0 then pbuf_take (pb_next b) (Some (drop (Z.to_nat first_copy_len) dataptr)) remaining_len
        else mret ERR_OK
      else mret ERR_MEM
  end.

Definition pbuf_coalesce (p : positive) (layer : pbuf_layer) : PB positive :=
  b ← get_pbuf p;
  if bool_decide (pb_next b = None) then mret p
  else
    q ← pbuf_alloc layer (pb_tot_len b) PBUF_RAM;
    match q with
    | None => mret p
    | Some q =>
        err ← pbuf_copy (Some q) (Some p);
        LWIP_ASSERT (err =? ERR_OK);;
        _ ← pbuf_free (Some p);
        mret q
    end.

(** ** Single bytes and searching *)

Definition pbuf_try_get_at (p : option positive) (offset : Z) : PB Z :=
  '(q, q_idx) ← pbuf_skip_const p offset;
  match q with
  | None => mret (-1)
  | Some q =>
      b ← get_pbuf q;
      if pb_len b >? q_idx then lift (arr_get (pb_payload b) q_idx) else mret (-1)
  end.

Definition pbuf_get_at (p : option positive) (offset : Z) : PB Z :=
  ret ← pbuf_try_get_at p offset; mret (if ret >=? 0 then u8 ret else 0).

Definition pbuf_put_at (p : option positive) (offset data : Z) : PB () :=
  '(q, q_idx) ← pbuf_skip p offset;
  match q with
  | None => mret ()
  | Some q =>
      b ← get_pbuf q;
      if pb_len b >? q_idx then
        mem ← lift (arr_set (pb_payload b) q_idx data); put_pbuf q (set_payload (pb_room b) mem b)
      else mret ()
  end.

Fixpoint memcmp_loop (todo : nat) (q : option positive) (start : Z) (s2 : list Z) (i : Z) : PB Z :=
  match todo with
  | O => mret 0
  | S todo =>
      a ← pbuf_get_at q (u16 (start + i));
      b ← lift (arr_get s2 i);
      if negb (a =? b) then mret (u16 (i + 1)) else memcmp_loop todo q start s2 (u16 (i + 1))
  end.

Definition pbuf_memcmp (p : option positive) (offset : Z) (s2 : list Z) (n : Z) : PB Z :=
  hd ← deref p; b ← get_pbuf hd;
  if pb_tot_len b <? offset + n then mret 0xffff
  else
    fuel ← chain_fuel;
    '(q, start) ← skip_loop fuel p offset;
    memcmp_loop (Z.to_nat n) q start s2 0.

Fixpoint memfind_loop (fuel : nat) (p : option positive) (mem : list Z) (mem_len max i : Z) : PB Z :=
  if i <=? max then
    match fuel with
    | O => fail OutOfFuel
    | S fuel =>
        plus ← pbuf_memcmp p i mem mem_len;
        if plus =? 0 then mret i else memfind_loop fuel p mem mem_len max (u16 (i + 1))
    end
  else mret 0xFFFF.

Definition pbuf_memfind (p : option positive) (mem : list Z) (mem_len start_offset : Z) : PB Z :=
  hd ← deref p; b ← get_pbuf hd;
  let max := u16 (pb_tot_len b - mem_len) in
  if pb_tot_len b >=? mem_len + start_offset
  then memfind_loop (Z.to_nat (max - start_offset + 1)) p mem mem_len max start_offset
  else mret 0xFFFF.

Fixpoint strlen (m : list Z) : result Z :=
  match m with
  | [] => Fail OutOfBounds
  | c :: m => if c =? 0 then Ok 0 else n ← strlen m; Ok (n + 1)
  end.

Definition pbuf_strstr (p : option positive) (substr : option (list Z)) : PB Z :=
  match substr with
  | None => mret 0xFFFF
  | Some substr =>
      c ← lift (arr_get substr 0);
      if c =? 0 then mret 0xFFFF
      else
        hd ← deref p; b ← get_pbuf hd;
        if pb_tot_len b =? 0xFFFF then mret 0xFFFF
        else
          substr_len ← lift (strlen substr);
          if substr_len >=? 0xFFFF then mret 0xFFFF
          else pbuf_memfind p substr (u16 substr_len) 0
  end.

End program.

(** * Packets as lists of buffers *)

Abbreviation node := (positive * pbuf)%type.

(** The buffers that follow each other from [p] on. *)
Fixpoint linked (h : heap) (p : option positive) (l : list node) : Prop :=
  match l with
  | [] => p = None
  | (a, b) :: l => p = Some a ∧ h !! a = Some b ∧ linked h (pb_next b) l
  end.

Definition hd_addr (l : list node) : option positive := fst <$> head l.

Fixpoint total (l : list node) : Z :=
  match l with [] => 0 | (_, b) :: l => pb_len b + total l end.

(** The bytes a buffer adds to its packet, and those of the packet. *)
Definition data (b : pbuf) : list Z := take (Z.to_nat (pb_len b)) (pb_payload b).
Fixpoint content (l : list node) : list Z :=
  match l with [] => [] | (_, b) :: l => data b ++ content l end.

Definition buf_ok (b : pbuf) : Prop := 0 ≤ pb_len b ≤ zlen (pb_payload b).

(** [tot_len] is the length from a buffer on. *)
Fixpoint tot_ok (l : list node) : Prop :=
  match l with [] => True | (_, b) :: l => pb_tot_len b = pb_len b + total l ∧ tot_ok l end.

Record packet (h : heap) (p : option positive) (l : list node) : Prop := {
  pk_linked : linked h p l;
  pk_bufs : Forall buf_ok l.*2;
  pk_tot : tot_ok l;
  pk_max : total l < 65536 }.

Lemma bufs_cons a b (l : list node) : Forall buf_ok ((a, b) :: l).*2 ↔ buf_ok b ∧ Forall buf_ok l.*2.
Proof. apply Forall_cons_iff. Qed.

Lemma linked_hd h p l : linked h p l → p = hd_addr l.
Proof. destruct l as [|[a b] l]; [done|]. by intros (-> & _). Qed.

Lemma linked_cons h p a b l :
  linked h p ((a, b) :: l) ↔ p = Some a ∧ h !! a = Some b ∧ linked h (pb_next b) l.
Proof. done. Qed.

Lemma linked_app_inv h p l1 l2 : linked h p (l1 ++ l2) → ∃ q, linked h q l2 ∧ (l1 = [] → q = p).
Proof.
  revert p. induction l1 as [|[a b] l1 IH]; intros p H; [by exists p|].
  destruct H as (_ & _ & (q & Hq & _)%IH). by exists q.
Qed.

Lemma linked_suffix h p l1 l2 : linked h p (l1 ++ l2) → linked h (hd_addr l2) l2.
Proof. intros (q & Hq & _)%linked_app_inv. by rewrite <- (linked_hd _ _ _ Hq). Qed.

Lemma linked_lookup h p l a b : linked h p l → (a, b) ∈ l → h !! a = Some b.
Proof.
  revert p. induction l as [|[a' b'] l IH]; intros p; [by intros _ ?%list.elem_of_nil|].
  intros (_ & Hb & Hl) [[= -> ->]|Hin]%list.elem_of_cons; [done|]. by eapply IH.
Qed.

(** The list is determined by the heap. *)
Lemma linked_det h p l l' : linked h p l → linked h p l' → l = l'.
Proof.
  revert p l'. induction l as [|[a b] l IH]; intros p [|[a' b'] l'].
  - done.
  - by intros -> (? & _).
  - by intros (-> & _) ?.
  - intros (-> & Hb & Hl) ([= <-] & Hb' & Hl'). rewrite Hb in Hb'. injection Hb' as <-.
    f_equal. by eapply IH.
Qed.

(** So no buffer comes twice. *)
Lemma linked_NoDup h p l : linked h p l → NoDup l.*1.
Proof.
  revert p. induction l as [|[a b] l IH]; intros p H; [constructor|].
  cbn. apply list.NoDup_cons. split; [|by destruct H as (_ & _ & ?%IH)].
  intros ([a' b'] & Ha & (l1 & l2 & ->)%list_elem_of_split)%list_elem_of_fmap.
  cbn in Ha. subst a'.
  assert (linked h (Some a) ((a, b') :: l2)) as H2
    by (destruct H as (_ & _ & H); by apply linked_suffix in H).
  pose proof H as (-> & _). pose proof (linked_det _ _ _ _ H H2) as E.
  apply (f_equal length) in E. cbn in E. rewrite length_app in E. cbn in E. lia.
Qed.

Lemma linked_length h p l : linked h p l → (length l ≤ size h)%nat.
Proof.
  intros H. pose proof (linked_NoDup _ _ _ H) as Hn.
  rewrite <- (length_fmap fst), <- (size_list_to_set (C := gset positive)) by done.
  rewrite <- size_dom. apply subseteq_size. intros a Ha.
  apply elem_of_list_to_set, list_elem_of_fmap in Ha as ([a' b'] & -> & Hin).
  apply elem_of_dom. exists b'. by eapply linked_lookup.
Qed.

(** What lies outside a chain does not matter to it. *)
Lemma linked_ext h h' p l : linked h p l → (∀ a, a ∈ l.*1 → h' !! a = h !! a) → linked h' p l.
Proof.
  revert p. induction l as [|[a b] l IH]; intros p; [done|].
  intros (-> & Hb & Hl) He. split_and!; [done| |].
  - rewrite He by (cbn; apply list.elem_of_cons; by left). done.
  - apply IH; [done|]. intros a' Ha'. apply He. cbn. apply list.elem_of_cons. by right.
Qed.

Lemma linked_insert_out h p l a b : linked h p l → a ∉ l.*1 → linked (<[a := b]> h) p l.
Proof.
  intros Hl Ha. eapply linked_ext; [done|]. intros a' Ha'. rewrite lookup_insert_ne; [done|]. by intros ->.
Qed.

Lemma data_length b : buf_ok b → zlen (data b) = pb_len b.
Proof. intros [? ?]. unfold data. len_lia. Qed.

Lemma total_nonneg l : Forall buf_ok l.*2 → 0 ≤ total l.
Proof. induction l as [|[a b] l IH]; [done|]. intros [[? _] ?%IH]%bufs_cons. cbn. lia. Qed.

Lemma content_length l : Forall buf_ok l.*2 → zlen (content l) = total l.
Proof.
  induction l as [|[a b] l IH]; [done|]. intros [Hb%data_length Hl%IH]%bufs_cons. cbn [content total].
  unfold zlen in *. rewrite length_app. lia.
Qed.

Lemma content_app l1 l2 : content (l1 ++ l2) = content l1 ++ content l2.
Proof. induction l1 as [|[a b] l1 IH]; [done|]. cbn. by rewrite IH, app_assoc. Qed.

Lemma total_app l1 l2 : total (l1 ++ l2) = total l1 + total l2.
Proof. induction l1 as [|[a b] l1 IH]; cbn; [done|lia]. Qed.

Lemma packet_tail h p a b l : packet h p ((a, b) :: l) → packet h (pb_next b) l.
Proof.
  intros [(_ & _ & ?) [? Hl]%bufs_cons [_ ?] Hm]. split; [done..|]. cbn in Hm. unfold buf_ok in *. lia.
Qed.

Lemma packet_suffix h p l1 l2 : packet h p (l1 ++ l2) → packet h (hd_addr l2) l2.
Proof.
  revert p. induction l1 as [|[a b] l1 IH]; intros p H.
  - by rewrite <- (linked_hd h p l2 (pk_linked _ _ _ H)).
  - eapply IH, packet_tail, H.
Qed.

Lemma packet_ext h h' p l : packet h p l → (∀ a, a ∈ l.*1 → h' !! a = h !! a) → packet h' p l.
Proof. intros [? ? ? ?] He. split; [by eapply linked_ext|done..]. Qed.

(** The head of a packet that is not empty. *)
Lemma packet_head h p l a : packet h p l → p = Some a →
  ∃ b l', l = (a, b) :: l' ∧ h !! a = Some b ∧ buf_ok b ∧ pb_tot_len b = total l.
Proof.
  intros [Hl Hb Ht _] ->. destruct l as [|[a' b] l]; [done|]. destruct Hl as ([= <-] & Hh & _).
  exists b, l. split_and!; [done..|by apply bufs_cons in Hb as [? _]|by destruct Ht].
Qed.

Lemma get_pbuf_ok s p b : bufs s !! p = Some b → get_pbuf p s = Ok (b, s).
Proof. intros H. unfold get_pbuf. by rewrite H. Qed.

(** Runs [get_pbuf], knowing what is at the address. *)
Ltac load H := rewrite (bind_of_ok _ _ _ _ _ (get_pbuf_ok _ _ _ H)).

(** * Reading a packet *)

Lemma skip_loop_ok s l fuel off :
  linked (bufs s) (hd_addr l) l → Forall buf_ok l.*2 → (length l ≤ fuel)%nat → 0 ≤ off < 65536 →
  ∃ l1 l2, l = l1 ++ l2 ∧ skip_loop fuel (hd_addr l) off s = Ok (hd_addr l2, off - total l1, s) ∧
    total l1 ≤ off ∧ (∀ a b l', l2 = (a, b) :: l' → off - total l1 < pb_len b).
Proof.
  revert fuel off. induction l as [|[a b] l IH]; intros fuel off Hl Hb Hf Ho.
  - exists [], []. split_and!; [done| |cbn; lia|done]. destruct fuel; cbn; by rewrite Z.sub_0_r.
  - destruct fuel as [|fuel]; [cbn in Hf; lia|]. apply bufs_cons in Hb as [Hb Hbs]. destruct Hl as (_ & Ha & Hl).
    cbn [hd_addr head fmap option_fmap option_map fst skip_loop]. load Ha.
    pose proof Hb as [Hb0 _]. destruct (Z.leb_spec (pb_len b) off).
    + rewrite (linked_hd _ _ _ Hl) in Hl |- *.
      destruct (IH fuel (off - pb_len b) Hl Hbs ltac:(cbn in Hf; lia) ltac:(lia)) as (l1 & l2 & -> & E & Ht & Hx).
      exists ((a, b) :: l1), l2. rewrite u16_small by lia. cbn [total].
      split_and!; [done| |lia|intros a' b' l' ->; specialize (Hx a' b' l' eq_refl); lia].
      rewrite E. do 3 f_equal. lia.
    + exists [], ((a, b) :: l). cbn [total]. rewrite Z.sub_0_r. split_and!; [done..|lia|]. by intros ? ? ? [= <- <- <-].
Qed.

Lemma skip_ok s l off :
  packet (bufs s) (hd_addr l) l → 0 ≤ off < 65536 →
  ∃ l1 l2, l = l1 ++ l2 ∧ pbuf_skip_const (hd_addr l) off s = Ok (hd_addr l2, off - total l1, s) ∧
    total l1 ≤ off ∧ (∀ a b l', l2 = (a, b) :: l' → off - total l1 < pb_len b).
Proof.
  intros [Hl Hb _ _] Ho. apply skip_loop_ok; [done..| |done]. pose proof (linked_length _ _ _ Hl). lia.
Qed.

Lemma content_lookup l1 a b l' off :
  Forall buf_ok (l1 ++ (a, b) :: l').*2 → total l1 ≤ off < total l1 + pb_len b →
  content (l1 ++ (a, b) :: l') !! Z.to_nat off = pb_payload b !! Z.to_nat (off - total l1).
Proof.
  intros Hb Ho. rewrite fmap_app in Hb. apply Forall_app in Hb as [Hb1 [Hb _]%bufs_cons].
  pose proof (content_length _ Hb1) as Hc. pose proof (data_length _ Hb) as Hd. unfold zlen in *.
  rewrite content_app. cbn [content]. rewrite lookup_app_r by lia. rewrite lookup_app_l by lia.
  unfold data. rewrite lookup_take_lt by lia. f_equal. lia.
Qed.

(** [pbuf_try_get_at] is indexing. *)
Lemma try_get_at_ok s p l off :
  packet (bufs s) p l → 0 ≤ off < 65536 →
  pbuf_try_get_at p off s = Ok (default (-1) (content l !! Z.to_nat off), s).
Proof.
  intros Hp Ho. pose proof (linked_hd _ _ _ (pk_linked _ _ _ Hp)) as ->.
  destruct (skip_ok s l off Hp Ho) as (l1 & l2 & -> & E & Ht & Hx).
  unfold pbuf_try_get_at. rewrite (bind_of_ok _ _ _ _ _ E). cbv beta iota.
  destruct l2 as [|[a b] l2]; cbn [hd_addr head fmap option_fmap option_map fst].
  - rewrite app_nil_r in *. pose proof (content_length _ (pk_bufs _ _ _ Hp)). unfold zlen in *.
    rewrite lookup_ge_None_2 by lia. done.
  - specialize (Hx a b l2 eq_refl). pose proof (packet_suffix _ _ _ _ Hp) as Hs.
    destruct (packet_head _ _ _ a Hs eq_refl) as (b' & l' & [= <- <-] & Ha & Hb & _).
    load Ha. destruct (Z.gtb_spec (pb_len b) (off - total l1)); [|lia].
    rewrite content_lookup by (apply Hp || lia).
    destruct (lookup_lt_is_Some_2 (pb_payload b) (Z.to_nat (off - total l1))) as [x Hx'];
      [destruct Hb; unfold zlen in *; lia|].
    rewrite Hx'. apply arr_get_nat in Hx'. rewrite Z2Nat.id in Hx' by lia. unfold lift. by rewrite Hx'.
Qed.

(** The bytes of [x ++ y] from an offset within [x]. *)
Lemma slice_app (x y : list Z) off n :
  (off ≤ length x)%nat → take n (drop off (x ++ y)) = take n (drop off x) ++ take (n - (length x - off)) y.
Proof. intros. rewrite drop_app_le by done. rewrite take_app, length_drop. done. Qed.

Lemma read_data b off n :
  buf_ok b → 0 ≤ off → 0 ≤ n → off + n ≤ pb_len b →
  mem_read (pb_payload b) off n = Ok (take (Z.to_nat n) (drop (Z.to_nat off) (data b))).
Proof.
  intros [??] ???. rewrite mem_read_ok by lia. f_equal. unfold data.
  rewrite skipn_firstn_comm, take_take. f_equal. lia.
Qed.

Lemma copy_partial_loop_ok s l fuel pre rest len off :
  linked (bufs s) (hd_addr l) l → Forall buf_ok l.*2 → total l < 65536 → (length l ≤ fuel)%nat →
  0 ≤ len < 65536 → 0 ≤ off < 65536 →
  let cp := take (Z.to_nat len) (drop (Z.to_nat off) (content l)) in
  zlen cp ≤ zlen rest → zlen pre + zlen cp < 65536 →
  copy_partial_loop fuel (hd_addr l) (pre ++ rest) len off (zlen pre) (zlen pre) s =
  Ok (zlen pre + zlen cp, pre ++ cp ++ drop (length cp) rest, s).
Proof.
  revert fuel pre rest len off. induction l as [|[a b] l IH]; intros fuel pre rest len off Hl Hb Ht Hf Hn Ho cp Hr Hm.
  - unfold cp. cbn [content]. rewrite drop_nil, take_nil. destruct fuel; cbn; by rewrite Z.add_0_r, drop_0.
  - destruct fuel as [|fuel]; [cbn in Hf; lia|]. apply bufs_cons in Hb as [Hb Hbs]. destruct Hl as (_ & Ha & Hl).
    cbn [hd_addr head fmap option_fmap option_map fst copy_partial_loop].
    destruct (Z.eqb_spec len 0) as [->|Hn0].
    { unfold cp. cbn. by rewrite Z.add_0_r, drop_0. }
    load Ha. cbn zeta. pose proof (data_length b Hb) as Hd. pose proof Hb as [Hb0 _].
    pose proof (total_nonneg _ Hbs). cbn [total] in Ht.
    pose proof (linked_hd _ _ _ Hl) as Hh. rewrite Hh in *. cbn in Hf.
    destruct (negb (off =? 0) && (off >=? pb_len b)) eqn:Eo.
    + assert (off ≠ 0 ∧ pb_len b ≤ off) as [? ?] by lia. rewrite u16_small by lia.
      assert (cp = take (Z.to_nat len) (drop (Z.to_nat (off - pb_len b)) (content l))) as Ecp.
      { unfold cp. cbn [content]. unfold zlen in Hd. rewrite drop_app_ge by lia. do 2 f_equal. lia. }
      rewrite Ecp in *. apply IH; (done || lia).
    + assert (off ≤ pb_len b) as Hle by lia. unfold zlen in Hd.
      rewrite (u16_small (pb_len b - off)) by lia.
      set (n := if pb_len b - off >? len then len else pb_len b - off).
      assert (n = Z.min len (pb_len b - off)) as En by (unfold n; destruct (Z.gtb_spec (pb_len b - off) len); lia).
      rewrite (lift_bind _ _ _ _ (read_data b off n Hb ltac:(lia) ltac:(lia) ltac:(lia))).
      set (bs := take (Z.to_nat n) (drop (Z.to_nat off) (data b))).
      assert (zlen bs = n) as Hbs' by (unfold bs; len_lia).
      set (cp' := take (Z.to_nat (len - n)) (drop (Z.to_nat 0) (content l))).
      assert (cp = bs ++ cp') as Ecp.
      { unfold cp, cp', bs. cbn [content]. rewrite slice_app by lia. f_equal.
        - destruct (Z.min_spec len (pb_len b - off)) as [[? ?]|[? ?]]; [by replace n with len by lia|].
          rewrite !take_ge by (rewrite length_drop; lia). done.
        - change (Z.to_nat 0) with 0%nat. rewrite drop_0. destruct (Z.min_spec len (pb_len b - off)) as [[? ?]|[? ?]].
          + replace (Z.to_nat (len - n)) with 0%nat by lia. rewrite take_0. by replace (_ - _)%nat with 0%nat by lia.
          + f_equal. lia. }
      rewrite Ecp in *. assert (zlen (bs ++ cp') = n + zlen cp') as Hz by len_lia.
      rewrite (lift_bind _ _ _ _ (mem_write_over pre rest bs ltac:(unfold zlen in *; lia))).
      pose proof (Nat2Z.is_nonneg (length pre)). pose proof (Nat2Z.is_nonneg (length cp')). 
      rewrite (u16_small (len - n)), (u16_small (zlen pre + n)) by (unfold zlen in *; lia).
      assert (zlen pre + n = zlen (pre ++ bs)) as Ep by len_lia. rewrite Ep.
      assert (zlen (drop (length bs) rest) = zlen rest - n) as Er by len_lia.
      rewrite (IH fuel (pre ++ bs) (drop (length bs) rest) (len - n) 0) by (done || (fold cp'; lia)).
      fold cp'. rewrite <- Ep, Hz, Z.add_assoc. do 3 f_equal.
      rewrite drop_drop, length_app, <- !app_assoc. done.
Qed.

(** [pbuf_copy_partial] copies the bytes of the packet from an offset on, as
    many as asked for and present, to the front of the destination, and
    returns their number; the packet and the rest of the destination are
    untouched. *)
Theorem pbuf_copy_partial_slice s p l dst len off :
  packet (bufs s) p l → p ≠ None → 0 ≤ len < 65536 → 0 ≤ off < 65536 →
  let cp := take (Z.to_nat len) (drop (Z.to_nat off) (content l)) in
  zlen cp ≤ zlen dst →
  pbuf_copy_partial p (Some dst) len off s = Ok (zlen cp, Some (cp ++ drop (length cp) dst), s).
Proof.
  intros [Hl Hb _ Hm] Hp Hn Ho cp Hd. pose proof (linked_hd _ _ _ Hl) as ->.
  unfold pbuf_copy_partial, LWIP_ERROR, LWIP_ASSERT. rewrite bool_decide_true by (by apply not_eq_None_Some).
  assert (zlen cp ≤ total l) by (rewrite <- content_length by done; unfold cp; len_lia).
  erewrite bind_of_ok by done. erewrite bind_of_ok by done. cbv beta.
  erewrite bind_of_ok by (apply (copy_partial_loop_ok s l _ [] dst len off); try done;
    [pose proof (linked_length _ _ _ Hl); lia|fold cp; change (zlen []) with 0; lia]).
  done.
Qed.

(** ** Comparing and searching *)

(** The place of the first difference, counted from 1, or 0. *)
Fixpoint first_diff (a b : list Z) : Z :=
  match a, b with
  | x :: a, y :: b => if x =? y then let d := first_diff a b in if d =? 0 then 0 else d + 1 else 1
  | _, _ => 0
  end.

Lemma first_diff_range a b : 0 ≤ first_diff a b ≤ zlen a.
Proof.
  revert b. induction a as [|x a IH]; intros [|y b]; cbn [first_diff]; try (unfold zlen; cbn; lia).
  specialize (IH b). destruct (x =? y), (first_diff a b =? 0) eqn:E; len_lia.
Qed.

Lemma first_diff_eq a b : length a = length b → first_diff a b = 0 ↔ a = b.
Proof.
  revert b. induction a as [|x a IH]; intros [|y b] Hl; cbn [first_diff]; try done.
  injection Hl as Hl. destruct (Z.eqb_spec x y) as [->|Hn]; [|split; [done|congruence]].
  pose proof (first_diff_range a b). destruct (Z.eqb_spec (first_diff a b) 0) as [E|E].
  - apply IH in E as ->; [done|done].
  - split; [lia|]. intros [= E']. by apply IH in E'.
Qed.

(** [n] bytes from an offset. *)
Definition slice (l : list Z) (off n : Z) : list Z := take (Z.to_nat n) (drop (Z.to_nat off) l).

Lemma slice_length l off n : 0 ≤ off → 0 ≤ n → off + n ≤ zlen l → zlen (slice l off n) = n.
Proof. intros. unfold slice. len_lia. Qed.

Lemma slice_cons l off n x :
  0 ≤ off → 0 < n → l !! Z.to_nat off = Some x → slice l off n = x :: slice l (off + 1) (n - 1).
Proof.
  intros Ho Hn Hx. unfold slice. rewrite (drop_S l x (Z.to_nat off)) by done.
  replace (Z.to_nat n) with (S (Z.to_nat (n - 1))) by lia. cbn. do 2 f_equal. f_equal. lia.
Qed.

Lemma get_at_ok s q l off x :
  packet (bufs s) q l → 0 ≤ off < 65536 → content l !! Z.to_nat off = Some x → byte_ok x →
  pbuf_get_at q off s = Ok (x, s).
Proof.
  intros Hp Ho Hx Hb. unfold byte_ok in Hb. unfold pbuf_get_at.
  rewrite (bind_of_ok _ _ _ _ _ (try_get_at_ok s q l off Hp Ho)), Hx. cbn [default from_option id].
  destruct (Z.geb_spec x 0); [|lia]. by rewrite u8_small by lia.
Qed.

Lemma memcmp_loop_ok s q l start s2 i todo :
  packet (bufs s) q l → bytes_ok (content l) → 0 ≤ start → 0 ≤ i →
  start + i + Z.of_nat todo ≤ total l → i + Z.of_nat todo ≤ zlen s2 → i + Z.of_nat todo < 65536 →
  memcmp_loop todo q start s2 i s =
  Ok (let d := first_diff (slice (content l) (start + i) (Z.of_nat todo)) (slice s2 i (Z.of_nat todo)) in
      if d =? 0 then 0 else i + d, s).
Proof.
  intros Hp Hok Hs. pose proof (content_length _ (pk_bufs _ _ _ Hp)) as Hc. pose proof (pk_max _ _ _ Hp).
  revert i. induction todo as [|todo IH]; intros i Hi Ht Hl Hm.
  - done.
  - cbn [memcmp_loop]. unfold zlen in *. rewrite (u16_small (start + i)) by lia.
    destruct (lookup_lt_is_Some_2 (content l) (Z.to_nat (start + i))) as [x Hx]; [lia|].
    destruct (lookup_lt_is_Some_2 s2 (Z.to_nat i)) as [y Hy]; [lia|].
    assert (0 ≤ x < 256) as Hxr by (apply (Forall_lookup_1 _ _ _ _ Hok Hx)).
    rewrite (bind_of_ok _ _ _ _ _ (get_at_ok s q l (start + i) x Hp ltac:(lia) Hx Hxr)).
    pose proof Hy as Hy'. apply arr_get_nat in Hy'. rewrite Z2Nat.id in Hy' by lia.
    rewrite (lift_bind _ _ _ _ Hy').
    rewrite (slice_cons _ (start + i) _ x) by (done || lia). rewrite (slice_cons _ i _ y) by (done || lia).
    replace (Z.of_nat (S todo) - 1) with (Z.of_nat todo) by lia. cbn [first_diff].
    rewrite (u16_small (i + 1)) by lia.
    destruct (Z.eqb_spec x y) as [->|Hn]; cbn [negb]; [|done].
    rewrite IH by lia. rewrite Z.add_assoc.
    pose proof (first_diff_range (slice (content l) (start + i + 1) (Z.of_nat todo)) (slice s2 (i + 1) (Z.of_nat todo))).
    set (d := first_diff _ _) in *. cbv zeta. destruct (Z.eqb_spec d 0); [done|].
    destruct (Z.eqb_spec (d + 1) 0); [lia|]. do 2 f_equal. lia.
Qed.

Lemma slice_skip l1 l2 off n :
  Forall buf_ok l1.*2 → total l1 ≤ off → slice (content (l1 ++ l2)) off n = slice (content l2) (off - total l1) n.
Proof.
  intros Hb Ho. pose proof (content_length _ Hb) as Hc. unfold zlen in Hc. unfold slice.
  rewrite content_app, drop_app_ge by lia. do 2 f_equal. lia.
Qed.

Lemma memcmp_ok s p l off s2 n :
  packet (bufs s) p l → p ≠ None → bytes_ok (content l) → 0 ≤ off < 65536 → 0 ≤ n < 65536 → n ≤ zlen s2 →
  pbuf_memcmp p off s2 n s =
  Ok (if total l <? off + n then 0xffff else first_diff (slice (content l) off n) (slice s2 0 n), s).
Proof.
  intros Hp Hn Hok Ho Hr Hs. destruct p as [a|]; [|done]. unfold pbuf_memcmp, deref. erewrite bind_of_ok by done.
  destruct (packet_head _ _ _ a Hp eq_refl) as (b & l' & El & Ha & _ & Ht). load Ha. rewrite Ht.
  destruct (Z.ltb_spec (total l) (off + n)); [done|].
  pose proof (linked_hd _ _ _ (pk_linked _ _ _ Hp)) as Eh. rewrite Eh in Hp |- *.
  destruct (skip_ok s l off Hp Ho) as (l1 & l2 & E12 & E & Hl1 & _). clear El. subst l.
  unfold pbuf_skip_const in E. erewrite bind_of_ok by done. erewrite bind_of_ok in E by done.
  rewrite (bind_of_ok _ _ _ _ _ E). cbv beta iota.
  pose proof (packet_suffix _ _ _ _ Hp) as Hs2. rewrite content_app in Hok. apply Forall_app in Hok as [_ Hok2].
  pose proof (pk_bufs _ _ _ Hp) as Hb. rewrite fmap_app in Hb. apply Forall_app in Hb as [Hb1 _].
  rewrite total_app in *. rewrite (memcmp_loop_ok s _ l2) by (done || lia).
  rewrite slice_skip by done. rewrite !Z2Nat.id, Z.add_0_r by lia.
  cbv zeta. set (d := first_diff _ _). destruct (Z.eqb_spec d 0) as [->|]; done.
Qed.

(** [pbuf_memcmp] is 0 exactly when the bytes at an offset are the given
    ones, 0xffff when the packet is too short, and else the place of the first
    difference counted from 1. *)
Lemma pbuf_memcmp_spec s p l off s2 n :
  packet (bufs s) p l → p ≠ None → bytes_ok (content l) → 0 ≤ off < 65536 → 0 ≤ n < 65536 → n ≤ zlen s2 →
  ∃ r, pbuf_memcmp p off s2 n s = Ok (r, s) ∧
    (total l < off + n → r = 0xffff) ∧
    (off + n ≤ total l → r = first_diff (slice (content l) off n) (slice s2 0 n) ∧
      (r = 0 ↔ slice (content l) off n = slice s2 0 n)).
Proof.
  intros Hp Hn Hok Ho Hr Hs. rewrite (memcmp_ok s p l off s2 n) by done. eexists. split; [done|].
  pose proof (content_length _ (pk_bufs _ _ _ Hp)).
  destruct (Z.ltb_spec (total l) (off + n)); [split; [done|lia]|]. split; [lia|]. intros _. split; [done|].
  apply first_diff_eq. apply Nat2Z.inj.
  change (zlen (slice (content l) off n) = zlen (slice s2 0 n)). rewrite !slice_length by lia. done.
Qed.

(** The first place from [start] on at which [n] bytes of [c] are those of [m],
    or 0xFFFF. *)
Definition first_match (c m : list Z) (n start r : Z) : Prop :=
  (start ≤ r ∧ r + n ≤ zlen c ∧ slice c r n = slice m 0 n ∧ ∀ i, start ≤ i < r → slice c i n ≠ slice m 0 n) ∨
  (r = 0xFFFF ∧ ∀ i, start ≤ i → i + n ≤ zlen c → slice c i n ≠ slice m 0 n).

Lemma memfind_loop_ok s p l m n fuel i :
  packet (bufs s) p l → p ≠ None → bytes_ok (content l) → 0 ≤ n < 65536 → n ≤ zlen m →
  0 ≤ i → (Z.to_nat (total l - n + 1 - i) ≤ fuel)%nat →
  ∃ r, memfind_loop fuel p m n (total l - n) i s = Ok (r, s) ∧ first_match (content l) m n i r.
Proof.
  intros Hp Hnn Hok Hn Hm. pose proof (content_length _ (pk_bufs _ _ _ Hp)) as Hc. pose proof (pk_max _ _ _ Hp).
  revert i. induction fuel as [|fuel IH]; intros i Hi Hf; cbn [memfind_loop].
  - destruct (Z.leb_spec i (total l - n)); [lia|]. exists 0xFFFF. split; [done|]. right. split; [done|]. lia.
  - destruct (Z.leb_spec i (total l - n)) as [Hle|];
      [|exists 0xFFFF; split; [done|]; right; split; [done|]; lia].
    destruct (pbuf_memcmp_spec s p l i m n Hp Hnn Hok ltac:(lia) Hn Hm) as (r & E & _ & Hr).
    rewrite (bind_of_ok _ _ _ _ _ E). destruct (Hr ltac:(lia)) as [_ H0].
    destruct (Z.eqb_spec r 0) as [E0|Hr0].
    + exists i. split; [done|]. left. split_and!; [lia..|by apply H0|lia].
    + assert (slice (content l) i n ≠ slice m 0 n) as Hne by (by intros ?%H0).
      assert (n ≠ 0) as Hn0 by (intros ->; by apply Hne).
      rewrite u16_small by lia. destruct (IH (i + 1) ltac:(lia) ltac:(lia)) as (r' & E' & Hf').
      exists r'. split; [done|].
      assert (∀ j, i ≤ j → slice (content l) j n = slice m 0 n → i + 1 ≤ j) as Hj.
      { intros j Hj Ej. destruct (decide (j = i)) as [->|]; [done|lia]. }
      destruct Hf' as [(? & ? & ? & Hall)|[? Hall]].
      * left. split_and!; [lia..|done|]. intros j Hij Ej. apply (Hall j); [|done]. specialize (Hj j). intuition lia.
      * right. split; [done|]. intros j Hij Hjn Ej. apply (Hall j); [|done..]. specialize (Hj j). intuition lia.
Qed.

Lemma memfind_ok s p l m n start :
  packet (bufs s) p l → p ≠ None → bytes_ok (content l) → 0 ≤ n < 65536 → n ≤ zlen m → 0 ≤ start < 65536 →
  ∃ r, pbuf_memfind p m n start s = Ok (r, s) ∧ first_match (content l) m n start r.
Proof.
  intros Hp Hnn Hok Hn Hm Hst. pose proof (content_length _ (pk_bufs _ _ _ Hp)) as Hc.
  pose proof (pk_max _ _ _ Hp) as Hmax. destruct p as [a|]; [|done]. unfold pbuf_memfind, deref.
  destruct (packet_head _ _ _ a Hp eq_refl) as (b & l' & _ & Ha & _ & Ht).
  erewrite bind_of_ok by done. load Ha. rewrite Ht. cbv zeta. destruct (Z.geb_spec (total l) (n + start)).
  - rewrite u16_small by lia. apply memfind_loop_ok; (done || lia).
  - exists 0xFFFF. split; [done|]. right. split; [done|]. lia.
Qed.

Lemma strlen_ok m k : Forall (λ c, c ≠ 0) m → strlen (m ++ 0 :: k) = Ok (zlen m).
Proof.
  induction m as [|c m IH]; [done|]. intros [Hc Hm]%Forall_cons_iff. cbn [app strlen].
  destruct (Z.eqb_spec c 0); [done|]. rewrite IH by done. cbn. f_equal. len_lia.
Qed.

Lemma strstr_ok s p l m k :
  packet (bufs s) p l → p ≠ None → bytes_ok (content l) → total l < 0xFFFF →
  Forall (λ c, c ≠ 0) m → 0 < zlen m < 0xFFFF →
  ∃ r, pbuf_strstr p (Some (m ++ 0 :: k)) s = Ok (r, s) ∧ first_match (content l) m (zlen m) 0 r.
Proof.
  intros Hp Hnn Hok Ht Hm Hl. unfold pbuf_strstr. pose proof Hm as Hm'. destruct m as [|c m]; [unfold zlen in *; cbn in *; lia|].
  apply Forall_cons_iff in Hm' as [Hc _]. erewrite lift_bind by done.
  destruct (Z.eqb_spec c 0); [done|]. destruct p as [a|]; [|done]. unfold deref. erewrite bind_of_ok by done.
  destruct (packet_head _ _ _ a Hp eq_refl) as (b & l' & _ & Ha & _ & Htot). load Ha. rewrite Htot.
  destruct (Z.eqb_spec (total l) 0xFFFF); [lia|]. rewrite (lift_bind _ _ _ _ (strlen_ok (c :: m) k Hm)).
  destruct (Z.geb_spec (zlen (c :: m)) 0xFFFF); [lia|]. rewrite u16_small by lia.
  assert (slice ((c :: m) ++ 0 :: k) 0 (zlen (c :: m)) = slice (c :: m) 0 (zlen (c :: m))) as Es.
  { unfold slice, zlen. rewrite Nat2Z.id. change (Z.to_nat 0) with 0%nat. rewrite !drop_0, take_app_length. by rewrite take_ge. }
  destruct (memfind_ok s (Some a) l ((c :: m) ++ 0 :: k) (zlen (c :: m)) 0 Hp) as (r & E & Hf);
    [done|done|lia|len_lia|lia|].
  exists r. split; [done|]. unfold first_match in *. by rewrite Es in Hf.
Qed.

(** (C35) [pbuf_memfind] returns the first place from an offset on at which the
    packet has the given bytes, and 0xFFFF when there is none, however the
    buffers cut the packet; [pbuf_strstr] does the same with a string that is
    not empty, in a packet of less than 65535 bytes. *)
Theorem pbuf_search_first s p l :
  packet (bufs s) p l → p ≠ None → bytes_ok (content l) →
  (∀ m n start, 0 ≤ n < 65536 → n ≤ zlen m → 0 ≤ start < 65536 →
    ∃ r, pbuf_memfind p m n start s = Ok (r, s) ∧ first_match (content l) m n start r) ∧
  (∀ m k, total l < 0xFFFF → Forall (λ c, c ≠ 0) m → 0 < zlen m < 0xFFFF →
    ∃ r, pbuf_strstr p (Some (m ++ 0 :: k)) s = Ok (r, s) ∧ first_match (content l) m (zlen m) 0 r).
Proof. intros Hp Hn Hok. split; intros; [by apply memfind_ok|by apply strstr_ok]. Qed.

(** * Examples *)

(** Seven bytes in three buffers of the pool, two bytes of room in front. *)
Definition example_packet : list node :=
  [(1%positive, mk_pbuf (Some 2%positive) [50; 51] [10; 11; 12; 99] 7 3 PBUF_POOL 0 1);
   (2%positive, mk_pbuf (Some 3%positive) [] [13] 4 1 PBUF_POOL 0 1);
   (3%positive, mk_pbuf None [] [11; 12; 13] 3 3 PBUF_POOL 0 1)].
Definition example_store : store := mk_store (list_to_map example_packet) false.

Lemma example_ok : packet (bufs example_store) (Some 1%positive) example_packet.
Proof.
  split; [by split_and!| |by split_and!|reflexivity].
  repeat (apply bufs_cons; split; [split; vm_compute; discriminate|]). constructor.
Qed.
Lemma example_bytes : bytes_ok (content example_packet).
Proof. repeat constructor; unfold byte_ok; cbn; lia. Qed.

Lemma pbuf_copy_partial_slice_witness :
  pbuf_copy_partial (Some 1%positive) (Some [0; 0; 0; 0; 0]) 4 2 example_store = Ok (4, Some [12; 13; 11; 12; 0], example_store).
Proof.
  rewrite (pbuf_copy_partial_slice example_store (Some 1%positive) example_packet [0; 0; 0; 0; 0] 4 2 example_ok
    ltac:(discriminate) ltac:(lia) ltac:(lia) ltac:(vm_compute; discriminate)). reflexivity.
Defined.

Lemma pbuf_search_first_witness :
  ∃ r, pbuf_memfind (Some 1%positive) [11; 12; 13] 3 2 example_store = Ok (r, example_store) ∧
    first_match [10; 11; 12; 13; 11; 12; 13] [11; 12; 13] 3 2 r.
Proof.
  apply (proj1 (pbuf_search_first example_store (Some 1%positive) example_packet example_ok ltac:(discriminate) example_bytes)).
  - lia.
  - vm_compute. discriminate.
  - lia.
Defined.
