(* ===== verification/LwipPbufWrite.v ===== *)
(** Operations of [lwip/src/core/pbuf.c] that change packets: filling them with
    data, joining them, hiding and revealing headers. *)
From stdpp Require Import gmap.
From S2P Require Import Prelude.
From S2P Require Import LwipPbuf.

(** * Storing the buffers of a chain *)

Fixpoint store_nodes (l : list node) (h : heap) : heap :=
  match l with [] => h | (a, b) :: l => store_nodes l (<[a := b]> h) end.

(** A list of buffers whose links are right. *)
Fixpoint chained (p : option positive) (l : list node) : Prop :=
  match l with [] => p = None | (a, b) :: l => p = Some a ∧ chained (pb_next b) l end.

Abbreviation stored h := (Forall (λ x : node, h !! x.1 = Some x.2)).

Lemma linked_iff h p l : linked h p l ↔ chained p l ∧ stored h l.
Proof.
  revert p. induction l as [|[a b] l IH]; intros p; cbn; [intuition constructor|].
  rewrite IH, Forall_cons_iff. cbn. tauto.
Qed.

Lemma linked_chained h p l : linked h p l → chained p l.
Proof. by intros [? _]%linked_iff. Qed.

Lemma store_nodes_out l h a : a ∉ l.*1 → store_nodes l h !! a = h !! a.
Proof.
  revert h. induction l as [|[a' b] l IH]; intros h; [done|]. cbn. intros Ha.
  apply list.not_elem_of_cons in Ha as [? ?]. rewrite IH by done. by rewrite lookup_insert_ne.
Qed.

Lemma store_nodes_in l h : NoDup l.*1 → stored (store_nodes l h) l.
Proof.
  revert h. induction l as [|[a b] l IH]; intros h; [constructor|]. cbn.
  intros [Ha Hn]%list.NoDup_cons. constructor; [|by apply IH]. cbn.
  rewrite store_nodes_out by done. by rewrite lookup_insert_eq.
Qed.

Lemma store_nodes_linked l h p : chained p l → NoDup l.*1 → linked (store_nodes l h) p l.
Proof. intros. apply linked_iff. split; [done|by apply store_nodes_in]. Qed.

(** Storing what is there changes nothing. *)
Lemma store_nodes_id l h p : linked h p l → store_nodes l h = h.
Proof.
  revert p. induction l as [|[a b] l IH]; intros p; [done|]. intros (_ & Ha & Hl). cbn.
  rewrite insert_id by done. by eapply IH.
Qed.

Lemma store_nodes_app l1 l2 h : store_nodes (l1 ++ l2) h = store_nodes l2 (store_nodes l1 h).
Proof. revert h. induction l1 as [|[a b] l1 IH]; intros h; [done|]. apply IH. Qed.

Lemma chained_app p l1 l2 : chained p (l1 ++ l2) → chained (hd_addr l2) l2.
Proof.
  revert p. induction l1 as [|[a b] l1 IH]; intros p.
  - destruct l2 as [|[a b] l2]; [done|]. by intros [-> ?].
  - intros [_ ?]. by eapply IH.
Qed.

Lemma with_bufs_id s : with_bufs (bufs s) s = s.
Proof. by destruct s. Qed.

(** * Filling a packet *)

(** The buffers after the bytes [d] were copied into them from the front. *)
Fixpoint filled (l : list node) (d : list Z) : list node :=
  match l with
  | [] => []
  | (a, b) :: l =>
      let bs := take (Z.to_nat (pb_len b)) d in
      (a, set_payload (pb_room b) (bs ++ drop (length bs) (pb_payload b)) b) :: filled l (drop (Z.to_nat (pb_len b)) d)
  end.

Lemma filled_nil l : filled l [] = l.
Proof. induction l as [|[a b] l IH]; [done|]. cbn. rewrite take_nil, drop_nil, IH. by destruct b. Qed.

Lemma filled_fst l d : (filled l d).*1 = l.*1.
Proof. revert d. induction l as [|[a b] l IH]; intros d; [done|]. cbn. by rewrite IH. Qed.

(** Filling keeps everything but the bytes of the payloads. *)
Lemma filled_same l d :
  Forall buf_ok l.*2 →
  Forall2 (λ x y, y = set_payload (pb_room x) (pb_payload y) x ∧ length (pb_payload y) = length (pb_payload x))
    l.*2 (filled l d).*2.
Proof.
  revert d. induction l as [|[a b] l IH]; intros d; [by constructor|].
  intros [[? ?] Hl]%bufs_cons. cbn. constructor; [|by apply IH]. split; [done|]. cbn. len_lia.
Qed.

Lemma filled_chained l d p : chained p l → chained p (filled l d).
Proof. revert p d. induction l as [|[a b] l IH]; intros p d; [done|]. intros [-> ?]. split; [done|]. by apply IH. Qed.

Lemma filled_total l d : total (filled l d) = total l.
Proof. revert d. induction l as [|[a b] l IH]; intros d; [done|]. cbn. by rewrite IH. Qed.

Lemma filled_bufs l d : Forall buf_ok l.*2 → Forall buf_ok (filled l d).*2.
Proof.
  revert d. induction l as [|[a b] l IH]; intros d; [done|]. intros [[? ?] Hl]%bufs_cons. cbn.
  constructor; [|by apply IH]. split; cbn; len_lia.
Qed.

Lemma filled_tot l d : tot_ok l → tot_ok (filled l d).
Proof.
  revert d. induction l as [|[a b] l IH]; intros d; [done|]. intros [? ?]. cbn. split; [|by apply IH].
  by rewrite filled_total.
Qed.

Lemma filled_content l d :
  Forall buf_ok l.*2 → zlen d ≤ total l → content (filled l d) = d ++ drop (length d) (content l).
Proof.
  revert d. induction l as [|[a b] l IH]; intros d; [intros _; cbn; intros; destruct d; [done|len_lia]|].
  intros [Hb Hl]%bufs_cons Hd. cbn [filled content total] in *. pose proof (data_length b Hb) as Hlb.
  pose proof Hb as [? ?]. pose proof (total_nonneg _ Hl). rewrite IH by (done || len_lia). unfold data in *. cbn [pb_len set_payload pb_payload].
  set (n := Z.to_nat (pb_len b)) in *. unfold zlen in *. rewrite length_take in Hlb.
  destruct (decide (length d ≤ n)%nat).
  - rewrite (take_ge d) by done. rewrite (drop_ge d) by done. cbn [app length]. rewrite drop_0.
    rewrite take_app, (take_ge d) by done. rewrite drop_app_le by (rewrite length_take; lia).
    rewrite skipn_firstn_comm, app_assoc. done.
  - rewrite take_app_le by (rewrite length_take; lia). rewrite take_take, Nat.min_id.
    rewrite drop_app_ge by (rewrite length_take; lia). rewrite length_drop, app_assoc, take_drop. do 2 f_equal.
    rewrite length_take. lia.
Qed.

(** A packet that was filled is a packet. *)
Lemma filled_packet h p l d : packet h p l → packet (store_nodes (filled l d) h) p (filled l d).
Proof.
  intros [Hl Hb Ht Hm]. split.
  - apply store_nodes_linked; [by eapply filled_chained, linked_chained|].
    rewrite filled_fst. by eapply linked_NoDup.
  - by apply filled_bufs.
  - by apply filled_tot.
  - by rewrite filled_total.
Qed.

Lemma take_loop_ok s l fuel d rem copied :
  linked (bufs s) (hd_addr l) l → Forall buf_ok l.*2 → total l < 65536 → (length l ≤ fuel)%nat →
  0 ≤ rem ≤ total l → 0 ≤ copied → copied + rem < 65536 → copied + rem ≤ zlen d →
  take_loop fuel (hd_addr l) d rem copied s =
  Ok (0, copied + rem, with_bufs (store_nodes (filled l (slice d copied rem)) (bufs s)) s).
Proof.
  revert s fuel rem copied. induction l as [|[a b] l IH]; intros s fuel rem copied Hl Hb Ht Hf Hr Hc Hm Hd.
  - cbn in Hr. assert (rem = 0) as -> by lia. cbn. rewrite with_bufs_id, Z.add_0_r. by destruct fuel.
  - destruct (decide (rem = 0)) as [->|Hr0].
    { rewrite Z.add_0_r. unfold slice. change (Z.to_nat 0) with 0%nat. rewrite take_0, filled_nil.
      erewrite store_nodes_id by done. rewrite with_bufs_id. by destruct fuel. }
    destruct fuel as [|fuel]; [cbn in Hf; lia|]. cbn [length] in Hf. pose proof (linked_NoDup _ _ _ Hl) as Hn.
    cbn in Hn. apply list.NoDup_cons in Hn as [Hout _].
    apply bufs_cons in Hb as [Hb Hbs]. destruct Hl as (_ & Ha & Hl). cbn [total] in *.
    pose proof (total_nonneg _ Hbs). pose proof Hb as [? ?].
    cbn [take_loop hd_addr head fmap option_fmap option_map fst].
    destruct (Z.eqb_spec rem 0) as [?|_]; [done|]. rewrite bool_decide_true by done. do 2 erewrite bind_of_ok by done.
    load Ha. cbv zeta. set (n := if rem >? pb_len b then pb_len b else rem).
    assert (n = Z.min rem (pb_len b)) as En by (unfold n; destruct (Z.gtb_spec rem (pb_len b)); lia).
    rewrite (lift_bind _ _ _ _ (mem_read_ok d copied n ltac:(lia) ltac:(lia) ltac:(lia))).
    fold (slice d copied n). set (bs := slice d copied n).
    assert (zlen bs = n) as Hbs' by (apply slice_length; lia).
    rewrite (lift_bind _ _ _ _ (mem_write_over [] (pb_payload b) bs ltac:(unfold zlen in *; lia))).
    cbn [app]. erewrite bind_of_ok by done.
    rewrite (u16_small (rem - n)), (u16_small (copied + n)) by lia.
    set (b1 := set_payload (pb_room b) (bs ++ drop (length bs) (pb_payload b)) b).
    rewrite (linked_hd _ _ _ Hl) in Hl |- *.
    rewrite IH; [|by apply linked_insert_out|done|lia..].
    cbn [filled store_nodes with_bufs bufs].
    assert (take (Z.to_nat (pb_len b)) (slice d copied rem) = bs) as ->.
    { unfold bs, slice. rewrite take_take. f_equal. lia. }
    assert (drop (Z.to_nat (pb_len b)) (slice d copied rem) = slice d (copied + n) (rem - n)) as ->.
    { unfold slice. destruct (decide (rem ≤ pb_len b)).
      - rewrite drop_ge by (rewrite length_take; lia). by replace (Z.to_nat (rem - n)) with 0%nat by lia.
      - rewrite skipn_firstn_comm, drop_drop. f_equal; [lia|f_equal; lia]. }
    fold b1. do 3 f_equal. lia.
Qed.

(** [pbuf_take] puts the given bytes at the front of a packet, whatever the
    sizes of its buffers, and changes nothing else: the chain, its lengths and
    the bytes behind stay, and every other buffer.  More bytes than the packet
    holds stop at the assertion. *)
Lemma pbuf_take_writes s a l d n :
  packet (bufs s) (Some a) l → 0 ≤ n < 65536 → n ≤ zlen d →
  let l' := filled l (slice d 0 n) in
  let h' := store_nodes l' (bufs s) in
  (total l < n → pbuf_take (Some a) (Some d) n s = Fail AssertFailure) ∧
  (n ≤ total l →
    pbuf_take (Some a) (Some d) n s = Ok (ERR_OK, with_bufs h' s) ∧
    packet h' (Some a) l' ∧
    content l' = slice d 0 n ++ drop (Z.to_nat n) (content l) ∧
    Forall2 (λ x y, y = set_payload (pb_room x) (pb_payload y) x) l.*2 l'.*2 ∧
    (∀ x, x ∉ l.*1 → h' !! x = bufs s !! x)).
Proof.
  intros Hp Hn Hd l' h'. destruct (packet_head _ _ _ a Hp eq_refl) as (b & t & _ & Ha & _ & Ht).
  unfold pbuf_take, LWIP_ERROR, LWIP_ASSERT, deref. rewrite bool_decide_true by done.
  do 2 erewrite bind_of_ok by done. load Ha. rewrite Ht. split; intros Hle.
  - destruct (Z.geb_spec (total l) n); [lia|]. done.
  - destruct (Z.geb_spec (total l) n); [|lia]. do 2 erewrite bind_of_ok by done.
    pose proof Hp as [Hl Hb Hto Hm]. pose proof (linked_hd _ _ _ Hl) as Eh. rewrite Eh in Hl |- *.
    pose proof (linked_length _ _ _ Hl).
    erewrite bind_of_ok by (apply take_loop_ok; (done || lia)). cbv beta iota zeta. rewrite Z.add_0_l, !Z.eqb_refl.
    split_and!; [done|by apply filled_packet; rewrite <- Eh| |..].
    + unfold l'. rewrite filled_content by (done || (rewrite slice_length; lia)). do 2 f_equal.
      pose proof (slice_length d 0 n ltac:(lia) ltac:(lia) ltac:(lia)). unfold zlen in *. lia.
    + eapply Forall2_impl; [|exact (filled_same l _ Hb)]. by intros ? ? [? _].
    + intros x Hx. apply store_nodes_out. unfold l'. by rewrite filled_fst.
Qed.

(** ** At an offset *)

(** New buffers at the addresses of the end of a chain. *)
Lemma linked_replace h p l1 l2 l2' :
  linked h p (l1 ++ l2) → chained (hd_addr l2) l2' → l2'.*1 = l2.*1 → linked (store_nodes l2' h) p (l1 ++ l2').
Proof.
  intros Hl Hc He. revert p Hl. induction l1 as [|[a b] l1 IH]; intros p Hl; cbn [app] in *.
  - rewrite (linked_hd _ _ _ Hl). apply store_nodes_linked; [done|]. rewrite He. by eapply linked_NoDup.
  - pose proof (linked_NoDup _ _ _ Hl) as Hn. cbn in Hn. apply list.NoDup_cons in Hn as [Hout _].
    destruct Hl as (-> & Ha & Hl). cbn. split_and!; [done| |by apply IH].
    rewrite store_nodes_out; [done|]. rewrite He. intros Hin. apply Hout.
    rewrite fmap_app. apply elem_of_app. by right.
Qed.

Lemma tot_ok_replace l1 l2 l2' : tot_ok (l1 ++ l2) → total l2' = total l2 → tot_ok l2' → tot_ok (l1 ++ l2').
Proof.
  intros H Ht H2. induction l1 as [|[a b] l1 IH]; [done|]. destruct H as [Ha H]. cbn. split; [|by apply IH].
  change (pb_tot_len b = pb_len b + total (l1 ++ l2)) in Ha. rewrite total_app in *. lia.
Qed.

Lemma tot_ok_suffix l1 l2 : tot_ok (l1 ++ l2) → tot_ok l2.
Proof. induction l1 as [|[a b] l1 IH]; [done|]. intros [_ ?]. by apply IH. Qed.

Lemma packet_replace h p l1 l2 l2' :
  packet h p (l1 ++ l2) → chained (hd_addr l2) l2' → l2'.*1 = l2.*1 → Forall buf_ok l2'.*2 →
  total l2' = total l2 → tot_ok l2' → packet (store_nodes l2' h) p (l1 ++ l2').
Proof.
  intros [Hl Hb Ht Hm] Hc He Hb2 Htl Ht2. rewrite total_app in Hm. rewrite fmap_app in Hb.
  apply Forall_app in Hb as [Hb1 _]. split.
  - by eapply linked_replace.
  - rewrite fmap_app. by apply Forall_app.
  - by eapply tot_ok_replace.
  - rewrite total_app. lia.
Qed.

(** [bs] over the bytes of [c] from [off] on. *)
Definition overwrite (c : list Z) (off : nat) (bs : list Z) : list Z :=
  take off c ++ bs ++ drop (off + length bs) c.

Lemma overwrite_length c off bs : (off + length bs ≤ length c)%nat → length (overwrite c off bs) = length c.
Proof. intros. unfold overwrite. len_lia. Qed.

Lemma overwrite_app x y off bs :
  (length x ≤ off)%nat → overwrite (x ++ y) off bs = x ++ overwrite y (off - length x) bs.
Proof.
  intros. unfold overwrite. rewrite take_app_ge, drop_app_ge by lia. rewrite <- app_assoc. do 4 f_equal. lia.
Qed.

Lemma overwrite_split y z off bs1 bs2 :
  (off + length bs1 ≤ length y)%nat → (bs2 ≠ [] → off + length bs1 = length y)%nat →
  overwrite (y ++ z) off (bs1 ++ bs2) = overwrite y off bs1 ++ (bs2 ++ drop (length bs2) z).
Proof.
  intros Hl Hb. unfold overwrite. rewrite take_app_le by lia. rewrite <- !app_assoc, length_app. do 2 f_equal.
  destruct bs2 as [|x bs2].
  - cbn [length app]. rewrite Nat.add_0_r, drop_0, drop_app_le by lia. done.
  - specialize (Hb ltac:(done)). rewrite drop_app_ge by lia. rewrite (drop_ge y) by lia. cbn [app]. do 3 f_equal. lia.
Qed.

Lemma overwrite_take c off n bs :
  (off + length bs ≤ n)%nat → take n (overwrite c off bs) = overwrite (take n c) off bs.
Proof.
  intros. unfold overwrite. destruct (decide (length c ≤ off)%nat) as [Hc|Hc].
  - rewrite !(take_ge c off), !(drop_ge c), take_ge, (take_ge c n), (take_ge c off), (drop_ge c) by len_lia. done.
  - rewrite take_take, Nat.min_l by lia. rewrite !take_app, skipn_firstn_comm.
    rewrite !length_take. rewrite (take_ge (take off c)), (take_ge bs) by len_lia. do 3 f_equal. lia.
Qed.

(** [b] with the bytes [bs] at the offset [o]. *)
Definition new_bytes (b : pbuf) (o : Z) (bs : list Z) : pbuf :=
  set_payload (pb_room b) (overwrite (pb_payload b) (Z.to_nat o) bs) b.

Lemma new_bytes_data b o bs :
  buf_ok b → 0 ≤ o → o + zlen bs ≤ pb_len b → data (new_bytes b o bs) = overwrite (data b) (Z.to_nat o) bs.
Proof. intros [??] ??. unfold data. cbn. apply overwrite_take. unfold zlen in *. lia. Qed.

Lemma new_bytes_ok b o bs : buf_ok b → 0 ≤ o → o + zlen bs ≤ pb_len b → buf_ok (new_bytes b o bs).
Proof. intros [??] ??. split; [done|]. cbn. unfold zlen in *. rewrite overwrite_length; lia. Qed.

(** The end of a chain that starts at the buffer [q], with [bs] written at the
    offset [o] of that buffer and [rest] in the buffers behind it. *)
Definition refilled (q : positive) (b : pbuf) (l : list node) (o : Z) (bs rest : list Z) : list node :=
  (q, new_bytes b o bs) :: filled l rest.

Section refilled.
Context (q : positive) (b : pbuf) (l : list node) (o : Z) (bs rest : list Z).
Context (Ho : 0 ≤ o) (Hbs : o + zlen bs ≤ pb_len b).
Let l' := refilled q b l o bs rest.

Lemma refilled_fst l1 : (l1 ++ l').*1 = (l1 ++ (q, b) :: l).*1.
Proof using. unfold l'. rewrite !fmap_app. cbn. by rewrite filled_fst. Qed.

Lemma refilled_out h l1 x : x ∉ (l1 ++ (q, b) :: l).*1 → store_nodes l' h !! x = h !! x.
Proof using.
  rewrite <- refilled_fst, fmap_app. intros Hx. apply store_nodes_out. intros ?. apply Hx, elem_of_app. by right.
Qed.

Lemma refilled_packet h p l1 :
  packet h p (l1 ++ (q, b) :: l) → packet (store_nodes l' h) p (l1 ++ l').
Proof using Ho Hbs.
  intros Hp. destruct (packet_suffix _ _ _ _ Hp) as [(_ & _ & Hl) [Hb Hbl]%bufs_cons [Ht Htl] _].
  apply packet_replace with ((q, b) :: l); [done| |by cbn; rewrite filled_fst| |by cbn; rewrite filled_total|].
  - split; [done|]. by eapply filled_chained, linked_chained.
  - constructor; [by apply new_bytes_ok|]. by apply filled_bufs.
  - split; [by rewrite filled_total|]. by apply filled_tot.
Qed.

Lemma refilled_content l1 :
  Forall buf_ok (l1 ++ (q, b) :: l).*2 → zlen rest ≤ total l → (rest ≠ [] → o + zlen bs = pb_len b) →
  content (l1 ++ l') = overwrite (content (l1 ++ (q, b) :: l)) (Z.to_nat (total l1 + o)) (bs ++ rest).
Proof using Ho Hbs.
  rewrite fmap_app. intros [Hb1 [Hb Hbl]%bufs_cons]%Forall_app Hr Hend.
  pose proof (content_length _ Hb1) as Hc1. pose proof (total_nonneg _ Hb1). pose proof (data_length b Hb) as Hd.
  rewrite !content_app. unfold l'. cbn [content refilled]. rewrite filled_content, new_bytes_data by done.
  unfold zlen in *. rewrite overwrite_app by lia. f_equal.
  rewrite overwrite_split; [|lia|intros Hne; specialize (Hend Hne); lia]. do 3 f_equal. lia.
Qed.

(** What is left for [pbuf_take] after the buffer [q]. *)
Lemma take_rest_ok s d n f :
  packet (bufs s) (Some q) ((q, b) :: l) → 0 ≤ f ≤ n → n < 65536 → n ≤ zlen d → n - f ≤ total l →
  rest = slice d f (n - f) →
  (if n - f >? 0 then pbuf_take (pb_next b) (Some (drop (Z.to_nat f) d)) (n - f) else mret ERR_OK)
    (with_bufs (<[q := new_bytes b o bs]> (bufs s)) s) =
  Ok (ERR_OK, with_bufs (store_nodes l' (bufs s)) s).
Proof using.
  intros Hp Hf Hn Hd Hle Er. unfold l'. cbn [store_nodes refilled]. rewrite Er.
  pose proof (linked_NoDup _ _ _ (pk_linked _ _ _ Hp)) as Hnd. cbn in Hnd. apply list.NoDup_cons in Hnd as [Hq _].
  assert (packet (<[q := new_bytes b o bs]> (bufs s)) (pb_next b) l) as Hpl.
  { eapply packet_ext; [by eapply packet_tail|]. intros x Hx. rewrite lookup_insert_ne; [done|]. by intros ->. }
  destruct (Z.gtb_spec (n - f) 0) as [Hgt|].
  - destruct (pb_next b) as [r|] eqn:En.
    2:{ pose proof (linked_hd _ _ _ (pk_linked _ _ _ Hpl)). destruct l; [cbn in *; lia|done]. }
    destruct (pbuf_take_writes (with_bufs (<[q := new_bytes b o bs]> (bufs s)) s) r l (drop (Z.to_nat f) d) (n - f) Hpl)
      as [_ Hw]; [lia|len_lia|].
    destruct (Hw ltac:(lia)) as [-> _]. cbn [bufs with_bufs]. by do 4 f_equal.
  - assert (slice d f (n - f) = []) as -> by (unfold slice; by replace (Z.to_nat (n - f)) with 0%nat by lia).
    rewrite filled_nil. by erewrite store_nodes_id by apply Hpl.
Qed.

End refilled.

(** [pbuf_take_at] puts the given bytes at an offset of the packet, and
    nothing else changes; where they do not fit, or the offset is the end of
    the packet, it returns [ERR_MEM] and changes nothing. *)
Theorem pbuf_take_at_writes s a l d n off :
  packet (bufs s) (Some a) l → 0 ≤ n < 65536 → n ≤ zlen d → 0 ≤ off < 65536 →
  (off < total l ∧ off + n ≤ total l →
    ∃ h' l', pbuf_take_at (Some a) d n off s = Ok (ERR_OK, with_bufs h' s) ∧
      packet h' (Some a) l' ∧ l'.*1 = l.*1 ∧
      content l' = overwrite (content l) (Z.to_nat off) (slice d 0 n) ∧
      (∀ x, x ∉ l.*1 → h' !! x = bufs s !! x)) ∧
  (total l ≤ off ∨ total l < off + n → pbuf_take_at (Some a) d n off s = Ok (ERR_MEM, s)).
Proof.
  intros Hp Hn Hd Ho. pose proof (linked_hd _ _ _ (pk_linked _ _ _ Hp)) as Eh. rewrite Eh in *.
  destruct (skip_ok s l off Hp Ho) as (l1 & l2 & -> & E & Ht & Hx). clear Eh.
  unfold pbuf_take_at, pbuf_skip. rewrite (bind_of_ok _ _ _ _ _ E). cbv beta iota. rewrite total_app.
  destruct l2 as [|[q b] l3]; cbn [hd_addr head fmap option_fmap option_map fst total].
  { rewrite Z.add_0_r. split; [lia|done]. }
  specialize (Hx q b l3 eq_refl). pose proof (packet_suffix _ _ _ _ Hp) as Hp2.
  pose proof Hp2 as [(_ & Hq & _) [[Hb0 Hbp] Hb3]%bufs_cons [Htot _] Hm2]. cbn [total] in Hm2.
  pose proof (total_nonneg _ Hb3). load Hq. rewrite Htot. set (o := off - total l1) in *.
  destruct (Z.geb_spec (pb_len b + total l3) (o + n)); (split; [intros Hfit|intros Hno; try (exfalso; lia); try done]);
    [|exfalso; lia].
  cbv zeta. set (f := u16 (Z.min (pb_len b - o) n)).
  assert (f = Z.min (pb_len b - o) n) as Ef by (unfold f; rewrite u16_small; lia). clearbody f.
  rewrite (lift_bind _ _ _ _ (mem_read_ok d 0 f ltac:(lia) ltac:(lia) ltac:(lia))). fold (slice d 0 f).
  set (bs := slice d 0 f). assert (zlen bs = f) as Hbs by (apply slice_length; lia).
  rewrite (lift_bind _ _ _ _ (mem_write_ok (pb_payload b) o bs ltac:(lia) ltac:(lia))).
  fold (overwrite (pb_payload b) (Z.to_nat o) bs). fold (new_bytes b o bs). erewrite bind_of_ok by done.
  rewrite (u16_small (n - f)) by lia. set (rest := slice d f (n - f)).
  assert (zlen rest = n - f) as Hrest by (apply slice_length; lia).
  assert (slice d 0 n = bs ++ rest) as ->.
  { unfold bs, rest, slice. change (Z.to_nat 0) with 0%nat. rewrite drop_0, take_take_drop. f_equal. lia. }
  replace off with (total l1 + o) by lia.
  exists (store_nodes (refilled q b l3 o bs rest) (bufs s)), (l1 ++ refilled q b l3 o bs rest). split_and!.
  - eapply take_rest_ok; (done || lia).
  - apply refilled_packet; (done || lia).
  - apply refilled_fst.
  - apply refilled_content; [lia|lia|apply Hp|lia|]. intros Hne. destruct rest; [done|]. unfold zlen in *. cbn in *. lia.
  - intros x. apply refilled_out.
Qed.

(** * Joining packets *)

(** The buffers of the first packet after a packet of [n] bytes that starts at
    [t] was put behind it. *)
Fixpoint joined (l : list node) (t : positive) (n : Z) : list node :=
  match l with
  | [] => []
  | (a, b) :: l =>
      let b := set_tot_len (pb_tot_len b + n) b in
      (a, match l with [] => set_next (Some t) b | _ => b end) :: joined l t n
  end.

Lemma joined_fst l t n : (joined l t n).*1 = l.*1.
Proof. induction l as [|[a b] l IH]; [done|]. cbn. by rewrite IH. Qed.

Lemma joined_props l t n :
  total (joined l t n) = total l ∧ content (joined l t n) = content l ∧ (Forall buf_ok l.*2 → Forall buf_ok (joined l t n).*2).
Proof.
  induction l as [|[a b] l (IHt & IHc & IHb)]; [done|]. cbn [joined]. split_and!.
  - cbn [total]. rewrite IHt. by destruct l.
  - cbn [content]. rewrite IHc. by destruct l.
  - intros [Hb Hl]%bufs_cons. constructor; [|by apply IHb]. by destruct l.
Qed.

Lemma joined_tot l t l2 : tot_ok l → tot_ok l2 → tot_ok (joined l t (total l2) ++ l2).
Proof.
  induction l as [|[a b] l IH]; [done|]. intros [Ha Hl] H2. cbn [joined app]. split; [|by apply IH].
  rewrite total_app, (proj1 (joined_props l t (total l2))). destruct l; cbn in *; lia.
Qed.

Lemma joined_chained p l t l2 n : chained p l → l ≠ [] → hd_addr l2 = Some t → chained p (joined l t n ++ l2) ↔ chained (Some t) l2.
Proof.
  revert p. induction l as [|[a b] l IH]; intros p; [done|]. intros [-> Hc] _ Ht. cbn [joined app].
  destruct l as [|[a' b'] l]; [cbn; tauto|]. rewrite <- (IH (pb_next b)) by done. cbn. tauto.
Qed.

Lemma cat_loop_ok s l t n fuel :
  linked (bufs s) (hd_addr l) l → Forall buf_ok l.*2 → tot_ok l → l ≠ [] → (length l ≤ fuel)%nat →
  (∃ bt, bufs s !! t = Some bt ∧ pb_tot_len bt = n) → t ∉ l.*1 → 0 ≤ n → total l + n < 65536 →
  ∀ a, hd_addr l = Some a → cat_loop fuel a t s = Ok ((), with_bufs (store_nodes (joined l t n) (bufs s)) s).
Proof.
  intros Hl Hb Ht Hne Hf (bt & Hbt & Hbn) Hout Hn Hm. revert s fuel Hl Hf Hbt Hm.
  induction l as [|[a b] l IH]; intros s fuel Hl Hf Hbt Hm; [done|]. intros a' [= <-].
  destruct fuel as [|fuel]; [cbn in Hf; lia|]. cbn [length] in Hf. pose proof (linked_NoDup _ _ _ Hl) as Hnd.
  cbn in Hnd, Hout. apply list.NoDup_cons in Hnd as [Ha' _]. apply list.not_elem_of_cons in Hout as [Hta Hout].
  apply bufs_cons in Hb as [Hb Hbs]. destruct Hl as (_ & Ha & Hl), Ht as [Htb Ht]. cbn [total] in *.
  pose proof (total_nonneg _ Hbs). pose proof Hb as [? ?]. cbn [cat_loop]. load Ha.
  pose proof (linked_hd _ _ _ Hl) as Hh. destruct l as [|[c d] l]; rewrite Hh; cbn [hd_addr head fmap option_fmap option_map fst].
  - cbn [total] in *. replace (pb_tot_len b) with (pb_len b) by lia. rewrite Z.eqb_refl. erewrite bind_of_ok by done.
    load Hbt. rewrite Hbn, u16_small by lia. cbn. by replace (pb_tot_len b) with (pb_len b) by lia.
  - load Hbt. rewrite Hbn, u16_small by (cbn [total] in *; lia). erewrite bind_of_ok by done.
    set (b1 := set_tot_len (pb_tot_len b + n) b). rewrite Hh in Hl.
    rewrite IH; [done|done|done|done|done| |lia| |cbn [total bufs with_bufs] in *; lia|done].
    + by apply linked_insert_out.
    + cbn [bufs with_bufs]. by rewrite lookup_insert_ne.
Qed.

(** [pbuf_cat] puts one packet behind another: the result is one packet with
    the bytes of both, its lengths right from every buffer on, and no other
    buffer changes. *)
Lemma pbuf_cat_joins s a t l1 l2 :
  packet (bufs s) (Some a) l1 → packet (bufs s) (Some t) l2 → (∀ x, x ∈ l1.*1 → x ∈ l2.*1 → False) →
  total l1 + total l2 < 65536 →
  let h' := store_nodes (joined l1 t (total l2)) (bufs s) in
  pbuf_cat (Some a) (Some t) s = Ok ((), with_bufs h' s) ∧
  packet h' (Some a) (joined l1 t (total l2) ++ l2) ∧
  content (joined l1 t (total l2) ++ l2) = content l1 ++ content l2 ∧
  (∀ x, x ∉ l1.*1 → h' !! x = bufs s !! x).
Proof.
  intros Hp1 Hp2 Hd Hm h'. pose proof Hp1 as [Hl1 Hb1 Ht1 _]. pose proof Hp2 as [Hl2 Hb2 Ht2 _].
  destruct (packet_head _ _ _ a Hp1 eq_refl) as (b & k & E1 & Ha & _).
  destruct (packet_head _ _ _ t Hp2 eq_refl) as (bt & k2 & E2 & Hbt & _ & Htot).
  assert (l1 ≠ []) as Hne by (by rewrite E1). pose proof (total_nonneg _ Hb2).
  pose proof (linked_hd _ _ _ Hl1) as Eh. pose proof (linked_hd _ _ _ Hl2) as Eh2. pose proof (linked_length _ _ _ Hl1).
  assert (∀ x, x ∉ l1.*1 → h' !! x = bufs s !! x) as Hout
    by (intros x Hx; apply store_nodes_out; by rewrite joined_fst).
  destruct (joined_props l1 t (total l2)) as (Hjt & Hjc & Hjb). split_and!; [| | |done].
  - unfold pbuf_cat, LWIP_ERROR, LWIP_ASSERT. rewrite !bool_decide_true by done. cbn [andb deref].
    do 4 erewrite bind_of_ok by done. rewrite Eh in Hl1. apply cat_loop_ok; try done; [lia|by exists bt|].
    intros Hin. apply (Hd t Hin). rewrite E2. left.
  - split.
    + assert (linked h' (Some t) l2) as Hl2'.
      { eapply linked_ext; [done|]. intros x Hx. apply Hout. intros Hx1. by apply (Hd x). }
      apply linked_iff in Hl2' as [Hc2 Hs2]. apply linked_iff. split.
      * by apply joined_chained; [eapply linked_chained| |rewrite <- Eh2|].
      * apply Forall_app. split; [|done]. apply store_nodes_in. rewrite joined_fst. by eapply linked_NoDup.
    + rewrite fmap_app. apply Forall_app. split; [by apply Hjb|done].
    + by apply joined_tot.
    + rewrite total_app. lia.
  - by rewrite content_app, Hjc.
Qed.

(** * Headers *)

(** [b] with the payload [n] bytes further back (forward if negative). *)
Definition moved (n : Z) (b : pbuf) : pbuf :=
  let mem := pb_room b ++ pb_payload b in
  let off := Z.to_nat (zlen (pb_room b) - n) in
  set_tot_len (pb_tot_len b + n) (set_len (pb_len b + n) (set_payload (take off mem) (drop off mem) b)).

Lemma moved_room n b : - zlen (pb_payload b) ≤ n ≤ zlen (pb_room b) → zlen (pb_room (moved n b)) = zlen (pb_room b) - n.
Proof. intros. cbn. len_lia. Qed.

(** Moving back undoes moving. *)
Lemma moved_moved n b : - zlen (pb_payload b) ≤ n ≤ zlen (pb_room b) → moved (- n) (moved n b) = b.
Proof.
  intros Hn. unfold moved at 1. rewrite moved_room by done. cbn [pb_room pb_payload moved set_tot_len set_len set_payload].
  rewrite take_drop. replace (zlen (pb_room b) - n - - n) with (zlen (pb_room b)) by lia.
  unfold zlen. rewrite Nat2Z.id, take_app_length, drop_app_length. destruct b. unfold moved, set_tot_len, set_len, set_payload. cbn. f_equal; lia.
Qed.

Lemma moved_packet h a b l n :
  packet h (Some a) ((a, b) :: l) → - pb_len b ≤ n ≤ zlen (pb_room b) → total ((a, b) :: l) + n < 65536 →
  packet (<[a := moved n b]> h) (Some a) ((a, moved n b) :: l).
Proof.
  intros [Hl Hb Ht Hm] Hn Hx. pose proof (linked_NoDup _ _ _ Hl) as Hnd. cbn in Hnd.
  apply list.NoDup_cons in Hnd as [Ha _]. destruct Hl as (_ & _ & Hl), Ht as [Ht Htl]. cbn [total] in *.
  apply bufs_cons in Hb as [[? ?] Hbs]. split.
  - split_and!; [done|by rewrite lookup_insert_eq|]. by apply linked_insert_out.
  - constructor; [|done]. unfold buf_ok. cbn. len_lia.
  - split; [|done]. cbn. lia.
  - cbn. lia.
Qed.

(** The call that moves the payload of the head. *)
Lemma header_moves s a b l n force :
  packet (bufs s) (Some a) ((a, b) :: l) → n ≠ 0 → -32768 ≤ n < 32768 → - pb_len b ≤ n ≤ zlen (pb_room b) →
  total ((a, b) :: l) + n < 65536 → (n < 0 ∨ pb_type b = PBUF_RAM ∨ pb_type b = PBUF_POOL ∨ force = true) →
  pbuf_header_impl (Some a) n force s = Ok (0, with_bufs (<[a := moved n b]> (bufs s)) s).
Proof.
  intros [(_ & Ha & _) [[? ?] Hbs]%bufs_cons [Ht _] Hm] Hn0 Hr Hn Hx Hc. cbn [total] in *.
  pose proof (total_nonneg _ Hbs).
  unfold pbuf_header_impl, LWIP_ASSERT, LWIP_ERROR, deref. rewrite bool_decide_true by done.
  do 2 erewrite bind_of_ok by done. destruct (Z.eqb_spec n 0); [done|]. load Ha. cbv zeta.
  set (m := u16 (if n <? 0 then - n else n)).
  assert (m = Z.abs n) as Em by (unfold m; destruct (Z.ltb_spec n 0); rewrite u16_small; lia). clearbody m. subst m.
  assert (negb (n <? 0) || (Z.abs n <=? pb_len b) = true) as -> by lia.
  erewrite bind_of_ok by done.
  assert (∀ A (f : pbuf → PB A), (b ← lift (move_payload n b); f b) s = f (set_payload
      (take (Z.to_nat (zlen (pb_room b) - n)) (pb_room b ++ pb_payload b))
      (drop (Z.to_nat (zlen (pb_room b) - n)) (pb_room b ++ pb_payload b)) b) s) as Hmv.
  { intros A f. apply lift_bind. unfold move_payload. rewrite (proj2 (in_range_spec _ _ _)); [done|len_lia]. }
  destruct (pb_type b) eqn:Ety.
  1,4: (destruct (Z.gtb_spec n (zlen (pb_room b))); [lia|]).
  3,4: (destruct ((n <? 0) && (Z.abs n <=? pb_len b)) eqn:E1;
        [|destruct ((n >? 0) && force) eqn:E2; [|exfalso; destruct Hc as [?|[?|[?| ->]]]; (congruence || lia)]]).
  all: rewrite Hmv; cbn [pb_tot_len pb_len set_payload]; rewrite !u16_small by lia; done.
Qed.

(** (C37) [pbuf_header] with a negative increment hides that many bytes at the
    front of a packet; with the same positive one they come back and
    everything is as before.  For a buffer that refers to outside memory only
    [pbuf_header_force] brings them back.  More bytes than the first buffer
    has stop at the assertion. *)
Theorem pbuf_header_roundtrip s a b l n :
  packet (bufs s) (Some a) ((a, b) :: l) → 0 < n < 32768 →
  let b' := moved (- n) b in
  let s' := with_bufs (<[a := b']> (bufs s)) s in
  (pb_len b < n → pbuf_header (Some a) (- n) s = Fail AssertFailure) ∧
  (n ≤ pb_len b →
    pbuf_header (Some a) (- n) s = Ok (0, s') ∧
    packet (bufs s') (Some a) ((a, b') :: l) ∧
    content ((a, b') :: l) = drop (Z.to_nat n) (content ((a, b) :: l)) ∧
    pbuf_header_force (Some a) n s' = Ok (0, s) ∧
    (pb_type b = PBUF_RAM ∨ pb_type b = PBUF_POOL → pbuf_header (Some a) n s' = Ok (0, s)) ∧
    (pb_type b = PBUF_ROM ∨ pb_type b = PBUF_REF → pbuf_header (Some a) n s' = Ok (1, s'))).
Proof.
  intros Hp Hn b' s'. pose proof Hp as [(_ & Ha & _) [[? Hbp] Hbs]%bufs_cons _ Hm]. cbn [total] in Hm.
  pose proof (total_nonneg _ Hbs). assert (0 ≤ zlen (pb_room b)) by (unfold zlen; lia). split; intros Hle.
  { unfold pbuf_header, pbuf_header_impl, LWIP_ASSERT, LWIP_ERROR, deref. rewrite bool_decide_true by done.
    do 2 erewrite bind_of_ok by done. destruct (Z.eqb_spec (- n) 0); [lia|]. load Ha. cbv zeta.
    destruct (Z.ltb_spec (- n) 0); [|lia]. rewrite Z.opp_involutive, u16_small by lia.
    destruct (Z.leb_spec n (pb_len b)); [lia|]. done. }
  assert (packet (bufs s') (Some a) ((a, b') :: l)) as Hp' by (apply moved_packet; [done|lia|cbn; lia]).
  assert (zlen (pb_room b') = zlen (pb_room b) + n) as Hroom by (unfold b'; rewrite moved_room; lia).
  assert (moved n b' = b) as Hback
    by (unfold b'; replace n with (- (- n)) at 1 by lia; apply moved_moved; unfold zlen in *; lia).
  assert (∀ force, (pb_type b' = PBUF_RAM ∨ pb_type b' = PBUF_POOL ∨ force = true) →
    pbuf_header_impl (Some a) n force s' = Ok (0, s)) as Hfwd.
  { intros force Hty. rewrite (header_moves s' a b' l n force Hp') by (tauto || (unfold b' in *; cbn in *; lia)).
    rewrite Hback. cbn [bufs with_bufs s']. rewrite insert_insert_eq, insert_id by done. by destruct s. }
  split_and!; [|done| |by apply Hfwd; auto|intros Hty; apply Hfwd; tauto|].
  - apply header_moves with l; (done || lia || (cbn; lia) || (left; lia)).
  - cbn [content]. unfold data, b', moved. cbn [pb_len pb_payload set_payload set_len set_tot_len].
    unfold zlen in *. rewrite drop_app_ge by lia. rewrite drop_app_le by (rewrite length_take; lia).
    rewrite skipn_firstn_comm. do 2 f_equal; [lia|f_equal; lia].
  - intros Hty. unfold pbuf_header, pbuf_header_impl, LWIP_ASSERT, LWIP_ERROR, deref. rewrite bool_decide_true by done.
    do 2 erewrite bind_of_ok by done. destruct (Z.eqb_spec n 0); [lia|].
    assert (bufs s' !! a = Some b') as Ha' by apply lookup_insert_eq. load Ha'. cbv zeta.
    destruct (Z.ltb_spec n 0); [lia|]. cbn [negb orb]. erewrite bind_of_ok by done.
    change (pb_type b') with (pb_type b). cbn [andb]. rewrite andb_false_r. by destruct Hty as [-> | ->].
Qed.

(** [pbuf_header] with a positive increment puts the bytes in front of the
    payload at the front of the packet, as far as there is room; beyond it
    returns 1 and changes nothing. *)
Lemma pbuf_header_reveals s a b l n :
  packet (bufs s) (Some a) ((a, b) :: l) → pb_type b = PBUF_RAM ∨ pb_type b = PBUF_POOL →
  0 < n < 32768 → total ((a, b) :: l) + n < 65536 →
  let h' := <[a := moved n b]> (bufs s) in
  let front := zlen (pb_room b) - n in
  (n ≤ zlen (pb_room b) →
    pbuf_header (Some a) n s = Ok (0, with_bufs h' s) ∧
    packet h' (Some a) ((a, moved n b) :: l) ∧
    content ((a, moved n b) :: l) = drop (Z.to_nat front) (pb_room b) ++ content ((a, b) :: l)) ∧
  (zlen (pb_room b) < n → pbuf_header (Some a) n s = Ok (1, s)).
Proof.
  intros Hp Hty Hn Hx h' front. pose proof Hp as [(_ & Ha & _) [[? Hbp] Hbs]%bufs_cons _ _]. split; intros Hle.
  - split_and!.
    + apply header_moves with l; (done || lia || tauto).
    + apply moved_packet; (done || lia).
    + cbn [content]. unfold data, moved, front. cbn [pb_len pb_payload set_payload set_len set_tot_len].
      rewrite app_assoc. f_equal. unfold zlen in *. rewrite drop_app_le by lia.
      rewrite take_app_ge by (rewrite length_drop; lia). do 2 f_equal. rewrite length_drop. lia.
  - unfold pbuf_header, pbuf_header_impl, LWIP_ASSERT, LWIP_ERROR, deref. rewrite bool_decide_true by done.
    do 2 erewrite bind_of_ok by done. destruct (Z.eqb_spec n 0); [lia|]. load Ha. cbv zeta.
    destruct (Z.ltb_spec n 0); [lia|]. cbn [negb orb]. erewrite bind_of_ok by done.
    destruct Hty as [-> | ->]; (destruct (Z.gtb_spec n (zlen (pb_room b))); [done|lia]).
Qed.

(** * Examples *)

Lemma pbuf_take_at_writes_witness :
  ∃ h' l', pbuf_take_at (Some 1%positive) [61; 62; 63] 3 2 example_store = Ok (ERR_OK, with_bufs h' example_store) ∧
    packet h' (Some 1%positive) l' ∧ content l' = [10; 11; 61; 62; 63; 12; 13].
Proof.
  destruct (proj1 (pbuf_take_at_writes example_store 1 example_packet [61; 62; 63] 3 2 example_ok
    ltac:(lia) ltac:(vm_compute; discriminate) ltac:(lia))) as (h' & l' & E & Hp & _ & Hc & _);
    [split; [reflexivity|vm_compute; discriminate]|].
  exists h', l'. split; [exact E|]. split; [exact Hp|]. rewrite Hc. reflexivity.
Defined.

Lemma pbuf_header_roundtrip_witness :
  ∃ s', pbuf_header (Some 1%positive) (-2) example_store = Ok (0, s') ∧ pbuf_header (Some 1%positive) 2 s' = Ok (0, example_store).
Proof.
  destruct (proj2 (pbuf_header_roundtrip example_store 1 (mk_pbuf (Some 2%positive) [50; 51] [10; 11; 12; 99] 7 3 PBUF_POOL 0 1)
    (tail example_packet) 2 example_ok ltac:(lia)) ltac:(discriminate)) as (E & _ & _ & _ & Hb & _).
  eexists. split; [exact E|]. apply Hb. right. reflexivity.
Defined.
