(* ===== verification/LwipPbufRefs.v ===== *)
(** Reference counts of the buffers of [lwip/src/core/pbuf.c]: the count of a
    buffer is the number of pointers to it, those of its owners and the [next]
    pointers of other buffers.  The invariant is kept by every operation;
    freeing an owner's reference frees exactly what no owner reaches any more. *)
From stdpp Require Import gmap.
From S2P Require Import Prelude.
From S2P Require Import LwipPbuf.
From S2P Require Import LwipPbufWrite.

(** * Counting pointers *)

(** Who points where. *)
Definition links (h : heap) : gmap positive (option positive) := pb_next <$> h.

(** The [next] pointers to [a]. *)
Definition in_refs (m : gmap positive (option positive)) (a : positive) : nat :=
  size (filter (λ kv, kv.2 = Some a) m).

(** The references to [a] in the hands of owners; an owner may have several. *)
Definition owned (ext : list positive) (a : positive) : nat := count_occ Pos.eq_dec ext a.

Definition points (v : option positive) (a : positive) : nat := if decide (v = Some a) then 1 else 0.

Lemma in_refs_insert m k v a : m !! k = None → in_refs (<[k := v]> m) a = (points v a + in_refs m a)%nat.
Proof.
  intros Hk. unfold in_refs, points. destruct (decide (v = Some a)) as [->|Hn].
  - rewrite map_filter_insert_True by done. rewrite map_size_insert_None; [done|].
    apply map_lookup_filter_None. by left.
  - rewrite map_filter_insert_False by done. by rewrite delete_id.
Qed.

Lemma in_refs_delete m k v a : m !! k = Some v → in_refs m a = (points v a + in_refs (delete k m) a)%nat.
Proof.
  intros Hk. rewrite <- in_refs_insert with (k := k) by apply lookup_delete_eq. by rewrite insert_delete_id.
Qed.

Lemma in_refs_pos m k a : m !! k = Some (Some a) → (0 < in_refs m a)%nat.
Proof. intros Hk. rewrite (in_refs_delete m k (Some a)) by done. unfold points. rewrite decide_True by done. lia. Qed.

Lemma in_refs_inv m a : (0 < in_refs m a)%nat → ∃ k, m !! k = Some (Some a).
Proof.
  unfold in_refs. intros Hp. destruct (map_choose (filter (λ kv, kv.2 = Some a) m)) as (k & v & Hk).
  - intros E. rewrite E, map_size_empty in Hp. lia.
  - apply map_lookup_filter_Some in Hk as [Hk Hv]. cbn in Hv. exists k. by rewrite Hk, Hv.
Qed.

(** Custom buffers are freed by their owner's function; the invariant is about
    the others. *)
Definition plain (b : pbuf) : Prop := Z.land (pb_flags b) PBUF_FLAG_IS_CUSTOM = 0.

Lemma in_refs_update m a v v' x :
  m !! a = Some v → (in_refs (<[a := v']> m) x + points v x = in_refs m x + points v' x)%nat.
Proof.
  intros Ha. rewrite <- insert_delete_eq, in_refs_insert by apply lookup_delete_eq.
  rewrite (in_refs_delete m a v x) by done. lia.
Qed.

(** The invariant: every count is right and fits, no pointer dangles, there is
    no cycle. *)
Record refs_ok (h : heap) (ext : list positive) : Prop := {
  ro_ref : ∀ a b, h !! a = Some b → pb_ref b = Z.of_nat (in_refs (links h) a + owned ext a) ∧ 0 < pb_ref b < 65536;
  ro_next : ∀ a b c, h !! a = Some b → pb_next b = Some c → is_Some (h !! c);
  ro_ext : ∀ a, a ∈ ext → is_Some (h !! a);
  ro_rank : ∃ rank : positive → nat, ∀ a b c, h !! a = Some b → pb_next b = Some c → (rank c < rank a)%nat;
  ro_plain : ∀ a b, h !! a = Some b → plain b }.

Lemma owned_pos ext a : (0 < owned ext a)%nat ↔ a ∈ ext.
Proof. unfold owned. rewrite list_elem_of_In. symmetry. apply count_occ_In. Qed.

Lemma owned_cons p ext a : owned (p :: ext) a = (points (Some p) a + owned ext a)%nat.
Proof.
  unfold owned, points. cbn. destruct (Pos.eq_dec p a) as [->|Hn]; [by rewrite decide_True|].
  rewrite decide_False; [done|]. congruence.
Qed.

Lemma links_insert h a b : links (<[a := b]> h) = <[a := pb_next b]> (links h).
Proof. apply fmap_insert. Qed.
Lemma links_delete h a : links (delete a h) = delete a (links h).
Proof. apply fmap_delete. Qed.
Lemma links_lookup h a b : h !! a = Some b → links h !! a = Some (pb_next b).
Proof. intros E. unfold links. by rewrite lookup_fmap, E. Qed.

Lemma in_refs_next h k b a : h !! k = Some b → pb_next b = Some a → (0 < in_refs (links h) a)%nat.
Proof. intros Hk Hn. apply in_refs_pos with k. by rewrite (links_lookup _ _ _ Hk), Hn. Qed.

(** The list an owner has after giving up or taking the link [v]. *)
Definition with_link (v : option positive) (ext : list positive) : list positive :=
  match v with Some q => q :: ext | None => ext end.

Lemma owned_with_link v ext a : owned (with_link v ext) a = (points v a + owned ext a)%nat.
Proof. destruct v; [apply owned_cons|done]. Qed.

Lemma with_link_in v ext a : a ∈ with_link v ext ↔ v = Some a ∨ a ∈ ext.
Proof.
  destruct v as [q|]; cbn; [rewrite list.elem_of_cons|].
  - split; (intros [Hq|?]; [left; congruence|by right]).
  - split; [by right|by intros [?|?]].
Qed.

Lemma refs_empty : refs_ok ∅ [].
Proof.
  split.
  - intros a b Ha. by rewrite lookup_empty in Ha.
  - intros a b c Ha. by rewrite lookup_empty in Ha.
  - intros a Ha. by apply list.elem_of_nil in Ha.
  - exists (λ _, 0%nat). intros a b c Ha. by rewrite lookup_empty in Ha.
  - intros a b Ha. by rewrite lookup_empty in Ha.
Qed.

(** ** Taking a buffer out, and putting one in *)

Lemma refs_delete h p ext b :
  refs_ok h (p :: ext) → h !! p = Some b → pb_ref b = 1 → refs_ok (delete p h) (with_link (pb_next b) ext).
Proof.
  intros [Href Hnext Hext [rank Hrank] Hplain] Hp H1. destruct (Href p b Hp) as [E _].
  rewrite owned_cons in E. unfold points in E at 1. rewrite decide_True in E by done.
  assert (in_refs (links h) p = 0%nat ∧ owned ext p = 0%nat) as [Hin0 Hown0] by lia.
  assert (∀ k bk, h !! k = Some bk → pb_next bk ≠ Some p) as Hto.
  { intros k bk Hk Hn. pose proof (in_refs_next _ _ _ _ Hk Hn). lia. }
  split.
  - intros a ba [Hne Ha]%lookup_delete_Some. destruct (Href a ba Ha) as [Er Hr]. split; [|done].
    rewrite Er, owned_with_link, links_delete, owned_cons. unfold points at 1. rewrite decide_False by congruence.
    rewrite (in_refs_delete (links h) p (pb_next b) a) by (by apply links_lookup). lia.
  - intros a ba c [Hne Ha]%lookup_delete_Some Hc. rewrite lookup_delete_ne; [by eapply Hnext|].
    intros ->. by apply (Hto a ba).
  - intros a [Hn|Ha]%with_link_in.
    + rewrite lookup_delete_ne; [by eapply Hnext|]. intros ->. by apply (Hto a b).
    + rewrite lookup_delete_ne; [apply Hext; by right|]. intros ->. apply owned_pos in Ha. lia.
  - exists rank. intros a ba c [_ Ha]%lookup_delete_Some. by apply Hrank.
  - intros a ba [_ Ha]%lookup_delete_Some. by apply (Hplain a).
Qed.

Lemma refs_insert h a b ext :
  refs_ok h (with_link (pb_next b) ext) → h !! a = None → pb_ref b = 1 → plain b → refs_ok (<[a := b]> h) (a :: ext).
Proof.
  intros [Href Hnext Hext [rank Hrank] Hplain] Ha H1 Hpl.
  assert (∀ k bk, h !! k = Some bk → pb_next bk ≠ Some a) as Hto.
  { intros k bk Hk Hn. destruct (Hnext _ _ _ Hk Hn). congruence. }
  assert (pb_next b ≠ Some a) as Hself.
  { intros Hn. destruct (Hext a) as [? ?]; [apply with_link_in; by left|congruence]. }
  assert (owned ext a = 0%nat) as Hown.
  { destruct (owned ext a) eqn:E; [done|]. assert (a ∈ ext) by (apply owned_pos; lia).
    destruct (Hext a) as [? ?]; [apply with_link_in; by right|congruence]. }
  assert (links h !! a = None) as Hla by (unfold links; by rewrite lookup_fmap, Ha).
  split.
  - intros x bx Hx. rewrite links_insert, in_refs_insert, owned_cons by done.
    apply lookup_insert_Some in Hx as [[<- <-]|[Hne Hx]].
    + assert (in_refs (links h) a = 0%nat) as ->.
      { destruct (in_refs (links h) a) eqn:E; [done|].
        destruct (in_refs_inv (links h) a) as [k Hk]; [lia|]. unfold links in Hk. rewrite lookup_fmap in Hk.
        destruct (h !! k) as [bk|] eqn:Ek; [|done]. injection Hk as Hk. by destruct (Hto k bk). }
      rewrite Hown. unfold points. rewrite decide_False, decide_True by done. lia.
    + destruct (Href x bx Hx) as [Er ?]. split; [|done]. rewrite Er, owned_with_link.
      replace (points (Some a) x) with 0%nat by (unfold points; rewrite decide_False; congruence). lia.
  - intros x bx c Hx Hc. destruct (decide (c = a)) as [->|]; [by rewrite lookup_insert_eq|].
    rewrite lookup_insert_ne by done. apply lookup_insert_Some in Hx as [[<- <-]|[_ Hx]].
    + apply Hext, with_link_in. by left.
    + by eapply Hnext.
  - intros x [->|Hx]%list.elem_of_cons; [by rewrite lookup_insert_eq|].
    destruct (decide (x = a)) as [->|]; [by rewrite lookup_insert_eq|]. rewrite lookup_insert_ne by done.
    apply Hext, with_link_in. by right.
  - exists (λ x, if decide (x = a) then S (from_option rank 0%nat (pb_next b)) else rank x).
    intros x bx c Hx Hc. destruct (decide (c = a)) as [->|].
    + apply lookup_insert_Some in Hx as [[<- <-]|[_ Hx]]; [done|by destruct (Hto x bx)].
    + apply lookup_insert_Some in Hx as [[<- <-]|[Hne Hx]].
      * rewrite decide_True by done. rewrite Hc. cbn. lia.
      * rewrite decide_False by done. by eapply Hrank.
  - intros x bx [[<- <-]|[_ Hx]]%lookup_insert_Some; [done|by apply (Hplain x)].
Qed.

(** ** Changing a buffer *)

(** Only links, counts and flags matter. *)
Definition shape (b : pbuf) : option positive * Z * Z := (pb_next b, pb_ref b, pb_flags b).

Lemma refs_same h h' ext : (∀ a, shape <$> h' !! a = shape <$> h !! a) → refs_ok h ext → refs_ok h' ext.
Proof.
  intros Hsh [Href Hnext Hext [rank Hrank] Hplain].
  assert (∀ a b', h' !! a = Some b' → ∃ b, h !! a = Some b ∧ pb_next b' = pb_next b ∧ pb_ref b' = pb_ref b ∧ pb_flags b' = pb_flags b) as Hb.
  { intros a b' Ha. pose proof (Hsh a) as E. rewrite Ha in E. destruct (h !! a) as [b|]; [|done].
    exists b. cbn in E. injection E as ? ? ?. done. }
  assert (∀ a, is_Some (h !! a) → is_Some (h' !! a)) as Hdom.
  { intros a [b Ha]. pose proof (Hsh a) as E. rewrite Ha in E. by destruct (h' !! a). }
  assert (links h' = links h) as El.
  { apply map_eq. intros a. unfold links. rewrite !lookup_fmap. pose proof (Hsh a) as E.
    destruct (h' !! a), (h !! a); cbn in *; [|done..]. by injection E as -> _ _. }
  split.
  - intros a b' (b & Ha & _ & -> & _)%Hb. rewrite El. by apply Href.
  - intros a b' c (b & Ha & -> & _)%Hb Hc. by eapply Hdom, Hnext.
  - intros a Ha. by apply Hdom, Hext.
  - exists rank. intros a b' c (b & Ha & -> & _)%Hb Hc. by eapply Hrank.
  - intros a b' (b & Ha & _ & _ & Ef)%Hb. unfold plain. rewrite Ef. by apply (Hplain a).
Qed.

Lemma insert_present (h : heap) p b a : is_Some (h !! a) → is_Some (<[p := b]> h !! a).
Proof. intros. destruct (decide (a = p)) as [->|]; [by rewrite lookup_insert_eq|by rewrite lookup_insert_ne]. Qed.

(** An owner more or less. *)
Lemma refs_update h ext ext' p b n :
  refs_ok h ext → h !! p = Some b → n - Z.of_nat (owned ext' p) = pb_ref b - Z.of_nat (owned ext p) →
  0 < n < 65536 → (∀ a, a ≠ p → owned ext' a = owned ext a) → refs_ok (<[p := set_ref n b]> h) ext'.
Proof.
  intros [Href Hnext Hext [rank Hrank] Hplain] Hp Hn Hr Ho.
  assert (∀ a, is_Some (h !! a) → is_Some (<[p := set_ref n b]> h !! a)) as Hdom by (intros a; by apply insert_present).
  split.
  - intros a x Hx. rewrite links_insert. cbn [pb_next set_ref]. rewrite insert_id by (by apply links_lookup).
    apply lookup_insert_Some in Hx as [[<- <-]|[Hne Hx]].
    + cbn. destruct (Href p b Hp). lia.
    + rewrite Ho by done. by apply Href.
  - intros a x c [[<- <-]|[_ Hx]]%lookup_insert_Some Hc; apply Hdom; by eapply Hnext.
  - intros a Ha. destruct (decide (a = p)) as [->|]; [by rewrite lookup_insert_eq|].
    apply Hdom, Hext, owned_pos. rewrite <- Ho by done. by apply owned_pos.
  - exists rank. intros a x c [[<- <-]|[_ Hx]]%lookup_insert_Some Hc; by eapply Hrank.
  - intros a x [[<- <-]|[_ Hx]]%lookup_insert_Some; [exact (Hplain p b Hp)|by apply (Hplain a)].
Qed.

(** A link is cut: its target has an owner instead. *)
Lemma refs_unlink h a b ext :
  refs_ok h ext → h !! a = Some b → refs_ok (<[a := set_next None b]> h) (with_link (pb_next b) ext).
Proof.
  intros [Href Hnext Hext [rank Hrank] Hplain] Ha.
  assert (∀ x, is_Some (h !! x) → is_Some (<[a := set_next None b]> h !! x)) as Hdom by (intros x; by apply insert_present).
  split.
  - intros x bx Hx. rewrite links_insert, owned_with_link. cbn [pb_next set_next].
    pose proof (in_refs_update (links h) a (pb_next b) None x (links_lookup _ _ _ Ha)) as E.
    change (points None x) with 0%nat in E.
    apply lookup_insert_Some in Hx as [[<- <-]|[Hne Hx]]; [cbn; destruct (Href a b Ha); lia|].
    destruct (Href x bx Hx). lia.
  - intros x bx c [[<- <-]|[_ Hx]]%lookup_insert_Some Hc; [done|]. apply Hdom. by eapply Hnext.
  - intros x [Hx|Hx]%with_link_in; apply Hdom; [by eapply Hnext|by apply Hext].
  - exists rank. intros x bx c [[<- <-]|[_ Hx]]%lookup_insert_Some Hc; [done|by eapply Hrank].
  - intros x bx [[<- <-]|[_ Hx]]%lookup_insert_Some; [exact (Hplain a b Ha)|by apply (Hplain x)].
Qed.

(** A chain is closed under [next]. *)
Lemma linked_closed h p l x b c : linked h p l → x ∈ l.*1 → h !! x = Some b → pb_next b = Some c → c ∈ l.*1.
Proof.
  revert p. induction l as [|[y by'] l IH]; intros p; [by intros _ ?%list.elem_of_nil|].
  intros (_ & Hy & Hl) Hx Hb Hc. cbn in *. apply list.elem_of_cons. right.
  apply list.elem_of_cons in Hx as [->|Hx]; [|by eapply IH].
  rewrite Hb in Hy. injection Hy as <-. rewrite Hc in Hl. destruct l as [|[z bz] l]; [done|].
  destruct Hl as ([= ->] & _). left.
Qed.

(** An owner's reference becomes a link at the end of another chain. *)
Lemma refs_link h a b t l ext :
  refs_ok h (t :: ext) → h !! a = Some b → pb_next b = None → linked h (Some t) l → a ∉ l.*1 →
  refs_ok (<[a := set_next (Some t) b]> h) ext.
Proof.
  intros [Href Hnext Hext [rank Hrank] Hplain] Ha Hnone Hl Hout.
  assert (∀ x, is_Some (h !! x) → is_Some (<[a := set_next (Some t) b]> h !! x)) as Hdom
    by (intros x; by apply insert_present).
  split.
  - intros x bx Hx. rewrite links_insert. cbn [pb_next set_next].
    pose proof (in_refs_update (links h) a None (Some t) x) as E. rewrite (links_lookup _ _ _ Ha), Hnone in E.
    specialize (E eq_refl). change (points None x) with 0%nat in E.
    apply lookup_insert_Some in Hx as [[<- <-]|[Hne Hx]].
    + destruct (Href a b Ha) as [Er ?]. rewrite owned_cons in Er. cbn. lia.
    + destruct (Href x bx Hx) as [Er ?]. rewrite owned_cons in Er. lia.
  - intros x bx c [[<- <-]|[_ Hx]]%lookup_insert_Some Hc; apply Hdom; [|by eapply Hnext].
    injection Hc as <-. apply Hext. left.
  - intros x Hx. apply Hdom, Hext. by right.
  - exists (λ x, rank x + (if decide (x ∈ l.*1) then 0 else S (rank t)))%nat.
    intros x bx c Hx Hc. apply lookup_insert_Some in Hx as [[<- <-]|[_ Hx]].
    + injection Hc as <-. rewrite (decide_False (P := a ∈ _)) by done. destruct (decide (t ∈ l.*1)) as [|Ht]; [lia|].
      destruct l as [|[y by'] l]; [done|]. destruct Hl as ([= ->] & _). exfalso. apply Ht. left.
    + pose proof (Hrank x bx c Hx Hc). destruct (decide (x ∈ l.*1)) as [Hin|]; [|destruct (decide (c ∈ l.*1)); lia].
      rewrite decide_True; [lia|]. by eapply linked_closed.
  - intros x bx [[<- <-]|[_ Hx]]%lookup_insert_Some; [exact (Hplain a b Ha)|by apply (Hplain x)].
Qed.

(** ** What no owner reaches is not there *)

Inductive reach (h : heap) (ext : list positive) : positive → Prop :=
  | reach_own a : a ∈ ext → reach h ext a
  | reach_next a b c : reach h ext a → h !! a = Some b → pb_next b = Some c → reach h ext c.

Lemma rank_bound (h : heap) (rank : positive → nat) : ∃ N, ∀ a, is_Some (h !! a) → (rank a ≤ N)%nat.
Proof.
  induction h as [|k b h Hk [N IH]] using map_ind.
  - exists 0%nat. intros a [? Ha]. by rewrite lookup_empty in Ha.
  - exists (N + rank k)%nat. intros a Ha. destruct (decide (a = k)) as [->|]; [lia|].
    rewrite lookup_insert_ne in Ha by done. specialize (IH a Ha). lia.
Qed.

Lemma no_leak h ext a : refs_ok h ext → is_Some (h !! a) → reach h ext a.
Proof.
  intros [Href Hnext Hext [rank Hrank] _]. destruct (rank_bound h rank) as [N HN].
  remember (N - rank a)%nat as k eqn:Ek. revert a Ek. induction k as [k IH] using lt_wf_ind. intros a -> Ha.
  destruct Ha as [b Ha]. destruct (Href a b Ha) as [E ?]. destruct (decide (a ∈ ext)) as [|Hn]; [by apply reach_own|].
  assert (owned ext a = 0%nat) as H0 by (destruct (owned ext a) eqn:E0; [done|]; destruct Hn; apply owned_pos; lia).
  destruct (in_refs_inv (links h) a) as [c Hc]; [lia|]. unfold links in Hc. rewrite lookup_fmap in Hc.
  destruct (h !! c) as [bc|] eqn:Ec; [|done]. injection Hc as Hc. pose proof (Hrank c bc a Ec Hc).
  pose proof (HN c ltac:(by eexists)). eapply reach_next; [|exact Ec|exact Hc].
  eapply IH; [|reflexivity|by eexists]. pose proof (HN a ltac:(by eexists)). lia.
Qed.

Lemma reach_present h ext a : refs_ok h ext → reach h ext a → is_Some (h !! a).
Proof. intros H. induction 1; [by apply (ro_ext _ _ H)|by eapply (ro_next _ _ H)]. Qed.

Lemma no_owners_empty h : refs_ok h [] → h = ∅.
Proof.
  intros H. apply map_empty. intros a. destruct (h !! a) as [b|] eqn:E; [|done].
  assert (reach h [] a) as Hr by (apply no_leak; [done|by eexists]).
  exfalso. clear E. induction Hr as [a Ha|]; [by apply list.elem_of_nil in Ha|done].
Qed.

(** Every pointer is the start of a chain that ends. *)
Lemma refs_linked h ext a : refs_ok h ext → is_Some (h !! a) → ∃ l, linked h (Some a) l.
Proof.
  intros [_ Hnext _ [rank Hrank] _]. remember (rank a) as k eqn:Ek. revert a Ek.
  induction k as [k IH] using lt_wf_ind. intros a -> [b Ha]. destruct (pb_next b) as [c|] eqn:Ec.
  - destruct (IH (rank c) ltac:(by eapply Hrank) c eq_refl) as [l Hl]; [by eapply Hnext|].
    exists ((a, b) :: l). split_and!; [done..|by rewrite Ec].
  - exists [(a, b)]. by split_and!.
Qed.

(** * Freeing *)

Section free.
Context (custom_free_function : positive → PB ()).

(** The heap after a reference to the head of [l] is gone, and the number of
    buffers that goes. *)
Fixpoint released (l : list node) (h : heap) : heap :=
  match l with
  | [] => h
  | (a, b) :: l => if pb_ref b =? 1 then released l (delete a h) else <[a := set_ref (pb_ref b - 1) b]> h
  end.
Fixpoint freed (l : list node) : Z :=
  match l with [] => 0 | (_, b) :: l => if pb_ref b =? 1 then 1 + freed l else 0 end.

Lemma u8_add x y : u8 (u8 x + y) = u8 (x + y).
Proof. unfold u8. by rewrite Zplus_mod_idemp_l. Qed.

Definition counted (b : pbuf) : Prop := plain b ∧ 0 < pb_ref b < 65536.

Lemma free_loop_ok s l fuel c :
  linked (bufs s) (hd_addr l) l → Forall counted l.*2 → (length l ≤ fuel)%nat → 0 ≤ c < 256 →
  free_loop custom_free_function fuel (hd_addr l) c s =
  Ok (u8 (c + freed l), with_bufs (released l (bufs s)) s).
Proof.
  revert s fuel c. induction l as [|[a b] l IH]; intros s fuel c Hl Hb Hf Hc.
  - cbn. rewrite Z.add_0_r, u8_small, with_bufs_id by lia. by destruct fuel.
  - destruct fuel as [|fuel]; [cbn in Hf; lia|]. cbn [length] in Hf. pose proof (linked_NoDup _ _ _ Hl) as Hn.
    cbn in Hn. apply list.NoDup_cons in Hn as [Hout _].
    apply Forall_cons_iff in Hb as [[Hpl Hr] Hbs]. destruct Hl as (_ & Ha & Hl). cbn in Hpl, Hr.
    cbn [free_loop hd_addr head fmap option_fmap option_map fst released freed]. load Ha.
    unfold LWIP_ASSERT. destruct (Z.ltb_spec 0 (pb_ref b)); [|lia]. erewrite bind_of_ok by done. cbv zeta.
    rewrite u16_small by lia. erewrite bind_of_ok by done.
    destruct (Z.eqb_spec (pb_ref b - 1) 0), (Z.eqb_spec (pb_ref b) 1); try lia; [|by rewrite Z.add_0_r, u8_small by lia].
    unfold free_one. rewrite Hpl. cbn [Z.eqb negb]. erewrite bind_of_ok by done.
    cbn [with_bufs bufs]. rewrite delete_insert_eq. rewrite (linked_hd _ _ _ Hl) in Hl |- *.
    rewrite IH; [|cbn; eapply linked_ext; [done|]; intros x Hx; rewrite lookup_delete_ne; [done|]; by intros ->|done|lia|].
    + cbn [bufs with_bufs]. by rewrite u8_add, <- Z.add_assoc.
    + apply u8_range.
Qed.

Lemma refs_counted h ext p l : refs_ok h ext → linked h p l → Forall counted l.*2.
Proof.
  intros H Hl. apply list.Forall_forall. intros b ([a b'] & -> & Hin)%list_elem_of_fmap. cbn.
  pose proof (linked_lookup _ _ _ _ _ Hl Hin) as Ha. split; [by eapply ro_plain|by eapply ro_ref].
Qed.

Lemma released_survive l h p :
  linked h p l → ∀ a b', released l h !! a = Some b' → ∃ b, h !! a = Some b ∧ b' = set_ref (pb_ref b') b.
Proof.
  revert h p. induction l as [|[x b] l IH]; intros h p Hl a b' Ha; cbn [released] in Ha.
  - exists b'. split; [done|]. by destruct b'.
  - pose proof (linked_NoDup _ _ _ Hl) as Hn. cbn in Hn. apply list.NoDup_cons in Hn as [Hout _].
    destruct Hl as (_ & Hx & Hl). destruct (pb_ref b =? 1).
    + apply IH with (p := pb_next b) in Ha as (b2 & [_ Hb2]%lookup_delete_Some & E); [by exists b2|].
      eapply linked_ext; [done|]. intros y Hy. rewrite lookup_delete_ne; [done|]. by intros ->.
    + apply lookup_insert_Some in Ha as [[<- <-]|[_ Ha]]; [by exists b|]. exists b'. split; [done|]. by destruct b'.
Qed.

Lemma released_size l h p : linked h p l → Z.of_nat (size (released l h)) + freed l = Z.of_nat (size h).
Proof.
  revert h p. induction l as [|[x b] l IH]; intros h p Hl; cbn [released freed]; [lia|].
  pose proof (linked_NoDup _ _ _ Hl) as Hn. cbn in Hn. apply list.NoDup_cons in Hn as [Hout _].
  destruct Hl as (_ & Hx & Hl). destruct (pb_ref b =? 1).
  - assert (linked (delete x h) (pb_next b) l) as Hl'.
    { eapply linked_ext; [done|]. intros y Hy. rewrite lookup_delete_ne; [done|]. by intros ->. }
    specialize (IH _ _ Hl'). rewrite map_size_delete_Some in IH by (by eexists).
    assert (size h ≠ 0%nat); [|lia]. intros E%map_size_empty_inv. by rewrite E, lookup_empty in Hx.
  - rewrite map_size_insert_Some by (by eexists). lia.
Qed.

(** An owner lets go. *)
Lemma refs_released h l ext : refs_ok h (with_link (hd_addr l) ext) → linked h (hd_addr l) l → refs_ok (released l h) ext.
Proof.
  revert h. induction l as [|[a b] l IH]; intros h H Hl; [done|]. cbn [hd_addr head fmap option_fmap option_map fst with_link] in H.
  pose proof (linked_NoDup _ _ _ Hl) as Hn. cbn in Hn. apply list.NoDup_cons in Hn as [Hout _].
  destruct Hl as (_ & Ha & Hl). cbn [released]. pose proof (ro_ref _ _ H a b Ha) as [Er Hr].
  destruct (Z.eqb_spec (pb_ref b) 1) as [E1|Hn1].
  - pose proof (linked_hd _ _ _ Hl) as Hh. rewrite Hh in Hl. apply IH.
    + rewrite <- Hh. by apply refs_delete.
    + eapply linked_ext; [done|]. intros x Hx. rewrite lookup_delete_ne; [done|]. by intros ->.
  - apply refs_update with (a :: ext); [done|done| |lia|].
    + rewrite owned_cons. unfold points. rewrite decide_True by done. lia.
    + intros x Hx. rewrite owned_cons. unfold points. rewrite decide_False by congruence. done.
Qed.

Lemma free_ok s ext p :
  refs_ok (bufs s) (p :: ext) → ∃ l, linked (bufs s) (Some p) l ∧
    pbuf_free custom_free_function (Some p) s = Ok (u8 (freed l), with_bufs (released l (bufs s)) s) ∧
    refs_ok (released l (bufs s)) ext.
Proof.
  intros H. destruct (refs_linked _ _ p H) as [l Hl]; [apply (ro_ext _ _ H); left|].
  pose proof (linked_hd _ _ _ Hl) as Hh. pose proof (linked_length _ _ _ Hl).
  exists l. split_and!; [done| |apply refs_released; rewrite <- Hh; done].
  unfold pbuf_free, LWIP_ASSERT. rewrite bool_decide_true by done. do 2 erewrite bind_of_ok by done.
  rewrite Hh in Hl |- *. rewrite free_loop_ok; [done|done|exact (refs_counted _ _ _ _ H Hl)|lia|lia].
Qed.

(** (C25) Giving back one of an owner's references never fails; the counts are
    right afterwards, exactly the buffers that some other owner still reaches
    stay, with everything but their counts unchanged, and the others are freed;
    their number is returned modulo 256. *)
Theorem pbuf_free_exact s ext p :
  refs_ok (bufs s) (p :: ext) →
  ∃ h' k, pbuf_free custom_free_function (Some p) s = Ok (u8 k, with_bufs h' s) ∧
    refs_ok h' ext ∧
    (∀ a, is_Some (h' !! a) ↔ reach (bufs s) ext a) ∧
    (∀ a b', h' !! a = Some b' → ∃ b, bufs s !! a = Some b ∧ b' = set_ref (pb_ref b') b) ∧
    Z.of_nat (size h') + k = Z.of_nat (size (bufs s)).
Proof.
  intros H. destruct (free_ok s ext p H) as (l & Hl & E & H'). exists (released l (bufs s)), (freed l).
  pose proof (released_survive l _ _ Hl) as Hsv. split_and!; [done|done| |done|by eapply released_size].
  intros a. split.
  - intros Ha. pose proof (no_leak _ _ _ H' Ha) as Hr. clear Ha.
    induction Hr as [a Ha|a b' c Hr IH Ha Hc]; [by apply reach_own|].
    destruct (Hsv _ _ Ha) as (b & Hb & Eb). eapply reach_next; [exact IH|exact Hb|]. by rewrite Eb in Hc.
  - induction 1 as [a Ha|a b c Hr [b' Hb'] Ha Hc]; [by apply (ro_ext _ _ H')|].
    destruct (Hsv _ _ Hb') as (b2 & Hb & Eb). rewrite Ha in Hb. injection Hb as <-.
    eapply (ro_next _ _ H'); [exact Hb'|]. by rewrite Eb.
Qed.

End free.

(** * Taking references and joining *)

(** [pbuf_ref] gives one more owner a reference; the 65536th stops at the
    assertion. *)
Lemma pbuf_ref_counts s ext a b :
  refs_ok (bufs s) ext → bufs s !! a = Some b →
  (pb_ref b < 65535 →
    let h' := <[a := set_ref (pb_ref b + 1) b]> (bufs s) in
    pbuf_ref (Some a) s = Ok ((), with_bufs h' s) ∧ refs_ok h' (a :: ext)) ∧
  (pb_ref b = 65535 → pbuf_ref (Some a) s = Fail AssertFailure).
Proof.
  intros H Ha. pose proof (ro_ref _ _ H a b Ha) as [_ Hr]. unfold pbuf_ref, LWIP_ASSERT. load Ha. cbv zeta. split; intros Hlt.
  - rewrite u16_small by lia. erewrite bind_of_ok by done. destruct (Z.ltb_spec 0 (pb_ref b + 1)); [|lia].
    split; [done|]. apply refs_update with ext; [done|done| |lia|].
    + rewrite owned_cons. unfold points. rewrite decide_True by done. lia.
    + intros x Hx. rewrite owned_cons. unfold points. rewrite decide_False by congruence. done.
  - rewrite Hlt. done.
Qed.

Lemma shape_insert (h : heap) a b b' x :
  h !! a = Some b → shape b' = shape b → shape <$> <[a := b']> h !! x = shape <$> h !! x.
Proof.
  intros Ha E. destruct (decide (x = a)) as [->|]; [|by rewrite lookup_insert_ne].
  rewrite lookup_insert_eq, Ha. cbn. by rewrite E.
Qed.

(** Joining is, for the counts, one link more at the end of the chain. *)
Lemma joined_shape h p l t n :
  linked h p l → l ≠ [] →
  ∃ z bz, (z, bz) ∈ l ∧ pb_next bz = None ∧
    ∀ x, shape <$> store_nodes (joined l t n) h !! x = shape <$> <[z := set_next (Some t) bz]> h !! x.
Proof.
  revert h p. induction l as [|[a b] l IH]; intros h p Hl Hne; [done|]. pose proof (linked_NoDup _ _ _ Hl) as Hn.
  cbn in Hn. apply list.NoDup_cons in Hn as [Hout _]. destruct Hl as (-> & Ha & Hl). cbn [joined].
  destruct l as [|[c d] l].
  - exists a, b. split_and!; [left|done|]. intros x. cbn [store_nodes joined].
    destruct (decide (x = a)) as [->|]; [by rewrite !lookup_insert_eq|by rewrite !lookup_insert_ne].
  - cbn [store_nodes]. set (b1 := set_tot_len _ b).
    destruct (IH (<[a := b1]> h) (pb_next b)) as (z & bz & Hz & Hzn & Hsh); [by apply linked_insert_out|done|].
    exists z, bz. split_and!; [by right|done|]. intros x. rewrite Hsh.
    destruct (decide (x = z)) as [->|]; [by rewrite !lookup_insert_eq|].
    rewrite !(lookup_insert_ne _ z) by done. by eapply shape_insert.
Qed.

Lemma joined_refs h ext l1 l2 p t n :
  refs_ok h (t :: ext) → linked h p l1 → l1 ≠ [] → linked h (Some t) l2 →
  (∀ x, x ∈ l1.*1 → x ∈ l2.*1 → False) → refs_ok (store_nodes (joined l1 t n) h) ext.
Proof.
  intros H Hl1 Hne Hl2 Hd. destruct (joined_shape h p l1 t n Hl1 Hne) as (z & bz & Hz & Hzn & Hsh).
  eapply refs_same; [exact Hsh|]. eapply refs_link; [exact H| |done|exact Hl2|].
  - exact (linked_lookup _ _ _ _ _ Hl1 Hz).
  - intros Hin. apply (Hd z); [|done]. apply list_elem_of_fmap. by exists (z, bz).
Qed.

(** [pbuf_cat] takes over the caller's reference to the tail: the counts are
    right with one owner less. *)
Lemma pbuf_cat_refs s ext a t l1 l2 :
  refs_ok (bufs s) (t :: ext) → packet (bufs s) (Some a) l1 → packet (bufs s) (Some t) l2 →
  (∀ x, x ∈ l1.*1 → x ∈ l2.*1 → False) → total l1 + total l2 < 65536 →
  ∃ h' l', pbuf_cat (Some a) (Some t) s = Ok ((), with_bufs h' s) ∧ refs_ok h' ext ∧
    packet h' (Some a) l' ∧ content l' = content l1 ++ content l2.
Proof.
  intros H Hp1 Hp2 Hd Hm. destruct (pbuf_cat_joins s a t l1 l2 Hp1 Hp2 Hd Hm) as (E & Hp & Hc & _).
  eexists _, _. split_and!; [exact E| |exact Hp|exact Hc].
  eapply joined_refs; [exact H|apply Hp1| |apply Hp2|done].
  intros ->. by destruct (packet_head _ _ _ a Hp1 eq_refl) as (? & ? & ? & _).
Qed.

Lemma store_nodes_insert l h a b : a ∉ l.*1 → store_nodes l (<[a := b]> h) = <[a := b]> (store_nodes l h).
Proof.
  revert h. induction l as [|[x bx] l IH]; intros h; [done|]. cbn. intros [Hne Hout]%list.not_elem_of_cons.
  rewrite <- IH by done. by rewrite insert_insert_ne.
Qed.

(** After [pbuf_chain] the tail has both its owner and the link of the head. *)
Lemma pbuf_chain_refs s ext a t l1 l2 bt :
  refs_ok (bufs s) ext → packet (bufs s) (Some a) l1 → packet (bufs s) (Some t) l2 →
  (∀ x, x ∈ l1.*1 → x ∈ l2.*1 → False) → total l1 + total l2 < 65536 →
  bufs s !! t = Some bt → pb_ref bt < 65535 →
  ∃ h' l', pbuf_chain (Some a) (Some t) s = Ok ((), with_bufs h' s) ∧ refs_ok h' ext ∧
    packet h' (Some a) l' ∧ content l' = content l1 ++ content l2.
Proof.
  intros H Hp1 Hp2 Hd Hm Ht Hr. destruct (pbuf_cat_joins s a t l1 l2 Hp1 Hp2 Hd Hm) as (E & Hp & Hc & Hout).
  set (h1 := store_nodes (joined l1 t (total l2)) (bufs s)) in *.
  destruct (packet_head _ _ _ t Hp2 eq_refl) as (b2 & l2' & E2 & Ht2 & _).
  rewrite Ht in Ht2. injection Ht2 as <-.
  assert (t ∉ l1.*1) as Ht1 by (intros Hin; apply (Hd t Hin); rewrite E2; left).
  destruct (pbuf_ref_counts s ext t bt H Ht) as [Href _]. destruct (Href Hr) as [_ H'].
  set (bt' := set_ref (pb_ref bt + 1) bt) in *. set (l' := joined l1 t (total l2) ++ (t, bt') :: l2').
  assert (packet (<[t := bt']> h1) (Some a) l') as Hp'.
  { rewrite E2 in Hp. pose proof (packet_suffix _ _ _ _ Hp) as [[_ [_ Hl2']] Hb2 Ht2 _].
    replace (<[t := bt']> h1) with (store_nodes ((t, bt') :: l2') h1).
    - apply packet_replace with ((t, bt) :: l2'); [by rewrite E2|split; [done|by eapply linked_chained]|done| |done|].
      + apply bufs_cons in Hb2 as [? ?]. by constructor.
      + destruct Ht2. by split.
    - cbn [store_nodes]. eapply store_nodes_id, linked_insert_out; [exact Hl2'|].
      pose proof (linked_NoDup _ _ _ (pk_linked _ _ _ Hp2)) as Hn. rewrite E2 in Hn. cbn in Hn.
      by apply list.NoDup_cons in Hn as [? _]. }
  exists (<[t := bt']> h1), l'. split_and!; [| |done|].
  - unfold pbuf_chain. erewrite bind_of_ok by exact E. unfold pbuf_ref, LWIP_ASSERT.
    assert (bufs (with_bufs h1 s) !! t = Some bt) as Ht' by (cbn; by rewrite Hout). load Ht'. cbv zeta.
    pose proof (ro_ref _ _ H t bt Ht) as [_ ?]. rewrite u16_small by lia. erewrite bind_of_ok by done.
    destruct (Z.ltb_spec 0 (pb_ref bt + 1)); [done|lia].
  - unfold h1. rewrite <- store_nodes_insert by (by rewrite joined_fst).
    eapply joined_refs with (l2 := (t, bt') :: l2'); [exact H'| | | |].
    + apply linked_insert_out; [apply Hp1|done].
    + intros ->. by destruct (packet_head _ _ _ a Hp1 eq_refl) as (? & ? & ? & _).
    + pose proof (pk_linked _ _ _ Hp2) as Hl2. pose proof (linked_NoDup _ _ _ Hl2) as Hn. rewrite E2 in Hl2, Hn.
      cbn in Hn. apply list.NoDup_cons in Hn as [? _]. destruct Hl2 as (_ & _ & Hl2).
      split_and!; [done|by rewrite lookup_insert_eq|by apply linked_insert_out].
    + intros x Hx Hx2. apply (Hd x Hx). rewrite E2. exact Hx2.
  - unfold l'. rewrite content_app. cbn [content]. change (data bt') with (data bt).
    change (data bt ++ content l2') with (content ((t, bt) :: l2')). by rewrite <- E2, <- content_app.
Qed.

(** * Examples *)

(** The packet of [LwipPbuf], in the hands of one owner, who gives it back. *)
Lemma example_refs : refs_ok (bufs example_store) [1%positive].
Proof.
  assert (bufs example_store = <[1%positive := mk_pbuf (Some 2%positive) [50; 51] [10; 11; 12; 99] 7 3 PBUF_POOL 0 1]>
    (<[2%positive := mk_pbuf (Some 3%positive) [] [13] 4 1 PBUF_POOL 0 1]>
    (<[3%positive := mk_pbuf None [] [11; 12; 13] 3 3 PBUF_POOL 0 1]> ∅))) as -> by (vm_compute; reflexivity).
  repeat (apply refs_insert; [|done|done|done]; cbn [with_link pb_next]). apply refs_empty.
Qed.

Lemma pbuf_free_exact_witness :
  ∃ h' k, pbuf_free (λ _, fail InvalidFree) (Some 1%positive) example_store = Ok (u8 k, with_bufs h' example_store) ∧
    Z.of_nat (size h') + k = 3.
Proof.
  destruct (pbuf_free_exact (λ _, fail InvalidFree) example_store [] 1 example_refs) as (h' & k & E & _ & _ & _ & Hs).
  exists h', k. split; [exact E|exact Hs].
Defined.
