(* ===== verification/LwipPbufLife.v ===== *)
(** The life of the packets of [lwip/src/core/pbuf.c]: allocating chains,
    splitting and shortening them, with the effect on contents and reference
    counts together. *)
From stdpp Require Import gmap.
From S2P Require Import Prelude.
From S2P Require Import LwipPbuf.
From S2P Require Import LwipPbufWrite.
From S2P Require Import LwipPbufRefs.

(** * Splitting a packet *)

Lemma released_out l h a : a ∉ l.*1 → released l h !! a = h !! a.
Proof.
  revert h. induction l as [|[x b] l IH]; intros h; [done|]. cbn. intros [Hne Hout]%list.not_elem_of_cons.
  destruct (pb_ref b =? 1); [rewrite IH by done; by rewrite lookup_delete_ne|by rewrite lookup_insert_ne].
Qed.

Lemma released_insert l h a b : a ∉ l.*1 → released l (<[a := b]> h) = <[a := b]> (released l h).
Proof.
  revert h. induction l as [|[x bx] l IH]; intros h; [done|]. cbn. intros [Hne Hout]%list.not_elem_of_cons.
  destruct (pb_ref bx =? 1); [by rewrite <- IH, delete_insert_ne by done|by rewrite insert_insert_ne by done].
Qed.

(** The head of a chain is freed when any buffer is. *)
Lemma released_head a b l h : a ∉ l.*1 → 0 < freed ((a, b) :: l) → released ((a, b) :: l) h !! a = None.
Proof.
  intros Hout. cbn. destruct (pb_ref b =? 1); [|lia]. intros _. rewrite released_out by done. apply lookup_delete_eq.
Qed.

Lemma freed_nonneg l : 0 ≤ freed l.
Proof. induction l as [|[a b] l IH]; cbn; [lia|]. destruct (pb_ref b =? 1); lia. Qed.

Section life.
Context (malloc : Z → heap → option block) (custom_free_function : positive → PB ()).

Lemma dechain_tail_ok s ext a b q bq l :
  refs_ok (bufs s) ext → packet (bufs s) (Some a) ((a, b) :: (q, bq) :: l) →
  dechain_tail custom_free_function a b q s =
  Ok (u8 (freed ((q, bq) :: l)),
      with_bufs (released ((q, bq) :: l) (<[a := set_tot_len (pb_len b) (set_next None b)]> (bufs s))) s).
Proof.
  intros H Hp. pose proof (linked_NoDup _ _ _ (pk_linked _ _ _ Hp)) as Hn. cbn in Hn.
  apply list.NoDup_cons in Hn as [Hout _]. pose proof (refs_counted _ _ _ _ H (pk_linked _ _ _ Hp)) as Hc.
  apply Forall_cons_iff in Hc as [_ Hc]. destruct Hp as [(_ & Ha & Hl) Hb [Ht [Htq _]] Hm].
  apply bufs_cons in Hb as [[Hb0 _] Hb]. cbn [total] in *. pose proof Hl as (_ & Hq & _).
  unfold dechain_tail, LWIP_ASSERT. load Hq. rewrite (proj2 (Z.eqb_eq _ _)) by lia. erewrite bind_of_ok by done.
  assert (set_tot_len (u16 (pb_tot_len b - pb_len b)) bq = bq) as ->.
  { pose proof (total_nonneg _ Hb). cbn [total] in *. rewrite u16_small by lia.
    replace (pb_tot_len b - pb_len b) with (pb_tot_len bq) by lia. by destruct bq. }
  erewrite bind_of_ok by done. rewrite insert_id by done. rewrite with_bufs_id. load Ha. erewrite bind_of_ok by done.
  unfold pbuf_free, LWIP_ASSERT. rewrite bool_decide_true by done. do 2 erewrite bind_of_ok by done.
  set (h1 := <[a := _]> (bufs s)). assert (linked h1 (Some q) ((q, bq) :: l)) as Hl1.
  { apply linked_insert_out; [by rewrite (linked_hd _ _ _ Hl) in Hl|done]. }
  change (Some q) with (hd_addr ((q, bq) :: l)) in Hl1 |- *. pose proof (linked_length _ _ _ Hl1).
  rewrite free_loop_ok; [done|done|done|cbn [bufs with_bufs]; lia|lia].
Qed.

(** [pbuf_dechain] leaves the first buffer as a packet of its own and drops
    its reference to the rest.  It returns the rest if that is still there and
    a null pointer if it was freed, unless the number of freed buffers is a
    multiple of 256: then it returns the address of the freed rest. *)
Lemma pbuf_dechain_cuts s ext a b l :
  refs_ok (bufs s) ext → a ∈ ext → packet (bufs s) (Some a) ((a, b) :: l) →
  ∃ r h' b', pbuf_dechain custom_free_function a s = Ok (r, with_bufs h' s) ∧
    refs_ok h' ext ∧ packet h' (Some a) [(a, b')] ∧ content [(a, b')] = data b ∧
    (freed l = 0 → r = pb_next b) ∧
    (0 < freed l → r = (if u8 (freed l) =? 0 then pb_next b else None) ∧ ∀ q, pb_next b = Some q → h' !! q = None).
Proof.
  intros H Hin Hp. pose proof Hp as [Hl Hb [Ht Htl] Hm]. pose proof (linked_NoDup _ _ _ Hl) as Hn. cbn in Hn.
  apply list.NoDup_cons in Hn as [Hout Hn]. destruct Hl as (_ & Ha & Hl). apply bufs_cons in Hb as [Hb Hbs].
  cbn [total] in *. pose proof (total_nonneg _ Hbs). pose proof (freed_nonneg l). pose proof (u8_range (freed l)).
  pose proof (linked_hd _ _ _ Hl) as Hh. pose proof Hb as [Hb0 _].
  set (b' := set_tot_len (pb_len b) (set_next None b)). set (h1 := <[a := b']> (bufs s)).
  assert (refs_ok h1 (with_link (hd_addr l) ext)) as Hr1.
  { rewrite <- Hh. eapply refs_same; [|by eapply refs_unlink]. intros x. unfold h1.
    destruct (decide (x = a)) as [->|]; [by rewrite !lookup_insert_eq|by rewrite !lookup_insert_ne]. }
  assert (linked h1 (hd_addr l) l) as Hl1 by (apply linked_insert_out; [by rewrite <- Hh|done]).
  assert (released l h1 !! a = Some b') as Ha' by (rewrite released_out by done; apply lookup_insert_eq).
  exists (match l with [] => None | _ => if u8 (freed l) >? 0 then None else pb_next b end), (released l h1), b'.
  split_and!.
  - unfold pbuf_dechain. load Ha.
    assert ((match pb_next b with None => mret 1 | Some q => dechain_tail custom_free_function a b q end) s =
      Ok (match l with [] => 1 | _ => u8 (freed l) end, with_bufs (released l h1) s)) as Etail.
    { rewrite Hh. destruct l as [|[q bq] l].
      - cbn [total] in *. change (Ok (1, s) = Ok (1, with_bufs h1 s)). do 2 f_equal. unfold h1.
        rewrite insert_id; [by rewrite with_bufs_id|]. rewrite Ha. f_equal. unfold b', set_tot_len, set_next.
        destruct b. cbn in *. f_equal; [done|lia].
      - by apply (dechain_tail_ok s ext a b q bq l). }
    rewrite (bind_of_ok _ _ _ _ _ Etail). change (bufs (with_bufs (released l h1) s) !! a = Some b') in Ha'. load Ha'. unfold LWIP_ASSERT. cbn [b' pb_tot_len pb_len set_tot_len set_next]. rewrite Z.eqb_refl.
    erewrite bind_of_ok by done. by destruct l.
  - by apply refs_released.
  - split; [by split_and!|by constructor|split; [cbn; lia|done]|cbn; lia].
  - cbn. by rewrite app_nil_r.
  - intros E0. rewrite E0. destruct l; [by rewrite Hh|done].
  - intros Hf. destruct l as [|[q bq] l]; [done|]. split.
    { destruct (Z.gtb_spec (u8 (freed ((q, bq) :: l))) 0), (Z.eqb_spec (u8 (freed ((q, bq) :: l))) 0); (done || lia). } rewrite Hh. intros ? [= <-]. apply list.NoDup_cons in Hn as [Hq _]. by apply released_head.
Qed.

(** * Shortening a packet *)

(** The buffers in front of the new last one. *)
Fixpoint lowered (l : list node) (g : Z) : list node :=
  match l with [] => [] | (a, b) :: l => (a, set_tot_len (pb_tot_len b - g) b) :: lowered l g end.

Lemma lowered_fst l g : (lowered l g).*1 = l.*1.
Proof. induction l as [|[a b] l IH]; [done|]. cbn. by rewrite IH. Qed.
Lemma lowered_total l g : total (lowered l g) = total l.
Proof. induction l as [|[a b] l IH]; [done|]. cbn. by rewrite IH. Qed.
Lemma lowered_content l g : content (lowered l g) = content l.
Proof. induction l as [|[a b] l IH]; [done|]. cbn. by rewrite IH. Qed.
Lemma lowered_bufs l g : Forall buf_ok l.*2 → Forall buf_ok (lowered l g).*2.
Proof. induction l as [|[a b] l IH]; [done|]. intros [? ?]%bufs_cons. cbn. constructor; [done|by apply IH]. Qed.

(** Shortening by [g] at the end of [l1 ++ (q, b) :: l2]. *)
Definition cut_last (b : pbuf) (n : Z) : pbuf := set_next None (set_tot_len n (set_len n b)).

Lemma lowered_tot l1 q b l2 n :
  tot_ok (l1 ++ (q, b) :: l2) → tot_ok (lowered l1 (total ((q, b) :: l2) - n) ++ [(q, cut_last b n)]).
Proof.
  induction l1 as [|[c d] l1 IH]; [intros _; cbn; split; [lia|done]|]. intros [Hd Hl].
  change (pb_tot_len d = pb_len d + total (l1 ++ (q, b) :: l2)) in Hd. rewrite total_app in Hd.
  change (lowered ((c, d) :: l1) ?g) with ((c, set_tot_len (pb_tot_len d - g) d) :: lowered l1 g).
  split; [|by apply IH]. cbn [pb_tot_len pb_len set_tot_len].
  change (pb_tot_len d - (total ((q, b) :: l2) - n) =
    pb_len d + total (lowered l1 (total ((q, b) :: l2) - n) ++ [(q, cut_last b n)])).
  rewrite total_app, lowered_total. cbn [total cut_last pb_len set_next set_tot_len set_len] in *. lia.
Qed.

Lemma lowered_chained p l1 q b l2 g n :
  chained p (l1 ++ (q, b) :: l2) → chained p (lowered l1 g ++ [(q, cut_last b n)]).
Proof.
  revert p. induction l1 as [|[c d] l1 IH]; intros p; cbn; [by intros [-> _]|]. intros [-> Hc]. split; [done|]. by apply IH.
Qed.

Lemma realloc_loop_ok s l fuel n g :
  linked (bufs s) (hd_addr l) l → Forall buf_ok l.*2 → tot_ok l → total l < 65536 → (length l ≤ fuel)%nat →
  0 ≤ n < total l → 0 < g ≤ total l - n → ∀ a, hd_addr l = Some a →
  ∃ l1 q b l2, l = l1 ++ (q, b) :: l2 ∧ total l1 ≤ n ≤ total l1 + pb_len b ∧
    realloc_loop fuel a n (- g) s = Ok (q, n - total l1, with_bufs (store_nodes (lowered l1 g) (bufs s)) s).
Proof.
  revert s fuel n. induction l as [|[a b] l IH]; intros s fuel n Hl Hb Ht Hm Hf Hn Hg a' Ea; [done|]. injection Ea as <-.
  destruct fuel as [|fuel]; [cbn in Hf; lia|]. cbn [length] in Hf. pose proof (linked_NoDup _ _ _ Hl) as Hnd.
  cbn in Hnd. apply list.NoDup_cons in Hnd as [Hout _]. apply bufs_cons in Hb as [[Hb0 Hbp] Hbs].
  destruct Hl as (_ & Ha & Hl), Ht as [Htb Ht]. cbn [total] in *. pose proof (total_nonneg _ Hbs).
  cbn [realloc_loop]. load Ha. destruct (Z.gtb_spec n (pb_len b)) as [Hgt|Hle].
  - pose proof (linked_hd _ _ _ Hl) as Hh. destruct l as [|[c d] l]; [cbn in *; lia|]. rewrite Hh in Hl.
    unfold LWIP_ASSERT, deref. destruct (Z.ltb_spec (- g) 0xffff); [|lia]. erewrite bind_of_ok by done.
    assert (u16 (pb_tot_len b + u16 (- g)) = pb_tot_len b - g) as ->.
    { unfold u16. rewrite Zplus_mod_idemp_r. apply Z.mod_small. lia. }
    set (b1 := set_tot_len (pb_tot_len b - g) b). erewrite bind_of_ok by done.
    rewrite Hh. cbn [hd_addr head fmap option_fmap option_map fst]. rewrite bool_decide_true by done.
    do 2 erewrite bind_of_ok by done. rewrite u16_small by lia.
    destruct (IH (with_bufs (<[a := b1]> (bufs s)) s) fuel (n - pb_len b)) with (a := c)
      as (l1 & q & bq & l2 & El & Hn' & E); [by apply linked_insert_out|done|done|lia|lia|lia|lia|done|].
    exists ((a, b) :: l1), q, bq, l2. rewrite El. cbn [total]. split_and!; [done|lia|lia|].
    etransitivity; [exact E|]. cbn [lowered store_nodes bufs with_bufs]. fold b1. do 3 f_equal. lia.
  - exists [], a, b, l. cbn [total]. split_and!; [done|lia|lia|]. rewrite Z.sub_0_r. cbn. by rewrite with_bufs_id.
Qed.

Lemma linked_middle h p l1 q b l2 : linked h p (l1 ++ (q, b) :: l2) → linked h (Some q) ((q, b) :: l2).
Proof. apply linked_suffix. Qed.

(** Cutting a chain after [q], in a heap with right counts. *)
Lemma cut_after_ok s ext q b l2 n :
  refs_ok (bufs s) ext → linked (bufs s) (Some q) ((q, b) :: l2) →
  let h' := released l2 (<[q := cut_last b n]> (bufs s)) in
  cut_after custom_free_function q n s = Ok ((), with_bufs h' s) ∧ refs_ok h' ext.
Proof.
  intros H Hl h'. pose proof (linked_NoDup _ _ _ Hl) as Hn. cbn in Hn. apply list.NoDup_cons in Hn as [Hout _].
  destruct Hl as (_ & Hq & Hl). pose proof (refs_counted _ _ _ _ H Hl) as Hc. pose proof (linked_hd _ _ _ Hl) as Hh.
  set (b1 := set_tot_len n (set_len n b)). set (h1 := <[q := b1]> (bufs s)).
  assert (linked h1 (hd_addr l2) l2) as Hl1 by (apply linked_insert_out; [by rewrite <- Hh|done]). split.
  - unfold cut_after. load Hq. erewrite bind_of_ok by done.
    assert (free_next custom_free_function b (with_bufs h1 s) = Ok ((), with_bufs (released l2 h1) s)) as Ef.
    { unfold free_next. rewrite Hh. destruct l2 as [|[r br] l2]; [done|].
      cbn [hd_addr head fmap option_fmap option_map fst].
      unfold pbuf_free, LWIP_ASSERT. rewrite bool_decide_true by done. pose proof (linked_length _ _ _ Hl1).
      change (Some r) with (hd_addr ((r, br) :: l2)).
      erewrite bind_of_ok by (do 2 erewrite bind_of_ok by done; apply free_loop_ok; [done|done|cbn [bufs with_bufs]; lia|lia]).
      done. }
    rewrite (bind_of_ok _ _ _ _ _ Ef).
    assert (bufs (with_bufs (released l2 h1) s) !! q = Some b1) as Hq1
      by (cbn [bufs with_bufs]; rewrite released_out by done; apply lookup_insert_eq).
    load Hq1. unfold h', h1. rewrite !released_insert by done. unfold put_pbuf, modify. cbn [bufs with_bufs].
    unfold with_bufs. cbn. by rewrite insert_insert_eq.
  - apply refs_released; [|apply linked_insert_out; [by rewrite <- Hh|done]]. rewrite <- Hh.
    eapply refs_same; [|by eapply refs_unlink]. intros x.
    destruct (decide (x = q)) as [->|]; [by rewrite !lookup_insert_eq|by rewrite !lookup_insert_ne].
Qed.

Lemma lowered_shape h l g x : stored h l → NoDup l.*1 → shape <$> store_nodes (lowered l g) h !! x = shape <$> h !! x.
Proof.
  revert h. induction l as [|[a b] l IH]; intros h; [done|]. cbn.
  intros [Ha Hs]%Forall_cons_iff [Hout Hn]%list.NoDup_cons. cbn in Ha. rewrite IH; [by apply (shape_insert _ _ b)| |done].
  rewrite list.Forall_forall in Hs |- *. intros y Hy. rewrite lookup_insert_ne; [by apply Hs|].
  intros ->. apply Hout, list_elem_of_fmap. by exists y.
Qed.

(** The end of [pbuf_realloc]. *)
Lemma realloc_cut s ext p l1 q b l2 n :
  let l := l1 ++ (q, b) :: l2 in
  let g := total l - n in
  refs_ok (bufs s) ext → packet (bufs s) p l → total l1 ≤ n ≤ total l1 + pb_len b →
  ∃ h' l', cut_after custom_free_function q (n - total l1) (with_bufs (store_nodes (lowered l1 g) (bufs s)) s) =
      Ok ((), with_bufs h' s) ∧ refs_ok h' ext ∧
    packet h' p l' ∧ content l' = take (Z.to_nat n) (content l).
Proof.
  intros l g H [Hl Hb Ht Hm] Hn. pose proof (linked_NoDup _ _ _ Hl) as Hnd. pose proof (linked_suffix _ _ _ _ Hl) as Hl2.
  subst l. rewrite fmap_app in Hnd. rewrite fmap_app in Hb. apply list.NoDup_app in Hnd as (Hn1 & Hd & Hn2).
  apply Forall_app in Hb as [Hb1 [Hb Hb2]%bufs_cons]. pose proof Hl as [Hc Hs]%linked_iff.
  apply Forall_app in Hs as [Hs1 _]. cbn in Hn2. apply list.NoDup_cons in Hn2 as [Hq2 Hn2].
  set (h1 := store_nodes (lowered l1 g) (bufs s)). set (m := n - total l1).
  destruct (cut_after_ok (with_bufs h1 s) ext q b l2 m) as [E Hr].
  { eapply refs_same; [|exact H]. intros x. by apply lowered_shape. }
  { eapply linked_ext; [exact Hl2|]. intros x Hx. cbn [bufs with_bufs]. apply store_nodes_out. rewrite lowered_fst.
    intros Hx1. by apply (Hd x). }
  cbn [bufs with_bufs] in E, Hr. set (l' := lowered l1 g ++ [(q, cut_last b m)]).
  assert (<[q := cut_last b m]> h1 = store_nodes l' (bufs s)) as Est by (unfold l'; by rewrite store_nodes_app).
  assert (l'.*1 = l1.*1 ++ [q]) as Hfst by (unfold l'; by rewrite fmap_app, lowered_fst).
  assert (tot_ok l') as Ht'.
  { unfold l'. replace g with (total ((q, b) :: l2) - m) by (unfold g, m; rewrite total_app; lia). by eapply lowered_tot. }
  eexists _, l'. split_and!; [exact E|exact Hr| |].
  - split; [|unfold l'; rewrite fmap_app; apply Forall_app; split; [by apply lowered_bufs|]|done|].
    + apply linked_iff. split; [by eapply lowered_chained|]. rewrite Est.
      assert (stored (store_nodes l' (bufs s)) l') as Hst.
      { apply store_nodes_in. rewrite Hfst. apply list.NoDup_app. split_and!; [done| |apply list.NoDup_singleton].
        intros x Hx ->%list_elem_of_singleton. apply (Hd q Hx). left. }
      rewrite list.Forall_forall in Hst |- *. intros y Hy. rewrite released_out; [by apply Hst|].
      assert (y.1 ∈ l1.*1 ++ [q]) as Hin by (rewrite <- Hfst; apply list_elem_of_fmap; by exists y).
      intros Hy2. apply elem_of_app in Hin as [Hin|Hin%list_elem_of_singleton].
      * apply (Hd _ Hin). by right.
      * apply Hq2. by rewrite <- Hin.
    + constructor; [|done]. destruct Hb. unfold buf_ok. cbn. unfold m. lia.
    + unfold l'. rewrite total_app, lowered_total. cbn. rewrite total_app in Hm. cbn in Hm.
      pose proof (total_nonneg _ Hb2). unfold m. lia.
  - unfold l'. rewrite !content_app, lowered_content. cbn [content]. rewrite app_nil_r.
    pose proof (content_length _ Hb1) as Hc1. pose proof (data_length b Hb) as Hdl. unfold zlen in *.
    rewrite take_app_ge by lia. f_equal. rewrite take_app_le by lia. unfold data, m. cbn. rewrite take_take. f_equal. lia.
Qed.

(** [pbuf_realloc] shortens a packet to its first bytes: the buffers behind
    the new last one are let go, the counts and the lengths are right
    afterwards; a length that is not smaller changes nothing. *)
Lemma pbuf_realloc_shortens s ext a l n :
  refs_ok (bufs s) ext → packet (bufs s) (Some a) l → 0 ≤ n →
  (total l ≤ n → pbuf_realloc custom_free_function (Some a) n s = Ok ((), s)) ∧
  (n < total l →
    ∃ h' l', pbuf_realloc custom_free_function (Some a) n s = Ok ((), with_bufs h' s) ∧ refs_ok h' ext ∧
      packet h' (Some a) l' ∧ content l' = take (Z.to_nat n) (content l)).
Proof.
  intros H Hp Hn. destruct (packet_head _ _ _ a Hp eq_refl) as (b0 & k & El & Ha & _ & Ht0).
  unfold pbuf_realloc, LWIP_ASSERT, deref. rewrite bool_decide_true by done. do 2 erewrite bind_of_ok by done.
  load Ha. rewrite Ht0. split; intros Hlt; destruct (Z.geb_spec n (total l)); try lia; [done|].
  pose proof Hp as [Hl Hb Ht Hm]. pose proof (linked_hd _ _ _ Hl) as Hh. pose proof (linked_length _ _ _ Hl).
  cbv zeta. set (g := total l - n). replace (n - total l) with (- g) by (unfold g; lia).
  rewrite Hh in Hl. destruct (realloc_loop_ok s l (S (size (bufs s))) n g Hl Hb Ht Hm ltac:(lia) ltac:(lia) ltac:(lia) a)
    as (l1 & q & b & l2 & E12 & Hn12 & E); [by rewrite <- Hh|].
  erewrite bind_of_ok by done. rewrite (bind_of_ok _ _ _ _ _ E). cbv beta iota. clear E El.
  subst l. rewrite <- Hh in Hl. by eapply realloc_cut.
Qed.

(** * Allocation *)

(** New buffers with one owner. *)
Lemma refs_fresh h ext p l :
  refs_ok h ext → chained p l → NoDup l.*1 → Forall (λ a, h !! a = None) l.*1 →
  Forall (λ b, pb_ref b = 1 ∧ plain b) l.*2 → refs_ok (store_nodes l h) (with_link p ext).
Proof.
  intros H. revert p. induction l as [|[a b] l IH]; intros p Hc Hn Hf Hb; cbn in *; [by subst p|].
  destruct Hc as [-> Hc]. apply list.NoDup_cons in Hn as [Hout Hn].
  apply Forall_cons_iff in Hf as [Hfa Hf], Hb as [[H1 Hpl] Hb]. rewrite store_nodes_insert by done.
  apply refs_insert; [by apply IH|by rewrite store_nodes_out|done|done].
Qed.

(** Freeing the new buffers restores the heap. *)
Lemma released_fresh h l :
  NoDup l.*1 → Forall (λ a, h !! a = None) l.*1 → Forall (λ b, pb_ref b = 1) l.*2 → released l (store_nodes l h) = h.
Proof.
  induction l as [|[a b] l IH]; cbn; [done|]. intros [Hout Hn]%list.NoDup_cons [Hfa Hf]%Forall_cons_iff [H1 Hb]%Forall_cons_iff.
  rewrite H1. cbn [Z.eqb Pos.eqb]. rewrite store_nodes_insert by done.
  rewrite delete_insert_id; [by apply IH|]. by rewrite store_nodes_out.
Qed.

Lemma store_nodes_None l (h : heap) a : NoDup l.*1 → store_nodes l h !! a = None → (a ∉ l.*1) ∧ h !! a = None.
Proof.
  intros Hn Ha. destruct (decide (a ∈ l.*1)) as [Hin|Hout]; [|by rewrite store_nodes_out in Ha].
  apply list_elem_of_fmap in Hin as ([a' b] & -> & Hin).
  pose proof (store_nodes_in l h Hn) as Hs. rewrite list.Forall_forall in Hs. specialize (Hs _ Hin). cbn in *. congruence.
Qed.

(** [tot_len] of the buffers of a packet that still lacks [n] bytes. *)
Fixpoint tot_upto (l : list node) (n : Z) : Prop :=
  match l with [] => True | (_, b) :: l => pb_tot_len b = pb_len b + total l + n ∧ tot_upto l n end.

Lemma tot_upto_snoc l a b n :
  tot_upto l (pb_len b + n) → pb_tot_len b = pb_len b + n → tot_upto (l ++ [(a, b)]) n.
Proof.
  induction l as [|[c d] l IH]; cbn; [lia|]. intros [Hd Hl] Hb. rewrite total_app. cbn. split; [lia|by apply IH].
Qed.

Lemma tot_upto_last l a b b' n :
  tot_upto (l ++ [(a, b)]) n → pb_tot_len b' = pb_tot_len b → pb_len b' = pb_len b → tot_upto (l ++ [(a, b')]) n.
Proof.
  intros Hl Ht Hb. induction l as [|[c d] l IH]; cbn in *; [lia|]. destruct Hl as [Hd Hl]. rewrite total_app in *.
  cbn in *. split; [lia|by apply IH].
Qed.

Lemma tot_upto_0 l : tot_upto l 0 → tot_ok l.
Proof. induction l as [|[a b] l IH]; cbn; [done|]. intros [? ?]. split; [lia|by apply IH]. Qed.

Lemma chained_snoc p l a b q c :
  chained p (l ++ [(a, b)]) → pb_next c = None → chained p ((l ++ [(a, set_next (Some q) b)]) ++ [(q, c)]).
Proof.
  revert p. induction l as [|[d e] l IH]; intros p; cbn; [by intros [-> _]|]. intros [-> Hc] Hn. split; [done|]. by apply IH.
Qed.

Lemma pool_size_nonneg : 0 ≤ PBUF_POOL_BUFSIZE_ALIGNED.
Proof. done. Qed.

(** What the pools promise: a block is not in use and has the size asked for. *)
Definition malloc_fresh : Prop :=
  ∀ n h bl, 0 ≤ n → malloc n h = Some bl → h !! bl_addr bl = None ∧ zlen (bl_mem bl) = n.
(** Nothing promises this: what is in the place of the flags has not the bit of
    custom buffers. *)
Definition malloc_clean : Prop := ∀ n h bl, malloc n h = Some bl → Z.land (bl_flags bl) PBUF_FLAG_IS_CUSTOM = 0.

(** No buffer of the packet is empty. *)
Definition full (l : list node) : Prop := Forall (λ b, 0 < pb_len b) l.*2.

(** A chain from the pool that lacks [n] bytes, beside the buffers of [h]. *)
Record pool_chain (h : heap) (p : positive) (room : Z) (l : list node) (n : Z) : Prop := {
  pc_chained : chained (Some p) l;
  pc_NoDup : NoDup l.*1;
  pc_fresh : Forall (λ a, h !! a = None) l.*1;
  pc_counts : Forall (λ b, pb_ref b = 1 ∧ plain b) l.*2;
  pc_bufs : Forall buf_ok l.*2;
  pc_tot : tot_upto l n;
  pc_full : 0 < total l + n → full l;
  pc_room : (λ b, zlen (pb_room b)) <$> head l.*2 = Some room }.

Lemma pool_chain_next h p room l r br n len bl :
  pool_chain h p room (l ++ [(r, br)]) n → store_nodes (l ++ [(r, br)]) h !! bl_addr bl = None →
  zlen (bl_mem bl) = PBUF_POOL_BUFSIZE_ALIGNED → 0 < len ≤ PBUF_POOL_BUFSIZE_ALIGNED → 0 < n →
  let q := bl_addr bl in
  let nb := new_pbuf bl 0 n len PBUF_POOL 0 in
  let l' := (l ++ [(r, set_next (Some q) br)]) ++ [(q, nb)] in
  pool_chain h p room l' (n - len) ∧
  <[r := set_next (Some q) br]> (<[q := nb]> (store_nodes (l ++ [(r, br)]) h)) = store_nodes l' h ∧
  total l' = total (l ++ [(r, br)]) + len.
Proof.
  intros [Hc Hn Hf Hcn Hb Ht Hfu Hr] Hq Hm Hlen Hn0 q nb l'.
  destruct (store_nodes_None _ _ _ Hn Hq) as [Hqo Hqh].
  assert (l'.*1 = (l ++ [(r, br)]).*1 ++ [q]) as Hfst by (unfold l'; by rewrite !fmap_app).
  rewrite fmap_app in Hcn, Hb. apply Forall_app in Hcn as [Hcn [Hcr _]%Forall_cons_iff], Hb as [Hb [Hbr _]%Forall_cons_iff].
  split_and!.
  - split.
    + by apply chained_snoc.
    + rewrite Hfst. apply list.NoDup_app. split_and!; [done| |apply list.NoDup_singleton].
      intros x Hx ->%list_elem_of_singleton. by apply Hqo.
    + rewrite Hfst. apply Forall_app. split; [done|by constructor].
    + unfold l'. rewrite !fmap_app. repeat apply Forall_app_2; [done|by constructor|]. by repeat constructor.
    + unfold l'. rewrite !fmap_app. repeat apply Forall_app_2; [done|by constructor|]. constructor; [|done].
      unfold buf_ok, q, nb, new_pbuf. cbn [snd pb_len pb_payload]. change (Z.to_nat 0) with 0%nat. rewrite drop_0. lia.
    + unfold l'. apply tot_upto_snoc; [|cbn; lia]. cbn [pb_len nb new_pbuf]. replace (len + (n - len)) with n by lia.
      by eapply tot_upto_last.
    + intros _. pose proof (total_nonneg _ Hb). pose proof Hbr as [? _].
      assert (full (l ++ [(r, br)])) as Hfl by (apply Hfu; rewrite total_app; cbn in *; lia).
      unfold full in Hfl |- *. rewrite fmap_app in Hfl. apply Forall_app in Hfl as [Hfl [Hfr _]%Forall_cons_iff].
      unfold l'. rewrite !fmap_app. repeat apply Forall_app_2; [done|by constructor|]. constructor; [cbn; lia|done].
    + unfold l'. destruct l as [|[c d] l]; exact Hr.
  - unfold l'. rewrite !store_nodes_app. cbn [store_nodes].
    rewrite fmap_app in Hqo. apply not_elem_of_app in Hqo as [_ Hqr]. cbn in Hqr.
    rewrite insert_insert_ne by (intros ->; apply Hqr; left). by rewrite insert_insert_eq.
  - unfold l'. rewrite !total_app. cbn. lia.
Qed.

(** The failed allocation gives everything back. *)
Lemma pool_chain_free h p room l n s :
  pool_chain h p room l n → bufs s = store_nodes l h →
  ∃ k, pbuf_free custom_free_function (Some p) s = Ok (k, with_bufs h s).
Proof.
  intros [Hc Hn Hf Hcn _ _ _ Hr] Hs. assert (linked (bufs s) (Some p) l) as Hl by (rewrite Hs; by apply store_nodes_linked).
  pose proof (linked_length _ _ _ Hl). pose proof (linked_hd _ _ _ Hl) as Hh.
  assert (Forall counted l.*2) as Hco by (eapply Forall_impl; [|exact Hcn]; intros b [E ?]; split; [done|]; rewrite E; lia).
  exists (u8 (0 + freed l)). unfold pbuf_free, LWIP_ASSERT. rewrite bool_decide_true by done.
  do 2 erewrite bind_of_ok by done. rewrite Hh in Hl |- *. rewrite free_loop_ok by (done || lia).
  rewrite Hs, released_fresh; [done|done|done|]. eapply Forall_impl; [|exact Hcn]. by intros b [? _].
Qed.

Lemma pool_loop_ok h p room fuel : malloc_fresh → ∀ s l r br n,
  pool_chain h p room (l ++ [(r, br)]) n → bufs s = store_nodes (l ++ [(r, br)]) h →
  0 ≤ n < 65535 → (Z.to_nat n ≤ fuel)%nat →
  (∃ l', pool_loop malloc custom_free_function fuel p r n s = Ok (true, with_bufs (store_nodes l' h) s) ∧
    pool_chain h p room l' 0 ∧ total l' = total (l ++ [(r, br)]) + n) ∨
  (pool_loop malloc custom_free_function fuel p r n s = Ok (false, mk_store h true) ∧ ∃ m g, malloc m g = None).
Proof.
  intros Hm. induction fuel as [|fuel IH]; intros s l r br n Hp Hs Hn Hf; cbn [pool_loop].
  all: destruct (Z.gtb_spec n 0); [|left; exists (l ++ [(r, br)]); rewrite <- Hs, with_bufs_id;
    replace n with 0 in * by lia; rewrite Z.add_0_r; done].
  { lia. }
  unfold memp_malloc. destruct (malloc PBUF_POOL_BUFSIZE_ALIGNED (bufs s)) as [bl|] eqn:Em.
  - erewrite bind_of_ok by (unfold gets; by rewrite Em). cbv beta iota zeta. destruct (Hm _ _ _ pool_size_nonneg Em) as [Hq Hlen].
    unfold LWIP_ASSERT. destruct (Z.ltb_spec n 0xffff); [|lia]. erewrite bind_of_ok by done.
    rewrite u16_small by lia. set (len := Z.min n PBUF_POOL_BUFSIZE_ALIGNED).
    assert (0 < PBUF_POOL_BUFSIZE_ALIGNED) as Hsz by done.
    rewrite Hs in Hq. destruct (pool_chain_next h p room l r br n len bl Hp Hq Hlen ltac:(lia) ltac:(lia)) as (Hp' & Est & Et).
    set (q := bl_addr bl) in *. set (nb := new_pbuf bl 0 n len PBUF_POOL 0) in *.
    erewrite bind_of_ok by done. destruct (store_nodes_None _ _ _ (pc_NoDup _ _ _ _ _ Hp) Hq) as [Hqo _].
    assert (bufs (with_bufs (<[q := nb]> (bufs s)) s) !! r = Some br) as Hr.
    { cbn [bufs with_bufs]. rewrite Hs, store_nodes_app. cbn [store_nodes]. rewrite lookup_insert_ne, lookup_insert_eq; [done|].
      intros ->. apply Hqo. rewrite fmap_app. apply elem_of_app. right. left. }
    load Hr. erewrite bind_of_ok by done.
    destruct (IH (with_bufs (store_nodes ((l ++ [(r, set_next (Some q) br)]) ++ [(q, nb)]) h) s)
      (l ++ [(r, set_next (Some q) br)]) q nb (n - len) Hp' eq_refl ltac:(lia) ltac:(lia)) as [(l' & E & Hpc & Et')|[E Hnone]].
    + left. exists l'. split_and!; [|done|rewrite Et', Et; lia]. rewrite <- Est, <- Hs in E. exact E.
    + right. rewrite <- Est, <- Hs in E. by split.
  - right. erewrite bind_of_ok by (unfold gets; by rewrite Em). cbv beta iota.
    unfold pbuf_pool_is_empty. erewrite bind_of_ok by done.
    destruct (pool_chain_free h p room (l ++ [(r, br)]) n (mk_store (bufs s) true) Hp Hs) as [k Ek].
    erewrite bind_of_ok by exact Ek. split; [done|by eexists _, _].
Qed.

Lemma align_0_range layer : 0 ≤ LWIP_MEM_ALIGN_SIZE (layer_offset layer) ≤ 76.
Proof. destruct layer; vm_compute; split; discriminate. Qed.

Lemma align_le n : 0 ≤ n → n ≤ LWIP_MEM_ALIGN_SIZE n.
Proof.
  intros Hn. unfold LWIP_MEM_ALIGN_SIZE. change (Z.lnot (4 - 1)) with (Z.lnot (Z.ones 2)).
  rewrite <- Z.ldiff_land, Z.ldiff_ones_r by lia. rewrite Z.shiftr_div_pow2, Z.shiftl_mul_pow2 by lia.
  change (2 ^ 2) with 4. pose proof (Z.div_mod (n + 4 - 1) 4 ltac:(lia)). pose proof (Z.mod_pos_bound (n + 4 - 1) 4 ltac:(lia)). lia.
Qed.

Lemma pool_chain_packet h p room l ext :
  pool_chain h p room l 0 → total l < 65536 → refs_ok h ext →
  packet (store_nodes l h) (Some p) l ∧ refs_ok (store_nodes l h) (p :: ext).
Proof.
  intros [Hc Hn Hf Hcn Hb Ht _ Hr] Hm H. split.
  - split; [by apply store_nodes_linked|done|by apply tot_upto_0|done].
  - change (p :: ext) with (with_link (Some p) ext). by apply refs_fresh.
Qed.

(** The end of [pbuf_alloc]. *)
Lemma alloc_finish h p room l s :
  pool_chain h p room l 0 →
  ∃ l', (b ← get_pbuf p; put_pbuf p (set_flags 0 (set_ref 1 b));; mret (Some p)) (with_bufs (store_nodes l h) s) =
      Ok (Some p, with_bufs (store_nodes l' h) s) ∧ pool_chain h p room l' 0 ∧ total l' = total l ∧ l'.*1 = l.*1.
Proof.
  intros [Hc Hn Hf Hcn Hb Ht Hfu Hr]. destruct l as [|[a b] l]; [done|]. destruct Hc as [[= <-] Hc].
  pose proof (store_nodes_in _ h Hn) as Hst. apply Forall_cons_iff in Hst as [Hp _]. cbn [fst snd] in Hp.
  change (bufs (with_bufs (store_nodes ((p, b) :: l) h) s) !! p = Some b) in Hp. load Hp.
  exists ((p, set_flags 0 (set_ref 1 b)) :: l). split_and!; [|split; [by split|exact Hn|exact Hf| |by apply bufs_cons in Hb as [? ?]; constructor|exact Ht| |exact Hr]|done|done].
  - erewrite bind_of_ok by done. unfold with_bufs. cbn [bufs pbuf_free_ooseq_pending mret M_ret]. do 3 f_equal. cbn [store_nodes].
    cbn in Hn. apply list.NoDup_cons in Hn as [Hout _]. rewrite !store_nodes_insert by done. by rewrite insert_insert_eq.
  - cbn in Hcn |- *. apply Forall_cons_iff in Hcn as [_ Hcn]. by repeat constructor.
  - intros Hpos. destruct (proj1 (Forall_cons_iff _ _ _) (Hfu Hpos)) as [? ?]. by constructor.
Qed.

(** A block that becomes the only buffer so far. *)
Lemma pool_chain_first h bl off n len type flags :
  h !! bl_addr bl = None → Z.land flags PBUF_FLAG_IS_CUSTOM = 0 → 0 ≤ off → 0 ≤ len → off + len ≤ zlen (bl_mem bl) →
  (0 < n → 0 < len) → pool_chain h (bl_addr bl) off [(bl_addr bl, new_pbuf bl off n len type flags)] (n - len).
Proof.
  intros Hf Hfl Ho Hl Hm Hpos. split; cbn.
  - done.
  - apply list.NoDup_singleton.
  - by constructor.
  - by repeat constructor.
  - constructor; [|done]. unfold buf_ok, new_pbuf. cbn [pb_len pb_payload]. len_lia.
  - split; [lia|done].
  - intros Hz. constructor; [|done]. apply Hpos. lia.
  - f_equal. len_lia.
Qed.

Lemma alloc_pool_ok s off length :
  malloc_fresh → malloc_clean → 0 ≤ off ≤ 76 → 0 ≤ length < 65536 →
  (∃ p l, alloc_pool malloc custom_free_function off length s = Ok (Some p, with_bufs (store_nodes l (bufs s)) s) ∧
    pool_chain (bufs s) p off l 0 ∧ total l = length) ∨
  (alloc_pool malloc custom_free_function off length s = Ok (None, mk_store (bufs s) true) ∧ ∃ n h, malloc n h = None).
Proof.
  intros Hm Hcl Ho Hlen. unfold alloc_pool, memp_malloc.
  destruct (malloc PBUF_POOL_BUFSIZE_ALIGNED (bufs s)) as [bl|] eqn:Em;
    (erewrite bind_of_ok by (unfold gets; by rewrite Em)); cbv beta iota zeta; [|right; split; [done|by eexists _, _]].
  destruct (Hm _ _ _ pool_size_nonneg Em) as [Hf Hsz]. assert (PBUF_POOL_BUFSIZE_ALIGNED = 568) as Hps by done.
  set (len := Z.min length (PBUF_POOL_BUFSIZE_ALIGNED - off)). unfold LWIP_ASSERT.
  destruct (Z.leb_spec (off + len) PBUF_POOL_BUFSIZE_ALIGNED); [|lia].
  destruct (Z.ltb_spec 0 (PBUF_POOL_BUFSIZE_ALIGNED - off)); [|lia]. do 3 erewrite bind_of_ok by done.
  pose proof (pool_chain_first (bufs s) bl off length len PBUF_POOL (bl_flags bl) Hf (Hcl _ _ _ Em)
    ltac:(lia) ltac:(lia) ltac:(lia) ltac:(lia)) as Hpc.
  destruct (pool_loop_ok (bufs s) (bl_addr bl) off (Z.to_nat length) Hm
    (with_bufs (<[bl_addr bl := new_pbuf bl off length len PBUF_POOL (bl_flags bl)]> (bufs s)) s) [] _ _ _ Hpc eq_refl
    ltac:(lia) ltac:(lia)) as [(l' & E & Hpc' & Ht)|[E Hnone]].
  - left. exists (bl_addr bl), l'. split_and!; [|done|cbn in Ht; lia]. by erewrite bind_of_ok by exact E.
  - right. split; [|done]. by erewrite bind_of_ok by exact E.
Qed.

Lemma alloc_ram_ok s off length :
  malloc_fresh → malloc_clean → 0 ≤ off → 0 ≤ length →
  (∃ p l, alloc_ram malloc off length s = Ok (Some p, with_bufs (store_nodes l (bufs s)) s) ∧
    pool_chain (bufs s) p off l 0 ∧ total l = length ∧ l.*1 = [p]) ∨
  (alloc_ram malloc off length s = Ok (None, s) ∧ ∃ n h, malloc n h = None).
Proof.
  intros Hm Hcl Ho Hlen. unfold alloc_ram, memp_malloc. pose proof (align_le length Hlen).
  destruct (malloc (off + LWIP_MEM_ALIGN_SIZE length) (bufs s)) as [bl|] eqn:Em;
    (erewrite bind_of_ok by (unfold gets; by rewrite Em)); cbv beta iota zeta; [|right; split; [done|by eexists _, _]].
  destruct (Hm (off + LWIP_MEM_ALIGN_SIZE length) _ _ ltac:(lia) Em) as [Hf Hsz]. left.
  exists (bl_addr bl), [(bl_addr bl, new_pbuf bl off length length PBUF_RAM (bl_flags bl))]. split_and!; [done| |cbn; lia|done].
  replace 0 with (length - length) by lia. apply pool_chain_first; [done|by eapply Hcl|lia..|done].
Qed.

(** [pbuf_alloc] from the pool or in one piece: unless a pool refuses, the
    result is a packet of the length asked for, of new buffers with one owner,
    whose head has the room for the headers of its layer; if a pool refuses,
    the buffers are as before.  This needs what [pbuf_alloc] relies on: that
    the flags it has not yet set have not the bit of custom buffers. *)
Lemma pbuf_alloc_spec s ext layer length type :
  malloc_fresh → malloc_clean → refs_ok (bufs s) ext → 0 ≤ length < 65536 → type = PBUF_POOL ∨ type = PBUF_RAM →
  (∃ p l b, let h' := store_nodes l (bufs s) in
    pbuf_alloc malloc custom_free_function layer length type s = Ok (Some p, with_bufs h' s) ∧
    refs_ok h' (p :: ext) ∧ packet h' (Some p) l ∧ total l = length ∧
    Forall (λ a, bufs s !! a = None) l.*1 ∧ (type = PBUF_RAM → l.*1 = [p]) ∧ (0 < length → full l) ∧
    h' !! p = Some b ∧ zlen (pb_room b) = LWIP_MEM_ALIGN_SIZE (layer_offset layer)) ∨
  (∃ pending, pbuf_alloc malloc custom_free_function layer length type s = Ok (None, mk_store (bufs s) pending) ∧
    ∃ n h, malloc n h = None).
Proof.
  intros Hm Hcl H Hlen Hty. pose proof (align_0_range layer). set (off := LWIP_MEM_ALIGN_SIZE (layer_offset layer)) in *.
  assert (∀ p l, pool_chain (bufs s) p off l 0 → total l = length → (type = PBUF_RAM → l.*1 = [p]) → ∃ l' b, let h' := store_nodes l' (bufs s) in
    (b ← get_pbuf p; put_pbuf p (set_flags 0 (set_ref 1 b));; mret (Some p)) (with_bufs (store_nodes l (bufs s)) s) =
      Ok (Some p, with_bufs h' s) ∧
    refs_ok h' (p :: ext) ∧ packet h' (Some p) l' ∧ total l' = length ∧
    Forall (λ a, bufs s !! a = None) l'.*1 ∧ (type = PBUF_RAM → l'.*1 = [p]) ∧ (0 < length → full l') ∧
    h' !! p = Some b ∧ zlen (pb_room b) = off) as Hfin.
  { intros p l Hpc Ht Hone. destruct (alloc_finish (bufs s) p off l s Hpc) as (l' & E & Hpc' & Ht' & El').
    destruct (pool_chain_packet _ _ _ l' ext Hpc' ltac:(lia) H) as [Hp Hr].
    destruct (packet_head _ _ _ p Hp eq_refl) as (b & k & -> & Hb & _).
    exists ((p, b) :: k), b. split_and!; [done|done|done|lia|by eapply pc_fresh|by rewrite El'| |done|].
    { intros Hpos. apply (pc_full _ _ _ _ _ Hpc'). lia. }
    pose proof (pc_room _ _ _ _ _ Hpc') as E'. by injection E'. }
  unfold pbuf_alloc. fold off. destruct Hty as [-> | ->].
  - destruct (alloc_pool_ok s off length) as [(p & l & E & Hpc & Ht)|[E Hnone]]; [done|done|lia|lia| |].
    + left. destruct (Hfin p l Hpc Ht ltac:(done)) as (l' & b & Ef & Hrest). exists p, l', b. split; [|exact Hrest].
      rewrite <- Ef. by erewrite bind_of_ok by exact E.
    + right. exists true. split; [|done]. by erewrite bind_of_ok by exact E.
  - destruct (alloc_ram_ok s off length) as [(p & l & E & Hpc & Ht & Hone)|[E Hnone]]; [done|done|lia|lia| |].
    + left. destruct (Hfin p l Hpc Ht ltac:(done)) as (l' & b & Ef & Hrest). exists p, l', b. split; [|exact Hrest].
      rewrite <- Ef. by erewrite bind_of_ok by exact E.
    + right. exists (pbuf_free_ooseq_pending s). split; [|done]. erewrite bind_of_ok by exact E. by destruct s.
Qed.

End life.

(** * A pool for examples *)

(** A pool without end: the next address, bytes that are zero. *)
Definition next_addr (h : heap) : positive := Pos.succ (map_fold (λ k _ m, Pos.max k m) 1%positive h).
Definition bump (n : Z) (h : heap) : option block := Some (mk_block (next_addr h) (replicate (Z.to_nat n) 0) 0).

Lemma next_addr_above (h : heap) k : is_Some (h !! k) → (k < next_addr h)%positive.
Proof.
  unfold next_addr. rewrite Pos.lt_succ_r. revert k.
  apply (map_fold_weak_ind (λ r (m : heap), ∀ k, is_Some (m !! k) → (k ≤ r)%positive)).
  - intros k [? Hk]. by rewrite lookup_empty in Hk.
  - intros i b m r _ IH k Hk. destruct (decide (k = i)) as [->|]; [lia|].
    rewrite lookup_insert_ne in Hk by done. specialize (IH k Hk). lia.
Qed.

Lemma bump_fresh : malloc_fresh bump.
Proof.
  intros n h bl Hn [= <-]. cbn. split.
  - destruct (h !! next_addr h) eqn:E; [|done]. pose proof (next_addr_above h (next_addr h) ltac:(by eexists)). lia.
  - len_lia.
Qed.

Lemma bump_clean : malloc_clean bump.
Proof. intros n h bl [= <-]. done. Qed.

(** * A tail of 256 buffers *)

(** [n] buffers of one byte, each with one reference. *)
Fixpoint ones (n : nat) (a : positive) : list node :=
  match n with
  | O => []
  | S n => (a, mk_pbuf (match n with O => None | S _ => Some (Pos.succ a) end) [] [0] (Z.of_nat n + 1) 1 PBUF_POOL 0 1)
             :: ones n (Pos.succ a)
  end.

Lemma ones_chained n a : chained (match n with O => None | S _ => Some a end) (ones n a).
Proof. revert a. induction n as [|n IH]; intros a; [done|]. split; [done|]. apply IH. Qed.

Lemma ones_counts n a : Forall (λ b, pb_ref b = 1 ∧ plain b) (ones n a).*2.
Proof. revert a. induction n as [|n IH]; intros a; [constructor|]. cbn. constructor; [done|]. apply IH. Qed.

Definition long_store : store := mk_store (store_nodes (ones 257 1) ∅) false.

Lemma long_refs : refs_ok (bufs long_store) [1%positive].
Proof.
  change [1%positive] with (with_link (Some 1%positive) []). apply refs_fresh.
  - apply refs_empty.
  - apply (ones_chained 257).
  - apply (bool_decide_unpack _). vm_compute. exact I.
  - apply (bool_decide_unpack _). vm_compute. exact I.
  - apply ones_counts.
Qed.

(** [pbuf_dechain] returns the address of a buffer it has just freed when
    the tail it lets go of has 256 buffers: [pbuf_free] counts modulo 256, and
    [pbuf_dechain] takes 0 for "still there". *)
Theorem pbuf_dechain_dangling custom_free_function :
  refs_ok (bufs long_store) [1%positive] ∧
  ∃ s', pbuf_dechain custom_free_function 1 long_store = Ok (Some 2%positive, s') ∧
    bufs s' !! 2%positive = None ∧ size (bufs s') = 1%nat.
Proof. split; [exact long_refs|]. eexists. split; [vm_compute; reflexivity|]. split; vm_compute; reflexivity. Qed.

(** * An allocation that fails *)

(** One block, with the bit of custom buffers in the place of the flags. *)
Definition one_block (n : Z) (h : heap) : option block :=
  if bool_decide (h = ∅) then Some (mk_block 1 (replicate (Z.to_nat n) 0) PBUF_FLAG_IS_CUSTOM) else None.

(** [pbuf_alloc] sets the flags of the first buffer only at its end; when a
    later buffer of the chain is refused, [pbuf_free] reads what was in the
    memory and may call a function of a custom buffer that there is not. *)
Lemma pbuf_alloc_reads_unset_flags :
  malloc_fresh one_block ∧
  pbuf_alloc one_block (λ _, fail InvalidFree) PBUF_RAW 1000 PBUF_POOL (mk_store ∅ false) = Fail InvalidFree.
Proof.
  split; [|vm_compute; reflexivity]. intros n h bl Hn. unfold one_block.
  destruct (bool_decide_reflect (h = ∅)) as [->|]; [|done]. intros [= <-]. cbn. split; [done|len_lia].
Qed.
