(* ===== verification/LwipPbufCopy.v ===== *)
(** Copying one packet into another, [pbuf_copy] and [pbuf_coalesce] of
    [lwip/src/core/pbuf.c]: the loop walks both chains at once, whose buffers
    have different lengths. *)
From stdpp Require Import gmap.
From S2P Require Import Prelude.
From S2P Require Import LwipPbuf.
From S2P Require Import LwipPbufWrite.
From S2P Require Import LwipPbufRefs.
From S2P Require Import LwipPbufLife.

(** * Buffers that differ in their bytes *)

Definition same_buf (x y : pbuf) : Prop :=
  y = set_payload (pb_room x) (pb_payload y) x ∧ length (pb_payload y) = length (pb_payload x).

Lemma same_refl x : same_buf x x.
Proof. split; [by destruct x|done]. Qed.
Lemma same_trans x y z : same_buf x y → same_buf y z → same_buf x z.
Proof.
  intros [Ey ?] [Ez ?]. split; [|lia]. rewrite Ez. rewrite Ey. cbn. by destruct z.
Qed.
Lemma same_fields x y : same_buf x y → pb_next y = pb_next x ∧ pb_len y = pb_len x ∧ pb_tot_len y = pb_tot_len x ∧ shape y = shape x.
Proof. intros [-> _]. done. Qed.
Lemma same_ok x y : same_buf x y → buf_ok x → buf_ok y.
Proof. intros [E El] [? ?]. unfold buf_ok, zlen in *. rewrite E. cbn. lia. Qed.

Definition same_node (x y : node) : Prop := y.1 = x.1 ∧ same_buf x.2 y.2.

Lemma same_nodes l l' :
  Forall2 same_node l l' →
  l'.*1 = l.*1 ∧ total l' = total l ∧ (Forall buf_ok l.*2 → Forall buf_ok l'.*2) ∧ (tot_ok l → tot_ok l').
Proof.
  induction 1 as [|[a b] [a' b'] l l' [Ha Hb] _ (IH1 & IH2 & IH3 & IH4)]; [done|]. cbn in Ha, Hb.
  destruct (same_fields _ _ Hb) as (_ & El & Et & _). cbn. split_and!; [congruence|lia| |].
  - intros [? ?]%Forall_cons_iff. constructor; [by eapply same_ok|by apply IH3].
  - intros [? ?]. split; [lia|by apply IH4].
Qed.

Lemma same_refl_nodes l : Forall2 same_node l l.
Proof. induction l as [|[a b] l IH]; constructor; [split; [done|apply same_refl]|done]. Qed.

Lemma filled_same_nodes l d : Forall buf_ok l.*2 → Forall2 same_node l (filled l d).
Proof.
  revert d. induction l as [|[a b] l IH]; intros d; [by constructor|]. intros [[? ?] Hb]%bufs_cons. cbn.
  constructor; [|by apply IH]. split; [done|]. split; [done|]. cbn. len_lia.
Qed.

(** * The loop *)

Lemma overwrite_twice c o a b :
  (o + length a + length b ≤ length c)%nat → overwrite (overwrite c o a) (o + length a) b = overwrite c o (a ++ b).
Proof.
  intros. unfold overwrite. rewrite length_app.
  rewrite (app_assoc (take o c) a), take_app_le by len_lia.
  rewrite (take_ge (take o c ++ a)) by len_lia.
  rewrite drop_app_ge by len_lia. rewrite drop_drop, <- !app_assoc. do 4 f_equal. len_lia.
Qed.

Lemma new_bytes_same bt o bs :
  0 ≤ o → o + zlen bs ≤ zlen (pb_payload bt) → same_buf bt (new_bytes bt o bs).
Proof. intros. split; [done|]. cbn. rewrite overwrite_length; unfold zlen in *; lia. Qed.

Lemma copy_step_ok s t bt f bf o i :
  bufs s !! t = Some bt → bufs s !! f = Some bf → buf_ok bt → buf_ok bf →
  0 ≤ o ≤ pb_len bt → 0 ≤ i ≤ pb_len bf → pb_len bt < 65536 → pb_len bf < 65536 →
  let n := Z.min (pb_len bf - i) (pb_len bt - o) in
  (pb_next bt = None → o + n = pb_len bt → i + n = pb_len bf ∧ pb_next bf = None) →
  copy_step (Some t) (Some f) o i s =
  Ok (if o + n =? pb_len bt then pb_next bt else Some t, if i + n =? pb_len bf then pb_next bf else Some f,
      if o + n =? pb_len bt then 0 else o + n, if i + n =? pb_len bf then 0 else i + n,
      with_bufs (<[t := new_bytes bt o (slice (data bf) i n)]> (bufs s)) s).
Proof.
  intros Ht Hf Hbt Hbf Hot Hof Hmt Hmf n Hend. pose proof Hbt as [? ?]. pose proof Hbf as [? ?].
  unfold copy_step, deref. erewrite bind_of_ok by done. load Ht. erewrite bind_of_ok by done. load Hf. cbv zeta.
  set (len := if pb_len bt - o >=? pb_len bf - i then u16 (pb_len bf - i) else u16 (pb_len bt - o)).
  assert (len = n) as -> by (unfold len, n; destruct (Z.geb_spec (pb_len bt - o) (pb_len bf - i)); rewrite u16_small; lia).
  assert (0 ≤ n ∧ i + n ≤ pb_len bf ∧ o + n ≤ pb_len bt) as (Hn & Hnf & Hnt) by (unfold n; lia). clearbody n.
  rewrite (lift_bind _ _ _ _ (read_data bf i n Hbf ltac:(lia) ltac:(lia) ltac:(lia))).
  fold (slice (data bf) i n). set (bs := slice (data bf) i n). pose proof (data_length bf Hbf) as Hd.
  assert (zlen bs = n) as Hbs by (apply slice_length; lia).
  rewrite (lift_bind _ _ _ _ (mem_write_ok (pb_payload bt) o bs ltac:(lia) ltac:(lia))).
  fold (overwrite (pb_payload bt) (Z.to_nat o) bs). fold (new_bytes bt o bs). erewrite bind_of_ok by done.
  rewrite !u16_small by lia. unfold LWIP_ERROR, LWIP_ASSERT.
  destruct (Z.leb_spec (o + n) (pb_len bt)); [|lia]. destruct (Z.leb_spec (i + n) (pb_len bf)); [|lia].
  do 2 erewrite bind_of_ok by done.
  assert ((if i + n >=? pb_len bf then (pb_next bf, 0) else (Some f, i + n)) =
    (if i + n =? pb_len bf then pb_next bf else Some f, if i + n =? pb_len bf then 0 else i + n)) as ->.
  { destruct (Z.geb_spec (i + n) (pb_len bf)), (Z.eqb_spec (i + n) (pb_len bf)); (done || lia). }
  destruct (Z.eqb_spec (o + n) (pb_len bt)) as [Et|]; [|done].
  assert (bool_decide (is_Some (pb_next bt)) ||
    negb (bool_decide (is_Some (if i + n =? pb_len bf then pb_next bf else Some f))) = true) as ->; [|done].
  destruct (pb_next bt) as [t'|] eqn:Ent; [done|]. destruct (Hend eq_refl Et) as [-> Enf].
  by rewrite Z.eqb_refl, Enf.
Qed.

(** A place in a packet without empty buffers, where a loop stands. *)
Record cursor (h : heap) (l : list node) (o : Z) : Prop := {
  cu_linked : linked h (hd_addr l) l;
  cu_bufs : Forall buf_ok l.*2;
  cu_tot : tot_ok l;
  cu_full : Forall (λ b, 0 < pb_len b) l.*2;
  cu_max : total l < 65536;
  cu_low : 0 ≤ o;
  cu_high : match l with [] => o = 0 | x :: _ => o < pb_len x.2 end }.

Lemma cursor_head h a b l o :
  cursor h ((a, b) :: l) o → h !! a = Some b ∧ buf_ok b ∧ 0 ≤ o < pb_len b ∧ pb_len b + total l < 65536 ∧
    pb_next b = hd_addr l ∧ (a ∉ l.*1) ∧ 0 ≤ total l.
Proof.
  intros [Hl Hb Ht Hf Hm Hlo Hhi]. pose proof (linked_NoDup _ _ _ Hl) as Hn. cbn in Hn.
  apply list.NoDup_cons in Hn as [? _]. destruct Hl as (_ & ? & Hl). apply bufs_cons in Hb as [? Hb].
  pose proof (total_nonneg _ Hb). pose proof (linked_hd _ _ _ Hl). done.
Qed.

Lemma cursor_end h l o : cursor h l o → total l - o ≤ 0 → l = [].
Proof.
  intros Hc Hz. destruct l as [|[a b] l]; [done|]. destruct (cursor_head _ _ _ _ _ Hc) as (_ & _ & ? & _ & _ & _ & ?).
  cbn in Hz. lia.
Qed.

Lemma cursor_other h l o a b : cursor h l o → a ∉ l.*1 → cursor (<[a := b]> h) l o.
Proof. intros [? ? ? ? ? ? ?] ?. split; [by apply linked_insert_out|done..]. Qed.

Lemma cursor_next h a b l o n :
  cursor h ((a, b) :: l) o → 0 < n → o + n ≤ pb_len b →
  let l1 := if o + n =? pb_len b then l else (a, b) :: l in
  let o1 := if o + n =? pb_len b then 0 else o + n in
  cursor h l1 o1 ∧ total l1 - o1 = pb_len b + total l - o - n ∧
  (if o + n =? pb_len b then pb_next b else Some a) = hd_addr l1.
Proof.
  intros Hc Hn Ho. destruct (cursor_head _ _ _ _ _ Hc) as (_ & _ & ? & ? & Hh & _ & ?).
  destruct Hc as [Hl Hb Ht Hf Hm Hlo Hhi]. destruct (Z.eqb_spec (o + n) (pb_len b)); cbv zeta.
  - split_and!; [|lia|done]. destruct Hl as (_ & _ & Hl). rewrite Hh in Hl. apply bufs_cons in Hb as [_ Hb].
    destruct Ht as [_ Ht]. apply Forall_cons_iff in Hf as [_ Hf]. split; [done..|lia|lia|].
    destruct l as [|[c d] l]; [done|]. by apply Forall_cons_iff in Hf as [? _].
  - split_and!; [|cbn [total]; lia|done]. split; [done..|lia|cbn in *; lia].
Qed.

Lemma cursor_written h t bt l o o' bs :
  cursor h ((t, bt) :: l) o → 0 ≤ o' → o' + zlen bs ≤ pb_len bt →
  cursor (<[t := new_bytes bt o' bs]> h) ((t, new_bytes bt o' bs) :: l) o.
Proof.
  intros Hc Ho Hbs. destruct (cursor_head _ _ _ _ _ Hc) as (_ & Hbt & _ & _ & _ & Hout & _). pose proof Hbt as [_ ?].
  pose proof (new_bytes_same bt o' bs Ho ltac:(lia)) as Hs. destruct Hc as [Hl Hb Ht Hf Hm Hlo Hhi].
  apply bufs_cons in Hb as [_ Hb]. apply Forall_cons_iff in Hf as [? Hf]. destruct Ht as [? ?], Hl as (_ & _ & Hl). split.
  - split_and!; [done|by rewrite lookup_insert_eq|by apply linked_insert_out].
  - constructor; [|done]. by eapply same_ok.
  - by split.
  - by constructor.
  - done.
  - done.
  - done.
Qed.

Lemma no_queue_ok s l o : cursor (bufs s) l o → no_queue (hd_addr l) s = Ok ((), s).
Proof.
  intros Hc. destruct l as [|[a b] l]; [done|]. destruct (cursor_head _ _ _ _ _ Hc) as (Ha & _ & _ & _ & Hh & _ & _).
  destruct Hc as [_ Hb [Ht _] Hf _ _ _]. cbn [no_queue hd_addr head fmap option_fmap option_map fst]. load Ha.
  destruct (Z.eqb_spec (pb_len b) (pb_tot_len b)); [|done]. unfold LWIP_ERROR, LWIP_ASSERT. rewrite Hh.
  destruct l as [|[c d] l]; [done|]. apply bufs_cons in Hb as [_ [_ Hb]%bufs_cons].
  apply Forall_cons_iff in Hf as [_ [Hd _]%Forall_cons_iff]. pose proof (total_nonneg _ Hb). cbn [total snd] in *. lia.
Qed.

(** What a step leaves of the source. *)
Lemma source_rest f bf lf i n :
  buf_ok bf → 0 ≤ i → 0 ≤ n → i + n ≤ pb_len bf →
  let l1 := if i + n =? pb_len bf then lf else (f, bf) :: lf in
  let i1 := if i + n =? pb_len bf then 0 else i + n in
  drop (Z.to_nat i) (content ((f, bf) :: lf)) = slice (data bf) i n ++ drop (Z.to_nat i1) (content l1).
Proof.
  intros Hb Hi Hn Hin l1 i1. pose proof (data_length bf Hb) as Hd. unfold zlen in Hd. unfold slice, l1, i1. cbn [content].
  rewrite drop_app_le by lia. destruct (Z.eqb_spec (i + n) (pb_len bf)).
  - change (Z.to_nat 0) with 0%nat. rewrite drop_0. f_equal. rewrite take_ge; [done|]. rewrite length_drop. lia.
  - cbn [content]. rewrite <- (take_drop (Z.to_nat n) (drop (Z.to_nat i) (data bf))) at 1. rewrite <- app_assoc. f_equal.
    rewrite drop_drop, drop_app_le by lia. do 2 f_equal. lia.
Qed.

(** What it makes of the destination, with the bytes [R] that the rest of the
    loop writes. *)
Lemma dest_rest t bt lt o bs R l2 :
  buf_ok bt → Forall buf_ok lt.*2 → 0 ≤ o → o + zlen bs ≤ pb_len bt → o + zlen bs + zlen R ≤ pb_len bt + total lt →
  let bt1 := new_bytes bt o bs in
  let e := o + zlen bs =? pb_len bt in
  (if e then content l2 = overwrite (content lt) 0 R
   else content l2 = overwrite (content ((t, bt1) :: lt)) (Z.to_nat (o + zlen bs)) R) →
  content (if e then (t, bt1) :: l2 else l2) = overwrite (content ((t, bt) :: lt)) (Z.to_nat o) (bs ++ R).
Proof.
  intros Hb Hbs Ho Hob Hr bt1 e. pose proof (data_length bt Hb) as Hd. pose proof (content_length _ Hbs) as Hc.
  pose proof (new_bytes_data bt o bs Hb Ho Hob) as Hnd. unfold e. unfold zlen in *.
  destruct (Z.eqb_spec (o + Z.of_nat (length bs)) (pb_len bt)) as [E|]; intros E2; cbn [content].
  - fold bt1 in Hnd. rewrite Hnd, E2. rewrite overwrite_split by lia. f_equal.
  - rewrite E2. cbn [content]. fold bt1 in Hnd. rewrite Hnd.
    assert (overwrite (data bt) (Z.to_nat o) bs ++ content lt = overwrite (data bt ++ content lt) (Z.to_nat o) bs) as ->.
    { pose proof (overwrite_split (data bt) (content lt) (Z.to_nat o) bs []) as Es. rewrite app_nil_r in Es.
      rewrite Es by (done || lia). cbn. by rewrite drop_0. }
    replace (Z.to_nat (o + Z.of_nat (length bs))) with (Z.to_nat o + length bs)%nat by lia.
    apply overwrite_twice. rewrite length_app. lia.
Qed.

(** One turn of the loop, from cursors to cursors. *)
Record turned (s : store) (t : positive) (bt bt1 : pbuf) (lt lf : list node) (o i : Z)
    (bs : list Z) (e : bool) (lf1 : list node) (o1 i1 : Z) : Prop := {
  tu_bytes : bt1 = new_bytes bt o bs ∧ 0 ≤ o ∧ o + zlen bs ≤ pb_len bt;
  tu_end : e = (o + zlen bs =? pb_len bt) ∧ o1 = (if e then 0 else o + zlen bs);
  tu_dest : cursor (<[t := bt1]> (bufs s)) (if e then lt else (t, bt1) :: lt) o1;
  tu_source : cursor (<[t := bt1]> (bufs s)) lf1 i1;
  tu_incl : ∀ x, x ∈ lf1.*1 → x ∈ lf.*1;
  tu_content : drop (Z.to_nat i) (content lf) = bs ++ drop (Z.to_nat i1) (content lf1);
  tu_room : total lf1 - i1 ≤ total (if e then lt else (t, bt1) :: lt) - o1;
  tu_less : (length (if e then lt else (t, bt1) :: lt) + length lf1 < S (length lt) + length lf)%nat }.

Lemma copy_turn s t bt lt f bf lf o i :
  cursor (bufs s) ((t, bt) :: lt) o → cursor (bufs s) ((f, bf) :: lf) i →
  (∀ x, x ∈ ((t, bt) :: lt).*1 → x ∈ ((f, bf) :: lf).*1 → False) →
  total ((f, bf) :: lf) - i ≤ total ((t, bt) :: lt) - o →
  ∃ bt1 bs e lf1 o1 i1, turned s t bt bt1 lt ((f, bf) :: lf) o i bs e lf1 o1 i1 ∧
    copy_step (Some t) (Some f) o i s =
    Ok (hd_addr (if e then lt else (t, bt1) :: lt), hd_addr lf1, o1, i1, with_bufs (<[t := bt1]> (bufs s)) s).
Proof.
  intros Hct Hcf Hd Hroom.
  destruct (cursor_head _ _ _ _ _ Hcf) as (Hf & Hbf & Hi & Hmf & Hhf & _ & Htf).
  destruct (cursor_head _ _ _ _ _ Hct) as (Ht & Hbt & Ho & Hmt & Hht & Htout & Htt). cbn [total] in Hroom.
  assert (t ≠ f ∧ (t ∉ lf.*1)) as [Htf1 Htf2] by (split; [intros ->; apply (Hd f); left|intros Hx; apply (Hd t); [left|by right]]).
  pose proof (copy_step_ok s t bt f bf o i Ht Hf Hbt Hbf ltac:(lia) ltac:(lia) ltac:(lia) ltac:(lia)) as Hstep.
  cbv zeta in Hstep. set (n := Z.min (pb_len bf - i) (pb_len bt - o)) in *.
  assert (0 < n ∧ i + n ≤ pb_len bf ∧ o + n ≤ pb_len bt ∧ (i + n = pb_len bf ∨ o + n = pb_len bt)) as (Hn & Hni & Hno & Hadv)
    by (unfold n; lia). clearbody n.
  pose proof (data_length bf Hbf) as Hdl. set (bs := slice (data bf) i n) in *.
  assert (zlen bs = n) as Hbs by (apply slice_length; lia).
  destruct (cursor_next _ _ _ _ _ n Hcf Hn Hni) as (Hcf1 & Hrf & Hhf1).
  set (lf1 := if i + n =? pb_len bf then lf else (f, bf) :: lf) in *.
  set (bt1 := new_bytes bt o bs) in *.
  pose proof (cursor_written _ _ _ _ _ o bs Hct ltac:(lia) ltac:(lia)) as Hct1. fold bt1 in Hct1.
  destruct (cursor_next _ _ _ _ _ n Hct1 Hn Hno) as (Hct2 & Hrt & Hht2).
  change (pb_len bt1) with (pb_len bt) in *. change (pb_next bt1) with (pb_next bt) in *.
  assert (∀ x, x ∈ lf1.*1 → x ∈ ((f, bf) :: lf).*1) as Hincl
    by (unfold lf1; intros x; destruct (i + n =? pb_len bf); [by right|done]).
  rewrite Hhf1, Hht2 in Hstep. exists bt1, bs, (o + n =? pb_len bt), lf1, (if o + n =? pb_len bt then 0 else o + n),
    (if i + n =? pb_len bf then 0 else i + n). split.
  - split; [by rewrite Hbs; split_and!; [|lia|lia]|by rewrite Hbs|done| |done|by apply source_rest; (done || lia)|lia|].
    + apply cursor_other; [done|]. intros Hx%Hincl. by apply (Hd t); [left|].
    + unfold lf1. cbn [length]. destruct Hadv as [-> | ->]; rewrite Z.eqb_refl;
        [destruct (o + n =? pb_len bt)|destruct (i + n =? pb_len bf)]; cbn [length]; lia.
  - apply Hstep. intros Hnone E. rewrite Hht in Hnone. destruct lt; [|done]. cbn [total] in Hroom.
    split; [lia|]. rewrite Hhf. unfold lf1 in *.
    assert (i + n = pb_len bf) as Ei by lia. rewrite Ei, Z.eqb_refl in *. by rewrite (cursor_end _ _ _ Hcf1) by lia.
Qed.

Lemma copy_loop_ok fuel : ∀ s lt lf o i,
  cursor (bufs s) lt o → cursor (bufs s) lf i → (∀ x, x ∈ lt.*1 → x ∈ lf.*1 → False) → lf ≠ [] →
  total lf - i ≤ total lt - o → (length lt + length lf ≤ fuel)%nat →
  ∃ h' lt', copy_loop fuel (hd_addr lt) (hd_addr lf) o i s = Ok ((), with_bufs h' s) ∧
    linked h' (hd_addr lt) lt' ∧ Forall2 same_node lt lt' ∧
    content lt' = overwrite (content lt) (Z.to_nat o) (drop (Z.to_nat i) (content lf)) ∧
    (∀ x, x ∉ lt.*1 → h' !! x = bufs s !! x).
Proof.
  induction fuel as [|fuel IH]; intros s lt lf o i Hct Hcf Hd Hne Hroom Hfuel.
  { destruct lf; [done|]. cbn in Hfuel. lia. }
  destruct lf as [|[f bf] lf]; [done|].
  destruct (cursor_head _ _ _ _ _ Hcf) as (_ & Hbf & Hi & _ & _ & _ & Htf).
  destruct lt as [|[t bt] lt]; [pose proof (cu_low _ _ _ Hct); cbn [total] in *; lia|].
  destruct (cursor_head _ _ _ _ _ Hct) as (Ht & Hbt & Ho & Hmt & Hht & Htout & Htt).
  destruct (copy_turn s t bt lt f bf lf o i Hct Hcf Hd Hroom) as (bt1 & bs & e & lf1 & o1 & i1 & Htu & Hstep).
  destruct Htu as [(Eb1 & Ho0 & Hob) [Ee Eo1] Hct1 Hcf1 Hincl Hsrc Hroom1 Hless].
  set (lt1 := if e then lt else (t, bt1) :: lt) in *. set (s1 := with_bufs (<[t := bt1]> (bufs s)) s) in *.
  assert (∀ x, x ∈ lt1.*1 → x ∈ ((t, bt) :: lt).*1) as Hincl1 by (unfold lt1; intros x; destruct e; [by right|done]).
  assert (∃ h' lt', (match hd_addr lf1 with
      | None => mret () | Some _ => copy_loop fuel (hd_addr lt1) (hd_addr lf1) o1 i1 end) s1 = Ok ((), with_bufs h' s) ∧
    linked h' (hd_addr lt1) lt' ∧ Forall2 same_node lt1 lt' ∧
    content lt' = overwrite (content lt1) (Z.to_nat o1) (drop (Z.to_nat i1) (content lf1)) ∧
    (∀ x, x ∉ lt1.*1 → h' !! x = <[t := bt1]> (bufs s) !! x)) as (h' & lt' & E & Hl & Hs & Hc & Hout).
  { destruct lf1 as [|y lf1'] eqn:E1.
    - exists (<[t := bt1]> (bufs s)), lt1. split_and!; [done|apply Hct1|apply same_refl_nodes| |done].
      cbn [content]. rewrite drop_nil. unfold overwrite. cbn [length app]. by rewrite Nat.add_0_r, take_drop.
    - rewrite <- E1 in *. destruct (IH s1 lt1 lf1 o1 i1 Hct1 Hcf1) as (h' & lt' & E & Hrest);
        [intros x Hx Hx1; by apply (Hd x); [apply Hincl1|apply Hincl]|by rewrite E1|lia|cbn [length] in *; lia|].
      exists h', lt'. split; [|exact Hrest]. rewrite E1 in E |- *. exact E. }
  pose proof (new_bytes_same bt o bs Ho0 ltac:(destruct Hbt; lia)) as Hsb. rewrite <- Eb1 in Hsb.
  destruct (same_fields _ _ Hsb) as (Enx & _ & _ & _).
  exists h', (if e then (t, bt1) :: lt' else lt'). split_and!.
  - cbn [copy_loop]. change (hd_addr ((t, bt) :: lt)) with (Some t). change (hd_addr ((f, bf) :: lf)) with (Some f).
    rewrite (bind_of_ok _ _ _ _ _ Hstep). fold lt1. fold s1. cbv beta iota.
    rewrite (bind_of_ok _ _ _ _ _ (no_queue_ok s1 lf1 i1 Hcf1)), (bind_of_ok _ _ _ _ _ (no_queue_ok s1 lt1 o1 Hct1)).
    exact E.
  - unfold lt1 in *. destruct e; [|exact Hl]. split_and!; [done| |by rewrite Enx, Hht].
    rewrite Hout by done. apply lookup_insert_eq.
  - unfold lt1 in Hs. destruct e; [by constructor|]. inversion Hs as [|? y ? lt'' [Ey Hy] Hs' E1 E2]; subst.
    constructor; [split; [done|by eapply same_trans]|done].
  - pose proof (cu_bufs _ _ _ Hct) as Hbufs. apply bufs_cons in Hbufs as [_ Hbufs].
    pose proof (content_length _ (cu_bufs _ _ _ Hcf)) as Hcl.
    assert (o + zlen bs + zlen (drop (Z.to_nat i1) (content lf1)) ≤ pb_len bt + total lt) as Hfit.
    { apply (f_equal length) in Hsrc. rewrite length_drop, length_app in Hsrc. cbn [total] in *. unfold zlen in *. lia. }
    pose proof (dest_rest t bt lt o bs _ lt' Hbt Hbufs Ho0 Hob Hfit) as Hdr. cbv zeta in Hdr.
    rewrite <- Ee, <- Eb1 in Hdr. rewrite Hsrc. apply Hdr. unfold lt1 in Hc. rewrite Eo1 in Hc. destruct e; exact Hc.
  - intros x Hx. rewrite Hout by (intros Hx1; by apply Hx, Hincl1). apply lookup_insert_ne. intros ->. apply Hx. left.
Qed.

Lemma packet_cursor h a l : packet h (Some a) l → full l → cursor h l 0.
Proof.
  intros [Hl Hb Ht Hm] Hf. pose proof (linked_hd _ _ _ Hl) as Hh. rewrite Hh in Hl. split; [done..|].
  destruct l as [|x l]; [done|]. by apply Forall_cons_iff in Hf as [? _].
Qed.

(** [pbuf_copy] copies the whole of one packet to the front of another one
    that is large enough, whatever the lengths of their buffers, as long as
    none is empty; a target that is too small stops at the assertion. *)
Lemma pbuf_copy_copies s a c lt lf :
  packet (bufs s) (Some a) lt → packet (bufs s) (Some c) lf → full lt → full lf →
  (∀ x, x ∈ lt.*1 → x ∈ lf.*1 → False) →
  (total lt < total lf → pbuf_copy (Some a) (Some c) s = Fail AssertFailure) ∧
  (total lf ≤ total lt →
    ∃ h' lt', pbuf_copy (Some a) (Some c) s = Ok (ERR_OK, with_bufs h' s) ∧
      packet h' (Some a) lt' ∧ content lt' = content lf ++ drop (Z.to_nat (total lf)) (content lt) ∧
      Forall2 same_node lt lt' ∧ (∀ x, x ∉ lt.*1 → h' !! x = bufs s !! x)).
Proof.
  intros Hpt Hpf Hft Hff Hd. destruct (packet_head _ _ _ a Hpt eq_refl) as (bt & kt & Et & Ht & _ & Htt).
  destruct (packet_head _ _ _ c Hpf eq_refl) as (bf & kf & Ef & Hf & _ & Htf).
  unfold pbuf_copy, LWIP_ERROR, LWIP_ASSERT, deref. rewrite !bool_decide_true by done.
  do 2 erewrite bind_of_ok by done. load Ht. do 2 erewrite bind_of_ok by done. load Hf. rewrite Htt, Htf.
  split; intros Hle; (destruct (Z.geb_spec (total lt) (total lf)); [|try lia]); try lia; [done|].
  do 2 erewrite bind_of_ok by done.
  pose proof (linked_hd _ _ _ (pk_linked _ _ _ Hpt)) as Hht. pose proof (linked_hd _ _ _ (pk_linked _ _ _ Hpf)) as Hhf.
  pose proof (linked_length _ _ _ (pk_linked _ _ _ Hpt)). pose proof (linked_length _ _ _ (pk_linked _ _ _ Hpf)).
  rewrite Hht, Hhf. destruct (copy_loop_ok (S (size (bufs s)) + S (size (bufs s))) s lt lf 0 0) as (h' & lt' & E & Hl & Hs & Hc & Hout);
    [by eapply packet_cursor|by eapply packet_cursor|done|by rewrite Ef|lia|lia|].
  exists h', lt'. rewrite (bind_of_ok _ _ _ _ _ E). destruct (same_nodes _ _ Hs) as (_ & Etot & Hb & Hto).
  destruct Hpt as [_ Hbt Htot Hmt]. split_and!; [done| | |done|done].
  - split; [done|by apply Hb|by apply Hto|lia].
  - rewrite Hc. unfold overwrite. change (Z.to_nat 0) with 0%nat. rewrite drop_0, take_0. cbn [app]. do 2 f_equal.
    pose proof (content_length _ (pk_bufs _ _ _ Hpf)). unfold zlen in *. lia.
Qed.

(** * Making one buffer of a chain *)

Lemma refs_perm h ext ext' : ext ≡ₚ ext' → refs_ok h ext → refs_ok h ext'.
Proof.
  intros Hp [Href Hnext Hext Hrank Hplain]. split; [|done| |done|done].
  - intros a b Ha. destruct (Href a b Ha) as [E ?]. split; [|done]. rewrite E. unfold owned.
    by rewrite (proj1 (Permutation_count_occ Pos.eq_dec ext ext') Hp a).
  - intros a Ha. apply Hext. by rewrite Hp.
Qed.

Lemma same_shapes (h h' : heap) p l l' :
  linked h p l → linked h' p l' → Forall2 same_node l l' → (∀ x, x ∉ l.*1 → h' !! x = h !! x) →
  ∀ x, shape <$> h' !! x = shape <$> h !! x.
Proof.
  intros Hl Hl' Hs Hout x. destruct (decide (x ∈ l.*1)) as [Hin|]; [|by rewrite Hout].
  apply list_elem_of_fmap in Hin as ([a b] & -> & Hin). apply list_elem_of_lookup in Hin as [i Hi].
  destruct (Forall2_lookup_l _ _ _ _ _ Hs Hi) as ([a' b'] & Hi' & Ha & Hb). cbn in *. subst a'.
  destruct (same_fields _ _ Hb) as (_ & _ & _ & E).
  rewrite (linked_lookup _ _ _ a b Hl), (linked_lookup _ _ _ a b' Hl') by (apply list_elem_of_lookup; by exists i).
  cbn. by rewrite E.
Qed.

(** A packet in one buffer with the bytes [bs]. *)
Definition one_buffer (h : heap) (q : positive) (bs : list Z) : Prop :=
  ∃ b, packet h (Some q) [(q, b)] ∧ content [(q, b)] = bs.

(** It stays one when other buffers go and reference counts change. *)
Lemma one_buffer_survives (h h' : heap) q l :
  packet h (Some q) l → l.*1 = [q] → (∀ x b', h' !! x = Some b' → ∃ b, h !! x = Some b ∧ b' = set_ref (pb_ref b') b) →
  is_Some (h' !! q) → one_buffer h' q (content l).
Proof.
  intros [Hl Hb Ht Hm] E Hsv [b' Hb']. destruct l as [|[q' b] [|]]; try done. injection E as ->.
  destruct Hl as (_ & Hq & Hn), Ht as [Ht _]. apply bufs_cons in Hb as [Hb _].
  destruct (Hsv _ _ Hb') as (b0 & Hb0 & E'). rewrite Hq in Hb0. injection Hb0 as <-. exists b'. rewrite E'. split; [|done].
  split; [split_and!; [done|by rewrite Hb', <- E'|exact Hn]|by constructor|by split|done].
Qed.

Section coalesce.
Context (malloc : Z → heap → option block) (custom_free_function : positive → PB ()).

(** (C36) [pbuf_coalesce] replaces a chain by a single buffer with the same bytes
    and lets go of the chain; if there is no memory, or the packet is one
    buffer already, it returns the packet as it is. *)
Theorem pbuf_coalesce_one s ext p layer l :
  malloc_fresh malloc → malloc_clean malloc → refs_ok (bufs s) (p :: ext) → packet (bufs s) (Some p) l → full l →
  ∃ q s', pbuf_coalesce malloc custom_free_function p layer s = Ok (q, s') ∧ refs_ok (bufs s') (q :: ext) ∧
    ((q = p ∧ bufs s' = bufs s ∧ (length l = 1%nat ∨ ∃ n h, malloc n h = None)) ∨
     one_buffer (bufs s') q (content l)).
Proof.
  intros Hm Hcl H Hp Hf. destruct (packet_head _ _ _ p Hp eq_refl) as (b & k & El & Hb & Hbok & Ht).
  unfold pbuf_coalesce. load Hb. destruct (bool_decide (pb_next b = None)) eqn:En.
  { apply bool_decide_eq_true in En. exists p, s. split_and!; [done|done|]. left. split_and!; [done|done|]. left.
    pose proof (pk_linked _ _ _ Hp) as Hl. rewrite El in Hl |- *. destruct Hl as (_ & _ & Hl). rewrite En in Hl.
    apply linked_hd in Hl. by destruct k. }
  rewrite Ht. pose proof (total_nonneg _ (pk_bufs _ _ _ Hp)). pose proof (pk_max _ _ _ Hp).
  destruct (pbuf_alloc_spec malloc custom_free_function s (p :: ext) layer (total l) PBUF_RAM Hm Hcl H ltac:(lia) ltac:(by right))
    as [(q & lq & bq & E & Hr & Hpq & Htq & Hfr & Hone & _ & Hbq & _)|(pending & E & Hnone)].
  2:{ exists p, (mk_store (bufs s) pending). erewrite bind_of_ok by exact E. split_and!; [done|done|]. left. auto. }
  erewrite bind_of_ok by exact E. cbv beta iota. set (h1 := store_nodes lq (bufs s)) in *.
  specialize (Hone eq_refl). rewrite Hone in Hfr. apply Forall_cons_iff in Hfr as [Hq _].
  assert (∀ x, x ∈ l.*1 → x ≠ q) as Hlq.
  { intros x Hx ->. apply list_elem_of_fmap in Hx as ([x' bx] & -> & Hx). cbn in Hq.
    rewrite (linked_lookup _ _ _ _ _ (pk_linked _ _ _ Hp) Hx) in Hq. done. }
  assert (packet h1 (Some p) l) as Hp1.
  { eapply packet_ext; [exact Hp|]. intros x Hx. apply store_nodes_out. rewrite Hone.
    intros ->%list_elem_of_singleton. by apply (Hlq q). }
  assert (full lq) as Hfq.
  { destruct lq as [|[q' b'] [|]]; try done. constructor; [|done]. cbn in *. rewrite El in Hf, Htq.
    apply Forall_cons_iff in Hf as [? _]. pose proof (pk_bufs _ _ _ Hp) as Hbs. rewrite El in Hbs.
    apply bufs_cons in Hbs as [_ Hbs]. pose proof (total_nonneg _ Hbs). cbn in *. lia. }
  destruct (pbuf_copy_copies (with_bufs h1 s) q p lq l Hpq Hp1 Hfq Hf) as [_ Hcopy].
  { rewrite Hone. intros x ->%list_elem_of_singleton Hx. by apply (Hlq q). }
  destruct (Hcopy ltac:(lia)) as (h2 & lq2 & Ec & Hp2 & Hc2 & Hs2 & Hout2). erewrite bind_of_ok by exact Ec.
  unfold LWIP_ASSERT. cbn [Z.eqb ERR_OK]. erewrite bind_of_ok by done.
  assert (refs_ok h2 (p :: q :: ext)) as Hr2.
  { eapply refs_perm; [apply Permutation_swap|]. eapply refs_same; [|exact Hr].
    eapply same_shapes; [apply Hpq|apply Hp2|done|done]. }
  destruct (free_ok custom_free_function (with_bufs h2 (with_bufs h1 s)) (q :: ext) p Hr2) as (l3 & Hl3 & Ef & Hr3).
  pose proof (released_survive l3 _ _ Hl3) as Hsv. set (h3 := released l3 _) in *. exists q, (with_bufs h3 s). split_and!; [by erewrite bind_of_ok by exact Ef|done|]. right.
  destruct (same_nodes _ _ Hs2) as (E2 & _).
  assert (content lq2 = content l) as <-.
  { rewrite Hc2, drop_ge; [by rewrite app_nil_r|]. pose proof (content_length _ (pk_bufs _ _ _ Hpq)). unfold zlen in *. lia. }
  eapply one_buffer_survives; [exact Hp2|by rewrite E2|exact Hsv|]. apply (ro_ext _ _ Hr3). left.
Qed.

End coalesce.

(** * Examples *)

Lemma pbuf_coalesce_one_witness :
  ∃ q s', pbuf_coalesce bump (λ _, fail InvalidFree) 1 PBUF_RAW example_store = Ok (q, s') ∧ refs_ok (bufs s') [q] ∧
    one_buffer (bufs s') q [10; 11; 12; 13; 11; 12; 13].
Proof.
  destruct (pbuf_coalesce_one bump (λ _, fail InvalidFree) example_store [] 1 PBUF_RAW example_packet bump_fresh bump_clean
    example_refs example_ok) as (q & s' & E & Hr & Hb).
  - repeat constructor.
  - exists q, s'. split; [exact E|]. split; [exact Hr|]. destruct Hb as [(_ & _ & [Hb|(n & h & Hb)])|Hb].
    + discriminate Hb.
    + discriminate Hb.
    + exact Hb.
Defined.
