(* ===== verification/LwipPbufClient.v ===== *)
(** What the clients of [lwip/src/core/pbuf.c] may rely on: any sequence of
    calls that keeps to the rules of the interface returns, keeps the counts
    right and leaks nothing; the gateway gets the chain that the model of
    [uvl_input] asks for.  The two places where the library itself breaks its
    rules are shown on concrete chains. *)
From Stdlib Require Import Permutation.
From stdpp Require Import gmap.
From S2P Require Import Prelude.
From S2P Require Import UvLwip.
From S2P Require Import LwipPbuf.
From S2P Require Import LwipPbufWrite.
From S2P Require Import LwipPbufRefs.
From S2P Require Import LwipPbufLife.
From S2P Require Import LwipPbufCopy.

(** * Sequences of calls *)

(** A call of an owner, who holds the references [ext]. *)
Inductive call :=
  | CAlloc (layer : pbuf_layer) (length : Z) (type : pbuf_type)
  | CRef (p : positive) | CFree (p : positive)
  | CCat (h t : positive) | CChain (h t : positive) | CDechain (p : positive)
  | CRealloc (p : positive) (n : Z) | CTake (p : positive) (bs : list Z).

(** One reference less. *)
Fixpoint drop_one (p : positive) (ext : list positive) : list positive :=
  match ext with [] => [] | q :: ext => if bool_decide (q = p) then ext else q :: drop_one p ext end.

Lemma drop_one_perm p ext : p ∈ ext → ext ≡ₚ p :: drop_one p ext.
Proof.
  induction ext as [|q ext IH]; [by intros ?%list.elem_of_nil|]. cbn. destruct (bool_decide_reflect (q = p)) as [->|Hn]; [done|].
  intros [->|Hp]%list.elem_of_cons; [done|]. rewrite (IH Hp) at 1. apply Permutation_swap.
Qed.

Section client.
Context (malloc : Z → heap → option block) (custom_free_function : positive → PB ()).
Context (Hfresh : malloc_fresh malloc) (Hclean : malloc_clean malloc).

(** The call, and the references its caller holds afterwards. *)
Definition exec (c : call) (ext : list positive) : PB (list positive) :=
  match c with
  | CAlloc layer length type =>
      p ← pbuf_alloc malloc custom_free_function layer length type; mret (with_link p ext)
  | CRef p => pbuf_ref (Some p);; mret (p :: ext)
  | CFree p => _ ← pbuf_free custom_free_function (Some p); mret (drop_one p ext)
  | CCat h t => pbuf_cat (Some h) (Some t);; mret (drop_one t ext)
  | CChain h t => pbuf_chain (Some h) (Some t);; mret ext
  | CDechain p => _ ← pbuf_dechain custom_free_function p; mret ext
  | CRealloc p n => pbuf_realloc custom_free_function (Some p) n;; mret ext
  | CTake p bs => _ ← pbuf_take (Some p) (Some bs) (zlen bs); mret ext
  end.

(** [p] is a whole packet in the hands of the caller. *)
Definition owns (s : store) (ext : list positive) (p : positive) (l : list node) : Prop :=
  p ∈ ext ∧ packet (bufs s) (Some p) l.

Definition joinable (s : store) (ext : list positive) (h t : positive) : Prop :=
  ∃ l1 l2, owns s ext h l1 ∧ owns s ext t l2 ∧ (∀ x, x ∈ l1.*1 → x ∈ l2.*1 → False) ∧ total l1 + total l2 < 65536.

Definition countable (s : store) (p : positive) : Prop := ∃ b, bufs s !! p = Some b ∧ pb_ref b < 65535.

(** The rules of the interface. *)
Definition allowed (s : store) (ext : list positive) (c : call) : Prop :=
  match c with
  | CAlloc _ length type => 0 ≤ length < 65536 ∧ (type = PBUF_POOL ∨ type = PBUF_RAM)
  | CRef p => p ∈ ext ∧ countable s p
  | CFree p => p ∈ ext
  | CCat h t => joinable s ext h t
  | CChain h t => joinable s ext h t ∧ countable s t
  | CDechain p => ∃ l, owns s ext p l
  | CRealloc p n => 0 ≤ n ∧ ∃ l, owns s ext p l
  | CTake p bs => ∃ l, owns s ext p l ∧ zlen bs ≤ total l
  end.

Lemma exec_ok c s ext :
  refs_ok (bufs s) ext → allowed s ext c →
  ∃ ext' s', exec c ext s = Ok (ext', s') ∧ refs_ok (bufs s') ext'.
Proof.
  intros H Ha. destruct c as [layer length type|p|p|h t|h t|p|p n|p bs]; cbn [allowed exec] in *.
  - destruct Ha as [Hl Ht]. destruct (pbuf_alloc_spec malloc custom_free_function s ext layer length type Hfresh Hclean H Hl Ht)
      as [(p & l & b & E & Hr & _)|(pending & E & _)]; erewrite bind_of_ok by exact E; by eexists _, _.
  - destruct Ha as [_ (b & Hb & Hlt)]. destruct (proj1 (pbuf_ref_counts s ext p b H Hb) Hlt) as [E Hr].
    erewrite bind_of_ok by exact E. by eexists _, _.
  - pose proof (refs_perm _ _ _ (drop_one_perm p ext Ha) H) as H'.
    destruct (free_ok custom_free_function s _ p H') as (l & _ & E & Hr).
    erewrite bind_of_ok by exact E. by eexists _, _.
  - destruct Ha as (l1 & l2 & [_ Hp1] & [Ht Hp2] & Hd & Hm).
    pose proof (refs_perm _ _ _ (drop_one_perm t ext Ht) H) as H'.
    destruct (pbuf_cat_refs s _ h t l1 l2 H' Hp1 Hp2 Hd Hm) as (h' & l' & E & Hr & _).
    erewrite bind_of_ok by exact E. by eexists _, _.
  - destruct Ha as [(l1 & l2 & [_ Hp1] & [_ Hp2] & Hd & Hm) (bt & Hbt & Hlt)].
    destruct (pbuf_chain_refs s ext h t l1 l2 bt H Hp1 Hp2 Hd Hm Hbt Hlt) as (h' & l' & E & Hr & _).
    erewrite bind_of_ok by exact E. by eexists _, _.
  - destruct Ha as (l & Hin & Hp). destruct (packet_head _ _ _ p Hp eq_refl) as (b & k & -> & _).
    destruct (pbuf_dechain_cuts custom_free_function s ext p b k H Hin Hp) as (r & h' & b' & E & Hr & _).
    erewrite bind_of_ok by exact E. by eexists _, _.
  - destruct Ha as [Hn (l & Hin & Hp)].
    destruct (pbuf_realloc_shortens custom_free_function s ext p l n H Hp Hn) as [Hge Hlt].
    destruct (decide (total l ≤ n)) as [Hle|]; [erewrite bind_of_ok by (by apply Hge); by eexists _, _|].
    destruct (Hlt ltac:(lia)) as (h' & l' & E & Hr & _). erewrite bind_of_ok by exact E. by eexists _, _.
  - destruct Ha as (l & [Hin Hp] & Hle). pose proof (pk_max _ _ _ Hp). assert (0 ≤ zlen bs) by (unfold zlen; lia).
    destruct (pbuf_take_writes s p l bs (zlen bs) Hp ltac:(lia) ltac:(lia)) as [_ Hw].
    destruct (Hw Hle) as (E & Hp' & _ & _ & Hout). erewrite bind_of_ok by exact E. eexists _, _. split; [done|].
    eapply refs_same; [|exact H]. eapply same_shapes; [apply Hp|apply Hp'|by apply filled_same_nodes; apply Hp|exact Hout].
Qed.

(** Calls that follow each other, each allowed when it is made. *)
Inductive runs : store → list positive → list call → store → list positive → Prop :=
  | runs_nil s ext : runs s ext [] s ext
  | runs_cons s ext c s1 ext1 cs s2 ext2 :
      allowed s ext c → exec c ext s = Ok (ext1, s1) → runs s1 ext1 cs s2 ext2 → runs s ext (c :: cs) s2 ext2.

Lemma runs_ok s ext cs s' ext' : runs s ext cs s' ext' → refs_ok (bufs s) ext → refs_ok (bufs s') ext'.
Proof.
  induction 1 as [|s ext c s1 ext1 cs s2 ext2 Ha E _ IH]; [done|]. intros H. apply IH.
  destruct (exec_ok c s ext H Ha) as (e & t & E' & H'). rewrite E in E'. by injection E' as <- <-.
Qed.

(** (C24) From the start on, every sequence of calls that keeps to the rules can go
    on with any allowed call, which returns; every buffer there is is reached
    from the references still held; and when the last reference is given back
    no buffer is left. *)
Theorem packet_calls_safe pending cs s ext :
  runs (mk_store ∅ pending) [] cs s ext →
  refs_ok (bufs s) ext ∧
  (∀ c, allowed s ext c → ∃ ext' s', exec c ext s = Ok (ext', s')) ∧
  (∀ a, is_Some (bufs s !! a) ↔ reach (bufs s) ext a) ∧
  (ext = [] → bufs s = ∅).
Proof.
  intros Hr. pose proof (runs_ok _ _ _ _ _ Hr refs_empty) as H. split_and!; [done| | |].
  - intros c Ha. destruct (exec_ok c s ext H Ha) as (e & t & E & _). by exists e, t.
  - intros a. split; [by apply no_leak|by apply reach_present].
  - intros ->. by apply no_owners_empty.
Qed.

End client.

(** * The packets of the gateway *)

Section gateway.
Context (malloc : Z → heap → option block) (custom_free_function : positive → PB ()).

Definition lens_of (l : list node) : list nat := (λ x : node, Z.to_nat (pb_len x.2)) <$> l.
Definition parts_of (l : list node) : list (list Z) := (λ x : node, data x.2) <$> l.

Lemma filled_parts l d :
  Forall buf_ok l.*2 → total l = zlen d → parts_of (filled l d) = fill_chain (lens_of l) d.
Proof.
  revert d. induction l as [|[a b] l IH]; intros d; [done|]. intros [[? ?] Hb]%bufs_cons Ht. cbn [total] in Ht.
  pose proof (total_nonneg _ Hb). cbn. f_equal.
  - unfold data. cbn. rewrite take_app_le by len_lia. by rewrite take_take, Nat.min_id.
  - apply IH; [done|]. len_lia.
Qed.

Lemma lens_total l : Forall buf_ok l.*2 → Z.of_nat (sum_list (lens_of l)) = total l.
Proof.
  induction l as [|[a b] l IH]; [done|]. intros [[? ?] Hb]%bufs_cons. cbn. specialize (IH Hb). unfold lens_of in IH. lia.
Qed.

Lemma filled_lens l d : lens_of (filled l d) = lens_of l.
Proof. revert d. induction l as [|[a b] l IH]; intros d; [done|]. unfold lens_of in *. cbn. by rewrite IH. Qed.

(** (C26) The calls of [uvl_input], [pbuf_alloc] of [PBUF_RAW] buffers from the
    pool and [pbuf_take], give what the model of the gateway assumes of lwIP:
    a chain whose lengths add up to that of the packet, none of them zero, whose
    parts are the packet cut at these lengths, with one owner; or no chain,
    when the pool refuses. *)
Theorem gateway_input_chain s ext buf :
  malloc_fresh malloc → malloc_clean malloc → refs_ok (bufs s) ext → 0 < zlen buf < 65536 →
  (∃ p s1 s2 l,
    pbuf_alloc malloc custom_free_function PBUF_RAW (zlen buf) PBUF_POOL s = Ok (Some p, s1) ∧
    pbuf_take (Some p) (Some buf) (zlen buf) s1 = Ok (ERR_OK, s2) ∧
    packet (bufs s2) (Some p) l ∧ refs_ok (bufs s2) (p :: ext) ∧
    parts_of l = fill_chain (lens_of l) buf ∧ sum_list (lens_of l) = length buf ∧ Forall (λ n, n ≠ 0%nat) (lens_of l)) ∨
  (∃ pending,
    pbuf_alloc malloc custom_free_function PBUF_RAW (zlen buf) PBUF_POOL s = Ok (None, mk_store (bufs s) pending) ∧
    ∃ n h, malloc n h = None).
Proof.
  intros Hm Hcl H Hlen.
  destruct (pbuf_alloc_spec malloc custom_free_function s ext PBUF_RAW (zlen buf) PBUF_POOL Hm Hcl H ltac:(lia) ltac:(by left))
    as [(p & l & b & E & Hr & Hp & Ht & _ & _ & Hf & _)|Hnone]; [left|by right].
  destruct (pbuf_take_writes (with_bufs (store_nodes l (bufs s)) s) p l buf (zlen buf) Hp ltac:(lia) ltac:(lia)) as [_ Hw].
  destruct (Hw ltac:(lia)) as (Et & Hp' & _ & _ & Hout). eexists p, _, _, _. split_and!; [exact E|exact Et|exact Hp'| | | |].
  - eapply refs_same; [|exact Hr]. eapply same_shapes; [apply Hp|apply Hp'|by apply filled_same_nodes; apply Hp|exact Hout].
  - rewrite filled_lens. assert (slice buf 0 (zlen buf) = buf) as ->
      by (unfold slice, zlen; rewrite Nat2Z.id; change (Z.to_nat 0) with 0%nat; by rewrite drop_0, take_ge).
    apply filled_parts; [apply Hp|done].
  - rewrite filled_lens. apply Nat2Z.inj. rewrite lens_total by apply Hp. done.
  - rewrite filled_lens. apply list.Forall_forall. intros n ([a x] & -> & Hin)%list_elem_of_fmap.
    specialize (Hf ltac:(lia)). unfold full in Hf. rewrite list.Forall_forall in Hf.
    specialize (Hf x). cbn. assert (0 < pb_len x); [|lia]. apply Hf, list_elem_of_fmap. by exists (a, x).
Qed.

End gateway.

(** * Examples *)

(** The packet at an address, computed. *)
Fixpoint chain_list (fuel : nat) (h : heap) (p : option positive) : option (list node) :=
  match p, fuel with
  | None, _ => Some []
  | Some _, O => None
  | Some a, S fuel => b ← h !! a; l ← chain_list fuel h (pb_next b); Some ((a, b) :: l)
  end.
Fixpoint packet_okb (l : list node) : bool :=
  match l with
  | [] => true
  | (_, b) :: l =>
      (0 <=? pb_len b) && (pb_len b <=? zlen (pb_payload b)) && (pb_tot_len b =? pb_len b + total l) && packet_okb l
  end.
Definition packet_at (h : heap) (a : positive) : option (list node) :=
  l ← chain_list (size h) h (Some a); if packet_okb l && (total l <? 65536) then Some l else None.

Lemma chain_list_ok fuel h p l : chain_list fuel h p = Some l → linked h p l.
Proof.
  revert p l. induction fuel as [|fuel IH]; intros [a|] l; cbn; try done; try by intros [= <-].
  destruct (h !! a) as [b|] eqn:Ha; [|done]. cbn. destruct (chain_list fuel h (pb_next b)) as [l'|] eqn:E; [|done].
  intros [= <-]. split_and!; [done|done|]. by apply IH.
Qed.

Lemma packet_okb_ok l : packet_okb l = true → Forall buf_ok l.*2 ∧ tot_ok l.
Proof.
  induction l as [|[a b] l IH]; [by repeat constructor|]. cbn. rewrite !andb_true_iff.
  intros [[[? ?] ?] [? ?]%IH]. split; [constructor; [split; cbn; lia|done]|split; [lia|done]].
Qed.

Lemma packet_at_ok h a l : packet_at h a = Some l → packet h (Some a) l.
Proof.
  unfold packet_at. destruct (chain_list (size h) h (Some a)) as [l'|] eqn:E; [|done]. cbn.
  destruct (packet_okb l' && (total l' <? 65536)) eqn:Eb; [|done]. intros [= <-].
  apply andb_true_iff in Eb as [[? ?]%packet_okb_ok ?]. split; [by eapply chain_list_ok|done|done|lia].
Qed.

(** A packet of three bytes is allocated and filled, another one is put behind
    it, the whole is shortened, and the one reference left is given back. *)
Definition example_calls : list call :=
  [CAlloc PBUF_RAW 3 PBUF_RAM; CTake 2 [69; 0]; CAlloc PBUF_RAW 5 PBUF_RAM; CCat 2 3; CRealloc 2 4; CFree 2].

Local Ltac owner_call :=
  eapply runs_cons; [|vm_compute; reflexivity|].
Lemma packet_calls_safe_witness :
  ∃ s, runs bump (λ _, fail InvalidFree) (mk_store ∅ false) [] example_calls s [] ∧ bufs s = ∅.
Proof.
  eassert (runs bump (λ _, fail InvalidFree) (mk_store ∅ false) [] example_calls _ []) as Hr.
  { owner_call; [split; [lia|by right]|].
    owner_call; [eexists; split; [split; [left|apply packet_at_ok; vm_compute; reflexivity]|vm_compute; discriminate]|].
    owner_call; [split; [lia|by right]|].
    owner_call.
    { eexists _, _. split; [|split; [|split]].
      - split; [right; left|apply packet_at_ok; vm_compute; reflexivity].
      - split; [left|apply packet_at_ok; vm_compute; reflexivity].
      - intros x Hx Hy. cbn in Hx, Hy.
        apply list_elem_of_singleton in Hx. apply list_elem_of_singleton in Hy. subst x. discriminate Hy.
      - vm_compute. reflexivity. }
    owner_call; [split; [lia|]; eexists; split; [left|apply packet_at_ok; vm_compute; reflexivity]|].
    owner_call; [left|]. apply runs_nil. }
  eexists. split; [exact Hr|]. apply (packet_calls_safe bump (λ _, fail InvalidFree) bump_fresh bump_clean false _ _ _ Hr). reflexivity.
Defined.

Lemma gateway_input_chain_witness :
  ∃ p s1 s2 l,
    pbuf_alloc bump (λ _, fail InvalidFree) PBUF_RAW 600 PBUF_POOL (mk_store ∅ false) = Ok (Some p, s1) ∧
    pbuf_take (Some p) (Some (replicate 600 7)) 600 s1 = Ok (ERR_OK, s2) ∧
    parts_of l = fill_chain (lens_of l) (replicate 600 7).
Proof.
  destruct (gateway_input_chain bump (λ _, fail InvalidFree) (mk_store ∅ false) [] (replicate 600 7) bump_fresh bump_clean
    refs_empty) as [(p & s1 & s2 & l & E1 & E2 & _ & _ & E3 & _)|(pending & _ & n & h & E)].
  - split; [reflexivity|vm_compute; reflexivity].
  - exists p, s1, s2, l. split; [exact E1|]. split; [exact E2|exact E3].
  - discriminate E.
Defined.
