(* ===== verification/LwipTcp.v ===== *)
(** TCP of lwIP, the data: [lwip/src/include/lwip/tcp.h], [priv/tcp_priv.h],
    [prot/tcp.h] and the helpers of [core/tcp.c] that the other files use,
    configured by [lwip/custom/lwipopts.h] (no window scaling, no timestamps,
    no backlog, out-of-sequence queue, oversized buffers with their checks).

    The state is that of one connection: its [tcp_pcb], the variables of
    [tcp_in.c] that describe the segment being processed, the clock, and what
    was handed to IP.  The calls into IP and the memory pools are answered by
    an environment that may give a different answer to each call.

    A segment on a queue owns its buffers, so it carries them: the list of the
    data behind the TCP header, buffer by buffer.  The operations of [pbuf.c]
    on such a chain are shown to act on exactly that list in [LwipPbuf] and
    its companions.  Header fields are kept in host order. *)
From S2P Require Import Prelude.

(** * Constants *)

Definition TCP_MSS : Z := 512.
Definition TCP_WND : Z := 4 * TCP_MSS.
Definition TCP_SND_BUF : Z := 16384.
Definition TCP_SND_QUEUELEN : Z := 4 * TCP_SND_BUF / TCP_MSS.
Definition TCP_SNDQUEUELEN_OVERFLOW : Z := 65535 - 3.
Definition TCP_OVERSIZE : Z := TCP_MSS.
Definition TCP_WND_UPDATE_THRESHOLD : Z := Z.min (TCP_WND / 4) (TCP_MSS * 4).
Definition TCP_HLEN : Z := 20.
Definition TCP_TTL : Z := 255.
Definition TCP_MAXRTX : Z := 12.
Definition TCP_SYNMAXRTX : Z := 6.

Definition TCP_FIN : Z := 1.
Definition TCP_SYN : Z := 2.
Definition TCP_RST : Z := 4.
Definition TCP_PSH : Z := 8.
Definition TCP_ACK : Z := 16.
Definition TCP_FLAGS : Z := 63.

Definition TF_ACK_DELAY : Z := 1.
Definition TF_ACK_NOW : Z := 2.
Definition TF_INFR : Z := 4.
Definition TF_CLOSEPEND : Z := 8.
Definition TF_RXCLOSED : Z := 16.
Definition TF_FIN : Z := 32.
Definition TF_NODELAY : Z := 64.
Definition TF_NAGLEMEMERR : Z := 128.

(** Flags of input processing. *)
Definition TF_RESET : Z := 8.
Definition TF_CLOSED : Z := 16.
Definition TF_GOT_FIN : Z := 32.

Definition TF_SEG_OPTS_MSS : Z := 1.
Definition TCP_WRITE_FLAG_COPY : Z := 1.
Definition TCP_WRITE_FLAG_MORE : Z := 2.
Definition PBUF_FLAG_PUSH : Z := 1.
Definition PBUF_FLAG_TCP_FIN : Z := 32.

Definition ERR_OK : Z := 0.
Definition ERR_MEM : Z := -1.
Definition ERR_BUF : Z := -2.
Definition ERR_RTE : Z := -4.
Definition ERR_INPROGRESS : Z := -5.
Definition ERR_VAL : Z := -6.
Definition ERR_CONN : Z := -11.
Definition ERR_ABRT : Z := -13.
Definition ERR_RST : Z := -14.
Definition ERR_CLSD : Z := -15.
Definition ERR_ARG : Z := -16.

(** [f & c] as a condition. *)
Definition has (f c : Z) : bool := negb (Z.land f c =? 0).
(** [f & ~c] *)
Definition unset (f c : Z) : Z := Z.land f (Z.lnot c).

Definition s16 (x : Z) : Z := (x + 2 ^ 15) mod 2 ^ 16 - 2 ^ 15.

(** * Data *)

Inductive tcp_state :=
  | CLOSED | LISTEN | SYN_SENT | SYN_RCVD | ESTABLISHED | FIN_WAIT_1 | FIN_WAIT_2
  | CLOSE_WAIT | CLOSING | LAST_ACK | TIME_WAIT.

#[export] Instance tcp_state_eq_dec : EqDecision tcp_state.
Proof. solve_decision. Defined.

(** The value of the C enumeration, for [<] and [>=]. *)
Definition state_num (s : tcp_state) : Z :=
  match s with
  | CLOSED => 0 | LISTEN => 1 | SYN_SENT => 2 | SYN_RCVD => 3 | ESTABLISHED => 4 | FIN_WAIT_1 => 5
  | FIN_WAIT_2 => 6 | CLOSE_WAIT => 7 | CLOSING => 8 | LAST_ACK => 9 | TIME_WAIT => 10
  end.

(** [struct tcp_hdr] in host order; the checksum is computed when a packet is sent. *)
Record tcp_hdr := mk_hdr {
  h_src : Z; h_dest : Z; h_seqno : Z; h_ackno : Z; h_hdrlen_rsvd_flags : Z; h_wnd : Z }.
#[export] Instance eta_tcp_hdr : Eta tcp_hdr := λ x, mk_hdr (h_src x) (h_dest x) (h_seqno x) (h_ackno x)
   (h_hdrlen_rsvd_flags x) (h_wnd x).
#[export] Instance set_h_src : Setter h_src := ltac:(setter).
#[export] Instance set_h_dest : Setter h_dest := ltac:(setter).
#[export] Instance set_h_seqno : Setter h_seqno := ltac:(setter).
#[export] Instance set_h_ackno : Setter h_ackno := ltac:(setter).
#[export] Instance set_h_hdrlen_rsvd_flags : Setter h_hdrlen_rsvd_flags := ltac:(setter).
#[export] Instance set_h_wnd : Setter h_wnd := ltac:(setter).

Definition TCPH_HDRLEN (h : tcp_hdr) : Z := Z.shiftr (h_hdrlen_rsvd_flags h) 12.
Definition TCPH_FLAGS (h : tcp_hdr) : Z := Z.land (h_hdrlen_rsvd_flags h) TCP_FLAGS.
Definition TCPH_FLAGS_SET (f : Z) (h : tcp_hdr) : tcp_hdr :=
  h <| h_hdrlen_rsvd_flags := Z.lor (unset (h_hdrlen_rsvd_flags h) TCP_FLAGS) f |>.
Definition TCPH_SET_FLAG (f : Z) (h : tcp_hdr) : tcp_hdr :=
  h <| h_hdrlen_rsvd_flags ::= λ x, Z.lor x f |>.
Definition TCPH_HDRLEN_FLAGS (len f : Z) : Z := u16 (Z.lor (u16 (Z.shiftl len 12)) f).

(** A buffer of a chain: its bytes, the address of the memory of the
    application it refers to ([PBUF_ROM]), the bytes allocated behind its
    data, its flags. *)
Record tbuf := mk_tbuf {
  tb_data : list Z; tb_rom : option Z; tb_room : Z; tb_flags : Z }.
#[export] Instance eta_tbuf : Eta tbuf := λ x, mk_tbuf (tb_data x) (tb_rom x) (tb_room x) (tb_flags x).
#[export] Instance set_tb_data : Setter tb_data := ltac:(setter).
#[export] Instance set_tb_rom : Setter tb_rom := ltac:(setter).
#[export] Instance set_tb_room : Setter tb_room := ltac:(setter).
#[export] Instance set_tb_flags : Setter tb_flags := ltac:(setter).

(** [p->len], [p->tot_len], [pbuf_clen(p)]. *)
Definition tb_len (b : tbuf) : Z := zlen (tb_data b).
Fixpoint bytes (p : list tbuf) : list Z :=
  match p with [] => [] | b :: p => tb_data b ++ bytes p end.
Definition tot_len (p : list tbuf) : Z := zlen (bytes p).
Definition pbuf_clen (p : list tbuf) : Z := zlen p.

(** [struct tcp_seg]; the links are the list the segment is in. *)
Record tcp_seg := mk_seg {
  seg_p : option (list tbuf); seg_len : Z; seg_flags : Z; seg_hdr : tcp_hdr }.
#[export] Instance eta_tcp_seg : Eta tcp_seg := λ x, mk_seg (seg_p x) (seg_len x) (seg_flags x)
   (seg_hdr x).
#[export] Instance set_seg_p : Setter seg_p := ltac:(setter).
#[export] Instance set_seg_len : Setter seg_len := ltac:(setter).
#[export] Instance set_seg_flags : Setter seg_flags := ltac:(setter).
#[export] Instance set_seg_hdr : Setter seg_hdr := ltac:(setter).

Definition seqno_of (s : tcp_seg) : Z := h_seqno (seg_hdr s).
Definition TCP_TCPLEN (s : tcp_seg) : Z :=
  seg_len s + if has (TCPH_FLAGS (seg_hdr s)) (Z.lor TCP_FIN TCP_SYN) then 1 else 0.

(** [struct tcp_pcb].  Of the callbacks only the identity; [callback_arg] and
    the list link are not kept. *)
Record tcp_pcb := mk_pcb {
  local_ip : list Z; remote_ip : list Z; so_options : Z; tos : Z; ttl : Z; state : tcp_state;
  prio : Z; bound_to_netif : Z; local_netif : list Z; local_port : Z; remote_port : Z; pcb_flags : Z; polltmr : Z; pollinterval : Z; last_timer : Z; tmr : Z;
  rcv_nxt : Z; rcv_wnd : Z; rcv_ann_wnd : Z; rcv_ann_right_edge : Z; rtime : Z; mss : Z; rttest : Z; rtseq : Z;
  sa : Z; sv : Z; rto : Z; nrtx : Z; dupacks : Z; lastack : Z; cwnd : Z; ssthresh : Z; snd_nxt : Z;
  snd_wl1 : Z; snd_wl2 : Z; snd_lbb : Z; snd_wnd : Z; snd_wnd_max : Z; snd_buf : Z; snd_queuelen : Z;
  unsent_oversize : Z; unsent : list tcp_seg; unacked : list tcp_seg; ooseq : list tcp_seg;
  refused_data : option (list tbuf); listener : option positive; cb_sent : option positive;
  cb_recv : option positive; cb_connected : option positive; cb_poll : option positive;
  cb_errf : option positive; keep_idle : Z; persist_cnt : Z; persist_backoff : Z; keep_cnt_sent : Z }.
#[export] Instance eta_tcp_pcb : Eta tcp_pcb := λ x, mk_pcb (local_ip x) (remote_ip x) (so_options x) (tos x)
   (ttl x) (state x) (prio x) (bound_to_netif x) (local_netif x) (local_port x) (remote_port x) (pcb_flags x) (polltmr x) (pollinterval x)
   (last_timer x) (tmr x) (rcv_nxt x) (rcv_wnd x) (rcv_ann_wnd x) (rcv_ann_right_edge x) (rtime x) (mss x)
   (rttest x) (rtseq x) (sa x) (sv x) (rto x) (nrtx x) (dupacks x) (lastack x) (cwnd x) (ssthresh x) (snd_nxt x)
   (snd_wl1 x) (snd_wl2 x) (snd_lbb x) (snd_wnd x) (snd_wnd_max x) (snd_buf x) (snd_queuelen x)
   (unsent_oversize x) (unsent x) (unacked x) (ooseq x) (refused_data x) (listener x) (cb_sent x) (cb_recv x)
   (cb_connected x) (cb_poll x) (cb_errf x) (keep_idle x) (persist_cnt x) (persist_backoff x) (keep_cnt_sent x).
#[export] Instance set_local_ip : Setter local_ip := ltac:(setter).
#[export] Instance set_remote_ip : Setter remote_ip := ltac:(setter).
#[export] Instance set_so_options : Setter so_options := ltac:(setter).
#[export] Instance set_tos : Setter tos := ltac:(setter).
#[export] Instance set_ttl : Setter ttl := ltac:(setter).
#[export] Instance set_state : Setter state := ltac:(setter).
#[export] Instance set_prio : Setter prio := ltac:(setter).
#[export] Instance set_bound_to_netif : Setter bound_to_netif := ltac:(setter).
#[export] Instance set_local_netif : Setter local_netif := ltac:(setter).
#[export] Instance set_local_port : Setter local_port := ltac:(setter).
#[export] Instance set_remote_port : Setter remote_port := ltac:(setter).
#[export] Instance set_pcb_flags : Setter pcb_flags := ltac:(setter).
#[export] Instance set_polltmr : Setter polltmr := ltac:(setter).
#[export] Instance set_pollinterval : Setter pollinterval := ltac:(setter).
#[export] Instance set_last_timer : Setter last_timer := ltac:(setter).
#[export] Instance set_tmr : Setter tmr := ltac:(setter).
#[export] Instance set_rcv_nxt : Setter rcv_nxt := ltac:(setter).
#[export] Instance set_rcv_wnd : Setter rcv_wnd := ltac:(setter).
#[export] Instance set_rcv_ann_wnd : Setter rcv_ann_wnd := ltac:(setter).
#[export] Instance set_rcv_ann_right_edge : Setter rcv_ann_right_edge := ltac:(setter).
#[export] Instance set_rtime : Setter rtime := ltac:(setter).
#[export] Instance set_mss : Setter mss := ltac:(setter).
#[export] Instance set_rttest : Setter rttest := ltac:(setter).
#[export] Instance set_rtseq : Setter rtseq := ltac:(setter).
#[export] Instance set_sa : Setter sa := ltac:(setter).
#[export] Instance set_sv : Setter sv := ltac:(setter).
#[export] Instance set_rto : Setter rto := ltac:(setter).
#[export] Instance set_nrtx : Setter nrtx := ltac:(setter).
#[export] Instance set_dupacks : Setter dupacks := ltac:(setter).
#[export] Instance set_lastack : Setter lastack := ltac:(setter).
#[export] Instance set_cwnd : Setter cwnd := ltac:(setter).
#[export] Instance set_ssthresh : Setter ssthresh := ltac:(setter).
#[export] Instance set_snd_nxt : Setter snd_nxt := ltac:(setter).
#[export] Instance set_snd_wl1 : Setter snd_wl1 := ltac:(setter).
#[export] Instance set_snd_wl2 : Setter snd_wl2 := ltac:(setter).
#[export] Instance set_snd_lbb : Setter snd_lbb := ltac:(setter).
#[export] Instance set_snd_wnd : Setter snd_wnd := ltac:(setter).
#[export] Instance set_snd_wnd_max : Setter snd_wnd_max := ltac:(setter).
#[export] Instance set_snd_buf : Setter snd_buf := ltac:(setter).
#[export] Instance set_snd_queuelen : Setter snd_queuelen := ltac:(setter).
#[export] Instance set_unsent_oversize : Setter unsent_oversize := ltac:(setter).
#[export] Instance set_unsent : Setter unsent := ltac:(setter).
#[export] Instance set_unacked : Setter unacked := ltac:(setter).
#[export] Instance set_ooseq : Setter ooseq := ltac:(setter).
#[export] Instance set_refused_data : Setter refused_data := ltac:(setter).
#[export] Instance set_listener : Setter listener := ltac:(setter).
#[export] Instance set_cb_sent : Setter cb_sent := ltac:(setter).
#[export] Instance set_cb_recv : Setter cb_recv := ltac:(setter).
#[export] Instance set_cb_connected : Setter cb_connected := ltac:(setter).
#[export] Instance set_cb_poll : Setter cb_poll := ltac:(setter).
#[export] Instance set_cb_errf : Setter cb_errf := ltac:(setter).
#[export] Instance set_keep_idle : Setter keep_idle := ltac:(setter).
#[export] Instance set_persist_cnt : Setter persist_cnt := ltac:(setter).
#[export] Instance set_persist_backoff : Setter persist_backoff := ltac:(setter).
#[export] Instance set_keep_cnt_sent : Setter keep_cnt_sent := ltac:(setter).

(** A packet handed to [ip_output_if]. *)
Record packet := mk_packet {
  pk_src : list Z; pk_dst : list Z; pk_ttl : Z; pk_tos : Z; pk_hdr : tcp_hdr; pk_opts : list Z; pk_data : list Z }.

(** The list a control block is registered in. *)
Inductive pcb_list := NoList | ListenPcbs | BoundPcbs | ActivePcbs | TwPcbs.

#[export] Instance pcb_list_eq_dec : EqDecision pcb_list.
Proof. solve_decision. Defined.

(** The connection, where it is registered, whether it was freed, the
    variables of [tcp_in.c] for the segment being processed, the clock, the
    packets sent and the number of calls to the outside. *)
Record tcp := mk_tcp {
  pcb : tcp_pcb; on_list : pcb_list; freed : bool; inseg : tcp_seg; seqno : Z; ackno : Z; recv_acked : Z;
  tcplen : Z; flags : Z; recv_flags : Z; recv_data : option (list tbuf); tcp_input_pcb : bool; tcp_ticks : Z;
  tcphdr_optlen : Z; tcphdr_opt1len : Z; tcphdr_opt1 : list Z; tcphdr_opt2 : option (list Z); tcp_optidx : Z;
  sent : list packet; ncalls : nat }.
#[export] Instance eta_tcp : Eta tcp := λ x, mk_tcp (pcb x) (on_list x) (freed x) (inseg x) (seqno x) (ackno x)
   (recv_acked x) (tcplen x) (flags x) (recv_flags x) (recv_data x) (tcp_input_pcb x) (tcp_ticks x)
   (tcphdr_optlen x) (tcphdr_opt1len x) (tcphdr_opt1 x) (tcphdr_opt2 x) (tcp_optidx x) (sent x) (ncalls x).
#[export] Instance set_pcb : Setter pcb := ltac:(setter).
#[export] Instance set_on_list : Setter on_list := ltac:(setter).
#[export] Instance set_freed : Setter freed := ltac:(setter).
#[export] Instance set_inseg : Setter inseg := ltac:(setter).
#[export] Instance set_seqno : Setter seqno := ltac:(setter).
#[export] Instance set_ackno : Setter ackno := ltac:(setter).
#[export] Instance set_recv_acked : Setter recv_acked := ltac:(setter).
#[export] Instance set_tcplen : Setter tcplen := ltac:(setter).
#[export] Instance set_flags : Setter flags := ltac:(setter).
#[export] Instance set_recv_flags : Setter recv_flags := ltac:(setter).
#[export] Instance set_recv_data : Setter recv_data := ltac:(setter).
#[export] Instance set_tcp_input_pcb : Setter tcp_input_pcb := ltac:(setter).
#[export] Instance set_tcp_ticks : Setter tcp_ticks := ltac:(setter).
#[export] Instance set_tcphdr_optlen : Setter tcphdr_optlen := ltac:(setter).
#[export] Instance set_tcphdr_opt1len : Setter tcphdr_opt1len := ltac:(setter).
#[export] Instance set_tcphdr_opt1 : Setter tcphdr_opt1 := ltac:(setter).
#[export] Instance set_tcphdr_opt2 : Setter tcphdr_opt2 := ltac:(setter).
#[export] Instance set_tcp_optidx : Setter tcp_optidx := ltac:(setter).
#[export] Instance set_sent : Setter sent := ltac:(setter).
#[export] Instance set_ncalls : Setter ncalls := ltac:(setter).

Abbreviation TCP := (M tcp).

(** The answers of IP and of the memory pools, by the number of calls made
    before: whether there is a route and the size of its packets, the address
    of the interface, what [ip_output_if] returns, whether the driver still
    holds a packet, whether there is memory for a buffer and for a segment, what
    is in memory not yet written. *)
Class TcpEnv := {
  ip_route : nat → bool;
  netif_mtu : nat → Z;
  netif_ip : nat → option (list Z);
  ip_output_if : nat → Z;
  netif_busy : nat → bool;
  pbuf_mem : nat → bool;
  seg_mem : nat → bool;
  garbage : nat → Z }.

Definition ask {A} (f : nat → A) : TCP A :=
  n ← gets ncalls; modify (λ s, s <| ncalls := S n |>);; mret (f n).

Definition LWIP_ASSERT (b : bool) : TCP () := if b then mret () else fail AssertFailure.

Definition on_pcb (f : tcp_pcb → tcp_pcb) : TCP () := modify (λ s, s <| pcb ::= f |>).
Definition set_flag (f : Z) (p : tcp_pcb) : tcp_pcb := p <| pcb_flags ::= λ x, Z.lor x f |>.
Definition clear_flag (f : Z) (p : tcp_pcb) : tcp_pcb := p <| pcb_flags ::= λ x, unset x f |>.

Definition tcp_ack_now (p : tcp_pcb) : tcp_pcb := set_flag TF_ACK_NOW p.
Definition tcp_ack (p : tcp_pcb) : tcp_pcb :=
  if has (pcb_flags p) TF_ACK_DELAY then set_flag TF_ACK_NOW (clear_flag TF_ACK_DELAY p) else set_flag TF_ACK_DELAY p.

(** [seg->p] where it must not be null. *)
Definition seg_bufs (s : tcp_seg) : result (list tbuf) :=
  match seg_p s with Some p => Ok p | None => Fail NullPointer end.

(** * Sequence numbers

    The macros compare two numbers by the sign of their difference. *)
Definition TCP_SEQ_LT (a b : Z) : bool := s32 (a - b) <? 0.
Definition TCP_SEQ_LEQ (a b : Z) : bool := s32 (a - b) <=? 0.
Definition TCP_SEQ_GT (a b : Z) : bool := s32 (a - b) >? 0.
Definition TCP_SEQ_GEQ (a b : Z) : bool := s32 (a - b) >=? 0.
Definition TCP_SEQ_BETWEEN (a b c : Z) : bool := TCP_SEQ_GEQ a b && TCP_SEQ_LEQ a c.

(** * Helpers of [tcp.c] *)

(** The window to announce; the result is how much more than before. *)
Definition tcp_update_rcv_ann_wnd (p : tcp_pcb) : result (Z * tcp_pcb) :=
  let new_right_edge := u32 (rcv_nxt p + rcv_wnd p) in
  if TCP_SEQ_GEQ new_right_edge (rcv_ann_right_edge p + Z.min (TCP_WND / 2) (mss p)) then
    Ok (u32 (new_right_edge - rcv_ann_right_edge p), p <| rcv_ann_wnd := rcv_wnd p |>)
  else if TCP_SEQ_GT (rcv_nxt p) (rcv_ann_right_edge p) then Ok (0, p <| rcv_ann_wnd := 0 |>)
  else
    let new_rcv_ann_wnd := u32 (rcv_ann_right_edge p - rcv_nxt p) in
    if new_rcv_ann_wnd <=? 65535 then Ok (0, p <| rcv_ann_wnd := u16 new_rcv_ann_wnd |>) else Fail AssertFailure.

(** On the connection of the state. *)
Definition update_rcv_ann_wnd : TCP Z :=
  p ← gets pcb; r ← lift (tcp_update_rcv_ann_wnd p); on_pcb (λ _, r.2);; mret r.1.

(** [pbuf_realloc] and [pbuf_header] with a negative increment on a chain
    ([core/pbuf.c]). *)
Fixpoint realloc_loop (p : list tbuf) (rem_len : Z) : list tbuf :=
  match p with
  | [] => []
  | b :: p =>
      if rem_len >? tb_len b then b :: realloc_loop p (rem_len - tb_len b)
      else [b <| tb_data ::= take (Z.to_nat rem_len) |>]
  end.
Definition pbuf_realloc (p : list tbuf) (new_len : Z) : list tbuf :=
  if new_len >=? tot_len p then p else realloc_loop p new_len.
Definition hide_front (n : Z) (b : tbuf) : tbuf := b <| tb_data ::= drop (Z.to_nat n) |>.
