(* ===== verification/LwipTcpOut.v ===== *)
(** TCP of lwIP, sending: [lwip/src/core/tcp_out.c]. *)
From S2P Require Import Prelude.
From S2P Require Import LwipTcp.

(** * Queues *)

Fixpoint update_last {A} (f : A → A) (l : list A) : list A :=
  match l with [] => [] | [a] => [f a] | a :: l => a :: update_last f l end.

(** Puts a segment into a queue before the first one that does not start
    before it. *)
Fixpoint insert_sorted (seg : tcp_seg) (l : list tcp_seg) : list tcp_seg :=
  match l with
  | [] => [seg]
  | cur :: l =>
      if TCP_SEQ_LT (seqno_of cur) (seqno_of seg) then cur :: insert_sorted seg l else seg :: cur :: l
  end.

Definition LWIP_TCP_OPT_LENGTH (flags : Z) : Z := if has flags TF_SEG_OPTS_MSS then 4 else 0.
Definition LWIP_MEM_ALIGN_SIZE (n : Z) : Z := Z.land (n + 3) (Z.lnot 3).
Definition ip_addr_isany (ip : list Z) : bool := bool_decide (Forall (λ b, b = 0) ip).
Definition is_v6 (ip : list Z) : bool := zlen ip =? 16.

(** The variables of [tcp_write]: progress in the data, what is left behind
    the last buffer, how much of it phase 1 uses, the space in the last segment,
    the number of buffers. *)
Record write_vars := mk_vars {
  wv_pos : Z; wv_oversize : Z; wv_used : Z; wv_space : Z; wv_queuelen : Z }.
#[export] Instance eta_write_vars : Eta write_vars := λ x, mk_vars (wv_pos x) (wv_oversize x) (wv_used x)
   (wv_space x) (wv_queuelen x).
#[export] Instance set_wv_pos : Setter wv_pos := ltac:(setter).
#[export] Instance set_wv_oversize : Setter wv_oversize := ltac:(setter).
#[export] Instance set_wv_used : Setter wv_used := ltac:(setter).
#[export] Instance set_wv_space : Setter wv_space := ltac:(setter).
#[export] Instance set_wv_queuelen : Setter wv_queuelen := ltac:(setter).

Section Out.
Context `{TcpEnv}.

(** * Packets *)

(** [ip_output_if] *)
Definition ip_output (p : packet) : TCP Z :=
  modify (λ s, s <| sent ::= λ l, l ++ [p] |>);; ask ip_output_if.

Definition tcp_eff_send_mss (sendmss : Z) (dest : list Z) : TCP Z :=
  outif ← ask ip_route;
  if negb (is_v6 dest) && negb outif then mret sendmss
  else
    mtu ← ask netif_mtu;
    let mtu := s16 mtu in
    if mtu =? 0 then mret sendmss
    else mret (Z.min sendmss (u16 (mtu - (if is_v6 dest then 40 else 20) - TCP_HLEN))).

(** The header of a packet without a segment, and whether there is memory. *)
Definition tcp_output_alloc_header (optlen datalen seqno : Z) : TCP (option tcp_hdr) :=
  mem ← ask pbuf_mem;
  if mem : bool then
    p ← gets pcb;
    on_pcb (λ p, p <| rcv_ann_right_edge := u32 (rcv_nxt p + rcv_ann_wnd p) |>);;
    mret (Some (mk_hdr (local_port p) (remote_port p) seqno (rcv_nxt p)
      (TCPH_HDRLEN_FLAGS (5 + optlen / 4) TCP_ACK) (rcv_ann_wnd p)))
  else mret None.

Definition send_header (h : tcp_hdr) (tos_ : Z) (data : list Z) : TCP Z :=
  p ← gets pcb;
  netif ← ask ip_route;
  if netif : bool then ip_output (mk_packet (local_ip p) (remote_ip p) (ttl p) tos_ h [] data) else mret ERR_RTE.

Definition tcp_send_empty_ack : TCP Z :=
  p ← gets pcb;
  h ← tcp_output_alloc_header 0 0 (snd_nxt p);
  match h with
  | None => on_pcb (set_flag (Z.lor TF_ACK_DELAY TF_ACK_NOW));; mret ERR_BUF
  | Some h =>
      err ← send_header h (tos p) [];
      on_pcb (if negb (err =? ERR_OK) then set_flag (Z.lor TF_ACK_DELAY TF_ACK_NOW)
              else clear_flag (Z.lor TF_ACK_DELAY TF_ACK_NOW));;
      mret err
  end.

Definition tcp_rst (seqno ackno : Z) (lip rip : list Z) (lport rport : Z) : TCP () :=
  mem ← ask pbuf_mem;
  if negb mem then mret ()
  else
    let h := mk_hdr lport rport (u32 seqno) (u32 ackno)
      (TCPH_HDRLEN_FLAGS (TCP_HLEN / 4) (Z.lor TCP_RST TCP_ACK)) TCP_WND in
    netif ← ask ip_route;
    if netif : bool then _ ← ip_output (mk_packet lip rip TCP_TTL 0 h [] []); mret () else mret ().

Definition tcp_keepalive : TCP Z :=
  p ← gets pcb;
  h ← tcp_output_alloc_header 0 0 (u32 (snd_nxt p - 1));
  match h with None => mret ERR_MEM | Some h => send_header h 0 [] end.

(** One byte of the oldest segment, or its FIN. *)
Definition tcp_zero_window_probe : TCP Z :=
  p ← gets pcb;
  match head (unacked p ++ unsent p) with
  | None => mret ERR_OK
  | Some seg =>
      let is_fin := has (TCPH_FLAGS (seg_hdr seg)) TCP_FIN && (seg_len seg =? 0) in
      h ← tcp_output_alloc_header 0 (if is_fin then 0 else 1) (seqno_of seg);
      match h with
      | None => mret ERR_MEM
      | Some h =>
          unwritten ← ask garbage;
          bufs ← lift (seg_bufs seg);
          let data := take 1 (drop (Z.to_nat (tot_len bufs - seg_len seg)) (bytes bufs) ++ [unwritten]) in
          let h := if is_fin then TCPH_FLAGS_SET (Z.lor TCP_ACK TCP_FIN) h else h in
          let next := u32 (seqno_of seg + 1) in
          on_pcb (λ p, if TCP_SEQ_LT (snd_nxt p) next then p <| snd_nxt := next |> else p);;
          send_header h 0 (if is_fin then [] else data)
      end
  end.

(** * Making segments *)

Definition tcp_create_segment (p : list tbuf) (tot flags seqno optflags : Z) : TCP (option tcp_seg) :=
  let optlen := LWIP_TCP_OPT_LENGTH optflags in
  mem ← ask seg_mem;
  if negb mem then mret None
  else
    LWIP_ASSERT (tot >=? optlen);;
    c ← gets pcb;
    mret (Some (mk_seg (Some p) (tot - optlen) optflags
      (mk_hdr (local_port c) (remote_port c) (u32 seqno) 0 (TCPH_HDRLEN_FLAGS (5 + optlen / 4) flags) 0))).

(** The room behind [length] bytes in the buffer that is allocated for them. *)
Definition tcp_pbuf_prealloc (length max_length apiflags : Z) (first_seg : bool) : TCP (option Z) :=
  p ← gets pcb;
  let alloc :=
    if (length <? max_length) &&
       (has apiflags TCP_WRITE_FLAG_MORE ||
        (negb (has (pcb_flags p) TF_NODELAY) &&
         (negb first_seg || negb (bool_decide (unsent p = [])) || negb (bool_decide (unacked p = [])))))
    then Z.min max_length (LWIP_MEM_ALIGN_SIZE (length + TCP_OVERSIZE)) else length in
  mem ← ask pbuf_mem;
  mret (if mem : bool then Some (u16 (alloc - length)) else None).

Definition valid_queues (p : tcp_pcb) : bool :=
  negb (bool_decide (unacked p = [])) || negb (bool_decide (unsent p = [])).

Definition tcp_enqueue_flags (flags : Z) : TCP Z :=
  LWIP_ASSERT (negb (Z.land flags (Z.lor TCP_SYN TCP_FIN) =? 0));;
  p ← gets pcb;
  if ((snd_queuelen p >=? TCP_SND_QUEUELEN) || (snd_queuelen p >? TCP_SNDQUEUELEN_OVERFLOW)) && negb (has flags TCP_FIN)
  then on_pcb (set_flag TF_NAGLEMEMERR);; mret ERR_MEM
  else
    let optflags := if has flags TCP_SYN then TF_SEG_OPTS_MSS else 0 in
    let optlen := LWIP_TCP_OPT_LENGTH optflags in
    mem ← ask pbuf_mem;
    if negb mem then on_pcb (set_flag TF_NAGLEMEMERR);; mret ERR_MEM
    else
      seg ← tcp_create_segment [mk_tbuf [] None 0 0] optlen flags (snd_lbb p) optflags;
      match seg with
      | None => on_pcb (set_flag TF_NAGLEMEMERR);; mret ERR_MEM
      | Some seg =>
          LWIP_ASSERT (seg_len seg =? 0);;
          on_pcb (λ p, p <| unsent ::= λ l, l ++ [seg] |> <| unsent_oversize := 0 |>);;
          on_pcb (λ p, if has flags TCP_SYN || has flags TCP_FIN then p <| snd_lbb ::= λ n, u32 (n + 1) |> else p);;
          on_pcb (λ p, if has flags TCP_FIN then set_flag TF_FIN p else p);;
          on_pcb (λ p, p <| snd_queuelen ::= λ n, u16 (n + 1) |>);;
          p ← gets pcb;
          LWIP_ASSERT ((snd_queuelen p =? 0) || valid_queues p);;
          mret ERR_OK
      end.

Definition tcp_send_fin : TCP Z :=
  p ← gets pcb;
  match list.last (unsent p) with
  | Some last_unsent =>
      if negb (has (TCPH_FLAGS (seg_hdr last_unsent)) (Z.lor (Z.lor TCP_SYN TCP_FIN) TCP_RST)) then
        on_pcb (λ p, set_flag TF_FIN
          (p <| unsent ::= update_last (λ s, s <| seg_hdr ::= TCPH_SET_FLAG TCP_FIN |>) |>));;
        mret ERR_OK
      else tcp_enqueue_flags TCP_FIN
  | None => tcp_enqueue_flags TCP_FIN
  end.

(** * Writing *)

Definition tcp_write_checks (len : Z) : TCP Z :=
  p ← gets pcb;
  if negb (bool_decide (state p ∈ [ESTABLISHED; CLOSE_WAIT; SYN_SENT; SYN_RCVD])) then mret ERR_CONN
  else if len =? 0 then mret ERR_OK
  else if len >? snd_buf p then on_pcb (set_flag TF_NAGLEMEMERR);; mret ERR_MEM
  else if (snd_queuelen p >=? TCP_SND_QUEUELEN) || (snd_queuelen p >? TCP_SNDQUEUELEN_OVERFLOW) then
    on_pcb (set_flag TF_NAGLEMEMERR);; mret ERR_MEM
  else
    LWIP_ASSERT (if negb (snd_queuelen p =? 0) then valid_queues p else negb (valid_queues p));;
    mret ERR_OK.

Definition tcp_mss_local (p : tcp_pcb) : Z :=
  let mss_local := Z.min (mss p) (snd_wnd_max p / 2) in if mss_local =? 0 then mss p else mss_local.

(** Phase 1: how much fits into the buffer at the end of the queue. *)
Definition write_phase1 (p : tcp_pcb) (last : tcp_seg) (len : Z) : TCP write_vars :=
  let unsent_optlen := LWIP_TCP_OPT_LENGTH (seg_flags last) in
  LWIP_ASSERT (tcp_mss_local p >=? seg_len last + unsent_optlen);;
  let space := tcp_mss_local p - (seg_len last + unsent_optlen) in
  let oversize := unsent_oversize p in
  (if oversize >? 0 then LWIP_ASSERT (oversize <=? space) else mret ());;
  let used := if oversize >? 0 then Z.min space (Z.min oversize len) else 0 in
  LWIP_ASSERT ((oversize - used =? 0) || (used =? len));;
  mret (mk_vars used (oversize - used) used (space - used) (snd_queuelen p)).

(** Phase 2: a buffer that is chained to the last segment, or an extension of
    its last reference.  [None] where there is no memory. *)
Inductive extension := NoExtension | Concat (b : tbuf) | Extend (n : Z).

Definition write_phase2 (p : tcp_pcb) (last : tcp_seg) (arg : Z) (data : list Z) (apiflags : Z) (v : write_vars) :
    TCP (option (write_vars * extension)) :=
  let len := zlen data in
  if (wv_pos v <? len) && (wv_space v >? 0) && (seg_len last >? 0) then
    let seglen := Z.min (wv_space v) (len - wv_pos v) in
    src ← lift (mem_read data (wv_pos v) seglen);
    if has apiflags TCP_WRITE_FLAG_COPY then
      room ← tcp_pbuf_prealloc seglen (wv_space v) apiflags true;
      match room with
      | None => mret None
      | Some room =>
          mret (Some (v <| wv_oversize := room |>
            <| wv_queuelen ::= λ n, u16 (n + 1) |> <| wv_pos ::= λ n, u16 (n + seglen) |>,
            Concat (mk_tbuf src None room 0)))
      end
    else
      bufs ← lift (seg_bufs last);
      if bool_decide ((q ← list.last bufs; (λ a, a + tb_len q) <$> tb_rom q) = Some arg) then
        LWIP_ASSERT (wv_pos v =? 0);;
        mret (Some (v <| wv_pos ::= λ n, u16 (n + seglen) |>, Extend seglen))
      else
        mem ← ask pbuf_mem;
        if negb mem then mret None
        else
          mret (Some (v <| wv_queuelen ::= λ n, u16 (n + 1) |> <| wv_pos ::= λ n, u16 (n + seglen) |>,
            Concat (mk_tbuf src (Some (arg + wv_pos v)) 0 0)))
  else mret (Some (v, NoExtension)).

(** The buffers of one new segment. *)
Definition write_bufs (p : tcp_pcb) (arg : Z) (src : list Z) (apiflags : Z) (first_seg : bool) (v : write_vars) :
    TCP (option (list tbuf * Z)) :=
  let seglen := zlen src in
  if has apiflags TCP_WRITE_FLAG_COPY then
    room ← tcp_pbuf_prealloc seglen (tcp_mss_local p) apiflags first_seg;
    mret ((λ room, ([mk_tbuf src None room 0], room)) <$> room)
  else
    LWIP_ASSERT (wv_oversize v =? 0);;
    mem ← ask pbuf_mem;
    if negb mem then mret None
    else
      mem ← ask pbuf_mem;
      if negb mem then mret None
      else mret (Some ([mk_tbuf [] None 0 0; mk_tbuf src (Some (arg + wv_pos v)) 0 0], wv_oversize v)).

(** Phase 3: new segments for the rest.  Every turn adds a buffer, so the
    limit of the queue bounds the turns. *)
Fixpoint write_phase3 (fuel : nat) (p : tcp_pcb) (arg : Z) (data : list Z) (apiflags : Z) (queue : list tcp_seg)
    (v : write_vars) : TCP (option (write_vars * list tcp_seg)) :=
  match fuel with
  | O => fail OutOfFuel
  | S fuel =>
      if wv_pos v <? zlen data then
        let seglen := Z.min (zlen data - wv_pos v) (tcp_mss_local p) in
        src ← lift (mem_read data (wv_pos v) seglen);
        bufs ← write_bufs p arg src apiflags (bool_decide (queue = [])) v;
        match bufs with
        | None => mret None
        | Some (bufs, oversize) =>
            let queuelen := u16 (wv_queuelen v + pbuf_clen bufs) in
            if (queuelen >? TCP_SND_QUEUELEN) || (queuelen >? TCP_SNDQUEUELEN_OVERFLOW) then mret None
            else
              seg ← tcp_create_segment bufs (tot_len bufs) 0 (snd_lbb p + wv_pos v) 0;
              match seg with
              | None => mret None
              | Some seg =>
                  write_phase3 fuel p arg data apiflags (queue ++ [seg])
                    (v <| wv_oversize := oversize |> <| wv_queuelen := queuelen |> <| wv_pos ::= λ n, u16 (n + seglen) |>)
              end
        end
      else mret (Some (v, queue))
  end.

(** The bytes of phase 1 go behind the data of the last buffer. *)
Definition fill_room (src : list Z) (b : tbuf) : result tbuf :=
  if zlen src <=? tb_room b then Ok (b <| tb_data ::= λ d, d ++ src |> <| tb_room ::= λ n, n - zlen src |>)
  else Fail OutOfBounds.

Definition extend_chain (src : list Z) (bufs : list tbuf) : result (list tbuf) :=
  match list.last bufs with
  | None => Ok bufs
  | Some b => b ← fill_room src b; Ok (update_last (λ _, b) bufs)
  end.

(** The last unsent segment with what phases 1 and 2 found. *)
Definition commit_last (data : list Z) (ext : extension) (v : write_vars) (last : tcp_seg) : result tcp_seg :=
  bufs ← seg_bufs last;
  let used := wv_used v in
  bufs ← (if used >? 0 then extend_chain (take (Z.to_nat used) data) bufs else Ok bufs);
  let last := last <| seg_len ::= λ n, u16 (n + used) |> in
  match ext with
  | NoExtension => Ok (last <| seg_p := Some bufs |>)
  | Concat b => Ok (last <| seg_p := Some (bufs ++ [b]) |> <| seg_len ::= λ n, u16 (n + tb_len b) |>)
  | Extend n =>
      Ok (last <| seg_p := Some (update_last (λ b, b <| tb_data ::= λ d, d ++ take (Z.to_nat n) data |>) bufs) |>
        <| seg_len ::= λ m, u16 (m + n) |>)
  end.

Definition write_memerr : TCP Z :=
  on_pcb (set_flag TF_NAGLEMEMERR);;
  p ← gets pcb;
  LWIP_ASSERT ((snd_queuelen p =? 0) || valid_queues p);;
  mret ERR_MEM.

Definition PSH_last (apiflags : Z) (s : tcp_seg) : tcp_seg :=
  if has apiflags TCP_WRITE_FLAG_MORE then s else s <| seg_hdr ::= TCPH_SET_FLAG TCP_PSH |>.

(** [touched]: whether phase 1 or 2 looked at the last segment as one to
    change. *)
Definition write_commit (data : list Z) (apiflags : Z) (touched : bool) (ext : extension) (queue : list tcp_seg)
    (v : write_vars) : TCP Z :=
  p ← gets pcb;
  last ← (match list.last (unsent p) with
          | None => mret []
          | Some last => last ← lift (commit_last data ext v last); mret [last]
          end);
  let last := if bool_decide (queue = []) && touched then PSH_last apiflags <$> last else last in
  let queue := update_last (PSH_last apiflags) queue in
  on_pcb (λ p, p <| unsent_oversize := wv_oversize v |>
    <| unsent := take (length (unsent p) - 1) (unsent p) ++ last ++ queue |>
    <| snd_lbb ::= λ n, u32 (n + zlen data) |> <| snd_buf ::= λ n, u16 (n - zlen data) |>
    <| snd_queuelen := wv_queuelen v |>);;
  p ← gets pcb;
  LWIP_ASSERT ((snd_queuelen p =? 0) || valid_queues p);;
  mret ERR_OK.

(** Phases 1 and 2, and whether they set [seg]. *)
Definition write_tail (p : tcp_pcb) (arg : Z) (data : list Z) (apiflags : Z) :
    TCP (option (write_vars * extension * bool)) :=
  match list.last (unsent p) with
  | None =>
      LWIP_ASSERT (unsent_oversize p =? 0);;
      mret (Some (mk_vars 0 0 0 0 (snd_queuelen p), NoExtension, false))
  | Some last =>
      v ← write_phase1 p last (zlen data);
      r ← write_phase2 p last arg data apiflags v;
      mret ((λ r, (r, (unsent_oversize p >? 0) || negb (match r.2 with NoExtension => true | _ => false end))) <$> r)
  end.

(** [arg] is the address of the data, [None] the null pointer, which
    [LWIP_ERROR] stops at. *)
Definition tcp_write (arg : option Z) (data : list Z) (apiflags : Z) : TCP Z :=
  match arg with
  | None => fail AssertFailure
  | Some arg =>
      err ← tcp_write_checks (zlen data);
      if negb (err =? ERR_OK) then mret err
      else
        p ← gets pcb;
        r ← write_tail p arg data apiflags;
        match r with
        | None => write_memerr
        | Some (v, ext, touched) =>
            r ← write_phase3 (S (Z.to_nat TCP_SND_QUEUELEN)) p arg data apiflags [] v;
            match r with
            | None => write_memerr
            | Some (v, queue) => write_commit data apiflags touched ext queue v
            end
        end
  end.

(** * Sending *)

(** The Nagle algorithm. *)
Definition tcp_do_output_nagle (p : tcp_pcb) : bool :=
  bool_decide (unacked p = []) || has (pcb_flags p) (Z.lor TF_NODELAY TF_INFR) ||
  match unsent p with [] => false | [seg] => seg_len seg >=? mss p | _ => true end ||
  (snd_buf p =? 0) || (snd_queuelen p >=? TCP_SND_QUEUELEN).

(** The segment with its header filled in, and what IP returns. *)
Definition tcp_output_segment (seg : tcp_seg) : TCP (tcp_seg * Z) :=
  busy ← ask netif_busy;
  if busy : bool then mret (seg, ERR_OK)
  else
    bufs ← lift (seg_bufs seg);
    p ← gets pcb;
    let seg := seg <| seg_hdr ::= λ h, h <| h_ackno := rcv_nxt p |> <| h_wnd := rcv_ann_wnd p |> |> in
    on_pcb (λ p, p <| rcv_ann_right_edge := u32 (rcv_nxt p + rcv_ann_wnd p) |>);;
    opts ← (if has (seg_flags seg) TF_SEG_OPTS_MSS then
              mss ← tcp_eff_send_mss TCP_MSS (remote_ip p);
              mret [2; 4; u8 (Z.shiftr mss 8); u8 mss]
            else mret []);
    on_pcb (λ p, if rtime p <? 0 then p <| rtime := 0 |> else p);;
    ticks ← gets tcp_ticks;
    on_pcb (λ p, if rttest p =? 0 then p <| rttest := ticks |> <| rtseq := seqno_of seg |> else p);;
    err ← ip_output (mk_packet (local_ip p) (remote_ip p) (ttl p) (tos p) (seg_hdr seg) opts (bytes bufs));
    mret (seg, err).

(** The end of the queue stays the end where the segment goes elsewhere. *)
Definition queue_unacked (seg : tcp_seg) (l : list tcp_seg) : list tcp_seg :=
  match list.last l with
  | None => [seg]
  | Some useg => if TCP_SEQ_LT (seqno_of seg) (seqno_of useg) then insert_sorted seg l else l ++ [seg]
  end.

(** The head of the queue was sent. *)
Definition segment_sent (seg : tcp_seg) (rest : list tcp_seg) (p : tcp_pcb) : tcp_pcb :=
  let p := p <| unsent := rest |> in
  let p := if bool_decide (state p ≠ SYN_SENT) then clear_flag (Z.lor TF_ACK_DELAY TF_ACK_NOW) p else p in
  let next := u32 (seqno_of seg + TCP_TCPLEN seg) in
  let p := if TCP_SEQ_LT (snd_nxt p) next then p <| snd_nxt := next |> else p in
  if TCP_TCPLEN seg >? 0 then p <| unacked ::= queue_unacked seg |> else p.

(** Whether a segment does not fit into the window. *)
Definition beyond_window (p : tcp_pcb) (wnd : Z) (seg : tcp_seg) : bool :=
  u32 (seqno_of seg - lastack p + seg_len seg) >? wnd.

Definition output_done : TCP Z :=
  on_pcb (λ p, if bool_decide (unsent p = []) then p <| unsent_oversize := 0 |> else p);;
  on_pcb (clear_flag TF_NAGLEMEMERR);;
  mret ERR_OK.

(** [l] is the unsent queue. *)
Fixpoint output_loop (wnd : Z) (l : list tcp_seg) : TCP Z :=
  p ← gets pcb;
  match l with
  | [] => output_done
  | seg :: rest =>
      if beyond_window p wnd seg then output_done
      else
        LWIP_ASSERT (negb (has (TCPH_FLAGS (seg_hdr seg)) TCP_RST));;
        if negb (tcp_do_output_nagle p) && negb (has (pcb_flags p) (Z.lor TF_NAGLEMEMERR TF_FIN)) then output_done
        else
          let seg := if bool_decide (state p ≠ SYN_SENT) then seg <| seg_hdr ::= TCPH_SET_FLAG TCP_ACK |> else seg in
          r ← tcp_output_segment seg;
          if negb (r.2 =? ERR_OK) then
            on_pcb (λ p, set_flag TF_NAGLEMEMERR (p <| unsent := r.1 :: rest |>));; mret r.2
          else on_pcb (segment_sent r.1 rest);; output_loop wnd rest
  end.

Definition tcp_output : TCP Z :=
  p ← gets pcb;
  LWIP_ASSERT (bool_decide (state p ≠ LISTEN));;
  processing ← gets tcp_input_pcb;
  if processing : bool then mret ERR_OK
  else
    let wnd := Z.min (snd_wnd p) (cwnd p) in
    let blocked := match unsent p with [] => true | seg :: _ => beyond_window p wnd seg end in
    if has (pcb_flags p) TF_ACK_NOW && blocked then tcp_send_empty_ack
    else
      netif ← ask ip_route;
      if negb netif then mret ERR_RTE
      else
        ip ← (if ip_addr_isany (local_ip p) then ask netif_ip else mret (Some (local_ip p)));
        match ip with
        | None => mret ERR_RTE
        | Some ip =>
            on_pcb (λ p, p <| local_ip := ip |>);;
            if negb (bool_decide (unsent p = [])) && blocked &&
               (wnd >? 0) && (wnd =? snd_wnd p) && bool_decide (unacked p = []) then
              on_pcb (λ p, if persist_backoff p =? 0 then p <| persist_cnt := 0 |> <| persist_backoff := 1 |> else p);;
              output_done
            else output_loop wnd (unsent p)
        end.

(** * Retransmission *)

Definition rexmit_started (p : tcp_pcb) : tcp_pcb :=
  (if nrtx p <? 255 then p <| nrtx ::= λ n, n + 1 |> else p) <| rttest := 0 |>.

Definition tcp_rexmit_rto : TCP () :=
  p ← gets pcb;
  if bool_decide (unacked p = []) then mret ()
  else
    on_pcb (λ p, p <| unsent := unacked p ++ unsent p |> <| unacked := [] |>);;
    on_pcb rexmit_started;;
    _ ← tcp_output; mret ().

Definition tcp_rexmit (p : tcp_pcb) : tcp_pcb :=
  match unacked p with
  | [] => p
  | seg :: rest =>
      let last_one := forallb (λ cur, TCP_SEQ_LT (seqno_of cur) (seqno_of seg)) (unsent p) in
      rexmit_started (p <| unacked := rest |> <| unsent ::= insert_sorted seg |>
        <| unsent_oversize := if last_one then 0 else unsent_oversize p |>)
  end.

Definition tcp_rexmit_fast (p : tcp_pcb) : tcp_pcb :=
  if negb (bool_decide (unacked p = [])) && negb (has (pcb_flags p) TF_INFR) then
    let p := tcp_rexmit p in
    let half := Z.min (cwnd p) (snd_wnd p) / 2 in
    let ss := if half <? 2 * mss p then u16 (2 * mss p) else half in
    set_flag TF_INFR (p <| ssthresh := ss |> <| cwnd := u16 (ss + 3 * mss p) |> <| rtime := 0 |>)
  else p.

End Out.
