(* ===== verification/LwipTcpApi.v ===== *)
(** TCP of lwIP, the life of a connection: the calls of the application and the
    timers of [lwip/src/core/tcp.c], for one connection.

    Listening control blocks are another structure, in [LwipTcpPcbs]; what a SYN
    does is in [LwipTcpProcess].  The callbacks of the application are
    parameters; a callback that frees the connection must return [ERR_ABRT],
    otherwise the caller goes on with freed memory, the fault [InvalidFree]. *)
From S2P Require Import Prelude.
From S2P Require Import LwipTcp.
From S2P Require Import LwipTcpOut.

Definition TCP_SLOW_INTERVAL : Z := 500.
Definition TCP_FIN_WAIT_TIMEOUT : Z := 20000.
Definition TCP_SYN_RCVD_TIMEOUT : Z := 20000.
Definition TCP_OOSEQ_TIMEOUT : Z := 6.
Definition TCP_MSL : Z := 60000.
Definition TCP_KEEPIDLE_DEFAULT : Z := 7200000.
Definition TCP_KEEPINTVL_DEFAULT : Z := 75000.
Definition TCP_KEEPCNT_DEFAULT : Z := 9.
Definition TCP_MAXIDLE : Z := TCP_KEEPCNT_DEFAULT * TCP_KEEPINTVL_DEFAULT.
Definition SOF_KEEPALIVE : Z := 8.
Definition tcp_backoff : list Z := [1; 2; 3; 4; 5; 6; 7; 7; 7; 7; 7; 7; 7].
Definition tcp_persist_backoff : list Z := [3; 6; 12; 24; 48; 96; 120].

(** The function the [recv] field has at first. *)
Definition tcp_recv_null_id : positive := 1.

(** What [tcp_alloc] makes of a block of memory. *)
Definition fresh_pcb (prio ticks timer_ctr : Z) : tcp_pcb :=
  mk_pcb [0; 0; 0; 0] [0; 0; 0; 0] 0 0 TCP_TTL CLOSED prio 0 [0; 0; 0] 0 0 0 0 0 timer_ctr ticks 0 TCP_WND TCP_WND 0
    (-1) TCP_MSS 0 0 0 (3000 / TCP_SLOW_INTERVAL) (3000 / TCP_SLOW_INTERVAL) 0 0 0 1 TCP_SND_BUF 0 0 0 0 0 0
    TCP_SND_BUF 0 0 [] [] [] None None None (Some tcp_recv_null_id) None None None TCP_KEEPIDLE_DEFAULT 0 0 0.

Section Api.
Context `{TcpEnv}.

(** ** The application *)

(** [recv] with data and with the null pointer, [errf], [poll]. *)
Variable app_recv : option (list tbuf) → TCP Z.
Variable app_err : Z → TCP ().

(** A callback may free the connection only if it says so. *)
Definition checked (m : TCP Z) : TCP Z :=
  err ← m; gone ← gets freed; if gone && negb (err =? ERR_ABRT) then fail InvalidFree else mret err.

Definition TCP_EVENT_ERR (errf : option positive) (err : Z) : TCP () :=
  match errf with Some _ => app_err err | None => mret () end.

(** ** Lists *)

Definition TCP_REG (l : pcb_list) : TCP () := modify (λ s, s <| on_list := l |>).
Definition TCP_RMV (l : pcb_list) : TCP () :=
  modify (λ s, s <| on_list ::= λ k, if bool_decide (k = l) then NoList else k |>).
Definition memp_free_pcb : TCP () :=
  gone ← gets freed; if gone : bool then fail InvalidFree else modify (λ s, s <| freed := true |>).

Definition tcp_pcb_purge (p : tcp_pcb) : tcp_pcb :=
  if bool_decide (state p ∈ [CLOSED; TIME_WAIT; LISTEN]) then p
  else p <| refused_data := None |> <| ooseq := [] |> <| rtime := -1 |> <| unsent := [] |> <| unacked := [] |>
         <| unsent_oversize := 0 |>.

Definition tcp_pcb_remove (l : pcb_list) : TCP () :=
  TCP_RMV l;;
  on_pcb tcp_pcb_purge;;
  p ← gets pcb;
  (if negb (bool_decide (state p ∈ [TIME_WAIT; LISTEN])) && has (pcb_flags p) TF_ACK_DELAY then
     on_pcb (set_flag TF_ACK_NOW);; _ ← tcp_output; mret ()
   else mret ());;
  p ← gets pcb;
  LWIP_ASSERT (bool_decide (state p = LISTEN) ||
    (bool_decide (unsent p = []) && bool_decide (unacked p = []) && bool_decide (ooseq p = [])));;
  on_pcb (λ p, p <| state := CLOSED |> <| local_port := 0 |>).

(** ** Aborting *)

Definition tcp_abandon (reset : bool) : TCP () :=
  p ← gets pcb;
  LWIP_ASSERT (bool_decide (state p ≠ LISTEN));;
  if bool_decide (state p = TIME_WAIT) then tcp_pcb_remove TwPcbs;; memp_free_pcb
  else
    (if bool_decide (state p = CLOSED) then if local_port p =? 0 then mret () else TCP_RMV BoundPcbs
     else tcp_pcb_remove ActivePcbs);;
    p1 ← gets pcb;
    (if reset && negb (bool_decide (state p = CLOSED)) then
       tcp_rst (snd_nxt p) (rcv_nxt p) (local_ip p1) (remote_ip p1) (local_port p) (remote_port p1)
     else mret ());;
    memp_free_pcb;;
    TCP_EVENT_ERR (cb_errf p) ERR_ABRT.

Definition tcp_abort : TCP () := tcp_abandon true.

(** ** Closing *)

Definition tcp_trigger_input_pcb_close : TCP () := modify (λ s, s <| recv_flags ::= λ f, Z.lor f TF_CLOSED |>).

Definition fin_sent (next : tcp_state) : TCP Z :=
  err ← tcp_send_fin;
  if err =? ERR_OK then
    on_pcb (λ p, p <| state := next |>);; _ ← tcp_output; mret err
  else if err =? ERR_MEM then on_pcb (set_flag TF_CLOSEPEND);; mret ERR_OK
  else mret err.

Definition tcp_close_shutdown_fin : TCP Z :=
  p ← gets pcb;
  match state p with
  | SYN_RCVD | ESTABLISHED => fin_sent FIN_WAIT_1
  | CLOSE_WAIT => fin_sent LAST_ACK
  | _ => mret ERR_OK
  end.

(** The application did not take all that was received: tell the peer. *)
Definition close_with_reset : TCP Z :=
  p ← gets pcb;
  LWIP_ASSERT (has (pcb_flags p) TF_RXCLOSED);;
  tcp_rst (snd_nxt p) (rcv_nxt p) (local_ip p) (remote_ip p) (local_port p) (remote_port p);;
  on_pcb tcp_pcb_purge;;
  TCP_RMV ActivePcbs;;
  (if bool_decide (state p = ESTABLISHED) then on_pcb (λ p, p <| state := TIME_WAIT |>);; TCP_REG TwPcbs
   else
     processing ← gets tcp_input_pcb;
     if processing : bool then tcp_trigger_input_pcb_close else memp_free_pcb);;
  mret ERR_OK.

Definition tcp_close_shutdown (rst_on_unacked_data : bool) : TCP Z :=
  p ← gets pcb;
  if rst_on_unacked_data && bool_decide (state p ∈ [ESTABLISHED; CLOSE_WAIT]) &&
     (bool_decide (is_Some (refused_data p)) || negb (rcv_wnd p =? TCP_WND))
  then close_with_reset
  else
    match state p with
    | CLOSED => (if (local_port p =? 0) && (bound_to_netif p =? 0) then mret () else TCP_RMV BoundPcbs);;
        memp_free_pcb;; mret ERR_OK
    | SYN_SENT => tcp_pcb_remove ActivePcbs;; memp_free_pcb;; mret ERR_OK
    | _ => tcp_close_shutdown_fin
    end.

Definition tcp_close : TCP Z := on_pcb (set_flag TF_RXCLOSED);; tcp_close_shutdown true.

Definition tcp_shutdown (shut_rx shut_tx : bool) : TCP Z :=
  p ← gets pcb;
  if bool_decide (state p = LISTEN) then mret ERR_CONN
  else
    (if shut_rx then on_pcb (set_flag TF_RXCLOSED) else mret ());;
    if shut_rx && shut_tx then tcp_close_shutdown true
    else
      (if shut_rx then on_pcb (λ p, p <| refused_data := None |>) else mret ());;
      if shut_tx then
        if bool_decide (state p ∈ [SYN_RCVD; ESTABLISHED; CLOSE_WAIT]) then tcp_close_shutdown shut_rx
        else mret ERR_CONN
      else mret ERR_OK.

(** ** Received data *)

Definition tcp_recved (len : Z) : TCP () :=
  p ← gets pcb;
  LWIP_ASSERT (bool_decide (state p ≠ LISTEN));;
  let wnd := u16 (rcv_wnd p + len) in
  wnd ← (if wnd >? TCP_WND then mret TCP_WND
         else if wnd =? 0 then
           if bool_decide (state p ∈ [CLOSE_WAIT; LAST_ACK]) then mret TCP_WND else fail AssertFailure
         else mret wnd);
  on_pcb (λ p, p <| rcv_wnd := wnd |>);;
  wnd_inflation ← update_rcv_ann_wnd;
  if s32 wnd_inflation >=? TCP_WND_UPDATE_THRESHOLD then on_pcb tcp_ack_now;; _ ← tcp_output; mret () else mret ().

(** The callback for data, with the one lwIP installs where the application
    has none. *)
Definition tcp_recv_null (data : option (list tbuf)) (err : Z) : TCP Z :=
  match data with
  | Some p => tcp_recved (u16 (tot_len p));; mret ERR_OK
  | None => if err =? ERR_OK then tcp_close else mret ERR_OK
  end.

Definition TCP_EVENT_RECV (data : list tbuf) : TCP Z :=
  p ← gets pcb;
  checked (match cb_recv p with
           | Some f => if (f =? tcp_recv_null_id)%positive then tcp_recv_null (Some data) ERR_OK else app_recv (Some data)
           | None => tcp_recv_null (Some data) ERR_OK
           end).

Definition TCP_EVENT_CLOSED : TCP Z :=
  p ← gets pcb;
  checked (match cb_recv p with
           | Some f => if (f =? tcp_recv_null_id)%positive then tcp_recv_null None ERR_OK else app_recv None
           | None => mret ERR_OK
           end).

(** The application will not call [tcp_recved] for the FIN. *)
Definition count_fin (p : tcp_pcb) : tcp_pcb := if rcv_wnd p =? TCP_WND then p else p <| rcv_wnd ::= λ n, u16 (n + 1) |>.

Definition tcp_process_refused_data : TCP Z :=
  p ← gets pcb;
  match refused_data p with
  | None => fail NullPointer
  | Some data =>
      on_pcb (λ p, p <| refused_data := None |>);;
      err ← TCP_EVENT_RECV data;
      if err =? ERR_OK then
        if existsb (λ b, has (tb_flags b) PBUF_FLAG_TCP_FIN) (take 1 data) then
          on_pcb count_fin;;
          err ← TCP_EVENT_CLOSED;
          mret (if err =? ERR_ABRT then ERR_ABRT else ERR_OK)
        else mret ERR_OK
      else if err =? ERR_ABRT then mret ERR_ABRT
      else on_pcb (λ p, p <| refused_data := Some data |>);; mret ERR_INPROGRESS
  end.

End Api.
