(* ===== verification/LwipTcpIn.v ===== *)
(** TCP of lwIP, receiving: [lwip/src/core/tcp_in.c] from the point where the
    segment has been matched with a connection.  [tcp_receive] is cut at its
    comments into acknowledgements and data. *)
From S2P Require Import Prelude.
From S2P Require Import LwipTcp.
From S2P Require Import LwipTcpOut.
From S2P Require Import LwipTcpApi.

(** * Acknowledgements *)

(** The window of the peer, from a segment that is new enough. *)
Definition update_snd_wnd (seqno ackno wnd : Z) (p : tcp_pcb) : tcp_pcb :=
  if TCP_SEQ_LT (snd_wl1 p) seqno || ((snd_wl1 p =? seqno) && TCP_SEQ_LT (snd_wl2 p) ackno) ||
     ((snd_wl2 p =? ackno) && (wnd >? snd_wnd p)) then
    let p := p <| snd_wnd := wnd |> <| snd_wnd_max ::= Z.max wnd |> <| snd_wl1 := seqno |> <| snd_wl2 := ackno |> in
    if wnd =? 0 then
      if persist_backoff p =? 0 then p <| persist_cnt := 0 |> <| persist_backoff := 1 |> else p
    else if persist_backoff p >? 0 then p <| persist_backoff := 0 |> else p
  else p.

(** An acknowledgement of nothing new. *)
Definition ack_old (ackno tcplen right_wnd_edge : Z) (p : tcp_pcb) : tcp_pcb :=
  if (tcplen =? 0) && (u32 (snd_wl2 p + snd_wnd p) =? right_wnd_edge) && (rtime p >=? 0) && (lastack p =? ackno) then
    let p := if u8 (dupacks p + 1) >? dupacks p then p <| dupacks ::= λ n, n + 1 |> else p in
    if dupacks p >? 3 then
      if u16 (cwnd p + mss p) >? cwnd p then p <| cwnd ::= λ n, u16 (n + mss p) |> else p
    else if dupacks p =? 3 then tcp_rexmit_fast p else p
  else p <| dupacks := 0 |>.

(** An acknowledgement of something new: the timers and the congestion window. *)
Definition ack_new (ackno : Z) (p : tcp_pcb) : result tcp_pcb :=
  let p := if has (pcb_flags p) TF_INFR then clear_flag TF_INFR p <| cwnd := ssthresh p |> else p in
  let p := p <| nrtx := 0 |> <| rto := s16 (Z.shiftr (sa p) 3 + sv p) |> <| dupacks := 0 |> <| lastack := ackno |> in
  if state_num (state p) >=? state_num ESTABLISHED then
    if cwnd p <? ssthresh p then
      Ok (if u16 (cwnd p + mss p) >? cwnd p then p <| cwnd ::= λ n, u16 (n + mss p) |> else p)
    else if cwnd p =? 0 then Fail DivisionByZero
    else
      let new_cwnd := u16 (cwnd p + mss p * mss p / cwnd p) in
      Ok (if new_cwnd >? cwnd p then p <| cwnd := new_cwnd |> else p)
  else Ok p.

(** The end of a segment in sequence space. *)
Definition seg_end (s : tcp_seg) : Z := u32 (seqno_of s + TCP_TCPLEN s).

(** A segment at the head of a queue was acknowledged; [p] is without it. *)
Definition free_acked (seg : tcp_seg) (p : tcp_pcb) (acked : Z) : result (tcp_pcb * Z) :=
  let clen := match seg_p seg with Some bufs => u16 (pbuf_clen bufs) | None => 0 end in
  if negb (snd_queuelen p >=? clen) then Fail AssertFailure
  else
    let p := p <| snd_queuelen ::= λ n, n - clen |> in
    if (snd_queuelen p =? 0) || valid_queues p then Ok (p, u16 (acked + seg_len seg)) else Fail AssertFailure.

(** The loops over the two queues; [l] is the queue. *)
Fixpoint free_unacked (ackno : Z) (l : list tcp_seg) (p : tcp_pcb) (acked : Z) : result (tcp_pcb * Z) :=
  match l with
  | [] => Ok (p, acked)
  | seg :: l =>
      if TCP_SEQ_LEQ (seg_end seg) ackno then
        r ← free_acked seg (p <| unacked := l |>) acked; free_unacked ackno l r.1 r.2
      else Ok (p, acked)
  end.

Fixpoint free_unsent (ackno : Z) (l : list tcp_seg) (p : tcp_pcb) (acked : Z) : result (tcp_pcb * Z) :=
  match l with
  | [] => Ok (p, acked)
  | seg :: l =>
      if TCP_SEQ_BETWEEN ackno (seg_end seg) (snd_nxt p) then
        let p := p <| unsent := l |> in
        let p := if bool_decide (l = []) then p <| unsent_oversize := 0 |> else p in
        r ← free_acked seg p acked; free_unsent ackno l r.1 r.2
      else Ok (p, acked)
  end.

(** The round-trip time, from the segment that was being timed. *)
Definition estimate_rtt (ackno ticks : Z) (p : tcp_pcb) : tcp_pcb :=
  if negb (rttest p =? 0) && TCP_SEQ_LT (rtseq p) ackno then
    let m := s16 (ticks - rttest p) in
    let m := s16 (m - Z.shiftr (sa p) 3) in
    let sa' := s16 (sa p + m) in
    let m := if m <? 0 then s16 (- m) else m in
    let m := s16 (m - Z.shiftr (sv p) 2) in
    let sv' := s16 (sv p + m) in
    p <| sa := sa' |> <| sv := sv' |> <| rto := s16 (Z.shiftr sa' 3 + sv') |> <| rttest := 0 |>
  else p.

(** * Data *)

Definition is_fin (s : tcp_seg) : bool := has (TCPH_FLAGS (seg_hdr s)) TCP_FIN.
Definition is_syn (s : tcp_seg) : bool := has (TCPH_FLAGS (seg_hdr s)) TCP_SYN.
Definition set_fin (s : tcp_seg) : tcp_seg := s <| seg_hdr ::= TCPH_SET_FLAG TCP_FIN |>.
Definition clear_fin (s : tcp_seg) : tcp_seg :=
  s <| seg_hdr ::= λ h, TCPH_FLAGS_SET (unset (TCPH_FLAGS h) TCP_FIN) h |>.

(** [seg->len = n; pbuf_realloc(seg->p, seg->len)] *)
Definition trim_end (n : Z) (s : tcp_seg) : result tcp_seg :=
  bufs ← seg_bufs s; Ok (s <| seg_len := u16 n |> <| seg_p := Some (pbuf_realloc bufs (u16 n)) |>).

(** The buffers without their first [off] bytes: buffers before them are left
    empty, so that the first one, with the header, can be freed. *)
Fixpoint skip_front (bufs : list tbuf) (off : Z) : result (list tbuf) :=
  match bufs with
  | [] => Fail NullPointer
  | b :: bufs =>
      if tb_len b <? off then rest ← skip_front bufs (off - tb_len b); Ok (b <| tb_data := [] |> :: rest)
      else Ok (hide_front off b :: bufs)
  end.

(** The segment without what was received before. *)
Definition trim_start (nxt seqno : Z) (s : tcp_seg) : result tcp_seg :=
  match seg_p s with
  | None => Fail AssertFailure
  | Some bufs =>
      let off := s32 (nxt - seqno) in
      if negb (off <? 32767) then Fail AssertFailure
      else if existsb (λ b, tb_len b <? off) (take 1 bufs) && negb (tot_len bufs >=? off) then Fail AssertFailure
      else
        bufs ← skip_front bufs off;
        Ok (s <| seg_p := Some bufs |> <| seg_len ::= λ n, u16 (n - u16 (nxt - seqno)) |>
          <| seg_hdr ::= λ h, h <| h_seqno := nxt |> |>)
  end.

(** The segments of the queue that a segment covers are dropped; their FIN is
    taken over. *)
Fixpoint drop_covered (seqno : Z) (cseg : tcp_seg) (l : list tcp_seg) : tcp_seg * list tcp_seg :=
  match l with
  | [] => (cseg, [])
  | next :: rest =>
      if TCP_SEQ_GEQ (seqno + seg_len cseg) (seqno_of next + seg_len next) then
        drop_covered seqno (if is_fin next then set_fin cseg else cseg) rest
      else (cseg, l)
  end.

(** The list from the new segment on. *)
Definition tcp_oos_insert_segment (seqno : Z) (cseg : tcp_seg) (next : list tcp_seg) : result (list tcp_seg) :=
  if is_fin cseg then Ok [cseg]
  else
    let r := drop_covered seqno cseg next in
    match r.2 with
    | [] => Ok [r.1]
    | next :: _ =>
        if TCP_SEQ_GT (seqno + seg_len r.1) (seqno_of next) then
          cseg ← trim_end (seqno_of next - seqno) r.1; Ok (cseg :: r.2)
        else Ok (r.1 :: r.2)
    end.

(** The same for the segment that is next in sequence, by its length in
    sequence space. *)
Fixpoint prune_ooseq (seqno tcplen : Z) (cseg : tcp_seg) (l : list tcp_seg) : Z * tcp_seg * list tcp_seg :=
  match l with
  | [] => (tcplen, cseg, [])
  | next :: rest =>
      if TCP_SEQ_GEQ (seqno + tcplen) (seqno_of next + seg_len next) then
        if is_fin next && negb (is_syn cseg) then
          let cseg := set_fin cseg in prune_ooseq seqno (u16 (TCP_TCPLEN cseg)) cseg rest
        else prune_ooseq seqno tcplen cseg rest
      else (tcplen, cseg, l)
  end.

(** The buffers of a segment, if they hold data, go to the application, behind
    those that are there. *)
Definition has_data (s : tcp_seg) : bool := match seg_p s with Some bufs => tot_len bufs >? 0 | None => false end.
Definition deliver (s : tcp_seg) (data : option (list tbuf)) : option (list tbuf) :=
  if has_data s then match data with Some d => (λ bufs, d ++ bufs) <$> seg_p s | None => seg_p s end else data.

Section In.
Context `{TcpEnv}.

(** ** [tcp_receive]: acknowledgements *)

(** Something new is acknowledged: the segments that are leave the queue. *)
Definition ack_segments (ack : Z) : TCP () :=
  p ← gets pcb; acked ← gets recv_acked;
  p ← lift (ack_new ack p);
  r ← lift (free_unacked ack (unacked p) p acked);
  on_pcb (λ _, r.1 <| rtime := if bool_decide (unacked r.1 = []) then -1 else 0 |> <| polltmr := 0 |>);;
  modify (λ s, s <| recv_acked := r.2 |>).

(** So do those that wait to be sent again. *)
Definition ack_unsent (ack : Z) : TCP () :=
  p ← gets pcb; acked ← gets recv_acked;
  r ← lift (free_unsent ack (unsent p) p acked);
  ticks ← gets tcp_ticks;
  on_pcb (λ _, estimate_rtt ack ticks (r.1 <| snd_buf ::= λ n, u16 (n + r.2) |>));;
  modify (λ s, s <| recv_acked := r.2 |>).

Definition receive_ack : TCP () :=
  p ← gets pcb; n ← gets seqno; ack ← gets ackno; len ← gets tcplen; seg ← gets inseg;
  let right_wnd_edge := u32 (snd_wnd p + snd_wl2 p) in
  on_pcb (update_snd_wnd n ack (h_wnd (seg_hdr seg)));;
  (if TCP_SEQ_LEQ ack (lastack p) then on_pcb (ack_old ack len right_wnd_edge)
   else if TCP_SEQ_BETWEEN ack (lastack p + 1) (snd_nxt p) then ack_segments ack
   else _ ← tcp_send_empty_ack; mret ());;
  ack_unsent ack.

(** ** [tcp_receive]: the segment that is next in sequence *)

(** It is cut at the end of the window. *)
Definition trim_to_window (wnd : Z) (s : tcp_seg) : result tcp_seg :=
  if TCP_TCPLEN s >? wnd then
    let s := if is_fin s then clear_fin s else s in
    s ← trim_end (if is_syn s then wnd - 1 else wnd) s;
    if TCP_TCPLEN s =? wnd then Ok s else Fail AssertFailure
  else Ok s.

(** The part of the queue it overlaps is dropped, or it is cut at the queue. *)
Definition merge_ooseq (seqno : Z) (s : tcp_seg) (l : list tcp_seg) : result (tcp_seg * list tcp_seg) :=
  if is_fin s then Ok (s, [])
  else
    let '(tcplen, s, l) := prune_ooseq seqno (u16 (TCP_TCPLEN s)) s l in
    match l with
    | [] => Ok (s, [])
    | next :: _ =>
        if TCP_SEQ_GT (seqno + tcplen) (seqno_of next) then
          let n := u16 (seqno_of next - seqno) in
          s ← trim_end (if is_syn s then n - 1 else n) s;
          if u32 (seqno + TCP_TCPLEN s) =? seqno_of next then Ok (s, l) else Fail AssertFailure
        else Ok (s, l)
    end.

(** [rcv_nxt] moves over [n] numbers of the window. *)
Definition advance (n : Z) : TCP () :=
  p ← gets pcb;
  LWIP_ASSERT (rcv_wnd p >=? n);;
  on_pcb (λ p, p <| rcv_wnd ::= λ w, w - n |>);;
  _ ← update_rcv_ann_wnd; mret ().

Definition got_fin : TCP () := modify (λ s, s <| recv_flags ::= λ f, Z.lor f TF_GOT_FIN |>).

(** Segments of the queue that are next now; [l] is the queue. *)
Fixpoint dequeue_ooseq (l : list tcp_seg) : TCP () :=
  match l with
  | [] => mret ()
  | cseg :: rest =>
      p ← gets pcb;
      if seqno_of cseg =? rcv_nxt p then
        modify (λ s, s <| seqno := seqno_of cseg |>);;
        on_pcb (λ p, p <| rcv_nxt ::= λ n, u32 (n + TCP_TCPLEN cseg) |>);;
        advance (TCP_TCPLEN cseg);;
        modify (λ s, s <| recv_data ::= deliver cseg |>);;
        (if is_fin cseg then
           got_fin;; on_pcb (λ p, if bool_decide (state p = ESTABLISHED) then p <| state := CLOSE_WAIT |> else p)
         else mret ());;
        on_pcb (λ p, p <| ooseq := rest |>);;
        dequeue_ooseq rest
      else mret ()
  end.

Definition receive_in_sequence : TCP () :=
  p ← gets pcb; n ← gets seqno; seg ← gets inseg;
  seg ← lift (trim_to_window (rcv_wnd p) seg);
  r ← lift (merge_ooseq n seg (ooseq p));
  let len := u16 (TCP_TCPLEN r.1) in
  modify (λ s, s <| inseg := r.1 |> <| tcplen := len |>);;
  on_pcb (λ p, p <| ooseq := r.2 |> <| rcv_nxt := u32 (n + len) |>);;
  advance len;;
  (if has_data r.1 then modify (λ s, s <| recv_data := seg_p r.1 |> <| inseg := r.1 <| seg_p := None |> |>)
   else mret ());;
  (if is_fin r.1 then got_fin else mret ());;
  p ← gets pcb;
  dequeue_ooseq (ooseq p);;
  on_pcb tcp_ack.

(** ** [tcp_receive]: a segment out of sequence *)

(** [tcp_seg_copy(&inseg)]: the copy refers to the same buffers, which the
    caller gives up afterwards. *)
Definition tcp_seg_copy : TCP (option tcp_seg) :=
  mem ← ask seg_mem; seg ← gets inseg; mret (if mem : bool then Some seg else None).

(** Before [next], after [prev]; both ends that overlap are cut. *)
Definition oos_insert (prev : option tcp_seg) (next : list tcp_seg) : TCP (option tcp_seg * list tcp_seg) :=
  cseg ← tcp_seg_copy; n ← gets seqno;
  match cseg with
  | None => mret (prev, next)
  | Some cseg =>
      prev ← lift (match prev with
                   | Some prev =>
                       if TCP_SEQ_GT (seqno_of prev + seg_len prev) n then
                         s ← trim_end (n - seqno_of prev) prev; Ok (Some s)
                       else Ok (Some prev)
                   | None => Ok None
                   end);
      l ← lift (tcp_oos_insert_segment n cseg next);
      mret (prev, l)
  end.

(** Behind the last segment; the new one is cut at the end of the window. *)
Definition oos_append (next : tcp_seg) : TCP (list tcp_seg) :=
  if is_fin next then mret [next]
  else
    cseg ← tcp_seg_copy; n ← gets seqno; p ← gets pcb; len ← gets tcplen;
    match cseg with
    | None => mret [next]
    | Some cseg =>
        next ← lift (if TCP_SEQ_GT (seqno_of next + seg_len next) n then trim_end (n - seqno_of next) next
                     else Ok next);
        if TCP_SEQ_GT (len + n) (rcv_nxt p + rcv_wnd p) then
          let cseg := if is_fin cseg then clear_fin cseg else cseg in
          cseg ← lift (trim_end (rcv_nxt p + rcv_wnd p - n) cseg);
          modify (λ s, s <| tcplen := u16 (TCP_TCPLEN cseg) |>);;
          LWIP_ASSERT (u32 (n + u16 (TCP_TCPLEN cseg)) =? u32 (rcv_nxt p + rcv_wnd p));;
          mret [next; cseg]
        else mret [next; cseg]
    end.

(** The walk along the queue: what becomes of the segment before the list and
    of the list. *)
Fixpoint oos_walk (prev : option tcp_seg) (l : list tcp_seg) : TCP (option tcp_seg * list tcp_seg) :=
  match l with
  | [] => mret (prev, [])
  | next :: rest =>
      seg ← gets inseg; n ← gets seqno;
      if n =? seqno_of next then
        if seg_len seg >? seg_len next then r ← oos_insert None l; mret (prev, r.2) else mret (prev, l)
      else if match prev with
              | None => TCP_SEQ_LT n (seqno_of next)
              | Some prev => TCP_SEQ_BETWEEN n (seqno_of prev + 1) (seqno_of next - 1)
              end then oos_insert prev l
      else if bool_decide (rest = []) && TCP_SEQ_GT n (seqno_of next) then l ← oos_append next; mret (prev, l)
      else
        r ← oos_walk (Some next) rest;
        mret (prev, match r.1 with Some next => next :: r.2 | None => r.2 end)
  end.

Definition receive_out_of_sequence : TCP () :=
  _ ← tcp_send_empty_ack;
  p ← gets pcb;
  if bool_decide (ooseq p = []) then
    cseg ← tcp_seg_copy;
    on_pcb (λ p, p <| ooseq := match cseg with Some cseg => [cseg] | None => [] end |>)
  else
    r ← oos_walk None (ooseq p);
    on_pcb (λ p, p <| ooseq := r.2 |>).

(** ** [tcp_receive] *)

Definition receive_data : TCP () :=
  p ← gets pcb; n ← gets seqno; len ← gets tcplen; seg ← gets inseg;
  (if TCP_SEQ_BETWEEN (rcv_nxt p) (n + 1) (n + len - 1) then
     seg ← lift (trim_start (rcv_nxt p) n seg);
     modify (λ s, s <| inseg := seg |> <| seqno := rcv_nxt p |>)
   else if TCP_SEQ_LT n (rcv_nxt p) then on_pcb tcp_ack_now else mret ());;
  n ← gets seqno;
  if TCP_SEQ_BETWEEN n (rcv_nxt p) (rcv_nxt p + rcv_wnd p - 1) then
    if rcv_nxt p =? n then receive_in_sequence else receive_out_of_sequence
  else _ ← tcp_send_empty_ack; mret ().

Definition tcp_receive : TCP () :=
  p ← gets pcb; f ← gets flags;
  LWIP_ASSERT (state_num (state p) >=? state_num ESTABLISHED);;
  (if has f TCP_ACK then receive_ack else mret ());;
  p ← gets pcb; len ← gets tcplen; n ← gets seqno;
  if (len >? 0) && (state_num (state p) <? state_num CLOSE_WAIT) then receive_data
  else if negb (TCP_SEQ_BETWEEN n (rcv_nxt p) (rcv_nxt p + rcv_wnd p - 1)) then on_pcb tcp_ack_now
  else mret ().

End In.
