(* ===== verification/LwipTcpProcess.v ===== *)
(** TCP of lwIP, the state machine: options, [tcp_process] and [tcp_input] of
    [lwip/src/core/tcp_in.c] for the connection of the state. *)
From S2P Require Import Prelude.
From S2P Require Import NetBytes.
From S2P Require Import LwipTcp.
From S2P Require Import LwipTcpOut.
From S2P Require Import LwipTcpApi.
From S2P Require Import LwipTcpIn.

Definition LWIP_TCP_OPT_EOL : Z := 0.
Definition LWIP_TCP_OPT_NOP : Z := 1.
Definition LWIP_TCP_OPT_MSS : Z := 2.
Definition LWIP_TCP_OPT_LEN_MSS : Z := 4.
Definition SOF_INHERITED : Z := Z.lor 4 SOF_KEEPALIVE.

Definition LWIP_TCP_CALC_INITIAL_CWND (mss : Z) : Z := Z.min (4 * mss) (Z.max (2 * mss) 4380).

(** The block [if (pcb != NULL)] of [tcp_input] up to its first test. *)
Definition start_input (seg : tcp_seg) (s : tcp) : tcp :=
  s <| inseg := seg |> <| recv_data := None |> <| recv_flags := 0 |> <| recv_acked := 0 |>.

(** The variables of [tcp_in.c] for a segment. *)
Definition arrive (seg : tcp_seg) (s : tcp) : tcp :=
  start_input seg s <| seqno := seqno_of seg |> <| ackno := h_ackno (seg_hdr seg) |> <| tcplen := TCP_TCPLEN seg |>
    <| flags := TCPH_FLAGS (seg_hdr seg) |>.

(** [p->flags |= PBUF_FLAG_PUSH] *)
Definition flag_first (f : Z) (p : list tbuf) : list tbuf :=
  match p with [] => [] | b :: p => b <| tb_flags ::= λ x, Z.lor x f |> :: p end.

(** ** The header of an incoming segment *)

Definition read_hdr (bs : list Z) : result tcp_hdr :=
  src ← mem_read bs 0 2; dest ← mem_read bs 2 2; n ← mem_read bs 4 4; ack ← mem_read bs 8 4;
  f ← mem_read bs 12 2; wnd ← mem_read bs 14 2;
  Ok (mk_hdr (be_load src) (be_load dest) (be_load n) (be_load ack) (be_load f) (be_load wnd)).

(** Where the options are: the length of their first part, the memory behind
    the header, the second part in the next buffer.  [None]: they do not fit
    into two buffers. *)
Definition split_options (optlen : Z) (p : list tbuf) :
    result (option (list tbuf * (Z * list Z * option (list Z)))) :=
  match p with
  | [] => Fail NullPointer
  | b :: rest =>
      let opt1 := drop (Z.to_nat TCP_HLEN) (tb_data b) in
      if tb_len b >=? TCP_HLEN + optlen then
        Ok (Some (hide_front (TCP_HLEN + optlen) b :: rest, (optlen, opt1, None)))
      else
        match rest with
        | [] => Fail AssertFailure
        | b2 :: rest =>
            let opt1len := tb_len b - TCP_HLEN in
            let opt2len := u16 (optlen - opt1len) in
            if opt2len >? tb_len b2 then Ok None
            else Ok (Some (b <| tb_data := [] |> :: hide_front opt2len b2 :: rest, (opt1len, opt1, Some (tb_data b2))))
        end
  end.

Section Process.
Context `{TcpEnv}.

(** ** Options *)

Definition tcp_getoptbyte : TCP Z :=
  i ← gets tcp_optidx; n1 ← gets tcphdr_opt1len; o1 ← gets tcphdr_opt1; o2 ← gets tcphdr_opt2;
  modify (λ s, s <| tcp_optidx := u16 (i + 1) |>);;
  match o2 with
  | Some o2 => if i <? n1 then lift (arr_get o1 i) else lift (arr_get o2 (u8 (i - n1)))
  | None => lift (arr_get o1 i)
  end.

(** Every turn moves [tcp_optidx], so the length of the options bounds the
    turns. *)
Fixpoint parseopt_loop (fuel : nat) : TCP () :=
  match fuel with
  | O => fail OutOfFuel
  | S fuel =>
      i ← gets tcp_optidx; n ← gets tcphdr_optlen;
      if i <? n then
        opt ← tcp_getoptbyte;
        if opt =? LWIP_TCP_OPT_EOL then mret ()
        else if opt =? LWIP_TCP_OPT_NOP then parseopt_loop fuel
        else if opt =? LWIP_TCP_OPT_MSS then
          len ← tcp_getoptbyte; i ← gets tcp_optidx;
          if negb (len =? LWIP_TCP_OPT_LEN_MSS) || (i - 2 + LWIP_TCP_OPT_LEN_MSS >? n) then mret ()
          else
            hi ← tcp_getoptbyte; lo ← tcp_getoptbyte;
            let m := Z.lor (u16 (Z.shiftl hi 8)) lo in
            on_pcb (λ p, p <| mss := if (m >? TCP_MSS) || (m =? 0) then TCP_MSS else m |>);;
            parseopt_loop fuel
        else
          len ← tcp_getoptbyte;
          if len <? 2 then mret ()
          else modify (λ s, s <| tcp_optidx ::= λ i, u16 (i + len - 2) |>);; parseopt_loop fuel
      else mret ()
  end.

Definition tcp_parseopt : TCP () :=
  n ← gets tcphdr_optlen;
  if negb (n =? 0) then modify (λ s, s <| tcp_optidx := 0 |>);; parseopt_loop (S (Z.to_nat n)) else mret ().

(** ** The application *)

Variable app_recv : option (list tbuf) → TCP Z.
Variable app_err : Z → TCP ().
Variable app_sent : Z → TCP Z.
Variable app_connected : TCP Z.
Variable app_accept : TCP Z.

Definition TCP_EVENT_SENT (space : Z) : TCP Z :=
  p ← gets pcb; match cb_sent p with Some _ => checked (app_sent space) | None => mret ERR_OK end.
Definition TCP_EVENT_CONNECTED : TCP Z :=
  p ← gets pcb; match cb_connected p with Some _ => checked app_connected | None => mret ERR_OK end.

(** A reset in answer to the segment. *)
Definition rst_reply : TCP () :=
  n ← gets seqno; ack ← gets ackno; len ← gets tcplen; p ← gets pcb;
  tcp_rst ack (u32 (n + len)) (local_ip p) (remote_ip p) (local_port p) (remote_port p).

(** ** [tcp_process] *)

Definition process_rst : TCP Z :=
  p ← gets pcb; n ← gets seqno; ack ← gets ackno;
  let acceptable := if bool_decide (state p = SYN_SENT) then ack =? snd_nxt p else n =? rcv_nxt p in
  if acceptable then
    LWIP_ASSERT (bool_decide (state p ≠ CLOSED));;
    modify (λ s, s <| recv_flags ::= λ f, Z.lor f TF_RESET |>);;
    on_pcb (clear_flag TF_ACK_DELAY);;
    mret ERR_RST
  else
    on_pcb (λ p, if negb (bool_decide (state p = SYN_SENT)) && TCP_SEQ_BETWEEN n (rcv_nxt p) (rcv_nxt p + rcv_wnd p)
                 then tcp_ack_now p else p);;
    mret ERR_OK.

(** The SYN of the connection is acknowledged: it is the first segment. *)
Definition free_syn (p : tcp_pcb) : result tcp_pcb :=
  if negb (snd_queuelen p >? 0) then Fail AssertFailure
  else
    let p := p <| snd_queuelen ::= λ n, n - 1 |> in
    p ← match unacked p, unsent p with
        | _ :: l, _ => Ok (p <| unacked := l |>)
        | [], _ :: l => Ok (p <| unsent := l |>)
        | [], [] => Fail AssertFailure
        end;
    Ok (if bool_decide (unacked p = []) then p <| rtime := -1 |> else p <| rtime := 0 |> <| nrtx := 0 |>).

Definition process_syn_sent : TCP Z :=
  p ← gets pcb; n ← gets seqno; ack ← gets ackno; f ← gets flags; seg ← gets inseg;
  if has f TCP_ACK && has f TCP_SYN && (ack =? u32 (lastack p + 1)) then
    on_pcb (λ p, p <| rcv_nxt := u32 (n + 1) |> <| rcv_ann_right_edge := u32 (n + 1) |> <| lastack := ack |>
      <| snd_wnd := h_wnd (seg_hdr seg) |> <| snd_wnd_max := h_wnd (seg_hdr seg) |> <| snd_wl1 := u32 (n - 1) |>
      <| state := ESTABLISHED |>);;
    m ← tcp_eff_send_mss (mss p) (remote_ip p);
    on_pcb (λ p, p <| mss := m |> <| cwnd := u16 (LWIP_TCP_CALC_INITIAL_CWND m) |>);;
    p ← gets pcb;
    p ← lift (free_syn p);
    on_pcb (λ _, p);;
    err ← TCP_EVENT_CONNECTED;
    if err =? ERR_ABRT then mret ERR_ABRT else on_pcb tcp_ack_now;; mret ERR_OK
  else
    (if has f TCP_ACK then
       rst_reply;;
       p ← gets pcb;
       if nrtx p <? TCP_SYNMAXRTX then on_pcb (λ p, p <| rtime := 0 |>);; tcp_rexmit_rto else mret ()
     else mret ());;
    mret ERR_OK.

Definition passive_close : TCP () :=
  r ← gets recv_flags;
  if has r TF_GOT_FIN then on_pcb (λ p, tcp_ack_now p <| state := CLOSE_WAIT |>) else mret ().

(** [app_accept] stands for what the listener does: the assertion that it has an
    accept callback, and the call ([LwipTcpPcbs.accept_event]). *)
Definition process_syn_rcvd : TCP Z :=
  p ← gets pcb; n ← gets seqno; ack ← gets ackno; f ← gets flags;
  if has f TCP_ACK then
    if TCP_SEQ_BETWEEN ack (lastack p + 1) (snd_nxt p) then
      on_pcb (λ p, p <| state := ESTABLISHED |>);;
      err ← match listener p with None => mret ERR_VAL | Some _ => checked app_accept end;
      if negb (err =? ERR_OK) then
        (if negb (err =? ERR_ABRT) then tcp_abort app_err else mret ());;
        mret ERR_ABRT
      else
        tcp_receive;;
        modify (λ s, s <| recv_acked ::= λ n, if n =? 0 then n else n - 1 |>);;
        on_pcb (λ p, p <| cwnd := u16 (LWIP_TCP_CALC_INITIAL_CWND (mss p)) |>);;
        passive_close;; mret ERR_OK
    else rst_reply;; mret ERR_OK
  else
    (if has f TCP_SYN && (n =? u32 (rcv_nxt p - 1)) then on_pcb tcp_rexmit else mret ());;
    mret ERR_OK.

Definition enter_time_wait : TCP () :=
  on_pcb tcp_pcb_purge;; TCP_RMV ActivePcbs;; on_pcb (λ p, p <| state := TIME_WAIT |>);; TCP_REG TwPcbs.

(** The peer has acknowledged all that was sent, the FIN included. *)
Definition all_acked : TCP bool :=
  p ← gets pcb; f ← gets flags; ack ← gets ackno;
  mret (has f TCP_ACK && (ack =? snd_nxt p) && bool_decide (unsent p = [])).

Definition process_state : TCP () :=
  p ← gets pcb;
  match state p with
  | CLOSE_WAIT | ESTABLISHED => tcp_receive;; passive_close
  | FIN_WAIT_1 =>
      tcp_receive;;
      r ← gets recv_flags; done ← all_acked;
      if has r TF_GOT_FIN then
        on_pcb tcp_ack_now;;
        if done : bool then enter_time_wait else on_pcb (λ p, p <| state := CLOSING |>)
      else if done then on_pcb (λ p, p <| state := FIN_WAIT_2 |>) else mret ()
  | FIN_WAIT_2 =>
      tcp_receive;;
      r ← gets recv_flags;
      if has r TF_GOT_FIN then on_pcb tcp_ack_now;; enter_time_wait else mret ()
  | CLOSING => tcp_receive;; done ← all_acked; if done : bool then enter_time_wait else mret ()
  | LAST_ACK => tcp_receive;; done ← all_acked; if done : bool then tcp_trigger_input_pcb_close else mret ()
  | _ => mret ()
  end.

Definition tcp_process : TCP Z :=
  p ← gets pcb; f ← gets flags; ticks ← gets tcp_ticks;
  if has f TCP_RST then process_rst
  else if has f TCP_SYN && negb (bool_decide (state p ∈ [SYN_SENT; SYN_RCVD])) then on_pcb tcp_ack_now;; mret ERR_OK
  else
    on_pcb (λ p, (if has (pcb_flags p) TF_RXCLOSED then p else p <| tmr := ticks |>) <| keep_cnt_sent := 0 |>);;
    tcp_parseopt;;
    match state p with
    | SYN_SENT => process_syn_sent
    | SYN_RCVD => process_syn_rcvd
    | _ => process_state;; mret ERR_OK
    end.

(** ** [tcp_input] *)

(** The result says whether the connection is gone. *)
Definition tcp_input_delayed_close : TCP bool :=
  r ← gets recv_flags;
  if has r TF_CLOSED then
    p ← gets pcb;
    (if negb (has (pcb_flags p) TF_RXCLOSED) then TCP_EVENT_ERR app_err (cb_errf p) ERR_CLSD else mret ());;
    tcp_pcb_remove ActivePcbs;; memp_free_pcb;; mret true
  else mret false.

(** [m] unless the connection is gone. *)
Definition unless (gone : TCP bool) (m : TCP ()) : TCP () := b ← gone; if b : bool then mret () else m.

(** The application is told what was acknowledged. *)
Definition tell_sent : TCP bool :=
  n ← gets recv_acked;
  if n >? 0 then
    err ← TCP_EVENT_SENT n;
    if err =? ERR_ABRT then mret true else modify (λ s, s <| recv_acked := 0 |>);; mret false
  else mret false.

(** The application gets the data, or it is kept. *)
Definition tell_data : TCP bool :=
  data ← gets recv_data; p ← gets pcb;
  match data with
  | None => mret false
  | Some data =>
      LWIP_ASSERT (bool_decide (refused_data p = None));;
      if has (pcb_flags p) TF_RXCLOSED then tcp_abort app_err;; mret true
      else
        err ← TCP_EVENT_RECV app_recv data;
        if err =? ERR_ABRT then mret true
        else (if negb (err =? ERR_OK) then on_pcb (λ p, p <| refused_data := Some data |>) else mret ());; mret false
  end.

(** The application is told of the FIN, now or with the refused data. *)
Definition tell_fin : TCP bool :=
  r ← gets recv_flags; p ← gets pcb;
  if has r TF_GOT_FIN then
    match refused_data p with
    | Some data => on_pcb (λ p, p <| refused_data := Some (flag_first PBUF_FLAG_TCP_FIN data) |>);; mret false
    | None => on_pcb count_fin;; err ← TCP_EVENT_CLOSED app_recv; mret (err =? ERR_ABRT)
    end
  else mret false.

(** What follows [tcp_process]. *)
Definition after_process : TCP () :=
  r ← gets recv_flags;
  if has r TF_RESET then
    p ← gets pcb;
    TCP_EVENT_ERR app_err (cb_errf p) ERR_RST;; tcp_pcb_remove ActivePcbs;; memp_free_pcb
  else
    unless tell_sent (unless tcp_input_delayed_close (unless tell_data (unless tell_fin (
      modify (λ s, s <| tcp_input_pcb := false |>);;
      unless tcp_input_delayed_close (_ ← tcp_output; mret ()))))).

(** The block [if (pcb != NULL)]. *)
Definition input_matched (seg : tcp_seg) : TCP () :=
  modify (start_input seg);;
  p ← gets pcb; len ← gets tcplen;
  drop ← (match refused_data p with
          | None => mret false
          | Some _ =>
              err ← tcp_process_refused_data app_recv;
              p ← gets pcb;
              if (err =? ERR_ABRT) || (bool_decide (is_Some (refused_data p)) && (len >? 0)) then
                gone ← gets freed;
                if gone : bool then fail InvalidFree
                else (if rcv_ann_wnd p =? 0 then _ ← tcp_send_empty_ack; mret () else mret ());; mret true
              else mret false
          end);
  (if drop : bool then mret ()
   else
     modify (λ s, s <| tcp_input_pcb := true |>);;
     err ← tcp_process;
     if err =? ERR_ABRT then mret () else after_process);;
  modify (λ s, s <| tcp_input_pcb := false |> <| recv_data := None |> <| inseg ::= λ i, i <| seg_p := None |> |>).

Definition tcp_timewait_input : TCP () :=
  p ← gets pcb; f ← gets flags; n ← gets seqno; len ← gets tcplen; ticks ← gets tcp_ticks;
  if has f TCP_RST then mret ()
  else if has f TCP_SYN && TCP_SEQ_BETWEEN n (rcv_nxt p) (rcv_nxt p + rcv_wnd p) then rst_reply
  else
    (if negb (has f TCP_SYN) && has f TCP_FIN then on_pcb (λ p, p <| tmr := ticks |>) else mret ());;
    if len >? 0 then on_pcb (set_flag TF_ACK_NOW);; _ ← tcp_output; mret () else mret ().

(** A segment [p]: its header and the data behind it, unless it is dropped.
    What the environment finds out is an argument: whether the destination is a
    broadcast or multicast address, the checksum of [ip_chksum_pseudo]. *)
Definition input_header (many : bool) (chksum : Z) (p : list tbuf) : TCP (option (tcp_hdr * list tbuf)) :=
  match p with
  | [] => fail NullPointer
  | b :: _ =>
      if (tb_len b <? TCP_HLEN) || many || negb (chksum =? 0) then mret None
      else
        h ← lift (read_hdr (tb_data b));
        let hdrlen_bytes := u8 (TCPH_HDRLEN h * 4) in
        if (hdrlen_bytes <? TCP_HLEN) || (hdrlen_bytes >? tot_len p) then mret None
        else
          r ← lift (split_options (hdrlen_bytes - TCP_HLEN) p);
          match r with
          | None => mret None
          | Some (p, (opt1len, opt1, opt2)) =>
              let f := TCPH_FLAGS h in
              let len := u16 (tot_len p + if has f (Z.lor TCP_FIN TCP_SYN) then 1 else 0) in
              modify (λ s, s <| tcphdr_optlen := hdrlen_bytes - TCP_HLEN |> <| tcphdr_opt1len := opt1len |>
                <| tcphdr_opt1 := opt1 |> <| tcphdr_opt2 := opt2 |> <| seqno := h_seqno h |> <| ackno := h_ackno h |>
                <| flags := f |> <| tcplen := len |>);;
              mret (Some (h, p))
          end
  end.

(** The segment is for [c]: the addresses and ports of both sides agree. *)
Definition is_for (src dst : list Z) (h : tcp_hdr) (c : tcp_pcb) : bool :=
  (remote_port c =? h_src h) && (local_port c =? h_dest h) &&
  bool_decide (remote_ip c = src) && bool_decide (local_ip c = dst).

(** The segment [tcp_process] works on. *)
Definition matched_seg (h : tcp_hdr) (p : list tbuf) : tcp_seg :=
  let p := if has (TCPH_FLAGS h) TCP_PSH then flag_first PBUF_FLAG_PUSH p else p in mk_seg (Some p) (tot_len p) 0 h.

(** Nobody waits for the segment. *)
Definition input_unmatched (src dst : list Z) (h : tcp_hdr) : TCP () :=
  len ← gets tcplen;
  if has (TCPH_FLAGS h) TCP_RST then mret ()
  else tcp_rst (h_ackno h) (u32 (h_seqno h + len)) dst src (h_dest h) (h_src h).

(** Without a listener the segment is for the connection or gets a reset. *)
Definition tcp_input (src dst : list Z) (many : bool) (chksum : Z) (p : list tbuf) : TCP () :=
  r ← input_header many chksum p;
  match r with
  | None => mret ()
  | Some (h, p) =>
      c ← gets pcb; l ← gets on_list;
      (if bool_decide (l = ActivePcbs) then LWIP_ASSERT (negb (bool_decide (state c ∈ [CLOSED; TIME_WAIT; LISTEN])))
       else if bool_decide (l = TwPcbs) then LWIP_ASSERT (bool_decide (state c = TIME_WAIT)) else mret ());;
      if is_for src dst h c && bool_decide (l = ActivePcbs) then input_matched (matched_seg h p)
      else if is_for src dst h c && bool_decide (l = TwPcbs) then tcp_timewait_input
      else input_unmatched src dst h
  end.

(** ** [tcp_listen_input]

    The connection a SYN opens becomes that of the state.  [so]
    is a field of the listening control block [lpcb], [npcb] what [tcp_alloc]
    returned, [iss] the initial sequence number. *)
Definition tcp_listen_input (lpcb : positive) (so : Z) (src dst : list Z) (h : tcp_hdr) (npcb : option tcp_pcb) (iss : Z) :
    TCP () :=
  f ← gets flags; n ← gets seqno; ack ← gets ackno; len ← gets tcplen;
  if has f TCP_RST then mret ()
  else if has f TCP_ACK then tcp_rst ack (u32 (n + len)) dst src (h_dest h) (h_src h)
  else if has f TCP_SYN then
    match npcb with
    | None => _ ← app_accept; mret ()
    | Some npcb =>
        modify (λ s, s <| pcb := npcb <| local_ip := dst |> <| remote_ip := src |> <| local_port := h_dest h |>
          <| remote_port := h_src h |> <| state := SYN_RCVD |> <| rcv_nxt := u32 (n + 1) |>
          <| rcv_ann_right_edge := u32 (n + 1) |> <| snd_wl2 := iss |> <| snd_nxt := iss |> <| lastack := iss |>
          <| snd_lbb := iss |> <| snd_wl1 := u32 (n - 1) |> <| listener := Some lpcb |>
          <| so_options := Z.land so SOF_INHERITED |> |>);;
        TCP_REG ActivePcbs;;
        tcp_parseopt;;
        on_pcb (λ p, p <| snd_wnd := h_wnd h |> <| snd_wnd_max := h_wnd h |>);;
        p ← gets pcb;
        m ← tcp_eff_send_mss (mss p) (remote_ip p);
        on_pcb (λ p, p <| mss := m |>);;
        rc ← tcp_enqueue_flags (Z.lor TCP_SYN TCP_ACK);
        if negb (rc =? ERR_OK) then tcp_abandon app_err false else _ ← tcp_output; mret ()
    end
  else mret ().

End Process.
