(* ===== verification/LwipTcpTimer.v ===== *)
(** TCP of lwIP, the timers: what [tcp_slowtmr] and [tcp_fasttmr]
    ([lwip/src/core/tcp.c]) do with the connection of the state. *)
From S2P Require Import Prelude.
From S2P Require Import LwipTcp.
From S2P Require Import LwipTcpOut.
From S2P Require Import LwipTcpApi.

(** Ticks since the last segment, and whether they are more than [ms]
    milliseconds. *)
Definition idle (ticks : Z) (p : tcp_pcb) : Z := u32 (ticks - tmr p).
(** [ms] is a sum of the type [unsigned long], here with 32 bits; as
    [keep_idle] only comes from [tcp_alloc] it does not wrap. *)
Definition idle_over (ticks ms : Z) (p : tcp_pcb) : bool := idle ticks p >? u32 ms / TCP_SLOW_INTERVAL.

Definition start_persist (p : tcp_pcb) : tcp_pcb :=
  (if persist_backoff p <? zlen tcp_persist_backoff then p <| persist_backoff ::= λ n, n + 1 |> else p)
    <| persist_cnt := 0 |>.

(** The congestion window after a time-out. *)
Definition collapse_window (p : tcp_pcb) : tcp_pcb :=
  let ss := Z.shiftr (Z.min (cwnd p) (snd_wnd p)) 1 in
  let two := Z.shiftl (mss p) 1 in
  p <| rtime := 0 |> <| ssthresh := if ss <? u16 two then u16 two else ss |> <| cwnd := mss p |>.

(** The time until the next retransmission. *)
Definition back_off (p : tcp_pcb) : result tcp_pcb :=
  if bool_decide (state p = SYN_SENT) then Ok p
  else
    n ← arr_get tcp_backoff (Z.min (nrtx p) (zlen tcp_backoff - 1));
    Ok (p <| rto := s16 (Z.shiftl (Z.shiftr (sa p) 3 + sv p) n) |>).

(** Enough retransmissions. *)
Definition given_up (p : tcp_pcb) : bool :=
  (bool_decide (state p = SYN_SENT) && (nrtx p >=? TCP_SYNMAXRTX)) || (nrtx p >=? TCP_MAXRTX).

(** No segment for too long in a state that waits for one. *)
Definition stuck (ticks : Z) (p : tcp_pcb) : bool :=
  match state p with
  | FIN_WAIT_2 => has (pcb_flags p) TF_RXCLOSED && idle_over ticks TCP_FIN_WAIT_TIMEOUT p
  | SYN_RCVD => idle_over ticks TCP_SYN_RCVD_TIMEOUT p
  | LAST_ACK => idle_over ticks (2 * TCP_MSL) p
  | _ => false
  end.

Definition drop_old_ooseq (ticks : Z) (p : tcp_pcb) : tcp_pcb :=
  if negb (bool_decide (ooseq p = [])) && (idle ticks p >=? u32 (rto p * TCP_OOSEQ_TIMEOUT)) then p <| ooseq := [] |> else p.

Section Timer.
Context `{TcpEnv}.
Variable app_recv : option (list tbuf) → TCP Z.
Variable app_err : Z → TCP ().

(** The poll callback: whether it changed the list of active connections, and
    what it returned. *)
Variable app_poll : TCP (bool * Z).

(** ** The slow timer *)

Definition persist_timer : TCP () :=
  p ← gets pcb;
  n ← lift (arr_get tcp_persist_backoff (persist_backoff p - 1));
  on_pcb (λ p, if persist_cnt p <? n then p <| persist_cnt ::= λ k, k + 1 |> else p);;
  p ← gets pcb;
  if persist_cnt p >=? n then
    err ← tcp_zero_window_probe;
    if err =? ERR_OK then on_pcb start_persist else mret ()
  else mret ().

Definition retransmission_timer : TCP () :=
  on_pcb (λ p, if rtime p >=? 0 then p <| rtime ::= λ n, s16 (n + 1) |> else p);;
  p ← gets pcb;
  if negb (bool_decide (unacked p = [])) && (rtime p >=? rto p) then
    p ← lift (back_off p);
    on_pcb (λ _, collapse_window p);;
    tcp_rexmit_rto
  else mret ().

(** Whether the peer does not answer. *)
Definition keepalive_timer : TCP bool :=
  p ← gets pcb; ticks ← gets tcp_ticks;
  if has (so_options p) SOF_KEEPALIVE && bool_decide (state p ∈ [ESTABLISHED; CLOSE_WAIT]) then
    if idle_over ticks (keep_idle p + TCP_MAXIDLE) p then mret true
    else if idle_over ticks (keep_idle p + keep_cnt_sent p * TCP_KEEPINTVL_DEFAULT) p then
      err ← tcp_keepalive;
      (if err =? ERR_OK then on_pcb (λ p, p <| keep_cnt_sent ::= λ n, u8 (n + 1) |>) else mret ());; mret false
    else mret false
  else mret false.

(** A dead connection goes without a word, or with a reset. *)
Definition bury (reset : bool) : TCP () :=
  p ← gets pcb;
  (if reset then tcp_rst (snd_nxt p) (rcv_nxt p) (local_ip p) (remote_ip p) (local_port p) (remote_port p) else mret ());;
  memp_free_pcb;;
  TCP_EVENT_ERR app_err (cb_errf p) ERR_ABRT.
Definition remove_dead (reset : bool) : TCP () := on_pcb tcp_pcb_purge;; TCP_RMV ActivePcbs;; bury reset.

(** The result says whether the list of active connections has changed. *)
Definition poll_timer : TCP bool :=
  on_pcb (λ p, p <| polltmr ::= λ n, u8 (n + 1) |>);;
  p ← gets pcb;
  if polltmr p >=? pollinterval p then
    on_pcb (λ p, p <| polltmr := 0 |>);;
    r ← match cb_poll p with Some _ => app_poll | None => mret (false, ERR_OK) end;
    gone ← gets freed;
    (if r.1 : bool then mret ()
     else if r.2 =? ERR_OK then if gone : bool then fail InvalidFree else _ ← tcp_output; mret ()
     else mret ());;
    mret r.1
  else mret false.

(** The timers of a connection; [ctr] is the new [tcp_timer_ctr].  Whether it
    has to go, and whether with a reset. *)
Definition slowtmr_timers (ctr : Z) : TCP (bool * bool) :=
  p ← gets pcb; ticks ← gets tcp_ticks;
  on_pcb (λ p, p <| last_timer := ctr |>);;
  (if given_up p then mret () else if persist_backoff p >? 0 then persist_timer else retransmission_timer);;
  p1 ← gets pcb;
  dead ← keepalive_timer;
  on_pcb (drop_old_ooseq ticks);;
  mret (given_up p || stuck ticks p1 || dead, dead).

(** The turn of the loop over the active connections. *)
Definition slowtmr_active (ctr : Z) : TCP () :=
  p ← gets pcb;
  LWIP_ASSERT (negb (bool_decide (state p ∈ [CLOSED; LISTEN; TIME_WAIT])));;
  if last_timer p =? ctr then mret ()
  else
    r ← slowtmr_timers ctr;
    if r.1 : bool then remove_dead r.2 else _ ← poll_timer; mret ().

Definition slowtmr_timewait : TCP () :=
  p ← gets pcb; ticks ← gets tcp_ticks;
  LWIP_ASSERT (bool_decide (state p = TIME_WAIT));;
  if idle_over ticks (2 * TCP_MSL) p then on_pcb tcp_pcb_purge;; TCP_RMV TwPcbs;; memp_free_pcb else mret ().

Definition tcp_slowtmr (ctr : Z) : TCP () :=
  modify (λ s, s <| tcp_ticks ::= λ n, u32 (n + 1) |>);;
  l ← gets on_list;
  (if bool_decide (l = ActivePcbs) then slowtmr_active ctr else mret ());;
  l ← gets on_list;
  if bool_decide (l = TwPcbs) then slowtmr_timewait else mret ().

(** ** The fast timer *)

(** Delayed acknowledgements and FINs. *)
Definition fasttmr_delayed (ctr : Z) : TCP () :=
  p ← gets pcb;
  on_pcb (λ p, p <| last_timer := ctr |>);;
  (if has (pcb_flags p) TF_ACK_DELAY then
     on_pcb tcp_ack_now;; _ ← tcp_output; on_pcb (clear_flag (Z.lor TF_ACK_DELAY TF_ACK_NOW))
   else mret ());;
  p ← gets pcb;
  if has (pcb_flags p) TF_CLOSEPEND then
    on_pcb (clear_flag TF_CLOSEPEND);; _ ← tcp_close_shutdown_fin; mret ()
  else mret ().
Definition fasttmr_refused : TCP () :=
  p ← gets pcb;
  match refused_data p with
  | Some _ => _ ← tcp_process_refused_data app_recv; mret ()
  | None => mret ()
  end.

Definition tcp_fasttmr (ctr : Z) : TCP () :=
  p ← gets pcb; l ← gets on_list;
  if bool_decide (l = ActivePcbs) && negb (last_timer p =? ctr) then fasttmr_delayed ctr;; fasttmr_refused
  else mret ().

End Timer.
