(* ===== verification/LwipTcpPcbs.v ===== *)
(** TCP of lwIP, all control blocks: allocation, binding, listening,
    connecting, the choice of the control block a segment is for, and the
    timers ([lwip/src/core/tcp.c], [tcp_in.c]).

    The control blocks are a heap; the lists of [tcp.c] are linked through it.
    The code for one connection runs on the block it is given ([focus]).  The
    callbacks of the application get the block they are called for and act on
    its connection only. *)
From stdpp Require Import gmap.
From S2P Require Import Prelude.
From S2P Require Import LwipTcp.
From S2P Require Import LwipTcpOut.
From S2P Require Import LwipTcpApi.
From S2P Require Import LwipTcpIn.
From S2P Require Import LwipTcpProcess.
From S2P Require Import LwipTcpTimer.

Definition TCP_LOCAL_PORT_RANGE_START : Z := 49152.
Definition TCP_LOCAL_PORT_RANGE_END : Z := 65535.
Definition TCP_PRIO_NORMAL : Z := 64.
Definition TCP_PRIO_MAX : Z := 127.
Definition ERR_USE : Z := -8.

(** The function the [accept] field of a listening control block has at first. *)
Definition tcp_accept_null_id : positive := 2.

(** ** Addresses

    The type of an address shows in its length; [IPADDR_TYPE_ANY] is the byte
    46 in front of four bytes. *)
Inductive addr_type := IPADDR_TYPE_V4 | IPADDR_TYPE_V6 | IPADDR_TYPE_ANY.
#[export] Instance addr_type_eq_dec : EqDecision addr_type.
Proof. solve_decision. Defined.

Definition IP_GET_TYPE (ip : list Z) : addr_type :=
  if zlen ip =? 16 then IPADDR_TYPE_V6 else if zlen ip =? 5 then IPADDR_TYPE_ANY else IPADDR_TYPE_V4.
Definition any_addr (t : addr_type) : list Z :=
  match t with
  | IPADDR_TYPE_V4 => [0; 0; 0; 0]
  | IPADDR_TYPE_V6 => replicate 16 0
  | IPADDR_TYPE_ANY => [46; 0; 0; 0; 0]
  end.
Definition is_any_type (ip : list Z) : bool := bool_decide (IP_GET_TYPE ip = IPADDR_TYPE_ANY).
(** [ip_addr_isany] of an address of any type. *)
Definition isany (ip : list Z) : bool := ip_addr_isany (if is_any_type ip then drop 1 ip else ip).

(** ** Control blocks *)

(** [struct tcp_pcb_listen]; [remote_ip] has only a type, which is that of
    [local_ip]. *)
Record tcp_pcb_listen := mk_lpcb {
  l_local_ip : list Z; l_so_options : Z; l_tos : Z; l_ttl : Z; l_prio : Z; l_bound_to_netif : Z;
  l_local_netif : list Z; l_local_port : Z; l_accept : option positive }.
#[export] Instance eta_tcp_pcb_listen : Eta tcp_pcb_listen := λ x, mk_lpcb (l_local_ip x) (l_so_options x) (l_tos x)
   (l_ttl x) (l_prio x) (l_bound_to_netif x) (l_local_netif x) (l_local_port x) (l_accept x).
#[export] Instance set_l_local_ip : Setter l_local_ip := ltac:(setter).
#[export] Instance set_l_prio : Setter l_prio := ltac:(setter).
#[export] Instance set_l_accept : Setter l_accept := ltac:(setter).

Inductive body := Conn (p : tcp_pcb) | Lsn (l : tcp_pcb_listen).

(** The members both kinds have. *)
Definition b_state (b : body) : tcp_state := match b with Conn p => state p | Lsn _ => LISTEN end.
Definition b_local_ip (b : body) : list Z := match b with Conn p => local_ip p | Lsn l => l_local_ip l end.
Definition b_local_port (b : body) : Z := match b with Conn p => local_port p | Lsn l => l_local_port l end.
Definition b_bound_to_netif (b : body) : Z := match b with Conn p => bound_to_netif p | Lsn l => l_bound_to_netif l end.
Definition b_local_netif (b : body) : list Z := match b with Conn p => local_netif p | Lsn l => l_local_netif l end.

Record block := mk_block { next : option positive; the_body : body }.
#[export] Instance eta_block : Eta block := λ x, mk_block (next x) (the_body x).
#[export] Instance set_next : Setter next := ltac:(setter).
#[export] Instance set_the_body : Setter the_body := ltac:(setter).

(** The control blocks, the heads of the lists, the variables of [tcp.c]; those
    of [tcp_in.c], the clock and the outside are in [glob], whose connection
    has no meaning. *)
Record stack := mk_stack {
  blocks : gmap positive block; tcp_listen_pcbs : option positive; tcp_bound_pcbs : option positive;
  tcp_active_pcbs : option positive; tcp_tw_pcbs : option positive; tcp_port : Z; iss : Z; tcp_timer : Z;
  tcp_timer_ctr : Z; tcp_active_pcbs_changed : bool; glob : tcp }.
#[export] Instance eta_stack : Eta stack := λ x, mk_stack (blocks x) (tcp_listen_pcbs x) (tcp_bound_pcbs x)
   (tcp_active_pcbs x) (tcp_tw_pcbs x) (tcp_port x) (iss x) (tcp_timer x) (tcp_timer_ctr x)
   (tcp_active_pcbs_changed x) (glob x).
#[export] Instance set_blocks : Setter blocks := ltac:(setter).
#[export] Instance set_tcp_listen_pcbs : Setter tcp_listen_pcbs := ltac:(setter).
#[export] Instance set_tcp_bound_pcbs : Setter tcp_bound_pcbs := ltac:(setter).
#[export] Instance set_tcp_active_pcbs : Setter tcp_active_pcbs := ltac:(setter).
#[export] Instance set_tcp_tw_pcbs : Setter tcp_tw_pcbs := ltac:(setter).
#[export] Instance set_tcp_port : Setter tcp_port := ltac:(setter).
#[export] Instance set_iss : Setter iss := ltac:(setter).
#[export] Instance set_tcp_timer : Setter tcp_timer := ltac:(setter).
#[export] Instance set_tcp_timer_ctr : Setter tcp_timer_ctr := ltac:(setter).
#[export] Instance set_tcp_active_pcbs_changed : Setter tcp_active_pcbs_changed := ltac:(setter).
#[export] Instance set_glob : Setter glob := ltac:(setter).

Abbreviation ST := (M stack).

(** An element of a list, behind the one in front of it. *)
Abbreviation place := (option positive * positive)%type.

Definition head (l : pcb_list) (s : stack) : option positive :=
  match l with
  | NoList => None | ListenPcbs => tcp_listen_pcbs s | BoundPcbs => tcp_bound_pcbs s | ActivePcbs => tcp_active_pcbs s | TwPcbs => tcp_tw_pcbs s
  end.
Definition set_head (l : pcb_list) (h : option positive) : ST () :=
  modify (λ s, match l with
               | NoList => s | ListenPcbs => s <| tcp_listen_pcbs := h |> | BoundPcbs => s <| tcp_bound_pcbs := h |>
               | ActivePcbs => s <| tcp_active_pcbs := h |> | TwPcbs => s <| tcp_tw_pcbs := h |>
               end).

(** Reading a block that was freed is the fault [InvalidFree]. *)
Definition get_block (id : positive) : ST block :=
  bs ← gets blocks; match bs !! id with Some b => mret b | None => fail InvalidFree end.
Definition get_body (id : positive) : ST body := b ← get_block id; mret (the_body b).
Definition get_next (id : positive) : ST (option positive) := b ← get_block id; mret (next b).
Definition on_block (id : positive) (f : block → block) : ST () :=
  b ← get_block id; modify (λ s, s <| blocks ::= λ bs, <[id := f b]> bs |>).
Definition set_link (id : positive) (n : option positive) : ST () := on_block id (λ b, b <| next := n |>).
Definition on_conn (id : positive) (f : tcp_pcb → tcp_pcb) : ST () :=
  on_block id (λ b, match the_body b with Conn p => b <| the_body := Conn (f p) |> | Lsn _ => b end).
Definition memp_free (id : positive) : ST () :=
  _ ← get_block id; modify (λ s, s <| blocks ::= delete id |>).

(** A list has at most as many elements as there are blocks. *)
Definition list_fuel (s : stack) : nat := S (size (blocks s)).

(** [for (pcb = cur; pcb != NULL; pcb = pcb->next)] with a value that is carried
    along; the body may stop with a result. *)
Fixpoint walk {A B} (fuel : nat) (f : A → positive → ST (A + B)) (a : A) (cur : option positive) : ST (A + B) :=
  match cur with
  | None => mret (inl a)
  | Some id =>
      match fuel with
      | O => fail OutOfFuel
      | S fuel =>
          r ← f a id;
          match r with
          | inl a => n ← get_next id; walk fuel f a n
          | inr b => mret (inr b)
          end
      end
  end.

(** The first element of a list that passes the test, with the element in front
    of it. *)
Definition find_in (l : pcb_list) (test : body → ST bool) : ST (option (option positive * positive)) :=
  h ← gets (head l); n ← gets list_fuel;
  r ← walk n (λ prev id, b ← get_body id; t ← test b; mret (if t : bool then inr (prev, id) else inl (Some id))) None h;
  mret (match r with inl _ => None | inr x => Some x end).

(** ** Lists *)

Definition TCP_REG (l : pcb_list) (id : positive) : ST () :=
  h ← gets (head l); set_link id h;; set_head l (Some id).

Definition TCP_RMV (l : pcb_list) (id : positive) : ST () :=
  h ← gets (head l);
  (if bool_decide (h = Some id) then n ← get_next id; set_head l n
   else
     n ← gets list_fuel;
     _ ← walk n (λ _ tmp,
       t ← get_next tmp;
       if bool_decide (t = Some id) then m ← get_next id; set_link tmp m;; mret (inr ()) else mret (inl ())) () h;
     mret ());;
  set_link id None.

(** The second half of a search that moves what it found, [id] behind [prev],
    to the front. *)
Definition move_to_front (l : pcb_list) (prev : option positive) (id : positive) : ST () :=
  match prev with
  | Some q => n ← get_next id; set_link q n;; h ← gets (head l); set_link id h;; set_head l (Some id)
  | None => mret ()
  end.

(** ** The code for one connection *)

Fixpoint linked (fuel : nat) (bs : gmap positive block) (cur : option positive) (id : positive) : bool :=
  match cur, fuel with
  | Some c, S fuel => bool_decide (c = id) || match bs !! c with Some b => linked fuel bs (next b) id | None => false end
  | _, _ => false
  end.
Definition is_on (l : pcb_list) (id : positive) (s : stack) : bool := linked (list_fuel s) (blocks s) (head l s) id.

(** The list a connection is on. *)
Definition where_is (id : positive) (s : stack) : pcb_list :=
  if is_on ActivePcbs id s then ActivePcbs else if is_on TwPcbs id s then TwPcbs
  else if is_on BoundPcbs id s then BoundPcbs else NoList.

(** From one list to another. *)
Definition relink (l l' : pcb_list) (id : positive) : ST () :=
  if bool_decide (l = l') then mret ()
  else
    (if bool_decide (l = NoList) then mret () else TCP_RMV l id);;
    (if bool_decide (l' = NoList) then mret () else TCP_REG l' id);;
    (if bool_decide (l = ActivePcbs) || bool_decide (l' = ActivePcbs)
     then modify (λ s, s <| tcp_active_pcbs_changed := true |>) else mret ()).

(** [m] on the connection [id].  A listening control block is too short to be
    one. *)
Definition get_conn (id : positive) : ST tcp_pcb :=
  b ← get_body id; match b with Conn p => mret p | Lsn _ => fail OutOfBounds end.
Definition load (id : positive) (p : tcp_pcb) (s : stack) : tcp :=
  glob s <| pcb := p |> <| on_list := where_is id s |> <| freed := false |>.
Definition focus {A} (id : positive) (m : TCP A) : ST A :=
  p ← get_conn id; t ← gets (load id p);
  r ← lift (m t);
  relink (on_list t) (on_list r.2) id;;
  modify (λ s, s <| glob := r.2 |>);;
  (if freed r.2 then memp_free id else on_conn id (λ _, pcb r.2));;
  mret r.1.

(** [m] without a connection. *)
Definition on_glob {A} (m : TCP A) : ST A :=
  g ← gets glob; r ← lift (m g); modify (λ s, s <| glob := r.2 |>);; mret r.1.

(** Whether there is memory for a control block. *)
Class PcbEnv := { pcb_mem : nat → bool }.

Section Pcbs.
Context `{TcpEnv} `{PcbEnv}.

(** The callbacks, for a control block each. *)
Variable app_recv : positive → option (list tbuf) → TCP Z.
Variable app_err : positive → Z → TCP ().
Variable app_sent : positive → Z → TCP Z.
Variable app_connected : positive → TCP Z.
Variable app_accept : positive → TCP Z.
Variable app_poll : positive → TCP (bool * Z).

(** ** Allocation *)

Definition memp_malloc (f : stack → body) : ST (option positive) :=
  ok ← on_glob (ask pcb_mem);
  if ok : bool then
    bs ← gets blocks; b ← gets f;
    let id := fresh (dom bs) in
    modify (λ s, s <| blocks ::= λ bs, <[id := mk_block None b]> bs |>);; mret (Some id)
  else mret None.

Definition tcp_abandon (id : positive) (reset : bool) : ST () := focus id (LwipTcpApi.tcp_abandon (app_err id) reset).

(** The longest idle connection of a list so far: below which priority, how
    long, which one. *)
Definition older (id : positive) (ticks : Z) (p : tcp_pcb) (a : Z * Z * option positive) : Z * Z * option positive :=
  let '(mprio, inactivity, inactive) := a in
  if (prio p <=? mprio) && (idle ticks p >=? inactivity) then (prio p, idle ticks p, Some id) else a.

Definition tcp_kill_prio (prio : Z) : ST () :=
  h ← gets tcp_active_pcbs; n ← gets list_fuel; g ← gets glob;
  r ← walk (B := ()) n (λ a id, p ← get_conn id; mret (inl (older id (tcp_ticks g) p a))) (Z.min TCP_PRIO_MAX prio, 0, None) h;
  match r with inl (_, _, Some id) => tcp_abandon id true | _ => mret () end.

(** Of [tcp_kill_state] and [tcp_kill_timewait]: the priority does not count. *)
Definition longest_idle (l : pcb_list) (test : tcp_pcb → bool) : ST (option positive) :=
  h ← gets (head l); n ← gets list_fuel; g ← gets glob;
  r ← walk (B := ()) n (λ a id, p ← get_conn id;
    mret (inl (if test p && (idle (tcp_ticks g) p >=? a.1) then (idle (tcp_ticks g) p, Some id) else a))) (0, None) h;
  mret (match r with inl a => a.2 | inr _ => None end).

Definition tcp_kill_state (st : tcp_state) : ST () :=
  (if bool_decide (st ∈ [CLOSING; LAST_ACK]) then mret () else fail AssertFailure);;
  r ← longest_idle ActivePcbs (λ p, bool_decide (state p = st));
  match r with Some id => tcp_abandon id false | None => mret () end.
Definition tcp_kill_timewait : ST () :=
  r ← longest_idle TwPcbs (λ _, true);
  match r with Some id => tcp_abandon id true | None => mret () end.

Definition malloc_pcb (prio : Z) : ST (option positive) :=
  memp_malloc (λ s, Conn (fresh_pcb prio (tcp_ticks (glob s)) (tcp_timer_ctr s))).
(** [m], and if there is no memory the next connection has to go. *)
Definition or_kill (kill : ST ()) (prio : Z) (m : ST (option positive)) : ST (option positive) :=
  r ← m; match r with Some _ => mret r | None => kill;; malloc_pcb prio end.

Definition tcp_alloc (prio : Z) : ST (option positive) :=
  or_kill (tcp_kill_prio prio) prio (or_kill (tcp_kill_state CLOSING) prio (or_kill (tcp_kill_state LAST_ACK) prio
    (or_kill tcp_kill_timewait prio (malloc_pcb prio)))).

Definition tcp_new : ST (option positive) := tcp_alloc TCP_PRIO_NORMAL.
Definition tcp_new_ip_type (t : addr_type) : ST (option positive) :=
  r ← tcp_alloc TCP_PRIO_NORMAL;
  match r with
  | Some id => on_conn id (λ p, p <| local_ip := any_addr t |> <| remote_ip := any_addr t |>);; mret r
  | None => mret None
  end.

(** ** Ports and addresses *)

(** The first list in which a control block passes the test. *)
Fixpoint any_list (ls : list pcb_list) (test : body → bool) : ST bool :=
  match ls with
  | [] => mret false
  | l :: ls => r ← find_in l (λ b, mret (test b)); match r with Some _ => mret true | None => any_list ls test end
  end.
Definition tcp_pcb_lists : list pcb_list := [ListenPcbs; BoundPcbs; ActivePcbs; TwPcbs].

(** [n] ports were found in use. *)
Fixpoint new_port_loop (fuel : nat) (n : Z) : ST Z :=
  match fuel with
  | O => fail OutOfFuel
  | S fuel =>
      modify (λ s, s <| tcp_port ::= λ q, if q =? TCP_LOCAL_PORT_RANGE_END then TCP_LOCAL_PORT_RANGE_START else u16 (q + 1) |>);;
      port ← gets tcp_port;
      used ← any_list tcp_pcb_lists (λ b, b_local_port b =? port);
      if used : bool then
        if u16 (n + 1) >? TCP_LOCAL_PORT_RANGE_END - TCP_LOCAL_PORT_RANGE_START then mret 0
        else new_port_loop fuel (u16 (n + 1))
      else mret port
  end.
Definition tcp_new_port : ST Z := new_port_loop (Z.to_nat (TCP_LOCAL_PORT_RANGE_END - TCP_LOCAL_PORT_RANGE_START + 1)) 0.

(** [cpcb] is in the way of binding to [ip] and [port]. *)
Definition conflicts (ip : list Z) (port : Z) (cpcb : body) : bool :=
  (b_local_port cpcb =? port) && Bool.eqb (is_v6 ip) (is_v6 (b_local_ip cpcb)) &&
  (isany (b_local_ip cpcb) || isany ip || bool_decide (b_local_ip cpcb = ip)).

(** A failed [LWIP_ERROR] stops, as assertions are active. *)
Definition LWIP_ERROR (b : bool) : ST () := if b then mret () else fail AssertFailure.

Definition tcp_bind (id : positive) (ipaddr : option (list Z)) (port : Z) : ST Z :=
  let ip := default (any_addr IPADDR_TYPE_V4) ipaddr in
  b ← get_body id;
  LWIP_ERROR (bool_decide (b_state b = CLOSED));;
  port' ← (if port =? 0 then tcp_new_port else mret port);
  if port' =? 0 then mret ERR_BUF
  else
    used ← (if port =? 0 then mret false else any_list tcp_pcb_lists (conflicts ip port));
    if used : bool then mret ERR_USE
    else
      on_conn id (λ p, (p <| bound_to_netif := 0 |> <| local_ip ::= λ a, if isany ip then a else ip |>) <| local_port := port' |>);;
      TCP_REG BoundPcbs id;;
      mret ERR_OK.

(** [cpcb] is in the way of binding a control block of address [ip] to an
    interface. *)
Definition netif_conflicts (ip name : list Z) (cpcb : body) : bool :=
  negb (b_bound_to_netif cpcb =? 0) && bool_decide (b_local_netif cpcb = name) &&
  (is_any_type ip || is_any_type (b_local_ip cpcb) || bool_decide (IP_GET_TYPE ip = IP_GET_TYPE (b_local_ip cpcb))).

Definition tcp_bind_to_netif (id : positive) (ifname : list Z) : ST Z :=
  b ← get_body id;
  LWIP_ERROR (bool_decide (b_state b = CLOSED));;
  used ← any_list [ListenPcbs; BoundPcbs] (netif_conflicts (b_local_ip b) ifname);
  if used : bool then mret ERR_USE
  else
    on_conn id (λ p, p <| bound_to_netif := 1 |>
      <| local_ip ::= λ a, if is_any_type a then a else any_addr (if is_v6 a then IPADDR_TYPE_V6 else IPADDR_TYPE_V4) |>
      <| local_port := 0 |> <| local_netif := ifname |>);;
    TCP_REG BoundPcbs id;;
    mret ERR_OK.

(** ** Listening *)

Definition tcp_remove_listener (l : pcb_list) (lpcb : positive) : ST () :=
  h ← gets (head l); n ← gets list_fuel;
  _ ← walk (B := ()) n (λ _ id,
    _ ← get_conn id; on_conn id (λ p, if bool_decide (listener p = Some lpcb) then p <| listener := None |> else p);; mret (inl ()))
    () h;
  mret ().
Definition tcp_listen_closed (lpcb : positive) : ST () :=
  tcp_remove_listener BoundPcbs lpcb;; tcp_remove_listener ActivePcbs lpcb;; tcp_remove_listener TwPcbs lpcb.

(** The result is the listening control block and the error. *)
Definition tcp_listen_with_backlog_and_err (id : positive) : ST (option positive * Z) :=
  b ← get_body id;
  LWIP_ERROR (bool_decide (b_state b = CLOSED));;
  p ← get_conn id;
  r ← memp_malloc (λ _, Lsn (mk_lpcb (local_ip p) (so_options p) (tos p) (ttl p) (prio p) (bound_to_netif p) (local_netif p)
    (local_port p) (Some tcp_accept_null_id)));
  match r with
  | None => mret (None, ERR_MEM)
  | Some lpcb =>
      (if negb (local_port p =? 0) || negb (bound_to_netif p =? 0) then TCP_RMV BoundPcbs id else mret ());;
      memp_free id;;
      TCP_REG ListenPcbs lpcb;;
      mret (Some lpcb, ERR_OK)
  end.

(** ** Closing: a listening control block is removed here. *)

Definition close_listener (lpcb : positive) : ST Z :=
  tcp_listen_closed lpcb;; TCP_RMV ListenPcbs lpcb;; memp_free lpcb;; mret ERR_OK.
Definition tcp_close (id : positive) : ST Z :=
  b ← get_body id; match b with Lsn _ => close_listener id | Conn _ => focus id LwipTcpApi.tcp_close end.
Definition tcp_shutdown (id : positive) (shut_rx shut_tx : bool) : ST Z :=
  b ← get_body id; match b with Lsn _ => mret ERR_CONN | Conn _ => focus id (LwipTcpApi.tcp_shutdown shut_rx shut_tx) end.
Definition tcp_abort (id : positive) : ST () := tcp_abandon id true.

(** ** Callbacks and options *)

Definition tcp_setprio (id : positive) (n : Z) : ST () :=
  on_block id (λ b, b <| the_body ::= λ b, match b with Conn p => Conn (p <| prio := n |>) | Lsn l => Lsn (l <| l_prio := n |>) end |>).
Definition set_callback (id : positive) (f : tcp_pcb → tcp_pcb) : ST () :=
  b ← get_body id; (if bool_decide (b_state b ≠ LISTEN) then mret () else fail AssertFailure);; on_conn id f.
Definition tcp_recv (id : positive) (cb : option positive) : ST () := set_callback id (λ p, p <| cb_recv := cb |>).
Definition tcp_sent (id : positive) (cb : option positive) : ST () := set_callback id (λ p, p <| cb_sent := cb |>).
Definition tcp_err (id : positive) (cb : option positive) : ST () := set_callback id (λ p, p <| cb_errf := cb |>).
Definition tcp_poll (id : positive) (cb : option positive) (interval : Z) : ST () :=
  set_callback id (λ p, p <| cb_poll := cb |> <| pollinterval := interval |>).
Definition tcp_accept (id : positive) (cb : option positive) : ST () :=
  on_block id (λ b, b <| the_body ::= λ b, match b with Lsn l => Lsn (l <| l_accept := cb |>) | Conn p => Conn p end |>).

(** ** Connecting *)

Definition tcp_next_iss : ST Z :=
  g ← gets glob; modify (λ s, s <| iss ::= λ n, u32 (n + tcp_ticks g) |>);; gets iss.

(** [ip_route_get_local_ip]: the address of the interface, or [ERR_RTE]. *)
Definition source_address : TCP Z :=
  p ← gets pcb;
  if isany (local_ip p) then
    route ← ask ip_route; ip ← ask netif_ip;
    match ip with
    | Some ip => if route : bool then on_pcb (λ p, p <| local_ip := ip |>);; mret ERR_OK else mret ERR_RTE
    | None => mret ERR_RTE
    end
  else mret ERR_OK.

(** The SYN; the control block was bound to [old_local_port]. *)
Definition connect_syn (old_local_port iss : Z) (connected : option positive) : TCP Z :=
  on_pcb (λ p, p <| rcv_nxt := 0 |> <| snd_nxt := iss |> <| lastack := u32 (iss - 1) |> <| snd_wl2 := u32 (iss - 1) |>
    <| snd_lbb := u32 (iss - 1) |> <| rcv_wnd := TCP_WND |> <| rcv_ann_wnd := TCP_WND |> <| rcv_ann_right_edge := 0 |>
    <| snd_wnd := TCP_WND |> <| mss := TCP_MSS |>);;
  p ← gets pcb;
  m ← tcp_eff_send_mss (mss p) (remote_ip p);
  on_pcb (λ p, p <| mss := m |> <| cwnd := 1 |> <| cb_connected := connected |>);;
  ret ← tcp_enqueue_flags TCP_SYN;
  if ret =? ERR_OK then
    on_pcb (λ p, p <| state := SYN_SENT |>);;
    (if negb (old_local_port =? 0) then LwipTcpApi.TCP_RMV BoundPcbs else mret ());;
    LwipTcpApi.TCP_REG ActivePcbs;;
    _ ← tcp_output; mret ret
  else mret ret.

Definition tcp_connect (id : positive) (ipaddr : option (list Z)) (port : Z) (connected : option positive) : ST Z :=
  match ipaddr with
  | None => mret ERR_VAL
  | Some ip =>
      b ← get_body id;
      LWIP_ERROR (bool_decide (b_state b = CLOSED));; LWIP_ERROR (b_bound_to_netif b =? 0);;
      on_conn id (λ p, p <| remote_ip := ip |> <| remote_port := port |>);;
      err ← focus id source_address;
      if negb (err =? ERR_OK) then mret err
      else
        p ← get_conn id;
        let old_local_port := local_port p in
        local_port' ← (if old_local_port =? 0 then tcp_new_port else mret old_local_port);
        on_conn id (λ p, p <| local_port := local_port' |>);;
        if local_port' =? 0 then mret ERR_BUF
        else n ← tcp_next_iss; focus id (connect_syn old_local_port n connected)
  end.

(** ** Incoming segments *)

(** The test of the loops over connections: the state is that of the list. *)
Definition active_test (src dst : list Z) (h : tcp_hdr) (b : body) : ST bool :=
  (if bool_decide (b_state b ∈ [CLOSED; TIME_WAIT; LISTEN]) then fail AssertFailure else mret ());;
  mret (match b with Conn c => is_for src dst h c | Lsn _ => false end).
Definition tw_test (src dst : list Z) (h : tcp_hdr) (b : body) : ST bool :=
  (if bool_decide (b_state b = TIME_WAIT) then mret () else fail AssertFailure);;
  mret (match b with Conn c => is_for src dst h c | Lsn _ => false end).

(** An interface: its two letters and its number. *)
Definition netif_is_named (inp : list Z * Z) (name : list Z) : bool :=
  bool_decide (take 2 name = inp.1) && (inp.2 =? u8 (nth 2 name 0 - 48)).

(** A listening control block of the address [dst] and the port [port]; one that
    is bound to the interface is second choice. *)
Definition listens_on (dst : list Z) (port : Z) (b : body) : bool :=
  (b_local_port b =? port) &&
  (is_any_type (b_local_ip b) ||
   (bool_decide (IP_GET_TYPE (b_local_ip b) = IP_GET_TYPE dst) && (bool_decide (b_local_ip b = dst) || isany (b_local_ip b)))).
Definition listens_on_netif (inp : list Z * Z) (dst : list Z) (b : body) : bool :=
  (is_any_type (b_local_ip b) || bool_decide (IP_GET_TYPE (b_local_ip b) = IP_GET_TYPE dst)) && netif_is_named inp (b_local_netif b).

Definition find_listener (inp : list Z * Z) (dst : list Z) (port : Z) : ST (option place) :=
  h ← gets tcp_listen_pcbs; n ← gets list_fuel;
  r ← walk n (λ (a : option positive * option place) id,
    b ← get_body id;
    if negb (b_bound_to_netif b =? 0) then
      mret (inl (Some id, if listens_on_netif inp dst b then Some (a.1, id) else a.2))
    else if listens_on dst port b then mret (inr (a.1, id)) else mret (inl (Some id, a.2))) (None, None) h;
  mret (match r with inl a => a.2 | inr x => Some x end).

(** The listener of the connection [id] has an accept callback, which is told:
    the assertion before [TCP_EVENT_ACCEPT] and the event. *)
Definition accept_event (s : stack) (id : positive) : TCP Z :=
  p ← gets pcb;
  match listener p with
  | None => mret ERR_VAL
  | Some l =>
      match blocks s !! l with
      | Some (mk_block _ (Lsn b)) =>
          match l_accept b with
          | None => fail AssertFailure
          | Some f =>
              if (f =? tcp_accept_null_id)%positive then LwipTcpApi.tcp_abort (app_err id);; mret ERR_ABRT else app_accept id
          end
      | _ => fail InvalidFree
      end
  end.

(** It is told that there is no memory for a connection. *)
Definition accept_no_memory (lpcb : positive) (l : tcp_pcb_listen) : TCP Z :=
  match l_accept l with
  | None => mret ERR_ARG
  | Some f => if (f =? tcp_accept_null_id)%positive then fail NullPointer else app_accept lpcb
  end.

Definition tcp_listen_input (lpcb : positive) (src dst : list Z) (h : tcp_hdr) : ST () :=
  b ← get_body lpcb; g ← gets glob;
  match b with
  | Conn _ => fail OutOfBounds
  | Lsn l =>
      let f := flags g in
      let input := LwipTcpProcess.tcp_listen_input (app_err lpcb) (accept_no_memory lpcb l) lpcb (l_so_options l) src dst h in
      if has f TCP_RST || has f TCP_ACK || negb (has f TCP_SYN) then on_glob (input None 0)
      else
        r ← tcp_alloc (l_prio l);
        match r with
        | None => on_glob (input None 0)
        | Some id =>
            p ← get_conn id; n ← tcp_next_iss;
            focus id (LwipTcpProcess.tcp_listen_input (app_err id) (app_accept id) lpcb (l_so_options l) src dst h (Some p) n)
        end
  end.

(** A segment [p] from [src] to [dst] that came in on the interface [inp]. *)
Definition tcp_input (inp : list Z * Z) (src dst : list Z) (many : bool) (chksum : Z) (p : list tbuf) : ST () :=
  r ← on_glob (input_header many chksum p);
  match r with
  | None => mret ()
  | Some (h, p) =>
      c ← find_in ActivePcbs (active_test src dst h);
      match c with
      | Some (prev, id) =>
          move_to_front ActivePcbs prev id;;
          s ← gets (λ s, s);
          focus id (input_matched (app_recv id) (app_err id) (app_sent id) (app_connected id) (accept_event s id) (matched_seg h p))
      | None =>
          c ← find_in TwPcbs (tw_test src dst h);
          match c with
          | Some (_, id) => focus id tcp_timewait_input
          | None =>
              l ← find_listener inp dst (h_dest h);
              match l with
              | Some (prev, id) => move_to_front ListenPcbs prev id;; tcp_listen_input id src dst h
              | None => on_glob (input_unmatched src dst h)
              end
          end
      end
  end.

(** ** Timers *)

(** Removing [id], which the loop found behind [prev]. *)
Definition unlink (l : pcb_list) (prev : option positive) (id : positive) : ST () :=
  n ← get_next id; h ← gets (head l);
  match prev with
  | Some q => LWIP_ERROR (negb (bool_decide (h = Some id)));; set_link q n
  | None => LWIP_ERROR (bool_decide (h = Some id));; set_head l n
  end.

(** What a callback did to the list of active connections. *)
Definition watched {A} (m : ST A) : ST bool :=
  modify (λ s, s <| tcp_active_pcbs_changed := false |>);; _ ← m; gets tcp_active_pcbs_changed.

(** When the list has changed the loop starts again, and skips what it has
    handled.  [out] is what the loop does when the fuel has run out; the model
    fails then. *)
Fixpoint slow_loop (out : ST ()) (fuel : nat) (prev cur : option positive) : ST () :=
  match cur with
  | None => mret ()
  | Some id =>
      match fuel with
      | O => out
      | S fuel =>
          p ← get_conn id; ctr ← gets tcp_timer_ctr;
          LWIP_ERROR (negb (bool_decide (state p ∈ [CLOSED; LISTEN; TIME_WAIT])));;
          if last_timer p =? ctr then n ← get_next id; slow_loop out fuel prev n
          else
            r ← focus id (slowtmr_timers ctr);
            n ← get_next id;
            if r.1 : bool then
              on_conn id tcp_pcb_purge;;
              unlink ActivePcbs prev id;;
              changed ← watched (focus id (bury (app_err id) r.2));
              if changed : bool then h ← gets tcp_active_pcbs; slow_loop out fuel None h else slow_loop out fuel prev n
            else
              modify (λ s, s <| tcp_active_pcbs_changed := false |>);;
              changed ← focus id (poll_timer (app_poll id));
              if changed : bool then h ← gets tcp_active_pcbs; slow_loop out fuel None h else slow_loop out fuel (Some id) n
      end
  end.

Fixpoint tw_loop (out : ST ()) (fuel : nat) (prev cur : option positive) : ST () :=
  match cur with
  | None => mret ()
  | Some id =>
      match fuel with
      | O => out
      | S fuel =>
          p ← get_conn id; g ← gets glob;
          LWIP_ERROR (bool_decide (state p = TIME_WAIT));;
          n ← get_next id;
          if idle_over (tcp_ticks g) (2 * TCP_MSL) p then
            on_conn id tcp_pcb_purge;; unlink TwPcbs prev id;; memp_free id;; tw_loop out fuel prev n
          else tw_loop out fuel (Some id) n
      end
  end.

(** Each start of a loop handles a connection that was not handled before, and
    walks over at most all of them. *)
Definition loop_fuel (s : stack) : nat := list_fuel s * list_fuel s.

Definition tick : ST () := modify (λ s, s <| tcp_timer_ctr ::= λ n, u8 (n + 1) |>).
Definition tcp_slowtmr : ST () :=
  modify (λ s, s <| glob ::= λ g, g <| tcp_ticks ::= λ n, u32 (n + 1) |> |>);; tick;;
  n ← gets loop_fuel; h ← gets tcp_active_pcbs;
  slow_loop (fail OutOfFuel) n None h;;
  n ← gets list_fuel; h ← gets tcp_tw_pcbs;
  tw_loop (fail OutOfFuel) n None h.

Fixpoint fast_loop (out : ST ()) (fuel : nat) (cur : option positive) : ST () :=
  match cur with
  | None => mret ()
  | Some id =>
      match fuel with
      | O => out
      | S fuel =>
          p ← get_conn id; ctr ← gets tcp_timer_ctr;
          if last_timer p =? ctr then n ← get_next id; fast_loop out fuel n
          else
            focus id (fasttmr_delayed ctr);;
            n ← get_next id;
            changed ← watched (focus id (fasttmr_refused (app_recv id)));
            if changed : bool then h ← gets tcp_active_pcbs; fast_loop out fuel h else fast_loop out fuel n
      end
  end.
Definition tcp_fasttmr : ST () := tick;; n ← gets loop_fuel; h ← gets tcp_active_pcbs; fast_loop (fail OutOfFuel) n h.

Definition tcp_tmr : ST () :=
  tcp_fasttmr;;
  modify (λ s, s <| tcp_timer ::= λ n, u8 (n + 1) |>);;
  n ← gets tcp_timer; if has n 1 then tcp_slowtmr else mret ().

(** ** Calls of the interfaces *)

Definition tcp_txnow : ST () :=
  h ← gets tcp_active_pcbs; n ← gets list_fuel;
  _ ← walk (B := ()) n (λ _ id,
    p ← get_conn id;
    (if has (pcb_flags p) TF_NAGLEMEMERR then _ ← focus id tcp_output; mret () else mret ());; mret (inl ())) () h;
  mret ().

(** [pbuf_free_ooseq] of [pbuf.c]: what came out of sequence for the first
    connection that has kept some is given up.  The flag it resets is in the
    state of [LwipPbuf]. *)
Definition keeps_ooseq (b : body) : bool :=
  match b with Conn p => match ooseq p with [] => false | _ => true end | Lsn _ => false end.
Definition pbuf_free_ooseq : ST () :=
  r ← find_in ActivePcbs (λ b, mret (keeps_ooseq b));
  match r with Some (_, id) => on_conn id (λ p, p <| ooseq := [] |>) | None => mret () end.

(** The next element is read before the connection goes. *)
Fixpoint abort_bound_to (out : ST ()) (fuel : nat) (old_addr : list Z) (cur : option positive) : ST () :=
  match cur with
  | None => mret ()
  | Some id =>
      match fuel with
      | O => out
      | S fuel =>
          b ← get_body id; n ← get_next id;
          (if bool_decide (b_local_ip b = old_addr) then tcp_abort id else mret ());;
          abort_bound_to out fuel old_addr n
      end
  end.
Definition set_listen_addr (old_addr new_addr : list Z) (b : body) : body :=
  match b with Lsn l => Lsn (if bool_decide (l_local_ip l = old_addr) then l <| l_local_ip := new_addr |> else l) | Conn p => Conn p end.
(** [new_addr] is the null pointer when the interface is removed. *)
Definition tcp_netif_ip_addr_changed (old_addr : list Z) (new_addr : option (list Z)) : ST () :=
  if isany old_addr then mret ()
  else
    n ← gets list_fuel; h ← gets tcp_active_pcbs; abort_bound_to (fail OutOfFuel) n old_addr h;;
    n ← gets list_fuel; h ← gets tcp_bound_pcbs; abort_bound_to (fail OutOfFuel) n old_addr h;;
    match new_addr with
    | None => mret ()
    | Some new_addr =>
        if isany new_addr then mret ()
        else
          n ← gets list_fuel; h ← gets tcp_listen_pcbs;
          _ ← walk (B := ()) n (λ _ id, on_block id (λ b, b <| the_body ::= set_listen_addr old_addr new_addr |>);; mret (inl ())) () h;
          mret ()
    end.

End Pcbs.
