(* ===== verification/LwipTcpExamples.v ===== *)
(** TCP of lwIP, concrete connections: an environment in which every call
    succeeds, a connection, segments of its peer. *)
From S2P Require Import Prelude.
From S2P Require Import LwipTcp.
From S2P Require Import LwipTcpOut.
From S2P Require Import LwipTcpApi.
From S2P Require Import LwipTcpIn.
From S2P Require Import LwipTcpProcess.

Definition good_env : TcpEnv :=
  {| ip_route _ := true; netif_mtu _ := 1500; netif_ip _ := Some [10; 0; 0; 1]; ip_output_if _ := ERR_OK;
     netif_busy _ := false; pbuf_mem _ := true; seg_mem _ := true; garbage _ := 0 |}.

(** A header of the peer: no options, the window [TCP_WND]. *)
Definition peer_hdr (n ack f : Z) : tcp_hdr := mk_hdr 1000 80 n ack (TCPH_HDRLEN_FLAGS 5 f) TCP_WND.
Definition peer_seg (n ack f : Z) (data : list Z) : tcp_seg :=
  mk_seg (Some [mk_tbuf data None 0 0]) (zlen data) 0 (peer_hdr n ack f).

(** An open connection that has received everything up to 1000 and sent
    everything up to 500. *)
Definition open_pcb : tcp_pcb :=
  fresh_pcb 64 7 0 <| state := ESTABLISHED |> <| local_ip := [10; 0; 0; 1] |> <| remote_ip := [10; 0; 0; 2] |>
    <| local_port := 80 |> <| remote_port := 1000 |> <| rcv_nxt := 1000 |> <| rcv_ann_right_edge := 3048 |>
    <| snd_nxt := 500 |> <| lastack := 500 |> <| snd_lbb := 500 |> <| snd_wnd := TCP_WND |> <| snd_wnd_max := TCP_WND |>
    <| snd_wl2 := 500 |> <| cwnd := TCP_WND |> <| mss := TCP_MSS |>.

Definition open_conn : tcp :=
  mk_tcp open_pcb ActivePcbs false (peer_seg 0 0 0 []) 0 0 0 0 0 0 None false 7 0 0 [] None 0 [] 0%nat.

(** The state after a call, [s] if it failed. *)
Definition after {A} (m : TCP A) (s : tcp) : tcp := match m s with Ok (_, s') => s' | Fail _ => s end.
Definition outcome {A} (m : TCP A) (s : tcp) : result A := match m s with Ok (a, _) => Ok a | Fail e => Fail e end.

Lemma after_ok {A} (m : TCP A) s a s' : m s = Ok (a, s') → after m s = s'.
Proof. unfold after. by intros ->. Qed.
