(* ===== verification/LwipTcpFaults.v ===== *)
(** TCP of lwIP, what goes wrong: runs of the code that fail an assertion,
    read outside an object, use freed memory or corrupt the stream. *)
From S2P Require Import Prelude.
From S2P Require Import LwipTcp.
From S2P Require Import LwipTcpOut.
From S2P Require Import LwipTcpApi.
From S2P Require Import LwipTcpIn.
From S2P Require Import LwipTcpProcess.
From S2P Require Import LwipTcpExamples.

#[local] Existing Instance good_env.

(** The first segment that goes to the empty queue is not cut at the window.
    When the data before it arrives the window is too small for it. *)
Example ooseq_beyond_window :
  let s := after tcp_receive (arrive (peer_seg 2000 500 TCP_ACK (replicate 1460 1)) open_conn) in
  outcome tcp_receive (arrive (peer_seg 2000 500 TCP_ACK (replicate 1460 1)) open_conn) = Ok () ∧
  outcome tcp_receive (arrive (peer_seg 1000 500 TCP_ACK (replicate 1000 2)) s) = Fail AssertFailure.
Proof. vm_compute. done. Qed.

(** An MSS option counts in every segment.  One that makes the segments
    smaller than the last one written stops the next [tcp_write]. *)
Definition with_mss (m : Z) (s : tcp) : tcp :=
  s <| tcphdr_optlen := 4 |> <| tcphdr_opt1len := 4 |>
    <| tcphdr_opt1 := [LWIP_TCP_OPT_MSS; LWIP_TCP_OPT_LEN_MSS; m / 256; m mod 256] |> <| tcphdr_opt2 := None |>.
Definition no_app (_ : option (list tbuf)) : TCP Z := mret ERR_OK.
Definition no_err (_ : Z) : TCP () := mret ().
Definition process : TCP Z := tcp_process no_err (mret ERR_OK) (mret ERR_OK).

Example mss_option_stops_write :
  let write := tcp_write (Some 0) (replicate 400 1) TCP_WRITE_FLAG_COPY in
  let s := after process (with_mss 100 (arrive (peer_seg 1000 500 TCP_ACK []) (after write open_conn))) in
  outcome process (with_mss 100 (arrive (peer_seg 1000 500 TCP_ACK []) (after write open_conn))) = Ok ERR_OK ∧
  mss (pcb s) = 100 ∧ outcome write s = Fail AssertFailure.
Proof. vm_compute. done. Qed.

(** The last option has no length byte: the parser reads behind the packet. *)
Example option_read_overruns :
  outcome (tcp_input no_app no_err (λ _, mret ERR_OK) (mret ERR_OK) (mret ERR_OK) [10; 0; 0; 2] [10; 0; 0; 1] false 0
    [mk_tbuf [3; 232; 0; 80; 0; 0; 3; 232; 0; 0; 1; 244; 96; 16; 8; 0; 0; 0; 0; 0; 1; 1; 1; 2] None 0 0]) open_conn =
  Fail OutOfBounds.
Proof. vm_compute. done. Qed.

(** An environment whose [k]-th call to the interface fails. *)
Definition failing_env (k : nat) : TcpEnv :=
  {| ip_route _ := true; netif_mtu _ := 1500; netif_ip _ := Some [10; 0; 0; 1];
     ip_output_if n := if (n =? k)%nat then -1 else ERR_OK;
     netif_busy _ := false; pbuf_mem _ := true; seg_mem _ := true; garbage _ := 0 |}.

(** [n] bytes [b] are written. *)
Definition write (n : nat) (b : Z) `{TcpEnv} : TCP Z := tcp_write (Some 0) (replicate n b) TCP_WRITE_FLAG_COPY.
(** Two segments sent, then three acknowledgements that repeat an older one:
    the first segment is alone on the unsent queue. *)
Definition dup_ack (s : tcp) : tcp := after tcp_receive (arrive (peer_seg 1000 500 TCP_ACK []) s).
Definition fast_retransmit (H : TcpEnv) : tcp :=
  let send b s := after tcp_output (after (write 100 b) s) in
  dup_ack (dup_ack (dup_ack (send 2 (send 1 open_conn <| pcb ::= set_flag TF_NODELAY |>)))).

(** If it cannot be sent at once the next [tcp_write] appends to it: the new
    bytes take the sequence numbers of the second segment. *)
Example write_after_rexmit_overlaps :
  let env := failing_env 12 in
  let s := fast_retransmit env in
  let s' := after (write 5 3) (after tcp_output s) in
  outcome tcp_output s = Ok (-1) ∧ outcome (write 5 3) (after tcp_output s) = Ok ERR_OK ∧
  (λ c, (seqno_of c, from_option bytes [] (seg_p c))) <$> (unsent (pcb s') ++ unacked (pcb s')) =
    [(500, replicate 100 1 ++ replicate 5 3); (600, replicate 100 2)] ∧
  snd_lbb (pcb s') = 705.
Proof. vm_compute. done. Qed.

(** The application that gets refused data again may abort the connection;
    [tcp_input] then reads the window of the freed connection. *)
Example abort_in_refused_data :
  let recv _ := tcp_abort no_err;; mret ERR_ABRT in
  outcome (input_matched recv no_err (λ _, mret ERR_OK) (mret ERR_OK) (mret ERR_OK) (peer_seg 1000 500 TCP_ACK []))
    (open_conn <| pcb ::= λ p, p <| refused_data := Some [mk_tbuf [1] None 0 0] |> <| cb_recv := Some 2%positive |> |>) =
  Fail InvalidFree.
Proof. vm_compute. done. Qed.

(** While the peer has never offered a window the segments are as long as the
    MSS allows; half of the first small window is less than that, and the next
    [tcp_write] stops. *)
Example first_window_stops_write :
  let closed := open_conn <| pcb ::= λ p, p <| snd_wnd := 0 |> <| snd_wnd_max := 0 |> |> in
  let offer := peer_seg 1000 500 TCP_ACK [] <| seg_hdr ::= λ h, h <| h_wnd := 600 |> |> in
  let s := after tcp_receive (arrive offer (after (write 400 1) closed)) in
  outcome tcp_receive (arrive offer (after (write 400 1) closed)) = Ok () ∧ snd_wnd_max (pcb s) = 600 ∧
  outcome (write 5 2) s = Fail AssertFailure.
Proof. vm_compute. done. Qed.
