(* ===== verification/LwipTcpSeq.v ===== *)
(** TCP of lwIP, what its proofs share: sequence numbers as positions in an
    unbounded stream, header flags, the bytes of a chain, segments that carry
    a piece of a stream. *)
From S2P Require Import Prelude.
From S2P Require Import LwipTcp.
From S2P Require Import LwipTcpOut.
From S2P Require Import LwipTcpIn.

(** * Positions

    [At a x]: the 32-bit number [a] stands for the position [x].  Instances
    follow the arithmetic of an expression, so that a comparison of sequence
    numbers rewrites to the comparison of the positions. *)
Class At (a x : Z) := at_eq : u32 a = u32 x.

#[export] Instance at_u32 a x : At a x → At (u32 a) x.
Proof. unfold At. intros <-. apply Z.mod_mod. lia. Qed.
#[export] Instance at_add a b x y : At a x → At b y → At (a + b) (x + y).
Proof. unfold At, u32. intros Ha Hb. rewrite Z.add_mod, Ha, Hb, <- Z.add_mod by lia. done. Qed.
#[export] Instance at_sub a b x y : At a x → At b y → At (a - b) (x - y).
Proof. unfold At, u32. intros Ha Hb. rewrite Zminus_mod, Ha, Hb, <- Zminus_mod. done. Qed.
#[export] Instance at_s32 a x : At a x → At (s32 a) x.
Proof. unfold At, u32, s32. intros <-. rewrite Zminus_mod_idemp_l. f_equal. lia. Qed.
#[export] Instance at_refl a : At a a | 100.
Proof. done. Qed.

Lemma at_u32_eq a x `{!At a x} : u32 a = u32 x.
Proof. done. Qed.

Lemma s32_at a x `{!At a x} : - 2147483648 ≤ x < 2147483648 → s32 a = x.
Proof.
  intros Hx. rewrite <- (s32_small x Hx). pose proof (at_eq (a := a) (x := x)) as H. unfold u32 in H. unfold s32.
  f_equal. rewrite <- (Zplus_mod_idemp_l a), <- (Zplus_mod_idemp_l x). by rewrite H.
Qed.

Lemma u16_at a x `{!At a x} : u16 a = u16 x.
Proof.
  unfold u16. pose proof (at_eq (a := a) (x := x)) as H. unfold u32 in H.
  rewrite <- (Z.mod_mod_divide a (2 ^ 32)), <- (Z.mod_mod_divide x (2 ^ 32)) by (exists (2 ^ 16); lia). by rewrite H.
Qed.

Section compare.
Context (a b x y : Z) `{!At a x, !At b y} (Hd : - 2147483648 ≤ x - y < 2147483648).
Lemma seq_lt : TCP_SEQ_LT a b = (x <? y).
Proof using All. unfold TCP_SEQ_LT. rewrite (s32_at (a - b) (x - y)) by done. lia. Qed.
Lemma seq_leq : TCP_SEQ_LEQ a b = (x <=? y).
Proof using All. unfold TCP_SEQ_LEQ. rewrite (s32_at (a - b) (x - y)) by done. lia. Qed.
Lemma seq_gt : TCP_SEQ_GT a b = (x >? y).
Proof using All. unfold TCP_SEQ_GT. rewrite (s32_at (a - b) (x - y)) by done. lia. Qed.
Lemma seq_geq : TCP_SEQ_GEQ a b = (x >=? y).
Proof using All. unfold TCP_SEQ_GEQ. rewrite (s32_at (a - b) (x - y)) by done. lia. Qed.
Lemma u32_eqb : (u32 a =? u32 b) = (x =? y).
Proof using All.
  rewrite (at_eq (a := a) (x := x)), (at_eq (a := b) (x := y)).
  destruct (Z.eqb_spec x y) as [->|Hn]; [by rewrite Z.eqb_refl|]. apply Z.eqb_neq. intros E. apply Hn.
  assert (At (x - y) 0) as H0. { unfold At, u32 in *. rewrite Zminus_mod, E, <- Zminus_mod. by rewrite Z.sub_diag. }
  pose proof (s32_at (x - y) 0 ltac:(lia)). rewrite s32_small in * by lia. lia.
Qed.
End compare.

Lemma seq_between a b c x y z `{!At a x, !At b y, !At c z} :
  - 2147483648 ≤ x - y < 2147483648 → - 2147483648 ≤ x - z < 2147483648 →
  TCP_SEQ_BETWEEN a b c = (x >=? y) && (x <=? z).
Proof. intros. unfold TCP_SEQ_BETWEEN. by rewrite (seq_geq a b x y), (seq_leq a c x z). Qed.

(** * Flags *)

Lemma has_bit f i : 0 ≤ i → has f (2 ^ i) = Z.testbit f i.
Proof.
  intros Hi. unfold has. destruct (Z.testbit f i) eqn:E.
  - destruct (Z.eqb_spec (Z.land f (2 ^ i)) 0) as [H|]; [|done].
    assert (Z.testbit (Z.land f (2 ^ i)) i = false) as H0 by (by rewrite H, Z.bits_0).
    by rewrite Z.land_spec, E, Z.pow2_bits_true in H0.
  - destruct (Z.eqb_spec (Z.land f (2 ^ i)) 0) as [|H]; [done|]. exfalso. apply H. apply Z.bits_inj'. intros n Hn.
    rewrite Z.land_spec, Z.bits_0, Z.pow2_bits_eqb by done. destruct (Z.eqb_spec i n) as [<-|]; [by rewrite E|by rewrite andb_false_r].
Qed.

Lemma has_lor f c d : has f (Z.lor c d) = has f c || has f d.
Proof.
  unfold has. rewrite Z.land_lor_distr_r.
  destruct (Z.eqb_spec (Z.lor (Z.land f c) (Z.land f d)) 0) as [E|E].
  - apply Z.lor_eq_0_iff in E as [-> ->]. done.
  - destruct (Z.eqb_spec (Z.land f c) 0) as [E1|]; [|done]. destruct (Z.eqb_spec (Z.land f d) 0) as [E2|]; [|done].
    by rewrite E1, E2 in E.
Qed.

(** The flags of a header bit by bit. *)
Ltac flag_bits :=
  unfold is_fin, is_syn, set_fin, clear_fin, TCPH_SET_FLAG, TCPH_FLAGS_SET, TCPH_FLAGS, TCP_FIN, TCP_SYN, TCP_FLAGS,
    TCP_PSH, TCP_ACK, unset; get_set;
  change (has ?f 1) with (has f (2 ^ 0)); change (has ?f 2) with (has f (2 ^ 1));
  rewrite ?has_bit by lia; rewrite ?Z.land_spec, ?Z.lor_spec, ?Z.lnot_spec, ?Z.land_spec, ?Z.lor_spec by lia.

Lemma is_fin_set s : is_fin (set_fin s) = true.
Proof. flag_bits. cbn. by rewrite orb_true_r. Qed.
Lemma is_syn_set s : is_syn (set_fin s) = is_syn s.
Proof. flag_bits. cbn. by rewrite orb_false_r. Qed.
Lemma is_fin_clear s : is_fin (clear_fin s) = false.
Proof. flag_bits. cbn. by rewrite !andb_true_r, !andb_false_r. Qed.
Lemma is_syn_clear s : is_syn (clear_fin s) = is_syn s.
Proof. flag_bits. cbn. rewrite !andb_true_r, !andb_false_r. done. Qed.

Definition bit (b : bool) : Z := if b then 1 else 0.

Lemma tcplen_fin s : is_syn s = false → TCP_TCPLEN s = seg_len s + bit (is_fin s).
Proof. intros Hs. unfold TCP_TCPLEN. rewrite has_lor. unfold is_syn in Hs. rewrite Hs, orb_false_r. done. Qed.

(** * Chains *)

Lemma bytes_app p q : bytes (p ++ q) = bytes p ++ bytes q.
Proof. induction p as [|b p IH]; [done|]. cbn. by rewrite IH, app_assoc. Qed.

Lemma realloc_loop_bytes p n : 0 ≤ n → bytes (realloc_loop p n) = take (Z.to_nat n) (bytes p).
Proof.
  revert n. induction p as [|b p IH]; intros n Hn; cbn; [by rewrite take_nil|]. unfold tb_len. case_if; cbn; get_set.
  - rewrite IH by lia. rewrite take_app_ge by len_lia. f_equal. f_equal. len_lia.
  - rewrite app_nil_r, take_app_le by len_lia. done.
Qed.

Lemma pbuf_realloc_bytes p n : 0 ≤ n → bytes (pbuf_realloc p n) = take (Z.to_nat n) (bytes p).
Proof.
  intros Hn. unfold pbuf_realloc, tot_len. case_if; [|by apply realloc_loop_bytes]. rewrite take_ge by len_lia. done.
Qed.

Lemma pbuf_realloc_cons p n : p ≠ [] → pbuf_realloc p n ≠ [].
Proof. intros Hp. unfold pbuf_realloc. case_if; [done|]. destruct p; [done|]. cbn. by case_if. Qed.

Lemma skip_front_bytes p off :
  p ≠ [] → 0 ≤ off ≤ tot_len p → ∃ q, skip_front p off = Ok q ∧ q ≠ [] ∧ bytes q = drop (Z.to_nat off) (bytes p).
Proof.
  unfold tot_len. revert off. induction p as [|b p IH]; intros off Hp Hoff; [done|]. cbn in *. unfold tb_len. case_if.
  - destruct p as [|b2 p]; [cbn in Hoff; len_lia|].
    destruct (IH (off - zlen (tb_data b)) ltac:(done) ltac:(len_lia)) as (q & E2 & Hq & Hb).
    rewrite E2. exists (b <| tb_data := [] |> :: q). split_and!; [done|done|]. cbn. get_set. rewrite Hb.
    rewrite drop_app_ge by len_lia. cbn. f_equal. len_lia.
  - eexists. split_and!; [done|done|]. unfold hide_front. cbn. get_set. by rewrite drop_app_le by len_lia.
Qed.

(** * Streams

    The bytes of a stream from the position [a] on. *)
Definition span (S : Z → Z) (a n : Z) : list Z := (λ i, S (a + Z.of_nat i)) <$> seq 0 (Z.to_nat n).

Lemma span_length S a n : 0 ≤ n → zlen (span S a n) = n.
Proof. intros. unfold span, zlen. rewrite length_fmap, length_seq. lia. Qed.
Lemma span_nil S a n : n ≤ 0 → span S a n = [].
Proof. intros. unfold span. by replace (Z.to_nat n) with 0%nat by lia. Qed.
Lemma span_app S a n m : 0 ≤ n → 0 ≤ m → span S a (n + m) = span S a n ++ span S (a + n) m.
Proof.
  intros. unfold span. rewrite Z2Nat.inj_add, seq_app, fmap_app by lia. f_equal. cbn.
  apply list_eq. intros i. rewrite !list_lookup_fmap.
  destruct (decide (i < Z.to_nat m)%nat); [|rewrite !lookup_ge_None_2 by (rewrite length_seq; lia); done].
  rewrite !lookup_seq_lt by lia. cbn. do 2 f_equal. lia.
Qed.
Lemma span_take S a n m : 0 ≤ m ≤ n → take (Z.to_nat m) (span S a n) = span S a m.
Proof.
  intros. replace n with (m + (n - m)) by lia. rewrite span_app by lia. apply take_app_length'.
  pose proof (span_length S a m). unfold zlen in *. lia.
Qed.
Lemma span_drop S a n m : 0 ≤ m ≤ n → drop (Z.to_nat m) (span S a n) = span S (a + m) (n - m).
Proof.
  intros. replace n with (m + (n - m)) at 1 by lia. rewrite span_app by lia. apply drop_app_length'.
  pose proof (span_length S a m). unfold zlen in *. lia.
Qed.

(** * Segments of a stream

    [seg_at S F a s]: the segment [s] holds the bytes of [S] from the position
    [a] on.  [F] is the position of the FIN, if the stream has an end. *)
Record seg_at (S : Z → Z) (F : option Z) (a : Z) (s : tcp_seg) : Prop := {
  sa_seqno : seqno_of s = u32 a;
  sa_bytes : ∃ bufs, seg_p s = Some bufs ∧ bufs ≠ [] ∧ bytes bufs = span S a (seg_len s);
  sa_len : 0 ≤ seg_len s < 65535;
  sa_syn : is_syn s = false;
  sa_fin : is_fin s = true → F = Some (a + seg_len s);
  sa_end : ∀ f, F = Some f → a + seg_len s ≤ f }.

Section seg_at.
Context {S : Z → Z} {F : option Z}.
Implicit Types (a : Z) (s : tcp_seg).

Lemma is_fin_hdr s s' : seg_hdr s' = seg_hdr s → is_fin s' = is_fin s.
Proof. unfold is_fin. by intros ->. Qed.

Lemma bit_range b : 0 ≤ bit b ≤ 1.
Proof. destruct b; cbn; lia. Qed.

Lemma sa_tcplen a s : seg_at S F a s → TCP_TCPLEN s = seg_len s + bit (is_fin s) ∧ 0 ≤ TCP_TCPLEN s < 65536.
Proof. intros [_ _ ? Hs _ _]. rewrite (tcplen_fin s Hs). destruct (is_fin s); cbn; lia. Qed.

(** Cutting the end: the FIN must be gone or lie within. *)
Lemma trim_end_at a s n :
  seg_at S F a s → 0 ≤ n ≤ seg_len s → (is_fin s = true → n = seg_len s) →
  ∃ s', trim_end n s = Ok s' ∧ seg_at S F a s' ∧ seg_len s' = n ∧ seg_hdr s' = seg_hdr s.
Proof.
  intros [Hq (bufs & Hp & Hne & Hb) Hl Hs Hf He] Hn Hfin. unfold trim_end, seg_bufs. rewrite Hp.
  rewrite (u16_small n) by lia. eexists. split_and!; [done| |done|done].
  split; get_set; [done| |lia|done| |].
  - eexists. split_and!; [done|by apply pbuf_realloc_cons|]. rewrite pbuf_realloc_bytes, Hb by lia. apply span_take. lia.
  - intros Hx. rewrite (Hfin Hx). by apply Hf.
  - intros f Hx. specialize (He f Hx). lia.
Qed.

Lemma trim_end_u16 n s : trim_end (u16 n) s = trim_end n s.
Proof. unfold trim_end. by rewrite (u16_small (u16 n)) by apply u16_range. Qed.

(** To the start [b] of another segment. *)
Lemma trim_end_to a b s :
  seg_at S F a s → a ≤ b ≤ a + seg_len s → is_fin s = false →
  ∃ s', trim_end (u32 b - u32 a) s = Ok s' ∧ seg_at S F a s' ∧ seg_len s' = b - a ∧ seg_hdr s' = seg_hdr s.
Proof.
  intros Hs Hb Hf. pose proof (sa_len _ _ _ _ Hs).
  destruct (trim_end_at a s (b - a) Hs ltac:(lia)) as (s' & E & Hr); [by rewrite Hf|]. exists s'. split; [|done].
  rewrite <- E, <- trim_end_u16, (u16_at (u32 b - u32 a) (b - a)). apply trim_end_u16.
Qed.

Lemma clear_fin_at a s : seg_at S F a s → seg_at S F a (clear_fin s).
Proof.
  intros [Hq Hb Hl Hs Hf He]. split; [done|done|done|by rewrite is_syn_clear| |done]. by rewrite is_fin_clear.
Qed.

Lemma set_fin_at a s : seg_at S F a s → F = Some (a + seg_len s) → seg_at S F a (set_fin s).
Proof. intros [Hq Hb Hl Hs Hf He] HF. split; [done|done|done|by rewrite is_syn_set|done|done]. Qed.

(** Cutting the start. *)
Lemma trim_start_at a s m :
  seg_at S F a s → 0 ≤ m ≤ seg_len s → m < 32767 →
  ∃ s', trim_start (u32 (a + m)) (u32 a) s = Ok s' ∧ seg_at S F (a + m) s' ∧
    seg_len s' = seg_len s - m ∧ TCPH_FLAGS (seg_hdr s') = TCPH_FLAGS (seg_hdr s).
Proof.
  intros [Hq (bufs & Hp & Hne & Hb) Hl Hs Hf He] Hm Hoff. unfold trim_start. rewrite Hp.
  rewrite (s32_at _ (a + m - a)) by lia. replace (a + m - a) with m by lia.
  assert (tot_len bufs = seg_len s) as Ht by (unfold tot_len; rewrite Hb; apply span_length; lia).
  destruct (Z.ltb_spec m 32767); [|lia]. rewrite Ht. destruct (Z.geb_spec (seg_len s) m); [|lia].
  rewrite andb_false_r. cbn [negb]. destruct (skip_front_bytes bufs m Hne ltac:(lia)) as (q & -> & Hqn & Hqb). cbn.
  assert (u16 (u32 (a + m) - u32 a) = m) as Eoff
    by (rewrite (u16_at _ (a + m - a)); replace (a + m - a) with m by lia; apply u16_small; lia).
  rewrite Eoff. eexists. split_and!; [done| | |done]; get_set; [|by rewrite u16_small by lia].
  split; unfold seqno_of, is_syn, is_fin in *; get_set; rewrite ?(u16_small (seg_len s - m)) by lia; [done| |lia|done| |].
  - eexists. split_and!; [done|done|]. rewrite Hqb, Hb. apply span_drop. lia.
  - intros Hx. rewrite (Hf Hx). f_equal. lia.
  - intros f Hx. specialize (He f Hx). lia.
Qed.

End seg_at.
