(* ===== verification/LwipTcpStays.v ===== *)
(** TCP of lwIP, calls that leave a connection where it is: sending and
    receiving do not change its list, whether it is freed, its listener, its
    port and the timer tick it was last handled in; of the states they only
    note the FIN of the peer. *)
From S2P Require Import Prelude.
From S2P Require Import LwipTcp.
From S2P Require Import LwipTcpOut.
From S2P Require Import LwipTcpApi.
From S2P Require Import LwipTcpIn.
From S2P Require Import LwipTcpProcess.
From S2P Require Import LwipTcpTimer.
From S2P Require Import LwipTcpSeq.

Record pcb_stays (p p' : tcp_pcb) : Prop := {
  ps_listener : listener p' = listener p;
  ps_port : local_port p' = local_port p;
  ps_netif : bound_to_netif p' = bound_to_netif p;
  ps_last : last_timer p' = last_timer p;
  ps_state : state p' = state p ∨ state p = ESTABLISHED ∧ state p' = CLOSE_WAIT }.

Record stays (s s' : tcp) : Prop := {
  st_list : on_list s' = on_list s;
  st_freed : freed s' = freed s;
  st_input : tcp_input_pcb s' = tcp_input_pcb s;
  st_closed : has (recv_flags s') TF_CLOSED = has (recv_flags s) TF_CLOSED;
  st_reset : has (recv_flags s') TF_RESET = has (recv_flags s) TF_RESET;
  st_pcb : pcb_stays (pcb s) (pcb s') }.

#[export] Instance pcb_stays_pre : PreOrder pcb_stays.
Proof.
  split; [by split; auto|]. intros p q r [L1 P1 N1 T1 S1] [L2 P2 N2 T2 S2].
  split; [congruence..|]. destruct S1 as [E1|[? E1]], S2 as [E2|[? E2]]; rewrite ?E1, ?E2 in *; auto.
Qed.
#[export] Instance stays_pre : PreOrder stays.
Proof.
  split; [by split; try reflexivity|]. intros s t u [L1 F1 I1 C1 R1 P1] [L2 F2 I2 C2 R2 P2].
  split; [congruence..|]. by etransitivity.
Qed.

Lemma stays_on_pcb f : (∀ p, pcb_stays p (f p)) → framed stays (on_pcb f).
Proof. intros Hf. apply framed_modify. intros s. by split. Qed.

(** A change of fields the place does not depend on. *)
Ltac stay_pcb :=
  intros; split; unfold set_flag, clear_flag, tcp_ack, tcp_ack_now, set_flag, clear_flag, rexmit_started;
    get_set; repeat case_match; get_set; auto.
Ltac stay :=
  first [apply stays_on_pcb; solve [stay_pcb]
        |apply framed_modify; intros; split; get_set; solve [auto|reflexivity]].
#[export] Hint Extern 1 (framed stays (on_pcb _)) => stay : framed.
#[export] Hint Extern 1 (framed stays (modify _)) => stay : framed.

Section Stays.
Context `{TcpEnv}.

Lemma ask_stays {A} (f : nat → A) : framed stays (ask f).
Proof. unfold ask. framed. Qed.
#[local] Hint Resolve ask_stays : framed.

Lemma assert_stays b : framed stays (LWIP_ASSERT b).
Proof. unfold LWIP_ASSERT. framed. Qed.
#[local] Hint Resolve assert_stays : framed.

Lemma ip_output_stays p : framed stays (ip_output p).
Proof. unfold ip_output. framed. Qed.
#[local] Hint Resolve ip_output_stays : framed.

Lemma eff_send_mss_stays m d : framed stays (tcp_eff_send_mss m d).
Proof. unfold tcp_eff_send_mss. framed. Qed.
#[local] Hint Resolve eff_send_mss_stays : framed.

Lemma alloc_header_stays a b c : framed stays (tcp_output_alloc_header a b c).
Proof. unfold tcp_output_alloc_header. framed. Qed.
#[local] Hint Resolve alloc_header_stays : framed.

Lemma send_header_stays h t d : framed stays (send_header h t d).
Proof. unfold send_header. framed. Qed.
#[local] Hint Resolve send_header_stays : framed.

Lemma empty_ack_stays : framed stays tcp_send_empty_ack.
Proof. unfold tcp_send_empty_ack. framed. Qed.
#[local] Hint Resolve empty_ack_stays : framed.

Lemma rst_stays a b c d e f : framed stays (tcp_rst a b c d e f).
Proof. unfold tcp_rst. framed. Qed.
#[local] Hint Resolve rst_stays : framed.

Lemma keepalive_stays : framed stays tcp_keepalive.
Proof. unfold tcp_keepalive. framed. Qed.
Lemma probe_stays : framed stays tcp_zero_window_probe.
Proof. unfold tcp_zero_window_probe. framed. Qed.
#[local] Hint Resolve keepalive_stays probe_stays : framed.

Lemma create_segment_stays a b c d e : framed stays (tcp_create_segment a b c d e).
Proof. unfold tcp_create_segment. framed. Qed.
#[local] Hint Resolve create_segment_stays : framed.

Lemma enqueue_flags_stays f : framed stays (tcp_enqueue_flags f).
Proof. unfold tcp_enqueue_flags. framed. Qed.
#[local] Hint Resolve enqueue_flags_stays : framed.
Lemma send_fin_stays : framed stays tcp_send_fin.
Proof. unfold tcp_send_fin. framed. Qed.

Lemma phase1_stays p l n : framed stays (write_phase1 p l n).
Proof. unfold write_phase1. framed. Qed.
Lemma prealloc_stays a b c d : framed stays (tcp_pbuf_prealloc a b c d).
Proof. unfold tcp_pbuf_prealloc. framed. Qed.
#[local] Hint Resolve prealloc_stays phase1_stays : framed.
Lemma phase2_stays a b c d e f : framed stays (write_phase2 a b c d e f).
Proof. unfold write_phase2. framed. Qed.
Lemma bufs_stays a b c d e f : framed stays (write_bufs a b c d e f).
Proof. unfold write_bufs. framed. Qed.
#[local] Hint Resolve phase2_stays bufs_stays : framed.
Lemma phase3_stays n : ∀ a b c d e f, framed stays (write_phase3 n a b c d e f).
Proof. induction n; intros; cbn [write_phase3]; framed. Qed.
Lemma write_tail_stays a b c d : framed stays (write_tail a b c d).
Proof. unfold write_tail. framed. Qed.
Lemma write_checks_stays n : framed stays (tcp_write_checks n).
Proof. unfold tcp_write_checks. framed. Qed.
Lemma write_memerr_stays : framed stays write_memerr.
Proof. unfold write_memerr. framed. Qed.
Lemma write_commit_stays a b c d e f : framed stays (write_commit a b c d e f).
Proof. unfold write_commit. framed. Qed.
#[local] Hint Resolve phase3_stays write_tail_stays write_checks_stays write_memerr_stays write_commit_stays : framed.
Lemma tcp_write_stays a b c : framed stays (tcp_write a b c).
Proof. unfold tcp_write. framed. Qed.

Lemma segment_sent_stays seg l p : pcb_stays p (segment_sent seg l p).
Proof. unfold segment_sent, clear_flag. split; repeat case_match; get_set; auto. Qed.
Lemma output_segment_stays seg : framed stays (tcp_output_segment seg).
Proof. unfold tcp_output_segment. framed. Qed.
Lemma output_done_stays : framed stays output_done.
Proof. unfold output_done. framed. Qed.
#[local] Hint Resolve output_segment_stays output_done_stays : framed.
Lemma output_loop_stays w l : framed stays (output_loop w l).
Proof.
  induction l; cbn [output_loop]; framed. apply stays_on_pcb. intros. apply segment_sent_stays.
Qed.
#[local] Hint Resolve output_loop_stays : framed.
Lemma tcp_output_stays : framed stays tcp_output.
Proof. unfold tcp_output. framed. Qed.
#[local] Hint Resolve tcp_output_stays : framed.

Lemma rexmit_rto_stays : framed stays tcp_rexmit_rto.
Proof. unfold tcp_rexmit_rto. framed. Qed.

(** *** Receiving *)

(** What is computed from the connection replaces it. *)
Lemma stays_pcb_to p' s : pcb_stays (pcb s) p' → stays s (s <| pcb := p' |>).
Proof. intros. by split. Qed.

Lemma ann_wnd_stays p r : tcp_update_rcv_ann_wnd p = Ok r → pcb_stays p r.2.
Proof. unfold tcp_update_rcv_ann_wnd. cbv zeta. repeat case_match; try done; intros [= <-]; stay_pcb. Qed.
Lemma update_ann_wnd_stays : framed stays update_rcv_ann_wnd.
Proof.
  intros s. unfold update_rcv_ann_wnd, on_pcb. repeat wlp_step. apply stays_pcb_to. by apply ann_wnd_stays.
Qed.
#[local] Hint Resolve update_ann_wnd_stays : framed.

Lemma rexmit_stays p : pcb_stays p (tcp_rexmit p).
Proof. unfold tcp_rexmit, rexmit_started. stay_pcb. Qed.
Lemma rexmit_fast_stays p : pcb_stays p (tcp_rexmit_fast p).
Proof.
  unfold tcp_rexmit_fast. destruct (_ && _); [|done]. cbv zeta. transitivity (tcp_rexmit p); [apply rexmit_stays|]. stay_pcb.
Qed.
Lemma ack_old_stays a l e p : pcb_stays p (ack_old a l e p).
Proof.
  unfold ack_old. destruct (_ && _ && _ && _); [|stay_pcb]. cbv zeta. set (q := if _ >? _ then _ else p).
  transitivity q; [subst q; stay_pcb|]. destruct (_ >? 3); [stay_pcb|]. destruct (_ =? 3); [|done]. apply rexmit_fast_stays.
Qed.
Lemma update_snd_wnd_stays a b c p : pcb_stays p (update_snd_wnd a b c p).
Proof. unfold update_snd_wnd. cbv zeta. stay_pcb. Qed.

Lemma ack_new_stays a p p' : ack_new a p = Ok p' → pcb_stays p p'.
Proof. unfold ack_new, clear_flag. cbv zeta. intros E. repeat case_match; try done; injection E as <-; stay_pcb. Qed.
Lemma free_acked_stays seg p n r : free_acked seg p n = Ok r → pcb_stays p r.1.
Proof.
  unfold free_acked. destruct (negb _); [done|]. cbv zeta. destruct (_ || _); [|done]. intros [= <-]. cbn. stay_pcb.
Qed.
Lemma free_unacked_stays a l : ∀ p n r, free_unacked a l p n = Ok r → pcb_stays p r.1.
Proof.
  induction l as [|seg l IH]; intros p n r; cbn [free_unacked]; [by intros [= <-]|]. destruct (TCP_SEQ_LEQ _ _); [|by intros [= <-]].
  destruct (free_acked _ _ _) as [r1|] eqn:E; [|done]. cbn. intros E1. etransitivity; [|by eapply IH].
  apply free_acked_stays in E. etransitivity; [|exact E]. stay_pcb.
Qed.
Lemma free_unsent_stays a l : ∀ p n r, free_unsent a l p n = Ok r → pcb_stays p r.1.
Proof.
  induction l as [|seg l IH]; intros p n r; cbn [free_unsent]; [by intros [= <-]|]. destruct (TCP_SEQ_BETWEEN _ _ _); [|by intros [= <-]].
  destruct (free_acked _ _ _) as [r1|] eqn:E; [|done]. cbn. intros E1. etransitivity; [|by eapply IH].
  apply free_acked_stays in E. etransitivity; [|exact E]. stay_pcb.
Qed.

Lemma ack_segments_stays a : framed stays (ack_segments a).
Proof.
  intros s. unfold ack_segments, on_pcb. repeat wlp_step. apply ack_new_stays in Elift. apply free_unacked_stays in Elift0.
  assert (pcb_stays (pcb s) a1.1) as Hp by by etransitivity. split; get_set; try done. etransitivity; [exact Hp|]. stay_pcb.
Qed.
Lemma ack_unsent_stays a : framed stays (ack_unsent a).
Proof.
  intros s. unfold ack_unsent, on_pcb. repeat wlp_step. apply free_unsent_stays in Elift.
  split; get_set; try done. etransitivity; [exact Elift|]. unfold estimate_rtt. cbv zeta. stay_pcb.
Qed.
#[local] Hint Resolve ack_segments_stays ack_unsent_stays : framed.
Lemma receive_ack_stays : framed stays receive_ack.
Proof.
  unfold receive_ack. framed; apply stays_on_pcb; intros; first [apply update_snd_wnd_stays|apply ack_old_stays].
Qed.
#[local] Hint Resolve receive_ack_stays : framed.

Lemma advance_stays n : framed stays (advance n).
Proof. unfold advance. framed. Qed.
Lemma got_fin_stays : framed stays got_fin.
Proof.
  unfold got_fin. apply framed_modify. intros s. split; try done; get_set; unfold TF_GOT_FIN, TF_CLOSED, TF_RESET.
  - change 16 with (2 ^ 4). rewrite !has_bit by lia. rewrite Z.lor_spec. apply orb_false_r.
  - change 8 with (2 ^ 3). rewrite !has_bit by lia. rewrite Z.lor_spec. apply orb_false_r.
Qed.
#[local] Hint Resolve advance_stays got_fin_stays : framed.
Lemma close_wait_stays : framed stays (on_pcb (λ p, if bool_decide (state p = ESTABLISHED) then p <| state := CLOSE_WAIT |> else p)).
Proof. apply stays_on_pcb. intros p. case_bool_decide; [|done]. by split; auto. Qed.
#[local] Hint Resolve close_wait_stays : framed.
Lemma dequeue_stays l : framed stays (dequeue_ooseq l).
Proof. induction l; cbn [dequeue_ooseq]; framed. Qed.
#[local] Hint Resolve dequeue_stays : framed.
Lemma in_sequence_stays : framed stays receive_in_sequence.
Proof. unfold receive_in_sequence. framed. Qed.
Lemma seg_copy_stays : framed stays tcp_seg_copy.
Proof. unfold tcp_seg_copy. framed. Qed.
#[local] Hint Resolve in_sequence_stays seg_copy_stays : framed.
Lemma oos_insert_stays p l : framed stays (oos_insert p l).
Proof. unfold oos_insert. framed. Qed.
Lemma oos_append_stays n : framed stays (oos_append n).
Proof. unfold oos_append. framed. Qed.
#[local] Hint Resolve oos_insert_stays oos_append_stays : framed.
Lemma oos_walk_stays l : ∀ p, framed stays (oos_walk p l).
Proof. induction l; intros; cbn [oos_walk]; framed. Qed.
#[local] Hint Resolve oos_walk_stays : framed.
Lemma out_of_sequence_stays : framed stays receive_out_of_sequence.
Proof. unfold receive_out_of_sequence. framed. Qed.
#[local] Hint Resolve out_of_sequence_stays : framed.
Lemma receive_data_stays : framed stays receive_data.
Proof. unfold receive_data. framed. Qed.
#[local] Hint Resolve receive_data_stays : framed.
Lemma tcp_receive_stays : framed stays tcp_receive.
Proof. unfold tcp_receive. framed. Qed.

Lemma getoptbyte_stays : framed stays tcp_getoptbyte.
Proof. unfold tcp_getoptbyte. framed. Qed.
#[local] Hint Resolve getoptbyte_stays : framed.
Lemma parseopt_loop_stays n : framed stays (parseopt_loop n).
Proof. induction n; cbn [parseopt_loop]; framed. Qed.
#[local] Hint Resolve parseopt_loop_stays : framed.
Lemma parseopt_stays : framed stays tcp_parseopt.
Proof. unfold tcp_parseopt. framed. Qed.
Lemma rst_reply_stays : framed stays rst_reply.
Proof. unfold rst_reply. framed. Qed.
Lemma tcp_recved_stays n : framed stays (tcp_recved n).
Proof. unfold tcp_recved. framed. Qed.

End Stays.
