(* ===== verification/LwipTcpPlace.v ===== *)
(** TCP of lwIP, the place of a connection: the comment on the lists in
    [priv/tcp_priv.h] says which states a connection has on which list.  The
    code for one connection keeps that, and frees a connection only after it
    has left its list. *)
From S2P Require Import Prelude.
From S2P Require Import LwipTcp.
From S2P Require Import LwipTcpOut.
From S2P Require Import LwipTcpApi.
From S2P Require Import LwipTcpIn.
From S2P Require Import LwipTcpProcess.
From S2P Require Import LwipTcpTimer.
From S2P Require Import LwipTcpSeq.
From S2P Require Import LwipTcpStays.

(** ** The place of a connection *)

(** Membership in a list that is written out. *)
Ltac members := repeat match goal with
  | H : _ ∈ _ :: _ |- _ => apply elem_of_cons in H as [H|H]
  | H : _ ∈ [] |- _ => by apply elem_of_nil in H
  end.

(** The states of the connections on a list; a connection that is not yet
    bound is on none. *)
Definition state_of_list (l : pcb_list) (st : tcp_state) : Prop :=
  match l with
  | ActivePcbs => st ∉ [CLOSED; LISTEN; TIME_WAIT]
  | TwPcbs => st = TIME_WAIT
  | BoundPcbs | NoList => st = CLOSED
  | ListenPcbs => False
  end.

(** A connection with the listener [l] that is not freed; [k] says whether it
    may be bound. *)
Record settled (k : bool) (l : option positive) (s : tcp) : Prop := {
  se_listener : listener (pcb s) = l;
  se_state : state_of_list (on_list s) (state (pcb s));
  se_off : on_list s = NoList → l = None;
  se_bound : on_list s = BoundPcbs → k = true ∧ (local_port (pcb s) ≠ 0 ∨ bound_to_netif (pcb s) ≠ 0) }.

(** While a segment is processed a connection that has to be freed
    ([TF_CLOSED]) may have left its list. *)
Record in_process (k : bool) (l : option positive) (s : tcp) : Prop := {
  ip_place : settled k l s ∨ on_list s = NoList ∧ listener (pcb s) = l ∧ has (recv_flags s) TF_CLOSED = true;
  ip_closed : has (recv_flags s) TF_CLOSED = true → state (pcb s) ∈ [CLOSE_WAIT; LAST_ACK];
  ip_reset : has (recv_flags s) TF_RESET = false }.

(** [tcp_in.c] is processing a segment of the connection, or it is not and the
    flags are those of an older segment. *)
Inductive mode := Processing | Idle (closed reset : bool).

Definition mode_of (m : mode) (s : tcp) : Prop :=
  match m with
  | Processing => tcp_input_pcb s = true
  | Idle c r => tcp_input_pcb s = false ∧ has (recv_flags s) TF_CLOSED = c ∧ has (recv_flags s) TF_RESET = r
  end.

(** The connection is where it should be, or was freed and is on no list. *)
Definition placed (k : bool) (l : option positive) (m : mode) (s : tcp) : Prop :=
  mode_of m s ∧
  if freed s then on_list s = NoList else match m with Processing => in_process k l s | Idle _ _ => settled k l s end.

Lemma settled_stays k l s s' : settled k l s → stays s s' → settled k l s'.
Proof.
  intros [Hl Hs Ho Hb] [El _ _ _ _ [E1 E2 E3 _ Est]]. split; rewrite ?El, ?E1, ?E2, ?E3; try done.
  destruct Est as [->|[E ->]]; [done|]. rewrite E in Hs. destruct (on_list s); try done. cbn. intros Hn. by members.
Qed.

Lemma in_process_stays k l s s' : in_process k l s → stays s s' → in_process k l s'.
Proof.
  intros [Hp Hc Hr] Hst. pose proof Hst as [El _ _ Ec Er [E1 E2 E3 _ Est]]. split; rewrite ?Ec, ?Er; try done.
  - destruct Hp as [Hp|Hp]; [left; by eapply settled_stays|right; by rewrite El, E1].
  - intros E. specialize (Hc E). destruct Est as [->|[E4 _]]; [done|]. rewrite E4 in Hc. by members.
Qed.

Lemma placed_stays k l m s s' : placed k l m s → stays s s' → placed k l m s'.
Proof.
  intros [Hm Hp] Hst. pose proof Hst as [El Ef Ei Ec Er _]. split; [destruct m; cbn in *; by rewrite ?Ei, ?Ec, ?Er|].
  rewrite Ef. destruct (freed s); [by rewrite El|]. destruct m; [by eapply in_process_stays|by eapply settled_stays].
Qed.

(** The list of a state. *)
Definition list_of (st : tcp_state) : pcb_list :=
  match st with CLOSED => BoundPcbs | TIME_WAIT => TwPcbs | _ => ActivePcbs end.

Lemma placed_list k l m s : placed k l m s → on_list s = NoList ∨ on_list s = list_of (state (pcb s)).
Proof.
  assert (settled k l s → on_list s = NoList ∨ on_list s = list_of (state (pcb s))) as Hs.
  { intros [_ Hs _ _]. destruct (on_list s); auto; cbn in Hs; try done; [by rewrite Hs; auto| |by rewrite Hs; auto].
    right. destruct (state (pcb s)); try done; destruct Hs; apply list_elem_of_In; cbn; auto. }
  intros [_ Hp]. destruct (freed s); [by left|]. destruct m; [|by apply Hs]. destruct (ip_place _ _ _ Hp) as [|(? & _)]; auto.
Qed.

(** A connection on the list of active ones. *)
Lemma settled_active k l s :
  listener (pcb s) = l → on_list s = ActivePcbs → state (pcb s) ∉ [CLOSED; LISTEN; TIME_WAIT] → settled k l s.
Proof. intros ? E ?. split; [done|by rewrite E..]. Qed.

(** Whether it is ready to be freed. *)
Definition leaves (m : mode) (s : tcp) : Prop := mode_of m s ∧ on_list s = NoList.

Lemma free_placed k l m s : leaves m s → wlp memp_free_pcb (λ _ s', placed k l m s' ∧ freed s' = true) s.
Proof.
  intros [Hm Hl]. unfold memp_free_pcb. do 2 wlp_step. wlp_step; [by wlp_step|]. wlp_step. by repeat split.
Qed.

Lemma mode_stays m s s' : mode_of m s → stays s s' → mode_of m s'.
Proof. intros Hm [_ _ Ei Ec Er _]. destruct m; cbn in *; by rewrite ?Ei, ?Ec, ?Er. Qed.

Section Placed.
Context `{TcpEnv}.

(** ** The calls that move a connection *)

Lemma stays_wlp {A} (f : TCP A) k l m s : framed stays f → placed k l m s → wlp f (λ _, placed k l m) s.
Proof. intros Hf Hp. eapply framed_wlp; [exact Hf|exact Hp|]. intros s1 s2. apply placed_stays. Qed.

Lemma purge_stays p : pcb_stays p (tcp_pcb_purge p).
Proof. unfold tcp_pcb_purge. stay_pcb. Qed.

Lemma remove_ok lst m s : mode_of m s →
  wlp (tcp_pcb_remove lst) (λ _ s', mode_of m s' ∧ on_list s' = if bool_decide (on_list s = lst) then NoList else on_list s) s.
Proof.
  intros Hm. unfold tcp_pcb_remove, TCP_RMV, LWIP_ASSERT, on_pcb. do 2 wlp_step. set (s1 := s <| on_list ::= _ |>).
  assert (mode_of m s1) as Hm1 by (by destruct m). assert (on_list s1 = if bool_decide (on_list s = lst) then NoList else on_list s) as El by done.
  rewrite <- El. clearbody s1. clear El Hm. do 5 wlp_step.
  eapply (wlp_mono _ (λ _ s', mode_of m s' ∧ on_list s' = on_list s1)).
  - wlp_step; [|wlp_step; by destruct m]. do 3 wlp_step. eapply wlp_mono; [apply tcp_output_stays|]. intros e s2 Hst. wlp_step.
    split; [eapply mode_stays; [|exact Hst]; by destruct m|by rewrite (st_list _ _ Hst)].
  - intros [] s2 [Hm2 El]. do 3 wlp_step. wlp_step; [|by wlp_step]. do 2 wlp_step. split; [by destruct m|done].
Qed.

(** [tcp_pcb_remove] from the list of the state. *)
Lemma remove_leaves k l lst m s :
  placed k l m s → lst = list_of (state (pcb s)) → wlp (tcp_pcb_remove lst) (λ _, leaves m) s.
Proof.
  intros Hp ->. eapply wlp_mono; [apply remove_ok, Hp|]. intros [] s' [Hm El]. split; [done|]. rewrite El.
  destruct (placed_list _ _ _ _ Hp) as [E|E]; rewrite E; [by destruct (bool_decide (NoList = _))|by rewrite bool_decide_eq_true_2].
Qed.

Lemma rmv_leaves k l lst m s :
  placed k l m s → lst = list_of (state (pcb s)) → wlp (TCP_RMV lst) (λ _, leaves m) s.
Proof.
  intros Hp ->. unfold TCP_RMV. wlp_step. split; [by destruct Hp, m|]. get_set.
  destruct (placed_list _ _ _ _ Hp) as [E|E]; rewrite E; [by destruct (bool_decide (NoList = _))|by rewrite bool_decide_eq_true_2].
Qed.

Lemma leaves_stays m s s' : leaves m s → stays s s' → leaves m s'.
Proof. intros [Hm Hl] Hst. split; [by eapply mode_stays|by rewrite (st_list _ _ Hst)]. Qed.

(** The callback for errors may only look. *)
Variable app_err : Z → TCP ().
Hypothesis err_stays : ∀ e, framed stays (app_err e).

Lemma event_err_stays f e : framed stays (TCP_EVENT_ERR app_err f e).
Proof using err_stays. unfold TCP_EVENT_ERR. destruct f; framed. Qed.

(** A connection that is bound to an interface stays on its list when it is
    aborted, see [LwipTcpStackRuns.abort_netif_dangles]. *)
Lemma abandon_ok k l m reset s :
  placed k l m s → (state (pcb s) = CLOSED → on_list s = BoundPcbs → local_port (pcb s) ≠ 0) →
  wlp (tcp_abandon app_err reset) (λ _ s', placed k l m s' ∧ freed s' = true) s.
Proof using err_stays.
  intros Hp Hn. unfold tcp_abandon, LWIP_ASSERT. do 3 wlp_step. wlp_step; [|by wlp_step]. wlp_step.
  destruct (bool_decide_reflect (state (pcb s) = TIME_WAIT)) as [Et|Et].
  { wlp_step. eapply wlp_mono; [eapply remove_leaves; [exact Hp|by rewrite Et]|]. intros [] s1 H1. by apply free_placed. }
  wlp_step. eapply (wlp_mono _ (λ _, leaves m)).
  - destruct (bool_decide_reflect (state (pcb s) = CLOSED)) as [Ec|Ec].
    + destruct (Z.eqb_spec (local_port (pcb s)) 0) as [Ep|Ep].
      * wlp_step. split; [apply Hp|]. destruct (placed_list _ _ _ _ Hp) as [|El]; [done|]. rewrite Ec in El. by destruct (Hn Ec El).
      * eapply rmv_leaves; [exact Hp|by rewrite Ec].
    + eapply remove_leaves; [exact Hp|]. by destruct (state (pcb s)).
  - intros [] s1 H1. do 3 wlp_step. eapply (wlp_mono _ (λ _, leaves m)).
    + wlp_step; [|by wlp_step]. eapply framed_wlp; [apply rst_stays|exact H1|]. apply leaves_stays.
    + intros [] s2 H2. wlp_step. eapply wlp_mono; [by apply (free_placed k l)|]. intros [] s3 [H3 Hf].
      eapply wlp_mono; [apply (event_err_stays _ _ s3)|]. intros [] s4 Hst. split; [by eapply placed_stays|by rewrite (st_freed _ _ Hst)].
Qed.

(** Between states of active connections. *)
Definition live (st : tcp_state) : Prop := st ∉ [CLOSED; LISTEN; TIME_WAIT].

Lemma placed_move k l m s f :
  placed k l m s → freed s = false → live (state (pcb s)) → live (state (f (pcb s))) →
  listener (f (pcb s)) = listener (pcb s) →
  (m = Processing → has (recv_flags s) TF_CLOSED = true → state (f (pcb s)) ∈ [CLOSE_WAIT; LAST_ACK]) →
  placed k l m (s <| pcb ::= f |>).
Proof.
  intros [Hm Hp] Hf Hl Hl' El Hc. split; [by destruct m|]. get_set. rewrite Hf in *.
  assert (settled k l s → settled k l (s <| pcb ::= f |>)) as Hs.
  { intros [E Hs _ Hb]. apply settled_active; get_set; [congruence| |done]. unfold live in *.
    destruct (on_list s); cbn in Hs; try done; rewrite Hs in Hl; destruct Hl; apply list_elem_of_In; cbn; auto. }
  destruct m; [|by apply Hs]. destruct Hp as [Hp Hcl Hr]. split; get_set; [|by apply Hc|done].
  destruct Hp as [Hp|(? & <- & ?)]; [left; by apply Hs|by right].
Qed.

Lemma live_states st : live st ↔ match st with CLOSED | LISTEN | TIME_WAIT => False | _ => True end.
Proof.
  unfold live. split; [|intros Hst Hin; members; by subst]. intros Hn. destruct st; try done; destruct Hn; apply list_elem_of_In; cbn; auto.
Qed.

Lemma fin_sent_ok k l m next s :
  placed k l m s → freed s = false → live (state (pcb s)) → live next →
  (m = Processing → has (recv_flags s) TF_CLOSED = true → next ∈ [CLOSE_WAIT; LAST_ACK]) →
  wlp (fin_sent next) (λ _ s', placed k l m s' ∧ freed s' = false) s.
Proof.
  intros Hp Hf Hl Hn Hc. unfold fin_sent. wlp_step. eapply wlp_mono; [apply send_fin_stays|]. intros e s1 Hst.
  assert (placed k l m s1) as Hp1 by by eapply placed_stays. assert (freed s1 = false) as Hf1 by by rewrite (st_freed _ _ Hst).
  assert (live (state (pcb s1))) as Hl1.
  { destruct (ps_state _ _ (st_pcb _ _ Hst)) as [->|[_ ->]]; [done|by apply live_states]. }
  unfold on_pcb. wlp_step; [|wlp_step].
  - do 2 wlp_step. wlp_step. eapply wlp_mono; [apply tcp_output_stays|]. intros e2 s2 Hst2. wlp_step.
    split; [|by rewrite (st_freed _ _ Hst2)]. eapply placed_stays; [|exact Hst2].
    apply (placed_move k l m s1); try done. intros -> E. apply Hc; [done|by rewrite <- (st_closed _ _ Hst)].
  - do 3 wlp_step. split; [|done]. eapply placed_stays; [exact Hp1|]. split; try done. stay_pcb.
  - by wlp_step.
Qed.

Lemma shutdown_fin_ok k l m s :
  placed k l m s → freed s = false → wlp tcp_close_shutdown_fin (λ _ s', placed k l m s' ∧ freed s' = false) s.
Proof.
  intros Hp Hf. unfold tcp_close_shutdown_fin. do 2 wlp_step.
  assert (∀ st, state (pcb s) = st → st ∉ [CLOSE_WAIT; LAST_ACK] → m = Processing → has (recv_flags s) TF_CLOSED = true → False) as Hno.
  { intros st E Hst -> Ec. destruct Hp as [_ Hp]. rewrite Hf in Hp. apply Hst. rewrite <- E. by apply (ip_closed _ _ _ Hp). }
  destruct (state (pcb s)) eqn:Es; try (by wlp_step); apply fin_sent_ok; try done; rewrite ?Es; try (by apply live_states).
  - intros Hm Hc. destruct (Hno SYN_RCVD); try done. intros Hin. by members.
  - intros Hm Hc. destruct (Hno ESTABLISHED); try done. intros Hin. by members.
  - intros _ _. apply list_elem_of_In. cbn. auto.
Qed.

Lemma placed_facts k l m s : placed k l m s → freed s = false →
  listener (pcb s) = l ∧ (m = Processing → has (recv_flags s) TF_RESET = false ∧
    (has (recv_flags s) TF_CLOSED = true → state (pcb s) ∈ [CLOSE_WAIT; LAST_ACK])).
Proof.
  intros [_ Hp] Hf. rewrite Hf in Hp. destruct m; [|by destruct Hp]. destruct Hp as [Hp Hc Hr]. split; [|done].
  destruct Hp as [[? _ _ _]|(_ & ? & _)]; done.
Qed.

Lemma placed_settled k l m s : mode_of m s → freed s = false → settled k l s →
  (m = Processing → has (recv_flags s) TF_RESET = false ∧ has (recv_flags s) TF_CLOSED = false) → placed k l m s.
Proof.
  intros Hm Hf Hs Hc. split; [done|]. rewrite Hf. destruct m; [|done]. destruct (Hc eq_refl) as [Hr Hcl].
  split; [by left| |done]. by rewrite Hcl.
Qed.

Lemma rmv_off k l m s lst : placed k l m s → lst = list_of (state (pcb s)) →
  on_list (s <| on_list ::= λ k, if bool_decide (k = lst) then NoList else k |>) = NoList.
Proof.
  intros Hp ->. get_set. destruct (placed_list _ _ _ _ Hp) as [E|E]; rewrite E; [by destruct (bool_decide (NoList = _))|].
  by rewrite bool_decide_eq_true_2.
Qed.

(** [recv_flags |= TF_CLOSED] *)
Lemma closed_flag f : has (Z.lor f TF_CLOSED) TF_CLOSED = true ∧ has (Z.lor f TF_CLOSED) TF_RESET = has f TF_RESET.
Proof.
  unfold TF_CLOSED, TF_RESET. change 16 with (2 ^ 4) at 2. change 8 with (2 ^ 3). rewrite !has_bit by lia. rewrite !Z.lor_spec.
  change (Z.testbit 16 4) with true. change (Z.testbit 16 3) with false. by rewrite orb_true_r, orb_false_r.
Qed.

Lemma close_with_reset_ok k l m s :
  placed k l m s → freed s = false → state (pcb s) ∈ [ESTABLISHED; CLOSE_WAIT] → wlp close_with_reset (λ _, placed k l m) s.
Proof.
  intros Hp Hf Hst. unfold close_with_reset, LWIP_ASSERT, on_pcb, TCP_REG. do 3 wlp_step. wlp_step; [|by wlp_step]. wlp_step.
  wlp_step. eapply wlp_mono; [apply rst_stays|]. intros [] s1 H1. do 2 wlp_step. set (s2 := s1 <| pcb ::= _ |>).
  assert (stays s s2) as H2 by (etransitivity; [exact H1|]; split; try done; apply purge_stays). clearbody s2. clear H1.
  pose proof (placed_stays _ _ _ _ _ Hp H2) as Hp2. assert (freed s2 = false) as Hf2 by by rewrite (st_freed _ _ H2).
  destruct (placed_facts _ _ _ _ Hp2 Hf2) as [Hl2 Hc2].
  assert (state (pcb s2) ∈ [ESTABLISHED; CLOSE_WAIT]) as Hst2.
  { destruct (ps_state _ _ (st_pcb _ _ H2)) as [->|[_ ->]]; [done|]. apply list_elem_of_In. cbn. auto. }
  wlp_step. unfold TCP_RMV. wlp_step.
  assert (on_list (s2 <| on_list ::= λ k, if bool_decide (k = ActivePcbs) then NoList else k |>) = NoList) as El3
    by (apply (rmv_off k l m); [done|members; by rewrite Hst2]).
  set (s3 := s2 <| on_list ::= _ |>) in *. assert (mode_of m s3) as Hm3 by by destruct Hp2, m.
  wlp_step. eapply (wlp_mono _ (λ _, placed k l m)); [|intros [] s4 H4; by wlp_step]. case_bool_decide as Ee.
  - do 3 wlp_step. apply placed_settled; [by destruct m|done|by split|]. intros E. destruct (Hc2 E) as [Hr _]. split; [done|].
    apply not_true_is_false. intros Hc. change (has (recv_flags s2) TF_CLOSED = true) in Hc. destruct (placed_facts _ _ _ _ Hp Hf) as [_ Hc1]. destruct (Hc1 E) as [_ Hcl].
    rewrite (st_closed _ _ H2) in Hc. apply Hcl in Hc. rewrite Ee in Hc. by members.
  - do 2 wlp_step. destruct (tcp_input_pcb s3) eqn:Ei; [|eapply wlp_mono; [by apply (free_placed k l m)|]; by intros [] s4 [H4 _]].
    destruct m as [|c r]; [|destruct Hm3 as (Hi & _); congruence]. destruct (Hc2 eq_refl) as [Hr _].
    unfold tcp_trigger_input_pcb_close. wlp_step. split; [done|]. change (freed _) with (freed s2). rewrite Hf2.
    destruct (closed_flag (recv_flags s2)) as [Ec Er]. split; [right; by split|intros _|by rewrite <- Er in Hr].
    change (state (pcb s2) ∈ [CLOSE_WAIT; LAST_ACK]). destruct (ps_state _ _ (st_pcb _ _ H2)) as [->|[Ee' _]]; [|done].
    assert (state (pcb s) = CLOSE_WAIT) as -> by (clear - Hst Ee; by members). apply list_elem_of_In. cbn. auto.
Qed.

Lemma close_shutdown_ok k l m b s :
  placed k l m s → freed s = false → wlp (tcp_close_shutdown b) (λ _, placed k l m) s.
Proof.
  intros Hp Hf. unfold tcp_close_shutdown. do 2 wlp_step. destruct (b && _ && _) eqn:Eb.
  { apply close_with_reset_ok; try done. apply andb_prop in Eb as [Eb _]. apply andb_prop in Eb as [_ Eb]. by apply bool_decide_eq_true in Eb. }
  assert (∀ lst : TCP (), wlp lst (λ _, leaves m) s → wlp (lst;; memp_free_pcb;; mret ERR_OK) (λ _, placed k l m) s) as Hfree.
  { intros lst Hl. wlp_step. eapply wlp_mono; [exact Hl|]. intros [] s1 H1. wlp_step. eapply wlp_mono; [by apply (free_placed k l m)|].
    intros [] s2 [H2 _]. by wlp_step. }
  destruct (state (pcb s)) eqn:Es; try (eapply wlp_mono; [by apply shutdown_fin_ok|by intros e s1 [H1 _]]).
  - apply Hfree. destruct ((_ =? 0) && _) eqn:E0; [|by eapply rmv_leaves; [|rewrite Es]]. wlp_step. split; [apply Hp|].
    destruct (placed_list _ _ _ _ Hp) as [|El]; [done|]. rewrite Es in El. apply andb_prop in E0 as [E0%Z.eqb_eq E1%Z.eqb_eq].
    destruct Hp as [_ Hp]. rewrite Hf in Hp. destruct m; [destruct (ip_place _ _ _ Hp) as [Hs|(? & _)]; [|done]|pose proof Hp as Hs];
      destruct (se_bound _ _ _ Hs El) as [_ [?|?]]; done.
  - apply Hfree. eapply remove_leaves; [done|by rewrite Es].
Qed.

Lemma rxclosed_stays : framed stays (on_pcb (set_flag TF_RXCLOSED)).
Proof. framed. Qed.

Lemma stays_then {A B} (f : TCP A) (g : A → TCP B) k l m (Q : B → tcp → Prop) s :
  framed stays f → placed k l m s → freed s = false →
  (∀ a s', placed k l m s' → freed s' = false → wlp (g a) Q s') → wlp (f ≫= g) Q s.
Proof.
  intros Hf Hp Hn Hg. wlp_step. eapply wlp_mono; [apply Hf|]. intros a s1 Hst. apply Hg; [by eapply placed_stays|by rewrite (st_freed _ _ Hst)].
Qed.

Lemma close_ok k l m s : placed k l m s → freed s = false → wlp tcp_close (λ _, placed k l m) s.
Proof.
  intros Hp Hf. unfold tcp_close. apply (stays_then _ _ k l m); [apply rxclosed_stays|done..|]. intros [] s1 Hp1 Hf1. by apply close_shutdown_ok.
Qed.

Lemma shutdown_ok k l m rx tx s : placed k l m s → freed s = false → wlp (tcp_shutdown rx tx) (λ _, placed k l m) s.
Proof.
  intros Hp Hf. unfold tcp_shutdown. do 2 wlp_step. wlp_step; [by wlp_step|].
  apply (stays_then _ _ k l m); [framed|done..|]. intros [] s1 Hp1 Hf1. wlp_step; [by apply close_shutdown_ok|].
  apply (stays_then _ _ k l m); [framed|done..|]. intros [] s2 Hp2 Hf2. wlp_step; [|by wlp_step]. wlp_step; [by apply close_shutdown_ok|by wlp_step].
Qed.

(** ** The application

    A callback may do anything to its connection that leaves it placed; it
    returns [ERR_ABRT] if and only if it has freed it. *)
Definition answered (l : option positive) (m : mode) (e : Z) (s : tcp) : Prop :=
  placed false l m s ∧ freed s = bool_decide (e = ERR_ABRT).
Definition behaves (cb : TCP Z) : Prop :=
  ∀ l m s, placed false l m s → freed s = false → wlp cb (λ e s', placed false l m s' ∧ (e = ERR_ABRT → freed s' = true)) s.

Lemma checked_wlp cb (Q : Z → tcp → Prop) l m s :
  wlp cb (λ e s', placed false l m s' ∧ (e = ERR_ABRT → freed s' = true) ∧ Q e s') s →
  wlp (checked cb) (λ e s', answered l m e s' ∧ Q e s') s.
Proof.
  intros Hb. unfold checked. wlp_step. eapply wlp_mono; [exact Hb|]. intros e s1 (Hp1 & He & HQ). do 2 wlp_step.
  destruct (freed s1) eqn:Ef; cbn [andb].
  - destruct (Z.eqb_spec e ERR_ABRT) as [->|]; [|apply wlp_fail]. apply wlp_ret. by split; [split; [|rewrite Ef, bool_decide_eq_true_2]|].
  - wlp_step. split; [|done]. split; [done|]. rewrite Ef, bool_decide_eq_false_2; [done|]. intros E. by specialize (He E).
Qed.
Lemma checked_ok cb l m s : behaves cb → placed false l m s → freed s = false → wlp (checked cb) (answered l m) s.
Proof.
  intros Hb Hp Hf. eapply wlp_mono; [apply (checked_wlp cb (λ _ _, True) l m)|by intros e s1 [? _]].
  eapply wlp_mono; [by apply (Hb l m)|]. by intros e s1 [? ?].
Qed.

(** *** The results of [tcp_close] *)

Definition gives {A} (P : A → Prop) (f : TCP A) : Prop := ∀ s, wlp f (λ a _, P a) s.
Lemma gives_ret {A} (P : A → Prop) a : P a → gives P (mret a).
Proof. intros Ha s. by apply wlp_ret. Qed.
Lemma gives_fail {A} (P : A → Prop) e : gives P (fail e).
Proof. intros s. apply wlp_fail. Qed.
Lemma gives_then {A B} (R : B → Prop) (P : A → Prop) (f : TCP B) (g : B → TCP A) :
  gives R f → (∀ b, R b → gives P (g b)) → gives P (f ≫= g).
Proof. intros Hf Hg s. apply wlp_bind. eapply wlp_mono; [apply Hf|]. intros b s1 Hb. by apply Hg. Qed.
Lemma gives_bind {A B} (P : A → Prop) (f : TCP B) (g : B → TCP A) : (∀ b, gives P (g b)) → gives P (f ≫= g).
Proof. intros Hg. apply (gives_then (λ _, True)); [by intros ????|auto]. Qed.
Lemma gives_if {A} (P : A → Prop) (b : bool) f g : gives P f → gives P g → gives P (if b then f else g).
Proof. by destruct b. Qed.
Ltac gives := repeat lazymatch goal with
  | |- gives _ (mret _) => apply gives_ret; auto
  | |- gives _ (fail _) => apply gives_fail
  | |- gives _ (_ ≫= _) => apply gives_bind; intros ?
  | |- gives _ (if _ then _ else _) => apply gives_if
  | |- gives _ (match ?x with _ => _ end) => destruct x
  end.

Lemma enqueue_flags_gives f : gives (λ e, e = ERR_OK ∨ e = ERR_MEM) (tcp_enqueue_flags f).
Proof. unfold tcp_enqueue_flags. gives. Qed.
Lemma close_gives : gives (λ e, e ≠ ERR_ABRT) tcp_close.
Proof.
  assert (∀ next, gives (λ e, e ≠ ERR_ABRT) (fin_sent next)) as Hfin.
  { intros next. unfold fin_sent. apply (gives_then (λ e, e = ERR_OK ∨ e = ERR_MEM)).
    - unfold tcp_send_fin. gives; apply enqueue_flags_gives.
    - intros e [-> | ->]; gives. }
  unfold tcp_close, tcp_close_shutdown, tcp_close_shutdown_fin, close_with_reset. gives; done.
Qed.

(** *** Callbacks *)

Variable app_recv : option (list tbuf) → TCP Z.
Hypothesis recv_behaves : ∀ d, behaves (app_recv d).

Lemma stays_answered (f : TCP ()) l m s : framed stays f → placed false l m s → freed s = false →
  wlp (f;; mret ERR_OK) (answered l m) s.
Proof.
  intros Hf Hp Hn. apply (stays_then _ _ false l m); [done..|]. intros [] s1 Hp1 Hf1. wlp_step. by split; [|rewrite Hf1].
Qed.

Lemma recv_null_behaves d e : behaves (tcp_recv_null d e).
Proof.
  intros l m s Hp Hf. unfold tcp_recv_null. destruct d as [d|].
  - eapply wlp_mono; [apply (stays_answered _ l m); [apply tcp_recved_stays|done..]|]. intros e1 s1 [Hp1 Hf1]. split; [done|].
    intros ->. by rewrite Hf1.
  - wlp_step; [|by wlp_step]. intros e1 s1 E. split; [by apply (close_ok false l m s Hp Hf e1 s1)|].
    intros ->. by apply close_gives in E.
Qed.

Lemma event_recv_ok d l m s : placed false l m s → freed s = false → wlp (TCP_EVENT_RECV app_recv d) (answered l m) s.
Proof using recv_behaves.
  intros Hp Hf. unfold TCP_EVENT_RECV. do 2 wlp_step. apply checked_ok; [|done..].
  destruct (cb_recv _); [case_match; [apply recv_null_behaves|apply recv_behaves]|apply recv_null_behaves].
Qed.
Lemma event_closed_ok l m s : placed false l m s → freed s = false → wlp (TCP_EVENT_CLOSED app_recv) (answered l m) s.
Proof using recv_behaves.
  intros Hp Hf. unfold TCP_EVENT_CLOSED. do 2 wlp_step. apply checked_ok; [|done..].
  destruct (cb_recv _); [case_match; [apply recv_null_behaves|apply recv_behaves]|].
  intros l1 m1 s1 Hp1 Hf1. wlp_step. by split.
Qed.

Lemma count_fin_stays : framed stays (on_pcb count_fin).
Proof. apply stays_on_pcb. unfold count_fin. stay_pcb. Qed.
#[local] Hint Resolve count_fin_stays : framed.

Lemma answered_live l m e s : answered l m e s → e ≠ ERR_ABRT → placed false l m s ∧ freed s = false.
Proof. intros [Hp ->] He. by rewrite bool_decide_eq_false_2. Qed.
Lemma live_answered l m e s : placed false l m s → freed s = false → e ≠ ERR_ABRT → answered l m e s.
Proof. intros Hp Hf He. split; [done|]. by rewrite bool_decide_eq_false_2. Qed.

Lemma process_refused_ok l m s :
  placed false l m s → freed s = false → wlp (tcp_process_refused_data app_recv) (answered l m) s.
Proof using recv_behaves.
  intros Hp Hf. unfold tcp_process_refused_data. do 2 wlp_step. destruct (refused_data _); [|by wlp_step].
  apply (stays_then _ _ false l m); [framed|done..|]. intros [] s1 Hp1 Hf1. wlp_step.
  eapply wlp_mono; [by apply event_recv_ok|]. intros e s2 Ha. cbv beta in Ha. destruct (Z.eqb_spec e ERR_OK) as [->|].
  - apply answered_live in Ha as [Hp2 Hf2]; [|done]. wlp_step; [|by wlp_step; apply live_answered].
    apply (stays_then _ _ false l m); [framed|done..|]. intros [] s3 Hp3 Hf3. wlp_step. eapply wlp_mono; [by apply event_closed_ok|].
    intros e s4 Ha. cbv beta in Ha. wlp_step. destruct (Z.eqb_spec e ERR_ABRT) as [->|]; [done|].
    apply answered_live in Ha as [Hp4 Hf4]; [|done]. by apply live_answered.
  - destruct (Z.eqb_spec e ERR_ABRT) as [->|]; [by wlp_step|]. apply answered_live in Ha as [Hp2 Hf2]; [|done].
    apply (stays_then _ _ false l m); [framed|done..|]. intros [] s3 Hp3 Hf3. wlp_step. by apply live_answered.
Qed.

(** ** [tcp_process] *)

(** The connection was reset; it is freed next. *)
Definition reset_now (s : tcp) : Prop :=
  tcp_input_pcb s = true ∧ freed s = false ∧ on_list s = ActivePcbs ∧ has (recv_flags s) TF_RESET = true.

Lemma reset_flag f : has (Z.lor f TF_RESET) TF_RESET = true.
Proof.
  unfold TF_RESET. change 8 with (2 ^ 3) at 2. rewrite has_bit by lia. rewrite Z.lor_spec. change (Z.testbit 8 3) with true. apply orb_true_r.
Qed.

Lemma process_rst_ok l s :
  placed false l Processing s → freed s = false → on_list s = ActivePcbs →
  wlp process_rst (λ e s', answered l Processing e s' ∨ e = ERR_RST ∧ reset_now s') s.
Proof.
  intros Hp Hf El. unfold process_rst, LWIP_ASSERT, on_pcb. do 6 wlp_step. cbv zeta. wlp_step.
  - wlp_step. wlp_step; [|by wlp_step]. do 6 wlp_step. right. destruct Hp as [Hm _]. split; [done|]. repeat split; try done. apply reset_flag.
  - do 3 wlp_step. left. apply live_answered; [|done..]. eapply placed_stays; [exact Hp|]. split; try done. stay_pcb.
Qed.

(** A state of an active connection is set. *)
Lemma set_state_ok l s st :
  placed false l Processing s → freed s = false → live (state (pcb s)) → live st →
  (has (recv_flags s) TF_CLOSED = true → st ∈ [CLOSE_WAIT; LAST_ACK]) →
  placed false l Processing (s <| pcb ::= λ p, p <| state := st |> |>).
Proof. intros. by apply placed_move. Qed.

(** The connection is not waiting to be freed. *)
Lemma not_closed l s : placed false l Processing s → freed s = false → state (pcb s) ∉ [CLOSE_WAIT; LAST_ACK] →
  has (recv_flags s) TF_CLOSED = false.
Proof.
  intros Hp Hf Hn. apply not_true_is_false. intros Hc. destruct (placed_facts _ _ _ _ Hp Hf) as [_ H1]. destruct (H1 eq_refl) as [_ H2].
  by apply Hn, H2.
Qed.

Lemma passive_close_placed l s :
  placed false l Processing s → freed s = false → live (state (pcb s)) → wlp passive_close (λ _ s', placed false l Processing s' ∧ freed s' = false) s.
Proof.
  intros Hp Hf Hl. unfold passive_close, on_pcb. do 2 wlp_step. wlp_step; [|by wlp_step]. wlp_step. split; [|done].
  apply (placed_move false l Processing s); try done; [by apply live_states|]. intros _ _. apply list_elem_of_In. cbn. auto.
Qed.

Lemma enter_time_wait_placed l s :
  placed false l Processing s → freed s = false → state (pcb s) ∉ [CLOSE_WAIT; LAST_ACK] → live (state (pcb s)) →
  wlp enter_time_wait (λ _ s', placed false l Processing s' ∧ freed s' = false) s.
Proof.
  intros Hp Hf Hn Hl. unfold enter_time_wait, TCP_RMV, TCP_REG, on_pcb. repeat wlp_step. split; [|done].
  destruct (placed_facts _ _ _ _ Hp Hf) as [El Hc]. destruct (Hc eq_refl) as [Hr _]. pose proof Hp as [Hm _].
  apply placed_settled; [exact Hm|exact Hf| |intros _; split; [exact Hr|by apply (not_closed l s)]].
  split; [|done..]. get_set. rewrite (ps_listener _ _ (purge_stays (pcb s))). exact El.
Qed.

(** After [tcp_receive] the state is the old one, unless the FIN came. *)
Lemma receive_then l (f : TCP ()) s :
  placed false l Processing s → freed s = false → state (pcb s) ≠ ESTABLISHED →
  (∀ s', placed false l Processing s' → freed s' = false → state (pcb s') = state (pcb s) →
    wlp f (λ _ s', placed false l Processing s' ∧ freed s' = false) s') →
  wlp (tcp_receive;; f) (λ _ s', placed false l Processing s' ∧ freed s' = false) s.
Proof.
  intros Hp Hf Hn Hg. wlp_step. eapply wlp_mono; [apply tcp_receive_stays|]. intros [] s1 Hst.
  apply Hg; [by eapply placed_stays|by rewrite (st_freed _ _ Hst)|]. by destruct (ps_state _ _ (st_pcb _ _ Hst)) as [|[]].
Qed.

Lemma process_state_placed l s :
  placed false l Processing s → freed s = false → wlp process_state (λ _ s', placed false l Processing s' ∧ freed s' = false) s.
Proof.
  intros Hp Hf. unfold process_state. do 2 wlp_step.
  assert (∀ st s', state (pcb s') = st → match st with FIN_WAIT_1 | FIN_WAIT_2 | CLOSING => True | _ => False end →
    placed false l Processing s' → freed s' = false →
    wlp enter_time_wait (λ _ s', placed false l Processing s' ∧ freed s' = false) s') as Htw.
  { intros st s' E Hst Hp' Hf'. apply enter_time_wait_placed; try done; rewrite E.
    - intros Hin. members; by rewrite Hin in Hst.
    - apply live_states. by destruct st. }
  assert (∀ s', wlp all_acked (λ _ s1, s1 = s') s') as Hack by (intros s'; unfold all_acked; repeat wlp_step; done).
  destruct (state (pcb s)) eqn:Es; try (by wlp_step).
  - wlp_step. eapply wlp_mono; [apply tcp_receive_stays|]. intros [] s1 Hst.
    apply passive_close_placed; [by eapply placed_stays|by rewrite (st_freed _ _ Hst)|]. apply live_states.
    destruct (ps_state _ _ (st_pcb _ _ Hst)) as [->|[_ ->]]; [by rewrite Es|done].
  - apply receive_then; [done..|by rewrite Es|]. intros s1 Hp1 Hf1 E1. rewrite Es in E1. do 3 wlp_step.
    eapply wlp_mono; [apply Hack|]. intros all s2 ->. assert (∀ st, live st → wlp (on_pcb (λ p, p <| state := st |>))
      (λ _ s', placed false l Processing s' ∧ freed s' = false) s1) as Hset.
    { intros st Hst. unfold on_pcb. wlp_step. split; [|done]. apply set_state_ok; try done; [by rewrite E1; apply live_states|].
      intros Hc. rewrite (not_closed l) in Hc; [done..|]. rewrite E1. intros Hin. by members. }
    wlp_step; [|wlp_step; [|by wlp_step]; apply Hset; by apply live_states].
    wlp_step. unfold on_pcb at 1. wlp_step. set (s3 := s1 <| pcb ::= _ |>).
    assert (stays s1 s3) as Hst by (split; try done; stay_pcb). assert (state (pcb s3) = FIN_WAIT_1) as E3 by done.
    assert (placed false l Processing s3) as Hp3 by by eapply placed_stays. wlp_step; [by apply (Htw FIN_WAIT_1)|].
    unfold on_pcb. wlp_step. split; [|done]. apply set_state_ok; try done; [by rewrite E3; apply live_states|by apply live_states|].
    intros Hc. rewrite (not_closed l) in Hc; [done..|]. rewrite E3. intros Hin. by members.
  - apply receive_then; [done..|by rewrite Es|]. intros s1 Hp1 Hf1 E1. rewrite Es in E1. do 2 wlp_step. wlp_step; [|by wlp_step].
    wlp_step. unfold on_pcb. wlp_step. apply (Htw FIN_WAIT_2); try done. eapply placed_stays; [exact Hp1|]. split; try done. stay_pcb.
  - apply receive_then; [done..|by rewrite Es|]. intros s1 Hp1 Hf1 E1. apply passive_close_placed; [done..|]. by rewrite E1, Es; apply live_states.
  - apply receive_then; [done..|by rewrite Es|]. intros s1 Hp1 Hf1 E1. rewrite Es in E1. wlp_step.
    eapply wlp_mono; [apply Hack|]. intros all s2 ->. wlp_step; [by apply (Htw CLOSING)|by wlp_step].
  - apply receive_then; [done..|by rewrite Es|]. intros s1 Hp1 Hf1 E1. rewrite Es in E1. wlp_step.
    eapply wlp_mono; [apply Hack|]. intros all s2 ->. wlp_step; [|by wlp_step]. unfold tcp_trigger_input_pcb_close. wlp_step.
    split; [|done]. destruct Hp1 as [Hm Hp1]. split; [done|]. change (freed _) with (freed s1). rewrite Hf1 in *.
    destruct (closed_flag (recv_flags s1)) as [Ec Er]. destruct Hp1 as [Hpl Hcl Hr]. split; [|intros _|by rewrite <- Er in Hr].
    + destruct Hpl as [Hpl|(? & ? & ?)]; [left; destruct Hpl; by split|right; by split].
    + change (state (pcb s1) ∈ [CLOSE_WAIT; LAST_ACK]). rewrite E1. apply list_elem_of_In. cbn. auto.
Qed.

Variable app_sent : Z → TCP Z.
Variable app_connected : TCP Z.
Variable app_accept : TCP Z.
Hypothesis sent_behaves : ∀ n, behaves (app_sent n).
Hypothesis connected_behaves : behaves app_connected.
(** A connection that is accepted is not closed at once. *)
Hypothesis accept_behaves : ∀ l m s, placed false l m s → freed s = false → on_list s = ActivePcbs →
  wlp app_accept (λ e s', placed false l m s' ∧ (e = ERR_ABRT → freed s' = true) ∧
    (e = ERR_OK → freed s' = false → on_list s' = ActivePcbs)) s.

Lemma free_syn_stays p p' : free_syn p = Ok p' → pcb_stays p p'.
Proof.
  unfold free_syn. destruct (negb _); [done|]. cbv zeta. intros E.
  assert (∀ q, pcb_stays p q → Ok (if bool_decide (unacked q = []) then q <| rtime := -1 |> else q <| rtime := 0 |> <| nrtx := 0 |>) = Ok p' →
    pcb_stays p p') as Hend by (intros q Hq [= <-]; etransitivity; [exact Hq|stay_pcb]).
  get_set_in E. destruct (unacked p) as [|u ul]; [destruct (unsent p) as [|v vl]; [done|]|]; cbn in E; (eapply Hend; [|exact E]); stay_pcb.
Qed.

Lemma connected_ok l s :
  placed false l Processing s → freed s = false → wlp (TCP_EVENT_CONNECTED app_connected) (answered l Processing) s.
Proof using connected_behaves.
  intros Hp Hf. unfold TCP_EVENT_CONNECTED. do 2 wlp_step. destruct (cb_connected _); [by apply checked_ok|]. wlp_step. by apply live_answered.
Qed.

Lemma syn_sent_placed l s :
  placed false l Processing s → freed s = false → state (pcb s) = SYN_SENT →
  wlp (process_syn_sent app_connected) (answered l Processing) s.
Proof using connected_behaves.
  intros Hp Hf Es. unfold process_syn_sent. do 10 wlp_step. wlp_step.
  - wlp_step. unfold on_pcb at 1. wlp_step. set (s1 := s <| pcb ::= _ |>).
    assert (placed false l Processing s1) as Hp1.
    { apply placed_move; try done; [by rewrite Es; apply live_states|by apply live_states|]. intros _ Hc.
      rewrite (not_closed l) in Hc; [done..|]. rewrite Es. intros Hin. by members. }
    assert (freed s1 = false) as Hf1 by done. clearbody s1.
    apply (stays_then _ _ false l Processing); [apply eff_send_mss_stays|done..|]. intros m s2 Hp2 Hf2.
    apply (stays_then _ _ false l Processing); [framed|done..|]. intros [] s3 Hp3 Hf3. do 4 wlp_step. apply free_syn_stays in Elift.
    wlp_step. unfold on_pcb at 1. wlp_step. wlp_step. eapply wlp_mono; [apply (connected_ok l); [|done]|].
    + eapply placed_stays; [exact Hp3|]. by split.
    + intros e s4 Ha. cbv beta in Ha. destruct (Z.eqb_spec e ERR_ABRT) as [->|]; [by apply wlp_ret|].
      apply answered_live in Ha as [Hp4 Hf4]; [|done]. apply stays_answered; [framed|done..].
  - wlp_step. eapply (wlp_mono _ (λ _ s', placed false l Processing s' ∧ freed s' = false)).
    + wlp_step; [|by wlp_step]. apply (stays_then _ _ false l Processing); [apply rst_reply_stays|done..|]. intros [] s1 Hp1 Hf1.
      do 2 wlp_step. wlp_step; [|by wlp_step]. apply (stays_then _ _ false l Processing); [framed|done..|]. intros [] s2 Hp2 Hf2.
      eapply wlp_mono; [apply rexmit_rto_stays|]. intros [] s3 Hst. split; [by eapply placed_stays|by rewrite (st_freed _ _ Hst)].
    + intros [] s1 [Hp1 Hf1]. wlp_step. by apply live_answered.
Qed.

Lemma active_live k l m s : placed k l m s → freed s = false → on_list s = ActivePcbs → live (state (pcb s)).
Proof.
  intros [_ Hp] Hf El. rewrite Hf in Hp. destruct m; [destruct (ip_place _ _ _ Hp) as [Hs|(? & _)]; [|congruence]|rename Hp into Hs];
    pose proof (se_state _ _ _ Hs) as Hst; by rewrite El in Hst.
Qed.

Lemma placed_not_bound l m s : placed false l m s → on_list s ≠ BoundPcbs.
Proof.
  intros [_ Hp] El. destruct (freed s); [congruence|].
  destruct m; [destruct (ip_place _ _ _ Hp) as [Hs|(? & _)]; [|congruence]|rename Hp into Hs]; by destruct (se_bound _ _ _ Hs El).
Qed.

Lemma abort_ok l m s : placed false l m s → wlp (tcp_abort app_err) (λ _ s', placed false l m s' ∧ freed s' = true) s.
Proof using err_stays. intros Hp. apply abandon_ok; [done|]. intros _ El. by destruct (placed_not_bound _ _ _ Hp). Qed.

(** The connection is accepted. *)
Lemma accepted_placed l s :
  placed false l Processing s → freed s = false → on_list s = ActivePcbs →
  wlp (tcp_receive;;
    modify (λ s, s <| recv_acked ::= λ n, if n =? 0 then n else n - 1 |>);;
    on_pcb (λ p, p <| cwnd := u16 (LWIP_TCP_CALC_INITIAL_CWND (mss p)) |>);;
    passive_close;; mret ERR_OK) (answered l Processing) s.
Proof.
  intros Hp Hf El. wlp_step. eapply wlp_mono; [apply tcp_receive_stays|]. intros [] s1 H1. do 2 wlp_step. wlp_step. unfold on_pcb. wlp_step. wlp_step.
  set (s2 := _ <| pcb ::= _ |>). assert (stays s s2) as H2 by (etransitivity; [exact H1|]; split; try done; stay_pcb).
  assert (placed false l Processing s2) as Hp2 by by eapply placed_stays. assert (freed s2 = false) as Hf2 by by rewrite (st_freed _ _ H2).
  eapply wlp_mono; [apply (passive_close_placed l); [done..|]|].
  - eapply active_live; [exact Hp2|done|]. by rewrite (st_list _ _ H2).
  - intros [] s3 [Hp3 Hf3]. wlp_step. by apply live_answered.
Qed.

Lemma syn_rcvd_placed l s :
  placed false l Processing s → freed s = false → on_list s = ActivePcbs → state (pcb s) = SYN_RCVD →
  wlp (process_syn_rcvd app_err app_accept) (answered l Processing) s.
Proof using err_stays accept_behaves.
  intros Hp Hf El0 Es. unfold process_syn_rcvd. do 8 wlp_step. wlp_step; [wlp_step|].
  - wlp_step. unfold on_pcb at 1. wlp_step. set (s1 := s <| pcb ::= _ |>).
    assert (placed false l Processing s1) as Hp1.
    { apply placed_move; try done; [by rewrite Es; apply live_states|by apply live_states|]. intros _ Hc.
      rewrite (not_closed l) in Hc; [done..|]. rewrite Es. intros Hin. by members. }
    assert (freed s1 = false) as Hf1 by done. assert (on_list s1 = ActivePcbs) as El1 by done. clearbody s1. wlp_step.
    eapply (wlp_mono _ (λ e s', answered l Processing e s' ∧ (e = ERR_OK → freed s' = false → on_list s' = ActivePcbs))).
    + destruct (listener (pcb s)); [|wlp_step; split; [by apply live_answered|done]]. by apply checked_wlp, accept_behaves.
    + intros e s2 [Ha El]. destruct (Z.eqb_spec e ERR_OK) as [->|]; cbn [negb].
      * apply answered_live in Ha as [Hp2 Hf2]; [|done]. by apply accepted_placed, El.
      * wlp_step. destruct (Z.eqb_spec e ERR_ABRT) as [->|]; cbn [negb]; [by do 2 wlp_step|].
        apply answered_live in Ha as [Hp2 Hf2]; [|done]. eapply wlp_mono; [by apply (abort_ok l Processing)|].
        intros [] s3 [Hp3 Hf3]. wlp_step. by split; [|rewrite Hf3].
  - apply stays_answered; [apply rst_reply_stays|done..].
  - apply stays_answered; [|done..]. framed. apply stays_on_pcb, rexmit_stays.
Qed.

Lemma process_placed l s :
  placed false l Processing s → freed s = false → on_list s = ActivePcbs →
  wlp (tcp_process app_err app_connected app_accept) (λ e s', answered l Processing e s' ∨ e = ERR_RST ∧ reset_now s') s.
Proof using err_stays connected_behaves accept_behaves.
  intros Hp Hf El. unfold tcp_process. do 6 wlp_step. wlp_step; [by apply process_rst_ok|].
  wlp_step; [eapply wlp_mono; [by apply (stays_answered _ l Processing); [framed|..]|by left]|].
  wlp_step. unfold on_pcb at 1. wlp_step. set (s1 := s <| pcb ::= _ |>).
  assert (stays s s1) as H1 by (subst s1; split; try done; stay_pcb). wlp_step. eapply wlp_mono; [apply parseopt_stays|]. intros [] s2 H2.
  assert (stays s s2) as Hst by by etransitivity. clear H1 H2.
  assert (placed false l Processing s2) as Hp2 by by eapply placed_stays. assert (freed s2 = false) as Hf2 by by rewrite (st_freed _ _ Hst).
  assert (state (pcb s) ≠ ESTABLISHED → state (pcb s2) = state (pcb s)) as Es2
    by (by destruct (ps_state _ _ (st_pcb _ _ Hst)) as [|[]]).
  eapply (wlp_mono _ (λ e s', answered l Processing e s')); [|by left].
  destruct (state (pcb s)) eqn:Es; try (by apply syn_sent_placed; [..|apply Es2]); try (by apply syn_rcvd_placed; [..|by rewrite (st_list _ _ Hst)|apply Es2]);
    (wlp_step; eapply wlp_mono; [by apply (process_state_placed l)|]); intros [] s3 [Hp3 Hf3]; wlp_step; by apply live_answered.
Qed.

(** ** What follows *)

(** The connection is where it should be, and [tcp_in.c] has no flags for it. *)
Definition rested (k : bool) (l : option positive) (s : tcp) : Prop :=
  if freed s then on_list s = NoList else settled k l s.

Lemma rested_placed k l s : tcp_input_pcb s = false → rested k l s → ∃ c r, placed k l (Idle c r) s.
Proof. intros Hi Hr. eexists _, _. by split. Qed.
Lemma placed_rested k l c r s : placed k l (Idle c r) s → rested k l s.
Proof. by intros [_ Hp]. Qed.

(** A connection that waits to be freed is; on the others the call has no effect. *)
Lemma delayed_close_ok s :
  freed s = false → (has (recv_flags s) TF_CLOSED = true → on_list s = NoList ∨ on_list s = ActivePcbs) →
  wlp (tcp_input_delayed_close app_err)
    (λ b s', if b : bool then freed s' = true ∧ on_list s' = NoList else s' = s ∧ has (recv_flags s) TF_CLOSED = false) s.
Proof using err_stays.
  intros Hf Hl. unfold tcp_input_delayed_close. do 2 wlp_step. destruct (has (recv_flags s) TF_CLOSED) eqn:Ec; [|by wlp_step].
  do 3 wlp_step. eapply (wlp_mono _ (λ _, stays s)).
  { wlp_step; [apply event_err_stays|by wlp_step]. }
  intros [] s1 H1. wlp_step. eapply wlp_mono; [apply (remove_ok ActivePcbs (if tcp_input_pcb s1 then Processing else
    Idle (has (recv_flags s1) TF_CLOSED) (has (recv_flags s1) TF_RESET)))|].
  { by destruct (tcp_input_pcb s1) eqn:E. }
  intros [] s2 [_ El]. rewrite (st_list _ _ H1) in El. unfold memp_free_pcb. do 3 wlp_step. wlp_step; [by wlp_step|]. do 2 wlp_step.
  split; [done|]. get_set. rewrite El. by destruct (Hl eq_refl) as [->| ->].
Qed.

(** [m] unless the connection is gone. *)
Lemma unless_ok (g : TCP bool) (f : TCP ()) (P : tcp → Prop) (Q : () → tcp → Prop) s :
  wlp g (λ b s', if b : bool then Q () s' else P s') s → (∀ s', P s' → wlp f Q s') → wlp (unless g f) Q s.
Proof.
  intros Hg Hf. unfold unless. wlp_step. eapply wlp_mono; [exact Hg|]. intros [] s1 H1; [by wlp_step|by apply Hf].
Qed.

Lemma answered_abrt l m s : answered l m ERR_ABRT s → placed false l m s ∧ freed s = true.
Proof. by intros [? ->]. Qed.

(** Gone, or placed and not gone. *)
Definition told (l : option positive) (b : bool) (s : tcp) : Prop :=
  placed false l Processing s ∧ freed s = b.

Lemma told_end l s : told l true s → rested false l s.
Proof. intros [[_ Hp] Hf]. unfold rested. by rewrite Hf in *. Qed.

Lemma tell_sent_ok l s : told l false s → wlp (tell_sent app_sent) (λ b, told l b) s.
Proof using sent_behaves.
  intros [Hp Hf]. unfold tell_sent. do 2 wlp_step. wlp_step; [|by wlp_step]. wlp_step. eapply (wlp_mono _ (answered l Processing)).
  - unfold TCP_EVENT_SENT. do 2 wlp_step. destruct (cb_sent _); [by apply checked_ok|]. wlp_step. by apply live_answered.
  - intros e s1 Ha. destruct (Z.eqb_spec e ERR_ABRT) as [->|].
    + wlp_step. by apply answered_abrt.
    + apply answered_live in Ha as [Hp1 Hf1]; [|done].
      apply (stays_then _ _ false l Processing); [framed|done..|]. intros [] s2 Hp2 Hf2. by wlp_step.
Qed.

Lemma tell_data_ok l s : told l false s → wlp (tell_data app_recv app_err) (λ b, told l b) s.
Proof using err_stays recv_behaves.
  intros [Hp Hf]. unfold tell_data, LWIP_ASSERT. do 4 wlp_step. destruct (recv_data s); [|by wlp_step].
  wlp_step. wlp_step; [|by wlp_step]. do 2 wlp_step.
  - wlp_step. eapply wlp_mono; [by apply abort_ok|]. intros [] s1 H1. by wlp_step.
  - wlp_step. eapply wlp_mono; [by apply event_recv_ok|]. intros e s1 Ha. cbv beta in Ha. destruct (Z.eqb_spec e ERR_ABRT) as [->|].
    + wlp_step. by apply answered_abrt.
    + apply answered_live in Ha as [Hp1 Hf1]; [|done]. apply (stays_then _ _ false l Processing); [framed|done..|].
      intros [] s2 Hp2 Hf2. by wlp_step.
Qed.

Lemma tell_fin_ok l s : told l false s → wlp (tell_fin app_recv) (λ b, told l b) s.
Proof using recv_behaves.
  intros [Hp Hf]. unfold tell_fin. do 4 wlp_step. wlp_step; [|by wlp_step]. destruct (refused_data _).
  - apply (stays_then _ _ false l Processing); [framed|done..|]. intros [] s1 Hp1 Hf1. by wlp_step.
  - apply (stays_then _ _ false l Processing); [framed|done..|]. intros [] s1 Hp1 Hf1. wlp_step.
    eapply wlp_mono; [by apply event_closed_ok|]. intros e s2 [Hp2 Hf2]. wlp_step. split; [done|]. rewrite Hf2.
    by destruct (Z.eqb_spec e ERR_ABRT) as [->|]; [apply bool_decide_eq_true_2|apply bool_decide_eq_false_2].
Qed.

Lemma told_pending l s : told l false s → has (recv_flags s) TF_CLOSED = true → on_list s = NoList ∨ on_list s = ActivePcbs.
Proof.
  intros [Hp Hf] Hc. destruct (placed_facts _ _ _ _ Hp Hf) as [_ Hs]. destruct (Hs eq_refl) as [_ Hst]. specialize (Hst Hc).
  destruct (placed_list _ _ _ _ Hp) as [|El]; [by left|right]. members; by rewrite El, Hst.
Qed.

Lemma told_settled l s : told l false s → has (recv_flags s) TF_CLOSED = false → settled false l s.
Proof.
  intros [[_ Hp] Hf] Hc. rewrite Hf in Hp. destruct (ip_place _ _ _ Hp) as [|(_ & _ & Hc')]; [done|congruence].
Qed.

Lemma rested_stays k l s s' : rested k l s → stays s s' → rested k l s'.
Proof.
  unfold rested. intros Hr Hst. rewrite (st_freed _ _ Hst). destruct (freed s); [by rewrite (st_list _ _ Hst)|by eapply settled_stays].
Qed.

Lemma gone_rested k l s : freed s = true ∧ on_list s = NoList → rested k l s.
Proof. unfold rested. by intros [-> ?]. Qed.

Lemma after_process_told l s :
  told l false s → wlp (after_process app_recv app_err app_sent) (λ _, rested false l) s.
Proof using err_stays recv_behaves sent_behaves.
  intros Ht. unfold after_process. do 2 wlp_step. destruct Ht as [Hp Hf]. destruct (placed_facts _ _ _ _ Hp Hf) as [_ Hr].
  destruct (Hr eq_refl) as [-> _]. assert (told l false s) as Ht by done. clear Hp Hf Hr.
  apply (unless_ok _ _ (told l false)).
  { eapply wlp_mono; [by apply tell_sent_ok|]. intros [] s1 H1; [by apply told_end|done]. }
  intros s1 H1. apply (unless_ok _ _ (told l false)).
  { eapply wlp_mono; [apply delayed_close_ok; [apply H1|by eapply told_pending]|].
    intros [] s2 H2; [by apply gone_rested|by destruct H2 as [-> _]]. }
  intros s2 H2. apply (unless_ok _ _ (told l false)).
  { eapply wlp_mono; [by apply tell_data_ok|]. intros [] s3 H3; [by apply told_end|done]. }
  intros s3 H3. apply (unless_ok _ _ (told l false)).
  { eapply wlp_mono; [by apply tell_fin_ok|]. intros [] s4 H4; [by apply told_end|done]. }
  intros s4 H4. do 2 wlp_step. apply (unless_ok _ _ (rested false l)).
  { eapply wlp_mono; [apply delayed_close_ok; [apply H4|exact (told_pending l s4 H4)]|]. intros [] s5 H5; [by apply gone_rested|].
    destruct H5 as [-> Hc]. destruct (told_settled _ _ H4 Hc). unfold rested. change (freed _) with (freed s4).
    destruct H4 as [_ ->]. by split. }
  intros s5 H5. wlp_step. eapply wlp_mono; [apply tcp_output_stays|]. intros e s6 H6. wlp_step. by eapply rested_stays.
Qed.

Lemma after_process_reset l s : reset_now s → wlp (after_process app_recv app_err app_sent) (λ _, rested false l) s.
Proof using err_stays.
  intros (Hi & Hf & El & Hr). unfold after_process. do 2 wlp_step. rewrite Hr. do 3 wlp_step.
  eapply wlp_mono; [apply event_err_stays|]. intros [] s1 H1. wlp_step.
  eapply wlp_mono; [apply (remove_ok ActivePcbs Processing)|].
  { cbn. by rewrite (st_input _ _ H1). }
  intros [] s2 [_ El2]. rewrite (st_list _ _ H1), El, bool_decide_eq_true_2 in El2 by done. unfold memp_free_pcb.
  do 2 wlp_step. wlp_step; [by wlp_step|]. wlp_step. by apply gone_rested.
Qed.

(** ** A segment for the connection *)

(** Data the application refused before is offered again before the segment is
    looked at: it must not close the connection then
    ([LwipTcpStackRuns.close_in_refused_data]). *)
Definition refused_open (s : tcp) : Prop :=
  refused_data (pcb s) ≠ None →
  wlp (tcp_process_refused_data app_recv) (λ _ s', freed s' = false → on_list s' = ActivePcbs) s.

Lemma refused_placed l s :
  placed false l (Idle false false) s → freed s = false → on_list s = ActivePcbs → refused_open s →
  ∀ p len, refused_data (pcb s) = refused_data p →
  wlp (match refused_data p with
       | None => mret false
       | Some _ =>
           err ← tcp_process_refused_data app_recv;
           p ← gets pcb;
           if (err =? ERR_ABRT) || (bool_decide (is_Some (refused_data p)) && (len >? 0)) then
             gone ← gets freed;
             if gone : bool then fail InvalidFree
             else (if rcv_ann_wnd p =? 0 then _ ← tcp_send_empty_ack; mret () else mret ());; mret true
           else mret false
       end)
    (λ b s', placed false l (Idle false false) s' ∧ (b = false → freed s' = false ∧ on_list s' = ActivePcbs)) s.
Proof using recv_behaves.
  intros Hp Hf El Hr p len Ep. rewrite <- Ep. destruct (refused_data (pcb s)) as [d|] eqn:Ed; [|by wlp_step].
  wlp_step. intros e s1 E1. pose proof (process_refused_ok l _ s Hp Hf e s1 E1) as Ha.
  assert (freed s1 = false → on_list s1 = ActivePcbs) as Hl by (apply (Hr ltac:(by rewrite Ed) e s1 E1)).
  do 2 wlp_step. destruct ((e =? ERR_ABRT) || _) eqn:Ec.
  - do 2 wlp_step. destruct (freed s1) eqn:Ef; [by wlp_step|]. wlp_step. eapply (wlp_mono _ (λ _, placed false l (Idle false false))).
    + apply stays_wlp; [|apply Ha]. pose proof empty_ack_stays. framed.
    + intros [] s2 H2. by wlp_step.
  - wlp_step. destruct (Z.eqb_spec e ERR_ABRT) as [->|]; [done|]. apply answered_live in Ha as [Hp1 Hf1]; [|done]. auto.
Qed.

Lemma input_matched_ok l seg s :
  tcp_input_pcb s = false → freed s = false → on_list s = ActivePcbs → settled false l s → refused_open (start_input seg s) →
  wlp (input_matched app_recv app_err app_sent app_connected app_accept seg)
    (λ _ s', tcp_input_pcb s' = false ∧ rested false l s') s.
Proof using err_stays recv_behaves sent_behaves connected_behaves accept_behaves.
  intros Hi Hf El Hs Hr. unfold input_matched. do 2 wlp_step. set (s0 := start_input seg s) in *.
  assert (placed false l (Idle false false) s0) as Hp0.
  { split; [by repeat split|]. change (freed s0) with (freed s). rewrite Hf. by destruct Hs. }
  do 4 wlp_step. wlp_step. eapply wlp_mono; [by apply (refused_placed l)|]. intros b s1 [Hp1 Hb].
  wlp_step. eapply (wlp_mono _ (λ _, rested false l)).
  - destruct b; [wlp_step; by eapply placed_rested|]. destruct (Hb eq_refl) as [Hf1 El1]. do 2 wlp_step. set (s2 := s1 <| tcp_input_pcb := true |>).
    assert (told l false s2) as [Hp2 Hf2].
    { split; [|done]. split; [done|]. change (freed s2) with (freed s1). rewrite Hf1. destruct Hp1 as [(_ & Hc & Hr1) Hp1].
      rewrite Hf1 in Hp1. split; [left; by destruct Hp1|intros Hc'; change (has (recv_flags s1) TF_CLOSED = true) in Hc'; congruence|done]. }
    wlp_step. eapply wlp_mono; [by apply (process_placed l)|]. intros e s3 H3.
    destruct H3 as [Ha|[-> Hreset]].
    + destruct (Z.eqb_spec e ERR_ABRT) as [->|].
      * wlp_step. apply answered_abrt in Ha. by apply told_end.
      * apply answered_live in Ha; [|done]. by apply after_process_told.
    + by apply after_process_reset.
  - intros [] s4 H4. wlp_step. split; [done|]. unfold rested in *. change (freed _) with (freed s4). destruct (freed s4); [done|]. by destruct H4.
Qed.

(** ** A new connection, and the timers *)

(** What a call leaves: [tcp_in.c] is not working on the connection, which is
    where it should be. *)
Definition idle_rested (k : bool) (l : option positive) (s : tcp) : Prop := tcp_input_pcb s = false ∧ rested k l s.

Lemma placed_idle k l c r s : placed k l (Idle c r) s → idle_rested k l s.
Proof. intros [[Hi _] Hp]. by split. Qed.
Lemma idle_placed k l s : idle_rested k l s → ∃ c r, placed k l (Idle c r) s.
Proof. intros [Hi Hr]. by apply rested_placed. Qed.
Lemma idle_stays k l s s' : idle_rested k l s → stays s s' → idle_rested k l s'.
Proof. intros [Hi Hr] Hst. split; [by rewrite (st_input _ _ Hst)|by eapply rested_stays]. Qed.

Lemma listen_input_ok lpcb so src dst h npcb n s :
  idle_rested true None s → freed s = false →
  wlp (tcp_listen_input app_err app_accept lpcb so src dst h (Some npcb) n)
    (λ _ s', idle_rested true None s' ∨ idle_rested false (Some lpcb) s') s.
Proof using err_stays.
  intros Hs Hf. unfold tcp_listen_input. do 8 wlp_step. wlp_step; [wlp_step; by left|].
  wlp_step; [eapply framed_wlp; [apply rst_stays|by left|]; intros s1 s2 [H1|H1] H2; [left|right]; by eapply idle_stays|].
  wlp_step; [|wlp_step; by left]. do 2 wlp_step. unfold TCP_REG. do 2 wlp_step. set (s1 := _ <| on_list := _ |>).
  assert (idle_rested false (Some lpcb) s1) as H1.
  { split; [by destruct Hs|]. unfold rested. change (freed s1) with (freed s). rewrite Hf. split; [done| |done|done].
    cbn. intros Hin. by members. }
  assert (freed s1 = false) as Hf1 by done. clearbody s1. destruct (idle_placed _ _ _ H1) as (c & r & Hp). clear H1.
  eapply (wlp_mono _ (λ _, placed false (Some lpcb) (Idle c r))); [|intros ? ? ?; right; by eapply placed_idle].
  apply (stays_then _ _ false (Some lpcb) (Idle c r)); [apply parseopt_stays|done..|]. intros [] s2 Hp2 Hf2.
  apply (stays_then _ _ false (Some lpcb) (Idle c r)); [framed|done..|]. intros [] s3 Hp3 Hf3. do 2 wlp_step.
  apply (stays_then _ _ false (Some lpcb) (Idle c r)); [apply eff_send_mss_stays|done..|]. intros m s4 Hp4 Hf4.
  apply (stays_then _ _ false (Some lpcb) (Idle c r)); [framed|done..|]. intros [] s5 Hp5 Hf5.
  apply (stays_then _ _ false (Some lpcb) (Idle c r)); [apply enqueue_flags_stays|done..|]. intros rc s6 Hp6 Hf6. wlp_step.
  - eapply wlp_mono; [by apply abandon_ok; [|intros _ El; destruct (placed_not_bound _ _ _ Hp6)]|]. by intros [] s7 [H7 _].
  - apply (stays_wlp (_ ← tcp_output; mret ()) _ _ _ _); [|done]. pose proof tcp_output_stays. framed.
Qed.

(** The connection was handled in the tick [ctr]. *)
Definition ticked (k : bool) (l : option positive) (m : mode) (ctr : Z) (s s' : tcp) : Prop :=
  placed k l m s' ∧ freed s' = freed s ∧ on_list s' = on_list s ∧ last_timer (pcb s') = ctr.

Lemma tick_then {A} k l m ctr (f : TCP A) s : framed stays f → placed k l m s →
  wlp (on_pcb (λ p, p <| last_timer := ctr |>);; f) (λ _, ticked k l m ctr s) s.
Proof.
  intros Hf Hp. wlp_step. unfold on_pcb. wlp_step. eapply wlp_mono; [apply Hf|]. intros a s1 Hst.
  split; [|split; [by rewrite (st_freed _ _ Hst)|split; [by rewrite (st_list _ _ Hst)|exact (ps_last _ _ (st_pcb _ _ Hst))]]].
  eapply placed_stays; [|exact Hst]. destruct Hp as [Hm Hp]. split; [by destruct m|]. get_set. destruct (freed s); [done|].
  destruct m; [|by destruct Hp]. destruct Hp as [Hp ? ?]. split; try done.
  destruct Hp as [Hp|Hp]; [left; by destruct Hp|by right].
Qed.

Lemma wlp_tick k l m ctr s : placed k l m s → wlp (on_pcb (λ p, p <| last_timer := ctr |>)) (λ _, ticked k l m ctr s) s.
Proof.
  intros Hp [] s1 E. apply (tick_then k l m ctr (mret ()) s (framed_ret _ _) Hp () s1). unfold mbind, M_bind. by rewrite E.
Qed.

Lemma slowtmr_timers_ok k l m ctr s : placed k l m s → wlp (slowtmr_timers ctr) (λ _, ticked k l m ctr s) s.
Proof.
  pose proof probe_stays. pose proof rexmit_rto_stays. pose proof keepalive_stays.
  assert (framed stays persist_timer) by (unfold persist_timer, start_persist; framed).
  assert (framed stays retransmission_timer).
  { intros s2. unfold retransmission_timer, on_pcb. do 4 wlp_step. set (s1 := s2 <| pcb ::= _ |>).
    assert (stays s2 s1) as Hs1 by (subst s1; split; try done; stay_pcb). clearbody s1. wlp_step; [|by wlp_step]. do 2 wlp_step.
    assert (pcb_stays (pcb s1) (collapse_window a)) as Ha.
    { unfold back_off in Elift. case_bool_decide; [injection Elift as <-; unfold collapse_window; stay_pcb|].
      destruct (arr_get _ _); [|done]. injection Elift as <-. unfold collapse_window. stay_pcb. }
    do 2 wlp_step. eapply wlp_mono; [apply rexmit_rto_stays|]. intros [] s3 Hs2. etransitivity; [exact Hs1|]. etransitivity; [|exact Hs2]. by split. }
  assert (framed stays keepalive_timer) by (unfold keepalive_timer; framed).
  intros Hp. unfold slowtmr_timers, drop_old_ooseq. do 4 wlp_step. apply tick_then; [framed|done].
Qed.

Lemma bury_ok k l c r b s : leaves (Idle c r) s → wlp (bury app_err b) (λ _ s', idle_rested k l s' ∧ freed s' = true) s.
Proof using err_stays.
  intros Hl. unfold bury. do 3 wlp_step. eapply (wlp_mono _ (λ _, leaves (Idle c r))).
  { wlp_step; [|by wlp_step]. eapply framed_wlp; [apply rst_stays|exact Hl|apply leaves_stays]. }
  intros [] s1 H1. wlp_step. eapply wlp_mono; [by apply (free_placed k l)|]. intros [] s2 [H2 Hf2].
  eapply wlp_mono; [apply event_err_stays|]. intros [] s3 H3. split; [|by rewrite (st_freed _ _ H3)].
  eapply placed_idle, placed_stays; [exact H2|exact H3].
Qed.

Variable app_poll : TCP (bool * Z).
(** The poll callback too; it knows whether it changed the list. *)
Definition polled (l : option positive) (m : mode) (changed : bool) (s s' : tcp) : Prop :=
  placed false l m s' ∧ last_timer (pcb s') = last_timer (pcb s) ∧ (changed = false → on_list s' = on_list s).
Hypothesis poll_behaves : ∀ l m s, placed false l m s → freed s = false → wlp app_poll (λ r, polled l m r.1 s) s.

Lemma polled_stays l m b s s1 s2 : polled l m b s s1 → stays s1 s2 → polled l m b s s2.
Proof.
  intros (Hp & Ht & Hl) Hst. split; [by eapply placed_stays|]. split; [by rewrite (ps_last _ _ (st_pcb _ _ Hst))|].
  intros Hb. rewrite (st_list _ _ Hst). by apply Hl.
Qed.

Lemma poll_timer_ok l m s : placed false l m s → freed s = false → wlp (poll_timer app_poll) (λ b, polled l m b s) s.
Proof using poll_behaves.
  intros Hp Hf. unfold poll_timer. wlp_step. unfold on_pcb at 1. wlp_step. set (s1 := s <| pcb ::= _ |>).
  assert (polled l m false s s1 ∧ freed s1 = false) as [H1 Hf1].
  { split; [|done]. apply (polled_stays _ _ _ _ s); [by split|]. split; try done. stay_pcb. }
  do 2 wlp_step. wlp_step; [|by wlp_step]. clearbody s1.
  wlp_step. unfold on_pcb at 1. wlp_step. set (s2 := s1 <| pcb ::= _ |>).
  assert (polled l m false s s2 ∧ freed s2 = false) as [H2 Hf2].
  { split; [|done]. apply (polled_stays _ _ _ _ s1); [done|]. split; try done. stay_pcb. }
  clearbody s2. wlp_step. destruct H2 as (Hp2 & Ht2 & Hl2). eapply (wlp_mono _ (λ r, polled l m r.1 s2)).
  { destruct (cb_poll _); [by apply poll_behaves|]. wlp_step. by split. }
  intros r s3 (Hp3 & Ht3 & Hl3). assert (polled l m r.1 s s3) as H3.
  { split; [done|]. split; [congruence|]. intros Hr. rewrite Hl3 by done. by apply Hl2. }
  do 3 wlp_step. eapply (wlp_mono _ (λ _, polled l m r.1 s)); [|intros [] s4 H4; by wlp_step].
  eapply framed_wlp; [|exact H3|intros ? ?; apply polled_stays]. pose proof tcp_output_stays. framed.
Qed.

Lemma fasttmr_delayed_ok l m ctr s :
  placed false l m s → freed s = false → wlp (fasttmr_delayed ctr) (λ _ s', placed false l m s' ∧ freed s' = false) s.
Proof.
  intros Hp Hf. unfold fasttmr_delayed. do 2 wlp_step. wlp_step. eapply wlp_mono; [apply wlp_tick; exact Hp|].
  intros [] s1 (Hp1 & Hf1 & _). rewrite Hf in Hf1.
  apply (stays_then _ _ false l m); [pose proof tcp_output_stays; framed|done..|]. intros [] s2 Hp2 Hf2. do 2 wlp_step.
  wlp_step; [|by wlp_step]. apply (stays_then _ _ false l m); [framed|done..|]. intros [] s3 Hp3 Hf3. wlp_step.
  eapply wlp_mono; [by apply (shutdown_fin_ok false l m)|]. intros e s4 H4. by wlp_step.
Qed.

Lemma fasttmr_refused_ok l m s : placed false l m s → freed s = false → wlp (fasttmr_refused app_recv) (λ _, placed false l m) s.
Proof using recv_behaves.
  intros Hp Hf. unfold fasttmr_refused. do 2 wlp_step. destruct (refused_data _); [|by wlp_step]. wlp_step.
  eapply wlp_mono; [by apply (process_refused_ok l m)|]. intros e s1 [H1 _]. by wlp_step.
Qed.

End Placed.
