(* ===== verification/LwipTcpLinks.v ===== *)
(** TCP of lwIP, the lists of control blocks: the links of [tcp.c] make up
    lists without repetition, no control block is on two of them, and adding,
    removing and searching do what they do on lists. *)
From stdpp Require Import gmap.
From S2P Require Import Prelude.
From S2P Require Import LwipTcp.
From S2P Require Import LwipTcpPcbs.

(** ** Links *)

(** From [h] on the blocks are linked in the order [l]. *)
Fixpoint links (bs : gmap positive block) (h : option positive) (l : list positive) : Prop :=
  match l with
  | [] => h = None
  | id :: l => h = Some id ∧ ∃ b, bs !! id = Some b ∧ links bs (next b) l
  end.

Lemma links_none bs l : links bs None l → l = [].
Proof. destruct l; [done|]. by intros [? _]. Qed.

Lemma links_in bs h l id : links bs h l → id ∈ l → is_Some (bs !! id).
Proof.
  revert h. induction l as [|x l IH]; intros h; [by intros _ ?%elem_of_nil|]. intros (_ & b & Eb & Hl) [->|Hin]%elem_of_cons; [by eexists|].
  by eapply IH.
Qed.

(** Only the links of the list count. *)
Lemma links_same bs bs' h l :
  (∀ id, id ∈ l → next <$> bs' !! id = next <$> bs !! id) → links bs h l → links bs' h l.
Proof.
  revert h. induction l as [|x l IH]; intros h Hs; [done|]. intros (-> & b & Eb & Hl). split; [done|].
  specialize (Hs x (list_elem_of_here _ _)) as Hx. rewrite Eb in Hx. destruct (bs' !! x) as [b'|]; [|done]. injection Hx as Hx.
  exists b'. split; [done|]. rewrite Hx. apply IH; [|done]. intros id Hid. apply Hs. by apply list_elem_of_further.
Qed.

Lemma links_app bs h l1 id l2 :
  links bs h (l1 ++ id :: l2) → links bs (Some id) (id :: l2).
Proof. revert h. induction l1 as [|x l1 IH]; intros h; cbn [app]; [by intros [-> ?]|]. intros (_ & b & _ & Hl). by eapply IH. Qed.

(** The link of [q] is set. *)
Definition relinked (bs : gmap positive block) (q : positive) (n : option positive) : gmap positive block :=
  match bs !! q with Some b => <[q := b <| next := n |>]> bs | None => bs end.

Lemma relinked_ne bs q n id : id ≠ q → relinked bs q n !! id = bs !! id.
Proof. intros Hne. unfold relinked. destruct (bs !! q); [|done]. by rewrite lookup_insert_ne. Qed.
Lemma relinked_eq bs q n b : bs !! q = Some b → relinked bs q n !! q = Some (b <| next := n |>).
Proof. unfold relinked. intros ->. apply lookup_insert_eq. Qed.
Lemma relinked_body bs q n id : the_body <$> relinked bs q n !! id = the_body <$> bs !! id.
Proof.
  destruct (decide (id = q)) as [->|]; [|by rewrite relinked_ne]. unfold relinked. destruct (bs !! q) as [b|] eqn:E; [|by rewrite E].
  by rewrite lookup_insert_eq.
Qed.
Lemma links_relinked bs h l q n : q ∉ l → links bs h l → links (relinked bs q n) h l.
Proof. intros Hq. apply links_same. intros id Hid. rewrite relinked_ne; [done|]. by intros ->. Qed.

Lemma reads_block id b s : blocks s !! id = Some b → get_block id s = Ok (b, s).
Proof. intros Eb. unfold get_block, mbind, M_bind, gets. by rewrite Eb. Qed.
Lemma reads_body id b s : blocks s !! id = Some b → get_body id s = Ok (the_body b, s).
Proof. intros Eb. unfold get_body. by rewrite (bind_of_ok _ _ _ _ _ (reads_block _ _ _ Eb)). Qed.
Lemma reads_next id b s : blocks s !! id = Some b → get_next id s = Ok (next b, s).
Proof. intros Eb. unfold get_next. by rewrite (bind_of_ok _ _ _ _ _ (reads_block _ _ _ Eb)). Qed.
Lemma get_next_ok id b s (Q : option positive → stack → Prop) : blocks s !! id = Some b → Q (next b) s → wp (get_next id) Q s.
Proof. intros Eb HQ. eapply wp_intro; [by apply reads_next|done]. Qed.

Lemma set_link_ok q n b s (Q : () → stack → Prop) :
  blocks s !! q = Some b → Q () (s <| blocks := relinked (blocks s) q n |>) → wp (set_link q n) Q s.
Proof.
  intros Eb HQ. unfold set_link, on_block. wp_step. eapply wp_intro; [by apply reads_block|]. wp_step. unfold relinked in HQ. by rewrite Eb in HQ.
Qed.

(** ** Lists *)

(** The list a control block is on, of those [f] gives. *)
Definition loc (f : pcb_list → list positive) (id : positive) : pcb_list :=
  if bool_decide (id ∈ f ListenPcbs) then ListenPcbs else if bool_decide (id ∈ f ActivePcbs) then ActivePcbs
  else if bool_decide (id ∈ f TwPcbs) then TwPcbs else if bool_decide (id ∈ f BoundPcbs) then BoundPcbs else NoList.

(** The lists of [s] are those of [f]. *)
Record lists (s : stack) (f : pcb_list → list positive) : Prop := {
  li_links : ∀ l, links (blocks s) (head l s) (f l);
  li_nodup : ∀ l, NoDup (f l);
  li_loc : ∀ l id, id ∈ f l → loc f id = l }.

Lemma li_none s f : lists s f → f NoList = [].
Proof. intros Hf. apply (links_none (blocks s)). apply (li_links _ _ Hf NoList). Qed.

Lemma loc_in f id l : loc f id = l → l ≠ NoList → id ∈ f l.
Proof. unfold loc. repeat case_bool_decide; by intros <-. Qed.

Lemma loc_iff s f id l : lists s f → l ≠ NoList → id ∈ f l ↔ loc f id = l.
Proof. intros Hf Hl. split; [by apply (li_loc _ _ Hf)|by intros ?; apply loc_in]. Qed.

Lemma loc_none s f id l : lists s f → loc f id = NoList → id ∉ f l.
Proof. intros Hf Hn Hin. rewrite (li_loc _ _ Hf _ _ Hin) in Hn. subst l. by rewrite (li_none _ _ Hf) in Hin; apply elem_of_nil in Hin. Qed.

(** Changed lists. *)
Lemma loc_of s f f' id : lists s f → (∀ l, id ∈ f' l ↔ id ∈ f l) → loc f' id = loc f id.
Proof. intros Hf He. unfold loc. by rewrite !(bool_decide_ext _ _ (He _)). Qed.

Lemma list_length s f l : lists s f → (length (f l) ≤ size (blocks s))%nat.
Proof.
  intros Hf. rewrite <- (size_dom (D := gset positive)), <- (size_list_to_set (C := gset positive) (f l)) by apply (li_nodup _ _ Hf).
  apply subseteq_size. intros id Hid%elem_of_list_to_set. apply elem_of_dom. by eapply links_in, Hid; [apply (li_links _ _ Hf)].
Qed.

Lemma linked_links fuel bs id : ∀ l h, links bs h l → (length l < fuel)%nat → linked fuel bs h id = bool_decide (id ∈ l).
Proof.
  induction fuel as [|fuel IH]; intros l h Hl Hn; [lia|]. destruct l as [|x l]; cbn [links] in Hl.
  { subst h. by rewrite bool_decide_eq_false_2; [|apply not_elem_of_nil]. }
  destruct Hl as (-> & b & Eb & Hl). cbn [linked length] in *. rewrite Eb, (IH l) by (done || lia).
  repeat case_bool_decide; try done; exfalso; (rewrite elem_of_cons in *; intuition congruence).
Qed.

Lemma where_is_loc s f id : lists s f → loc f id ≠ ListenPcbs → where_is id s = loc f id.
Proof.
  intros Hf Hn. unfold where_is, is_on, list_fuel. rewrite !(linked_links _ _ _ (f _)) by
    (solve [apply (li_links _ _ Hf)|pose proof (list_length s f ActivePcbs Hf); pose proof (list_length s f TwPcbs Hf);
      pose proof (list_length s f BoundPcbs Hf); lia]).
  unfold loc in *. by destruct (bool_decide (id ∈ f ListenPcbs)).
Qed.

(** ** Adding and removing *)

(** What the links do not touch. *)
Record same (s s' : stack) : Prop := {
  sm_body : ∀ id, the_body <$> blocks s' !! id = the_body <$> blocks s !! id;
  sm_glob : glob s' = glob s;
  sm_ctr : tcp_timer_ctr s' = tcp_timer_ctr s }.
#[export] Instance same_pre : PreOrder same.
Proof.
  split; [by split|]. intros s t u [B1 G1 C1] [B2 G2 C2]. split; [|congruence..]. intros id. by rewrite B2.
Qed.

Lemma same_some s s' id : same s s' → is_Some (blocks s !! id) → is_Some (blocks s' !! id).
Proof. intros [Hb _ _] [b Eb]. specialize (Hb id). rewrite Eb in Hb. by destruct (blocks s' !! id). Qed.

(** [s] with another head. *)
Definition with_head (l : pcb_list) (h : option positive) (s : stack) : stack :=
  match l with
  | NoList => s | ListenPcbs => s <| tcp_listen_pcbs := h |> | BoundPcbs => s <| tcp_bound_pcbs := h |>
  | ActivePcbs => s <| tcp_active_pcbs := h |> | TwPcbs => s <| tcp_tw_pcbs := h |>
  end.
Lemma with_head_blocks l h s : blocks (with_head l h s) = blocks s.
Proof. by destruct l. Qed.
Lemma with_head_same l h s : same s (with_head l h s).
Proof. by destruct l. Qed.
Lemma head_with_head l h s k : l ≠ NoList → head k (with_head l h s) = if bool_decide (k = l) then h else head k s.
Proof. by destruct k, l. Qed.
Lemma head_blocks k s g : head k (s <| blocks ::= g |>) = head k s.
Proof. by destruct k. Qed.
Lemma relinked_same s q n : same s (s <| blocks := relinked (blocks s) q n |>).
Proof. split; [|done|done]. intros id. apply relinked_body. Qed.

Definition added (l : pcb_list) (id : positive) (f : pcb_list → list positive) (k : pcb_list) : list positive :=
  if bool_decide (k = l) then id :: f k else f k.
Definition removed (id : positive) (f : pcb_list → list positive) (k : pcb_list) : list positive :=
  filter (λ x, x ≠ id) (f k).

Lemma removed_in id f k x : x ∈ removed id f k ↔ x ≠ id ∧ x ∈ f k.
Proof. unfold removed. by rewrite list_elem_of_filter. Qed.
Lemma filter_absent id (l : list positive) : id ∉ l → filter (λ x, x ≠ id) l = l.
Proof.
  induction l as [|x l IH]; [done|]. intros Hn. rewrite filter_cons_True; [|intros E; apply Hn; rewrite E; apply list_elem_of_here].
  f_equal. apply IH. intros Hin. apply Hn. by apply list_elem_of_further.
Qed.

(** The place of a control block in changed lists. *)
Lemma loc_eq g x k : (∀ l, l ≠ NoList → x ∈ g l ↔ l = k) → loc g x = k.
Proof.
  intros Hg. assert (∀ l, l ≠ NoList → bool_decide (x ∈ g l) = bool_decide (l = k)) as E.
  { intros l Hl. by apply bool_decide_ext, Hg. }
  unfold loc. rewrite !E by done. by destruct k.
Qed.

Lemma added_ok s f l id : lists s f → loc f id = NoList → l ≠ NoList →
  (∀ k, NoDup (added l id f k)) ∧ (∀ k x, x ∈ added l id f k → loc (added l id f) x = k) ∧
  loc (added l id f) id = l ∧ (∀ x, x ≠ id → loc (added l id f) x = loc f x).
Proof.
  intros Hf Hn Hl.
  assert (loc (added l id f) id = l) as H1.
  { apply loc_eq. intros k Hk. unfold added. case_bool_decide as E; [subst k; split; [done|intros _; apply list_elem_of_here]|].
    split; [|done]. intros Hin. by destruct (loc_none _ _ _ k Hf Hn). }
  assert (∀ x, x ≠ id → loc (added l id f) x = loc f x) as H2.
  { intros x Hx. apply (loc_of s); [done|]. intros k. unfold added. case_bool_decide; [|done]. rewrite elem_of_cons. by split; [intros [->|]|right]. }
  split; [|split; [|done]].
  - intros k. unfold added. case_bool_decide; [|apply (li_nodup _ _ Hf)]. apply list.NoDup_cons. split; [by apply (loc_none s)|apply (li_nodup _ _ Hf)].
  - intros k x Hx. destruct (decide (x = id)) as [->|Hne].
    + rewrite H1. unfold added in Hx. case_bool_decide; [done|]. by destruct (loc_none _ _ _ k Hf Hn).
    + rewrite H2 by done. apply (li_loc _ _ Hf). unfold added in Hx. case_bool_decide; [|done]. apply elem_of_cons in Hx as [->|]; done.
Qed.

Lemma removed_ok s f id : lists s f →
  (∀ k, NoDup (removed id f k)) ∧ (∀ k x, x ∈ removed id f k → loc (removed id f) x = k) ∧
  loc (removed id f) id = NoList ∧ (∀ x, x ≠ id → loc (removed id f) x = loc f x).
Proof.
  intros Hf. assert (∀ x, x ≠ id → loc (removed id f) x = loc f x) as H2.
  { intros x Hx. apply (loc_of s); [done|]. intros k. rewrite removed_in. by split; [intros [_ ?]|]. }
  split; [intros k; apply list.NoDup_filter, (li_nodup _ _ Hf)|]. split; [|split; [|done]].
  - intros k x [Hx Hin]%removed_in. rewrite H2 by done. by apply (li_loc _ _ Hf).
  - apply loc_eq. intros k Hk. rewrite removed_in. split; [by intros [? _]|by intros ->].
Qed.

(** The link of a block that is on no list does not matter. *)
Lemma lists_relinked s f id n : lists s f → loc f id = NoList → lists (s <| blocks := relinked (blocks s) id n |>) f.
Proof.
  intros Hf Hn. split; [|apply Hf..]. intros k. rewrite head_blocks. apply links_relinked; [by apply (loc_none s)|apply Hf].
Qed.

Lemma reg_ok l id s f : lists s f → is_Some (blocks s !! id) → loc f id = NoList → l ≠ NoList →
  wp (TCP_REG l id) (λ _ s', lists s' (added l id f) ∧ same s s') s.
Proof.
  intros Hf [b Eb] Hn Hl. unfold TCP_REG. do 2 wp_step. wp_step. eapply set_link_ok; [done|].
  change (set_head l (Some id)) with (modify (with_head l (Some id))). wp_step. set (s1 := s <| blocks := _ |>).
  assert (same s s1) as Hs1 by apply relinked_same. split; [|etransitivity; [exact Hs1|apply with_head_same]].
  destruct (added_ok s f l id) as (H1 & H2 & _); [done..|]. split; [|done|done]. intros k.
  rewrite with_head_blocks, head_with_head by done. unfold added. case_bool_decide as E.
  - subst k. split; [done|]. eexists. split; [by apply relinked_eq|]. apply links_relinked; [by apply (loc_none s)|apply (li_links _ _ Hf)].
  - subst s1. rewrite head_blocks. apply links_relinked; [by apply (loc_none s)|apply (li_links _ _ Hf)].
Qed.

(** Unlinking [id] behind [q]. *)
Lemma links_skip bs q id bi l : ∀ h l1, links bs h (l1 ++ q :: id :: l) → NoDup (l1 ++ q :: id :: l) → bs !! id = Some bi →
  links (relinked bs q (next bi)) h (l1 ++ q :: l).
Proof.
  intros h l1. revert h. induction l1 as [|x l1 IH]; intros h; cbn [app]; intros Hl Hnd Ei.
  - destruct Hl as (-> & b & Eb & _ & bi' & Ei' & Hl). split; [done|]. eexists. split; [by apply relinked_eq|].
    rewrite Ei in Ei'. injection Ei' as <-. cbn. apply links_relinked; [|done]. apply list.NoDup_cons in Hnd as [Hq _]. intros Hin. apply Hq. by apply list_elem_of_further.
  - destruct Hl as (-> & b & Eb & Hl). apply list.NoDup_cons in Hnd as [Hx Hnd]. split; [done|]. exists b. split; [|by apply IH].
    rewrite relinked_ne; [done|]. intros ->. apply Hx. apply elem_of_app. right. apply list_elem_of_here.
Qed.

Lemma filter_skip id (l1 l2 : list positive) : NoDup (l1 ++ id :: l2) → filter (λ x, x ≠ id) (l1 ++ id :: l2) = l1 ++ l2.
Proof.
  intros (_ & Hx & Hnd)%list.NoDup_app. apply list.NoDup_cons in Hnd as [Hn _].
  rewrite list.filter_app, filter_cons_False by auto. rewrite !filter_absent; [done|done|]. intros Hin. by destruct (Hx id Hin); left.
Qed.

(** [id] is skipped; its own link stays. *)
Lemma skip_linked s f l l1 q id l2 bi :
  lists s f → f l = l1 ++ q :: id :: l2 → blocks s !! id = Some bi →
  lists (s <| blocks := relinked (blocks s) q (next bi) |>) (removed id f).
Proof.
  intros Hf El Ei. destruct (removed_ok s f id Hf) as (H1 & H2 & _). split; [|done..]. intros k. rewrite head_blocks.
  pose proof (li_links _ _ Hf k) as Hk. pose proof (li_nodup _ _ Hf k) as Hnd. destruct (decide (k = l)) as [->|Hne].
  - unfold removed. rewrite El in Hk, Hnd |- *.
    replace (l1 ++ q :: id :: l2) with ((l1 ++ [q]) ++ id :: l2) by by rewrite <- app_assoc. rewrite filter_skip; [|by rewrite <- app_assoc].
    rewrite <- app_assoc. by eapply links_skip.
  - assert (∀ x, x ∈ f l → x ∉ f k) as Hx.
    { intros x Hl Hin. apply Hne. by rewrite <- (li_loc _ _ Hf _ _ Hin), (li_loc _ _ Hf _ _ Hl). }
    unfold removed. rewrite filter_absent.
    + apply links_relinked; [|done]. apply Hx. rewrite El. apply elem_of_app. right. left.
    + apply Hx. rewrite El. apply elem_of_app. right. right. left.
Qed.

Lemma skip_head_ok s f l id l2 bi :
  lists s f → l ≠ NoList → f l = id :: l2 → blocks s !! id = Some bi → lists (with_head l (next bi) s) (removed id f).
Proof.
  intros Hf Hl El Ei. destruct (removed_ok s f id Hf) as (H1 & H2 & _). split; [|done..]. intros k. rewrite with_head_blocks, head_with_head by done.
  pose proof (li_links _ _ Hf k) as Hk. pose proof (li_nodup _ _ Hf k) as Hnd. case_bool_decide as E.
  - subst k. unfold removed. rewrite El in Hk, Hnd |- *. pose proof (filter_skip id [] l2) as Ef. cbn [app] in Ef. rewrite Ef by done. destruct Hk as (_ & b & Eb & Hk).
    rewrite Ei in Eb. by injection Eb as <-.
  - unfold removed. rewrite filter_absent; [done|]. intros Hin. apply E. rewrite <- (li_loc _ _ Hf _ _ Hin). apply (li_loc _ _ Hf). rewrite El. left.
Qed.

(** ** Walking along a list *)

(** Over [todo], the rest of the list [L]: [I] holds of what was seen, and the
    body leaves the links alone while it goes on. *)
Lemma walk_ok {A B} (F : A → positive → ST (A + B)) (L : list positive) (I : list positive → A → stack → Prop) (Q : A + B → stack → Prop) :
  (∀ seen id todo a s, L = seen ++ id :: todo → I seen a s → links (blocks s) (Some id) (id :: todo) →
    wp (F a id) (λ r s', match r with
      | inl a' => I (seen ++ [id]) a' s' ∧ links (blocks s') (Some id) (id :: todo)
      | inr b => Q (inr b) s'
      end) s) →
  (∀ a s, I L a s → Q (inl a) s) →
  ∀ fuel todo seen a cur s, L = seen ++ todo → links (blocks s) cur todo → (length todo < fuel)%nat → I seen a s →
    wp (walk fuel F a cur) Q s.
Proof.
  intros Hbody Hend. induction fuel as [|fuel IH]; intros [|id todo] seen a cur s EL Hl Hn HI; cbn [length] in Hn; try lia.
  - cbn in Hl. subst cur. cbn [walk]. wp_step. apply Hend. rewrite app_nil_r in EL. by subst.
  - destruct Hl as [-> Hl]. cbn [walk]. wp_step. eapply wp_mono; [apply (Hbody seen id todo); [done|done|by split]|].
    intros [a'|b] s' H'; cbv beta in H'; [|by wp_step]. destruct H' as (HI' & _ & b & Eb & Hl'). wp_step.
    eapply get_next_ok; [done|]. apply (IH todo (seen ++ [id])); [by rewrite <- app_assoc|done|lia|done].
Qed.

(** What the body does on a block, until it stops. *)
Definition stop_at {A B} (g : A → positive → A + B) (r : A + B) (id : positive) : A + B :=
  match r with inl a => g a id | inr b => inr b end.
Lemma stopped {A B} (g : A → positive → A + B) b l : foldl (stop_at g) (inr b) l = inr b.
Proof. by induction l. Qed.

(** [F] reads only, and what it does on a block is [g]. *)
Lemma walk_reads {A B} (F : A → positive → ST (A + B)) (g : A → positive → A + B) s fuel : ∀ l a cur,
  links (blocks s) cur l → (length l < fuel)%nat → (∀ a id, id ∈ l → F a id s = Ok (g a id, s)) →
  walk fuel F a cur s = Ok (foldl (stop_at g) (inl a) l, s).
Proof.
  induction fuel as [|fuel IH]; intros [|id l] a cur Hl Hn HF; cbn [length] in Hn; try lia.
  - cbn in Hl. by subst cur.
  - destruct Hl as (-> & b & Eb & Hl). cbn [walk]. rewrite (bind_of_ok _ _ _ _ _ (HF a id (list_elem_of_here _ _))). cbn [foldl stop_at].
    destruct (g a id) as [a'|r]; [|by rewrite stopped]. rewrite (bind_of_ok _ _ _ _ _ (reads_next _ _ _ Eb)).
    apply (IH l); [done|lia|]. intros a1 x Hx. apply HF. by right.
Qed.

(** ** Searching *)

(** The first element of a list for which [t] holds, with the one in front. *)
Fixpoint search (t : positive → bool) (prev : option positive) (l : list positive) : option (option positive * positive) :=
  match l with
  | [] => None
  | id :: l => if t id then Some (prev, id) else search t (Some id) l
  end.

Lemma search_found t l : ∀ prev q id, search t prev l = Some (q, id) →
  ∃ l1 l2, l = l1 ++ id :: l2 ∧ t id = true ∧ (∀ x, x ∈ l1 → t x = false) ∧ q = match list.last l1 with Some x => Some x | None => prev end.
Proof.
  induction l as [|x l IH]; [done|]. intros prev q id. cbn [search]. destruct (t x) eqn:Et.
  - intros [= <- <-]. exists [], l. repeat split; [done|]. by intros ? ?%elem_of_nil.
  - intros (l1 & l2 & -> & Hid & Hl & Hq)%IH. exists (x :: l1), l2. repeat split; [done| |].
    + intros y [->|Hy]%elem_of_cons; auto.
    + rewrite Hq. destruct l1; [done|]. rewrite last_cons_cons. by destruct (list.last (_ :: _)) eqn:E; [|apply last_None in E].
Qed.
Lemma search_none t l : ∀ prev, search t prev l = None ↔ ∀ id, id ∈ l → t id = false.
Proof.
  induction l as [|x l IH]; intros prev; cbn [search]; [by split; [intros _ ? ?%elem_of_nil|]|]. destruct (t x) eqn:Et.
  - split; [done|]. intros Hl. rewrite Hl in Et; [done|left].
  - rewrite IH. split; [intros Hl id [->|Hid]%elem_of_cons; auto|]. intros Hl id Hid. apply Hl. by right.
Qed.
Lemma search_ext t t' l : (∀ id, id ∈ l → t id = t' id) → ∀ prev, search t prev l = search t' prev l.
Proof.
  induction l as [|x l IH]; intros Ht prev; cbn [search]; [done|]. rewrite (Ht x) by left. rewrite IH; [done|]. intros id Hid. apply Ht. by right.
Qed.

(** A test of the block [id]. *)
Definition at_block (t : body → bool) (bs : gmap positive block) (id : positive) : bool :=
  match bs !! id with Some b => t (the_body b) | None => false end.

Lemma find_in_ok l test t s f :
  lists s f → (∀ id b, id ∈ f l → blocks s !! id = Some b → test (the_body b) s = Ok (t (the_body b), s)) →
  find_in l test s = Ok (search (at_block t (blocks s)) None (f l), s).
Proof.
  intros Hf Ht. pose proof (li_links _ _ Hf l) as Hl. pose proof (list_length s f l Hf) as Hn. unfold find_in.
  rewrite !(bind_of_ok (gets _) _ s _ s eq_refl).
  erewrite bind_of_ok; [|apply (walk_reads _ (λ prev id, if at_block t (blocks s) id then inr (prev, id) else inl (Some id)) s _ (f l)); [done|unfold list_fuel; lia|]].
  - assert (∀ l prev, match foldl (stop_at (λ prev id, if at_block t (blocks s) id then inr (prev, id) else inl (Some id))) (inl prev) l with
      | inl _ => None | inr x => Some x end = search (at_block t (blocks s)) prev l) as E.
    { induction l0 as [|x l0 IH]; intros prev; [done|]. cbn [foldl stop_at search]. destruct (at_block t (blocks s) x); [by rewrite stopped|apply IH]. }
    by rewrite E.
  - intros prev id Hid. destruct (links_in _ _ _ _ Hl Hid) as [b Eb]. rewrite (bind_of_ok _ _ _ _ _ (reads_body _ _ _ Eb)).
    erewrite bind_of_ok by by eapply Ht. unfold at_block. by rewrite Eb.
Qed.

Lemma search_exists t l prev : match search t prev l with Some _ => true | None => false end = existsb t l.
Proof. revert prev. induction l as [|x l IH]; intros prev; cbn; [done|]. by destruct (t x); [|apply IH]. Qed.

Lemma any_list_ok ls t s f :
  lists s f → any_list ls t s = Ok (existsb (λ l, existsb (at_block t (blocks s)) (f l)) ls, s).
Proof.
  intros Hf. induction ls as [|l ls IH]; [done|]. cbn [any_list existsb].
  assert (find_in l (λ b, mret (t b)) s = Ok (search (at_block t (blocks s)) None (f l), s)) as E by by apply find_in_ok.
  rewrite (bind_of_ok _ _ _ _ _ E), <- (search_exists _ (f l) None). by destruct (search _ None (f l)).
Qed.

(** ** Removing *)

(** [id] is in the list [l]. *)
Lemma in_list_split s f id l : lists s f → loc f id = l → l ≠ NoList →
  (∃ l2, f l = id :: l2 ∧ head l s = Some id) ∨ (∃ l1 q l2, f l = l1 ++ q :: id :: l2 ∧ head l s ≠ Some id).
Proof.
  intros Hf Hl Hn. apply loc_in in Hl; [|done]. pose proof (li_links _ _ Hf l) as Hk. pose proof (li_nodup _ _ Hf l) as Hnd.
  apply list_elem_of_split in Hl as (l1 & l2 & El). rewrite El in *. destruct l1 as [|x l1 _] using rev_ind.
  { left. exists l2. by destruct Hk. }
  right. exists l1, x, l2. rewrite <- app_assoc in *. split; [done|]. intros Eh. rewrite Eh in Hk.
  apply list.NoDup_app in Hnd as (_ & Hd & Hnd). apply list.NoDup_cons in Hnd as [Hx _].
  destruct l1 as [|y l1]; cbn in Hk; destruct Hk as ([= <-] & _); [apply Hx; left|apply (Hd id); [left|right; left]].
Qed.

Lemma rmv_walk bs q id bi l2 : ∀ l1 fuel s cur, blocks s = bs → bs !! id = Some bi → links bs cur (l1 ++ q :: id :: l2) →
  NoDup (l1 ++ q :: id :: l2) → (length (l1 ++ q :: id :: l2) < fuel)%nat →
  wp (walk fuel (λ (_ : ()) tmp,
       t ← get_next tmp;
       if bool_decide (t = Some id) then m ← get_next id; set_link tmp m;; mret (inr ()) else mret (inl ())) () cur)
    (λ _ s', s' = s <| blocks := relinked (blocks s) q (next bi) |>) s.
Proof.
  induction l1 as [|x l1 IH]; intros [|fuel] s cur <- Ei Hl Hn Hf; cbn [app length] in *; try lia.
  - destruct Hl as (-> & b & Eb & Hl & _). cbn [walk]. do 2 wp_step. eapply get_next_ok; [done|]. rewrite Hl, bool_decide_eq_true_2 by done.
    wp_step. eapply get_next_ok; [done|]. wp_step. eapply set_link_ok; [done|]. by do 2 wp_step.
  - destruct Hl as (-> & b & Eb & Hl). cbn [walk]. do 2 wp_step. eapply get_next_ok; [done|].
    apply list.NoDup_cons in Hn as [Hx Hn]. assert (bool_decide (next b = Some id) = false) as ->.
    { apply bool_decide_eq_false. intros E. rewrite E in Hl. apply list.NoDup_app in Hn as (_ & Hd & [Hq _]%list.NoDup_cons).
      destruct l1 as [|y l1]; cbn [app] in Hl; destruct Hl as [[= <-] _]; [apply Hq; left|apply (Hd id); [left|right; left]]. }
    do 2 wp_step. eapply get_next_ok; [done|]. apply (IH fuel); try done. lia.
Qed.

Lemma rmv_ok l id s f : lists s f → loc f id = l → l ≠ NoList →
  wp (TCP_RMV l id) (λ _ s', lists s' (removed id f) ∧ same s s') s.
Proof.
  intros Hf Hl Hn. unfold TCP_RMV. do 2 wp_step. destruct (removed_ok s f id Hf) as (_ & _ & Hr & _).
  assert (∃ b, blocks s !! id = Some b) as [b Eb].
  { apply (links_in _ _ _ _ (li_links _ _ Hf l)). by apply loc_in. }
  assert (∀ s1, lists s1 (removed id f) → same s s1 → wp (set_link id None) (λ _ s', lists s' (removed id f) ∧ same s s') s1) as Hend.
  { intros s1 H1 Hs1. destruct (same_some _ _ id Hs1) as [b1 E1]; [by eexists|]. eapply set_link_ok; [done|].
    split; [by apply lists_relinked|]. etransitivity; [exact Hs1|apply relinked_same]. }
  wp_step. destruct (in_list_split s f id l Hf Hl Hn) as [(l2 & El & Eh)|(l1 & q & l2 & El & Eh)].
  - rewrite bool_decide_eq_true_2 by done. wp_step. eapply get_next_ok; [done|].
    change (set_head l (next b)) with (modify (with_head l (next b))). wp_step. apply Hend; [by eapply skip_head_ok|apply with_head_same].
  - rewrite bool_decide_eq_false_2 by done. do 3 wp_step. pose proof (li_links _ _ Hf l) as Hk. pose proof (li_nodup _ _ Hf l) as Hnd.
    pose proof (list_length s f l Hf) as Hlen. rewrite El in *.
    eapply wp_mono; [by apply (rmv_walk (blocks s) q id b l2 l1); [..|unfold list_fuel; lia]|]. intros r s1 ->. wp_step.
    apply Hend; [by eapply skip_linked|apply relinked_same].
Qed.

(** What was found goes to the front. *)
Lemma move_to_front_ok l l1 l2 id s f : lists s f → f l = l1 ++ id :: l2 → l ≠ NoList →
  wp (move_to_front l (list.last l1) id) (λ _ s', ∃ f', lists s' f' ∧ same s s' ∧ (∀ k x, x ∈ f' k ↔ x ∈ f k) ∧ f' l = id :: l1 ++ l2) s.
Proof.
  intros Hf El Hn. assert (id ∈ f l) as Hin by (rewrite El; apply elem_of_app; right; left).
  assert (∃ b, blocks s !! id = Some b) as [b Eb] by by apply (links_in _ _ _ _ (li_links _ _ Hf l)).
  destruct l1 as [|q l1 _] using rev_ind; [cbn [list.last move_to_front]; wp_step; by exists f|]. rewrite last_snoc. unfold move_to_front.
  rewrite <- app_assoc in El. cbn [app] in El. destruct (removed_ok s f id Hf) as (_ & _ & Hr & _).
  assert (∃ bq, blocks s !! q = Some bq) as [bq Eq].
  { apply (links_in _ _ _ _ (li_links _ _ Hf l)). rewrite El. apply elem_of_app. right. left. }
  wp_step. eapply get_next_ok; [done|]. wp_step. eapply set_link_ok; [done|]. set (s1 := s <| blocks := _ |>).
  assert (same s s1) as Hs1 by apply relinked_same. assert (lists s1 (removed id f)) as H1 by by eapply skip_linked.
  eapply wp_mono; [apply (reg_ok l id s1 (removed id f)); try done; by eapply same_some|]. intros [] s2 [H2 Hs2].
  exists (added l id (removed id f)). split; [done|]. split; [by etransitivity|]. split.
  - intros k x. unfold added. case_bool_decide as E; [subst k; rewrite elem_of_cons, removed_in|rewrite removed_in].
    + destruct (decide (x = id)) as [->|]; [by split; [|left]|]. split; [by intros [?|[_ ?]]|by right].
    + split; [by intros [_ ?]|]. intros Hx. split; [|done]. intros ->. apply E. by rewrite <- (li_loc _ _ Hf _ _ Hx), (li_loc _ _ Hf _ _ Hin).
  - unfold added. rewrite bool_decide_eq_true_2 by done. unfold removed. pose proof (li_nodup _ _ Hf l) as Hnd. rewrite El in *. f_equal.
    change (q :: id :: l2) with ([q] ++ id :: l2) in *. rewrite app_assoc in *. by rewrite filter_skip.
Qed.

(** From one list to another. *)
Definition moved (l l' : pcb_list) (id : positive) (f : pcb_list → list positive) : pcb_list → list positive :=
  if bool_decide (l = l') then f
  else let f1 := if bool_decide (l = NoList) then f else removed id f in if bool_decide (l' = NoList) then f1 else added l' id f1.

Lemma relink_ok l l' id s f : lists s f → is_Some (blocks s !! id) → loc f id = l →
  wp (relink l l' id) (λ _ s', let f' := moved l l' id f in
    lists s' f' ∧ same s s' ∧ loc f' id = l' ∧ ∀ x, x ≠ id → loc f' x = loc f x) s.
Proof.
  intros Hf Hb Hl. unfold relink, moved. case_bool_decide as E; [subst l'; by wp_step|]. cbv zeta.
  set (f1 := if bool_decide (l = NoList) then f else removed id f). wp_step.
  apply (wp_mono _ (λ _ s1, lists s1 f1 ∧ same s s1 ∧ loc f1 id = NoList ∧ ∀ x, x ≠ id → loc f1 x = loc f x)).
  { subst f1. case_bool_decide as En; [wp_step; split; [done|]; split; [done|]; split; [congruence|done]|]. destruct (removed_ok s f id Hf) as (_ & _ & H1 & H2).
    eapply wp_mono; [by apply rmv_ok|]. by intros [] s1 [? ?]. }
  intros [] s1 (H1 & Hs1 & Hn1 & Ho1). wp_step.
  set (f2 := if bool_decide (l' = NoList) then f1 else added l' id f1).
  apply (wp_mono _ (λ _ s2, lists s2 f2 ∧ same s s2 ∧ loc f2 id = l' ∧ ∀ x, x ≠ id → loc f2 x = loc f x)).
  { subst f2. case_bool_decide as En; [wp_step; by rewrite En|]. destruct (added_ok s1 f1 l' id H1 Hn1 En) as (_ & _ & H2 & H3).
    eapply wp_mono; [apply reg_ok; [done|by eapply same_some|done..]|]. intros [] s2 [? Hs2]. split; [done|]. split; [by etransitivity|].
    split; [done|]. intros x Hx. by rewrite H3, Ho1. }
  intros [] s2 (H2 & Hs2 & Hn2 & Ho2). destruct (_ || _); wp_step; [|done]. split; [by destruct H2|]. split; [|done]. etransitivity; [exact Hs2|]. by split.
Qed.

Lemma links_next bs h l x b y : links bs h l → x ∈ l → bs !! x = Some b → next b = Some y → y ∈ l.
Proof.
  revert h. induction l as [|z l IH]; intros h; [by intros _ ?%elem_of_nil|]. intros (_ & bz & Ez & Hl) [->|Hx]%elem_of_cons Eb En.
  - rewrite Ez in Eb. injection Eb as ->. rewrite En in Hl. destruct l as [|w l]; [done|]. destruct Hl as [[= <-] _]. right. left.
  - right. by eapply IH.
Qed.

(** The loops over the active connections are told of a connection that leaves. *)
Definition changed_same (s s' : stack) : Prop := tcp_active_pcbs_changed s' = tcp_active_pcbs_changed s.
#[export] Instance changed_same_pre : PreOrder changed_same.
Proof. split; [by intros s|]. intros s t u H1 H2. unfold changed_same in *. congruence. Qed.
Lemma framed_walk {A B} (R : stack → stack → Prop) `{PreOrder _ R} (F : A → positive → ST (A + B)) :
  (∀ a id, framed R (F a id)) → ∀ fuel a cur, framed R (walk fuel F a cur).
Proof.
  intros HF. induction fuel as [|fuel IH]; intros a [id|]; cbn [walk]; [apply framed_fail|apply (framed_ret _)| |apply (framed_ret _)].
  apply (framed_bind _); [apply HF|]. intros [a'|b]; [|apply (framed_ret _)]. apply (framed_bind _); [|intros n; apply IH].
  unfold get_next, get_block. framed.
Qed.
Lemma set_link_changed id n : framed changed_same (set_link id n).
Proof. unfold set_link, on_block, get_block. framed. by apply framed_modify. Qed.
Lemma set_head_changed l h : framed changed_same (set_head l h).
Proof. apply framed_modify. by destruct l. Qed.
Lemma get_next_changed id : framed changed_same (get_next id).
Proof. unfold get_next, get_block. framed. Qed.
#[local] Hint Resolve set_link_changed set_head_changed get_next_changed : framed.
Lemma rmv_changed l id : framed changed_same (TCP_RMV l id).
Proof.
  unfold TCP_RMV. apply (framed_bind _); [framed|]. intros h. apply (framed_bind _); [|intros _; framed]. apply framed_if; [framed|].
  apply (framed_bind _); [framed|]. intros n. apply (framed_bind _); [|intros ?; framed]. apply (framed_walk _). intros [] x. framed.
Qed.
Lemma reg_changed l id : framed changed_same (TCP_REG l id).
Proof. unfold TCP_REG. framed. Qed.
#[local] Hint Resolve rmv_changed reg_changed : framed.
Lemma relink_changed l l' id s :
  wlp (relink l l' id) (λ _ s', tcp_active_pcbs_changed s' = false → l = ActivePcbs → l' = ActivePcbs) s.
Proof.
  unfold relink. case_bool_decide as E; [wlp_step; by subst|]. wlp_step. eapply wlp_mono; [|intros [] s1 _].
  - assert (framed changed_same (if bool_decide (l = NoList) then mret () else TCP_RMV l id)) as Hfr by framed. apply Hfr.
  - wlp_step. eapply wlp_mono; [|intros [] s2 _].
    + assert (framed changed_same (if bool_decide (l' = NoList) then mret () else TCP_REG l' id)) as Hfr by framed. apply Hfr.
    + destruct (bool_decide (l = ActivePcbs)) eqn:El; cbn [orb]; [by wlp_step|]. apply bool_decide_eq_false in El.
      intros [] s3 _ _ E'. done.
Qed.

(** Removing what is on no list. *)
Lemma rmv_absent l id s f : lists s f → is_Some (blocks s !! id) → loc f id = NoList →
  wp (TCP_RMV l id) (λ _ s', lists s' f ∧ same s s') s.
Proof.
  intros Hf [b Eb] Hn. unfold TCP_RMV. do 3 wp_step. pose proof (li_links _ _ Hf l) as Hk.
  assert (id ∉ f l) as Hl by by apply (loc_none s). rewrite bool_decide_eq_false_2.
  - do 3 wp_step. eapply wp_intro.
    + apply (walk_reads _ (λ _ _, inl ()) s _ (f l)); [done|pose proof (list_length s f l Hf); unfold list_fuel; lia|].
      intros [] x Hx. destruct (links_in _ _ _ _ Hk Hx) as [bx Ex]. rewrite (bind_of_ok _ _ _ _ _ (reads_next _ _ _ Ex)).
      rewrite bool_decide_eq_false_2; [done|]. intros En. apply Hl. by eapply links_next.
    + wp_step. eapply set_link_ok; [done|]. split; [by apply lists_relinked|apply relinked_same].
  - intros E. rewrite E in Hk. destruct (f l) as [|x l']; [done|]. destruct Hk as [[= <-] _]. apply Hl. left.
Qed.

Lemma absent_loc s f id : lists s f → blocks s !! id = None → loc f id = NoList.
Proof.
  intros Hf En. apply loc_eq. intros l Hl. split; [|done]. intros Hin. destruct (links_in _ _ _ _ (li_links _ _ Hf l) Hin) as [b Eb]. congruence.
Qed.

(** Behind [id], which was at the end of the part [l1] that a loop has seen. *)
Lemma unlink_ok l l1 id l2 s f : lists s f → l ≠ NoList → f l = l1 ++ id :: l2 →
  wp (unlink l (list.last l1) id) (λ _ s', lists s' (removed id f) ∧ same s s') s.
Proof.
  intros Hf Hl El. assert (∃ b, blocks s !! id = Some b) as [b Eb].
  { apply (links_in _ _ _ _ (li_links _ _ Hf l)). rewrite El. apply elem_of_app. right. left. }
  unfold unlink. wp_step. eapply get_next_ok; [done|]. do 2 wp_step. pose proof (li_links _ _ Hf l) as Hk. pose proof (li_nodup _ _ Hf l) as Hnd.
  destruct l1 as [|q l1 _] using rev_ind.
  - cbn [list.last]. rewrite El in Hk. destruct Hk as [-> _]. rewrite bool_decide_eq_true_2 by done. wp_step. unfold LWIP_ERROR. wp_step.
    change (set_head l (next b)) with (modify (with_head l (next b))). wp_step. split; [by eapply skip_head_ok|apply with_head_same].
  - rewrite last_snoc. rewrite <- app_assoc in El. cbn [app] in El. rewrite bool_decide_eq_false_2.
    + wp_step. unfold LWIP_ERROR. cbn [negb]. wp_step. assert (∃ bq, blocks s !! q = Some bq) as [bq Eq].
      { apply (links_in _ _ _ _ Hk). rewrite El. apply elem_of_app. right. left. }
      eapply set_link_ok; [done|]. split; [by eapply skip_linked|apply relinked_same].
    + intros Eh. rewrite Eh, El in *. apply list.NoDup_app in Hnd as (_ & Hd & [Hq _]%list.NoDup_cons).
      destruct l1 as [|y l1]; cbn [app] in Hk; destruct Hk as [[= <-] _]; [apply Hq; left|apply (Hd id); [left|right; left]].
Qed.

(** A block that is on no list may go. *)
Lemma delete_lists s f id : lists s f → loc f id = NoList → lists (s <| blocks ::= delete id |>) f.
Proof.
  intros Hf Hn. split; [|apply Hf..]. intros k. rewrite head_blocks. apply (links_same (blocks s)); [|apply (li_links _ _ Hf)].
  intros x Hx. get_set. rewrite lookup_delete_ne; [done|]. intros <-. by destruct (loc_none _ _ _ k Hf Hn).
Qed.

Lemma wlp_ok {S A} (m : M S A) (Q : A → S → Prop) s a s' : m s = Ok (a, s') → Q a s' → wlp m Q s.
Proof. intros E HQ. by apply wlp_of_wp, (wp_intro _ _ _ a s'). Qed.

(** What every turn of a loop keeps. *)
Lemma walk_keeps {A B} (F : A → positive → ST (A + B)) (I : stack → Prop) :
  (∀ a id s, I s → wlp (F a id) (λ _, I) s) → ∀ fuel a cur s, I s → wlp (walk fuel F a cur) (λ _, I) s.
Proof.
  intros HF. induction fuel as [|fuel IH]; intros a [id|] s HI; cbn [walk]; [by wlp_step|by wlp_step| |by wlp_step].
  wlp_step. eapply wlp_mono; [by apply HF|]. intros [a'|b] s' HI'; [|by wlp_step]. wlp_step. unfold get_next, get_block. do 3 wlp_step.
  destruct (blocks s' !! id); [|by wlp_step]. do 2 wlp_step. by apply IH.
Qed.

(** ** Where a loop is *)

Lemma links_first bs h l : links bs h l → h = list.head l.
Proof. destruct l; [done|]. by intros [-> _]. Qed.
Lemma links_rest bs : ∀ l1 l2 h, links bs h (l1 ++ l2) → links bs (list.head l2) l2.
Proof.
  induction l1 as [|x l1 IH]; intros l2 h; cbn [app].
  - intros Hl. by rewrite <- (links_first _ _ _ Hl).
  - intros (_ & b & _ & Hl). by eapply IH.
Qed.
Lemma next_of s f l l1 id l2 : lists s f → f l = l1 ++ id :: l2 →
  wlp (get_next id) (λ n s', s' = s ∧ n = list.head l2) s.
Proof.
  intros Hf El. pose proof (li_links _ _ Hf l) as Hk. rewrite El in Hk. apply links_rest in Hk as (_ & b & Eb & Hk).
  eapply wlp_ok; [by apply reads_next|]. split; [done|]. by eapply links_first.
Qed.
Lemma head_of s f l : lists s f → head l s = list.head (f l).
Proof. intros Hf. eapply links_first, Hf. Qed.

