(* ===== verification/LwipTcpPorts.v ===== *)
(** TCP of lwIP, the choice of a port: [tcp_new_port] finds the next port of
    the range that no control block uses, and none only if there is none. *)
From stdpp Require Import gmap.
From S2P Require Import Prelude.
From S2P Require Import LwipTcp.
From S2P Require Import LwipTcpPcbs.
From S2P Require Import LwipTcpLinks.

(** A control block on one of the lists has the port. *)
Definition port_used (s : stack) (f : pcb_list → list positive) (port : Z) : bool :=
  existsb (λ l, existsb (at_block (λ b, b_local_port b =? port) (blocks s)) (f l)) tcp_pcb_lists.

Lemma port_used_spec s f port :
  port_used s f port = true ↔ ∃ l id b, l ≠ NoList ∧ id ∈ f l ∧ the_body <$> blocks s !! id = Some b ∧ b_local_port b = port.
Proof.
  unfold port_used. rewrite existsb_exists. split.
  - intros (l & Hl & Hx). apply existsb_exists in Hx as (id & Hid & Hb). unfold at_block in Hb.
    destruct (blocks s !! id) as [b|] eqn:Eb; [|done]. exists l, id, (the_body b). apply Z.eqb_eq in Hb. rewrite Eb.
    split; [by intros ->; cbn in Hl; intuition|]. split; [by apply list_elem_of_In|done].
  - intros (l & id & b & Hl & Hid & Eb & Hp). exists l. split; [destruct l; cbn; intuition|]. apply existsb_exists. exists id.
    split; [by apply list_elem_of_In|]. unfold at_block. destruct (blocks s !! id) as [b'|]; [|done]. injection Eb as ->. by apply Z.eqb_eq.
Qed.

(** The [i]-th port after [q], from the end of the range back to its start. *)
Definition port_after (q i : Z) : Z := TCP_LOCAL_PORT_RANGE_START + (q - TCP_LOCAL_PORT_RANGE_START + i) mod 16384.
Definition in_port_range (q : Z) : Prop := TCP_LOCAL_PORT_RANGE_START ≤ q ≤ TCP_LOCAL_PORT_RANGE_END.

Lemma port_after_range q i : in_port_range (port_after q i).
Proof.
  unfold in_port_range, port_after, TCP_LOCAL_PORT_RANGE_START, TCP_LOCAL_PORT_RANGE_END.
  pose proof (Z.mod_pos_bound (q - 49152 + i) 16384). lia.
Qed.
Lemma port_after_next q : in_port_range q →
  (if q =? TCP_LOCAL_PORT_RANGE_END then TCP_LOCAL_PORT_RANGE_START else u16 (q + 1)) = port_after q 1.
Proof.
  unfold in_port_range, port_after, TCP_LOCAL_PORT_RANGE_START, TCP_LOCAL_PORT_RANGE_END. intros Hq.
  destruct (Z.eqb_spec q 65535) as [->|]; [done|]. rewrite u16_small, Z.mod_small by lia. lia.
Qed.
Lemma port_after_add q i j : port_after (port_after q i) j = port_after q (i + j).
Proof. unfold port_after. f_equal. replace (_ + _ - _ + j) with ((q - TCP_LOCAL_PORT_RANGE_START + i) mod 16384 + j) by lia. rewrite Zplus_mod_idemp_l. f_equal. lia. Qed.

(** Every port of the range comes up. *)
Lemma port_after_onto q p : in_port_range p → ∃ i, 1 ≤ i ≤ 16384 ∧ port_after q i = p.
Proof.
  unfold in_port_range, TCP_LOCAL_PORT_RANGE_START, TCP_LOCAL_PORT_RANGE_END. intros Hp.
  exists ((p - q - 1) mod 16384 + 1). pose proof (Z.mod_pos_bound (p - q - 1) 16384). split; [lia|].
  unfold port_after, TCP_LOCAL_PORT_RANGE_START.
  replace (q - 49152 + ((p - q - 1) mod 16384 + 1)) with ((p - q - 1) mod 16384 + (q - 49151)) by lia.
  rewrite Zplus_mod_idemp_l. replace (p - q - 1 + (q - 49151)) with (p - 49152) by lia. rewrite Z.mod_small; lia.
Qed.

(** The loop, which has [n] ports behind it. *)
Lemma new_port_run s f : lists s f → ∀ fuel n q,
  in_port_range q → 0 ≤ n → (0 < fuel)%nat → n + Z.of_nat fuel = 16384 →
  ∃ port q', new_port_loop fuel n (s <| tcp_port := q |>) = Ok (port, s <| tcp_port := q' |>) ∧ in_port_range q' ∧
    ((∃ k, 1 ≤ k ∧ port = port_after q k ∧ q' = port ∧ port_used s f port = false ∧
        ∀ i, 1 ≤ i < k → port_used s f (port_after q i) = true) ∨
     port = 0 ∧ ∀ i, 1 ≤ i ≤ Z.of_nat fuel → port_used s f (port_after q i) = true).
Proof.
  intros Hf. induction fuel as [|fuel IH]; intros n q Hq Hn Hp Hs; [lia|]. cbn [new_port_loop].
  set (q1 := port_after q 1). set (s1 := s <| tcp_port := q1 |>).
  assert (lists s1 f) as H1 by by destruct Hf.
  rewrite (bind_of_ok _ _ _ () s1); [|unfold modify; f_equal; f_equal; subst s1 q1; rewrite <- port_after_next by done; done].
  rewrite (bind_of_ok (gets tcp_port) _ s1 q1 s1 eq_refl). rewrite (bind_of_ok _ _ _ _ _ (any_list_ok _ _ s1 f H1)).
  change (existsb _ tcp_pcb_lists) with (port_used s f q1). pose proof (port_after_range q 1) as Hr. fold q1 in Hr.
  destruct (port_used s f q1) eqn:Eu.
  - rewrite u16_small by lia. unfold TCP_LOCAL_PORT_RANGE_END, TCP_LOCAL_PORT_RANGE_START at 1.
    assert (∀ P : Z → Prop, (1 ≤ Z.of_nat fuel → ∀ i, 1 ≤ i ≤ Z.of_nat fuel → P (i + 1)) → P 1 → ∀ i, 1 ≤ i ≤ Z.of_nat (S fuel) → P i) as Hall.
    { intros P HP H0 i Hi. destruct (Z.eq_dec i 1) as [->|]; [done|]. replace i with (i - 1 + 1) by lia. apply HP; lia. }
    destruct (Z.gtb_spec (n + 1) (65535 - 49152)).
    + exists 0, q1. split; [done|]. split; [done|]. right. split; [done|]. apply Hall; [lia|done].
    + destruct (IH (n + 1) q1) as (port & q' & E & Hq' & Hc); [done|lia..|]. exists port, q'. split; [exact E|]. split; [done|].
      assert (∀ i, port_after q1 i = port_after q (i + 1)) as Ea by (intros i; subst q1; rewrite port_after_add; f_equal; lia).
      destruct Hc as [(k & Hk & Ep & Eq & Hu & Hb)|[Ep Hb]].
      * left. exists (k + 1). rewrite <- Ea. repeat split; [lia|done..|]. intros i Hi. destruct (Z.eq_dec i 1) as [->|]; [done|].
        replace i with (i - 1 + 1) by lia. rewrite <- Ea. apply Hb. lia.
      * right. split; [done|]. apply Hall; [|done]. intros _ i Hi. rewrite <- Ea. by apply Hb.
  - exists q1, q1. split; [done|]. split; [done|]. left. exists 1. repeat split; [lia|done|lia].
Qed.

(** From the last port on. *)
Lemma new_port_start s f : lists s f → in_port_range (tcp_port s) →
  ∃ port q, tcp_new_port s = Ok (port, s <| tcp_port := q |>) ∧ in_port_range q ∧
    ((∃ k, 1 ≤ k ∧ port = port_after (tcp_port s) k ∧ q = port ∧ port_used s f port = false ∧
        ∀ i, 1 ≤ i < k → port_used s f (port_after (tcp_port s) i) = true) ∨
     port = 0 ∧ ∀ i, 1 ≤ i ≤ 16384 → port_used s f (port_after (tcp_port s) i) = true).
Proof.
  intros Hf Hq. unfold tcp_new_port.
  assert (Z.of_nat (Z.to_nat (TCP_LOCAL_PORT_RANGE_END - TCP_LOCAL_PORT_RANGE_START + 1)) = 16384) as Hn
    by (unfold TCP_LOCAL_PORT_RANGE_END, TCP_LOCAL_PORT_RANGE_START; lia).
  generalize dependent (Z.to_nat (TCP_LOCAL_PORT_RANGE_END - TCP_LOCAL_PORT_RANGE_START + 1)). intros fuel Hn.
  destruct (new_port_run s f Hf fuel 0 (tcp_port s)) as (port & q & E & Hq' & Hc); [done|lia..|].
  replace (s <| tcp_port := tcp_port s |>) with s in E by by destruct s. rewrite Hn in Hc. by exists port, q.
Qed.
(** No port is left. *)
Lemma all_ports_used s f q : (∀ i, 1 ≤ i ≤ 16384 → port_used s f (port_after q i) = true) → ∀ p, in_port_range p → port_used s f p = true.
Proof. intros Hu p Hp. destruct (port_after_onto q p Hp) as (i & Hi & <-). by apply Hu. Qed.

(** (C13) [tcp_new_port] returns the first port after the last one, from the end
    of the range back to its start, that no control block of the four lists
    uses; it returns 0 only if each of the 16384 ports is in use, and its loop
    ends. *)
Theorem tcp_new_port_finds s f :
  lists s f → in_port_range (tcp_port s) →
  ∃ port q, tcp_new_port s = Ok (port, s <| tcp_port := q |>) ∧ in_port_range q ∧
    ((∃ k, 1 ≤ k ∧ port = port_after (tcp_port s) k ∧ q = port ∧ port_used s f port = false ∧
        ∀ i, 1 ≤ i < k → port_used s f (port_after (tcp_port s) i) = true) ∨
     port = 0 ∧ ∀ p, in_port_range p → port_used s f p = true).
Proof.
  intros Hf Hq. destruct (new_port_start s f Hf Hq) as (port & q & E & Hq' & Hc). exists port, q. split; [done|]. split; [done|].
  destruct Hc as [Hc|[-> Hu]]; [by left|right]. split; [done|]. by eapply all_ports_used.
Qed.

(** ** What the search leaves alone *)

Definition port_only (s s' : stack) : Prop := ∃ q, s' = s <| tcp_port := q |>.
#[export] Instance port_only_pre : PreOrder port_only.
Proof. split; [intros s; exists (tcp_port s); by destruct s|]. intros s t u [q ->] [q' ->]. by exists q'. Qed.

Lemma any_list_frame R `{PreOrder _ R} ls t : framed R (any_list ls t).
Proof.
  induction ls as [|l ls IH]; cbn [any_list]; [apply (framed_ret _)|]. apply (framed_bind _); [|intros [?|]; [apply (framed_ret _)|done]].
  unfold find_in. do 2 (apply (framed_bind _); [apply (framed_gets _)|intros ?]). apply (framed_bind _); [|intros ?; apply (framed_ret _)].
  apply (framed_walk _). intros a' id. unfold get_body, get_block. framed.
Qed.

Lemma new_port_frame : framed port_only tcp_new_port.
Proof.
  unfold tcp_new_port. generalize (Z.to_nat (TCP_LOCAL_PORT_RANGE_END - TCP_LOCAL_PORT_RANGE_START + 1)) as fuel, 0 as n.
  induction fuel as [|fuel IH]; intros n; cbn [new_port_loop]; [apply framed_fail|].
  apply (framed_bind _); [apply framed_modify; intros s; by eexists|]. intros _. apply (framed_bind _); [apply (framed_gets _)|]. intros port.
  apply (framed_bind _); [apply (any_list_frame _)|]. intros [|]; [|apply (framed_ret _)]. apply framed_if; [apply (framed_ret _)|apply IH].
Qed.
