(* ===== verification/LwipTcpSane.v ===== *)
(** TCP of lwIP, the lists of control blocks are as the comment on them in
    [priv/tcp_priv.h] says: a control block is on one list at most, its state
    is one of that list, no connection has a listener that is gone.  The calls
    of [tcp.c] and [tcp_in.c] keep that. *)
From stdpp Require Import gmap.
From S2P Require Import Prelude.
From S2P Require Import LwipTcp.
From S2P Require Import LwipTcpOut.
From S2P Require Import LwipTcpApi.
From S2P Require Import LwipTcpIn.
From S2P Require Import LwipTcpProcess.
From S2P Require Import LwipTcpTimer.
From S2P Require Import LwipTcpPcbs.
From S2P Require Import LwipTcpSeq.
From S2P Require Import LwipTcpStays.
From S2P Require Import LwipTcpPlace.
From S2P Require Import LwipTcpLinks.

(** ** The invariant *)

Definition body_at (s : stack) (id : positive) : option body := the_body <$> blocks s !! id.
Definition is_listener (s : stack) (id : positive) : Prop := ∃ l, body_at s id = Some (Lsn l).

(** A connection on the list [k]; [lsn] are the listening control blocks. *)
Record conn_ok (lsn : positive → Prop) (k : pcb_list) (p : tcp_pcb) : Prop := {
  co_state : state_of_list k (state p);
  co_off : k = NoList → listener p = None;
  co_bound : k = BoundPcbs → local_port p ≠ 0 ∨ bound_to_netif p ≠ 0;
  co_listener : ∀ q, listener p = Some q → lsn q }.
Definition body_ok (lsn : positive → Prop) (k : pcb_list) (b : body) : Prop :=
  match b with Conn p => conn_ok lsn k p | Lsn _ => k = ListenPcbs end.

Record sane_at (s : stack) (f : pcb_list → list positive) : Prop := {
  sa_lists : lists s f;
  sa_body : ∀ id b, body_at s id = Some b → body_ok (is_listener s) (loc f id) b;
  sa_input : tcp_input_pcb (glob s) = false }.
Definition sane (s : stack) : Prop := ∃ f, sane_at s f.

Lemma body_ok_mono (lsn lsn' : positive → Prop) k b : (∀ q, lsn q → lsn' q) → body_ok lsn k b → body_ok lsn' k b.
Proof. intros Hq. destruct b; [|done]. intros [? ? ? ?]. split; auto. Qed.

(** The listening control blocks stay. *)
Definition kept (s s' : stack) : Prop := ∀ q, is_listener s q → is_listener s' q.
#[export] Instance kept_pre : PreOrder kept.
Proof. split; [by intros s q|]. intros s t u H1 H2 q Hq. by apply H2, H1. Qed.

Lemma body_some s id b : body_at s id = Some b ↔ ∃ n, blocks s !! id = Some (mk_block n b).
Proof.
  unfold body_at. split; [|by intros [n ->]]. destruct (blocks s !! id) as [[n b']|]; [|done]. intros [= <-]. by exists n.
Qed.

Lemma same_body s s' id : same s s' → body_at s' id = body_at s id.
Proof. intros [Hb _ _]. apply Hb. Qed.
Lemma same_listener s s' q : same s s' → is_listener s' q ↔ is_listener s q.
Proof. intros Hs. unfold is_listener. by rewrite (same_body _ _ _ Hs). Qed.
Lemma same_kept s s' : same s s' → kept s s'.
Proof. intros Hs q Hq. by apply (same_listener s). Qed.

(** The links and heads may change as long as each block stays on its list. *)
Lemma sane_same s s' f f' : sane_at s f → same s s' → lists s' f' → (∀ id, loc f' id = loc f id) → sane_at s' f'.
Proof.
  intros [Hf Hb Hi] Hs Hf' Hl. split; [done| |by rewrite (sm_glob _ _ Hs)]. intros id b Eb.
  rewrite (same_body _ _ _ Hs) in Eb. rewrite Hl. eapply body_ok_mono; [|by apply Hb]. intros q. by apply same_kept.
Qed.

Lemma sane_loc_conn s f id p : sane_at s f → body_at s id = Some (Conn p) → loc f id ≠ ListenPcbs.
Proof. intros Hs Eb El. pose proof (co_state _ _ _ (sa_body _ _ Hs _ _ Eb)) as Hst. by rewrite El in Hst. Qed.

Lemma sane_state s f id p : sane_at s f → body_at s id = Some (Conn p) → state_of_list (loc f id) (state p).
Proof. intros Hs Eb. exact (co_state _ _ _ (sa_body _ _ Hs _ _ Eb)). Qed.

Lemma list_body s f id l : lists s f → id ∈ f l → ∃ b, body_at s id = Some b.
Proof.
  intros Hf Hin. destruct (links_in _ _ _ _ (li_links _ _ Hf l) Hin) as [[n b] Eb]. exists b. apply body_some. by exists n.
Qed.

(** The control blocks of the lists other than [ListenPcbs] are connections. *)
Lemma list_conn s f id l : sane_at s f → id ∈ f l → l ≠ ListenPcbs → ∃ p, body_at s id = Some (Conn p) ∧ state_of_list l (state p).
Proof.
  intros Hs Hin Hl. destruct (list_body _ _ _ _ (sa_lists _ _ Hs) Hin) as [b Eb]. pose proof (sa_body _ _ Hs _ _ Eb) as Hb.
  rewrite (li_loc _ _ (sa_lists _ _ Hs) _ _ Hin) in Hb. destruct b as [p|]; [|done]. exists p. split; [done|]. apply Hb.
Qed.

(** ** One connection *)

(** [focus] ended with the connection [t]. *)
Record focused (id : positive) (f : pcb_list → list positive) (t : tcp) (s s' : stack) : Prop := {
  fo_lists : lists s' (moved (loc f id) (on_list t) id f);
  fo_loc : loc (moved (loc f id) (on_list t) id f) id = on_list t;
  fo_others : ∀ x, x ≠ id → loc (moved (loc f id) (on_list t) id f) x = loc f x;
  fo_body : body_at s' id = if freed t then None else Some (Conn (pcb t));
  fo_bodies : ∀ x, x ≠ id → body_at s' x = body_at s x;
  fo_changed : tcp_active_pcbs_changed s' = false → loc f id = ActivePcbs → on_list t = ActivePcbs;
  fo_glob : glob s' = t;
  fo_ctr : tcp_timer_ctr s' = tcp_timer_ctr s }.

Lemma reads_conn id p s : body_at s id = Some (Conn p) → get_conn id s = Ok (p, s).
Proof. intros [n Eb]%body_some. unfold get_conn. by rewrite (bind_of_ok _ _ _ _ _ (reads_body _ _ _ Eb)). Qed.
Lemma conn_wlp id s (Q : tcp_pcb → stack → Prop) : (∀ p, body_at s id = Some (Conn p) → Q p s) → wlp (get_conn id) Q s.
Proof.
  intros HQ. unfold get_conn, get_body, get_block. do 4 wlp_step. destruct (blocks s !! id) as [[n [p|l]]|] eqn:Eb.
  - do 2 wlp_step. apply wlp_ret, HQ. apply body_some. by exists n.
  - do 2 wlp_step. apply wlp_fail.
  - wlp_step.
Qed.
Lemma body_wlp id s (Q : body → stack → Prop) : (∀ b, body_at s id = Some b → Q b s) → wlp (get_body id) Q s.
Proof.
  intros HQ. unfold get_body, get_block. do 3 wlp_step. destruct (blocks s !! id) as [[n b]|] eqn:Eb; [|by wlp_step].
  do 2 wlp_step. apply HQ. apply body_some. by exists n.
Qed.
Lemma next_wlp id s (Q : option positive → stack → Prop) : (∀ b, blocks s !! id = Some b → Q (next b) s) → wlp (get_next id) Q s.
Proof.
  intros HQ. unfold get_next, get_block. do 3 wlp_step. destruct (blocks s !! id) as [b|]; [|by wlp_step]. do 2 wlp_step. by apply HQ.
Qed.

Lemma focus_ok {A} id (m : TCP A) p s f (Q : A → stack → Prop) :
  lists s f → body_at s id = Some (Conn p) → loc f id ≠ ListenPcbs →
  wlp m (λ a t, (freed t = true → on_list t = NoList) ∧ ∀ s', focused id f t s s' → Q a s') (load id p s) →
  wlp (focus id m) Q s.
Proof.
  intros Hf Eb Hl Hm. unfold focus. wlp_step. apply conn_wlp. intros p' Eb'. rewrite Eb in Eb'. injection Eb' as <-.
  do 4 wlp_step. destruct a as [a t]. destruct (m (load id p s)) as [[a' t']|] eqn:Em; [|done]. injection Elift as -> ->.
  destruct (Hm _ _ Em) as [Hg HQ]. clear Em Hm. wlp_step. apply wlp_of_wp. cbn [fst snd].
  apply body_some in Eb as [n Eb]. change (on_list (load id p s)) with (where_is id s). rewrite (where_is_loc _ _ _ Hf Hl).
  eapply wp_mono; [apply wp_wlp; [apply (relink_ok (loc f id) (on_list t) id s f Hf); [by eexists|done]|apply relink_changed]|].
  cbv zeta. intros [] s1 [(H1 & Hs1 & Hi1 & Ho1) Hch].
  do 2 wlp_step. wlp_step. set (s2 := s1 <| glob := t |>). set (f1 := moved _ _ id f) in *.
  assert (lists s2 f1) as H2 by by destruct H1. assert (∀ x, body_at s2 x = body_at s x) as Hb2 by exact (λ x, same_body _ _ x Hs1).
  assert (∃ n2, blocks s2 !! id = Some (mk_block n2 (Conn p))) as [n2 E2].
  { apply body_some. rewrite Hb2. apply body_some. by exists n. }
  assert (∀ s3 b', glob s3 = t → tcp_timer_ctr s3 = tcp_timer_ctr s → (∀ k, head k s3 = head k s2) →
    tcp_active_pcbs_changed s3 = tcp_active_pcbs_changed s1 → blocks s3 = partial_alter (λ _, b') id (blocks s2) → match b' with Some b' => next b' = n2 | None => on_list t = NoList end →
    the_body <$> b' = (if freed t then None else Some (Conn (pcb t))) → focused id f t s s3) as Hend.
  { intros s3 b' E3 C3 D3 G3 B3 N3 F3. split; try done; [|..|by rewrite G3].
    - fold f1. split; [|by destruct H2..]. intros k. rewrite D3. apply (links_same (blocks s2)); [|apply (li_links _ _ H2)].
      intros x Hx. rewrite B3. destruct (decide (x = id)) as [->|]; [|by rewrite lookup_partial_alter_ne].
      rewrite lookup_partial_alter_eq, E2. destruct b' as [b'|]; [cbn; congruence|]. rewrite N3 in Hi1. by destruct (loc_none _ _ _ _ H2 Hi1 Hx).
    - unfold body_at. by rewrite B3, lookup_partial_alter_eq.
    - intros x Hx. unfold body_at. rewrite B3, lookup_partial_alter_ne by done. apply Hb2. }
  destruct (freed t) eqn:Ef.
  - unfold memp_free, get_block. do 3 wlp_step. rewrite E2. repeat wlp_step. apply HQ. apply (Hend _ None); auto. exact (sm_ctr _ _ Hs1).
  - unfold on_conn, on_block, get_block. do 3 wlp_step. rewrite E2. repeat wlp_step. apply HQ.
    apply (Hend _ (Some (mk_block n2 (Conn (pcb t))))); auto. exact (sm_ctr _ _ Hs1).
Qed.

Lemma focused_kept id f t s s' p : body_at s id = Some (Conn p) → focused id f t s s' → kept s s'.
Proof.
  intros Eb Hf q [l El]. exists l. rewrite (fo_bodies _ _ _ _ _ Hf); [done|]. intros ->. by rewrite Eb in El.
Qed.

(** All is well, but for the connection [id]. *)
Record sane_but (id : positive) (s : stack) (f : pcb_list → list positive) : Prop := {
  sb_lists : lists s f;
  sb_body : ∀ x b, x ≠ id → body_at s x = Some b → body_ok (is_listener s) (loc f x) b }.
Lemma sane_at_but id s f : sane_at s f → sane_but id s f.
Proof. intros [Hf Hb _]. split; [done|]. intros x b _. apply Hb. Qed.

Lemma sane_focused id f t s s' p k l :
  sane_but id s f → body_at s id = Some (Conn p) → focused id f t s s' → idle_rested k l t → (∀ q, l = Some q → is_listener s q) →
  sane_at s' (moved (loc f id) (on_list t) id f).
Proof.
  intros Hs Eb Hf [Hi Hr] Hl. pose proof (focused_kept _ _ _ _ _ _ Eb Hf) as Hk. split; [apply Hf| |by rewrite (fo_glob _ _ _ _ _ Hf)].
  intros x b Ex. apply (body_ok_mono (is_listener s)); [done|]. destruct (decide (x = id)) as [->|Hne].
  - rewrite (fo_body _ _ _ _ _ Hf) in Ex. rewrite (fo_loc _ _ _ _ _ Hf). unfold rested in Hr. destruct (freed t); [done|].
    injection Ex as <-. destruct Hr as [El Hst Ho Hb]. split; [done|by rewrite El|by apply Hb|]. intros q. rewrite El. apply Hl.
  - rewrite (fo_bodies _ _ _ _ _ Hf) in Ex by done. rewrite (fo_others _ _ _ _ _ Hf) by done. by apply Hs.
Qed.

Lemma load_list s f id p : sane_at s f → body_at s id = Some (Conn p) → on_list (load id p s) = loc f id.
Proof. intros Hs Eb. apply where_is_loc; [apply Hs|by eapply sane_loc_conn]. Qed.
Lemma load_settled s f id p : sane_at s f → body_at s id = Some (Conn p) → settled true (listener p) (load id p s).
Proof.
  intros Hs Eb. pose proof (load_list _ _ _ _ Hs Eb) as El. destruct (sa_body _ _ Hs _ _ Eb) as [Hst Ho Hb _].
  split; [done|rewrite El; exact Hst|rewrite El; exact Ho|]. rewrite El. intros E. split; [done|by apply Hb].
Qed.
Lemma load_placed s f id p : sane_at s f → body_at s id = Some (Conn p) →
  ∃ c r, placed true (listener p) (Idle c r) (load id p s).
Proof.
  intros Hs Eb. apply idle_placed. split; [apply Hs|]. by eapply load_settled.
Qed.
Lemma conn_listener s f id p q : sane_at s f → body_at s id = Some (Conn p) → listener p = Some q → is_listener s q.
Proof. intros Hs Eb. apply (sa_body _ _ Hs _ _ Eb). Qed.

(** A call of one connection that leaves it where it should be. *)
Lemma focus_sane_at {A} id (m : TCP A) s f :
  sane_at s f →
  (∀ p c r, body_at s id = Some (Conn p) → placed true (listener p) (Idle c r) (load id p s) → on_list (load id p s) = loc f id →
    wlp m (λ _ t, ∃ k l, idle_rested k l t ∧ ∀ q, l = Some q → is_listener s q) (load id p s)) →
  wlp (focus id m) (λ _ s', sane s' ∧ kept s s') s.
Proof.
  intros Hs Hm. destruct (body_at s id) as [[p|l]|] eqn:Eb.
  - destruct (load_placed _ _ _ _ Hs Eb) as (c & r & Hp). eapply focus_ok; [apply Hs|done|by eapply sane_loc_conn|].
    eapply wlp_mono; [apply (Hm p c r); [done..|by eapply load_list]|]. intros a t (k & l & Hr & Hl). split.
    + intros Ef. destruct Hr as [_ Hr]. unfold rested in Hr. by rewrite Ef in Hr.
    + intros s' Hf. split; [|by eapply focused_kept]. eexists. by eapply sane_focused; [apply sane_at_but|..].
  - unfold focus. wlp_step. apply conn_wlp. intros p E. by rewrite Eb in E.
  - unfold focus. wlp_step. apply conn_wlp. intros p E. by rewrite Eb in E.
Qed.
Lemma focus_sane {A} id (m : TCP A) s f :
  sane_at s f →
  (∀ p c r, body_at s id = Some (Conn p) → placed true (listener p) (Idle c r) (load id p s) → on_list (load id p s) = loc f id →
    wlp m (λ _ t, ∃ k, idle_rested k (listener p) t) (load id p s)) →
  wlp (focus id m) (λ _ s', sane s' ∧ kept s s') s.
Proof.
  intros Hs Hm. apply (focus_sane_at id m s f Hs). intros p c r Eb Hp El. eapply wlp_mono; [by apply (Hm p c r)|].
  intros a t [k Hr]. exists k, (listener p). split; [done|]. intros q. by eapply conn_listener.
Qed.

(** Sending and receiving, whatever the state. *)
Lemma focus_stays {A} id (m : TCP A) s : framed stays m → sane s → wlp (focus id m) (λ _ s', sane s' ∧ kept s s') s.
Proof.
  intros Hm [f Hs]. apply (focus_sane id m s f Hs). intros p c r _ Hp _.
  eapply framed_wlp; [exact Hm|exists true; by eapply placed_idle|]. intros t t' [k Hk] Ht. exists k. by eapply idle_stays.
Qed.

Lemma rested_weaken k l s : idle_rested k l s → idle_rested true l s.
Proof.
  intros [Hi Hr]. split; [done|]. unfold rested in *. destruct (freed s); [done|]. destruct Hr as [? ? ? Hb]. split; try done.
  intros E. split; [done|by apply Hb].
Qed.
Lemma active_rested k l s : idle_rested k l s → on_list s = ActivePcbs → idle_rested false l s.
Proof.
  intros [Hi Hr] El. split; [done|]. unfold rested in *. destruct (freed s); [done|]. destruct Hr as [? ? ? Hb]. split; try done.
  by rewrite El.
Qed.

(** What needs no connection. *)
Lemma on_glob_sane {A} (m : TCP A) s (Q : A → stack → Prop) : sane s →
  wlp m (λ a t, tcp_input_pcb t = false ∧ (∀ s', sane s' → kept s s' → blocks s' = blocks s → (∀ k, head k s' = head k s) → glob s' = t → Q a s')) (glob s) →
  wlp (on_glob m) Q s.
Proof.
  intros [f [Hf Hb Hi]] Hm. unfold on_glob. do 4 wlp_step. destruct a as [a t]. cbn [fst snd].
  destruct (m (glob s)) as [[a' t']|] eqn:Em; [|done]. injection Elift as -> ->. destruct (Hm _ _ Em) as [Hi' HQ].
  do 3 wlp_step. apply HQ; [|by intros q|done|by intros []|done]. exists f. split; [by destruct Hf|exact Hb|done].
Qed.

(** A block that keeps its place gets another body. *)
Lemma on_block_ok id (g : block → block) s b : blocks s !! id = Some b →
  on_block id g s = Ok ((), s <| blocks ::= λ bs, <[id := g b]> bs |>).
Proof. intros Eb. unfold on_block. by rewrite (bind_of_ok _ _ _ _ _ (reads_block _ _ _ Eb)). Qed.

Definition like (b b' : body) : Prop := match b, b' with Conn _, Conn _ | Lsn _, Lsn _ => True | _, _ => False end.

Lemma rebody_at id n b' s x : body_at (s <| blocks ::= λ bs, <[id := mk_block n b']> bs |>) x = if decide (x = id) then Some b' else body_at s x.
Proof. unfold body_at. get_set. case_decide as E; [subst x; by rewrite lookup_insert_eq|by rewrite lookup_insert_ne]. Qed.

Lemma rebody_sane s f id n b b' : sane_at s f → blocks s !! id = Some (mk_block n b) → like b b' →
  body_ok (is_listener s) (loc f id) b' → let s' := s <| blocks ::= λ bs, <[id := mk_block n b']> bs |> in sane_at s' f ∧ kept s s'.
Proof.
  intros [Hf Hb Hi] Eb Hl Hok s'.
  assert (body_at s id = Some b) as Eb' by (apply body_some; by exists n).
  assert (kept s s') as Hk.
  { intros q [l El]. unfold is_listener, s'. rewrite rebody_at. case_decide as E; [|by exists l]. subst q. rewrite Eb' in El. injection El as ->.
    destruct b'; [done|by eexists]. }
  split; [|done]. split; [| |done].
  - split; [|apply Hf..]. intros k. replace (head k s') with (head k s) by by destruct k. apply (links_same (blocks s)); [|apply Hf].
    intros x Hx. subst s'. get_set. destruct (decide (x = id)) as [->|]; [by rewrite lookup_insert_eq, Eb|by rewrite lookup_insert_ne].
  - intros x bx Ex. apply (body_ok_mono _ _ _ _ Hk). subst s'. rewrite rebody_at in Ex. case_decide as E; [|by apply Hb].
    subst x. by injection Ex as <-.
Qed.

(** [g] sees no link and keeps the place. *)
Lemma on_block_sane id g s f : sane_at s f →
  (∀ n b, body_at s id = Some b → ∃ b', g (mk_block n b) = mk_block n b' ∧ like b b' ∧ body_ok (is_listener s) (loc f id) b') →
  wlp (on_block id g) (λ _ s', sane_at s' f ∧ kept s s' ∧ (∀ x, x ≠ id → body_at s' x = body_at s x) ∧
    ∃ n b, blocks s !! id = Some (mk_block n b) ∧ body_at s' id = Some (the_body (g (mk_block n b)))) s.
Proof.
  intros Hs Hg [] s' E. destruct (blocks s !! id) as [[n b]|] eqn:Eb.
  - rewrite (on_block_ok _ _ _ _ Eb) in E. injection E as <-. destruct (Hg n b) as (b' & E' & Hl & Hb); [apply body_some; by exists n|].
    rewrite E'. destruct (rebody_sane s f id n b b' Hs Eb Hl Hb) as [H1 H2]. split; [done|]. split; [done|].
    split; [intros x Hx; by rewrite rebody_at, decide_False|]. exists n, b. split; [done|]. by rewrite rebody_at, decide_True, E' by done.
  - unfold on_block, get_block, mbind, M_bind, gets in E. by rewrite Eb in E.
Qed.

Lemma on_conn_sane id g s f : sane_at s f →
  (∀ p, body_at s id = Some (Conn p) → conn_ok (is_listener s) (loc f id) (g p)) →
  wlp (on_conn id g) (λ _ s', sane_at s' f ∧ kept s s' ∧ (∀ x, x ≠ id → body_at s' x = body_at s x) ∧
    ∀ p, body_at s id = Some (Conn p) → body_at s' id = Some (Conn (g p))) s.
Proof.
  intros Hs Hg. eapply wlp_mono; [apply (on_block_sane id _ s f Hs)|].
  - intros n [p|l] Eb; cbn [the_body]; [exists (Conn (g p)); split; [done|split; [done|by apply Hg]]|].
    exists (Lsn l). split; [done|]. split; [done|]. by apply (sa_body _ _ Hs).
  - intros [] s' (H1 & H2 & H3 & n & b & Eb & Eb'). split; [done|]. split; [done|]. split; [done|]. intros p Ep.
    apply body_some in Ep as [n' Ep]. rewrite Eb in Ep. injection Ep as _ ->. exact Eb'.
Qed.

Lemma conn_ok_same (lsn : positive → Prop) k p p' : conn_ok lsn k p → state p' = state p → listener p' = listener p →
  local_port p' = local_port p → bound_to_netif p' = bound_to_netif p → conn_ok lsn k p'.
Proof. intros [? ? ? ?] Es El Ep En. split; rewrite ?Es, ?El, ?Ep, ?En; auto. Qed.

(** ** Allocation *)

(** The turn of the timer a connection was handled in stays. *)
Definition tick_same (t t' : tcp) : Prop := last_timer (pcb t') = last_timer (pcb t).
#[export] Instance tick_same_pre : PreOrder tick_same.
Proof. split; [by intros t|]. intros t u v H1 H2. unfold tick_same in *. congruence. Qed.

(** What the callbacks of an application promise, for each control block: they
    leave their connection where it should be, [ERR_ABRT] means that it is
    gone; a connection that is accepted is not closed at once; the callback for
    errors only looks, as does [accept] without a connection.  Nor do they know
    of the timer. *)
Definition accepts (cb : TCP Z) : Prop :=
  (∀ l m s, placed false l m s → freed s = false → on_list s = ActivePcbs → wlp cb (λ e s', placed false l m s' ∧ (e = ERR_ABRT → freed s' = true) ∧
    (e = ERR_OK → freed s' = false → on_list s' = ActivePcbs)) s) ∧
  ∀ s, wlp cb (λ _ s', tcp_input_pcb s' = tcp_input_pcb s) s.
Definition polls (cb : TCP (bool * Z)) : Prop :=
  ∀ l m s, placed false l m s → freed s = false → wlp cb (λ r, polled l m r.1 s) s.

Class WellBehaved (app_recv : positive → option (list tbuf) → TCP Z) (app_err : positive → Z → TCP ())
    (app_sent : positive → Z → TCP Z) (app_connected app_accept : positive → TCP Z)
    (app_poll : positive → TCP (bool * Z)) : Prop := {
  wb_recv : ∀ id d, behaves (app_recv id d);
  wb_err : ∀ id e, framed stays (app_err id e);
  wb_sent : ∀ id n, behaves (app_sent id n);
  wb_connected : ∀ id, behaves (app_connected id);
  wb_accept : ∀ id, accepts (app_accept id);
  wb_poll : ∀ id, polls (app_poll id);
  wb_tick : ∀ id d, framed tick_same (app_recv id d) }.

Section Sane.
Context `{TcpEnv} `{PcbEnv}.
Context (app_recv : positive → option (list tbuf) → TCP Z) (app_err : positive → Z → TCP ())
  (app_sent : positive → Z → TCP Z) (app_connected app_accept : positive → TCP Z) (app_poll : positive → TCP (bool * Z)).
Context {wb : WellBehaved app_recv app_err app_sent app_connected app_accept app_poll}.

(** A block was allocated. *)
Record grown (r : option positive) (b : body) (s s' : stack) : Prop := {
  gr_lists : ∀ f, lists s f → lists s' f;
  gr_input : tcp_input_pcb (glob s') = tcp_input_pcb (glob s);
  gr_body : match r with Some id => body_at s id = None ∧ body_at s' id = Some b | None => True end;
  gr_bodies : ∀ x, r ≠ Some x → body_at s' x = body_at s x }.

Lemma malloc_grown g s : wlp (memp_malloc g) (λ r s', ∃ s1, grown r (g s1) s s') s.
Proof.
  unfold memp_malloc, on_glob. do 5 wlp_step. destruct a as [ok t]. assert (tcp_input_pcb t = tcp_input_pcb (glob s)) as Hi.
  { unfold ask in Elift. cbn in Elift. by injection Elift as <- <-. }
  do 2 wlp_step. cbn [fst snd]. set (s1 := s <| glob := t |>). do 2 wlp_step; [|wlp_step; exists s1; split; [by intros f Hf; destruct Hf|done..]].
  do 7 wlp_step. set (id := fresh (dom (blocks s1))). assert (blocks s !! id = None) as Hn.
  { apply not_elem_of_dom. apply (is_fresh (dom (blocks s))). }
  exists s1. split; [|exact Hi| |].
  - intros f Hf. split; [|apply Hf..]. intros k. rewrite head_blocks. replace (head k s1) with (head k s) by by destruct k.
    apply (links_same (blocks s)); [|apply (li_links _ _ Hf)].
    intros x Hx. destruct (links_in _ _ _ _ (li_links _ _ Hf k) Hx) as [b Eb]. get_set. rewrite lookup_insert_ne; [done|]. intros <-. congruence.
  - unfold body_at. get_set. by rewrite Hn, lookup_insert_eq.
  - intros x Hx. unfold body_at. get_set. rewrite lookup_insert_ne; [done|]. congruence.
Qed.

(** A new connection, if there is one. *)
Definition fresh_conn (r : option positive) (s s' : stack) : Prop :=
  ∃ f, sane_at s' f ∧ kept s s' ∧
    ∀ id, r = Some id → loc f id = NoList ∧ ∃ n t c, body_at s' id = Some (Conn (fresh_pcb n t c)).

Lemma malloc_pcb_ok n s : sane s → wlp (malloc_pcb n) (λ r, fresh_conn r s) s.
Proof.
  intros [f Hs]. eapply wlp_mono; [apply malloc_grown|]. intros r s' [s1 [Hl Hi Hb Hbs]]. cbv beta in Hb.
  assert (kept s s') as Hk.
  { intros q [l El]. exists l. rewrite Hbs; [done|]. intros ->. destruct Hb as [Hb _]. congruence. }
  exists f. split; [|split; [done|intros id ->; split; [|by eexists _, _, _; apply Hb]]].
  - split; [by apply Hl, Hs| |by rewrite Hi; apply Hs]. intros x b Ex. apply (body_ok_mono _ _ _ _ Hk).
    destruct (decide (r = Some x)) as [->|Hne]; [|apply Hs; by rewrite <- Hbs]. destruct Hb as [Hn E]. rewrite Ex in E. injection E as ->.
    replace (loc f x) with NoList; [by split|]. symmetry. eapply absent_loc; [apply Hs|]. unfold body_at in Hn. by destruct (blocks s !! x).
  - destruct Hb as [Hn _]. eapply absent_loc; [apply Hs|]. unfold body_at in Hn. by destruct (blocks s !! id).
Qed.

(** *** Connections that have to go *)

Lemma abandon_sane id reset s f : sane_at s f →
  (∀ p, body_at s id = Some (Conn p) → state p = CLOSED → loc f id = BoundPcbs → local_port p ≠ 0) →
  wlp (tcp_abandon app_err id reset) (λ _ s', sane s' ∧ kept s s') s.
Proof using wb.
  intros Hs Hn. apply (focus_sane id _ s f Hs). intros p c r Eb Hp El.
  eapply wlp_mono; [apply abandon_ok; [apply wb_err|exact Hp|]|].
  - intros Es E. rewrite El in E. by apply Hn.
  - intros [] t [Ht _]. exists true. by eapply placed_idle.
Qed.

(** Reading the connections of a list. *)
Lemma walk_conns {A} (g : A → positive → tcp_pcb → A) l a s f : sane_at s f → l ≠ ListenPcbs →
  walk (B := ()) (list_fuel s) (λ a id, p ← get_conn id; mret (inl (g a id p))) a (head l s) s =
    Ok (foldl (stop_at (λ a id, inl (match body_at s id with Some (Conn p) => g a id p | _ => a end))) (inl a) (f l), s).
Proof.
  intros Hs Hl. apply walk_reads; [apply Hs|unfold list_fuel; pose proof (list_length s f l (sa_lists _ _ Hs)); lia|].
  intros a' id Hin. destruct (list_conn _ _ _ _ Hs Hin Hl) as (p & Eb & _). rewrite (bind_of_ok _ _ _ _ _ (reads_conn _ _ _ Eb)). by rewrite Eb.
Qed.

(** The choice of a loop that looks for a connection. *)
Lemma choose_in {A} (g : A → positive → A) (chosen : A → option positive) (l : list positive) :
  (∀ a id, chosen (g a id) = Some id ∨ chosen (g a id) = chosen a) → ∀ a,
  match foldl (stop_at (B := ()) (λ a id, inl (g a id))) (inl a) l with
  | inl a' => ∀ id, chosen a' = Some id → id ∈ l ∨ chosen a = Some id
  | inr _ => True
  end.
Proof.
  intros Hg. induction l as [|x l IH]; intros a; [by right|]. cbn [foldl stop_at]. specialize (IH (g a x)).
  destruct (foldl _ _ l) as [a'|]; [|done]. intros id E. destruct (IH id E) as [|E']; [left; by right|].
  destruct (Hg a x) as [Ex|Ex]; rewrite Ex in E'; [|by right]. injection E' as <-. left. left.
Qed.

Lemma walk_chooses {A} (g : A → positive → tcp_pcb → A) (chosen : A → option positive) l a s f (Q : A + () → stack → Prop) :
  sane_at s f → l ≠ ListenPcbs → (∀ a id p, chosen (g a id p) = Some id ∨ chosen (g a id p) = chosen a) → chosen a = None →
  (∀ a', (∀ id, chosen a' = Some id → id ∈ f l) → Q (inl a') s) → (∀ u, Q (inr u) s) →
  wlp (walk (list_fuel s) (λ a id, p ← get_conn id; mret (inl (g a id p))) a (head l s)) Q s.
Proof.
  intros Hs Hl Hg Ha HQ Hu. apply wlp_of_wp. eapply wp_intro; [by apply walk_conns|].
  set (g' := λ a id, match body_at s id with Some (Conn p) => g a id p | _ => a end).
  assert (∀ a id, chosen (g' a id) = Some id ∨ chosen (g' a id) = chosen a) as Hg'.
  { intros a1 x. subst g'. cbv beta. destruct (body_at s x) as [[p|]|]; auto. }
  pose proof (choose_in g' chosen (f l) Hg' a) as Hc. fold g'. destruct (foldl _ _ _) as [a'|]; [|apply Hu].
  apply HQ. intros id Eid. destruct (Hc id Eid) as [|E']; [done|]. by rewrite Ha in E'.
Qed.

Lemma longest_idle_ok l test s f : sane_at s f → l ≠ ListenPcbs →
  wlp (longest_idle l test) (λ r s', s' = s ∧ ∀ id, r = Some id → id ∈ f l) s.
Proof.
  intros Hs Hl. unfold longest_idle. do 7 wlp_step.
  apply (walk_chooses (λ a id p, if test p && (idle (tcp_ticks (glob s)) p >=? a.1) then (idle (tcp_ticks (glob s)) p, Some id) else a) snd l _ s f); try done.
  - intros a id p. destruct (_ && _); auto.
  - intros a Ha. by wlp_step.
  - intros u. wlp_step. by split.
Qed.

(** What was chosen from a list of connections goes. *)
Lemma kill_sane id l reset s f : sane_at s f → id ∈ f l → l = ActivePcbs ∨ l = TwPcbs →
  wlp (tcp_abandon app_err id reset) (λ _ s', sane s' ∧ kept s s') s.
Proof using wb.
  intros Hs Hin Hl. apply (abandon_sane id reset s f Hs). intros p _ _ E. rewrite (li_loc _ _ (sa_lists _ _ Hs) _ _ Hin) in E. by destruct Hl; subst.
Qed.

Lemma kill_prio_ok n s : sane s → wlp (tcp_kill_prio app_err n) (λ _ s', sane s' ∧ kept s s') s.
Proof using wb.
  intros [f Hs]. unfold tcp_kill_prio. do 7 wlp_step.
  apply (walk_chooses (λ a id p, older id (tcp_ticks (glob s)) p a) snd ActivePcbs _ s f); try done.
  - intros [[m i] o] id p. cbn. destruct (_ && _); auto.
  - intros [[m i] [id|]] Ha; [|apply wlp_ret; by split; [exists f|]]. apply (kill_sane id ActivePcbs true s f Hs); [by apply Ha|by left].
  - intros u. apply wlp_ret. by split; [exists f|].
Qed.
Lemma kill_state_ok st s : sane s → wlp (tcp_kill_state app_err st) (λ _ s', sane s' ∧ kept s s') s.
Proof using wb.
  intros [f Hs]. unfold tcp_kill_state. wlp_step. wlp_step; [|by wlp_step]. do 2 wlp_step.
  eapply wlp_mono; [by apply (longest_idle_ok ActivePcbs _ s f)|]. intros [id|] s' [-> Hr]; [|wlp_step; by split; [exists f|]].
  apply (kill_sane id ActivePcbs false s f Hs); [by apply Hr|by left].
Qed.
Lemma kill_timewait_ok s : sane s → wlp (tcp_kill_timewait app_err) (λ _ s', sane s' ∧ kept s s') s.
Proof using wb.
  intros [f Hs]. unfold tcp_kill_timewait. wlp_step.
  eapply wlp_mono; [by apply (longest_idle_ok TwPcbs _ s f)|]. intros [id|] s' [-> Hr]; [|wlp_step; by split; [exists f|]].
  apply (kill_sane id TwPcbs true s f Hs); [by apply Hr|by right].
Qed.

Lemma or_kill_ok kill n m s : sane s → (∀ s, sane s → wlp kill (λ _ s', sane s' ∧ kept s s') s) →
  wlp m (λ r, fresh_conn r s) s → wlp (or_kill kill n m) (λ r, fresh_conn r s) s.
Proof.
  intros Hs Hk Hm. unfold or_kill. wlp_step. eapply wlp_mono; [exact Hm|]. intros [id|] s1 H1; [by wlp_step|].
  destruct H1 as (f1 & H1 & Hk1 & _). wlp_step. eapply wlp_mono; [apply Hk; by exists f1|]. intros [] s2 [H2 Hk2].
  eapply wlp_mono; [by apply malloc_pcb_ok|]. intros r s3 (f3 & H3 & Hk3 & Hr). exists f3. split; [done|]. split; [|done].
  etransitivity; [exact Hk1|]. by etransitivity.
Qed.
Lemma alloc_ok n s : sane s → wlp (tcp_alloc app_err n) (λ r, fresh_conn r s) s.
Proof using wb.
  intros Hs. unfold tcp_alloc. apply or_kill_ok; [done|apply kill_prio_ok|]. apply or_kill_ok; [done|apply kill_state_ok|].
  apply or_kill_ok; [done|apply kill_state_ok|]. apply or_kill_ok; [done|apply kill_timewait_ok|]. by apply malloc_pcb_ok.
Qed.

Lemma new_ok s : sane s → wlp (tcp_new app_err) (λ _, sane) s.
Proof using wb. intros Hs. eapply wlp_mono; [by apply alloc_ok|]. intros r s' (f & Hf & _). by exists f. Qed.
Lemma new_ip_type_ok t s : sane s → wlp (tcp_new_ip_type app_err t) (λ _, sane) s.
Proof using wb.
  intros Hs. unfold tcp_new_ip_type. wlp_step. eapply wlp_mono; [by apply alloc_ok|]. intros [id|] s1 (f & Hf & _ & Hr); [|wlp_step; by exists f].
  wlp_step. eapply wlp_mono; [apply (on_conn_sane id _ s1 f Hf)|].
  - intros p Ep. by eapply conn_ok_same; [apply (sa_body _ _ Hf _ _ Ep)|..].
  - intros [] s2 (H2 & _). wlp_step. by exists f.
Qed.
End Sane.
