(* ===== verification/LwipTcpBind.v ===== *)
(** TCP of lwIP, binding: [tcp_bind] on every branch. *)
From stdpp Require Import gmap.
From S2P Require Import Prelude.
From S2P Require Import LwipTcp.
From S2P Require Import LwipTcpOut.
From S2P Require Import LwipTcpPcbs.
From S2P Require Import LwipTcpPlace.
From S2P Require Import LwipTcpLinks.
From S2P Require Import LwipTcpPorts.
From S2P Require Import LwipTcpSane.

(** A control block on one of the lists is in the way of [ip] and [port]: it has
    the port, and an address of the same kind that is equal or overlaps. *)
Definition blocked (s : stack) (f : pcb_list → list positive) (ip : list Z) (port : Z) : Prop :=
  ∃ l x b, l ≠ NoList ∧ x ∈ f l ∧ body_at s x = Some b ∧ b_local_port b = port ∧ is_v6 (b_local_ip b) = is_v6 ip ∧
    (isany (b_local_ip b) = true ∨ isany ip = true ∨ b_local_ip b = ip).

(** The test of the loop over the lists. *)
Definition taken (s : stack) (f : pcb_list → list positive) (ip : list Z) (port : Z) : bool :=
  existsb (λ l, existsb (at_block (conflicts ip port) (blocks s)) (f l)) tcp_pcb_lists.
Lemma conflicts_spec ip port b : conflicts ip port b = true ↔
  b_local_port b = port ∧ is_v6 (b_local_ip b) = is_v6 ip ∧ (isany (b_local_ip b) = true ∨ isany ip = true ∨ b_local_ip b = ip).
Proof.
  unfold conflicts. rewrite !andb_true_iff, !orb_true_iff, Z.eqb_eq, bool_decide_eq_true, eqb_true_iff. intuition congruence.
Qed.
Lemma taken_spec s f ip port : taken s f ip port = true ↔ blocked s f ip port.
Proof.
  unfold taken, blocked. rewrite existsb_exists. split.
  - intros (l & Hl & (x & Hx & Hb)%existsb_exists). unfold at_block in Hb. destruct (blocks s !! x) as [[n b]|] eqn:Eb; [|done].
    exists l, x, b. split; [by intros ->; cbn in Hl; intuition|]. split; [by apply list_elem_of_In|].
    split; [apply body_some; by exists n|]. by apply conflicts_spec.
  - intros (l & x & b & Hl & Hx & [n Eb]%body_some & Hc). exists l. split; [destruct l; cbn; intuition|]. apply existsb_exists. exists x.
    split; [by apply list_elem_of_In|]. unfold at_block. rewrite Eb. by apply conflicts_spec.
Qed.

(** The control block [p], bound. *)
Definition bound (p : tcp_pcb) (ip : list Z) (port : Z) : tcp_pcb :=
  p <| bound_to_netif := 0 |> <| local_ip := if isany ip then local_ip p else ip |> <| local_port := port |>.

(** What [tcp_bind] found: an address that is free, one that is taken, no port
    that is left. *)
Inductive bind_result (id : positive) (p : tcp_pcb) (ip : list Z) (port : Z) (s : stack) (f : pcb_list → list positive) :
    Z → stack → Prop :=
  | bind_done q s' : sane_at s' (added BoundPcbs id f) → body_at s' id = Some (Conn (bound p ip q)) →
      (∀ x, x ≠ id → body_at s' x = body_at s x) →
      (port = 0 → in_port_range q ∧ port_used s f q = false) → (port ≠ 0 → q = port ∧ ¬ blocked s f ip port) →
      bind_result id p ip port s f ERR_OK s'
  | bind_taken : port ≠ 0 → blocked s f ip port → bind_result id p ip port s f ERR_USE s
  | bind_no_port q : port = 0 → (∀ q, in_port_range q → port_used s f q = true) →
      bind_result id p ip port s f ERR_BUF (s <| tcp_port := q |>).

(** The port that was asked for or the next one that is free. *)
Lemma choose_port port s f : lists s f → in_port_range (tcp_port s) → 0 ≤ port →
  ∃ q t, (if port =? 0 then tcp_new_port else mret port) s = Ok (q, s <| tcp_port := t |>) ∧
    (port = 0 → q = 0 ∧ (∀ q, in_port_range q → port_used s f q = true) ∨ q ≠ 0 ∧ in_port_range q ∧ port_used s f q = false) ∧
    (port ≠ 0 → q = port ∧ t = tcp_port s).
Proof.
  intros Hf Hq Hp. destruct (Z.eqb_spec port 0) as [->|Hne].
  - destruct (new_port_start s f Hf Hq) as (q & t & E & _ & Hc). exists q, t. split; [exact E|]. split; [|done]. intros _.
    destruct Hc as [(k & _ & -> & _ & Hu & _)|[-> Hu]]; [right|left; split; [done|by eapply all_ports_used]].
    pose proof (port_after_range (tcp_port s) k) as Hr. split; [|done]. unfold in_port_range, TCP_LOCAL_PORT_RANGE_START in Hr. lia.
  - exists port, (tcp_port s). split; [by destruct s|]. by split.
Qed.

(** A control block that is on no list goes to the bound ones. *)
Lemma reg_bound id s f p : sane_at s f → loc f id = NoList → body_at s id = Some (Conn p) →
  (local_port p ≠ 0 ∨ bound_to_netif p ≠ 0) → wp (TCP_REG BoundPcbs id) (λ _ s', sane_at s' (added BoundPcbs id f) ∧ same s s') s.
Proof.
  intros Hs Hn Eb Hp. pose proof (sa_lists _ _ Hs) as Hf. eapply wp_mono.
  - apply (reg_ok BoundPcbs id s f); [done| |done..]. apply body_some in Eb as [n Eb]. by eexists.
  - intros [] s' [Hf' Hs']. cbv beta. destruct (added_ok s f BoundPcbs id Hf Hn) as (_ & _ & Hi & Ho); [done|].
    split; [|done]. split; [done| |by rewrite (sm_glob _ _ Hs'); apply Hs].
    intros x b Ex. rewrite (same_body _ _ _ Hs') in Ex. apply (body_ok_mono (is_listener s)); [by apply same_kept|].
    destruct (decide (x = id)) as [->|Hne]; [|rewrite Ho by done; by apply Hs]. rewrite Hi. rewrite Eb in Ex. injection Ex as <-.
    destruct (sa_body _ _ Hs _ _ Eb) as [Hst Hof _ Hl]. rewrite Hn in Hst. by split.
Qed.

(** The control block is bound. *)
Lemma bind_here id p ip q s f : sane_at s f → body_at s id = Some (Conn p) → state p = CLOSED → loc f id = NoList → q ≠ 0 →
  wp (on_conn id (λ p, (p <| bound_to_netif := 0 |> <| local_ip ::= λ a, if isany ip then a else ip |>) <| local_port := q |>);;
      TCP_REG BoundPcbs id;; mret ERR_OK)
    (λ r s', r = ERR_OK ∧ sane_at s' (added BoundPcbs id f) ∧ body_at s' id = Some (Conn (bound p ip q)) ∧
      ∀ x, x ≠ id → body_at s' x = body_at s x) s.
Proof.
  intros Hs Eb Ec Hn Hq. pose proof Eb as [n En]%body_some. unfold on_conn. wp_step. eapply wp_intro; [by apply on_block_ok|]. cbn [the_body].
  set (p' := bound p ip q). change (mk_block n (Conn p) <| the_body := _ |>) with (mk_block n (Conn p')).
  destruct (rebody_sane s f id n (Conn p) (Conn p') Hs En) as [H1 _]; [done| |].
  { destruct (sa_body _ _ Hs _ _ Eb) as [Hst Hof _ Hl]. rewrite Hn in *. by split. }
  cbv zeta in H1. set (s1 := s <| blocks ::= _ |>) in *. assert (body_at s1 id = Some (Conn p')) as E1 by (subst s1; by rewrite rebody_at, decide_True).
  wp_step. eapply wp_mono; [eapply (reg_bound id s1 f); [done..|by left]|]. intros [] s2 [H2 S2]. wp_step. split; [done|]. split; [done|].
  split; [by rewrite (same_body _ _ _ S2)|]. intros x Hx. rewrite (same_body _ _ _ S2). subst s1. by rewrite rebody_at, decide_False.
Qed.

(** (C12) [tcp_bind] of a control block that is on no list returns, on every
    branch with what [bind_result] says: the address and the port that were
    asked for, or a port of the range that nobody uses, if no control block of
    the four lists is in the way; [ERR_USE] or [ERR_BUF] and nothing changed but
    the last port otherwise. *)
Theorem tcp_bind_spec id ipaddr port s f p :
  sane_at s f → body_at s id = Some (Conn p) → state p = CLOSED → loc f id = NoList → in_port_range (tcp_port s) → 0 ≤ port →
  wp (tcp_bind id ipaddr port) (bind_result id p (default (any_addr IPADDR_TYPE_V4) ipaddr) port s f) s.
Proof.
  intros Hs Eb Ec Hn Ht Hp. pose proof (sa_lists _ _ Hs) as Hf. pose proof Eb as [n En]%body_some. unfold tcp_bind.
  set (ip := default _ ipaddr). wp_step. eapply wp_intro; [by apply reads_body|]. rewrite (bool_decide_eq_true_2 (b_state _ = _)) by exact Ec.
  unfold LWIP_ERROR. wp_step. wp_step.
  destruct (choose_port port s f Hf Ht Hp) as (q & t & E & H0 & H1). wp_step. eapply wp_intro; [exact E|].
  set (s1 := s <| tcp_port := t |>). assert (sane_at s1 f) as Hs1 by (destruct Hs as [[A B C] D F]; by split).
  destruct (Z.eqb_spec q 0) as [->|Hq].
  { wp_step. destruct (decide (port = 0)) as [E0|E0]; [|by destruct (H1 E0)]. destruct (H0 E0) as [[_ Hu]|[]]; [|done]. by apply bind_no_port. }
  wp_step. eapply (wp_intro _ _ _ (negb (port =? 0) && taken s f ip port) s1).
  { destruct (Z.eqb_spec port 0); [done|]. exact (any_list_ok tcp_pcb_lists (conflicts ip port) s1 f (sa_lists _ _ Hs1)). }
  destruct (negb (port =? 0) && taken s f ip port) eqn:Eu.
  - apply andb_true_iff in Eu as [E0%negb_true_iff%Z.eqb_neq Eu]. wp_step. destruct (H1 E0) as [-> ->].
    replace s1 with s by (subst s1; by destruct s). apply bind_taken; [done|]. by apply taken_spec.
  - eapply wp_mono; [by apply (bind_here id p ip q s1 f)|]. intros r s' (-> & H2 & H3 & H4). apply (bind_done id p ip port s f q s' H2 H3 H4).
    + intros E0. destruct (H0 E0) as [[-> _]|[_ ?]]; [done|]. done.
    + intros E0. destruct (H1 E0) as [-> _]. split; [done|]. apply Z.eqb_neq in E0. rewrite E0 in Eu. cbn [negb andb] in Eu. rewrite <- taken_spec. by rewrite Eu.
Qed.
