(* ===== verification/LwipTcpCalls.v ===== *)
(** TCP of lwIP, the calls of the application and the interfaces, and incoming
    segments, keep the lists of control blocks as they should be. *)
From stdpp Require Import gmap.
From S2P Require Import Prelude.
From S2P Require Import LwipTcp.
From S2P Require Import LwipTcpOut.
From S2P Require Import LwipTcpApi.
From S2P Require Import LwipTcpIn.
From S2P Require Import LwipTcpProcess.
From S2P Require Import LwipTcpTimer.
From S2P Require Import LwipTcpPcbs.
From S2P Require Import LwipTcpSeq.
From S2P Require Import LwipTcpStays.
From S2P Require Import LwipTcpPlace.
From S2P Require Import LwipTcpLinks.
From S2P Require Import LwipTcpPorts.
From S2P Require Import LwipTcpSane.
From S2P Require Import LwipTcpBind.

Section Calls.
Context `{TcpEnv} `{PcbEnv}.
Context (app_recv : positive → option (list tbuf) → TCP Z) (app_err : positive → Z → TCP ())
  (app_sent : positive → Z → TCP Z) (app_connected app_accept : positive → TCP Z) (app_poll : positive → TCP (bool * Z)).
Context {wb : WellBehaved app_recv app_err app_sent app_connected app_accept app_poll}.

(** ** Binding *)

Lemma error_wlp b s (Q : () → stack → Prop) : (b = true → Q () s) → wlp (LWIP_ERROR b) Q s.
Proof. intros HQ. unfold LWIP_ERROR. destruct b; [wlp_step; auto|wlp_step]. Qed.

Lemma port_only_sane s f s' : sane_at s f → port_only s s' → sane_at s' f ∧ ∀ x, body_at s' x = body_at s x.
Proof. intros [Hf Hb Hi] [q ->]. by split; [split; [by destruct Hf|..]|]. Qed.

Lemma closed_loc s f id p : sane_at s f → body_at s id = Some (Conn p) → state p = CLOSED → loc f id = NoList ∨ loc f id = BoundPcbs.
Proof.
  intros Hs Eb Es. pose proof (sane_state _ _ _ _ Hs Eb) as Hst. rewrite Es in Hst. destruct (loc f id); auto; cbn in Hst; try done.
  destruct Hst. left.
Qed.

Lemma bind_ok id ip port s f : sane_at s f → (∀ p, body_at s id = Some (Conn p) → loc f id = NoList) →
  wlp (tcp_bind id ip port) (λ _, sane) s.
Proof.
  intros Hs Hn. unfold tcp_bind. wlp_step. apply body_wlp. intros b Eb. wlp_step. apply error_wlp. intros Ec%bool_decide_eq_true.
  destruct b as [p|l]; [|done]. specialize (Hn p Eb). wlp_step. apply (wlp_mono _ (λ _ s', port_only s s')).
  { wlp_step; [apply new_port_frame|by wlp_step]. }
  intros port' s1 H1. destruct (port_only_sane _ _ _ Hs H1) as [Hs1 Eb1]. clear H1. destruct (Z.eqb_spec port' 0) as [->|Hp'].
  { wlp_step. by exists f. }
  wlp_step. apply (wlp_mono _ (λ _ s', s' = s1)).
  { wlp_step; [by wlp_step|]. intros u s2 E. symmetry. exact (any_list_frame eq _ _ s1 u s2 E). }
  intros used s2 ->. wlp_step; [wlp_step; by exists f|].
  wlp_step. eapply wlp_mono; [apply (on_conn_sane id _ s1 f Hs1)|].
  - intros p1 E1. destruct (sa_body _ _ Hs1 _ _ E1) as [Hst Hof _ Hl]. rewrite Hn in *. by split.
  - intros [] s2 (Hs2 & _ & _ & Hb2). rewrite <- Eb1 in Eb. specialize (Hb2 _ Eb). wlp_step.
    apply wlp_of_wp. eapply wp_mono; [eapply (reg_bound id s2 f); [done..|left; exact Hp']|]. intros [] s3 [H3 _]. wlp_step. by eexists.
Qed.

Lemma bind_to_netif_ok id name s f : sane_at s f → (∀ p, body_at s id = Some (Conn p) → loc f id = NoList) →
  wlp (tcp_bind_to_netif id name) (λ _, sane) s.
Proof.
  intros Hs Hn. unfold tcp_bind_to_netif. wlp_step. apply body_wlp. intros b Eb. wlp_step. apply error_wlp. intros Ec%bool_decide_eq_true.
  destruct b as [p|l]; [|done]. specialize (Hn p Eb). wlp_step. apply (wlp_mono _ (λ _ s', s' = s)).
  { intros u s2 E. symmetry. exact (any_list_frame eq _ _ s u s2 E). }
  intros used s1 ->. wlp_step; [wlp_step; by exists f|].
  wlp_step. eapply wlp_mono; [apply (on_conn_sane id _ s f Hs)|].
  - intros p1 E1. destruct (sa_body _ _ Hs _ _ E1) as [Hst Hof _ Hl]. rewrite Hn in *. by split.
  - intros [] s2 (Hs2 & _ & _ & Hb2). specialize (Hb2 _ Eb). wlp_step.
    apply wlp_of_wp. eapply wp_mono; [eapply (reg_bound id s2 f); [done..|by right]|]. intros [] s3 [H3 _]. wlp_step. by eexists.
Qed.

(** A control block that cannot be bound stays as it is. *)
Lemma returns_ERR_OK {A B} (m : ST A) (k : ST B) s :
  wlp (m;; k;; mret ERR_OK) (λ r s', r ≠ ERR_OK → sane s') s.
Proof. intros r s' (a & s1 & _ & (b & s2 & _ & E)%bind_ok_inv)%bind_ok_inv. by injection E as <- _. Qed.

Lemma bind_refused id ip port s : sane s → wlp (tcp_bind id ip port) (λ r s', r ≠ ERR_OK → sane s') s.
Proof.
  intros [f Hs]. unfold tcp_bind. wlp_step. apply body_wlp. intros b Eb. wlp_step. apply error_wlp. intros _.
  wlp_step. apply (wlp_mono _ (λ _ s', port_only s s')).
  { wlp_step; [apply new_port_frame|by wlp_step]. }
  intros port' s1 H1. destruct (port_only_sane _ _ _ Hs H1) as [Hs1 _]. clear H1.
  destruct (port' =? 0); [wlp_step; by exists f|]. wlp_step. apply (wlp_mono _ (λ _ s', s' = s1)).
  { wlp_step; [by wlp_step|]. intros u s2 E. symmetry. exact (any_list_frame eq _ _ s1 u s2 E). }
  intros used s2 ->. destruct used; [wlp_step; by exists f|]. apply returns_ERR_OK.
Qed.

Lemma bind_to_netif_refused id name s :
  sane s → wlp (tcp_bind_to_netif id name) (λ r s', r ≠ ERR_OK → sane s') s.
Proof.
  intros [f Hs]. unfold tcp_bind_to_netif. wlp_step. apply body_wlp. intros b Eb. wlp_step. apply error_wlp. intros _.
  wlp_step. apply (wlp_mono _ (λ _ s', s' = s)).
  { intros u s2 E. symmetry. exact (any_list_frame eq _ _ s u s2 E). }
  intros used s2 ->. destruct used; [wlp_step; by exists f|]. apply returns_ERR_OK.
Qed.

(** ** Listening *)

Lemma memp_free_wlp id s (Q : () → stack → Prop) : Q () (s <| blocks ::= delete id |>) → wlp (memp_free id) Q s.
Proof.
  intros HQ. unfold memp_free, get_block. do 3 wlp_step. destruct (blocks s !! id); [|by wlp_step]. by do 2 wlp_step.
Qed.
Lemma deleted_at id s x : body_at (s <| blocks ::= delete id |>) x = if decide (x = id) then None else body_at s x.
Proof. unfold body_at. get_set. case_decide as E; [subst x; by rewrite lookup_delete_eq|by rewrite lookup_delete_ne]. Qed.

(** [id] leaves the list of bound control blocks, if it is there. *)
Lemma leave_bound (b : bool) id s f : lists s f → is_Some (blocks s !! id) → loc f id = NoList ∨ loc f id = BoundPcbs →
  (b = false → loc f id = NoList) →
  wlp (if b then TCP_RMV BoundPcbs id else mret ()) (λ _ s', ∃ f', lists s' f' ∧ same s s' ∧ loc f' id = NoList ∧ ∀ x, x ≠ id → loc f' x = loc f x) s.
Proof.
  intros Hf Hb Hl Hn. destruct b; [|wlp_step; exists f; by rewrite Hn]. apply wlp_of_wp. destruct Hl as [El|El].
  - eapply wp_mono; [by apply rmv_absent|]. intros [] s' [? ?]. by exists f.
  - destruct (removed_ok s f id Hf) as (_ & _ & H1 & H2). eapply wp_mono; [by apply rmv_ok|]. intros [] s' [? ?]. by exists (removed id f).
Qed.

Lemma listen_ok id s : sane s → wlp (tcp_listen_with_backlog_and_err id) (λ _, sane) s.
Proof.
  intros [f Hs]. unfold tcp_listen_with_backlog_and_err. wlp_step. apply body_wlp. intros b Eb. wlp_step. apply error_wlp.
  intros Ec%bool_decide_eq_true. destruct b as [p0|l]; [|done]. wlp_step. apply conn_wlp. intros p Ep. rewrite Eb in Ep. injection Ep as ->.
  pose proof (closed_loc _ _ _ _ Hs Eb Ec) as Hloc. wlp_step. eapply wlp_mono; [apply malloc_grown|].
  intros r s1 [s0 [Hl Hi Hb Hbs]]. cbv beta in Hb. specialize (Hl f (sa_lists _ _ Hs)). destruct r as [lpcb|].
  - destruct Hb as [Hn Hb1]. assert (lpcb ≠ id) as Hne by congruence.
    assert (loc f lpcb = NoList) as Hnl.
    { eapply absent_loc; [apply Hs|]. unfold body_at in Hn. by destruct (blocks s !! lpcb). }
    wlp_step. eapply wlp_mono; [apply (leave_bound _ id s1 f Hl); [|done|]|].
    + assert (body_at s1 id = Some (Conn p)) as E by by rewrite Hbs by congruence. apply body_some in E as [n E]. by eexists.
    + intros [E1%negb_false_iff%Z.eqb_eq E2%negb_false_iff%Z.eqb_eq]%orb_false_iff. destruct Hloc as [|E]; [done|].
      by destruct (co_bound _ _ _ (sa_body _ _ Hs _ _ Eb) E).
    + intros [] s2 (f2 & Hf2 & Hs2 & Hn2 & Ho2). wlp_step. apply memp_free_wlp. set (s3 := s2 <| blocks ::= delete id |>).
      assert (lists s3 f2) as Hf3 by by apply delete_lists.
      assert (∀ x, x ≠ id → body_at s3 x = body_at s1 x) as Hb3.
      { intros x Hx. subst s3. rewrite deleted_at, decide_False by done. by apply same_body. }
      assert (body_at s3 id = None) as Hid3 by by (subst s3; rewrite deleted_at, decide_True).
      wlp_step. apply wlp_of_wp. eapply wp_mono; [apply (reg_ok ListenPcbs lpcb s3 f2 Hf3); [|by rewrite Ho2|done]|].
      { rewrite <- Hb3 in Hb1 by done. apply body_some in Hb1 as [n E]. by eexists. }
      intros [] s4 [Hf4 Hs4]. destruct (added_ok s3 f2 ListenPcbs lpcb Hf3) as (_ & _ & H1 & H2); [by rewrite Ho2|done|].
      wlp_step. eexists. split; [exact Hf4| |rewrite (sm_glob _ _ Hs4); subst s3; get_set; rewrite (sm_glob _ _ Hs2), Hi; apply Hs].
      assert (kept s s4) as Hk.
      { intros q [l El]. exists l. rewrite (same_body _ _ _ Hs4), Hb3, Hbs by (intros E; congruence). done. }
      intros x b Ex. apply (body_ok_mono _ _ _ _ Hk). rewrite (same_body _ _ _ Hs4) in Ex. destruct (decide (x = lpcb)) as [->|Hx].
      * rewrite H1. rewrite Hb3, Hb1 in Ex by done. by injection Ex as <-.
      * rewrite H2 by done. destruct (decide (x = id)) as [->|Hx']; [congruence|]. rewrite Ho2 by done. apply (sa_body _ _ Hs).
        by rewrite <- Hbs, <- Hb3 by congruence.
  - wlp_step. exists f. split; [done| |by rewrite Hi; apply Hs]. intros x b Ex. rewrite Hbs in Ex by done.
    apply (body_ok_mono (is_listener s)); [|by apply Hs]. intros q [l El]. exists l. by rewrite Hbs.
Qed.

(** ** Closing *)

(** [id] does not have the listener [lpcb]. *)
Definition without (lpcb : positive) (s : stack) (id : positive) : Prop :=
  ∀ p, body_at s id = Some (Conn p) → listener p ≠ Some lpcb.

Lemma remove_listener_ok l lpcb s f (P : positive → Prop) : sane_at s f → l ≠ ListenPcbs → (∀ x, P x → without lpcb s x) →
  wlp (tcp_remove_listener l lpcb) (λ _ s', sane_at s' f ∧ (∀ q, is_listener s' q ↔ is_listener s q) ∧ ∀ x, P x ∨ x ∈ f l → without lpcb s' x) s.
Proof.
  intros Hs Hl HP. unfold tcp_remove_listener. do 5 wlp_step. apply wlp_of_wp.
  eapply (walk_ok _ (f l) (λ seen _ s', sane_at s' f ∧ (∀ q, is_listener s' q ↔ is_listener s q) ∧ ∀ x, P x ∨ x ∈ seen → without lpcb s' x)).
  - intros seen id todo [] s' EL (Hs' & Hk & Hw) Hlk. assert (id ∈ f l) as Hin by (rewrite EL; apply elem_of_app; right; left).
    destruct (list_conn _ _ _ _ Hs' Hin Hl) as (p & Ep & _). wp_step. eapply wp_intro; [by apply reads_conn|]. wp_step.
    pose proof Ep as [n Eb]%body_some. eapply wp_intro; [unfold on_conn; by apply on_block_ok|]. wp_step. cbn [the_body].
    set (p' := if bool_decide (listener p = Some lpcb) then p <| listener := None |> else p).
    change (mk_block n (Conn p) <| the_body := Conn p' |>) with (mk_block n (Conn p')).
    destruct (rebody_sane s' f id n (Conn p) (Conn p') Hs' Eb) as [H1 H2]; [done| |].
    { destruct (sa_body _ _ Hs' _ _ Ep) as [Hst Ho Hb Hls]. subst p'. case_bool_decide; [|by split]. by split. }
    cbv zeta in H1, H2. split; [split; [done|split]|].
    + intros q. rewrite <- Hk. unfold is_listener. rewrite rebody_at. case_decide as E; [|done]. subst q. rewrite Ep. by split; intros [].
    + intros x Hx p1. rewrite rebody_at. case_decide as E.
      * intros [= <-]. subst p'. case_bool_decide; [done|done].
      * apply Hw. destruct Hx as [|Hx]; [by left|]. apply elem_of_app in Hx as [|Hx]; [by right|]. apply list_elem_of_singleton in Hx. congruence.
    + apply (links_same (blocks s')); [|done]. intros x _. get_set. destruct (decide (x = id)) as [->|]; [by rewrite lookup_insert_eq, Eb|by rewrite lookup_insert_ne].
  - intros [] s' (H1 & H2 & H3). wlp_step. by split.
  - by rewrite app_nil_l.
  - apply (li_links _ _ (sa_lists _ _ Hs)).
  - pose proof (list_length s f l (sa_lists _ _ Hs)). unfold list_fuel. lia.
  - split; [done|]. split; [done|]. intros x [Hx|Hx]; [by apply HP|by apply elem_of_nil in Hx].
Qed.

Lemma listen_closed_ok lpcb s f : sane_at s f →
  wlp (tcp_listen_closed lpcb) (λ _ s', sane_at s' f ∧ (∀ q, is_listener s' q ↔ is_listener s q) ∧ ∀ x, without lpcb s' x) s.
Proof.
  intros Hs. unfold tcp_listen_closed. wlp_step. eapply wlp_mono; [by apply (remove_listener_ok BoundPcbs lpcb s f (λ _, False))|].
  intros [] s1 (H1 & K1 & W1). wlp_step. eapply wlp_mono; [by apply (remove_listener_ok ActivePcbs lpcb s1 f (λ x, x ∈ f BoundPcbs)); [..|auto]|].
  intros [] s2 (H2 & K2 & W2). eapply wlp_mono; [by apply (remove_listener_ok TwPcbs lpcb s2 f (λ x, x ∈ f BoundPcbs ∨ x ∈ f ActivePcbs)); [..|auto]|].
  intros [] s3 (H3 & K3 & W3). split; [done|]. split; [intros q; by rewrite K3, K2, K1|]. intros x p Ep.
  pose proof (sane_state _ _ _ _ H3 Ep) as Hst. destruct (loc f x) eqn:El.
  - rewrite (co_off _ _ _ (sa_body _ _ H3 _ _ Ep) El). done.
  - done.
  - apply (W3 x); [|done]. left. left. by apply loc_in.
  - apply (W3 x); [|done]. left. right. by apply loc_in.
  - apply (W3 x); [|done]. right. by apply loc_in.
Qed.

Lemma close_listener_ok lpcb l s : sane s → body_at s lpcb = Some (Lsn l) → wlp (close_listener lpcb) (λ _, sane) s.
Proof.
  intros [f Hs] Eb. assert (loc f lpcb = ListenPcbs) as Hloc by exact (sa_body _ _ Hs _ _ Eb). unfold close_listener. wlp_step.
  eapply wlp_mono; [by apply listen_closed_ok|]. intros [] s1 (H1 & K1 & W1). wlp_step. apply wlp_of_wp.
  destruct (removed_ok s1 f lpcb (sa_lists _ _ H1)) as (_ & _ & Hn & Ho).
  eapply wp_mono; [apply (rmv_ok ListenPcbs lpcb s1 f); [apply H1|done..]|]. intros [] s2 [Hf2 Hs2]. wlp_step. apply memp_free_wlp. wlp_step.
  exists (removed lpcb f). split; [by apply delete_lists| |get_set; rewrite (sm_glob _ _ Hs2); apply H1].
  intros x b. rewrite deleted_at. case_decide as E; [done|]. rewrite Ho, (same_body _ _ _ Hs2) by done. intros Ex.
  pose proof (sa_body _ _ H1 _ _ Ex) as Hx. destruct b as [p|]; [|done]. destruct Hx as [H2 H3 H4 H5]. split; [done..|].
  intros q Eq. destruct (H5 q Eq) as [lq Elq]. exists lq. rewrite deleted_at, (same_body _ _ _ Hs2). rewrite decide_False; [done|].
  intros ->. by apply (W1 x p).
Qed.

Lemma close_sane id s : sane s → wlp (tcp_close id) (λ _, sane) s.
Proof.
  intros Hs. unfold tcp_close. wlp_step. apply body_wlp. intros [p|l] Eb; [|by eapply close_listener_ok]. destruct Hs as [f Hs].
  eapply wlp_mono; [apply (focus_sane id _ s f Hs)|by intros ? ? []].
  intros p' c r _ Hp _. eapply wlp_mono; [by apply close_ok|]. intros e t Ht. exists true. exact (placed_idle _ _ _ _ _ Ht).
Qed.
Lemma shutdown_sane id rx tx s : sane s → wlp (tcp_shutdown id rx tx) (λ _, sane) s.
Proof.
  intros Hs. unfold tcp_shutdown. wlp_step. apply body_wlp. intros [p|l] Eb; [|by wlp_step]. destruct Hs as [f Hs].
  eapply wlp_mono; [apply (focus_sane id _ s f Hs)|by intros ? ? []].
  intros p' c r _ Hp _. eapply wlp_mono; [by apply shutdown_ok|]. intros e t Ht. exists true. exact (placed_idle _ _ _ _ _ Ht).
Qed.

(** What [tcp_abort] needs: a control block that is closed and bound to an
    interface stays on its list. *)
Definition may_abort (s : stack) (id : positive) : Prop :=
  ∀ p, body_at s id = Some (Conn p) → state p = CLOSED → bound_to_netif p = 0.
Lemma abort_sane id s : sane s → may_abort s id → wlp (tcp_abort app_err id) (λ _, sane) s.
Proof using wb.
  intros [f Hs] Hm. eapply wlp_mono; [apply (abandon_sane _ _ _ _ _ _ id true s f Hs)|by intros ? ? []].
  intros p Eb Es El. destruct (co_bound _ _ _ (sa_body _ _ Hs _ _ Eb) El) as [|Hb]; [done|]. by rewrite (Hm p) in Hb.
Qed.

(** ** Callbacks and options *)

Lemma setprio_sane id n s : sane s → wlp (tcp_setprio id n) (λ _, sane) s.
Proof.
  intros [f Hs]. eapply wlp_mono; [apply (on_block_sane id _ s f Hs)|by intros [] s' (? & _); exists f].
  intros m [p|l] Eb; [exists (Conn (p <| prio := n |>))|exists (Lsn (l <| l_prio := n |>))];
    (split; [done|split; [done|]]); [|exact (sa_body _ _ Hs _ _ Eb)]. by eapply conn_ok_same; [apply (sa_body _ _ Hs _ _ Eb)|..].
Qed.
Lemma accept_sane id cb s : sane s → wlp (tcp_accept id cb) (λ _, sane) s.
Proof.
  intros [f Hs]. eapply wlp_mono; [apply (on_block_sane id _ s f Hs)|by intros [] s' (? & _); exists f].
  intros m [p|l] Eb; [exists (Conn p)|exists (Lsn (l <| l_accept := cb |>))]; (split; [done|split; [done|exact (sa_body _ _ Hs _ _ Eb)]]).
Qed.

(** The functions that set a callback leave the place alone. *)
Definition sets_only (g : tcp_pcb → tcp_pcb) : Prop := ∀ p, state (g p) = state p ∧ listener (g p) = listener p ∧
  local_port (g p) = local_port p ∧ bound_to_netif (g p) = bound_to_netif p.
Lemma set_callback_sane id g s : sets_only g → sane s → wlp (set_callback id g) (λ _, sane) s.
Proof.
  intros Hg [f Hs]. unfold set_callback. wlp_step. apply body_wlp. intros b Eb. wlp_step. wlp_step; [|by wlp_step]. wlp_step.
  eapply wlp_mono; [apply (on_conn_sane id g s f Hs)|by intros [] s' (? & _); exists f].
  intros p Ep. destruct (Hg p) as (E1 & E2 & E3 & E4). by eapply conn_ok_same; [apply (sa_body _ _ Hs _ _ Ep)|..].
Qed.

(** ** Connecting *)

Lemma connect_syn_ok old n cb l c r t :
  placed true l (Idle c r) t → freed t = false → wlp (connect_syn old n cb) (λ _ t', ∃ k, idle_rested k l t') t.
Proof.
  intros Hp Hf. unfold connect_syn. apply (stays_then _ _ true l (Idle c r)); [framed|done..|]. intros [] t1 Hp1 Hf1. do 2 wlp_step.
  apply (stays_then _ _ true l (Idle c r)); [apply eff_send_mss_stays|done..|]. intros m t2 Hp2 Hf2.
  apply (stays_then _ _ true l (Idle c r)); [framed|done..|]. intros [] t3 Hp3 Hf3.
  apply (stays_then _ _ true l (Idle c r)); [apply enqueue_flags_stays|done..|]. intros e t4 Hp4 Hf4.
  wlp_step; [|wlp_step; exists true; by eapply placed_idle].
  destruct (placed_facts _ _ _ _ Hp4 Hf4) as [El _].
  wlp_step. unfold on_pcb at 1. do 2 wlp_step. apply (wlp_mono _ (λ _ t', tcp_input_pcb t' = false ∧ freed t' = false ∧ pcb t' = (pcb t4) <| state := SYN_SENT |>)).
  { destruct Hp4 as [(Hi & _) _]. unfold LwipTcpApi.TCP_RMV. wlp_step; wlp_step; by split. }
  intros [] t5 (Hi5 & Hf5 & Ep5). unfold LwipTcpApi.TCP_REG. do 2 wlp_step. set (t6 := t5 <| on_list := ActivePcbs |>).
  assert (idle_rested true l t6) as H6.
  { split; [done|]. unfold rested. change (freed t6) with (freed t5). rewrite Hf5. apply settled_active; [|done|];
      change (pcb t6) with (pcb t5); rewrite Ep5; [done|]. by apply live_states. }
  wlp_step. eapply wlp_mono; [apply tcp_output_stays|]. intros e' t7 H7. wlp_step. exists true. by eapply idle_stays.
Qed.

Lemma source_address_stays : framed stays source_address.
Proof. unfold source_address. pose proof @ask_stays. framed. Qed.

Lemma connect_sane id ip port cb s : sane s → wlp (tcp_connect id ip port cb) (λ _, sane) s.
Proof.
  intros [f Hs]. unfold tcp_connect. destruct ip as [ip|]; [|wlp_step; by exists f]. wlp_step. apply body_wlp. intros b Eb.
  wlp_step. apply error_wlp. intros _. wlp_step. apply error_wlp. intros _. wlp_step.
  eapply wlp_mono; [apply (on_conn_sane id _ s f Hs)|].
  { intros p Ep. by eapply conn_ok_same; [apply (sa_body _ _ Hs _ _ Ep)|..]. }
  intros [] s1 (Hs1 & _). wlp_step. eapply wlp_mono; [apply (focus_stays id source_address s1 source_address_stays); by exists f|].
  intros e s2 [[f2 Hs2] _]. wlp_step; [wlp_step; by exists f2|]. wlp_step. apply conn_wlp. intros p Ep. wlp_step.
  apply (wlp_mono _ (λ port' s', port_only s2 s' ∧ (port' = 0 → local_port p = 0))).
  { destruct (Z.eqb_spec (local_port p) 0) as [E|E]; [|wlp_step; by split].
    eapply wlp_mono; [apply new_port_frame|by split]. }
  intros port' s3 [H3 Hport]. destruct (port_only_sane _ _ _ Hs2 H3) as [Hs3 Eb3]. wlp_step.
  eapply wlp_mono; [apply (on_conn_sane id _ s3 f2 Hs3)|].
  { intros p3 E3. rewrite Eb3, Ep in E3. injection E3 as <-. rewrite <- Eb3 in Ep. destruct (sa_body _ _ Hs3 _ _ Ep) as [A1 A2 A3 A4].
    split; try done. intros El. destruct (Z.eq_dec port' 0) as [E0|]; [|by left]. right. by destruct (A3 El) as [Hx|]; [specialize (Hport E0)|]. }
  intros [] s4 (Hs4 & _). wlp_step; [wlp_step; by exists f2|]. wlp_step. unfold tcp_next_iss. do 5 wlp_step.
  match goal with |- wlp _ _ ?s => set (s5 := s) end.
  assert (sane_at s5 f2) as Hs5 by (destruct Hs4 as [[? ? ?] ? ?]; by split).
  eapply wlp_mono; [apply (focus_sane id _ s5 f2 Hs5)|by intros ? ? []].
  intros p5 c r _ Hp _. by apply (connect_syn_ok _ _ _ _ c r).
Qed.

(** ** Incoming segments *)

(** The last element of a list for which [t] holds. *)
Fixpoint search_last (t : positive → bool) (found : option place) (prev : option positive) (l : list positive) : option place :=
  match l with
  | [] => found
  | id :: l => search_last t (if t id then Some (prev, id) else found) (Some id) l
  end.
Lemma search_last_found t q id : ∀ l found seen, (∀ q id, found = Some (q, id) → ∃ l1 l2, seen = l1 ++ id :: l2 ∧ q = list.last l1) →
  search_last t found (list.last seen) l = Some (q, id) → ∃ l1 l2, seen ++ l = l1 ++ id :: l2 ∧ q = list.last l1.
Proof.
  induction l as [|x l IH]; intros found seen Hf; cbn [search_last]; [by rewrite app_nil_r; apply Hf|]. intros E.
  replace (seen ++ x :: l) with ((seen ++ [x]) ++ l) by by rewrite <- app_assoc.
  apply (IH (if t x then Some (list.last seen, x) else found)); [|by rewrite last_snoc]. intros q' id'. destruct (t x).
  - intros [= <- <-]. by exists seen, [].
  - intros (l1 & l2 & -> & ->)%Hf. exists l1, (l2 ++ [x]). by rewrite <- app_assoc.
Qed.

(** A listening control block that is for the segment: by its address, or by
    the interface it is bound to. *)
Definition by_address (dst : list Z) (port : Z) (b : body) : bool := (b_bound_to_netif b =? 0) && listens_on dst port b.
Definition by_netif (inp : list Z * Z) (dst : list Z) (b : body) : bool := negb (b_bound_to_netif b =? 0) && listens_on_netif inp dst b.
Definition pick_listener (inp : list Z * Z) (dst : list Z) (port : Z) (s : stack) (l : list positive) : option place :=
  match search (at_block (by_address dst port) (blocks s)) None l with
  | Some x => Some x
  | None => search_last (at_block (by_netif inp dst) (blocks s)) None None l
  end.

Lemma find_listener_run inp dst port s f : lists s f →
  find_listener inp dst port s = Ok (pick_listener inp dst port s (f ListenPcbs), s).
Proof.
  intros Hf. unfold find_listener. do 2 rewrite (bind_of_ok (gets _) _ s _ s eq_refl).
  set (g := λ (a : option positive * option place) id,
    if at_block (by_address dst port) (blocks s) id then inr (a.1, id)
    else inl (Some id, if at_block (by_netif inp dst) (blocks s) id then Some (a.1, id) else a.2) : (option positive * option place) + place).
  erewrite bind_of_ok; [|apply (walk_reads _ g s _ (f ListenPcbs)); [exact (li_links _ _ Hf ListenPcbs)|
    unfold list_fuel; pose proof (list_length s f ListenPcbs Hf); lia|]].
  - unfold pick_listener. f_equal. f_equal. generalize (@None place) as found, (@None positive) as prev.
    induction (f ListenPcbs) as [|x l IH]; intros found prev; [done|]. cbn [foldl stop_at search search_last]. subst g. cbv beta. cbn [fst snd].
    destruct (at_block (by_address dst port) (blocks s) x); [by rewrite stopped|apply IH].
  - intros a id Hid. destruct (links_in _ _ _ _ (li_links _ _ Hf ListenPcbs) Hid) as [b Eb]. rewrite (bind_of_ok _ _ _ _ _ (reads_body _ _ _ Eb)).
    subst g. unfold at_block. rewrite Eb. unfold by_address, by_netif. destruct (b_bound_to_netif (the_body b) =? 0); cbn [negb andb]; [|done].
    by destruct (listens_on dst port (the_body b)).
Qed.

Lemma pick_listener_in inp dst port s l q id : pick_listener inp dst port s l = Some (q, id) → ∃ l1 l2, l = l1 ++ id :: l2 ∧ q = list.last l1.
Proof.
  unfold pick_listener. destruct (search _ None l) as [[q' id']|] eqn:E.
  - intros [= <- <-]. apply search_found in E as (l1 & l2 & -> & _ & _ & ->). exists l1, l2. split; [done|]. by destruct (list.last l1).
  - intros E'. by apply (search_last_found (at_block (by_netif inp dst) (blocks s)) q id l None []).
Qed.

(** The connection that is for the segment. *)
Definition for_conn (src dst : list Z) (h : tcp_hdr) (b : body) : bool := match b with Conn c => is_for src dst h c | Lsn _ => false end.
Definition conn_for (l : pcb_list) (src dst : list Z) (h : tcp_hdr) (s : stack) (f : pcb_list → list positive) : option place :=
  search (at_block (for_conn src dst h) (blocks s)) None (f l).

Lemma find_active s f src dst h : sane_at s f → find_in ActivePcbs (active_test src dst h) s = Ok (conn_for ActivePcbs src dst h s f, s).
Proof.
  intros Hs. apply find_in_ok; [apply Hs|]. intros id [n b] Hid Eb. destruct (list_conn s f id _ Hs Hid) as (p & Ep & Hst); [done|].
  apply body_some in Ep as [n' Ep]. rewrite Eb in Ep. injection Ep as _ ->. unfold active_test. cbn [the_body b_state].
  rewrite bool_decide_eq_false_2; [done|]. intros Hin. apply Hst. members; subst; rewrite Hin; apply list_elem_of_In; cbn; auto.
Qed.
Lemma find_tw s f src dst h : sane_at s f → find_in TwPcbs (tw_test src dst h) s = Ok (conn_for TwPcbs src dst h s f, s).
Proof.
  intros Hs. apply find_in_ok; [apply Hs|]. intros id [n b] Hid Eb. destruct (list_conn s f id _ Hs Hid) as (p & Ep & Hst); [done|].
  apply body_some in Ep as [n' Ep]. rewrite Eb in Ep. injection Ep as _ ->. unfold tw_test. cbn [the_body b_state]. cbn in Hst.
  by rewrite Hst, bool_decide_eq_true_2.
Qed.

(** *** Frames *)

Definition input_same (t t' : tcp) : Prop := tcp_input_pcb t' = tcp_input_pcb t.
#[export] Instance input_same_pre : PreOrder input_same.
Proof. split; [by intros t|]. intros t u v H1 H2. unfold input_same in *. congruence. Qed.
Lemma stays_input {A} (m : TCP A) : framed stays m → framed input_same m.
Proof. intros Hm t. eapply wlp_mono; [apply Hm|]. intros a t' Ht. apply Ht. Qed.

Lemma input_header_same many chk p : framed input_same (input_header many chk p).
Proof.
  unfold input_header. destruct p as [|b p]; [apply framed_fail|]. apply framed_if; [apply (framed_ret _)|].
  apply (framed_bind _); [apply (framed_lift _)|]. intros h. apply framed_if; [apply (framed_ret _)|].
  apply (framed_bind _); [apply (framed_lift _)|]. intros [[p' [[o1 o2] o3]]|]; [|apply (framed_ret _)].
  apply (framed_bind _); [by apply framed_modify|intros _; apply (framed_ret _)].
Qed.

Lemma accept_event_behaves s id l m t : placed false l m t → freed t = false → on_list t = ActivePcbs →
  wlp (accept_event app_err app_accept s id) (λ e t', placed false l m t' ∧ (e = ERR_ABRT → freed t' = true) ∧
    (e = ERR_OK → freed t' = false → on_list t' = ActivePcbs)) t.
Proof using wb.
  intros Hp Hf El. unfold accept_event. do 2 wlp_step. destruct (listener (pcb t)) as [q|]; [|wlp_step; by split].
  destruct (blocks s !! q) as [[n [p|b]]|]; [by wlp_step| |by wlp_step]. destruct (l_accept b) as [g|]; [|by wlp_step].
  wlp_step; [|by apply wb_accept]. wlp_step. eapply wlp_mono; [apply (abort_ok _ (wb_err id) l m t Hp)|]. intros [] t' [Hp' Hf']. by wlp_step.
Qed.
Lemma accept_no_memory_same q b : framed input_same (accept_no_memory app_accept q b).
Proof using wb.
  unfold accept_no_memory. destruct (l_accept b) as [g|]; [|apply (framed_ret _)]. apply framed_if; [apply framed_fail|].
  intros t. apply (wb_accept q).
Qed.

(** Data that was refused before must not make the application close its
    connection ([refused_open]). *)
Definition refused_ok (s : stack) : Prop :=
  ∀ id p t, body_at s id = Some (Conn p) → pcb t = p → on_list t = ActivePcbs → freed t = false → tcp_input_pcb t = false →
    refused_open (app_recv id) t.

Lemma move_sane l l1 l2 id s f : sane_at s f → f l = l1 ++ id :: l2 → l ≠ NoList →
  wlp (move_to_front l (list.last l1) id) (λ _ s', ∃ f', sane_at s' f' ∧ same s s' ∧ (∀ x, loc f' x = loc f x) ∧ f' l = id :: l1 ++ l2) s.
Proof.
  intros Hs El Hn. apply wlp_of_wp. eapply wp_mono; [by apply (move_to_front_ok l l1 l2 id s f (sa_lists _ _ Hs))|].
  intros [] s' (f' & Hf' & Hs' & Hin & El'). assert (∀ x, loc f' x = loc f x) as Hl by (intros x; by apply (loc_of s); [apply Hs|]).
  exists f'. split; [by eapply sane_same|done].
Qed.

Lemma matched_sane id seg s1 s f : sane_at s f → loc f id = ActivePcbs → refused_ok s →
  wlp (focus id (input_matched (app_recv id) (app_err id) (app_sent id) (app_connected id) (accept_event app_err app_accept s1 id) seg)) (λ _, sane) s.
Proof using wb.
  intros Hs Hl Hr. eapply wlp_mono; [apply (focus_sane id _ s f Hs)|by intros ? ? []]. intros p c r Eb Hp El. rewrite Hl in El.
  assert (tcp_input_pcb (load id p s) = false) as Hi by apply Hs.
  eapply wlp_mono; [apply (input_matched_ok _ (wb_err id) _ (wb_recv id) _ _ _ (wb_sent id) (wb_connected id)
    (accept_event_behaves s1 id) (listener p)); [exact Hi|done|done| |by apply (Hr id p)]|].
  - destruct Hp as [_ [A B C D]]. split; try done. by rewrite El.
  - intros [] t [Ht1 Ht2]. by exists false.
Qed.

Lemma timewait_sane id s : sane s → wlp (focus id tcp_timewait_input) (λ _, sane) s.
Proof.
  intros Hs. eapply wlp_mono; [apply (focus_stays id tcp_timewait_input s)|by intros ? ? []]; [|done]. unfold tcp_timewait_input.
  pose proof rst_reply_stays. pose proof tcp_output_stays. framed.
Qed.

Lemma listen_input_sane id src dst h s : sane s → wlp (tcp_listen_input app_err app_accept id src dst h) (λ _, sane) s.
Proof using wb.
  intros [f Hs]. unfold tcp_listen_input. wlp_step. apply body_wlp. intros [p|l] Eb; [do 2 wlp_step; by apply wlp_fail|]. do 2 wlp_step.
  assert (∀ n s, sane s → wlp (on_glob (LwipTcpProcess.tcp_listen_input (app_err id) (accept_no_memory app_accept id l) id (l_so_options l) src dst h None n))
    (λ _, sane) s) as Hnone.
  { intros n s1 Hs1. apply on_glob_sane; [done|]. eapply (wlp_mono _ (λ _, input_same (glob s1))).
    - pose proof (accept_no_memory_same id l). assert (∀ a b c d e f, framed input_same (tcp_rst a b c d e f)) by (intros; apply stays_input, rst_stays).
      enough (framed input_same (LwipTcpProcess.tcp_listen_input (app_err id) (accept_no_memory app_accept id l) id (l_so_options l) src dst h None n)) as Hfr by apply Hfr.
      unfold LwipTcpProcess.tcp_listen_input. framed.
    - intros u t Ht. split; [|auto]. rewrite Ht. destruct Hs1 as [f1 Hs1]. apply Hs1. }
  cbv zeta. wlp_step; [apply Hnone; by exists f|]. wlp_step. eapply wlp_mono; [apply (alloc_ok app_recv app_err app_sent app_connected app_accept app_poll); by exists f|].
  intros [npcb|] s1 (f1 & Hs1 & Hk1 & Hr); [|apply Hnone; by exists f1]. destruct (Hr npcb eq_refl) as (Hn & a & b & c & Eb1).
  wlp_step. apply conn_wlp. intros p Ep. rewrite Eb1 in Ep. injection Ep as <-. wlp_step. unfold tcp_next_iss. do 5 wlp_step.
  match goal with |- wlp _ _ ?s => set (s2 := s) end.
  assert (sane_at s2 f1) as Hs2 by (destruct Hs1 as [[? ? ?] ? ?]; by split).
  eapply wlp_mono; [apply (focus_sane_at npcb _ s2 f1 Hs2)|by intros ? ? []]. intros p c' r Eb2 Hp El.
  change (body_at s2 npcb) with (body_at s1 npcb) in Eb2. rewrite Eb1 in Eb2. injection Eb2 as <-.
  eapply wlp_mono; [apply (listen_input_ok _ (wb_err npcb)); [by eapply placed_idle|done]|].
  intros [] t [Ht|Ht]; [by exists true, None|]. exists false, (Some id). split; [done|]. intros q [= <-]. apply Hk1. by exists l.
Qed.

Lemma input_sane inp src dst many chk p s : sane s → refused_ok s →
  wlp (tcp_input app_recv app_err app_sent app_connected app_accept inp src dst many chk p) (λ _, sane) s.
Proof using wb.
  intros Hs Hr. unfold tcp_input. wlp_step. apply on_glob_sane; [done|]. eapply wlp_mono; [apply input_header_same|].
  intros r t Ht. split; [rewrite Ht; destruct Hs as [f Hs]; apply Hs|]. intros s1 [f1 Hs1] _ Eb _ _. assert (refused_ok s1) as Hr1.
  { intros id p1 t1. unfold body_at. rewrite Eb. apply Hr. }
  clear Hr Ht. destruct r as [[h p']|]; [|wlp_step; by exists f1].
  wlp_step. eapply wlp_ok; [by apply find_active|]. destruct (conn_for ActivePcbs src dst h s1 f1) as [[q id]|] eqn:Ea.
  - apply search_found in Ea as (l1 & l2 & El & _ & _ & Eq). replace q with (list.last l1) by by rewrite Eq; destruct (list.last l1).
    wlp_step. eapply wlp_mono; [by apply (move_sane ActivePcbs l1 l2 id s1 f1)|]. intros [] s2 (f2 & Hs2 & Hsame & Hl & _). do 2 wlp_step.
    apply (matched_sane id _ s2 s2 f2 Hs2).
    + rewrite Hl. apply (li_loc _ _ (sa_lists _ _ Hs1)). rewrite El. apply elem_of_app. right. left.
    + intros x p1 t1. rewrite (same_body _ _ _ Hsame). apply Hr1.
  - wlp_step. eapply wlp_ok; [by apply find_tw|]. destruct (conn_for TwPcbs src dst h s1 f1) as [[q id]|]; [apply timewait_sane; by exists f1|].
    wlp_step. eapply wlp_ok; [by apply find_listener_run, Hs1|]. destruct (pick_listener inp dst (h_dest h) s1 (f1 ListenPcbs)) as [[q id]|] eqn:Ep.
    + apply pick_listener_in in Ep as (l1 & l2 & El & ->). wlp_step. eapply wlp_mono; [by apply (move_sane ListenPcbs l1 l2 id s1 f1)|].
      intros [] s2 (f2 & Hs2 & _). apply listen_input_sane. by exists f2.
    + apply on_glob_sane; [by exists f1|]. assert (framed stays (input_unmatched src dst h)) as Hfr
        by (pose proof rst_stays; unfold input_unmatched; framed).
      eapply wlp_mono; [apply Hfr|]. intros u t' Ht'. split; [rewrite (st_input _ _ Ht'); apply Hs1|auto].
Qed.

(** ** Calls of the interfaces *)

Lemma txnow_sane s : sane s → wlp tcp_txnow (λ _, sane) s.
Proof.
  intros Hs. unfold tcp_txnow. do 5 wlp_step. eapply wlp_mono; [apply (walk_keeps _ sane); [|done]|intros r s' Hs'; by wlp_step].
  clear s Hs. intros _ id s Hs. wlp_step. apply conn_wlp. intros p Ep. wlp_step. eapply (wlp_mono _ (λ _, sane)); [|intros [] s' Hs'; by wlp_step].
  wlp_step; [|by wlp_step]. wlp_step. eapply wlp_mono; [by apply (focus_stays id tcp_output s), Hs; apply tcp_output_stays|]. intros e s' [Hs' _]. by wlp_step.
Qed.

(** The first active connection that has kept segments out of sequence gives
    them up, and nothing else changes. *)
Lemma free_ooseq_ok s f : sane_at s f →
  wlp pbuf_free_ooseq (λ _ s', sane_at s' f ∧ ∀ id p, body_at s id = Some (Conn p) →
    body_at s' id = Some (Conn (match search (at_block keeps_ooseq (blocks s)) None (f ActivePcbs) with
      | Some (_, x) => if decide (x = id) then p <| ooseq := [] |> else p | None => p end))) s.
Proof.
  intros Hs. unfold pbuf_free_ooseq. wlp_step.
  eapply wlp_ok; [by apply (find_in_ok ActivePcbs (λ b, mret (keeps_ooseq b)) keeps_ooseq s f); [apply Hs|]|].
  destruct (search _ None _) as [[q x]|]; [|wlp_step; by split]. eapply wlp_mono; [apply (on_conn_sane x _ s f Hs)|].
  - intros p Ep. by eapply conn_ok_same; [apply (sa_body _ _ Hs _ _ Ep)|..].
  - intros [] s' (H1 & _ & H3 & H4). split; [done|]. intros id p Ep. case_decide as E; [subst; by apply H4|]. rewrite H3; [done|congruence].
Qed.

(** [l1] was seen, [id] is next. *)
Lemma moved_away l id l1 l2 k f : f l = l1 ++ id :: l2 → NoDup (f l) → l ≠ NoList → k ≠ l → moved l k id f l = l1 ++ l2.
Proof.
  intros El Hnd Hn Hk. unfold moved. rewrite bool_decide_eq_false_2 by congruence. cbv zeta. rewrite (bool_decide_eq_false_2 (l = NoList)) by done.
  assert (removed id f l = l1 ++ l2) as Er by (unfold removed; rewrite El in *; by apply filter_skip).
  case_bool_decide; [done|]. unfold added. by rewrite bool_decide_eq_false_2 by congruence.
Qed.


(** An aborted connection is gone, from its list too, the others are not touched. *)
Lemma abort_gone id s f : sane_at s f → may_abort s id →
  wlp (tcp_abort app_err id) (λ _ s', (∃ f', sane_at s' f' ∧ ∀ l l1 l2, l ≠ NoList → f l = l1 ++ id :: l2 → f' l = l1 ++ l2) ∧
    body_at s' id = None ∧ ∀ x, x ≠ id → body_at s' x = body_at s x) s.
Proof using wb.
  intros Hs Hm. destruct (body_at s id) as [[p|l]|] eqn:Eb.
  - destruct (load_placed _ _ _ _ Hs Eb) as (c & r & Hp). eapply focus_ok; [apply Hs|done|by eapply sane_loc_conn|].
    eapply wlp_mono; [apply (abandon_ok _ (wb_err id) true (listener p) (Idle c r) true _ Hp)|].
    { intros Es E. rewrite (load_list _ _ _ _ Hs Eb) in E. destruct (co_bound _ _ _ (sa_body _ _ Hs _ _ Eb) E) as [|Hb]; [done|].
      by rewrite (Hm p Eb Es) in Hb. }
    intros [] t [Ht Ef]. assert (on_list t = NoList) as El by (destruct Ht as [_ Ht]; by rewrite Ef in Ht).
    split; [done|]. intros s' Hfo. split; [|split].
    + exists (moved (loc f id) (on_list t) id f). split.
      * eapply sane_focused; [apply sane_at_but, Hs|exact Eb|exact Hfo|by eapply placed_idle|]. intros q. by eapply conn_listener.
      * intros l l1 l2 Hl E. assert (loc f id = l) as ->.
        { apply (li_loc _ _ (sa_lists _ _ Hs)). rewrite E. apply elem_of_app. right. left. }
        apply moved_away; [done|apply (sa_lists _ _ Hs)|done|congruence].
    + by rewrite (fo_body _ _ _ _ _ Hfo), Ef.
    + apply (fo_bodies _ _ _ _ _ Hfo).
  - unfold tcp_abort, tcp_abandon, focus. wlp_step. apply conn_wlp. intros p E. by rewrite Eb in E.
  - unfold tcp_abort, tcp_abandon, focus. wlp_step. apply conn_wlp. intros p E. by rewrite Eb in E.
Qed.

(** No closed control block with the address is bound to an interface. *)
Definition addr_ready (addr : list Z) (s : stack) : Prop :=
  ∀ id p, body_at s id = Some (Conn p) → local_ip p = addr → state p = CLOSED → bound_to_netif p = 0.

(** [l1] was seen; the loop ends behind [todo]. *)
Lemma abort_bound_ok out k addr l : l ≠ NoList → ∀ fuel s f l1 todo,
  sane_at s f → addr_ready addr s → f l = l1 ++ todo → (length todo ≤ fuel)%nat →
  agree (abort_bound_to app_err (fail OutOfFuel) fuel addr (list.head todo)) (abort_bound_to app_err out (fuel + k) addr (list.head todo))
    (λ _ s', sane s' ∧ addr_ready addr s') s.
Proof using wb.
  intros Hl. induction fuel as [|fuel IH]; intros s f l1 [|id todo] Hs Ha El Hn; cbn [length] in Hn; [|lia| |].
  1, 2: replace (abort_bound_to app_err out _ addr _) with (mret () : ST ()) by (by destruct k); apply agree_refl, wlp_ret; split; [by exists f|done].
  cbn [Nat.add list.head abort_bound_to].
  apply agree_bind, body_wlp. intros b Eb. apply agree_bind. eapply wlp_mono; [by eapply (next_of s f); [apply Hs|]|]. intros n s' [-> ->].
  apply agree_bind. apply (wlp_mono _ (λ _ s', ∃ f' l1', sane_at s' f' ∧ addr_ready addr s' ∧ f' l = l1' ++ todo)).
  2: { intros [] s' (f' & l1' & Hs' & Ha' & El'). apply (IH s' f' l1' todo); [done..|lia]. }
  case_bool_decide as E; [|wlp_step; exists f, (l1 ++ [id]); by rewrite <- app_assoc].
  eapply wlp_mono; [apply (abort_gone id s f Hs)|].
  - intros p Ep. rewrite Eb in Ep. injection Ep as ->. apply (Ha id p); [done|exact E].
  - intros [] s' ((f' & H1 & Hf') & H2 & H3). exists f', l1. split; [done|]. split; [|by apply Hf'].
    intros x p Ep. apply (Ha x). destruct (decide (x = id)) as [->|]; [congruence|]. by rewrite <- H3.
Qed.
Lemma abort_bound_start out k addr l s : l ≠ NoList → sane s → addr_ready addr s →
  agree (abort_bound_to app_err (fail OutOfFuel) (list_fuel s) addr (head l s)) (abort_bound_to app_err out (list_fuel s + k) addr (head l s))
    (λ _ s', sane s' ∧ addr_ready addr s') s.
Proof using wb.
  intros Hl [f Hs] Ha. rewrite (head_of _ _ _ (sa_lists _ _ Hs)). apply (abort_bound_ok out k addr l Hl _ s f [] (f l)); [done..|].
  unfold list_fuel. pose proof (list_length s f l (sa_lists _ _ Hs)). lia.
Qed.
Lemma set_listen_addr_sane old new id s : sane s →
  wlp (on_block id (λ b, b <| the_body ::= set_listen_addr old new |>)) (λ _, sane) s.
Proof.
  intros [f Hs]. eapply wlp_mono; [apply (on_block_sane id _ s f Hs)|by intros [] s' (? & _); exists f].
  intros n b Eb. exists (set_listen_addr old new b). split; [done|]. destruct b as [p|l]; split; try done; apply (sa_body _ _ Hs _ _ Eb).
Qed.

Lemma addr_changed_sane old new s : sane s → addr_ready old s → wlp (tcp_netif_ip_addr_changed app_err old new) (λ _, sane) s.
Proof using wb.
  intros Hs Ha. unfold tcp_netif_ip_addr_changed. wlp_step; [by wlp_step|]. do 5 wlp_step.
  eapply wlp_mono; [apply (abort_bound_start (fail OutOfFuel) 0 old ActivePcbs s); done|]. intros [] s1 [Hs1 Ha1]. do 5 wlp_step.
  eapply wlp_mono; [apply (abort_bound_start (fail OutOfFuel) 0 old BoundPcbs s1); done|]. intros [] s2 [Hs2 _]. destruct new as [new|]; [|by wlp_step]. wlp_step; [by wlp_step|].
  do 5 wlp_step. eapply wlp_mono; [apply (walk_keeps _ sane); [|done]|intros r s' Hs'; by wlp_step].
  intros _ id s3 Hs3. wlp_step. eapply wlp_mono; [by apply set_listen_addr_sane|]. intros [] s4 Hs4. by wlp_step.
Qed.
End Calls.
