(* ===== verification/LwipTcpLoops.v ===== *)
(** TCP of lwIP, the loops of the timers: they handle every connection, keep
    the lists of control blocks as they should be, and end. *)
From stdpp Require Import gmap.
From S2P Require Import Prelude.
From S2P Require Import LwipTcp.
From S2P Require Import LwipTcpOut.
From S2P Require Import LwipTcpApi.
From S2P Require Import LwipTcpIn.
From S2P Require Import LwipTcpProcess.
From S2P Require Import LwipTcpTimer.
From S2P Require Import LwipTcpPcbs.
From S2P Require Import LwipTcpSeq.
From S2P Require Import LwipTcpStays.
From S2P Require Import LwipTcpPlace.
From S2P Require Import LwipTcpLinks.
From S2P Require Import LwipTcpSane.
From S2P Require Import LwipTcpCalls.

(** A connection was handled in this turn of the timer, or not. *)
Definition handled (ctr : Z) (s : stack) (id : positive) : Prop := ∀ p, body_at s id = Some (Conn p) → last_timer p = ctr.
Definition unhandled (ctr : Z) (s : stack) (id : positive) : Prop := ∀ p, body_at s id = Some (Conn p) → last_timer p ≠ ctr.

(** ** What leaves the tick alone *)

Definition spot_same (t t' : tcp) : Prop := tick_same t t' ∧ on_list t' = on_list t.
#[export] Instance spot_same_pre : PreOrder spot_same.
Proof. split; [by intros t|]. intros t u v [] []. split; [by etransitivity|congruence]. Qed.
Lemma stays_spot {A} (m : TCP A) : framed stays m → framed spot_same m.
Proof. intros Hm t. eapply wlp_mono; [apply Hm|]. intros a t' [? ? ? ? ? []]. by split. Qed.
Lemma spot_tick {A} (m : TCP A) : framed spot_same m → framed tick_same m.
Proof. intros Hm t. eapply wlp_mono; [apply Hm|]. by intros a t' []. Qed.

Section Ticks.
Context `{TcpEnv}.

Lemma on_pcb_spot g : (∀ p, last_timer (g p) = last_timer p) → framed spot_same (on_pcb g).
Proof. intros Hg. apply framed_modify. intros t. split; [apply Hg|done]. Qed.
Lemma shutdown_fin_spot : framed spot_same tcp_close_shutdown_fin.
Proof.
  assert (∀ st, framed spot_same (fin_sent st)) as Hfin.
  { intros st. unfold fin_sent. pose proof (stays_spot _ send_fin_stays). pose proof (stays_spot _ tcp_output_stays).
    assert (framed spot_same (on_pcb (λ p, p <| state := st |>))) by by apply on_pcb_spot.
    assert (framed spot_same (on_pcb (set_flag TF_CLOSEPEND))) by by apply on_pcb_spot. framed. }
  unfold tcp_close_shutdown_fin. framed.
Qed.

Lemma fasttmr_delayed_spot ctr t :
  wlp (fasttmr_delayed ctr) (λ _ t', on_list t' = on_list t ∧ last_timer (pcb t') = ctr) t.
Proof.
  unfold fasttmr_delayed. do 2 wlp_step. wlp_step. unfold on_pcb at 1. wlp_step. set (t1 := t <| pcb ::= _ |>).
  match goal with |- wlp ?m _ _ => assert (framed spot_same m) as Hfr end.
  { pose proof (stays_spot _ tcp_output_stays). pose proof shutdown_fin_spot.
    assert (framed spot_same (on_pcb tcp_ack_now)) by by apply on_pcb_spot.
    assert (∀ n, framed spot_same (on_pcb (clear_flag n))) by by intros; apply on_pcb_spot. framed. }
  eapply wlp_mono; [apply Hfr|]. intros a t2 [Ht El]. split; [exact El|exact Ht].
Qed.

Lemma purge_tick p : last_timer (tcp_pcb_purge p) = last_timer p.
Proof. apply purge_stays. Qed.
Lemma remove_tick l : framed tick_same (tcp_pcb_remove l).
Proof.
  unfold tcp_pcb_remove, TCP_RMV, LWIP_ASSERT. pose proof (spot_tick _ (stays_spot _ tcp_output_stays)).
  assert (∀ g, (∀ p, last_timer (g p) = last_timer p) → framed tick_same (on_pcb g)) as Hp by (intros; by apply spot_tick, on_pcb_spot).
  assert (framed tick_same (on_pcb tcp_pcb_purge)) by apply Hp, purge_tick.
  assert (∀ n, framed tick_same (on_pcb (set_flag n))) by by intros; apply Hp.
  framed; first [by apply framed_modify|by apply Hp].
Qed.
Lemma close_tick : framed tick_same LwipTcpApi.tcp_close.
Proof.
  assert (∀ g, (∀ p, last_timer (g p) = last_timer p) → framed tick_same (on_pcb g)) as Hp by (intros; by apply spot_tick, on_pcb_spot).
  assert (framed tick_same memp_free_pcb) by (unfold memp_free_pcb; framed; by apply framed_modify).
  assert (framed tick_same tcp_trigger_input_pcb_close) by (by apply framed_modify).
  assert (∀ l, framed tick_same (LwipTcpApi.TCP_RMV l)) by (by intros; apply framed_modify).
  assert (∀ l, framed tick_same (LwipTcpApi.TCP_REG l)) by (by intros; apply framed_modify).
  pose proof remove_tick. pose proof (spot_tick _ shutdown_fin_spot).
  assert (framed tick_same close_with_reset).
  { unfold close_with_reset, LWIP_ASSERT. assert (∀ a b c d e f, framed tick_same (tcp_rst a b c d e f)) by (intros; apply spot_tick, stays_spot, rst_stays).
    assert (framed tick_same (on_pcb tcp_pcb_purge)) by apply Hp, purge_tick. framed; by apply Hp. }
  unfold LwipTcpApi.tcp_close, tcp_close_shutdown. framed; by apply Hp.
Qed.

Lemma refused_tick (app_recv : option (list tbuf) → TCP Z) : (∀ d, framed tick_same (app_recv d)) → framed tick_same (fasttmr_refused app_recv).
Proof.
  intros Hr. assert (∀ g, (∀ p, last_timer (g p) = last_timer p) → framed tick_same (on_pcb g)) as Hp by (intros; by apply spot_tick, on_pcb_spot).
  assert (∀ m, framed tick_same m → framed tick_same (checked m)) as Hc by (intros; unfold checked; framed).
  assert (∀ d e, framed tick_same (tcp_recv_null d e)) as Hn.
  { intros d e. pose proof close_tick. assert (∀ n, framed tick_same (tcp_recved n)) by (intros; apply spot_tick, stays_spot, tcp_recved_stays).
    unfold tcp_recv_null. framed. }
  assert (framed tick_same (on_pcb count_fin)) by (apply Hp; intros p; unfold count_fin; by destruct (_ =? _)).
  assert (∀ d, framed tick_same (TCP_EVENT_RECV app_recv d)).
  { intros d. unfold TCP_EVENT_RECV. apply (framed_bind _); [framed|]. intros p. apply Hc. framed. }
  assert (framed tick_same (TCP_EVENT_CLOSED app_recv)).
  { unfold TCP_EVENT_CLOSED. apply (framed_bind _); [framed|]. intros p. apply Hc. framed. }
  assert (framed tick_same (tcp_process_refused_data app_recv)).
  { unfold tcp_process_refused_data. apply (framed_bind _); [framed|]. intros p. destruct (refused_data p); [|apply framed_fail]. framed; by apply Hp. }
  unfold fasttmr_refused. apply (framed_bind _); [framed|]. intros p. destruct (refused_data p); framed.
Qed.
End Ticks.

(** ** The loops *)

Section Loops.
Context `{TcpEnv} `{PcbEnv}.
Context (app_recv : positive → option (list tbuf) → TCP Z) (app_err : positive → Z → TCP ())
  (app_sent : positive → Z → TCP Z) (app_connected app_accept : positive → TCP Z) (app_poll : positive → TCP (bool * Z)).
Context {wb : WellBehaved app_recv app_err app_sent app_connected app_accept app_poll}.

(** One turn on an active connection: it keeps its place or goes. *)
Lemma load_active s f id p : sane_at s f → loc f id = ActivePcbs → body_at s id = Some (Conn p) →
  ∃ c r, placed false (listener p) (Idle c r) (load id p s).
Proof.
  intros Hs El Eb. destruct (load_placed _ _ _ _ Hs Eb) as (c & r & [Hm Hp]). exists c, r. split; [done|].
  change (freed (load id p s)) with false in *. destruct Hp as [A B C _]. split; try done.
  by rewrite (load_list _ _ _ _ Hs Eb), El.
Qed.

(** After a call of one connection the others are as before. *)
Record turned (id : positive) (s s' : stack) : Prop := {
  tu_bodies : ∀ x, x ≠ id → body_at s' x = body_at s x;
  tu_kept : kept s s';
  tu_ctr : tcp_timer_ctr s' = tcp_timer_ctr s }.
Lemma turned_handled id s s' x ctr : turned id s s' → x ≠ id → handled ctr s x → handled ctr s' x.
Proof. intros Ht Hx Hh p. rewrite (tu_bodies _ _ _ Ht) by done. apply Hh. Qed.
Lemma turned_unhandled id s s' x ctr : turned id s s' → x ≠ id → unhandled ctr s x → unhandled ctr s' x.
Proof. intros Ht Hx Hh p. rewrite (tu_bodies _ _ _ Ht) by done. apply Hh. Qed.
Lemma turned_trans id s t u : turned id s t → turned id t u → turned id s u.
Proof. intros [A B C] [A' B' C']. split; [intros x Hx; by rewrite A', A|by etransitivity|congruence]. Qed.

Lemma moved_stays l id f : moved l l id f = f.
Proof. unfold moved. by rewrite bool_decide_eq_true_2. Qed.

Lemma focused_turned id f t s s' p : body_at s id = Some (Conn p) → focused id f t s s' → turned id s s'.
Proof. intros Eb Hf. split; [apply Hf|by eapply focused_kept|apply Hf]. Qed.

(** The timers of a connection. *)
Lemma timers_turn id l1 l2 s f p : sane_at s f → f ActivePcbs = l1 ++ id :: l2 → body_at s id = Some (Conn p) →
  wlp (focus id (slowtmr_timers (tcp_timer_ctr s))) (λ _ s', sane_at s' f ∧ turned id s s' ∧ handled (tcp_timer_ctr s) s' id) s.
Proof.
  intros Hs El Eb. assert (loc f id = ActivePcbs) as Hl.
  { apply (li_loc _ _ (sa_lists _ _ Hs)). rewrite El. apply elem_of_app. right. left. }
  destruct (load_active s f id p Hs Hl Eb) as (c & r & Hp). eapply focus_ok; [apply Hs|done|by rewrite Hl|].
  eapply wlp_mono; [by apply (slowtmr_timers_ok false (listener p) (Idle c r))|]. intros b t (Ht & Hft & Hlt & Hct).
  change (freed (load id p s)) with false in Hft. rewrite (load_list _ _ _ _ Hs Eb) in Hlt. split; [by rewrite Hft|].
  intros s' Hfo. assert (moved (loc f id) (on_list t) id f = f) as Em by (rewrite Hlt; apply moved_stays).
  split; [|split; [by eapply focused_turned|]].
  - rewrite <- Em. eapply sane_focused; [apply sane_at_but, Hs|exact Eb|exact Hfo|by eapply placed_idle|]. intros q. by eapply conn_listener.
  - intros p'. rewrite (fo_body _ _ _ _ _ Hfo), Hft. by intros [= <-].
Qed.

(** A loop that did not note what is in front of [id] removes it only from the
    head of the list. *)
Lemma unlink_turn l l1 id l2 prev s f : lists s f → l ≠ NoList → f l = l1 ++ id :: l2 → prev = None ∨ prev = list.last l1 →
  wlp (unlink l prev id) (λ _ s', lists s' (removed id f) ∧ same s s') s.
Proof.
  intros Hf Hl El Hprev. assert (prev = list.last l1 → wlp (unlink l prev id) (λ _ s', lists s' (removed id f) ∧ same s s') s) as Hu.
  { intros ->. apply wlp_of_wp. by apply (unlink_ok l l1 id l2 s f). }
  destruct Hprev as [->|]; [|by apply Hu]. destruct l1 as [|x l1]; [by apply Hu|]. unfold unlink. wlp_step. apply next_wlp. intros b _.
  do 2 wlp_step. rewrite (head_of _ _ _ Hf), El. cbn [list.head app]. pose proof (li_nodup _ _ Hf l) as Hnd. rewrite El in Hnd.
  rewrite bool_decide_eq_false_2; [wlp_step; apply wlp_fail|]. intros [= ->]. apply list.NoDup_cons in Hnd as [Hx _]. apply Hx, elem_of_app. right. left.
Qed.

Lemma purge_turn id s f p : sane_at s f → body_at s id = Some (Conn p) →
  wlp (on_conn id tcp_pcb_purge) (λ _ s', sane_at s' f ∧ turned id s s' ∧ body_at s' id = Some (Conn (tcp_pcb_purge p)) ∧
    tcp_timer_ctr s' = tcp_timer_ctr s) s.
Proof.
  intros Hs Eb. pose proof Eb as [n En]%body_some. intros [] s' E. unfold on_conn in E. rewrite (on_block_ok _ _ _ _ En) in E.
  injection E as <-. cbn [the_body]. change (mk_block n (Conn p) <| the_body := Conn (tcp_pcb_purge p) |>) with (mk_block n (Conn (tcp_pcb_purge p))).
  destruct (rebody_sane s f id n (Conn p) (Conn (tcp_pcb_purge p)) Hs En) as [H1 H2]; [done| |].
  - destruct (sa_body _ _ Hs _ _ Eb) as [A B C D]. destruct (purge_stays p) as [E1 E2 E3 _ Est]. split; rewrite ?E1, ?E2, ?E3; auto.
    destruct Est as [->|[Es ->]]; [done|]. rewrite Es in A. destruct (loc f id); try done. cbn. intros Hn. by members.
  - cbv zeta in H1, H2. split; [done|]. split; [split; [intros x Hx; by rewrite rebody_at, decide_False|done|done]|].
    split; [by rewrite rebody_at, decide_True|done].
Qed.

Lemma bury_turn id b s f p : sane_but id s f → body_at s id = Some (Conn p) → loc f id = NoList → tcp_input_pcb (glob s) = false →
  wlp (watched (focus id (bury (app_err id) b))) (λ _ s', sane_at s' f ∧ turned id s s' ∧ body_at s' id = None) s.
Proof using wb.
  intros Hs Eb Hn Hi. unfold watched. do 2 wlp_step. set (s1 := s <| tcp_active_pcbs_changed := false |>).
  assert (sane_but id s1 f) as Hs1 by (destruct Hs as [[? ? ?] ?]; by split). wlp_step.
  eapply focus_ok; [apply Hs1|exact Eb|by rewrite Hn|].
  assert (on_list (load id p s1) = NoList) as El by (rewrite <- Hn; apply where_is_loc; [apply Hs1|by rewrite Hn]).
  eapply wlp_mono; [apply (bury_ok _ (wb_err id) true None (has (recv_flags (load id p s1)) TF_CLOSED) (has (recv_flags (load id p s1)) TF_RESET));
    by split|].
  intros [] t [Ht Hf]. assert (on_list t = NoList) as Elt by (destruct Ht as [_ Ht]; unfold rested in Ht; by rewrite Hf in Ht).
  split; [done|]. intros s2 Hfo. wlp_step. assert (moved (loc f id) (on_list t) id f = f) as Em by (rewrite Hn, Elt; apply moved_stays).
  split; [|split].
  - rewrite <- Em. by eapply sane_focused.
  - pose proof (focused_turned id f t s1 s2 p Eb Hfo) as [A B C]. by split.
  - by rewrite (fo_body _ _ _ _ _ Hfo), Hf.
Qed.

(** The poll callback. *)
Lemma poll_turn id l1 l2 s f p : sane_at s f → f ActivePcbs = l1 ++ id :: l2 → body_at s id = Some (Conn p) →
  wlp (focus id (poll_timer (app_poll id))) (λ changed s', ∃ f', sane_at s' f' ∧ turned id s s' ∧
    (f' ActivePcbs = l1 ++ l2 ∧ changed = true ∨ f' ActivePcbs = l1 ++ id :: l2) ∧
    (handled (last_timer p) s' id)) s.
Proof using wb.
  intros Hs El Eb. assert (loc f id = ActivePcbs) as Hl.
  { apply (li_loc _ _ (sa_lists _ _ Hs)). rewrite El. apply elem_of_app. right. left. }
  destruct (load_active s f id p Hs Hl Eb) as (c & r & Hp). eapply focus_ok; [apply Hs|done|by rewrite Hl|].
  eapply wlp_mono; [by apply (poll_timer_ok _ (wb_poll id) (listener p) (Idle c r))|]. intros b t (Ht & Hct & Hlt).
  rewrite (load_list _ _ _ _ Hs Eb), Hl in Hlt. split; [intros Ef; destruct Ht as [_ Ht]; by rewrite Ef in Ht|].
  intros s' Hfo. exists (moved (loc f id) (on_list t) id f). split; [|split; [by eapply focused_turned|split]].
  - eapply sane_focused; [apply sane_at_but, Hs|exact Eb|exact Hfo|by eapply placed_idle|]. intros q. by eapply conn_listener.
  - rewrite Hl. destruct (decide (on_list t = ActivePcbs)) as [->|Hne]; [right; by rewrite moved_stays|left].
    split; [apply (moved_away ActivePcbs id l1 l2); [done|apply (sa_lists _ _ Hs)|done..]|]. destruct b; [done|]. by destruct Hne; apply Hlt.
  - intros p'. rewrite (fo_body _ _ _ _ _ Hfo). destruct (freed t); [done|]. intros [= <-]. exact Hct.
Qed.

(** *** The slow timer

    The loop has the connections [l1] behind it; it skips those of [l2], which
    it handled before it started again, and handles those of [todo]. *)
Record slow_at (ctr : Z) (s : stack) (f : pcb_list → list positive) (l1 l2 todo : list positive) (prev : option positive) : Prop := {
  sl_sane : sane_at s f;
  sl_ctr : tcp_timer_ctr s = ctr;
  sl_list : f ActivePcbs = l1 ++ l2 ++ todo;
  sl_prev : prev = None ∨ l2 = [] ∧ prev = list.last l1;
  sl_done : ∀ id, id ∈ l1 ++ l2 → handled ctr s id;
  sl_todo : ∀ id, id ∈ todo → unhandled ctr s id }.

(** The end: every connection was handled. *)
Definition all_handled (ctr : Z) (s : stack) : Prop :=
  ∃ f, sane_at s f ∧ tcp_timer_ctr s = ctr ∧ ∀ id, id ∈ f ActivePcbs → handled ctr s id.
Lemma slow_end ctr s f l1 prev : slow_at ctr s f l1 [] [] prev → all_handled ctr s.
Proof. intros [Hs Hc El _ Hd _]. exists f. split; [done|]. split; [done|]. intros id. rewrite El. apply Hd. Qed.

(** A turn on [id]. *)
Lemma slow_again ctr s s' f f' l1 id todo prev l1' l2' prev' :
  slow_at ctr s f l1 [] (id :: todo) prev → turned id s s' → sane_at s' f' → f' ActivePcbs = l1' ++ l2' ++ todo →
  (∀ x, x ∈ l1' ++ l2' → x ∈ l1 ∨ x = id ∧ handled ctr s' id) → prev' = None ∨ l2' = [] ∧ prev' = list.last l1' →
  slow_at ctr s' f' l1' l2' todo prev'.
Proof.
  intros [Hs Hc El Hp Hd Ht] Htu Hs' El' Hin Hp'. pose proof (li_nodup _ _ (sa_lists _ _ Hs) ActivePcbs) as Hnd. rewrite El in Hnd. cbn [app] in Hnd.
  apply list.NoDup_app in Hnd as (_ & Hdis & [Hx _]%list.NoDup_cons). split; [done|by rewrite (tu_ctr _ _ _ Htu)|done|done| |].
  - intros x Hx'. destruct (Hin x Hx') as [Hl|[-> ?]]; [|done]. eapply turned_handled; [exact Htu| |apply Hd, elem_of_app; by left].
    intros ->. apply (Hdis id Hl). left.
  - intros x Hx'. eapply turned_unhandled; [exact Htu|intros ->; done|]. apply Ht. by right.
Qed.

(** [id] is removed from the list and freed. *)
Lemma dead_turn {A} id l1 l2 prev rst s f (K K' : bool → ST A) (Q : A → stack → Prop) :
  sane_at s f → f ActivePcbs = l1 ++ id :: l2 → prev = None ∨ prev = list.last l1 →
  (∀ b s', sane_at s' (removed id f) → removed id f ActivePcbs = l1 ++ l2 → turned id s s' → agree (K b) (K' b) Q s') →
  agree (on_conn id tcp_pcb_purge;; unlink ActivePcbs prev id;; b ← watched (focus id (bury (app_err id) rst)); K b)
        (on_conn id tcp_pcb_purge;; unlink ActivePcbs prev id;; b ← watched (focus id (bury (app_err id) rst)); K' b) Q s.
Proof using wb.
  intros Hs El Hprev HK. assert (id ∈ f ActivePcbs) as Hin by (rewrite El; apply elem_of_app; right; left).
  destruct (list_conn _ _ _ _ Hs Hin) as (p & Eb & _); [done|]. apply agree_bind. eapply wlp_mono; [by apply (purge_turn id s f p)|].
  intros [] s1 (H1 & T1 & E1 & _). apply agree_bind. eapply wlp_mono; [apply (unlink_turn ActivePcbs l1 id l2 prev s1 f); [apply H1|done..]|].
  intros [] s2 [H2 S2]. destruct (removed_ok s1 f id (sa_lists _ _ H1)) as (_ & _ & Hn & Ho).
  assert (turned id s s2) as T2.
  { eapply turned_trans; [exact T1|]. split; [intros x _; by apply same_body|by apply same_kept|apply S2]. }
  apply agree_bind. eapply wlp_mono; [apply (bury_turn id rst s2 (removed id f) (tcp_pcb_purge p))|].
  - split; [done|]. intros x b Hx Ex. rewrite (same_body _ _ _ S2) in Ex. rewrite Ho by done.
    apply (body_ok_mono (is_listener s1)); [by apply same_kept|]. by apply H1.
  - by rewrite (same_body _ _ _ S2).
  - done.
  - rewrite (sm_glob _ _ S2). apply H1.
  - intros b s3 (H3 & T3 & _). apply HK; [done| |by eapply turned_trans].
    unfold removed. rewrite El. apply filter_skip. rewrite <- El. apply (li_nodup _ _ (sa_lists _ _ H1)).
Qed.

Lemma slow_loop_ok out k N ctr : ∀ fuel s f l1 l2 todo prev,
  slow_at ctr s f l1 l2 todo prev → (length (f ActivePcbs) ≤ N)%nat → (length l2 + length todo + length todo * N < fuel)%nat →
  agree (slow_loop app_err app_poll (fail OutOfFuel) fuel prev (list.head (l2 ++ todo)))
    (slow_loop app_err app_poll out (fuel + k) prev (list.head (l2 ++ todo)))
    (λ _, all_handled ctr) s.
Proof using wb.
  induction fuel as [|fuel IH]; [lia|]. intros s f l1 l2 todo prev Hat HN Hfuel. pose proof Hat as [Hs Hc El Hp Hd Ht].
  cbn [Nat.add]. destruct l2 as [|x l2]; cbn [app list.head].
  - destruct todo as [|id todo]; cbn [list.head slow_loop]; [by eapply agree_refl, wlp_ret, slow_end|].
    cbn [length] in Hfuel. cbn [app] in El. rewrite El, length_app in HN. cbn [length] in HN.
    assert (prev = None ∨ prev = list.last l1) as Hprev by (destruct Hp as [|[]]; auto).
    apply agree_bind, conn_wlp. intros p Eb. apply agree_bind, wlp_gets, agree_bind, error_wlp. intros _. rewrite Hc.
    rewrite (proj2 (Z.eqb_neq _ _)) by (apply (Ht id); [left|done]).
    apply agree_bind. rewrite <- Hc. eapply wlp_mono; [by apply (timers_turn id l1 todo s f p)|]. rewrite Hc. intros r s1 (Hs1 & Htu1 & Hh1).
    apply agree_bind. eapply wlp_mono; [by eapply (next_of s1 f); [apply Hs1|]|]. intros n s1' [-> ->].
    assert (∀ s' f' l2', sane_at s' f' → turned id s1 s' → f' ActivePcbs = l2' ++ todo → (length (f' ActivePcbs) ≤ N)%nat →
      (∀ x, x ∈ l2' → x ∈ l1 ∨ x = id ∧ handled ctr s' id) →
      agree (h ← gets tcp_active_pcbs; slow_loop app_err app_poll (fail OutOfFuel) fuel None h)
        (h ← gets tcp_active_pcbs; slow_loop app_err app_poll out (fuel + k) None h)
        (λ _, all_handled ctr) s') as Hrestart.
    { intros s' f' l2' Hs' Htu' El' Hlen Hin. apply agree_bind, wlp_gets. change (tcp_active_pcbs s') with (head ActivePcbs s').
      rewrite (head_of _ _ _ (sa_lists _ _ Hs')), El'. apply (IH s' f' [] l2' todo None); [|done|rewrite El', length_app in Hlen; lia].
      apply (slow_again ctr s s' f f' l1 id todo prev); try done; [by eapply turned_trans|by left]. }
    destruct r as [[] rst]; cbn [fst snd].
    + apply (dead_turn id l1 todo prev rst s1 f); [done..|]. intros b s2 Hs2 El2 Htu2. destruct b.
      * apply (Hrestart s2 (removed id f) l1); [done..|rewrite El2, length_app; lia|by left].
      * apply (IH s2 (removed id f) l1 [] todo prev); [|rewrite El2, length_app; lia|cbn [length]; lia].
        apply (slow_again ctr s s2 f (removed id f) l1 id todo prev); try done; [by eapply turned_trans|rewrite app_nil_r; by left].
    + apply agree_bind, wlp_modify. set (s2 := s1 <| tcp_active_pcbs_changed := false |>).
      assert (sane_at s2 f) as Hs2 by (destruct Hs1 as [[? ? ?] ? ?]; by split).
      destruct (list_conn s2 f id ActivePcbs Hs2) as (p2 & Eb2 & _); [rewrite El; apply elem_of_app; right; left|done|].
      assert (last_timer p2 = ctr) as Hlt by (by apply Hh1).
      apply agree_bind. eapply wlp_mono; [by apply (poll_turn id l1 todo s2 f p2)|]. intros b s3 (f3 & Hs3 & Htu3 & El3 & Hh3).
      rewrite Hlt in Hh3. assert (turned id s1 s3) as Htu13 by (destruct Htu3 as [A B C]; by split).
      destruct b.
      * destruct El3 as [[El3 _]|El3].
        { apply (Hrestart s3 f3 l1); [done..|rewrite El3, length_app; lia|by left]. }
        apply (Hrestart s3 f3 (l1 ++ [id])); [done..|by rewrite <- app_assoc|rewrite El3, length_app; cbn; lia|].
        intros x [|Hx]%elem_of_app; [by left|]. apply list_elem_of_singleton in Hx as ->. by right.
      * destruct El3 as [[_ ?]|El3]; [done|].
        apply (IH s3 f3 (l1 ++ [id]) [] todo (Some id)); [|rewrite El3, length_app; cbn; lia|cbn [length]; lia].
        apply (slow_again ctr s s3 f f3 l1 id todo prev); try done; [by eapply turned_trans|by rewrite <- app_assoc| |right; by rewrite last_snoc].
        rewrite app_nil_r. intros x [|Hx]%elem_of_app; [by left|]. apply list_elem_of_singleton in Hx as ->. by right.
  - cbn [slow_loop]. destruct Hp as [->|[? _]]; [|done]. cbn [length] in Hfuel.
    apply agree_bind, conn_wlp. intros p Eb. apply agree_bind, wlp_gets, agree_bind, error_wlp. intros _. rewrite Hc.
    rewrite (proj2 (Z.eqb_eq _ _)) by (apply (Hd x); [apply elem_of_app; right; left|done]).
    apply agree_bind. eapply wlp_mono; [by eapply (next_of s f ActivePcbs l1 x (l2 ++ todo)); [apply Hs|]|]. intros n s1' [-> ->].
    apply (IH s f (l1 ++ [x]) l2 todo None); [|done|lia]. split; try done; [by rewrite <- app_assoc|by left|by rewrite <- app_assoc].
Qed.

(** *** Connections in [TIME_WAIT] *)

Lemma free_turn id s f p : sane_but id s f → body_at s id = Some (Conn p) → loc f id = NoList → tcp_input_pcb (glob s) = false →
  wlp (memp_free id) (λ _ s', sane_at s' f) s.
Proof.
  intros [Hf Hb] Eb Hn Hi. apply memp_free_wlp. split; [by apply delete_lists| |exact Hi]. intros x b. rewrite deleted_at.
  case_decide as E; [done|]. intros Ex. apply (body_ok_mono (is_listener s)); [|by apply Hb]. intros q [l El]. exists l.
  rewrite deleted_at, decide_False; [done|]. intros ->. congruence.
Qed.

Lemma tw_loop_ok out k : ∀ fuel s f l1 todo,
  sane_at s f → f TwPcbs = l1 ++ todo → (length todo < fuel)%nat →
  agree (tw_loop (fail OutOfFuel) fuel (list.last l1) (list.head todo)) (tw_loop out (fuel + k) (list.last l1) (list.head todo)) (λ _, sane) s.
Proof.
  induction fuel as [|fuel IH]; [lia|]. intros s f l1 [|id todo] Hs El Hn; cbn [Nat.add list.head tw_loop]; [apply agree_refl, wlp_ret; by exists f|].
  cbn [length] in Hn. apply agree_bind, conn_wlp. intros p Eb. apply agree_bind, wlp_gets, agree_bind, error_wlp. intros _.
  apply agree_bind. eapply wlp_mono; [by eapply (next_of s f); [apply Hs|]|]. intros n s' [-> ->]. destruct (idle_over _ _ p).
  - apply agree_bind. eapply wlp_mono; [by apply (purge_turn id s f p)|]. intros [] s1 (H1 & T1 & E1 & _).
    apply agree_bind. eapply wlp_mono; [apply (unlink_turn TwPcbs l1 id todo (list.last l1) s1 f); [apply H1|done|done|by right]|].
    intros [] s2 [H2 S2]. destruct (removed_ok s1 f id (sa_lists _ _ H1)) as (_ & _ & Hnl & Ho).
    apply agree_bind. eapply wlp_mono; [apply (free_turn id s2 (removed id f) (tcp_pcb_purge p))|].
    + split; [done|]. intros x b Hx Ex. rewrite (same_body _ _ _ S2) in Ex. rewrite Ho by done.
      apply (body_ok_mono (is_listener s1)); [by apply same_kept|]. by apply H1.
    + by rewrite (same_body _ _ _ S2).
    + done.
    + rewrite (sm_glob _ _ S2). apply H1.
    + intros [] s3 H3. apply (IH s3 (removed id f)); [done| |lia]. unfold removed. rewrite El. apply filter_skip.
      rewrite <- El. apply (li_nodup _ _ (sa_lists _ _ H1)).
  - rewrite <- (last_snoc id l1). apply (IH s f (l1 ++ [id])); [done|by rewrite <- app_assoc|lia].
Qed.

(** No active connection was handled in the turn [ctr]. *)
Definition untimed (ctr : Z) (s : stack) : Prop :=
  ∀ id p, body_at s id = Some (Conn p) → where_is id s = ActivePcbs → last_timer p ≠ ctr.
Lemma untimed_at ctr s f id : untimed ctr s → lists s f → id ∈ f ActivePcbs → unhandled ctr s id.
Proof.
  intros Hu Hf Hin p Eb. apply (Hu id p Eb). rewrite (where_is_loc s f id Hf); rewrite (li_loc _ _ Hf _ _ Hin); done.
Qed.

Lemma slow_start out k s : sane s → untimed (tcp_timer_ctr s) s →
  agree (slow_loop app_err app_poll (fail OutOfFuel) (loop_fuel s) None (tcp_active_pcbs s))
    (slow_loop app_err app_poll out (loop_fuel s + k) None (tcp_active_pcbs s))
    (λ _, all_handled (tcp_timer_ctr s)) s.
Proof using wb.
  intros [f Hs] Ht. change (tcp_active_pcbs s) with (head ActivePcbs s). rewrite (head_of _ _ _ (sa_lists _ _ Hs)).
  pose proof (list_length s f ActivePcbs (sa_lists _ _ Hs)).
  apply (slow_loop_ok out k (length (f ActivePcbs)) (tcp_timer_ctr s) (loop_fuel s) s f [] [] (f ActivePcbs) None); [|done|].
  - split; [done..|by left|by intros x ?%elem_of_nil|]. intros id. by apply (untimed_at _ s f id Ht), Hs.
  - cbn [length]. unfold loop_fuel, list_fuel. nia.
Qed.
Lemma tw_start out k s : sane s →
  agree (tw_loop (fail OutOfFuel) (list_fuel s) None (tcp_tw_pcbs s)) (tw_loop out (list_fuel s + k) None (tcp_tw_pcbs s)) (λ _, sane) s.
Proof.
  intros [f Hs]. change (tcp_tw_pcbs s) with (head TwPcbs s). rewrite (head_of _ _ _ (sa_lists _ _ Hs)).
  pose proof (list_length s f TwPcbs (sa_lists _ _ Hs)). apply (tw_loop_ok out k (list_fuel s) s f [] (f TwPcbs)); [done..|]. unfold list_fuel. lia.
Qed.

(** [tcp_timer_ctr] counts. *)
Lemma untimed_ticked s s' : blocks s' = blocks s → (∀ l, head l s' = head l s) → ∀ ctr, untimed ctr s → untimed ctr s'.
Proof.
  intros Eb Eh ctr Hu id p. unfold body_at, where_is, is_on, list_fuel. rewrite !Eh, Eb. apply Hu.
Qed.

Lemma slowtmr_sane s : sane s → untimed (u8 (tcp_timer_ctr s + 1)) s → wlp (tcp_slowtmr app_err app_poll) (λ _, sane) s.
Proof using wb.
  intros Hs Ht. unfold tcp_slowtmr, tick. do 8 wlp_step. match goal with |- wlp _ _ ?s => set (s1 := s) end.
  assert (sane s1) as Hs1 by (destruct Hs as [f [[A B C] D E]]; exists f; by split).
  assert (untimed (tcp_timer_ctr s1) s1) as Ht1 by (apply (untimed_ticked s); [done|by intros []|done]).
  wlp_step. eapply wlp_mono; [apply (slow_start (fail OutOfFuel) 0 s1 Hs1 Ht1)|]. intros [] s2 (f2 & Hs2 & _). do 4 wlp_step. apply (tw_start (fail OutOfFuel) 0 s2). by exists f2.
Qed.

(** *** The fast timer *)

Lemma delayed_turn id l1 l2 s f p : sane_at s f → f ActivePcbs = l1 ++ id :: l2 → body_at s id = Some (Conn p) →
  wlp (focus id (fasttmr_delayed (tcp_timer_ctr s))) (λ _ s', sane_at s' f ∧ turned id s s' ∧ handled (tcp_timer_ctr s) s' id) s.
Proof.
  intros Hs El Eb. assert (loc f id = ActivePcbs) as Hl.
  { apply (li_loc _ _ (sa_lists _ _ Hs)). rewrite El. apply elem_of_app. right. left. }
  destruct (load_active s f id p Hs Hl Eb) as (c & r & Hp). eapply focus_ok; [apply Hs|done|by rewrite Hl|].
  pose proof (fasttmr_delayed_ok (listener p) (Idle c r) (tcp_timer_ctr s) _ Hp eq_refl) as H1.
  intros [] t E. destruct (H1 () t E) as [Ht Hft]. destruct (fasttmr_delayed_spot _ _ () t E) as [Hlt Hct].
  rewrite (load_list _ _ _ _ Hs Eb) in Hlt. split; [by rewrite Hft|]. intros s' Hfo.
  assert (moved (loc f id) (on_list t) id f = f) as Em by (rewrite Hlt; apply moved_stays).
  split; [|split; [by eapply focused_turned|]].
  - rewrite <- Em. eapply sane_focused; [apply sane_at_but, Hs|exact Eb|exact Hfo|by eapply placed_idle|]. intros q. by eapply conn_listener.
  - intros p'. rewrite (fo_body _ _ _ _ _ Hfo), Hft. by intros [= <-].
Qed.

Lemma refused_turn id l1 l2 s f p : sane_at s f → f ActivePcbs = l1 ++ id :: l2 → body_at s id = Some (Conn p) →
  wlp (watched (focus id (fasttmr_refused (app_recv id)))) (λ changed s', ∃ f', sane_at s' f' ∧ turned id s s' ∧
    (f' ActivePcbs = l1 ++ l2 ∧ changed = true ∨ f' ActivePcbs = l1 ++ id :: l2) ∧ handled (last_timer p) s' id) s.
Proof using wb.
  intros Hs El Eb. assert (loc f id = ActivePcbs) as Hl.
  { apply (li_loc _ _ (sa_lists _ _ Hs)). rewrite El. apply elem_of_app. right. left. }
  unfold watched. do 2 wlp_step. set (s1 := s <| tcp_active_pcbs_changed := false |>).
  assert (sane_at s1 f) as Hs1 by (destruct Hs as [[? ? ?] ? ?]; by split). wlp_step.
  destruct (load_active s1 f id p Hs1 Hl Eb) as (c & r & Hp). eapply focus_ok; [apply Hs1|done|by rewrite Hl|].
  pose proof (fasttmr_refused_ok _ (wb_recv id) (listener p) (Idle c r) _ Hp eq_refl) as H1.
  intros [] t E. pose proof (H1 () t E) as Ht. cbv beta in Ht. pose proof (refused_tick _ (wb_tick id) _ () t E) as Hct.
  split; [intros Ef; destruct Ht as [_ Ht]; by rewrite Ef in Ht|].
  intros s' Hfo. wlp_step. exists (moved (loc f id) (on_list t) id f). split; [|split; [|split]].
  - eapply sane_focused; [apply sane_at_but, Hs1|exact Eb|exact Hfo|by eapply placed_idle|]. intros q. by eapply conn_listener.
  - pose proof (focused_turned id f t s1 s' p Eb Hfo) as [A B C]. by split.
  - rewrite Hl. destruct (decide (on_list t = ActivePcbs)) as [->|Hne]; [right; by rewrite moved_stays|left].
    split; [apply (moved_away ActivePcbs id l1 l2); [done|apply (sa_lists _ _ Hs)|done..]|].
    apply not_false_is_true. intros Ech. by apply Hne, (fo_changed _ _ _ _ _ Hfo).
  - intros p'. rewrite (fo_body _ _ _ _ _ Hfo). destruct (freed t); [done|]. intros [= <-]. exact Hct.
Qed.

(** As for the slow timer, but the loop does not care about what is behind it. *)
Lemma fast_loop_ok out k N ctr : ∀ fuel s f l1 l2 todo,
  slow_at ctr s f l1 l2 todo None → (length (f ActivePcbs) ≤ N)%nat → (length l2 + length todo + length todo * N < fuel)%nat →
  agree (fast_loop app_recv (fail OutOfFuel) fuel (list.head (l2 ++ todo))) (fast_loop app_recv out (fuel + k) (list.head (l2 ++ todo))) (λ _, all_handled ctr) s.
Proof using wb.
  induction fuel as [|fuel IH]; [lia|]. intros s f l1 l2 todo Hat HN Hfuel. pose proof Hat as [Hs Hc El Hp Hd Ht].
  cbn [Nat.add]. destruct l2 as [|x l2]; cbn [app list.head].
  - destruct todo as [|id todo]; cbn [list.head fast_loop]; [by eapply agree_refl, wlp_ret, slow_end|].
    cbn [length] in Hfuel. cbn [app] in El. rewrite El, length_app in HN. cbn [length] in HN.
    apply agree_bind, conn_wlp. intros p Eb. apply agree_bind, wlp_gets. rewrite Hc.
    rewrite (proj2 (Z.eqb_neq _ _)) by (apply (Ht id); [left|done]).
    apply agree_bind. rewrite <- Hc. eapply wlp_mono; [by apply (delayed_turn id l1 todo s f p)|]. rewrite Hc. intros _ s1 (Hs1 & Htu1 & Hh1).
    apply agree_bind. eapply wlp_mono; [by eapply (next_of s1 f); [apply Hs1|]|]. intros n s1' [-> ->].
    destruct (list_conn s1 f id ActivePcbs Hs1) as (p2 & Eb2 & _); [rewrite El; apply elem_of_app; right; left|done|].
    assert (last_timer p2 = ctr) as Hlt by (by apply Hh1).
    apply agree_bind. eapply wlp_mono; [by apply (refused_turn id l1 todo s1 f p2)|]. intros b s3 (f3 & Hs3 & Htu3 & El3 & Hh3).
    rewrite Hlt in Hh3. pose proof (turned_trans _ _ _ _ Htu1 Htu3) as Htu13.
    assert (∀ l, f3 ActivePcbs = l ++ todo → (∀ x, x ∈ l → x ∈ l1 ∨ x = id ∧ handled ctr s3 id) → (length l ≤ S (length l1))%nat →
      agree (h ← gets tcp_active_pcbs; fast_loop app_recv (fail OutOfFuel) fuel h) (h ← gets tcp_active_pcbs; fast_loop app_recv out (fuel + k) h)
        (λ _, all_handled ctr) s3) as Hrestart.
    { intros l El' Hin Hlen. apply agree_bind, wlp_gets. change (tcp_active_pcbs s3) with (head ActivePcbs s3).
      rewrite (head_of _ _ _ (sa_lists _ _ Hs3)), El'. apply (IH s3 f3 [] l todo); [|rewrite El', length_app; lia|lia].
      apply (slow_again ctr s s3 f f3 l1 id todo None); try done. by left. }
    assert (∀ x, x ∈ l1 ++ [id] → x ∈ l1 ∨ x = id ∧ handled ctr s3 id) as Hsnoc.
    { intros x [|Hx]%elem_of_app; [by left|]. apply list_elem_of_singleton in Hx as ->. by right. }
    destruct b; destruct El3 as [[El3 ?]|El3]; try done.
    + apply (Hrestart l1); [done|by left|lia].
    + apply (Hrestart (l1 ++ [id])); [by rewrite <- app_assoc|done|rewrite length_app; cbn; lia].
    + apply (IH s3 f3 (l1 ++ [id]) [] todo); [|rewrite El3, length_app; cbn; lia|cbn [length]; lia].
      apply (slow_again ctr s s3 f f3 l1 id todo None); try done; [by rewrite <- app_assoc|by rewrite app_nil_r|by left].
  - cbn [fast_loop]. cbn [length] in Hfuel.
    apply agree_bind, conn_wlp. intros p Eb. apply agree_bind, wlp_gets. rewrite Hc.
    rewrite (proj2 (Z.eqb_eq _ _)) by (apply (Hd x); [apply elem_of_app; right; left|done]).
    apply agree_bind. eapply wlp_mono; [by eapply (next_of s f ActivePcbs l1 x (l2 ++ todo)); [apply Hs|]|]. intros n s1' [-> ->].
    apply (IH s f (l1 ++ [x]) l2 todo); [|done|lia]. split; try done; [by rewrite <- app_assoc|by left|by rewrite <- app_assoc].
Qed.

Lemma fast_start out k s : sane s → untimed (tcp_timer_ctr s) s →
  agree (fast_loop app_recv (fail OutOfFuel) (loop_fuel s) (tcp_active_pcbs s)) (fast_loop app_recv out (loop_fuel s + k) (tcp_active_pcbs s))
    (λ _, all_handled (tcp_timer_ctr s)) s.
Proof using wb.
  intros [f Hs] Ht. change (tcp_active_pcbs s) with (head ActivePcbs s). rewrite (head_of _ _ _ (sa_lists _ _ Hs)).
  pose proof (list_length s f ActivePcbs (sa_lists _ _ Hs)).
  apply (fast_loop_ok out k (length (f ActivePcbs)) (tcp_timer_ctr s) (loop_fuel s) s f [] [] (f ActivePcbs)); [|done|].
  - split; [done..|by left|by intros x ?%elem_of_nil|]. intros id. by apply (untimed_at _ s f id Ht), Hs.
  - cbn [length]. unfold loop_fuel, list_fuel. nia.
Qed.

Lemma fasttmr_handles s : sane s → untimed (u8 (tcp_timer_ctr s + 1)) s →
  wlp (tcp_fasttmr app_recv) (λ _, all_handled (u8 (tcp_timer_ctr s + 1))) s.
Proof using wb.
  intros Hs Ht. unfold tcp_fasttmr, tick. do 6 wlp_step. match goal with |- wlp _ _ ?s => set (s1 := s) end.
  assert (sane s1) as Hs1 by (destruct Hs as [f [[A B C] D E]]; exists f; by split).
  apply (fast_start (fail OutOfFuel) 0 s1 Hs1). apply (untimed_ticked s); [done|by intros []|done].
Qed.
Lemma fasttmr_sane s : sane s → untimed (u8 (tcp_timer_ctr s + 1)) s → wlp (tcp_fasttmr app_recv) (λ _, sane) s.
Proof using wb. intros Hs Ht. eapply wlp_mono; [by apply fasttmr_handles|]. intros [] s' (f & Hf & _). by exists f. Qed.

Lemma u8_next n : u8 n ≠ u8 (u8 n + 1).
Proof.
  unfold u8. change (2 ^ 8) with 256. rewrite Zplus_mod_idemp_l. intros E.
  assert ((n + 1 - n) mod 256 = 0) as E' by by rewrite Zminus_mod, <- E, Z.sub_diag. by replace (n + 1 - n) with 1 in E' by lia.
Qed.
Lemma tmr_sane s : sane s → untimed (u8 (tcp_timer_ctr s + 1)) s → wlp (tcp_tmr app_recv app_err app_poll) (λ _, sane) s.
Proof using wb.
  intros Hs Ht. unfold tcp_tmr. wlp_step. eapply wlp_mono; [by apply fasttmr_handles|]. intros [] s1 (f & Hs1 & Hc & Hh).
  do 4 wlp_step. match goal with |- wlp _ _ ?s => set (s2 := s) end.
  assert (sane_at s2 f) as Hs2 by (destruct Hs1 as [[A B C] D E]; by split).
  wlp_step; [|wlp_step; by exists f]. apply slowtmr_sane; [by exists f|]. intros id p Eb Ew.
  rewrite (where_is_loc s2 f id) in Ew by (apply Hs2 || by eapply sane_loc_conn). apply loc_in in Ew; [|done].
  change (tcp_timer_ctr s2) with (tcp_timer_ctr s1). rewrite Hc, (Hh id Ew p Eb). apply u8_next.
Qed.

(** (C11) The loops of the timers, and those that abort the connections of an address
    that changes, end: from lists as they should be, while no active connection
    was handled in this turn, none of them comes to the end of its fuel, although
    callbacks make the loops over the active connections start again: with more
    fuel, and whatever they did at its end, they do the same. *)
Theorem timer_loops_end s k out : sane s → untimed (tcp_timer_ctr s) s →
  slow_loop app_err app_poll out (loop_fuel s + k) None (tcp_active_pcbs s) s =
    slow_loop app_err app_poll (fail OutOfFuel) (loop_fuel s) None (tcp_active_pcbs s) s ∧
  tw_loop out (list_fuel s + k) None (tcp_tw_pcbs s) s = tw_loop (fail OutOfFuel) (list_fuel s) None (tcp_tw_pcbs s) s ∧
  fast_loop app_recv out (loop_fuel s + k) (tcp_active_pcbs s) s = fast_loop app_recv (fail OutOfFuel) (loop_fuel s) (tcp_active_pcbs s) s ∧
  ∀ addr l, l ≠ NoList → addr_ready addr s →
    abort_bound_to app_err out (list_fuel s + k) addr (head l s) s = abort_bound_to app_err (fail OutOfFuel) (list_fuel s) addr (head l s) s.
Proof using wb.
  intros Hs Hu. repeat split.
  - symmetry. apply (slow_start out k s Hs Hu).
  - symmetry. apply (tw_start out k s Hs).
  - symmetry. apply (fast_start out k s Hs Hu).
  - intros addr l Hl Ha. symmetry. by apply (abort_bound_start app_recv app_err app_sent app_connected app_accept app_poll out k addr l s).
Qed.
End Loops.
