(* ===== verification/LwipTcpStack.v ===== *)
(** TCP of lwIP, all control blocks: whatever the calls and segments, the lists
    stay as they should be; a segment does to its connection what the model of
    one connection says, and nothing to the others. *)
From stdpp Require Import gmap.
From S2P Require Import Prelude.
From S2P Require Import LwipTcp.
From S2P Require Import LwipTcpOut.
From S2P Require Import LwipTcpApi.
From S2P Require Import LwipTcpIn.
From S2P Require Import LwipTcpProcess.
From S2P Require Import LwipTcpTimer.
From S2P Require Import LwipTcpPcbs.
From S2P Require Import LwipTcpSeq.
From S2P Require Import LwipTcpStays.
From S2P Require Import LwipTcpPlace.
From S2P Require Import LwipTcpLinks.
From S2P Require Import LwipTcpPorts.
From S2P Require Import LwipTcpSane.
From S2P Require Import LwipTcpCalls.
From S2P Require Import LwipTcpLoops.

(** The state of [tcp_init]. *)
Definition tcp_init (port iss : Z) (g : tcp) : stack := mk_stack ∅ None None None None port iss 0 0 false g.

Lemma sane_init port iss g : tcp_input_pcb g = false → sane (tcp_init port iss g).
Proof.
  intros Hg. exists (λ _, []). split; [|by intros id b|done]. split; [by intros []|intros l; apply base.NoDup_nil_2|by intros l id ?%elem_of_nil].
Qed.

Section Stack.
Context `{TcpEnv} `{PcbEnv}.
Context (app_recv : positive → option (list tbuf) → TCP Z) (app_err : positive → Z → TCP ())
  (app_sent : positive → Z → TCP Z) (app_connected app_accept : positive → TCP Z) (app_poll : positive → TCP (bool * Z)).
Context {wb : WellBehaved app_recv app_err app_sent app_connected app_accept app_poll}.

(** ** Calls

    A call that returns, within the rules the code leaves to its caller without
    checking them: a control block that is on a list is not bound again (an
    attempt that is refused does no harm); a closed one that is bound to an
    interface is not aborted, and its address does not go away; an application
    does not close its connection when it is offered data it has refused
    before; no connection has the timer count of the turn that begins.
    [LwipTcpStackRuns] has runs that break the rules on binding, aborting and
    refused data, and the lists with them. *)
Inductive call (s : stack) : stack → Prop :=
  | call_new r s' : tcp_new app_err s = Ok (r, s') → call s s'
  | call_new_ip_type t r s' : tcp_new_ip_type app_err t s = Ok (r, s') → call s s'
  | call_bind id ip port r s' : (r = ERR_OK → where_is id s = NoList) → tcp_bind id ip port s = Ok (r, s') → call s s'
  | call_bind_to_netif id name r s' : (r = ERR_OK → where_is id s = NoList) → tcp_bind_to_netif id name s = Ok (r, s') → call s s'
  | call_listen id r s' : tcp_listen_with_backlog_and_err id s = Ok (r, s') → call s s'
  | call_connect id ip port cb r s' : tcp_connect id ip port cb s = Ok (r, s') → call s s'
  | call_write id arg data flags r s' : focus id (tcp_write arg data flags) s = Ok (r, s') → call s s'
  | call_output id r s' : focus id tcp_output s = Ok (r, s') → call s s'
  | call_recved id n r s' : focus id (tcp_recved n) s = Ok (r, s') → call s s'
  | call_close id r s' : tcp_close id s = Ok (r, s') → call s s'
  | call_shutdown id rx tx r s' : tcp_shutdown id rx tx s = Ok (r, s') → call s s'
  | call_abort id r s' : may_abort s id → tcp_abort app_err id s = Ok (r, s') → call s s'
  | call_setprio id n r s' : tcp_setprio id n s = Ok (r, s') → call s s'
  | call_recv id cb r s' : tcp_recv id cb s = Ok (r, s') → call s s'
  | call_sent id cb r s' : tcp_sent id cb s = Ok (r, s') → call s s'
  | call_err id cb r s' : tcp_err id cb s = Ok (r, s') → call s s'
  | call_poll id cb n r s' : tcp_poll id cb n s = Ok (r, s') → call s s'
  | call_accept id cb r s' : tcp_accept id cb s = Ok (r, s') → call s s'
  | call_input inp src dst many chksum p r s' : refused_ok app_recv s →
      tcp_input app_recv app_err app_sent app_connected app_accept inp src dst many chksum p s = Ok (r, s') → call s s'
  | call_fasttmr r s' : untimed (u8 (tcp_timer_ctr s + 1)) s → tcp_fasttmr app_recv s = Ok (r, s') → call s s'
  | call_slowtmr r s' : untimed (u8 (tcp_timer_ctr s + 1)) s → tcp_slowtmr app_err app_poll s = Ok (r, s') → call s s'
  | call_tmr r s' : untimed (u8 (tcp_timer_ctr s + 1)) s → tcp_tmr app_recv app_err app_poll s = Ok (r, s') → call s s'
  | call_txnow r s' : tcp_txnow s = Ok (r, s') → call s s'
  | call_free_ooseq r s' : pbuf_free_ooseq s = Ok (r, s') → call s s'
  | call_addr_changed old new r s' : addr_ready old s → tcp_netif_ip_addr_changed app_err old new s = Ok (r, s') → call s s'.

Lemma off_lists s f id : sane_at s f → where_is id s = NoList → ∀ p, body_at s id = Some (Conn p) → loc f id = NoList.
Proof. intros Hs Hw p Eb. rewrite <- Hw. symmetry. apply where_is_loc; [apply Hs|by eapply sane_loc_conn]. Qed.

Lemma call_sane s s' : sane s → call s s' → sane s'.
Proof using wb.
  intros Hs Hc. pose proof Hs as [f Hf]. assert (∀ A (m : TCP A) id r, framed stays m → focus id m s = Ok (r, s') → sane s') as Hstay.
  { intros A m id r Hm E. by apply (focus_stays id m s Hm Hs r s'). }
  destruct Hc as [r s' E|ty r s' E|id ip port r s' Hw E|id name r s' Hw E|id r s' E|id ip port cb r s' E|id arg d fl r s' E|id r s' E
    |id n r s' E|id r s' E|id rx tx r s' E|id r s' Hm E|id n r s' E|id cb r s' E|id cb r s' E|id cb r s' E|id cb n r s' E|id cb r s' E
    |inp src dst many chk p r s' Hr E|r s' Hu E|r s' Hu E|r s' Hu E|r s' E|r s' E|old new r s' Ha E].
  - by eapply new_ok.
  - by eapply new_ip_type_ok.
  - destruct (decide (r = ERR_OK)) as [Hr|Hr]; [|by apply (bind_refused id ip port s Hs r s' E)].
    eapply (bind_ok id ip port s f Hf); [by apply off_lists, Hw|exact E].
  - destruct (decide (r = ERR_OK)) as [Hr|Hr]; [|by apply (bind_to_netif_refused id name s Hs r s' E)].
    eapply (bind_to_netif_ok id name s f Hf); [by apply off_lists, Hw|exact E].
  - by eapply listen_ok.
  - by eapply connect_sane.
  - eapply Hstay; [apply tcp_write_stays|exact E].
  - eapply Hstay; [apply tcp_output_stays|exact E].
  - eapply Hstay; [apply tcp_recved_stays|exact E].
  - by eapply close_sane.
  - by eapply shutdown_sane.
  - by eapply abort_sane.
  - by eapply setprio_sane.
  - refine (set_callback_sane id _ s _ Hs r s' E). by intros p.
  - refine (set_callback_sane id _ s _ Hs r s' E). by intros p.
  - refine (set_callback_sane id _ s _ Hs r s' E). by intros p.
  - refine (set_callback_sane id _ s _ Hs r s' E). by intros p.
  - by eapply accept_sane.
  - by eapply input_sane.
  - by eapply fasttmr_sane.
  - by eapply slowtmr_sane.
  - by eapply tmr_sane.
  - by eapply txnow_sane.
  - exists f. by apply (free_ooseq_ok s f Hf _ _ E).
  - by eapply addr_changed_sane.
Qed.

Lemma call_reach s s' : rtc call s s' → sane s → sane s'.
Proof using wb. induction 1 as [|s1 s2 s3 Hc _ IH]; [done|]. intros Hs. by eapply IH, call_sane. Qed.

(** (C9) The rules about the lists of control blocks hold after every sequence
    of calls, segments and timers that keeps to the rules of [call]: the links
    of each list make up a list without repetition, no control block is on two
    lists, none of them is freed while it is on one, a connection on a list has
    a state of that list, one on no list is closed, and the listener of a
    connection is still listening.  The rules of [call] are: no control block
    that is on a list is bound with success; no closed control block bound to
    an interface is aborted or loses its address; the application does not
    close its connection when it is offered refused data; no active connection
    has the count of the timer turn that begins.  The code checks none of
    them, and binding twice, aborting and closing against them break the lists
    ([LwipTcpStackRuns.bind_twice_circles], [LwipTcpStackRuns.abort_netif_dangles],
    [LwipTcpStackRuns.close_in_refused_data]). *)
Theorem pcb_lists_sane port iss g s : tcp_input_pcb g = false → rtc call (tcp_init port iss g) s → sane s.
Proof using wb. intros Hg Hr. eapply call_reach, sane_init; done. Qed.

(** ** A segment for a connection *)

(** The header is read without looking at a connection. *)
Definition put_conn (c : tcp_pcb) (l : pcb_list) (g : tcp) : tcp := g <| pcb := c |> <| on_list := l |> <| freed := false |>.
Lemma header_put c l many chk p g :
  input_header many chk p (put_conn c l g) =
    match input_header many chk p g with Ok (r, g') => Ok (r, put_conn c l g') | Fail e => Fail e end.
Proof.
  unfold input_header. destruct p as [|b p]; [done|]. destruct (_ || negb _); [done|]. unfold mbind, M_bind, lift.
  destruct (read_hdr (tb_data b)) as [h|]; [|done]. cbv zeta. destruct (_ || _); [done|].
  destruct (split_options _ _) as [[[q [[o1 o2] o3]]|]|]; reflexivity.
Qed.

Lemma on_glob_ok {A} (m : TCP A) s a g : m (glob s) = Ok (a, g) → on_glob m s = Ok (a, s <| glob := g |>).
Proof. intros E. unfold on_glob, mbind, M_bind, gets, lift, modify. by rewrite E. Qed.

(** The model of one connection comes to the same point. *)
Lemma single_matched (ac : TCP Z) src dst many chk seg s g c h q id : is_for src dst h c = true → state c ∉ [CLOSED; LISTEN; TIME_WAIT] →
  input_header many chk seg (glob s) = Ok (Some (h, q), g) → where_is id s = ActivePcbs →
  LwipTcpProcess.tcp_input (app_recv id) (app_err id) (app_sent id) (app_connected id) ac src dst many chk seg (load id c s) =
  input_matched (app_recv id) (app_err id) (app_sent id) (app_connected id) ac (matched_seg h q) (put_conn c ActivePcbs g).
Proof.
  intros Hf Hst Eh Hw. unfold LwipTcpProcess.tcp_input. change (load id c s) with (put_conn c (where_is id s) (glob s)). rewrite Hw.
  erewrite bind_of_ok; [|rewrite header_put, Eh; reflexivity]. cbv iota beta.
  set (t := put_conn c ActivePcbs g). rewrite (bind_of_ok (gets pcb) _ t c t eq_refl), (bind_of_ok (gets on_list) _ t ActivePcbs t eq_refl).
  rewrite bool_decide_eq_true_2 by done. unfold LWIP_ASSERT. rewrite (bool_decide_eq_false_2 (state c ∈ _)).
  - rewrite Hf. reflexivity.
  - intros Hin. apply Hst. members; rewrite Hin; apply list_elem_of_In; cbn; auto.
Qed.

Lemma stack_matched s f l1 l2 id c seg : sane_at s f → refused_ok app_recv s → f ActivePcbs = l1 ++ id :: l2 → body_at s id = Some (Conn c) →
  wlp (move_to_front ActivePcbs (list.last l1) id ;; s ← gets (λ s, s);
    focus id (input_matched (app_recv id) (app_err id) (app_sent id) (app_connected id) (accept_event app_err app_accept s id) seg))
    (λ _ s', ∃ s1 t, (∀ x, body_at s1 x = body_at s x) ∧
      input_matched (app_recv id) (app_err id) (app_sent id) (app_connected id) (accept_event app_err app_accept s1 id) seg
        (put_conn c ActivePcbs (glob s)) = Ok ((), t) ∧
      body_at s' id = (if freed t then None else Some (Conn (pcb t))) ∧ (∀ x, x ≠ id → body_at s' x = body_at s x) ∧
      where_is id s' = on_list t ∧ glob s' = t) s.
Proof using wb.
  intros Hs Hr El Eb. assert (loc f id = ActivePcbs) as Hl by (apply (li_loc _ _ (sa_lists _ _ Hs)); rewrite El; apply elem_of_app; right; left).
  assert (live (state c)) as Hst by (pose proof (sane_state _ _ _ _ Hs Eb) as Hst; by rewrite Hl in Hst).
  wlp_step. eapply wlp_mono; [by apply (move_sane ActivePcbs l1 l2 id s f)|]. intros [] s1 (f1 & Hs1 & Hsame & Hloc & _). do 2 wlp_step.
  assert (∀ x, body_at s1 x = body_at s x) as Hb1 by (intros x; by rewrite (same_body _ _ x Hsame)).
  assert (loc f1 id = ActivePcbs) as Hl1 by by rewrite Hloc.
  assert (load id c s1 = put_conn c ActivePcbs (glob s)) as Eload.
  { unfold load, put_conn. rewrite (where_is_loc s1 f1 id), Hl1 by (apply Hs1 || by rewrite Hl1). by rewrite (sm_glob _ _ Hsame). }
  eapply focus_ok; [apply Hs1|by rewrite Hb1|by rewrite Hl1|]. rewrite Eload. intros [] t Et.
  destruct (input_matched_ok _ (wb_err id) _ (wb_recv id) _ _ _ (wb_sent id) (wb_connected id)
    (accept_event_behaves app_recv app_err app_sent app_connected app_accept app_poll s1 id) (listener c) seg (put_conn c ActivePcbs (glob s))
    (sa_input _ _ Hs) eq_refl eq_refl) with () t as [_ Ht];
    [by apply settled_active|apply (Hr id c); [done..|exact (sa_input _ _ Hs)]|exact Et|].
  unfold rested in Ht. split; [intros Ef; by rewrite Ef in Ht|]. intros s2 Hfo. exists s1, t. split; [exact Hb1|]. split; [done|].
  split; [apply Hfo|]. split; [intros x Hx; rewrite (fo_bodies _ _ _ _ _ Hfo) by done; apply Hb1|]. split; [|apply Hfo].
  rewrite <- (fo_loc _ _ _ _ _ Hfo). apply where_is_loc; [apply Hfo|]. rewrite (fo_loc _ _ _ _ _ Hfo).
  intros El1. destruct (freed t); [congruence|]. apply (se_state _ _ _) in Ht. by rewrite El1 in Ht.
Qed.

(** No other active connection has the addresses and ports of the segment. *)
Definition only_for (src dst : list Z) (h : tcp_hdr) (s : stack) (id : positive) : Prop :=
  ∀ x p, body_at s x = Some (Conn p) → where_is x s = ActivePcbs → is_for src dst h p = true → x = id.

(** (C10) A segment for an active connection does to the stack what the model of
    one connection says: the control block it leaves, the list it is on, the
    variables of [tcp_in.c] and what goes out are those of that model, with the
    accept callback of its listener, and no other control block changes. *)
Theorem tcp_input_refines inp src dst many chk seg s s' id c h q g :
  sane s → refused_ok app_recv s → body_at s id = Some (Conn c) → where_is id s = ActivePcbs →
  input_header many chk seg (glob s) = Ok (Some (h, q), g) → is_for src dst h c = true →
  only_for src dst h s id →
  tcp_input app_recv app_err app_sent app_connected app_accept inp src dst many chk seg s = Ok ((), s') →
  ∃ s1 t, (∀ x, body_at s1 x = body_at s x) ∧
    LwipTcpProcess.tcp_input (app_recv id) (app_err id) (app_sent id) (app_connected id) (accept_event app_err app_accept s1 id)
      src dst many chk seg (load id c s) = Ok ((), t) ∧
    body_at s' id = (if freed t then None else Some (Conn (pcb t))) ∧ (∀ x, x ≠ id → body_at s' x = body_at s x) ∧
    where_is id s' = on_list t ∧ glob s' = t.
Proof using wb.
  intros [f Hs] Hr Eb Ew Eh Hc Huniq E. pose proof (sa_lists _ _ Hs) as Hf.
  assert (∀ x p, body_at s x = Some (Conn p) → where_is x s = loc f x) as Hw.
  { intros x p Ex. apply where_is_loc; [done|by eapply sane_loc_conn]. }
  destruct (conn_for ActivePcbs src dst h s f) as [[prev x]|] eqn:Ec.
  - pose proof Ec as (l1 & l2 & El & Hfor & _ & Eq)%search_found. assert (x ∈ f ActivePcbs) as Hin by (rewrite El; apply elem_of_app; right; left).
    destruct (list_conn s f x _ Hs Hin) as (p & Ep & _); [done|]. assert (x = id) as ->.
    { apply (Huniq x p Ep); [rewrite (Hw x p Ep); by apply Hf|]. unfold at_block in Hfor. apply body_some in Ep as [n En]. by rewrite En in Hfor. }
    unfold tcp_input in E. rewrite (bind_of_ok _ _ _ _ _ (on_glob_ok _ _ _ _ Eh)) in E. set (s0 := s <| glob := g |>) in E.
    assert (sane_at s0 f) as Hs0.
    { destruct Hs as [[A B C] D F]. split; [by split|exact D|]. pose proof (input_header_same many chk seg (glob s) _ _ Eh) as Hg.
      change (tcp_input_pcb g = false). by rewrite Hg. }
    rewrite (bind_of_ok _ _ _ _ _ (find_active s0 f src dst h Hs0)) in E.
    change (conn_for ActivePcbs src dst h s0 f) with (conn_for ActivePcbs src dst h s f) in E. rewrite Ec in E.
    replace prev with (list.last l1) in E by by rewrite Eq; destruct (list.last l1).
    destruct (stack_matched s0 f l1 l2 id c (matched_seg h q) Hs0 Hr El Eb _ _ E) as (s1 & t & H1 & H2 & H3). exists s1, t. split; [exact H1|].
    split; [|exact H3]. rewrite (single_matched _ src dst many chk seg s g c h q id); [exact H2|done| |done..].
    pose proof (sane_state _ _ _ _ Hs Eb) as Hst. by rewrite <- (Hw id c Eb), Ew in Hst.
  - exfalso. assert (at_block (for_conn src dst h) (blocks s) id = true) as Ht.
    { unfold at_block. apply body_some in Eb as [n En]. by rewrite En. }
    unfold conn_for in Ec. pose proof (proj1 (search_none _ _ _) Ec id) as Hn. rewrite Hn in Ht; [done|].
    apply loc_in; [|done]. by rewrite <- (Hw id c Eb).
Qed.
End Stack.
