(* ===== verification/LwipTcpStackRuns.v ===== *)
(** TCP of lwIP, all control blocks, concrete runs: a connection that is opened
    from outside, and runs that leave a list with a control block that is gone
    or fail an assertion. *)
From stdpp Require Import gmap.
From S2P Require Import Prelude.
From S2P Require Import LwipTcp.
From S2P Require Import LwipTcpOut.
From S2P Require Import LwipTcpApi.
From S2P Require Import LwipTcpIn.
From S2P Require Import LwipTcpProcess.
From S2P Require Import LwipTcpTimer.
From S2P Require Import LwipTcpPcbs.
From S2P Require Import LwipTcpExamples.
From S2P Require Import LwipTcpStays.
From S2P Require Import LwipTcpPlace.
From S2P Require Import LwipTcpLinks.
From S2P Require Import LwipTcpPorts.
From S2P Require Import LwipTcpSane.
From S2P Require Import LwipTcpBind.
From S2P Require Import LwipTcpCalls.
From S2P Require Import LwipTcpLoops.
From S2P Require Import LwipTcpStack.

#[local] Existing Instance good_env.
#[local] Instance enough_memory : PcbEnv := {| pcb_mem _ := true |}.

(** An application that takes what it gets. *)
Definition take_recv (_ : positive) (_ : option (list tbuf)) : TCP Z := mret ERR_OK.
Definition take_err (_ : positive) (_ : Z) : TCP () := mret ().
Definition take_sent (_ : positive) (_ : Z) : TCP Z := mret ERR_OK.
Definition take_conn (_ : positive) : TCP Z := mret ERR_OK.
Definition take_poll (_ : positive) : TCP (bool * Z) := mret (false, ERR_OK).

#[local] Instance take_behaves : WellBehaved take_recv take_err take_sent take_conn take_conn take_poll.
Proof.
  split.
  - intros id d l m s Hp Hf. by apply wlp_ret.
  - intros id e s. by apply wlp_ret.
  - intros id d l m s Hp Hf. by apply wlp_ret.
  - intros id l m s Hp Hf. by apply wlp_ret.
  - intros id. split; [intros l m s Hp Hf El; by apply wlp_ret|intros s; by apply wlp_ret].
  - intros id l m s Hp Hf. by apply wlp_ret.
  - intros id d s. by apply wlp_ret.
Qed.

(** The state after a call, [s] if it failed; whether it failed. *)
Definition then_state {A} (m : ST A) (s : stack) : stack := match m s with Ok (_, s') => s' | Fail _ => s end.
Definition returns {A} (m : ST A) (s : stack) : bool := match m s with Ok _ => true | Fail _ => false end.
Definition result_of {A} (m : ST A) (s : stack) : result A := match m s with Ok (a, _) => Ok a | Fail e => Fail e end.
Lemma returns_ok {A} (m : ST A) s : returns m s = true → ∃ a, m s = Ok (a, then_state m s).
Proof. unfold returns, then_state. destruct (m s) as [[a s']|]; [by exists a|done]. Qed.

(** What holds of all control blocks. *)
Lemma all_bodies (P : positive → body → bool) s : forallb (λ x, P x.1 (the_body x.2)) (map_to_list (blocks s)) = true →
  ∀ id b, body_at s id = Some b → P id b = true.
Proof.
  intros Hall id b [n Eb]%body_some. apply elem_of_map_to_list in Eb. rewrite forallb_forall in Hall.
  apply (Hall (id, mk_block n b)). by apply list_elem_of_In.
Qed.

(** ** A server *)

(** 10.0.0.2:1000 to 10.0.0.1:80. *)
Definition segment (seq ack f : Z) (data : list Z) : list tbuf :=
  [mk_tbuf ([3; 232; 0; 80] ++ [0; 0; seq / 256; seq mod 256] ++ [0; 0; ack / 256; ack mod 256] ++ [80; f; 8; 0; 0; 0; 0; 0] ++ data) None 0 0].
Definition input (p : list tbuf) : ST () :=
  tcp_input take_recv take_err take_sent take_conn take_conn ([101; 110], 0) [10; 0; 0; 2] [10; 0; 0; 1] false 0 p.

Definition s_init : stack := tcp_init 49152 6510 open_conn.
Definition s_new : stack := then_state (tcp_new take_err) s_init.
Definition s_bound : stack := then_state (tcp_bind 1 (Some [10; 0; 0; 1]) 80) s_new.
Definition s_listen : stack := then_state (tcp_listen_with_backlog_and_err 1) s_bound.
Definition s_accept : stack := then_state (tcp_accept 2 (Some 3%positive)) s_listen.
Definition s_syn : stack := then_state (input (segment 999 0 TCP_SYN [])) s_accept.
Definition s_open : stack := then_state (input (segment 1000 6518 TCP_ACK [])) s_syn.

Definition step : stack → stack → Prop := call take_recv take_err take_sent take_conn take_conn take_poll.
Lemma step_returns {A} (m : ST A) s : returns m s = true → (∀ r s', m s = Ok (r, s') → step s s') → step s (then_state m s).
Proof. intros (r & E)%returns_ok Hc. by eapply Hc. Qed.

(** Nothing waits that was refused. *)
Lemma nothing_refused s :
  forallb (λ x, match the_body x.2 with Conn p => bool_decide (refused_data p = None) | Lsn _ => true end) (map_to_list (blocks s)) = true →
  refused_ok take_recv s.
Proof.
  intros Hall id p t Eb <- _ _ _ Hn. exfalso. apply Hn.
  apply (all_bodies (λ _ b, match b with Conn p => bool_decide (refused_data p = None) | Lsn _ => true end) s Hall) in Eb.
  by apply bool_decide_eq_true in Eb.
Qed.

Lemma reach_open : rtc step s_init s_open.
Proof.
  eapply rtc_l; [apply (step_returns (tcp_new take_err)); [by vm_compute|intros; by eapply call_new]|].
  eapply rtc_l; [apply (step_returns (tcp_bind 1 (Some [10; 0; 0; 1]) 80)); [by vm_compute|intros; eapply call_bind; [by vm_compute|done]]|].
  eapply rtc_l; [apply (step_returns (tcp_listen_with_backlog_and_err 1)); [by vm_compute|intros; by eapply call_listen]|].
  eapply rtc_l; [apply (step_returns (tcp_accept 2 (Some 3%positive))); [by vm_compute|intros; by eapply call_accept]|].
  eapply rtc_l; [apply (step_returns (input (segment 999 0 TCP_SYN []))); [by vm_compute|]|].
  { intros r s' E. eapply call_input; [|exact E]. apply nothing_refused. by vm_compute. }
  eapply rtc_l; [apply (step_returns (input (segment 1000 6518 TCP_ACK []))); [by vm_compute|]|].
  { intros r s' E. eapply call_input; [|exact E]. apply nothing_refused. by vm_compute. }
  apply rtc_refl.
Qed.

Lemma pcb_lists_sane_witness : tcp_input_pcb open_conn = false ∧ rtc step s_init s_open ∧ sane s_open.
Proof.
  split; [done|]. split; [exact reach_open|].
  exact (pcb_lists_sane take_recv take_err take_sent take_conn take_conn take_poll 49152 6510 open_conn s_open eq_refl reach_open).
Defined.

Lemma sane_open : sane s_open.
Proof.
  exact (call_reach take_recv take_err take_sent take_conn take_conn take_poll s_init s_open reach_open (sane_init 49152 6510 open_conn eq_refl)).
Qed.

(** One turn of the timer later. *)
Definition s_tick : stack := s_open <| tcp_timer_ctr := 1 |>.
Lemma sane_ctr s n : sane s → sane (s <| tcp_timer_ctr := n |>).
Proof. intros [f [[A B C] D E]]. exists f. by split. Qed.
Lemma sane_tick : sane s_tick.
Proof. exact (sane_ctr s_open 1 sane_open). Qed.
Lemma untimed_tick : untimed (tcp_timer_ctr s_tick) s_tick.
Proof.
  intros id p Eb _. apply (all_bodies (λ _ b, match b with Conn p => bool_decide (last_timer p ≠ 1) | Lsn _ => true end)) in Eb; [|by vm_compute].
  by apply bool_decide_eq_true in Eb.
Qed.

Lemma timer_loops_end_witness :
  sane s_tick ∧ untimed (tcp_timer_ctr s_tick) s_tick ∧
  slow_loop take_err take_poll (mret ()) (loop_fuel s_tick + 7) None (tcp_active_pcbs s_tick) s_tick =
    slow_loop take_err take_poll (fail OutOfFuel) (loop_fuel s_tick) None (tcp_active_pcbs s_tick) s_tick.
Proof.
  split; [exact sane_tick|]. split; [exact untimed_tick|].
  exact (proj1 (timer_loops_end take_recv take_err take_sent take_conn take_conn take_poll s_tick 7 (mret ()) sane_tick untimed_tick)).
Defined.

Lemma tcp_new_port_finds_witness :
  lists s_init (λ _, []) ∧ in_port_range (tcp_port s_init) ∧
  ∃ port q, tcp_new_port s_init = Ok (port, s_init <| tcp_port := q |>) ∧ in_port_range q.
Proof.
  assert (lists s_init (λ _, [])) as Hl by (split; [by intros []|intros l; apply base.NoDup_nil_2|by intros l id ?%elem_of_nil]).
  split; [exact Hl|]. split; [done|]. destruct (tcp_new_port_finds s_init (λ _, []) Hl) as (port & q & E & Hq & _); [done|]. by exists port, q.
Defined.

(** Port 80 for a new control block. *)
Lemma sane_new : sane_at s_new (λ _, []).
Proof.
  split; [split; [by intros []|intros l; apply base.NoDup_nil_2|by intros l id ?%elem_of_nil]| |done].
  intros id b Eb. apply (all_bodies (λ _ b, match b with Conn p => bool_decide (state p = CLOSED ∧ listener p = None) | Lsn _ => false end)) in Eb;
    [|by vm_compute]. destruct b as [p|]; [|done]. apply bool_decide_eq_true in Eb as [Es El]. split; [|done|done|by intros q; rewrite El].
  by rewrite Es.
Qed.
Lemma new_there : ∃ p, body_at s_new 1 = Some (Conn p) ∧ state p = CLOSED.
Proof. eexists. split; [vm_compute; reflexivity|done]. Qed.
Lemma tcp_bind_spec_witness :
  ∃ p, sane_at s_new (λ _, []) ∧ body_at s_new 1 = Some (Conn p) ∧ state p = CLOSED ∧
    wp (tcp_bind 1 (Some [10; 0; 0; 1]) 80) (bind_result 1 p [10; 0; 0; 1] 80 s_new (λ _, [])) s_new.
Proof.
  destruct new_there as (p & Eb & Ec). exists p. split; [exact sane_new|]. split; [exact Eb|]. split; [exact Ec|].
  apply (tcp_bind_spec 1 (Some [10; 0; 0; 1]) 80 s_new (λ _, []) p sane_new Eb Ec); [done|by vm_compute|done].
Defined.

(** Three bytes for the open connection. *)
Definition data_in : list tbuf := segment 1000 6518 24 [1; 2; 3].
Lemma data_header : ∃ h q g, input_header false 0 data_in (glob s_open) = Ok (Some (h, q), g) ∧ h_src h = 1000 ∧ h_dest h = 80.
Proof. eexists _, _, _. split; [vm_compute; reflexivity|done]. Qed.
Lemma one_active : ∀ x p, body_at s_open x = Some (Conn p) → x = 3%positive ∧ remote_port p = 1000 ∧ local_port p = 80 ∧
  remote_ip p = [10; 0; 0; 2] ∧ local_ip p = [10; 0; 0; 1].
Proof.
  intros x p Eb. apply (all_bodies (λ id b, match b with Conn p => bool_decide (id = 3%positive ∧ remote_port p = 1000 ∧ local_port p = 80 ∧
    remote_ip p = [10; 0; 0; 2] ∧ local_ip p = [10; 0; 0; 1]) | Lsn _ => true end)) in Eb; [|by vm_compute]. by apply bool_decide_eq_true in Eb.
Qed.
Lemma open_there : ∃ c, body_at s_open 3 = Some (Conn c).
Proof. eexists. vm_compute. reflexivity. Qed.

Lemma open_refused : refused_ok take_recv s_open.
Proof. apply nothing_refused. by vm_compute. Qed.
Lemma open_where : where_is 3 s_open = ActivePcbs.
Proof. by vm_compute. Qed.
Lemma data_returns : returns (input data_in) s_open = true.
Proof. by vm_compute. Qed.
Lemma input_eq p s : input p s =
  tcp_input take_recv take_err take_sent take_conn take_conn ([101; 110], 0) [10; 0; 0; 2] [10; 0; 0; 1] false 0 p s.
Proof. done. Qed.

Lemma tcp_input_refines_witness :
  ∃ c s1 t, body_at s_open 3 = Some (Conn c) ∧
    LwipTcpProcess.tcp_input (take_recv 3) (take_err 3) (take_sent 3) (take_conn 3) (accept_event take_err take_conn s1 3)
      [10; 0; 0; 2] [10; 0; 0; 1] false 0 data_in (load 3 c s_open) = Ok ((), t) ∧
    body_at (then_state (input data_in) s_open) 3 = (if freed t then None else Some (Conn (pcb t))).
Proof.
  destruct data_header as (h & q & g & Eh & Hsrc & Hdst). destruct open_there as [c Ec]. destruct (one_active 3 c Ec) as (_ & R & L & RI & LI).
  destruct (returns_ok (input data_in) s_open data_returns) as [[] E]. rewrite input_eq in E. exists c.
  assert (is_for [10; 0; 0; 2] [10; 0; 0; 1] h c = true) as Hfor by (unfold is_for; rewrite Hsrc, Hdst, R, L, RI, LI; done).
  assert (∀ x p, body_at s_open x = Some (Conn p) → where_is x s_open = ActivePcbs → is_for [10; 0; 0; 2] [10; 0; 0; 1] h p = true → x = 3%positive)
    as Hu by (intros x p Ex _ _; apply (one_active x p Ex)).
  pose proof (tcp_input_refines take_recv take_err take_sent take_conn take_conn take_poll ([101; 110], 0) [10; 0; 0; 2] [10; 0; 0; 1] false 0 data_in
    s_open (then_state (input data_in) s_open) 3 c h q g sane_open open_refused Ec open_where Eh Hfor Hu E) as (s1 & t & _ & H1 & H2 & _).
  exists s1, t. split; [exact Ec|]. split; [exact H1|exact H2].
Defined.

(** ** Runs that go wrong *)

(** A control block bound to an interface has no port: aborting it frees it and
    leaves it on the list of bound ones, and the next search for a port reads it. *)
Example abort_netif_dangles :
  let s := then_state (tcp_bind_to_netif 1 [101; 110; 48]) s_new in
  let s' := then_state (tcp_abort take_err 1) s in
  result_of (tcp_bind_to_netif 1 [101; 110; 48]) s_new = Ok ERR_OK ∧ result_of (tcp_abort take_err 1) s = Ok () ∧
  tcp_bound_pcbs s' = Some 1%positive ∧ blocks s' !! 1%positive = None ∧ result_of tcp_new_port s' = Fail InvalidFree.
Proof. vm_compute. done. Qed.

(** Binding twice makes a list that runs in a circle: the search for a port
    does not end. *)
Example bind_twice_circles :
  let s := then_state (tcp_bind 1 (Some [10; 0; 0; 1]) 81) s_bound in
  result_of (tcp_bind 1 (Some [10; 0; 0; 1]) 81) s_bound = Ok ERR_OK ∧
  next <$> blocks s !! 1%positive = Some (Some 1%positive).
Proof. vm_compute. done. Qed.

(** A second connection, from port 1001, in front of the first one. *)
Definition segment_from (port seq ack f : Z) : list tbuf :=
  [mk_tbuf ([port / 256; port mod 256; 0; 80] ++ [0; 0; seq / 256; seq mod 256] ++ [0; 0; ack / 256; ack mod 256] ++ [80; f; 8; 0; 0; 0; 0; 0]) None 0 0].
Definition with_ticks (n : Z) (s : stack) : stack := s <| glob ::= λ g, g <| tcp_ticks := n |> |>.
Definition s_two : stack := then_state (input (segment_from 1001 999 0 TCP_SYN)) (with_ticks 107 s_open).
Example two_active : tcp_active_pcbs s_two = Some 4%positive ∧ next <$> blocks s_two !! 4%positive = Some (Some 3%positive).
Proof. vm_compute. done. Qed.

(** The poll callback of the first connection changes the list (it opens
    another connection): the loop starts again and skips the first one without
    noting it as the one in front, so it cannot remove the second one, whose
    retransmissions have failed. *)
Definition changing_poll (_ : positive) : TCP (bool * Z) := mret (true, ERR_OK).
Example slow_timer_loses_prev :
  let s := then_state (on_conn 3 (λ p, p <| nrtx := 12 |>)) (then_state (tcp_poll 4 (Some 4%positive) 0) s_two) in
  result_of (tcp_slowtmr take_err take_poll) s = Ok () ∧ result_of (tcp_slowtmr take_err changing_poll) s = Fail AssertFailure.
Proof. vm_compute. done. Qed.

(** The application closes the connection when it is offered refused data: the
    connection waits in [TIME_WAIT]; the reset that is processed next frees it
    there, and the next slow timer reads it. *)
Definition closing_recv (_ : positive) (_ : option (list tbuf)) : TCP Z := LwipTcpApi.tcp_close.
Definition closing_input (p : list tbuf) : ST () :=
  tcp_input closing_recv take_err take_sent take_conn take_conn ([101; 110], 0) [10; 0; 0; 2] [10; 0; 0; 1] false 0 p.
Example close_in_refused_data :
  let s := then_state (on_conn 3 (λ p, p <| refused_data := Some [mk_tbuf [1] None 0 0] |> <| rcv_wnd := 2047 |> <| cb_recv := Some 4%positive |>)) s_open in
  let s' := then_state (closing_input (segment 1000 6518 TCP_RST [])) s in
  result_of (closing_input (segment 1000 6518 TCP_RST [])) s = Ok () ∧
  tcp_tw_pcbs s' = Some 3%positive ∧ blocks s' !! 3%positive = None ∧ result_of (tcp_slowtmr take_err take_poll) s' = Fail InvalidFree.
Proof. vm_compute. done. Qed.

(** [tcp_listen] on a control block that listens: not [ERR_ALREADY]. *)
Example listen_twice : result_of (tcp_listen_with_backlog_and_err 2) s_listen = Fail AssertFailure.
Proof. vm_compute. done. Qed.

(** The connections are idle for 0 and 100 ticks; both have priority 64 or less,
    and the younger one goes, as it comes first and has a lower priority. *)
Example kill_prio_takes_young :
  let s := then_state (tcp_setprio 4 32) s_two in
  let s' := then_state (tcp_kill_prio take_err 64) s in
  (λ b, match the_body b with Conn p => Some (prio p, idle (tcp_ticks (glob s)) p) | Lsn _ => None end) <$> (blocks s !! 4%positive) = Some (Some (32, 0)) ∧
  (λ b, match the_body b with Conn p => Some (prio p, idle (tcp_ticks (glob s)) p) | Lsn _ => None end) <$> (blocks s !! 3%positive) = Some (Some (64, 100)) ∧
  next <$> blocks s' !! 4%positive = None ∧ next <$> blocks s' !! 3%positive = Some None.
Proof. vm_compute. done. Qed.

(** No memory for a connection and no accept callback: the default one aborts
    the null pointer. *)
Definition no_memory : PcbEnv := {| pcb_mem _ := false |}.
Example no_memory_null_accept :
  result_of (tcp_input (H0 := no_memory) take_recv take_err take_sent take_conn take_conn ([101; 110], 0) [10; 0; 0; 2] [10; 0; 0; 1] false 0
    (segment 999 0 TCP_SYN [])) s_listen = Fail NullPointer.
Proof. vm_compute. done. Qed.
