(* ===== verification/LwipTcpKept.v ===== *)
(** TCP of lwIP, what processing the data of a segment keeps: a predicate that
    the steps of [receive_data] keep holds when it returns. *)
From S2P Require Import Prelude.
From S2P Require Import LwipTcp.
From S2P Require Import LwipTcpOut.
From S2P Require Import LwipTcpIn.
From S2P Require Import LwipTcpSeq.

(** The predicate looks at what was sent, the next number to send, the state,
    the flags for the application and the segment's flags and acknowledgement;
    a FIN may be noted, and closes an open connection. *)
Record data_closed `{TcpEnv} (P : tcp → Prop) : Prop := {
  dc_same : ∀ s s', P s → sent s' = sent s → snd_nxt (pcb s') = snd_nxt (pcb s) → state (pcb s') = state (pcb s) →
    recv_flags s' = recv_flags s → flags s' = flags s → ackno s' = ackno s → P s';
  dc_fin : ∀ s, P s → P (s <| recv_flags ::= λ f, Z.lor f TF_GOT_FIN |>);
  dc_close : ∀ s, P s → state (pcb s) = ESTABLISHED → has (recv_flags s) TF_GOT_FIN = true →
    P (s <| pcb ::= λ p, p <| state := CLOSE_WAIT |> |>);
  dc_ack : ∀ s, P s → wlp tcp_send_empty_ack (λ _, P) s }.

Lemma wlp_on_pcb f (Q : () → tcp → Prop) s : Q () (s <| pcb ::= f |>) → wlp (on_pcb f) Q s.
Proof. apply wlp_modify. Qed.

Ltac tlp_step := lazymatch goal with |- wlp (on_pcb _) _ _ => apply wlp_on_pcb; cbv beta | |- _ => wlp_step end.

Section Kept.
Context `{TcpEnv} (P : tcp → Prop) (HP : data_closed P).

Lemma dc_pcb s f :
  P s → snd_nxt (f (pcb s)) = snd_nxt (pcb s) → state (f (pcb s)) = state (pcb s) → P (s <| pcb ::= f |>).
Proof using HP. intros. by apply (dc_same P HP s). Qed.

Ltac kept :=
  match goal with Hq : P ?s |- P _ =>
    apply (dc_same P HP s); [exact Hq|by get_set; unfold tcp_ack_now, tcp_ack, set_flag, clear_flag; repeat case_match; get_set..] end.

Lemma seg_copy_kept s : P s → wlp tcp_seg_copy (λ _, P) s.
Proof using HP. intros Hq. unfold tcp_seg_copy, ask. repeat wlp_step; kept. Qed.

Lemma oos_insert_kept prev l s : P s → wlp (oos_insert prev l) (λ _, P) s.
Proof using HP.
  intros Hq. unfold oos_insert. wlp_step. eapply wlp_mono; [by apply seg_copy_kept|]. intros c s1 Hq1.
  repeat wlp_step. destruct c; repeat wlp_step; done.
Qed.

Lemma oos_append_kept next s : P s → wlp (oos_append next) (λ _, P) s.
Proof using HP.
  intros Hq. unfold oos_append. wlp_step; [by wlp_step|]. wlp_step. eapply wlp_mono; [by apply seg_copy_kept|]. intros c s1 Hq1.
  repeat wlp_step. destruct c; repeat wlp_step; try done. unfold LWIP_ASSERT. repeat wlp_step. kept.
Qed.

Lemma oos_walk_kept l : ∀ prev s, P s → wlp (oos_walk prev l) (λ _, P) s.
Proof using HP.
  induction l as [|next rest IH]; intros prev s Hq; cbn [oos_walk]; [by wlp_step|]. do 4 wlp_step. repeat apply wlp_case.
  - wlp_step. eapply wlp_mono; [by apply oos_insert_kept|]. intros r s1 Hq1. by wlp_step.
  - by wlp_step.
  - by apply oos_insert_kept.
  - wlp_step. eapply wlp_mono; [by apply oos_append_kept|]. intros r s1 Hq1. by wlp_step.
  - wlp_step. eapply wlp_mono; [by apply IH|]. intros r s1 Hq1. by wlp_step.
Qed.

Lemma advance_kept n s : P s → wlp (advance n) (λ _, P) s.
Proof using HP.
  intros Hq. unfold advance, update_rcv_ann_wnd, LWIP_ASSERT, on_pcb. repeat wlp_step.
  assert (snd_nxt a.2 = snd_nxt (pcb s) ∧ state a.2 = state (pcb s)) as [E1 E2].
  { unfold tcp_update_rcv_ann_wnd in Elift. cbv zeta in Elift. repeat case_match; try done; injection Elift as <-; by get_set. }
  apply (dc_same P HP s); by get_set.
Qed.

(** A FIN of the queue. *)
Lemma fin_kept (f : bool) s :
  P s → wlp (if f then got_fin;; on_pcb (λ p, if bool_decide (state p = ESTABLISHED) then p <| state := CLOSE_WAIT |> else p) else mret ())
    (λ _, P) s.
Proof using HP.
  intros Hq. destruct f; [|by wlp_step]. unfold got_fin, on_pcb. repeat wlp_step. set (s1 := s <| recv_flags ::= _ |>).
  assert (P s1) as Hq1 by by apply (dc_fin P HP). destruct (decide (state (pcb s1) = ESTABLISHED)) as [E|E].
  - apply (dc_same P HP (s1 <| pcb ::= λ p, p <| state := CLOSE_WAIT |> |>)); try done; try (get_set; by rewrite bool_decide_eq_true_2).
    apply (dc_close P HP); [done..|]. subst s1. get_set. unfold TF_GOT_FIN.
    change 32 with (2 ^ 5). rewrite has_bit, Z.lor_spec, Z.pow2_bits_true by lia. by rewrite orb_true_r.
  - apply (dc_same P HP s1); get_set; try done; by rewrite bool_decide_eq_false_2.
Qed.

Lemma dequeue_ooseq_kept l : ∀ s, P s → wlp (dequeue_ooseq l) (λ _, P) s.
Proof using HP.
  induction l as [|cseg rest IH]; intros s Hq; cbn [dequeue_ooseq]; [by wlp_step|]. do 2 wlp_step. wlp_step; [|by wlp_step].
  do 5 tlp_step. eapply wlp_mono; [apply advance_kept; kept|]. intros [] s1 Hq1. cbv beta in Hq1.
  do 3 wlp_step. eapply wlp_mono; [apply fin_kept; kept|]. intros [] s2 Hq2. cbv beta in Hq2.
  do 2 tlp_step. apply IH. kept.
Qed.

Lemma receive_in_sequence_kept s : P s → wlp receive_in_sequence (λ _, P) s.
Proof using HP.
  intros Hq. unfold receive_in_sequence, on_pcb. do 10 wlp_step. cbv zeta. do 5 wlp_step.
  eapply wlp_mono; [apply advance_kept; kept|]. intros [] s1 Hq1. cbv beta in Hq1. wlp_step.
  eapply (wlp_mono _ (λ _, P)); [repeat wlp_step; kept|]. intros [] s2 Hq2. cbv beta in Hq2. wlp_step.
  eapply (wlp_mono _ (λ _, P)); [unfold got_fin; repeat wlp_step; [by apply (dc_fin P HP)|done]|].
  intros [] s3 Hq3. cbv beta in Hq3. do 3 wlp_step. eapply wlp_mono; [by apply dequeue_ooseq_kept|]. intros [] s4 Hq4. cbv beta in Hq4.
  wlp_step. kept.
Qed.

Lemma receive_out_of_sequence_kept s : P s → wlp receive_out_of_sequence (λ _, P) s.
Proof using HP.
  intros Hq. unfold receive_out_of_sequence, on_pcb. wlp_step. eapply wlp_mono; [by apply (dc_ack P HP)|].
  intros e s1 Hq1. cbv beta in Hq1. do 3 wlp_step.
  - wlp_step. eapply wlp_mono; [by apply seg_copy_kept|]. intros c s2 Hq2. cbv beta in Hq2. wlp_step. kept.
  - wlp_step. eapply wlp_mono; [by apply oos_walk_kept|]. intros c s2 Hq2. cbv beta in Hq2. wlp_step. kept.
Qed.

Lemma receive_data_kept s : P s → wlp receive_data (λ _, P) s.
Proof using HP.
  intros Hq. unfold receive_data, on_pcb. do 9 wlp_step. eapply (wlp_mono _ (λ _, P)).
  - repeat wlp_step; [kept|kept|done].
  - intros [] s1 Hq1. cbv beta in Hq1. do 2 wlp_step. repeat apply wlp_case.
    + by apply receive_in_sequence_kept.
    + by apply receive_out_of_sequence_kept.
    + wlp_step. eapply wlp_mono; [by apply (dc_ack P HP)|]. intros e s2 Hq2. by wlp_step.
Qed.

End Kept.
