(* ===== verification/LwipTcpRx.v ===== *)
(** TCP of lwIP, the data [tcp_receive] delivers.

    The peer sends a stream: a byte [S i] at every position, and a FIN at the
    position [F] if it ends.  Whatever pieces of it arrive, in whatever order,
    overlapping or repeated, the application gets the bytes of the stream in
    order and without gaps, and the queue of segments out of sequence keeps
    holding pieces of the stream in order and without overlap. *)
From S2P Require Import Prelude.
From S2P Require Import LwipTcp.
From S2P Require Import LwipTcpOut.
From S2P Require Import LwipTcpApi.
From S2P Require Import LwipTcpIn.
From S2P Require Import LwipTcpSeq.

(** * The queue of segments out of sequence *)

Section Queue.
Context {S : Z → Z} {F : option Z}.
Implicit Types (l : list tcp_seg) (s c : tcp_seg).

(** The segments of [l] lie between the positions [lo] and [hi], in order and
    without overlap. *)
Fixpoint queue_ok (lo hi : Z) (l : list tcp_seg) : Prop :=
  match l with
  | [] => True
  | s :: l => ∃ a, lo ≤ a ∧ seg_at S F a s ∧ 0 < TCP_TCPLEN s ∧ a + TCP_TCPLEN s ≤ hi ∧ queue_ok (a + TCP_TCPLEN s) hi l
  end.

Lemma queue_lo lo lo' hi l : lo' ≤ lo → queue_ok lo hi l → queue_ok lo' hi l.
Proof. destruct l as [|s l]; [done|]. intros ? (a & ? & H). exists a. split; [lia|done]. Qed.

Lemma queue_hi lo hi hi' l : hi ≤ hi' → queue_ok lo hi l → queue_ok lo hi' l.
Proof.
  revert lo. induction l as [|s l IH]; [done|]. intros lo ? (a & ? & ? & ? & ? & Hl). exists a. split_and!; try (done || lia). by apply IH.
Qed.

(** A segment with a FIN is the last one. *)
Lemma fin_last a s l lo hi :
  seg_at S F a s → is_fin s = true → a + TCP_TCPLEN s ≤ lo → queue_ok lo hi l → l = [].
Proof.
  intros Hs Hf Hlo Hq. destruct l as [|s2 l]; [done|]. destruct Hq as (b & Hb & Hs2 & Hl & _). exfalso.
  pose proof (sa_end _ _ _ _ Hs2 _ (sa_fin _ _ _ _ Hs Hf)). destruct (sa_tcplen _ _ Hs) as [E _]. rewrite Hf in E.
  pose proof (sa_len _ _ _ _ Hs2). cbn in E. lia.
Qed.

(** What a segment covers, dropped. *)
Lemma drop_covered_ok A c lo hi l :
  seg_at S F A c → queue_ok lo hi l → A ≤ lo → hi ≤ A + 1000000 →
  (A = lo → match l with s :: _ => seg_len s ≤ seg_len c | [] => True end) →
  let r := drop_covered (u32 A) c l in
  seg_at S F A r.1 ∧ seg_len r.1 = seg_len c ∧ (is_fin c = true → is_fin r.1 = true) ∧
  match r.2 with
  | [] => TCP_TCPLEN r.1 ≤ Z.max (TCP_TCPLEN c) (hi - A)
  | s :: l' => ∃ b, A < b ∧ seg_at S F b s ∧ A + seg_len c < b + seg_len s ∧ queue_ok b hi (s :: l') ∧ r.1 = c
  end.
Proof.
  revert c lo. induction l as [|s l IH]; intros c lo Hc Hq Hlo Hhi Heq; cbn [drop_covered].
  { cbn. split_and!; [done|done|done|lia]. }
  destruct Hq as (b & Hb & Hs & Hpos & Hbh & Hq). pose proof (sa_len _ _ _ _ Hc). pose proof (sa_len _ _ _ _ Hs).
  destruct (sa_tcplen _ _ Hs) as [El _]. destruct (sa_tcplen _ _ Hc) as [Ec _].
  rewrite (sa_seqno _ _ _ _ Hs). rewrite (seq_geq _ _ (A + seg_len c) (b + seg_len s)) by (unfold bit in *; destruct (is_fin s); lia).
  destruct (Z.geb_spec (A + seg_len c) (b + seg_len s)).
  - destruct (is_fin s) eqn:Ef.
    + rewrite (fin_last b s l _ hi Hs Ef (Z.le_refl _) Hq). cbn.
      pose proof (sa_fin _ _ _ _ Hs Ef) as HF. pose proof (sa_end _ _ _ _ Hc _ HF).
      assert (F = Some (A + seg_len c)) as HF' by (rewrite HF; f_equal; lia). pose proof (set_fin_at A c Hc HF') as Hc'.
      split_and!; [done|done|by rewrite is_fin_set|]. destruct (sa_tcplen _ _ Hc') as [-> _].
      rewrite is_fin_set. cbn in *. change (seg_len (set_fin c)) with (seg_len c). lia.
    + apply (IH c (b + TCP_TCPLEN s)); [done|done|lia|done|lia].
  - cbn. split_and!; [done|done|done|]. exists b. split_and!; [|done|lia| |done].
    + assert (A ≠ b); [|lia]. intros <-. specialize (Heq ltac:(lia)). lia.
    + exists b. split_and!; (done || lia).
Qed.
(** A segment before others that start with it or behind it. *)
Lemma oos_insert_segment_ok A c lo hi l :
  seg_at S F A c → 0 < TCP_TCPLEN c → A + TCP_TCPLEN c ≤ hi → queue_ok lo hi l → A ≤ lo → hi ≤ A + 1000000 →
  (A = lo → match l with s :: _ => seg_len s ≤ seg_len c | [] => True end) →
  ∃ l', tcp_oos_insert_segment (u32 A) c l = Ok l' ∧ queue_ok A hi l'.
Proof.
  intros Hc Hpos Hch Hq Hlo Hhi Heq. unfold tcp_oos_insert_segment. destruct (is_fin c) eqn:Ef.
  { eexists. split; [done|]. exists A. done. }
  destruct (drop_covered_ok A c lo hi l Hc Hq Hlo Hhi Heq) as (Hr & Hlr & _ & Hrest).
  destruct (sa_tcplen _ _ Hc) as [Ec _]. destruct (sa_tcplen _ _ Hr) as [Er _]. rewrite Ef in Ec. cbn in Ec.
  destruct (drop_covered (u32 A) c l) as [c' [|s l']]; cbn [fst snd] in *.
  - eexists. split; [done|]. exists A. unfold bit in Er. destruct (is_fin c'); (split_and!; [lia|done|lia|lia|done]).
  - destruct Hrest as (b & HAb & Hs & Hend & Hq' & ->). rewrite (sa_seqno _ _ _ _ Hs).
    pose proof (sa_len _ _ _ _ Hc). destruct (sa_tcplen _ _ Hs) as [Es _].
    assert (b + TCP_TCPLEN s ≤ hi) as Hsh.
    { destruct Hq' as (b' & Hb' & Hs' & _ & ? & _). pose proof (sa_len _ _ _ _ Hs). unfold bit in *. lia. }
    pose proof (sa_len _ _ _ _ Hs). assert (0 ≤ bit (is_fin s)) by (destruct (is_fin s); cbn; lia).
    rewrite (seq_gt _ _ (A + seg_len c) b) by lia. destruct (Z.gtb_spec (A + seg_len c) b).
    + destruct (trim_end_to A b c Hc ltac:(lia) Ef) as (c1 & E1 & Hc1 & Hl1 & Hh1). rewrite E1. cbn. eexists.
      split; [done|]. destruct (sa_tcplen _ _ Hc1) as [Ec1 _]. rewrite (is_fin_hdr _ _ Hh1), Ef in Ec1. cbn in Ec1.
      exists A. split_and!; [lia|done|lia|lia|]. by replace (A + TCP_TCPLEN c1) with b by lia.
    + eexists. split; [done|]. exists A. split_and!; [lia|done|lia|lia|]. eapply queue_lo; [|done]. lia.
Qed.
(** The same for the segment that is next in sequence. *)
Lemma prune_ok A c lo hi l :
  seg_at S F A c → queue_ok lo hi l → A < lo → hi ≤ A + 1000000 →
  let '(n, c', l') := prune_ooseq (u32 A) (TCP_TCPLEN c) c l in
  n = TCP_TCPLEN c' ∧ seg_at S F A c' ∧ TCP_TCPLEN c ≤ TCP_TCPLEN c' ≤ Z.max (TCP_TCPLEN c) (hi - A) ∧
  match l' with
  | [] => True
  | s :: _ => ∃ b, A < b ∧ seg_at S F b s ∧ A + TCP_TCPLEN c < b + seg_len s ∧ queue_ok b hi l' ∧ c' = c
  end.
Proof.
  revert c lo. induction l as [|s l IH]; intros c lo Hc Hq Hlo Hhi; cbn [prune_ooseq].
  { split_and!; (done || lia). }
  destruct Hq as (b & Hb & Hs & Hpos & Hbh & Hq). pose proof (sa_len _ _ _ _ Hc). pose proof (sa_len _ _ _ _ Hs).
  destruct (sa_tcplen _ _ Hs) as [El _]. destruct (sa_tcplen _ _ Hc) as [Ec _].
  pose proof (bit_range (is_fin s)). pose proof (bit_range (is_fin c)).
  rewrite (sa_seqno _ _ _ _ Hs). rewrite (seq_geq _ _ (A + TCP_TCPLEN c) (b + seg_len s)) by lia.
  destruct (Z.geb_spec (A + TCP_TCPLEN c) (b + seg_len s)).
  - rewrite (sa_syn _ _ _ _ Hc), andb_true_r. destruct (is_fin s) eqn:Ef.
    + rewrite (fin_last b s l _ hi Hs Ef (Z.le_refl _) Hq). cbn.
      pose proof (sa_fin _ _ _ _ Hs Ef) as HF. pose proof (sa_end _ _ _ _ Hc _ HF).
      assert (F = Some (A + seg_len c)) as HF'.
      { destruct (is_fin c) eqn:Efc; [exact (sa_fin _ _ _ _ Hc Efc)|]. rewrite HF. f_equal. cbn in *. lia. }
      pose proof (set_fin_at A c Hc HF') as Hc'. destruct (sa_tcplen _ _ Hc') as [E' ?].
      rewrite is_fin_set in E'. change (seg_len (set_fin c)) with (seg_len c) in E'. rewrite (u16_small) by lia.
      rewrite HF in HF'. injection HF' as HF'. cbn in *. split_and!; (done || lia).
    + apply (IH c (b + TCP_TCPLEN s)); (done || lia).
  - split_and!; try (done || lia). exists b. split_and!; try (done || lia). exists b. split_and!; (done || lia).
Qed.

Lemma merge_ooseq_ok A c hi l :
  seg_at S F A c → 0 < TCP_TCPLEN c → A + TCP_TCPLEN c ≤ hi → queue_ok (A + 1) hi l → hi ≤ A + 1000000 →
  ∃ c' l', merge_ooseq (u32 A) c l = Ok (c', l') ∧ seg_at S F A c' ∧ 0 < TCP_TCPLEN c' ∧ A + TCP_TCPLEN c' ≤ hi ∧
    queue_ok (A + TCP_TCPLEN c') hi l' ∧
    (TCP_TCPLEN c ≤ TCP_TCPLEN c' ∨
     ∃ s l2, l' = s :: l2 ∧ seg_at S F (A + TCP_TCPLEN c') s ∧ TCP_TCPLEN c < TCP_TCPLEN c' + seg_len s).
Proof.
  intros Hc Hpos Hch Hq Hhi. unfold merge_ooseq. destruct (is_fin c) eqn:Ef.
  { eexists _, _. split_and!; [done|done|lia|lia|done|by left]. }
  destruct (sa_tcplen _ _ Hc) as [Ec Hr]. rewrite Ef in Ec. cbn in Ec. rewrite u16_small by lia.
  pose proof (prune_ok A c (A + 1) hi l Hc Hq ltac:(lia) Hhi) as Hp.
  destruct (prune_ooseq (u32 A) (TCP_TCPLEN c) c l) as [[n c'] [|s l']]; destruct Hp as (-> & Hc' & Hn & Hrest).
  { eexists _, _. split_and!; [done|done|lia|lia|done|left; lia]. }
  destruct Hrest as (b & HAb & Hs & Hend & Hq' & ->). rewrite (sa_seqno _ _ _ _ Hs). rewrite (sa_syn _ _ _ _ Hc).
  destruct (Hq') as (b' & Hb' & Hs' & Hp' & Hbh & Hq2). pose proof (sa_len _ _ _ _ Hs). pose proof (sa_len _ _ _ _ Hc).
  destruct (sa_tcplen _ _ Hs) as [Es _]. pose proof (bit_range (is_fin s)).
  rewrite (seq_gt _ _ (A + TCP_TCPLEN c) b) by lia. destruct (Z.gtb_spec (A + TCP_TCPLEN c) b).
  - rewrite trim_end_u16. destruct (trim_end_to A b c Hc ltac:(lia) Ef) as (c1 & -> & Hc1 & Hl1 & Hh1). cbn.
    destruct (sa_tcplen _ _ Hc1) as [Ec1 _]. rewrite (is_fin_hdr _ _ Hh1), Ef in Ec1. cbn in Ec1.
    rewrite (u32_eqb _ _ (A + TCP_TCPLEN c1) b) by lia. rewrite (proj2 (Z.eqb_eq _ _)) by lia.
    eexists _, _. replace (A + TCP_TCPLEN c1) with b by lia. split_and!; [done|done|lia|lia|exact Hq'|]. right.
    exists s, l'. split_and!; [done|done|lia].
  - eexists _, _. split_and!; [done|done|lia|lia|eapply queue_lo; [|done]; lia|by left].
Qed.
End Queue.

(** * Calls that only ask, or only send *)

Lemma wp_assert (b : bool) (Q : () → tcp → Prop) s : b = true → Q () s → wp (LWIP_ASSERT b) Q s.
Proof. intros -> ?. by apply wp_ret. Qed.
Lemma wp_on_pcb f (Q : () → tcp → Prop) s : Q () (s <| pcb ::= f |>) → wp (on_pcb f) Q s.
Proof. apply wp_modify. Qed.
Lemma wp_ask {A} (f : nat → A) (Q : A → tcp → Prop) s :
  Q (f (ncalls s)) (s <| ncalls := S (ncalls s) |>) → wp (ask f) Q s.
Proof. intros H. unfold ask. by wps. Qed.

Ltac tcp_step :=
  lazymatch goal with
  | |- wp (ask _) _ _ => apply wp_ask
  | |- wp (on_pcb _) _ _ => apply wp_on_pcb
  | |- _ => wp_step
  end; cbv beta.
Ltac tcps := repeat tcp_step; get_set.

(** [v s' = v s], for a function [v] that clears some fields, says that all the
    others are the same; [same E f] is the equation for the field [f]. *)
Ltac same E f := let E' := fresh "Hsame" in pose proof (f_equal f E) as E'; cbv beta in E'; get_set_in E'.

(** What sending an acknowledgement changes. *)
Definition ack_view (s : tcp) : tcp :=
  s <| pcb ::= λ p, p <| pcb_flags := 0 |> <| rcv_ann_right_edge := 0 |> |> <| sent := [] |> <| ncalls := 0%nat |>.

Definition acked (s s' : tcp) : Prop :=
  ack_view s' = ack_view s ∧
  (rcv_ann_right_edge (pcb s') = rcv_ann_right_edge (pcb s) ∨
   rcv_ann_right_edge (pcb s') = u32 (rcv_nxt (pcb s) + rcv_ann_wnd (pcb s))).

Section Rx.
Context `{TcpEnv}.

Lemma send_empty_ack_ok s : wp tcp_send_empty_ack (λ _, acked s) s.
Proof.
  unfold tcp_send_empty_ack, tcp_output_alloc_header, send_header, ip_output, set_flag, clear_flag. tcps.
  destruct (pbuf_mem _); tcps; [|by split; [|left]]. destruct (ip_route _); tcps; [|by split; [|right]].
  destruct (negb _); (split; [reflexivity|by right]).
Qed.

(** ** Queueing a segment *)

Context {S : Z → Z} {F : option Z}.
Abbreviation queue := (queue_ok (S := S) (F := F)).

Definition asked (s s' : tcp) : Prop := ∃ k, s' = s <| ncalls := k |>.

Lemma asked_trans s s1 s2 : asked s s1 → asked s1 s2 → asked s s2.
Proof. intros [k ->] [k' ->]. by exists k'. Qed.
Lemma asked_refl s : asked s s.
Proof. exists (ncalls s). by destruct s. Qed.

Lemma seg_copy_ok s : wp tcp_seg_copy (λ c s', asked s s' ∧ (c = None ∨ c = Some (inseg s))) s.
Proof. unfold tcp_seg_copy. tcps. split; [by eexists|]. destruct (seg_mem _); auto. Qed.

Definition opt_list {A} (o : option A) : list A := match o with Some a => [a] | None => [] end.

(** The segment being processed: it starts at [A] and ends within the window,
    which ends at [hi]. *)
Record incoming (A hi : Z) (s : tcp) : Prop := {
  in_seg : seg_at S F A (inseg s);
  in_seqno : seqno s = u32 A;
  in_tcplen : tcplen s = TCP_TCPLEN (inseg s);
  in_pos : 0 < tcplen s;
  in_end : A + tcplen s ≤ hi;
  in_near : hi ≤ A + 1000000;
  in_window : ∃ R, rcv_nxt (pcb s) = u32 R ∧ hi = R + rcv_wnd (pcb s) }.

Lemma incoming_asked A hi s s' : incoming A hi s → asked s s' → incoming A hi s'.
Proof. intros [? ? ? ? ? ? ?] [k ->]. by split; get_set. Qed.

(** The segment before the place, which the new one may overlap. *)
Definition before (lo0 A lo hi : Z) (prev : option tcp_seg) : Prop :=
  match prev with
  | None => lo0 ≤ lo
  | Some pv => ∃ b, lo0 ≤ b < A ∧ seg_at S F b pv ∧ 0 < TCP_TCPLEN pv ∧ b + TCP_TCPLEN pv ≤ lo ∧ b + TCP_TCPLEN pv ≤ hi
  end.

Lemma before_queue lo0 A lo hi prev l : before lo0 A lo hi prev → queue lo hi l → queue lo0 hi (opt_list prev ++ l).
Proof.
  destruct prev as [pv|]; cbn; [|intros; by eapply queue_lo].
  intros (b & ? & ? & ? & ? & ?) Hq. exists b. split_and!; try (done || lia). eapply queue_lo; [|done]. lia.
Qed.

Lemma queue_tail lo hi o l : queue lo hi (opt_list o ++ l) → queue lo hi l.
Proof. destruct o as [s|]; [|done]. intros (a & ? & ? & ? & ? & Hq). eapply queue_lo; [|done]. lia. Qed.

Lemma oos_insert_ok s A lo lo0 hi prev l :
  incoming A hi s → queue lo hi l → A ≤ lo → lo0 ≤ A → A - 1000000 ≤ lo0 →
  (A = lo → match l with s' :: _ => seg_len s' ≤ seg_len (inseg s) | [] => True end) →
  before lo0 A lo hi prev → (∀ pv, prev = Some pv → is_fin pv = false) →
  wp (oos_insert prev l) (λ r s', asked s s' ∧ queue lo0 hi (opt_list r.1 ++ r.2)) s.
Proof.
  intros Hin Hq Hlo Hlo0 Hnear Heq Hprev Hnf. unfold oos_insert. apply wp_bind.
  eapply wp_mono; [apply seg_copy_ok|]. intros c s1 [Has [->| ->]].
  { tcps. split; [done|]. by eapply before_queue. }
  destruct (incoming_asked _ _ _ _ Hin Has) as [Hc Hsq _ _ _ _ _]. destruct Hin as [_ _ Htl Hpos Hend Hhi _].
  assert (inseg s1 = inseg s) as Ei by (by destruct Has as [k ->]). rewrite Ei in *. rewrite Htl in *.
  destruct (oos_insert_segment_ok A (inseg s) lo hi l Hc Hpos Hend Hq Hlo Hhi Heq) as (l' & El & Hq').
  tcps. rewrite Hsq. destruct prev as [pv|]; cbn [before] in Hprev.
  - destruct Hprev as (b & Hb & Hpv & Hppos & _ & _). pose proof (sa_len _ _ _ _ Hpv). pose proof (sa_len _ _ _ _ Hc).
    destruct (sa_tcplen _ _ Hpv) as [Epv _]. rewrite (Hnf pv eq_refl) in Epv. cbn in Epv.
    rewrite (sa_seqno _ _ _ _ Hpv). rewrite (seq_gt _ _ (b + seg_len pv) A) by lia.
    destruct (Z.gtb_spec (b + seg_len pv) A).
    + destruct (trim_end_to b A pv Hpv ltac:(lia) (Hnf pv eq_refl)) as (p1 & -> & Hp1 & Hl1 & Hh1).
      eapply wp_lift; [done|]. cbv beta. tcps. eapply wp_lift; [exact El|]. tcps. split; [done|]. cbn.
      destruct (sa_tcplen _ _ Hp1) as [E1 _]. rewrite (is_fin_hdr _ _ Hh1), (Hnf pv eq_refl) in E1. cbn in E1.
      exists b. split_and!; [lia|done|lia|lia|]. by replace (b + TCP_TCPLEN p1) with A by lia.
    + eapply wp_lift; [done|]. tcps. eapply wp_lift; [exact El|]. tcps. split; [done|]. cbn.
      exists b. split_and!; [lia|done|lia|lia|]. eapply queue_lo; [|done]. lia.
  - eapply wp_lift; [done|]. tcps. eapply wp_lift; [exact El|]. tcps. split; [done|]. cbn. eapply queue_lo; [|done]. lia.
Qed.

Lemma oos_append_ok s A hi next b :
  incoming A hi s → seg_at S F b next → 0 < TCP_TCPLEN next → b < A → b + TCP_TCPLEN next ≤ hi → A - 1000000 ≤ b →
  wp (oos_append next) (λ l s', asked s s' ∧ queue b hi l) s.
Proof.
  intros Hin Hn Hpos HbA Hnh Hnear. assert (queue b hi [next]) as Hq1 by (exists b; split_and!; (done || lia)).
  unfold oos_append. destruct (is_fin next) eqn:Ef; [tcps; split; [apply asked_refl|done]|].
  apply wp_bind. eapply wp_mono; [apply seg_copy_ok|]. intros c s1 [Has [->| ->]]; [by tcps|].
  destruct (incoming_asked _ _ _ _ Hin Has) as [_ Hsq Htl _ _ _ (R & HR & Hhi)]. destruct Hin as [Hc _ Htl0 Hp0 Hend Hnr _].
  assert (inseg s1 = inseg s) as Ei by (by destruct Has as [k ->]). rewrite Ei in *. rewrite Htl0 in *.
  pose proof (sa_len _ _ _ _ Hn). pose proof (sa_len _ _ _ _ Hc). destruct (sa_tcplen _ _ Hn) as [En _].
  rewrite Ef in En. cbn in En. destruct (sa_tcplen _ _ Hc) as [Ec _].
  tcps. rewrite Hsq, (sa_seqno _ _ _ _ Hn), Htl, HR. rewrite (seq_gt (u32 b + _) _ (b + seg_len next) A) by lia.
  assert (∃ n1, (if b + seg_len next >? A then trim_end (u32 A - u32 b) next else Ok next) = Ok n1 ∧
    seg_at S F b n1 ∧ 0 < TCP_TCPLEN n1 ∧ b + TCP_TCPLEN n1 ≤ A) as (n1 & E1 & Hn1 & Hp1 & Hb1).
  { destruct (Z.gtb_spec (b + seg_len next) A); [|exists next; split_and!; (done || lia)].
    destruct (trim_end_to b A next Hn ltac:(lia) Ef) as (n1 & -> & Hn1 & Hl1 & Hh1). exists n1.
    destruct (sa_tcplen _ _ Hn1) as [E1 _]. rewrite (is_fin_hdr _ _ Hh1), Ef in E1. cbn in E1. split_and!; (done || lia). }
  eapply wp_lift; [exact E1|]. cbv beta. rewrite (seq_gt _ _ (TCP_TCPLEN (inseg s) + A) (R + rcv_wnd (pcb s1))) by lia.
  destruct (Z.gtb_spec (TCP_TCPLEN (inseg s) + A) (R + rcv_wnd (pcb s1))); [lia|]. tcps. split; [done|].
  exists b. split_and!; [lia|done|done|lia|]. exists A. split_and!; [lia|done|done|lia|done].
Qed.

Lemma oos_walk_ok l : ∀ s A hi lo lo0 prev,
  incoming A hi s → queue lo hi l → lo0 ≤ A → A - 1000000 ≤ lo0 → lo0 ≤ lo → before lo0 A lo hi prev →
  (∀ pv, prev = Some pv → l ≠ [] → is_fin pv = false) →
  wp (oos_walk prev l) (λ r s', asked s s' ∧ queue lo0 hi (opt_list r.1 ++ r.2)) s.
Proof.
  induction l as [|next rest IH]; intros s A hi lo lo0 prev Hin Hq Hlo0 Hnear Hlo Hprev Hnf; cbn [oos_walk].
  { tcps. split; [apply asked_refl|]. by apply (before_queue _ A lo). }
  pose proof Hin as [Hc Hsq Htl Hpos Hend Hhi _]. pose proof Hq as (a & Ha & Hn & Hnpos & Hnh & Hrest).
  tcps. rewrite Hsq, (sa_seqno _ _ _ _ Hn). pose proof (sa_len _ _ _ _ Hn). destruct (sa_tcplen _ _ Hn) as [En _].
  pose proof (sa_len _ _ _ _ Hc). destruct (sa_tcplen _ _ Hc) as [Ec _]. pose proof (bit_range (is_fin next)).
  assert (∀ r, queue a hi r → queue lo0 hi (opt_list prev ++ r)) as Hback.
  { intros r Hr. apply (before_queue _ A lo); [done|]. eapply queue_lo; [|done]. lia. }
  assert (queue a hi (next :: rest)) as Hq_a by (exists a; split_and!; (done || lia)).
  rewrite (u32_eqb A a A a) by lia. destruct (Z.eqb_spec A a) as [->|Hne].
  { destruct (Z.gtb_spec (seg_len (inseg s)) (seg_len next)); [|tcps; split; [apply asked_refl|by apply Hback]].
    apply wp_bind. eapply wp_mono; [apply (oos_insert_ok s a a a hi None); try (done || lia); cbn; lia|].
    intros [o l'] s1 [Has Hq']. tcps. split; [done|]. apply Hback. by eapply queue_tail. }
  destruct (match prev with None => _ | Some prev => _ end) eqn:Eplace.
  { assert (A < a) as HAa.
    { destruct prev as [pv|]; [destruct Hprev as (b & Hb & Hpv & _); rewrite (sa_seqno _ _ _ _ Hpv) in Eplace;
        rewrite (seq_between _ _ _ A (b + 1) (a - 1)) in Eplace by lia; lia|].
      rewrite (seq_lt _ _ A a) in Eplace by lia. lia. }
    apply (oos_insert_ok s A a lo0 hi prev); try (done || lia); [|intros pv Epv; by apply Hnf].
    destruct prev as [pv|]; cbn in *; [|lia]. destruct Hprev as (b & ? & ? & ? & ? & ?). exists b. split_and!; (done || lia). }
  assert (a < A) as HaA.
  { destruct prev as [pv|]; [destruct Hprev as (b & Hb & Hpv & _); rewrite (sa_seqno _ _ _ _ Hpv) in Eplace;
      rewrite (seq_between _ _ _ A (b + 1) (a - 1)) in Eplace by lia; lia|].
    rewrite (seq_lt _ _ A a) in Eplace by lia. lia. }
  destruct (bool_decide (rest = []) && _).
  - apply wp_bind. eapply wp_mono; [apply (oos_append_ok s A hi next a); (done || lia)|].
    intros l' s1 [Has Hq']. tcps. split; [done|by apply Hback].
  - apply wp_bind. eapply wp_mono; [apply (IH s A hi (a + TCP_TCPLEN next) a (Some next)); try (done || lia)|].
    + exists a. split_and!; (done || lia).
    + intros pv [= <-] Hr. destruct (is_fin next) eqn:Ef; [|done]. by rewrite (fin_last _ _ _ _ _ Hn Ef (Z.le_refl _) Hrest) in Hr.
    + intros [o l'] s1 [Has Hq']. tcps. split; [done|]. apply Hback. by destruct o.
Qed.

(** ** The receive window *)

(** The receiver at the position [R] of the stream: its window, the queue
    within it, and the edge last announced, which is not beyond the window
    and at most [D] behind. *)
Record rcv_ok (D R : Z) (p : tcp_pcb) : Prop := {
  ro_nxt : rcv_nxt p = u32 R;
  ro_wnd : 0 ≤ rcv_wnd p ≤ TCP_WND;
  ro_ann : 0 ≤ rcv_ann_wnd p ≤ rcv_wnd p;
  ro_edge : ∃ E, rcv_ann_right_edge p = u32 E ∧ R - D ≤ E ≤ R + rcv_wnd p;
  ro_lag : 0 ≤ D;
  ro_mss : 0 ≤ mss p < 65536;
  ro_ooseq : queue (R + 1) (R + rcv_wnd p) (ooseq p) }.

(** The fields of a connection that receiving data does not change. *)
Definition rx_view (p : tcp_pcb) : tcp_pcb :=
  p <| rcv_nxt := 0 |> <| rcv_wnd := 0 |> <| rcv_ann_wnd := 0 |> <| rcv_ann_right_edge := 0 |> <| ooseq := [] |>
    <| pcb_flags := 0 |> <| state := CLOSED |>.

(** The announced window is that of [tcp_update_rcv_ann_wnd]: the whole window
    if that moves the edge far enough, else up to the old edge. *)
Lemma update_rcv_ann_wnd_ok D R E p :
  rcv_nxt p = u32 R → 0 ≤ rcv_wnd p ≤ TCP_WND → rcv_ann_right_edge p = u32 E → R - D ≤ E ≤ R + rcv_wnd p →
  0 ≤ D < 1100000000 → 0 ≤ mss p < 65536 →
  let n := if R + rcv_wnd p >=? E + Z.min 1024 (mss p) then rcv_wnd p else Z.max 0 (E - R) in
  ∃ k, tcp_update_rcv_ann_wnd p = Ok (k, p <| rcv_ann_wnd := n |>) ∧ 0 ≤ n ≤ rcv_wnd p.
Proof.
  intros HR Hw HE HER HD Hm. unfold tcp_update_rcv_ann_wnd. rewrite HR, HE. change (TCP_WND / 2) with 1024.
  change TCP_WND with 2048 in *. pose proof (Z.le_min_l 1024 (mss p)). pose proof (Z.min_glb 1024 (mss p) 0 ltac:(lia) ltac:(lia)).
  rewrite (seq_geq _ _ (R + rcv_wnd p) (E + Z.min 1024 (mss p))), (seq_gt _ _ R E) by lia.
  destruct (Z.geb_spec (R + rcv_wnd p) (E + Z.min 1024 (mss p))); [eexists; split; [done|lia]|].
  destruct (Z.gtb_spec R E).
  - rewrite Z.max_l by lia. eexists. split; [done|lia].
  - rewrite (at_eq (a := u32 E - u32 R) (x := E - R)), Z.max_r by lia. rewrite u32_small, u16_small by lia.
    destruct (Z.leb_spec (E - R) 65535); [|lia]. eexists. split; [done|lia].
Qed.

(** [rcv_nxt] has moved to [R]; the window closes by [n]. *)
Lemma advance_ok n D R E s :
  rcv_nxt (pcb s) = u32 R → 0 ≤ n ≤ rcv_wnd (pcb s) → rcv_wnd (pcb s) ≤ TCP_WND →
  rcv_ann_right_edge (pcb s) = u32 E → R - D ≤ E ≤ R + rcv_wnd (pcb s) - n → 0 ≤ D < 1100000000 → 0 ≤ mss (pcb s) < 65536 →
  wp (advance n) (λ _ s', ∃ w, s' = s <| pcb ::= λ p, p <| rcv_wnd ::= λ w, w - n |> <| rcv_ann_wnd := w |> |> ∧
    0 ≤ w ≤ rcv_wnd (pcb s) - n) s.
Proof.
  intros HR Hn Hw HE HER HD Hm. unfold advance, update_rcv_ann_wnd. tcps. apply wp_assert; [lia|]. tcps.
  destruct (update_rcv_ann_wnd_ok D R E (pcb s <| rcv_wnd ::= λ w, w - n |>)) as (k & Ek & Hk);
    [get_set; (done || lia)..|]. get_set_in Hk.
  eapply wp_lift; [exact Ek|]. tcps. eexists. split; [reflexivity|exact Hk].
Qed.

End Rx.
