(* ===== verification/LwipTcpDeliver.v ===== *)
(** TCP of lwIP, delivery: the segment that is next in sequence, the segments
    of the queue that follow it, and a segment out of sequence. *)
From S2P Require Import Prelude.
From S2P Require Import LwipTcp.
From S2P Require Import LwipTcpOut.
From S2P Require Import LwipTcpApi.
From S2P Require Import LwipTcpIn.
From S2P Require Import LwipTcpSeq.
From S2P Require Import LwipTcpRx.

(** * Delivery *)

Definition data_of (d : option (list tbuf)) : list Z := match d with Some p => bytes p | None => [] end.

(** The state without what receiving data changes. *)
Definition rx_all (s : tcp) : tcp :=
  s <| pcb ::= rx_view |> <| seqno := 0 |> <| recv_data := None |> <| recv_flags := 0 |> <| tcplen := 0 |>
    <| inseg := mk_seg None 0 0 (mk_hdr 0 0 0 0 0 0) |> <| sent := [] |> <| ncalls := 0%nat |>.

Lemma rx_all_pcb s f : (∀ p, rx_view (f p) = rx_view p) → rx_all (s <| pcb ::= f |>) = rx_all s.
Proof.
  intros E. change (rx_all (s <| pcb ::= f |>)) with (rx_all (s <| pcb := f (pcb s) |>)).
  transitivity (rx_all s <| pcb := rx_view (f (pcb s)) |>); [reflexivity|]. rewrite E.
  unfold rx_all. generalize (rx_view) as v. intros v. reflexivity.
Qed.
Lemma rx_all_seqno s f : rx_all (s <| seqno ::= f |>) = rx_all s.
Proof. reflexivity. Qed.
Lemma rx_all_recv_data s f : rx_all (s <| recv_data ::= f |>) = rx_all s.
Proof. reflexivity. Qed.
Lemma rx_all_recv_flags s f : rx_all (s <| recv_flags ::= f |>) = rx_all s.
Proof. reflexivity. Qed.
Lemma rx_all_tcplen s f : rx_all (s <| tcplen ::= f |>) = rx_all s.
Proof. reflexivity. Qed.
Lemma rx_all_inseg s f : rx_all (s <| inseg ::= f |>) = rx_all s.
Proof. reflexivity. Qed.
Lemma rx_all_ncalls s f : rx_all (s <| ncalls ::= f |>) = rx_all s.
Proof. reflexivity. Qed.
Lemma rx_all_sent s f : rx_all (s <| sent ::= f |>) = rx_all s.
Proof. reflexivity. Qed.
Create Rewrite HintDb rx.
#[export] Hint Rewrite rx_all_seqno rx_all_recv_data rx_all_recv_flags rx_all_tcplen rx_all_inseg rx_all_ncalls rx_all_sent : rx.
#[export] Hint Rewrite rx_all_pcb using (intros; try case_bool_decide; reflexivity) : rx.

Section Deliver.
Context `{TcpEnv} {S : Z → Z} {F : option Z}.
Abbreviation queue := (queue_ok (S := S) (F := F)).
Abbreviation rcv_ok := (rcv_ok (S := S) (F := F)).
Abbreviation incoming := (incoming (S := S) (F := F)).

(** From [s] to [s'] the stream was delivered from [R1] to [R2], with its FIN
    if [f]. *)
Record delivered (R1 R2 : Z) (f : bool) (s s' : tcp) : Prop := {
  de_le : R1 + bit f ≤ R2;
  de_nxt : rcv_nxt (pcb s') = u32 R2;
  de_wnd : rcv_wnd (pcb s') = rcv_wnd (pcb s) - (R2 - R1);
  de_ann : 0 ≤ rcv_ann_wnd (pcb s') ≤ rcv_wnd (pcb s');
  de_data : data_of (recv_data s') = data_of (recv_data s) ++ span S R1 (R2 - R1 - bit f);
  de_fin : f = true → F = Some (R2 - 1);
  de_flags : recv_flags s' = if f then Z.lor (recv_flags s) TF_GOT_FIN else recv_flags s;
  de_state : state (pcb s') = state (pcb s) ∨ (state (pcb s') = CLOSE_WAIT ∧ f = true);
  de_frame : rx_all s' = rx_all s }.

Lemma delivered_trans R0 R1 R2 f1 f2 s s1 s2 :
  delivered R0 R1 f1 s s1 → delivered R1 R2 f2 s1 s2 → (f1 = true → R2 = R1 ∧ f2 = false) →
  delivered R0 R2 (f1 || f2) s s2.
Proof.
  intros [A1 A2 A3 A4 A6 A7 A8 A9 A10] [B1 B2 B3 B4 B6 B7 B8 B9 B10] Hf.
  assert (R2 - 1 = R1 - 1 ∨ f1 = false) as Hc by (destruct f1; [left; destruct (Hf eq_refl); lia|by right]).
  split; try congruence; try lia.
  - pose proof (bit_range f1). pose proof (bit_range f2). destruct f1; cbn in *; lia.
  - rewrite B6, A6, <- app_assoc. f_equal. destruct f1; [destruct (Hf eq_refl) as [-> ->]|]; cbn [orb bit].
    + rewrite (span_nil _ R1) by (cbn; lia). by rewrite app_nil_r.
    + pose proof (bit_range f2). cbn in A1. replace (R2 - R0 - bit f2) with (R1 - R0 + (R2 - R1 - bit f2)) by lia.
      rewrite span_app by lia. cbn. rewrite Z.sub_0_r. do 2 f_equal. lia.
  - destruct f1; [destruct (Hf eq_refl) as [-> ->]; auto|done].
  - rewrite B8, A8. destruct f1; [by destruct (Hf eq_refl) as [_ ->]|done].
  - destruct B9 as [->|[-> ->]]; [|right; by rewrite orb_true_r]. destruct A9 as [->|[-> ->]]; auto.
Qed.

Lemma delivered_refl R s :
  rcv_nxt (pcb s) = u32 R → 0 ≤ rcv_ann_wnd (pcb s) ≤ rcv_wnd (pcb s) → delivered R R false s s.
Proof.
  intros. split; cbn; try (done || lia); [|by left]. rewrite span_nil by lia. by rewrite app_nil_r.
Qed.

Lemma deliver_bytes c d : (∃ bufs, seg_p c = Some bufs) → data_of (deliver c d) = data_of d ++ data_of (seg_p c).
Proof.
  intros [bufs Hp]. unfold deliver, has_data, tot_len. rewrite Hp. destruct (Z.gtb_spec (zlen (bytes bufs)) 0).
  - destruct d; cbn; [apply bytes_app|done].
  - cbn. destruct (bytes bufs); [by rewrite app_nil_r|len_lia].
Qed.

(** One segment of the stream, delivered. *)
Lemma deliver_one R c s s' :
  seg_at S F R c → rcv_nxt (pcb s') = u32 (R + TCP_TCPLEN c) → rcv_wnd (pcb s') = rcv_wnd (pcb s) - TCP_TCPLEN c →
  0 ≤ rcv_ann_wnd (pcb s') ≤ rcv_wnd (pcb s') →
  recv_data s' = deliver c (recv_data s) →
  recv_flags s' = (if is_fin c then Z.lor (recv_flags s) TF_GOT_FIN else recv_flags s) →
  state (pcb s') = state (pcb s) ∨ (state (pcb s') = CLOSE_WAIT ∧ is_fin c = true) → rx_all s' = rx_all s →
  delivered R (R + TCP_TCPLEN c) (is_fin c) s s'.
Proof.
  intros Hc Hn Hw Ha Hd Hf Hst Hfr. destruct (sa_tcplen _ _ Hc) as [Ec _]. pose proof (sa_len _ _ _ _ Hc).
  destruct (sa_bytes _ _ _ _ Hc) as (bufs & Hp & _ & Hb).
  split; try (done || lia).
  - rewrite Hd, deliver_bytes by eauto. rewrite Hp. cbn. rewrite Hb. do 2 f_equal. lia.
  - intros Ef. rewrite (sa_fin _ _ _ _ Hc Ef). rewrite Ef in Ec. cbn in Ec. f_equal. lia.
Qed.

(** The queue from its first segment on, as far as it is next in sequence. *)
Lemma dequeue_ok l : ∀ s D R E lo,
  rcv_nxt (pcb s) = u32 R → ooseq (pcb s) = l → queue lo (R + rcv_wnd (pcb s)) l → R ≤ lo →
  0 ≤ rcv_ann_wnd (pcb s) ≤ rcv_wnd (pcb s) → rcv_wnd (pcb s) ≤ TCP_WND → 0 ≤ mss (pcb s) < 65536 →
  rcv_ann_right_edge (pcb s) = u32 E → R - D ≤ E ≤ R + rcv_wnd (pcb s) → 0 ≤ D → D + rcv_wnd (pcb s) < 1100000000 →
  wp (dequeue_ooseq l) (λ _ s', ∃ R' f, delivered R R' f s s' ∧
    rcv_ann_right_edge (pcb s') = rcv_ann_right_edge (pcb s) ∧ queue (R' + 1) (R + rcv_wnd (pcb s)) (ooseq (pcb s')) ∧
    (l = [] → f = false ∧ R' = R) ∧ (∀ c l', l = c :: l' → seg_at S F R c → R + TCP_TCPLEN c ≤ R')) s.
Proof.
  induction l as [|c rest IH]; intros s D R E lo HR Hoo Hq Hlo Hann Hw Hm HE HER HD HDw; cbn [dequeue_ooseq].
  { tcps. exists R, false. split_and!; [by apply delivered_refl|done|by rewrite Hoo|done|done]. }
  destruct Hq as (a & Ha & Hc & Hpos & Hch & Hq). pose proof (sa_len _ _ _ _ Hc). destruct (sa_tcplen _ _ Hc) as [Ec ?].
  change TCP_WND with 2048 in *. tcps. rewrite HR, (sa_seqno _ _ _ _ Hc), (u32_eqb a R a R) by lia.
  destruct (Z.eqb_spec a R) as [->|Hne].
  2:{ tcps. exists R, false. split_and!; [by apply delivered_refl|done| |done|].
      - rewrite Hoo. exists a. split_and!; (done || lia).
      - intros c' l' [= <- <-] Hc'. exfalso. apply Hne. pose proof (sa_seqno _ _ _ _ Hc') as E1.
        rewrite (sa_seqno _ _ _ _ Hc) in E1. apply Z.eqb_eq in E1. rewrite (u32_eqb a R a R) in E1 by lia. lia. }
  tcps. eapply wp_mono; [apply (advance_ok _ (D + TCP_TCPLEN c) (R + TCP_TCPLEN c) E); get_set; try (done || lia)|].
  { rewrite HR. by rewrite (at_u32_eq (u32 R + TCP_TCPLEN c) (R + TCP_TCPLEN c)). }
  cbv beta. intros _ s1 (w & -> & Hwr). get_set_in Hwr. tcps.
  assert (∀ s3, delivered R (R + TCP_TCPLEN c) (is_fin c) s s3 → ooseq (pcb s3) = rest →
    rcv_ann_right_edge (pcb s3) = rcv_ann_right_edge (pcb s) → wp (dequeue_ooseq rest)
    (λ _ s', ∃ R' f, delivered R R' f s s' ∧ rcv_ann_right_edge (pcb s') = rcv_ann_right_edge (pcb s) ∧
      queue (R' + 1) (R + rcv_wnd (pcb s)) (ooseq (pcb s')) ∧ (c :: rest = [] → f = false ∧ R' = R) ∧
      (∀ c' l', c :: rest = c' :: l' → seg_at S F R c' → R + TCP_TCPLEN c' ≤ R')) s3) as Hgo.
  { intros s3 Hd3 Hoo3 He3. pose proof Hd3 as [_ Hn3 Hw3 Ha3 _ _ _ _ Hfr]. same Hfr (λ t, mss (pcb t)).
    replace (R + TCP_TCPLEN c - R) with (TCP_TCPLEN c) in Hw3 by lia. change (mss (pcb s3) = mss (pcb s)) in Hsame.
    assert (R + TCP_TCPLEN c + rcv_wnd (pcb s3) = R + rcv_wnd (pcb s)) as Eh by lia.
    eapply wp_mono.
    - apply (IH s3 (D + TCP_TCPLEN c) (R + TCP_TCPLEN c) E (R + TCP_TCPLEN c)); rewrite ?Eh, ?He3, ?Hsame; try (done || lia).
    - intros _ s4 (R' & f & Hd & He4 & Hq' & Hnil & Hc0). rewrite Eh in Hq'. exists R', (is_fin c || f).
      split_and!; [|congruence|done|done|intros ? ? [= <- <-] _; pose proof (de_le _ _ _ _ _ Hd); pose proof (bit_range f); lia].
      eapply delivered_trans; [done|done|]. intros Ef.
      destruct (Hnil (fin_last _ _ _ _ _ Hc Ef (Z.le_refl _) Hq)) as [-> ->]. done. }
  unfold got_fin. destruct (is_fin c) eqn:Ef; tcps; (apply Hgo; [|done|get_set; try case_bool_decide; by get_set]); rewrite <- Ef; apply deliver_one; rewrite ?Ef;
    try (autorewrite with rx; reflexivity);
    get_set; try (done || lia || by left); try (case_bool_decide; get_set; try (done || lia || by auto));
    try (rewrite HR; by rewrite (at_u32_eq (u32 R + TCP_TCPLEN c) (R + TCP_TCPLEN c))).
Qed.

Lemma tcp_ack_flags p : ∃ n, tcp_ack p = p <| pcb_flags := n |>.
Proof. unfold tcp_ack, set_flag, clear_flag. case_if; eexists; reflexivity. Qed.

Lemma delivered_flags R1 R2 f s s' n :
  delivered R1 R2 f s s' → delivered R1 R2 f s (s' <| pcb ::= λ p, p <| pcb_flags := n |> |>).
Proof. intros [? ? ? ? ? ? ? ? ?]. split; done. Qed.

(** * The segment that is next in sequence *)

(** The receiver went from [R] to some [R'], at least [n] further. *)
Definition received (D R n : Z) (s s' : tcp) : Prop :=
  ∃ R' f, delivered R R' f s s' ∧ rcv_ok (D + (R' - R)) R' (pcb s') ∧ R + n ≤ R'.

(** After its first segment [c] the queue [l]. *)
Lemma dequeue_rest_ok D R c l n s s3 :
  rcv_ok D R (pcb s) → D < 1000000000 → seg_at S F R c → queue (R + TCP_TCPLEN c) (R + rcv_wnd (pcb s)) l →
  (n ≤ TCP_TCPLEN c ∨ ∃ s2 l2, l = s2 :: l2 ∧ seg_at S F (R + TCP_TCPLEN c) s2 ∧ n < TCP_TCPLEN c + seg_len s2) →
  delivered R (R + TCP_TCPLEN c) (is_fin c) s s3 → ooseq (pcb s3) = l →
  rcv_ann_right_edge (pcb s3) = rcv_ann_right_edge (pcb s) →
  wp (p ← gets pcb; dequeue_ooseq (ooseq p);; on_pcb tcp_ack) (λ _, received D R n s) s3.
Proof.
  intros [HR Hw Ha (E & HE & HER) HD Hm Hq] HD2 Hc Hql Hprog Hd3 Hoo3 He3. assert (TCP_WND = 2048) as HW by done.
  pose proof Hd3 as [_ Hn3 Hw3 Ha3 _ _ _ _ Hfr]. same Hfr (λ t, mss (pcb t)).
  change (mss (pcb s3) = mss (pcb s)) in Hsame. destruct (sa_tcplen _ _ Hc) as [Ec ?].
  assert (R + TCP_TCPLEN c + rcv_wnd (pcb s3) = R + rcv_wnd (pcb s)) as Eh by lia. tcps. rewrite Hoo3. eapply wp_mono.
  { apply (dequeue_ok l s3 (D + TCP_TCPLEN c) (R + TCP_TCPLEN c) E (R + TCP_TCPLEN c));
      rewrite ?Eh, ?He3, ?Hsame; (done || lia). }
  intros _ s4 (R' & f & Hd & He4 & Hq4 & Hnil & Hc0). rewrite Eh in Hq4. tcps. destruct (tcp_ack_flags (pcb s4)) as [k En].
  assert (delivered R R' (is_fin c || f) s s4) as Hd4.
  { eapply delivered_trans; [done|done|]. intros Ef. destruct (Hnil (fin_last _ _ _ _ _ Hc Ef (Z.le_refl _) Hql)). done. }
  exists R', (is_fin c || f). change (s4 <| pcb ::= tcp_ack |>) with (s4 <| pcb := tcp_ack (pcb s4) |>). rewrite En.
  split; [by apply delivered_flags|]. pose proof Hd4 as [Hle Hn4 Hw4 Ha4 _ _ _ _ Hfr4]. same Hfr4 (λ t, mss (pcb t)).
  change (mss (pcb s4) = mss (pcb s)) in Hsame0. pose proof (bit_range (is_fin c || f)). split.
  - split; get_set; rewrite ?Hsame0, ?He4, ?He3; try (done || lia); [exists E; split; [done|lia]|].
    by replace (R' + rcv_wnd (pcb s4)) with (R + rcv_wnd (pcb s)) by lia.
  - destruct Hprog as [?|(c2 & l2 & -> & Hc2 & ?)]; [pose proof (de_le _ _ _ _ _ Hd); pose proof (bit_range f); lia|].
    specialize (Hc0 c2 l2 eq_refl Hc2). destruct (sa_tcplen _ _ Hc2) as [E2 _]. pose proof (bit_range (is_fin c2)). lia.
Qed.

Lemma receive_in_sequence_ok s D R :
  rcv_ok D R (pcb s) → D < 1000000000 → seqno s = u32 R → seg_at S F R (inseg s) → 0 < TCP_TCPLEN (inseg s) →
  TCP_TCPLEN (inseg s) ≤ rcv_wnd (pcb s) → recv_data s = None →
  wp receive_in_sequence (λ _, received D R (TCP_TCPLEN (inseg s)) s) s.
Proof.
  intros Hok HD2 Hsq Hc Hpos Hcw Hrd. pose proof Hok as [HR Hw Ha (E & HE & HER) HD Hm Hq].
  assert (TCP_WND = 2048) as HW by done.
  destruct (merge_ooseq_ok (S := S) (F := F) R (inseg s) (R + rcv_wnd (pcb s)) (ooseq (pcb s))) as
    (c & l & Em & Hc' & Hp' & Hh' & Hq' & Hprog); [done|done|lia|done|lia|].
  destruct (sa_tcplen _ _ Hc') as [Ec ?]. unfold receive_in_sequence. tcps.
  eapply wp_lift; [unfold trim_to_window; destruct (Z.gtb_spec (TCP_TCPLEN (inseg s)) (rcv_wnd (pcb s))); [lia|reflexivity]|].
  cbv beta. tcps. rewrite Hsq. eapply wp_lift; [exact Em|]. cbv beta. cbn [fst snd]. rewrite u16_small by lia. tcps.
  rewrite (at_u32_eq (u32 R + TCP_TCPLEN c) (R + TCP_TCPLEN c)).
  eapply wp_mono; [apply (advance_ok _ (D + TCP_TCPLEN c) (R + TCP_TCPLEN c) E); get_set; (done || lia)|].
  cbv beta. intros _ s1 (w & -> & Hwr). get_set_in Hwr. tcps.
  assert (∀ s3, recv_data s3 = deliver c None → pcb s3 = pcb s <| ooseq := l |> <| rcv_nxt := u32 (R + TCP_TCPLEN c) |>
    <| rcv_wnd ::= λ w0, w0 - TCP_TCPLEN c |> <| rcv_ann_wnd := w |> → recv_flags s3 = recv_flags s → rx_all s3 = rx_all s →
    wp ((if is_fin c then got_fin else mret ());; p ← gets pcb; dequeue_ooseq (ooseq p);; on_pcb tcp_ack)
      (λ _, received D R (TCP_TCPLEN (inseg s)) s) s3) as Hfin.
  { intros s3 Hd3 Hp3 Hf3 Hr3. unfold got_fin. destruct (is_fin c) eqn:Ef; (apply wp_bind); tcp_step.
    all: (apply (dequeue_rest_ok D R c l); try done; [rewrite Ef, <- Ef; apply deliver_one; rewrite ?Ef| |]);
      try (autorewrite with rx; exact Hr3); get_set; rewrite ?Hp3, ?Hd3, ?Hf3, ?Hrd; get_set; (done || lia || by left). }
  destruct (has_data c) eqn:Eh; tcp_step; apply Hfin; try (by autorewrite with rx); get_set; unfold deliver;
    by rewrite ?Eh.
Qed.

(** * A segment out of sequence *)

(** An acknowledgement was sent at most, and the queue changed. *)
Lemma acked_ok D R s s1 k l :
  rcv_ok D R (pcb s) → acked s s1 → queue (R + 1) (R + rcv_wnd (pcb s)) l →
  let s2 := s1 <| ncalls := k |> <| pcb ::= λ p, p <| ooseq := l |> |> in
  delivered R R false s s2 ∧ rcv_ok D R (pcb s2).
Proof.
  intros [HR Hw Ha (E & HE & HER) HD Hm Hq] [Hv Hedge] Hl. unfold ack_view in Hv. same Hv (λ t, rcv_nxt (pcb t)). same Hv (λ t, rcv_wnd (pcb t)).
  same Hv (λ t, rcv_ann_wnd (pcb t)). same Hv (λ t, mss (pcb t)). same Hv (λ t, recv_data t). same Hv (λ t, recv_flags t).
  same Hv (λ t, state (pcb t)). pose proof (f_equal rx_all Hv) as Hfr.   autorewrite with rx in Hfr. split.
  - split; try (by autorewrite with rx); get_set; rewrite ?Hsame, ?Hsame0, ?Hsame1, ?Hsame3; cbn [bit]; try (done || lia || by left).
    rewrite span_nil by lia. by rewrite app_nil_r.
  - split; get_set; rewrite ?Hsame, ?Hsame0, ?Hsame1, ?Hsame2; try (done || lia).
    destruct Hedge as [-> | ->]; [by exists E|]. exists (R + rcv_ann_wnd (pcb s)). rewrite HR. split; [|lia].
    by rewrite (at_u32_eq (u32 R + rcv_ann_wnd (pcb s)) (R + rcv_ann_wnd (pcb s))).
Qed.

End Deliver.
