(* ===== verification/LwipTcpStream.v ===== *)
(** TCP of lwIP, the stream: whatever segments arrive, the application gets a
    prefix of the stream. *)
From S2P Require Import Prelude.
From S2P Require Import LwipTcp.
From S2P Require Import LwipTcpOut.
From S2P Require Import LwipTcpApi.
From S2P Require Import LwipTcpIn.
From S2P Require Import LwipTcpProcess.
From S2P Require Import LwipTcpExamples.
From S2P Require Import LwipTcpSeq.
From S2P Require Import LwipTcpRx.
From S2P Require Import LwipTcpDeliver.

Section Stream.
Context `{TcpEnv} {S : Z → Z} {F : option Z}.
Abbreviation queue := (queue_ok (S := S) (F := F)).
Abbreviation rcv_ok := (rcv_ok (S := S) (F := F)).
Abbreviation incoming := (incoming (S := S) (F := F)).

Abbreviation delivered := (delivered (F := F) (S := S)).

Lemma incoming_acked A hi s s' : incoming A hi s → acked s s' → incoming A hi s' ∧ ooseq (pcb s') = ooseq (pcb s).
Proof.
  intros [Hc Hsq Hl Hp He Hn (R & HR & Hhi)] [Hv _]. unfold ack_view in Hv. same Hv inseg. same Hv seqno. same Hv tcplen.
  same Hv (λ t, rcv_nxt (pcb t)). same Hv (λ t, rcv_wnd (pcb t)). same Hv (λ t, ooseq (pcb t)).
  split; [|done]. split; rewrite ?Hsame, ?Hsame0, ?Hsame1; try done. exists R. by rewrite Hsame2, Hsame3.
Qed.

Lemma receive_out_of_sequence_ok s D R A :
  rcv_ok D R (pcb s) → incoming A (R + rcv_wnd (pcb s)) s → R < A →
  wp receive_out_of_sequence (λ _ s', delivered R R false s s' ∧ rcv_ok D R (pcb s')) s.
Proof.
  intros Hok Hin HRA. unfold receive_out_of_sequence. apply wp_bind. eapply wp_mono; [apply send_empty_ack_ok|].
  intros e s1 Hack. destruct (incoming_acked _ _ _ _ Hin Hack) as [Hin1 Hoo]. tcps. case_bool_decide as Hnil.
  - apply wp_bind. eapply wp_mono; [apply seg_copy_ok|]. intros c s2 [[k ->] Hc]. tcps. apply (acked_ok _ _ _ _ k); [done..|].
    destruct Hc as [->| ->]; [done|]. pose proof Hin1 as [Hc1 _ Hl Hp He _ _]. exists A. rewrite Hl in *.
    split_and!; (done || lia).
  - apply wp_bind. eapply wp_mono.
    + apply (oos_walk_ok (S := S) (F := F) (ooseq (pcb s1)) s1 A (R + rcv_wnd (pcb s)) (R + 1) (R + 1) None); try (done || lia).
      * rewrite Hoo. apply (ro_ooseq _ _ _ Hok).
      * destruct Hin as [_ _ _ ? ? ? (R' & _ & ?)]. pose proof (ro_wnd _ _ _ Hok). change TCP_WND with 2048 in *. lia.
      * cbn. lia.
    + intros [o l] s2 [[k ->] Hl]. tcps. apply (acked_ok _ _ _ _ k); [done..|]. by eapply queue_tail.
Qed.

(** A segment that was received before. *)
Lemma old_ok D R s s1 :
  rcv_ok D R (pcb s) → (∃ k, s1 = s <| pcb ::= λ p, p <| pcb_flags := k |> |>) →
  wp tcp_send_empty_ack (λ _ s', delivered R R false s s' ∧ rcv_ok D R (pcb s')) s1.
Proof.
  intros Hok [k ->]. eapply wp_mono; [apply send_empty_ack_ok|]. intros e s2 [Hv He].
  assert (acked s s2) as Ha by (split; [exact Hv|exact He]).
  pose proof (acked_ok D R s s2 (ncalls s2) (ooseq (pcb s2)) Hok Ha) as Hr. cbv beta zeta in Hr.
  replace (s2 <| ncalls := _ |> <| pcb ::= _ |>) with s2 in Hr by (by destruct s2 as [[]]). apply Hr.
  unfold ack_view in Hv. same Hv (λ t, ooseq (pcb t)). rewrite Hsame. apply (ro_ooseq _ _ _ Hok).
Qed.

Lemma delivered_from R1 R2 f s0 s s' :
  delivered R1 R2 f s0 s' → pcb s0 = pcb s → recv_data s0 = recv_data s → recv_flags s0 = recv_flags s →
  rx_all s0 = rx_all s → delivered R1 R2 f s s'.
Proof. intros [? ? ? ? ? ? ? ? ?] Hp Hd Hf Hr. rewrite Hp, Hd, Hf, Hr in *. by split. Qed.

(** A segment of the stream at [A], as [tcp_receive] finds it. *)
Record arrived (D R A : Z) (s : tcp) : Prop := {
  ar_seg : seg_at S F A (inseg s);
  ar_seqno : seqno s = u32 A;
  ar_tcplen : tcplen s = TCP_TCPLEN (inseg s);
  ar_pos : 0 < tcplen s;
  ar_end : A + tcplen s ≤ R + rcv_wnd (pcb s);
  ar_near : R - 1000000000 ≤ A;
  ar_lag : D < 1000000000;
  ar_overlap : R < A + tcplen s → R - A < 32767;
  ar_none : recv_data s = None }.

Lemma receive_data_ok s D R A :
  rcv_ok D R (pcb s) → arrived D R A s →
  wp receive_data (λ _ s', ∃ R' f, delivered R R' f s s' ∧ rcv_ok (D + (R' - R)) R' (pcb s') ∧
    (A ≤ R → A + tcplen s ≤ R')) s.
Proof.
  intros Hok [Hc Hsq Hl Hpos Hend Hnear HD Hov Hrd]. pose proof Hok as [HR Hw _ _ _ _ _]. change TCP_WND with 2048 in *.
  destruct (sa_tcplen _ _ Hc) as [Ec ?]. pose proof (bit_range (is_fin (inseg s))). rewrite Hl in *.
  unfold receive_data. tcps. rewrite HR, Hsq, Hl.
  rewrite (seq_between _ _ _ R (A + 1) (A + TCP_TCPLEN (inseg s) - 1)), (seq_lt _ _ A R) by lia.
  destruct (decide (A < R < A + TCP_TCPLEN (inseg s))) as [Hin|Hout].
  - replace ((R >=? A + 1) && _) with true by lia. replace (u32 R) with (u32 (A + (R - A))) at 1 by (f_equal; lia).
    destruct (trim_start_at A (inseg s) (R - A) Hc) as (seg & Et & Hseg & Hlen & Hfl); [lia..|].
    replace (A + (R - A)) with R in Hseg by lia. destruct (sa_tcplen _ _ Hseg) as [Es _].
    assert (is_fin seg = is_fin (inseg s)) as Ef by (unfold is_fin; by rewrite Hfl). rewrite Ef in Es.
    tcps. eapply wp_lift; [exact Et|]. tcps. rewrite Z.eqb_refl.
    rewrite (seq_between _ _ _ R R (R + rcv_wnd (pcb s) - 1)) by lia. replace ((R >=? R) && _) with true by lia.
    eapply wp_mono; [apply (receive_in_sequence_ok (S := S) (F := F) _ D R); get_set; (done || lia)|].
    intros _ s' (R' & f & Hd & Hok' & Hp). get_set_in Hp. exists R', f. split_and!; [|done|lia].
    eapply delivered_from; [exact Hd|done..|]. by autorewrite with rx.
  - replace ((R >=? A + 1) && _) with false by lia. 
    destruct (Z.ltb_spec A R) as [Hlt|Hge].
    + tcps. rewrite Hsq, (seq_between _ _ _ A R (R + rcv_wnd (pcb s) - 1)) by lia.
      replace ((A >=? R) && _) with false by lia. apply wp_bind. eapply wp_mono; [apply (old_ok D R s); [done|]|].
      { exists (pcb_flags (tcp_ack_now (pcb s))). reflexivity. }
      intros _ s' [Hd Hok']. tcps. exists R, false. replace (D + (R - R)) with D by lia. split_and!; (done || lia).
    + tcps. rewrite Hsq, (seq_between _ _ _ A R (R + rcv_wnd (pcb s) - 1)) by lia.
      replace ((A >=? R) && _) with true by lia. rewrite (u32_eqb R A R A) by lia. destruct (Z.eqb_spec R A) as [->|Hne].
      * eapply wp_mono; [apply (receive_in_sequence_ok (S := S) (F := F) _ D A); (done || lia)|].
        intros _ s' (R' & f & Hd & Hok' & Hp). exists R', f. split_and!; (done || lia).
      * eapply wp_mono; [apply (receive_out_of_sequence_ok _ D R A); [done| |lia]|].
        { split; rewrite ?Hl; try (done || lia). by exists R. }
        intros _ s' [Hd Hok']. exists R, false. replace (D + (R - R)) with D by lia. split_and!; (done || lia).
Qed.

End Stream.

(** (C16) A segment with a piece of the stream of the peer, at any place within
    the window, repeated, overlapping or early, is handled without a fault: the
    application gets the bytes of the stream from where it stands on, in order
    and without gaps, the FIN exactly where the stream ends; [rcv_nxt] and the
    window move by as much; the queue of segments out of sequence keeps holding
    pieces of the stream in order; and if the segment begins at or before the
    next byte all of it is delivered. *)
Theorem receive_data_delivers `{TcpEnv} S F D R A s :
  rcv_ok (S := S) (F := F) D R (pcb s) → arrived (S := S) (F := F) D R A s →
  wp receive_data (λ _ s', ∃ R' f, R + bit f ≤ R' ∧ (A ≤ R → A + tcplen s ≤ R') ∧
    data_of (recv_data s') = span S R (R' - R - bit f) ∧ (f = true → F = Some (R' - 1)) ∧
    recv_flags s' = (if f then Z.lor (recv_flags s) TF_GOT_FIN else recv_flags s) ∧
    rcv_nxt (pcb s') = u32 R' ∧ rcv_wnd (pcb s') = rcv_wnd (pcb s) - (R' - R) ∧
    rcv_ok (S := S) (F := F) (D + (R' - R)) R' (pcb s') ∧ rx_all s' = rx_all s) s.
Proof.
  intros Hok Har. eapply wp_mono; [by apply (receive_data_ok s D R A Hok Har)|].
  intros _ s' (R' & f & [? ? ? ? Hd ? ? ? ?] & ? & ?). rewrite (ar_none _ _ _ _ Har) in Hd. exists R', f. by split_and!.
Qed.

(** Four bytes, of which the first two were there before. *)
Definition four_arrive : tcp := arrive (peer_seg 998 500 TCP_ACK [98; 99; 100; 101]) open_conn.

Lemma receive_data_delivers_witness :
  ∃ s' R', receive_data (H := good_env) four_arrive = Ok ((), s') ∧ 1002 ≤ R' ∧ data_of (recv_data s') = span (λ i, i - 900) 1000 (R' - 1000).
Proof.
  destruct (receive_data_delivers (H := good_env) (λ i, i - 900) None 0 1000 998 four_arrive) as ([] & s' & E & R' & f & _ & Hr & Hd & Hf & _).
  - split; [done|done|done|by exists 3048|done..].
  - split; [|done..]. split; [done|eexists; split; [reflexivity|done]|done..].
  - exists s', R'. split; [done|]. split; [apply Hr; done|]. destruct f; [discriminate (Hf eq_refl)|].
    cbn [bit] in Hd. by rewrite Z.sub_0_r in Hd.
Defined.
