(* ===== verification/LwipTcpOptions.v ===== *)
(** TCP of lwIP, options: the parser stops, and finds the maximum segment size
    a reading of the option bytes as a list finds, however the packet cuts
    them into two buffers. *)
From S2P Require Import Prelude.
From S2P Require Import NetBytes.
From S2P Require Import LwipTcp.
From S2P Require Import LwipTcpOut.
From S2P Require Import LwipTcpIn.
From S2P Require Import LwipTcpProcess.
From S2P Require Import LwipTcpExamples.
From S2P Require Import LwipTcpSeq.
From S2P Require Import LwipTcpRx.

(** * Options as a list of bytes (RFC 793, 3.1)

    End of options, no operation, maximum segment size, others with their
    length; what does not fit ends the list. *)
Definition offered_mss (hi lo : Z) : Z := let m := hi * 256 + lo in if (m >? TCP_MSS) || (m =? 0) then TCP_MSS else m.

Fixpoint mss_of (fuel : nat) (l : list Z) (m : Z) : Z :=
  match fuel with
  | O => m
  | S fuel =>
      match l with
      | [] => m
      | kind :: rest =>
          if kind =? LWIP_TCP_OPT_EOL then m
          else if kind =? LWIP_TCP_OPT_NOP then mss_of fuel rest m
          else
            match rest with
            | [] => m
            | len :: data =>
                if kind =? LWIP_TCP_OPT_MSS then
                  match data with
                  | hi :: lo :: rest => if len =? LWIP_TCP_OPT_LEN_MSS then mss_of fuel rest (offered_mss hi lo) else m
                  | _ => m
                  end
                else if len <? 2 then m
                else mss_of fuel (drop (Z.to_nat (len - 2)) data) m
            end
      end
  end.

(** The byte [tcp_getoptbyte] reads at an index. *)
Definition opt_byte (s : tcp) (i : Z) : result Z :=
  match tcphdr_opt2 s with
  | Some o2 => if i <? tcphdr_opt1len s then arr_get (tcphdr_opt1 s) i else arr_get o2 (u8 (i - tcphdr_opt1len s))
  | None => arr_get (tcphdr_opt1 s) i
  end.

(** The option bytes of the segment are [bs], and one byte behind them can be
    read ([LwipTcpFaults.option_read_overruns]). *)
Record options (bs : list Z) (s : tcp) : Prop := {
  on_len : tcphdr_optlen s = zlen bs;
  on_max : zlen bs ≤ 40;
  on_bytes : bytes_ok bs;
  on_read : ∀ i x, bs !! i = Some x → opt_byte s (Z.of_nat i) = Ok x;
  on_behind : ∃ x, opt_byte s (zlen bs) = Ok x ∧ byte_ok x }.

(** What the parser changes. *)
Definition parsed (m : Z) (s s' : tcp) : Prop := ∃ i, s' = s <| tcp_optidx := i |> <| pcb ::= λ p, p <| mss := m |> |>.

Lemma getoptbyte_ok s i x :
  tcp_optidx s = i → opt_byte s i = Ok x → 0 ≤ i < 65535 → wp tcp_getoptbyte (λ y s', y = x ∧ s' = s <| tcp_optidx := i + 1 |>) s.
Proof.
  intros <- Ex Hi. unfold tcp_getoptbyte. tcps. rewrite u16_small by lia. unfold opt_byte in Ex.
  destruct (tcphdr_opt2 s); [destruct (_ <? _)|]; (eapply wp_lift; [exact Ex|done]).
Qed.

Lemma options_parsed bs m s s' : options bs s → parsed m s s' → options bs s'.
Proof. intros [? ? ? ? ?] [i ->]. by split. Qed.
Lemma parsed_trans m m' s s1 s2 : parsed m s s1 → parsed m' s1 s2 → parsed m' s s2.
Proof. intros [i ->] [j ->]. exists j. reflexivity. Qed.
Lemma parsed_idx s i : parsed (mss (pcb s)) s (s <| tcp_optidx := i |>).
Proof. exists i. by destruct s as [[]]. Qed.

Lemma parsed_same s : parsed (mss (pcb s)) s s.
Proof. exists (tcp_optidx s). by destruct s as [[]]. Qed.

(** The bytes [l] of [bs] are left. *)
Definition left_over (bs l : list Z) (s : tcp) : Prop :=
  (∃ k, bs = k ++ l ∧ tcp_optidx s = zlen k) ∨ (l = [] ∧ zlen bs ≤ tcp_optidx s < 65536).

(** The next byte is read. *)
Lemma next_ok bs x l s :
  options bs s → left_over bs (x :: l) s →
  wp tcp_getoptbyte (λ y s', y = x ∧ byte_ok x ∧ options bs s' ∧ left_over bs l s' ∧ tcp_optidx s' = tcp_optidx s + 1 ∧
    parsed (mss (pcb s)) s s') s.
Proof.
  intros Ho [(k & Eb & Ei)|[? _]]; [|done]. pose proof (on_max _ _ Ho) as Hmax. rewrite Eb in Hmax.
  eapply wp_mono; [apply (getoptbyte_ok s (zlen k) x Ei)|].
  - apply (on_read _ _ Ho (length k)). rewrite Eb. by apply list_lookup_middle.
  - len_lia.
  - intros y s' [-> ->]. split; [done|]. split.
    { pose proof (on_bytes _ _ Ho) as Hb. rewrite Eb in Hb. apply Forall_app in Hb as [_ Hb]. exact (Forall_inv Hb). }
    pose proof (parsed_idx s (zlen k + 1)) as Hp. split; [by eapply options_parsed|]. split; [|split; [by rewrite Ei|done]].
    left. exists (k ++ [x]). rewrite <- app_assoc. split; [done|]. get_set. len_lia.
Qed.

(** A byte behind the last one is read. *)
Lemma behind_ok bs s :
  options bs s → tcp_optidx s = zlen bs →
  wp tcp_getoptbyte (λ y s', byte_ok y ∧ tcp_optidx s' = zlen bs + 1 ∧ options bs s' ∧ parsed (mss (pcb s)) s s') s.
Proof.
  intros Ho Ei. destruct (on_behind _ _ Ho) as (x & Ex & Hx). pose proof (on_max _ _ Ho) as Hmax.
  eapply wp_mono; [apply (getoptbyte_ok s (zlen bs) x Ei Ex); len_lia|].
  intros y s' [-> ->]. split; [done|]. split; [by get_set|]. pose proof (parsed_idx s (zlen bs + 1)). split; [by eapply options_parsed|done].
Qed.

Lemma left_over_idx bs l s : left_over bs l s → l ≠ [] → zlen bs = tcp_optidx s + zlen l.
Proof. intros [(k & -> & ->)|[-> _]] ?; [len_lia|done]. Qed.

(** An option of unknown kind is stepped over. *)
Lemma skip_data_ok bs data len s : options bs s → left_over bs data s → zlen bs = tcp_optidx s + zlen data → 2 ≤ len < 256 →
  left_over bs (drop (Z.to_nat (len - 2)) data) (s <| tcp_optidx ::= λ i, u16 (i + len - 2) |>).
Proof.
  intros Ho Hl Hz Hlen. pose proof (on_max _ _ Ho). get_set. assert (0 ≤ tcp_optidx s) as Hi.
  { destruct Hl as [(k & _ & ->)|[_ ?]]; len_lia. }
  unfold left_over. get_set. rewrite u16_small by len_lia.
  destruct (decide (len - 2 ≤ zlen data)).
  - left. destruct Hl as [(k & -> & Ek)|[-> Hge]].
    + exists (k ++ take (Z.to_nat (len - 2)) data). rewrite <- app_assoc, take_drop. split; [done|].
      unfold zlen in *. rewrite length_app, length_take. lia.
    + exists bs. cbn in *. assert (len = 2) as -> by len_lia. split; [by rewrite app_nil_r|]. len_lia.
  - right. split; [apply drop_ge; unfold zlen in *; lia|]. len_lia.
Qed.
Lemma mss_word hi lo : byte_ok hi → byte_ok lo → Z.lor (u16 (Z.shiftl hi 8)) lo = hi * 256 + lo.
Proof.
  unfold byte_ok. intros. rewrite Z.shiftl_mul_pow2, u16_small by lia. change (2 ^ 8) with 256.
  rewrite <- (Z.add_0_l (hi * 256)), <- (Z.add_0_r lo), (Z.mul_comm hi 256). change 0 with (256 * 0) at 2.
  rewrite lor_byte_split by lia. rewrite Z.lor_0_l, Z.lor_0_r. lia.
Qed.

Lemma mss_of_nil fuel m : mss_of fuel [] m = m.
Proof. by destruct fuel. Qed.

Lemma parsed_set_idx m s s1 f : parsed m s s1 → parsed m s (s1 <| tcp_optidx ::= f |>).
Proof. intros [i ->]. exists (f i). reflexivity. Qed.

Lemma parsed_mss s s' m : parsed m s s' → mss (pcb s') = m.
Proof. intros [i ->]. by get_set. Qed.

(** What the turns that follow do with the bytes that are left. *)
Definition goes_on (fuel : nat) (bs : list Z) (s : tcp) : Prop := ∀ m s1 l, parsed m s s1 → options bs s1 →
  left_over bs l s1 → (length l < fuel)%nat → wp (parseopt_loop fuel) (λ _ s', parsed (mss_of fuel l m) s s') s1.

(** The last byte is the kind of an option that has a length: it is read from
    behind the options, and nothing comes of it. *)
Lemma last_kind_ok bs fuel kind s s1 :
  options bs s → goes_on fuel bs s → (0 < fuel)%nat → options bs s1 → parsed (mss (pcb s)) s s1 → tcp_optidx s1 = zlen bs →
  wp (if kind =? LWIP_TCP_OPT_MSS then
        len ← tcp_getoptbyte; i ← gets tcp_optidx;
        if negb (len =? LWIP_TCP_OPT_LEN_MSS) || (i - 2 + LWIP_TCP_OPT_LEN_MSS >? zlen bs) then mret ()
        else
          hi ← tcp_getoptbyte; lo ← tcp_getoptbyte;
          let m := Z.lor (u16 (Z.shiftl hi 8)) lo in
          on_pcb (λ p, p <| mss := if (m >? TCP_MSS) || (m =? 0) then TCP_MSS else m |>);; parseopt_loop fuel
      else
        len ← tcp_getoptbyte;
        if len <? 2 then mret () else modify (λ s, s <| tcp_optidx ::= λ i, u16 (i + len - 2) |>);; parseopt_loop fuel)
    (λ _ s', parsed (mss (pcb s)) s s') s1.
Proof.
  intros Ho Hgo Hf Ho1 Hp1 Eb1. pose proof (parsed_mss _ _ _ Hp1) as Em1.
  assert (∀ (k : Z → TCP ()), (∀ y s2, byte_ok y → tcp_optidx s2 = zlen bs + 1 → options bs s2 → parsed (mss (pcb s)) s s2 →
    wp (k y) (λ _ s', parsed (mss (pcb s)) s s') s2) → wp (tcp_getoptbyte ≫= k) (λ _ s', parsed (mss (pcb s)) s s') s1) as Hread.
  { intros k Hkk. apply wp_bind. eapply wp_mono; [by apply (behind_ok bs s1)|]. intros y s2 (Hy & Ei2 & Ho2 & Hp2).
    apply Hkk; try done. rewrite Em1 in Hp2. by eapply parsed_trans. }
  destruct (kind =? LWIP_TCP_OPT_MSS); apply Hread; intros y s2 Hy Ei2 Ho2 Hp2.
  - tcps. rewrite Ei2. replace (zlen bs + 1 - 2 + LWIP_TCP_OPT_LEN_MSS >? zlen bs) with true
      by (unfold LWIP_TCP_OPT_LEN_MSS; lia).
    rewrite orb_true_r. by apply wp_ret.
  - destruct (Z.ltb_spec y 2); [by apply wp_ret|]. apply wp_bind, wp_modify. rewrite <- (mss_of_nil fuel (mss (pcb s))).
    pose proof (on_max _ _ Ho). unfold byte_ok in Hy. pose proof (parsed_set_idx _ _ _ (λ i, u16 (i + y - 2)) Hp2) as Hp3.
    apply Hgo; [done|by destruct Ho2| |cbn in *; lia].
    right. split; [done|]. get_set. rewrite Ei2, u16_small by len_lia. len_lia.
Qed.

Lemma parseopt_loop_ok bs fuel : ∀ l s,
  options bs s → left_over bs l s → (length l < fuel)%nat →
  wp (parseopt_loop fuel) (λ _ s', parsed (mss_of fuel l (mss (pcb s))) s s') s.
Proof.
  induction fuel as [|fuel IH]; intros l s Ho Hl Hf; [lia|]. cbn [parseopt_loop mss_of]. tcps. rewrite (on_len _ _ Ho).
  assert (goes_on fuel bs s) as Hgo.
  { intros m s1 l1 Hp Ho1 Hl1 Hf1. eapply wp_mono; [by apply (IH l1 s1)|]. intros [] s' Hp'. cbv beta in Hp'. rewrite (parsed_mss _ _ _ Hp) in Hp'.
    by eapply parsed_trans. }
  destruct l as [|kind rest].
  { destruct (Z.ltb_spec (tcp_optidx s) (zlen bs)); [|tcps; apply parsed_same].
    exfalso. destruct Hl as [(k & -> & Ek)|[_ ?]]; [|lia]. rewrite app_nil_r in *. lia. }
  pose proof (left_over_idx _ _ _ Hl ltac:(done)). destruct (Z.ltb_spec (tcp_optidx s) (zlen bs)); [|len_lia]. cbn [length] in Hf.
  apply wp_bind. eapply wp_mono; [by apply (next_ok bs kind rest s)|]. intros y s1 (-> & Hk & Ho1 & Hl1 & Ei1 & Hp1).
  destruct (kind =? LWIP_TCP_OPT_EOL); [by apply wp_ret|].
  destruct (kind =? LWIP_TCP_OPT_NOP); [apply Hgo; (done || lia)|].
  pose proof (parsed_mss _ _ _ Hp1) as Em1. destruct rest as [|len data].
  { apply last_kind_ok; try done; [lia|len_lia]. }
  cbn [length] in Hf.
  assert (∀ (k : Z → TCP ()) Q, (∀ s2, byte_ok len → options bs s2 → left_over bs data s2 → tcp_optidx s2 = tcp_optidx s + 2 →
    parsed (mss (pcb s)) s s2 → zlen bs = tcp_optidx s2 + zlen data → wp (k len) Q s2) → wp (tcp_getoptbyte ≫= k) Q s1) as Hread.
  { intros k Q Hkk. apply wp_bind. eapply wp_mono; [by apply (next_ok bs len data s1)|]. intros y s2 (-> & Hlb & Ho2 & Hl2 & Ei2 & Hp2).
    rewrite Em1 in Hp2. apply Hkk; try done; [lia|by eapply parsed_trans|len_lia]. }
  destruct (kind =? LWIP_TCP_OPT_MSS); apply Hread; intros s2 Hlb Ho2 Hl2 Ei2 Hp02 Ez; clear Hread.
  - tcps. rewrite Ei2. replace (tcp_optidx s + 2 - 2 + LWIP_TCP_OPT_LEN_MSS) with (tcp_optidx s + 4) by (unfold LWIP_TCP_OPT_LEN_MSS; lia).
    destruct data as [|hi [|lo data]].
    1-2: replace (tcp_optidx s + 4 >? zlen bs) with true by len_lia; rewrite orb_true_r; by apply wp_ret.
    replace (tcp_optidx s + 4 >? zlen bs) with false by len_lia. rewrite orb_false_r.
    destruct (len =? LWIP_TCP_OPT_LEN_MSS); [cbn [negb]|by apply wp_ret]. cbn [length] in Hf.
    apply wp_bind. eapply wp_mono; [by apply (next_ok bs hi (lo :: data) s2)|]. intros y s3 (-> & Hhb & Ho3 & Hl3 & Ei3 & Hp3).
    apply wp_bind. eapply wp_mono; [by apply (next_ok bs lo data s3)|]. intros y s4 (-> & Hob & Ho4 & Hl4 & Ei4 & Hp4).
    apply wp_bind, wp_on_pcb. rewrite mss_word by done. fold (offered_mss hi lo).
    apply Hgo; [|by destruct Ho4|by destruct Hl4; [left|right]|lia].
    rewrite (parsed_mss _ _ _ Hp02) in Hp3. rewrite (parsed_mss _ _ _ Hp3) in Hp4.
    pose proof (parsed_trans _ _ _ _ _ (parsed_trans _ _ _ _ _ Hp02 Hp3) Hp4) as [i ->]. exists i. reflexivity.
  - destruct (Z.ltb_spec len 2); [by apply wp_ret|]. apply wp_bind, wp_modify. unfold byte_ok in Hlb.
    pose proof (parsed_set_idx _ _ _ (λ i, u16 (i + len - 2)) Hp02) as Hp3.
    apply Hgo; [done|by destruct Ho2|apply (skip_data_ok bs data len s2); (done || lia)|rewrite length_drop; lia].
Qed.

Lemma mss_of_range fuel : ∀ l m, 0 < m ≤ TCP_MSS → bytes_ok l → 0 < mss_of fuel l m ≤ TCP_MSS.
Proof.
  induction fuel as [|fuel IH]; intros l m Hm Hl; cbn [mss_of]; [done|]. destruct l as [|kind rest]; [done|].
  apply Forall_cons_1 in Hl as [Hk Hr]. destruct (_ =? _); [done|]. destruct (_ =? _); [by apply IH|].
  destruct rest as [|len data]; [done|]. apply Forall_cons_1 in Hr as [Hlb Hd]. destruct (_ =? _).
  - destruct data as [|hi [|lo data]]; [done..|]. destruct (_ =? _); [|done].
    apply Forall_cons_1 in Hd as [Hh Hd]. apply Forall_cons_1 in Hd as [Ho Hd]. apply IH; [|done].
    unfold offered_mss, byte_ok in *. change TCP_MSS with 512. cbv zeta.
    destruct (Z.gtb_spec (hi * 256 + lo) 512), (Z.eqb_spec (hi * 256 + lo) 0); cbn; lia.
  - destruct (_ <? _); [done|]. apply IH; [done|]. by apply Forall_drop.
Qed.

(** (C18) [tcp_parseopt] stops on every list of options, reads no further than
    one byte behind them, and changes nothing but its index and the maximum
    segment size: that becomes what a reading of the option bytes
    as a list gives, wherever the boundary of the two buffers lies, and stays
    within 1 and [TCP_MSS]. *)
Theorem tcp_parseopt_reads bs s :
  options bs s → 0 < mss (pcb s) ≤ TCP_MSS →
  wp tcp_parseopt (λ _ s', ∃ i, let m := mss_of (S (length bs)) bs (mss (pcb s)) in
    s' = s <| tcp_optidx := i |> <| pcb ::= λ p, p <| mss := m |> |> ∧ 0 < m ≤ TCP_MSS) s.
Proof.
  intros Ho Hm. unfold tcp_parseopt. tcps. rewrite (on_len _ _ Ho).
  assert (0 < mss_of (S (length bs)) bs (mss (pcb s)) ≤ TCP_MSS) as Hr by (apply mss_of_range; [done|apply (on_bytes _ _ Ho)]).
  destruct (Z.eqb_spec (zlen bs) 0) as [E|]; cbn [negb].
  - destruct bs; [|len_lia]. tcps. destruct (parsed_same s) as [i Ei]. exists i. rewrite mss_of_nil. by split.
  - tcps. replace (Z.to_nat (zlen bs)) with (length bs) by len_lia.
    set (s1 := s <| tcp_optidx := 0 |>). assert (options bs s1) as Ho1 by (by destruct Ho).
    eapply wp_mono; [apply (parseopt_loop_ok bs _ bs s1 Ho1); [left; by exists []|lia]|].
    intros [] s' [i ->]. exists i. split; [|done]. reflexivity.
Qed.

(** The second byte of the size in the next buffer. *)
Definition split_mss : tcp :=
  open_conn <| tcphdr_optlen := 4 |> <| tcphdr_opt1len := 3 |> <| tcphdr_opt1 := [2; 4; 1] |> <| tcphdr_opt2 := Some [44; 0] |>.

Lemma split_mss_ok : options [2; 4; 1; 44] split_mss.
Proof.
  split; try done; [by repeat constructor| |by exists 0]. intros i x Hi.
  do 4 (destruct i as [|i]; [by injection Hi as <-|]). done.
Qed.

Lemma tcp_parseopt_reads_witness :
  ∃ s', tcp_parseopt split_mss = Ok ((), s') ∧ mss (pcb s') = 300.
Proof.
  destruct (tcp_parseopt_reads [2; 4; 1; 44] split_mss split_mss_ok) as ([] & s' & E & i & -> & _); [done|].
  eexists. split; [exact E|]. get_set. done.
Defined.
