(* ===== verification/LwipTcpTx.v ===== *)
(** TCP of lwIP, writing: [tcp_write] puts exactly the bytes it is given
    behind those that are queued, or changes nothing. *)
From S2P Require Import Prelude.
From S2P Require Import LwipTcp.
From S2P Require Import LwipTcpOut.
From S2P Require Import LwipTcpIn.
From S2P Require Import LwipTcpProcess.
From S2P Require Import LwipTcpExamples.
From S2P Require Import LwipTcpSeq.
From S2P Require Import LwipTcpRx.

(** * Queues of the stream *)

Definition is_rst (s : tcp_seg) : bool := has (TCPH_FLAGS (seg_hdr s)) TCP_RST.

Section Chain.
Context {S : Z → Z} {F : option Z}.
Implicit Types (l : list tcp_seg) (s : tcp_seg).

(** The segments of [l] carry the stream from [a] to [b], one behind the other. *)
Fixpoint chain (a b : Z) (l : list tcp_seg) : Prop :=
  match l with
  | [] => a = b
  | s :: l => seg_at S F a s ∧ (0 < TCP_TCPLEN s ∧ is_rst s = false) ∧ chain (a + TCP_TCPLEN s) b l
  end.

Lemma chain_app a b l1 l2 : chain a b (l1 ++ l2) ↔ ∃ m, chain a m l1 ∧ chain m b l2.
Proof.
  revert a. induction l1 as [|s l1 IH]; intros a; cbn.
  - split; [eauto|]. by intros (m & -> & ?).
  - rewrite IH. split; [intros (? & ? & m & ? & ?)|intros (m & (? & ? & ?) & ?)]; eauto 10.
Qed.

Lemma chain_le a b l : chain a b l → a + zlen l ≤ b.
Proof.
  revert a. induction l as [|s l IH]; intros a; cbn; [intros ->; len_lia|]. intros (_ & [? _] & Hc).
  specialize (IH _ Hc). len_lia.
Qed.
End Chain.

(** The number of buffers. *)
Fixpoint clens (l : list tcp_seg) : Z :=
  match l with [] => 0 | s :: l => zlen (from_option id [] (seg_p s)) + clens l end.

Lemma clens_app l1 l2 : clens (l1 ++ l2) = clens l1 + clens l2.
Proof. induction l1 as [|s l1 IH]; [done|]. cbn. lia. Qed.
Lemma clens_pos l : 0 ≤ clens l.
Proof. induction l as [|s l IH]; cbn; len_lia. Qed.

(** A segment is not longer than the connection makes them. *)
Definition fits (limit : Z) (s : tcp_seg) : Prop := seg_len s + LWIP_TCP_OPT_LENGTH (seg_flags s) ≤ limit.

(** The free bytes behind the last buffer of the queue, as the connection
    counts them. *)
Definition has_room (limit over : Z) (l : list tcp_seg) : Prop :=
  match list.last l with
  | None => over = 0
  | Some s =>
      0 ≤ over ∧ seg_len s + LWIP_TCP_OPT_LENGTH (seg_flags s) + over ≤ limit ∧
      (0 < over → ∃ bufs b, seg_p s = Some (bufs ++ [b]) ∧ tb_room b = over ∧ tb_rom b = None)
  end.

Lemma opt_length_pos f : 0 ≤ LWIP_TCP_OPT_LENGTH f.
Proof. unfold LWIP_TCP_OPT_LENGTH. by destruct (has _ _). Qed.

Lemma mem_read_span S W n pos m :
  0 ≤ pos → 0 ≤ m → pos + m ≤ n → mem_read (span S W n) pos m = Ok (span S (W + pos) m).
Proof.
  intros. rewrite mem_read_ok by (rewrite ?span_length; lia). f_equal. rewrite span_drop by lia. apply span_take. lia.
Qed.

Section Tx.
Context `{TcpEnv} {S : Z → Z}.
Abbreviation chain := (chain (S := S) (F := None)).
Abbreviation seg_at := (seg_at S None).

Lemma no_fin a s : seg_at a s → is_fin s = false.
Proof. intros Hs. destruct (is_fin s) eqn:E; [|done]. by pose proof (sa_fin _ _ _ _ Hs E). Qed.
Lemma tcplen_len a s : seg_at a s → TCP_TCPLEN s = seg_len s.
Proof. intros Hs. destruct (sa_tcplen _ _ Hs) as [-> _]. rewrite (no_fin _ _ Hs). cbn. lia. Qed.

Lemma prealloc_ok len limit apiflags first s :
  0 ≤ len ≤ limit → limit < 65536 →
  wp (tcp_pbuf_prealloc len limit apiflags first)
    (λ r s', asked s s' ∧ match r with Some room => 0 ≤ room ≤ limit - len | None => True end) s.
Proof.
  intros Hl Hlim. unfold tcp_pbuf_prealloc. tcps. split; [by eexists|]. destruct (pbuf_mem _); [|done].
  set (c := (_ <? _) && _). destruct c eqn:Ec; [|rewrite u16_small; lia].
  assert (len ≤ LWIP_MEM_ALIGN_SIZE (len + TCP_OVERSIZE)).
  { unfold LWIP_MEM_ALIGN_SIZE. change (Z.lnot 3) with (Z.lnot (Z.ones 2)). rewrite <- Z.ldiff_land, Z.ldiff_ones_r by lia.
    rewrite Z.shiftl_mul_pow2, Z.shiftr_div_pow2 by lia. change TCP_OVERSIZE with 512.
    pose proof (Z.div_mod (len + 512 + 3) (2 ^ 2) ltac:(done)). pose proof (Z.mod_pos_bound (len + 512 + 3) (2 ^ 2) ltac:(done)). lia. }
  rewrite u16_small; lia.
Qed.

(** A new segment for the bytes at [a]. *)
Lemma create_segment_ok bufs n0 a n s `{!At n0 a} :
  bufs ≠ [] → bytes bufs = span S a n → 0 < n < 65535 →
  wp (tcp_create_segment bufs (tot_len bufs) 0 n0 0)
    (λ r s', asked s s' ∧ match r with
      | Some seg => seg_p seg = Some bufs ∧ seg_flags seg = 0 ∧ seg_len seg = n ∧ is_rst seg = false ∧ seg_at a seg
      | None => True end) s.
Proof.
  intros Hne Hb Hn. unfold tcp_create_segment. tcps. destruct (seg_mem _); cbn [negb]; tcps; [|split; [by eexists|done]].
  assert (tot_len bufs = n) as Ht by (unfold tot_len; rewrite Hb; apply span_length; lia). rewrite Ht.
  change (LWIP_TCP_OPT_LENGTH 0) with 0.
  apply wp_assert; [lia|]. tcps. split; [by eexists|].
  split_and!; [done|done|cbn; lia|done|]. split; unfold seqno_of, is_syn, is_fin; get_set; cbn; try done; try lia.
  exists bufs. by rewrite Z.sub_0_r.
Qed.

(** The buffers of a new segment. *)
Lemma write_bufs_ok p arg src apiflags first v a s :
  src = span S a (zlen src) → 0 < zlen src ≤ tcp_mss_local p → tcp_mss_local p < 65535 →
  (has apiflags TCP_WRITE_FLAG_COPY = false → wv_oversize v = 0) →
  wp (write_bufs p arg src apiflags first v) (λ r s', asked s s' ∧ match r with
    | Some (bufs, over) => bytes bufs = src ∧ 0 < zlen bufs ≤ 2 ∧ 0 ≤ over ∧ zlen src + over ≤ tcp_mss_local p ∧
        (0 < over → ∃ l b, bufs = l ++ [b] ∧ tb_room b = over ∧ tb_rom b = None) ∧
        (has apiflags TCP_WRITE_FLAG_COPY = false → over = 0)
    | None => True end) s.
Proof.
  intros Hs Hl Hlim Hov. unfold write_bufs. destruct (has apiflags TCP_WRITE_FLAG_COPY) eqn:Ef.
  - apply wp_bind. eapply wp_mono; [apply prealloc_ok; lia|]. intros r s1 [Has Hr]. tcps. split; [done|].
    destruct r as [room|]; [|done]. cbn. split_and!; try (done || lia); [by rewrite app_nil_r|].
    intros _. by eexists [], _.
  - rewrite Hov by done. tcps. apply wp_assert; [done|]. tcps. destruct (pbuf_mem _); cbn [negb]; tcps; [|split; [by eexists|done]].
    destruct (pbuf_mem _); cbn [negb]; tcps; (split; [by eexists|]); [|done]. cbn. split_and!; try (done || lia); by rewrite app_nil_r.
Qed.

Lemma asked_pcb s s' : asked s s' → pcb s' = pcb s.
Proof. by intros [k ->]. Qed.

Lemma list_last_snoc {A} (l : list A) x : list.last (l ++ [x]) = Some x.
Proof. apply last_snoc. Qed.

(** The segments of phase 3: the data from [wv_pos v] on. *)
Record phase3_ok (limit a e : Z) (v : write_vars) (queue : list tcp_seg) (v' : write_vars) (q : list tcp_seg) : Prop := {
  p3_chain : chain a e q;
  p3_queuelen : wv_queuelen v' = wv_queuelen v + clens q - clens queue;
  p3_limit : 0 ≤ wv_queuelen v' ≤ TCP_SND_QUEUELEN;
  p3_room : q ≠ [] → has_room limit (wv_oversize v') q;
  p3_same : wv_used v' = wv_used v;
  p3_none : q = [] → v' = v;
  p3_more : ∃ more, q = queue ++ more ∧ Forall (fits limit) more }.

Lemma write_phase3_ok fuel : ∀ p arg n apiflags queue v s W a,
  snd_lbb p = u32 W → 0 < tcp_mss_local p ≤ TCP_MSS → 0 ≤ wv_pos v ≤ n → n < 65536 → chain a (W + wv_pos v) queue →
  0 ≤ wv_queuelen v ≤ TCP_SND_QUEUELEN → TCP_SND_QUEUELEN < wv_queuelen v + Z.of_nat fuel →
  (wv_pos v < n → has apiflags TCP_WRITE_FLAG_COPY = false → wv_oversize v = 0) →
  (queue ≠ [] → has_room (tcp_mss_local p) (wv_oversize v) queue) →
  wp (write_phase3 fuel p arg (span S W n) apiflags queue v) (λ r s', asked s s' ∧
    match r with Some (v', q) => phase3_ok (tcp_mss_local p) a (W + n) v queue v' q | None => True end) s.
Proof.
  induction fuel as [|fuel IH]; intros p arg n apiflags queue v s W a Hlbb Hm Hpos Hn Hq Hql Hfuel Hov Hroom; [lia|].
  change TCP_SND_QUEUELEN with 128 in *. change TCP_MSS with 512 in *. cbn [write_phase3].
  rewrite span_length by lia. destruct (Z.ltb_spec (wv_pos v) n).
  2:{ tcps. split; [apply asked_refl|]. replace n with (wv_pos v) by lia. split; try (done || lia).
      exists []. rewrite app_nil_r. by split. }
  set (len := Z.min _ _). assert (0 < len ≤ n - wv_pos v ∧ len ≤ tcp_mss_local p) as Hlen by lia. clearbody len.
  tcps. eapply wp_lift; [apply mem_read_span; lia|]. cbv beta. apply wp_bind.
  eapply wp_mono; [apply (write_bufs_ok _ _ _ _ _ _ (W + wv_pos v)); rewrite ?span_length; try (done || lia); by apply Hov|].
  intros [[bufs over]|] s1 [Has Hr]; [|by tcps]. destruct Hr as (Hb & Hne & Ho & Hlim & Hrm & Hrom).
  rewrite span_length in Hlim by lia. unfold pbuf_clen.
  rewrite (u16_small (wv_queuelen v + zlen bufs)) by lia.
  destruct ((_ >? _) || _) eqn:Eq; [by tcps|]. change TCP_SNDQUEUELEN_OVERFLOW with 65532 in Eq. change TCP_SND_QUEUELEN with 128 in Eq.
  apply wp_bind. rewrite Hlbb.
  eapply wp_mono; [apply (create_segment_ok bufs (u32 W + wv_pos v) (W + wv_pos v) len); [apply _|destruct bufs; [len_lia|done]|done|lia]|].
  intros [seg|] s2 [Has2 Hseg]; [|tcps; split; [by eapply asked_trans|done]]. destruct Hseg as (Hp & Hfl & Hsl & Hrst & Hat).
  pose proof (tcplen_len _ _ Hat) as Htl. assert (has_room (tcp_mss_local p) over (queue ++ [seg])) as Hr2.
  { unfold has_room. rewrite list_last_snoc. rewrite Hsl, Hfl, Hp. change (LWIP_TCP_OPT_LENGTH 0) with 0.
    split_and!; try (done || lia). intros Hov0. destruct (Hrm Hov0) as (l & b & -> & ? & ?). eauto. }
  assert (asked s s2) as Has' by (by eapply asked_trans). assert (zlen [seg] = 1) as Hone by done.
  eapply wp_mono; [apply (IH p arg n apiflags _ _ s2 W a); get_set; try (done || lia)|].
  - rewrite u16_small by lia. lia.
  - apply chain_app. exists (W + wv_pos v). split; [done|]. split; [apply Hat|].
    rewrite Htl, Hsl. split; [split; [lia|exact Hrst]|]. rewrite u16_small by lia. cbn. lia.
  - intros [[v' q]|] s3 [Has3 Hr3]; (split; [by eapply asked_trans|]); [|done]. destruct Hr3 as [Hc3 Hq3 Hl3 Hro3 Hu3 Hn3 (more & -> & Hfit3)].
    get_set_in Hq3. assert (clens [seg] = zlen bufs) as Ec by (cbn [clens]; rewrite Hp; cbn; lia).
    rewrite !clens_app in Hq3. split; try done.
    + rewrite !clens_app. lia.
    + intros E. apply app_eq_nil in E as [E _]. by apply app_eq_nil in E as [_ E].
    + exists ([seg] ++ more). rewrite app_assoc. split; [done|]. constructor; [|done]. unfold fits. rewrite Hsl, Hfl.
      change (LWIP_TCP_OPT_LENGTH 0) with 0. lia.
Qed.

(** ** The last segment *)

Lemma update_last_snoc {A} (f : A → A) l x : update_last f (l ++ [x]) = l ++ [f x].
Proof. induction l as [|y l IH]; [done|]. cbn. rewrite IH. by destruct l. Qed.

Lemma seg_at_grow a s s' bufs :
  seg_at a s → seg_hdr s' = seg_hdr s → seg_p s' = Some bufs → bufs ≠ [] → bytes bufs = span S a (seg_len s') →
  0 ≤ seg_len s' < 65535 → seg_at a s'.
Proof.
  intros Hs Hh Hp Hne Hb Hl. split; [unfold seqno_of; rewrite Hh; apply (sa_seqno _ _ _ _ Hs)|by exists bufs|done| | |done].
  - unfold is_syn. rewrite Hh. apply (sa_syn _ _ _ _ Hs).
  - intros Hf. rewrite (is_fin_hdr _ _ Hh), (no_fin _ _ Hs) in Hf. done.
Qed.

(** The bytes of phase 1, in the room of the last buffer. *)
Lemma fill_last_ok limit over a W n last bufs :
  seg_at a last → a + seg_len last = W → has_room limit over [last] → 0 ≤ n → seg_p last = Some bufs →
  let used := Z.min over n in ∃ bufs',
  (if used >? 0 then extend_chain (take (Z.to_nat used) (span S W n)) bufs else Ok bufs) = Ok bufs' ∧
  bytes bufs' = span S a (seg_len last + used) ∧ bufs' ≠ [] ∧ zlen bufs' = zlen bufs ∧
  (0 < over - used → ∃ l b, bufs' = l ++ [b] ∧ tb_room b = over - used ∧ tb_rom b = None).
Proof.
  intros Hs HW (Hov & Hl & Hroom) Hn Hp used. destruct (sa_bytes _ _ _ _ Hs) as (bufs0 & Hp0 & Hne & Hb).
  rewrite Hp in Hp0. injection Hp0 as <-. pose proof (sa_len _ _ _ _ Hs). destruct (Z.gtb_spec used 0).
  - destruct Hroom as (l & b & Hpl & Hrm & Hrom); [lia|]. rewrite Hp in Hpl. injection Hpl as ->.
    rewrite span_take by lia. unfold extend_chain. rewrite list_last_snoc. unfold fill_room.
    rewrite span_length, Hrm by lia. destruct (Z.leb_spec used over); [|lia]. cbn. rewrite update_last_snoc.
    eexists. split_and!; [done| | | |].
    + rewrite bytes_app in *. cbn in *. get_set. rewrite app_nil_r in *. rewrite span_app, <- Hb by lia.
      by rewrite HW, app_assoc.
    + by destruct l.
    + unfold zlen. by rewrite !length_app.
    + intros _. eexists _, _. split_and!; [done|get_set; lia|done].
  - eexists. assert (used = 0) as E by lia. rewrite E, Z.add_0_r, Z.sub_0_r. split_and!; [done..|].
    intros Hpos. destruct (Hroom Hpos) as (l & b & Hpl & ? & ?). rewrite Hp in Hpl. injection Hpl as ->. by exists l, b.
Qed.

(** [last'] is [last] with [m] more bytes in [k] more buffers. *)
Definition grown (limit a : Z) (last : tcp_seg) (m over k : Z) (last' : tcp_seg) : Prop :=
  seg_at a last' ∧ is_rst last' = is_rst last ∧ seg_len last' = seg_len last + m ∧ has_room limit over [last'] ∧
  clens [last'] = clens [last] + k.

Lemma grown_intro limit a last m over k last' bufs bufs' :
  seg_at a last → seg_p last = Some bufs → seg_hdr last' = seg_hdr last → seg_flags last' = seg_flags last →
  seg_p last' = Some bufs' → bufs' ≠ [] → bytes bufs' = span S a (seg_len last + m) → zlen bufs' = zlen bufs + k →
  seg_len last' = u16 (seg_len last + m) → 0 ≤ m → limit ≤ TCP_MSS →
  seg_len last + m + LWIP_TCP_OPT_LENGTH (seg_flags last) + over ≤ limit → 0 ≤ over →
  (0 < over → ∃ l b, bufs' = l ++ [b] ∧ tb_room b = over ∧ tb_rom b = None) → grown limit a last m over k last'.
Proof.
  intros Hs Hp Hh Hf Hp' Hne Hb Hz Hl Hm Hlim Hroom Hov Hr. pose proof (opt_length_pos (seg_flags last)).
  pose proof (sa_len _ _ _ _ Hs). change TCP_MSS with 512 in *. rewrite u16_small in Hl by lia.
  split_and!; [|unfold is_rst; by rewrite Hh|done| |].
  - apply (seg_at_grow a last last' bufs'); rewrite ?Hl; (done || lia).
  - cbn. rewrite Hf, Hl, Hp'. split_and!; try (done || lia). intros Hpos. destruct (Hr Hpos) as (l & b & -> & ? & ?). eauto.
  - cbn. rewrite Hp, Hp'. cbn. lia.
Qed.

Section Commit.
Context (limit over a W n : Z) (last : tcp_seg) (v : write_vars).
Context (Hs : seg_at a last) (HW : a + seg_len last = W) (Hroom : has_room limit over [last]) (Hn : 0 ≤ n).
Context (Hlim : limit ≤ TCP_MSS) (Hu : wv_used v = Z.min over n).

Lemma commit_none_ok :
  ∃ last', commit_last (span S W n) NoExtension v last = Ok last' ∧
    grown limit a last (Z.min over n) (over - Z.min over n) 0 last'.
Proof using All.
  destruct (sa_bytes _ _ _ _ Hs) as (bufs & Hp & _ & _).
  destruct (fill_last_ok limit over a W n last bufs Hs HW Hroom Hn Hp) as (bufs' & Ef & Hb & Hne & Hz & Hr).
  destruct Hroom as (Hov & Hl & _). pose proof (opt_length_pos (seg_flags last)).
  unfold commit_last, seg_bufs. rewrite Hp. cbn [mbind result_bind]. rewrite Hu, Ef. cbn [mbind result_bind].
  eexists. split; [done|]. eapply grown_intro; get_set; try (done || lia).
Qed.

Lemma commit_concat_ok m b : 0 < m → over ≤ n → tb_data b = span S (W + over) m → 0 ≤ tb_room b → (0 < tb_room b → tb_rom b = None) →
  seg_len last + over + m + LWIP_TCP_OPT_LENGTH (seg_flags last) + tb_room b ≤ limit →
  ∃ last', commit_last (span S W n) (Concat b) v last = Ok last' ∧ grown limit a last (over + m) (tb_room b) 1 last'.
Proof using All.
  intros Hm Hon Hd Hb0 Hrom Hfit. destruct (sa_bytes _ _ _ _ Hs) as (bufs & Hp & _ & _).
  destruct (fill_last_ok limit over a W n last bufs Hs HW Hroom Hn Hp) as (bufs' & Ef & Hb & Hne & Hz & _).
  destruct Hroom as (Hov & Hl & _). pose proof (opt_length_pos (seg_flags last)). pose proof (sa_len _ _ _ _ Hs).
  change TCP_MSS with 512 in *. unfold commit_last, seg_bufs. rewrite Hp. cbn [mbind result_bind]. rewrite Hu, Ef. cbn [mbind result_bind]. rewrite Z.min_l in * by lia. eexists. split; [done|].
  eapply (grown_intro _ _ _ _ _ _ _ _ (bufs' ++ [b])); get_set; try (done || lia).
  - by destruct bufs'.
  - rewrite bytes_app, Hb, Z.add_assoc, (span_app S a (seg_len last + over) m) by lia. cbn. rewrite Hd, app_nil_r. do 2 f_equal. lia.
  - unfold zlen in *. rewrite length_app. cbn. lia.
  - unfold tb_len. rewrite Hd, span_length by lia. rewrite (u16_small (seg_len last + over)) by lia. f_equal. lia.
  - intros. exists bufs', b. split_and!; [done..|by apply Hrom].
Qed.

Lemma commit_extend_ok m : 0 < m ≤ n → over = 0 →
  seg_len last + m + LWIP_TCP_OPT_LENGTH (seg_flags last) ≤ limit →
  ∃ last', commit_last (span S W n) (Extend m) v last = Ok last' ∧ grown limit a last m 0 0 last'.
Proof using All.
  intros Hm Hov0 Hfit. destruct (sa_bytes _ _ _ _ Hs) as (bufs & Hp & Hne & Hb).
  pose proof (opt_length_pos (seg_flags last)). pose proof (sa_len _ _ _ _ Hs).
  change TCP_MSS with 512 in *. unfold commit_last, seg_bufs. rewrite Hp. cbn [mbind result_bind]. rewrite Hu.
  rewrite Hov0, Z.min_l by lia. cbn. destruct bufs as [|b bufs _] using rev_ind; [done|]. rewrite update_last_snoc.
  eexists. split; [done|].
  eapply (grown_intro _ _ _ _ _ _ _ _ (bufs ++ [b <| tb_data ::= λ d, d ++ take (Z.to_nat m) (span S W n) |>])); get_set; try (done || lia).
  - by destruct bufs.
  - rewrite bytes_app in *. cbn in *. get_set. rewrite app_nil_r in *. rewrite span_app, <- Hb, span_take by lia.
    by rewrite HW, app_assoc.
  - unfold zlen. rewrite !length_app. cbn. lia.
  - rewrite Z.add_0_r, (u16_small (seg_len last)) by lia. done.
Qed.
End Commit.

(** What phases 1 and 2 lead to: the last segment, once it is changed, holds
    the data up to [wv_pos v]. *)
Record tail_ok (limit a W n : Z) (apiflags : Z) (last : tcp_seg) (v0 v : write_vars) (ext : extension) : Prop := {
  ta_pos : 0 ≤ wv_pos v ≤ n;
  ta_queuelen : wv_queuelen v0 ≤ wv_queuelen v ≤ wv_queuelen v0 + Z.min n 1;
  ta_rom : wv_pos v < n → has apiflags TCP_WRITE_FLAG_COPY = false → wv_oversize v = 0;
  ta_last : ∀ v', wv_used v' = wv_used v → ∃ last',
    commit_last (span S W n) ext v' last = Ok last' ∧
    grown limit a last (wv_pos v) (wv_oversize v) (wv_queuelen v - wv_queuelen v0) last' }.

(** Phase 1. *)
Definition phase1_vars (limit over n : Z) (last : tcp_seg) (queuelen : Z) : write_vars :=
  let used := Z.min over n in
  mk_vars used (over - used) used
    (limit - (seg_len last + LWIP_TCP_OPT_LENGTH (seg_flags last)) - used) queuelen.

Lemma write_phase1_ok p last n s :
  has_room (tcp_mss_local p) (unsent_oversize p) [last] → 0 ≤ n →
  wp (write_phase1 p last n) (λ v s', s' = s ∧ v = phase1_vars (tcp_mss_local p) (unsent_oversize p) n last (snd_queuelen p)) s.
Proof.
  intros (Hp & Hl & _) Hn. unfold write_phase1, phase1_vars. tcps. pose proof (opt_length_pos (seg_flags last)).
  apply wp_assert; [lia|]. destruct (Z.gtb_spec (unsent_oversize p) 0).
  - tcps. apply wp_assert; [lia|]. tcps. apply wp_assert; [lia|]. tcps. split; [done|].
    by replace (Z.min _ (Z.min _ n)) with (Z.min (unsent_oversize p) n) by lia.
  - tcps. apply wp_assert; [lia|]. tcps. split; [done|]. by replace (Z.min (unsent_oversize p) n) with 0 by lia.
Qed.

Lemma write_phase2_ok p last arg n apiflags W a s :
  let limit := tcp_mss_local p in let over := unsent_oversize p in
  let v1 := phase1_vars limit over n last (snd_queuelen p) in
  seg_at a last → 0 < seg_len last → a + seg_len last = W → has_room limit over [last] →
  limit ≤ TCP_MSS → 0 ≤ n < 65536 → 0 ≤ snd_queuelen p < 65535 →
  wp (write_phase2 p last arg (span S W n) apiflags v1)
    (λ r s', asked s s' ∧ match r with Some (v, ext) => tail_ok limit a W n apiflags last v1 v ext | None => True end) s.
Proof.
  intros limit over v1 Hs Hpos HW Hroom Hlim Hn Hql. pose proof Hroom as (Hov & Hl & Hbuf).
  pose proof (opt_length_pos (seg_flags last)). change TCP_MSS with 512 in *.
  unfold write_phase2. rewrite span_length by lia. cbn [wv_pos wv_space wv_queuelen v1 phase1_vars].
  destruct ((_ <? n) && _ && _) eqn:Ec.
  2:{ tcps. split; [apply asked_refl|]. split; cbn; try lia. intros v' Hu. rewrite Z.sub_diag.
      apply (commit_none_ok limit over a W n last v'); (done || lia). }
  assert (over < n ∧ Z.min over n = over) as [Hlt Emin] by lia. rewrite Emin in *.
  set (space := limit - (seg_len last + LWIP_TCP_OPT_LENGTH (seg_flags last)) - over) in *. assert (0 < space) as Hsp by lia.
  set (m := Z.min space (n - over)). assert (0 < m ≤ space ∧ m ≤ n - over) as Hm by lia. clearbody m.
  assert (∀ v b, wv_pos v = over + m → wv_oversize v = tb_room b → wv_queuelen v = snd_queuelen p + 1 → wv_used v = over →
    tb_data b = span S (W + over) m → 0 ≤ tb_room b ≤ space - m →
    (0 < tb_room b → tb_rom b = None) → (has apiflags TCP_WRITE_FLAG_COPY = false → tb_room b = 0) →
    tail_ok limit a W n apiflags last v1 v (Concat b)) as Hconcat.
  { intros v b Ep Eo Eq Eu Hd Hb0 Hrom Hcp. split; rewrite ?Ep, ?Eo, ?Eq; cbn [v1 phase1_vars wv_queuelen]; try lia.
    { intros _ Ef. by apply Hcp. }
    intros v' Hu'. replace (snd_queuelen p + 1 - snd_queuelen p) with 1 by lia.
    apply (commit_concat_ok limit over a W n last v'); rewrite ?Hu'; try (done || lia). }
  eapply wp_bind. eapply wp_lift; [apply mem_read_span; lia|]. cbv beta.
  destruct (has apiflags TCP_WRITE_FLAG_COPY) eqn:Ef.
  - apply wp_bind. eapply wp_mono; [apply prealloc_ok; lia|]. intros [room|] s1 [Has Hr]; tcps; (split; [done|]); [|done].
    apply Hconcat; get_set; cbn [v1 phase1_vars wv_pos wv_queuelen wv_used wv_oversize tb_room tb_rom]; try (done || lia).
    + rewrite Emin. apply u16_small. lia.
    + apply u16_small. lia.
  - destruct (sa_bytes _ _ _ _ Hs) as (bufs & Hp & Hne & Hb). tcps. eapply wp_lift; [unfold seg_bufs; by rewrite Hp|]. cbv beta.
    case_bool_decide as Hext.
    + assert (over = 0) as E0.
      { destruct (Z.lt_ge_cases 0 over) as [Hlt0|]; [|lia]. destruct (Hbuf Hlt0) as (l & b & Hpl & _ & Hrom).
        rewrite Hp in Hpl. injection Hpl as ->. rewrite list_last_snoc in Hext. cbn in Hext. by rewrite Hrom in Hext. }
      tcps. apply wp_assert; [cbn; lia|]. tcps. split; [apply asked_refl|].
      assert (wv_pos (v1 <| wv_pos ::= λ k, u16 (k + m) |>) = m) as Epos.
      { get_set. cbn [v1 phase1_vars wv_pos]. rewrite Emin, E0. apply u16_small. lia. }
      split; rewrite ?Epos; get_set; cbn [v1 phase1_vars wv_queuelen wv_oversize wv_used]; try lia;
        rewrite ?Emin. intros v' Hu. rewrite !Z.sub_diag.
      apply (commit_extend_ok limit over a W n last v'); (rewrite ?Z.min_l by lia; try (done || lia)).
    + tcps. destruct (pbuf_mem _); cbn [negb]; tcps; (split; [by eexists|]); [|done].
      apply Hconcat; get_set; cbn [v1 phase1_vars wv_pos wv_queuelen wv_used wv_oversize tb_room tb_rom];
        rewrite ?Emin; try (done || lia); apply u16_small; lia.
Qed.

(** ** [tcp_write] *)

(** The stream from [A] to [W] is queued, from [A] to [B] on the queue of
    segments that were sent, from [B] on where they were not.  With [r] the
    connection knows the free bytes behind the data. *)
Record queued_if (r : bool) (A B W : Z) (p : tcp_pcb) : Prop := {
  qu_lbb : snd_lbb p = u32 W;
  qu_unacked : chain A B (unacked p);
  qu_unsent : chain B W (unsent p);
  qu_len : snd_queuelen p = clens (unacked p ++ unsent p);
  qu_limit : snd_queuelen p ≤ TCP_SND_QUEUELEN;
  qu_room : r = true → has_room (tcp_mss_local p) (unsent_oversize p) (unsent p);
  qu_buf : snd_buf p = TCP_SND_BUF - (W - A);
  qu_space : W - A ≤ TCP_SND_BUF;
  qu_mss : 0 < tcp_mss_local p ≤ TCP_MSS }.

Abbreviation queued := (queued_if true).

Lemma chain_clens a b l : chain a b l → (clens l = 0 ↔ l = []).
Proof.
  destruct l as [|s l]; [done|]. intros (Hs & _). split; [|done]. destruct (sa_bytes _ _ _ _ Hs) as (bufs & Hp & Hne & _).
  cbn. rewrite Hp. pose proof (clens_pos l). destruct bufs; [done|]. cbn. len_lia.
Qed.

Lemma queued_valid r A B W p : queued_if r A B W p → valid_queues p = negb (snd_queuelen p =? 0).
Proof.
  intros [_ Hua Hus Hl _ _ _ _ _]. rewrite Hl, clens_app. unfold valid_queues.
  pose proof (chain_clens _ _ _ Hua). pose proof (chain_clens _ _ _ Hus). pose proof (clens_pos (unacked p)). pose proof (clens_pos (unsent p)).
  destruct (Z.eqb_spec (clens (unacked p) + clens (unsent p)) 0) as [E|E].
  - rewrite !bool_decide_eq_true_2; [done|apply H1; lia|apply H0; lia].
  - destruct (bool_decide_reflect (unacked p = [])) as [E1|]; [|done]. rewrite bool_decide_eq_false_2; [done|].
    intros E2. apply E. by rewrite E1, E2.
Qed.

Lemma queued_le r A B W p : queued_if r A B W p → A ≤ B ≤ W.
Proof.
  intros [_ Hua Hus _ _ _ _ _ _]. pose proof (chain_le _ _ _ Hua). pose proof (chain_le _ _ _ Hus). len_lia.
Qed.

Lemma psh_at a apiflags s : seg_at a s → seg_at a (PSH_last apiflags s).
Proof.
  intros Hs. unfold PSH_last. destruct (has _ _); [done|]. pose proof (no_fin _ _ Hs) as Hf. pose proof (sa_syn _ _ _ _ Hs) as Hsy.
  assert (is_syn (s <| seg_hdr ::= TCPH_SET_FLAG TCP_PSH |>) = is_syn s ∧ is_fin (s <| seg_hdr ::= TCPH_SET_FLAG TCP_PSH |>) = is_fin s) as [E1 E2].
  { split; flag_bits; cbn; by rewrite ?orb_false_r. }
  destruct Hs as [? ? ? ? ? ?]. split; [done..|by rewrite E1| |done]. rewrite E2, Hf. done.
Qed.

Lemma psh_rst apiflags s : is_rst (PSH_last apiflags s) = is_rst s.
Proof.
  unfold PSH_last. destruct (has _ _); [done|]. unfold is_rst, TCP_RST. change (has ?f 4) with (has f (2 ^ 2)).
  rewrite !has_bit by lia. flag_bits. cbn. by rewrite ?orb_false_r.
Qed.

Lemma psh_chain apiflags a b l : chain a b l → chain a b (update_last (PSH_last apiflags) l).
Proof.
  revert a. induction l as [|s l IH]; intros a; [done|]. intros (Hs & Hp & Hc). pose proof (psh_at _ apiflags _ Hs) as Hs'.
  assert (TCP_TCPLEN (PSH_last apiflags s) = TCP_TCPLEN s) as E.
  { rewrite (tcplen_len _ _ Hs), (tcplen_len _ _ Hs'). unfold PSH_last. by destruct (has _ _). }
  destruct l as [|s2 l]; cbn [update_last].
  - cbn. rewrite E, psh_rst. done.
  - split; [done|]. split; [done|]. by apply IH.
Qed.
Lemma psh_clens apiflags l : clens (update_last (PSH_last apiflags) l) = clens l.
Proof.
  induction l as [|s [|s2 l] IH]; [done| |cbn [update_last clens] in *; lia]. cbn. unfold PSH_last. by destruct (has _ _).
Qed.
Lemma psh_room apiflags limit over l : has_room limit over l → has_room limit over (update_last (PSH_last apiflags) l).
Proof.
  destruct l as [|s l _] using rev_ind; [done|]. rewrite update_last_snoc. unfold has_room. rewrite !list_last_snoc.
  unfold PSH_last. by destruct (has _ _).
Qed.

Lemma psh_tail apiflags limit over a b l m :
  chain a b (l ++ m) → has_room limit over (l ++ m) →
  chain a b (l ++ update_last (PSH_last apiflags) m) ∧ has_room limit over (l ++ update_last (PSH_last apiflags) m).
Proof.
  intros Hc Hr. split.
  - apply chain_app in Hc as (c & Hc1 & Hc2). apply chain_app. exists c. split; [done|by apply psh_chain].
  - destruct m as [|s m _] using rev_ind; [done|]. rewrite update_last_snoc, app_assoc, <- update_last_snoc.
    apply psh_room. by rewrite <- app_assoc.
Qed.

(** What writing changes, and nothing else. *)
Definition write_view (s : tcp) : tcp :=
  s <| pcb ::= λ p, p <| unsent := [] |> <| unsent_oversize := 0 |> <| snd_lbb := 0 |> <| snd_buf := 0 |>
    <| snd_queuelen := 0 |> |> <| ncalls := 0%nat |>.

(** At most a flag was set. *)
Definition refused (s s' : tcp) : Prop := ∃ k f, s' = s <| ncalls := k |> <| pcb ::= λ p, p <| pcb_flags := f |> |>.

Lemma write_memerr_ok A B W s0 s :
  queued A B W (pcb s0) → asked s0 s → wp write_memerr (λ e s', e = ERR_MEM ∧ refused s0 s') s.
Proof.
  intros Hq [k ->]. unfold write_memerr. tcps. apply wp_assert.
  - change (valid_queues (set_flag TF_NAGLEMEMERR (pcb s0))) with (valid_queues (pcb s0)).
    change (snd_queuelen (set_flag TF_NAGLEMEMERR (pcb s0))) with (snd_queuelen (pcb s0)).
    rewrite (queued_valid _ _ _ _ _ Hq). by destruct (_ =? 0).
  - tcps. split; [done|]. exists k, (Z.lor (pcb_flags (pcb s0)) TF_NAGLEMEMERR). reflexivity.
Qed.

(** The new queue: all but the last segment, the last one as changed, the new
    ones. *)
Lemma commit_queue A B W p n over (q : list tcp_seg) last' apiflags k (b : bool) :
  queued A B W p → 0 ≤ n → k ≤ TCP_SND_QUEUELEN →
  let l := take (length (unsent p) - 1) (unsent p) in
  let m := match list.last (unsent p) with Some _ => [last'] | None => [] end in
  chain B (W + n) (l ++ m ++ q) → clens (m ++ q) + clens (unacked p ++ l) = k →
  has_room (tcp_mss_local p) over (l ++ m ++ q) → n ≤ snd_buf p →
  ∀ p', unacked p' = unacked p → tcp_mss_local p' = tcp_mss_local p → unsent_oversize p' = over →
  unsent p' = l ++ (if bool_decide (q = []) && b then PSH_last apiflags <$> m else m) ++ update_last (PSH_last apiflags) q →
  snd_lbb p' = u32 (W + n) → snd_buf p' = snd_buf p - n → snd_queuelen p' = k → queued A B (W + n) p'.
Proof.
  intros Hqu Hn Hk l m Hc Hl Hr Hb p' E1 E2 E3 E4 E5 E6 E7. destruct Hqu as [H1 H2 H3 H4 H5 H6 H7 H8 H9].
  assert (∃ r, unsent p' = l ++ r ∧ chain B (W + n) (l ++ r) ∧ clens r = clens (m ++ q) ∧
    has_room (tcp_mss_local p) over (l ++ r)) as (r & E4' & Hc' & Hl' & Hr').
  { rewrite E4. eexists. split; [done|]. case_bool_decide as Eq; cbn [andb].
    - subst q. rewrite !app_nil_r in *. destruct b; [|done].
      assert (PSH_last apiflags <$> m = update_last (PSH_last apiflags) m) as -> by (unfold m; by destruct (list.last _)).
      destruct (psh_tail apiflags _ _ _ _ l m Hc Hr). split_and!; [done|apply psh_clens|done].
    - rewrite app_assoc in Hc, Hr. destruct (psh_tail apiflags _ _ _ _ _ q Hc Hr). rewrite app_assoc.
      split_and!; [done|by rewrite !clens_app, psh_clens|done]. }
  rewrite clens_app in Hl. split; rewrite ?E1, ?E2, ?E3, ?E4', ?E5, ?E6, ?E7, ?clens_app in *; (done || lia).
Qed.

(** The first segment has not become shorter. *)
Definition head_le (l l' : list tcp_seg) : Prop :=
  match l, l' with s :: _, s' :: _ => seg_len s ≤ seg_len s' | [], _ => True | _ :: _, [] => False end.

(** The queue has grown at its end, by segments that are not too long. *)
Record tail_grown (limit : Z) (l l' : list tcp_seg) : Prop := {
  tg_head : head_le l l';
  tg_fits : Forall (fits limit) l → Forall (fits limit) l' }.

Lemma psh_fits limit apiflags s : fits limit s → fits limit (PSH_last apiflags s).
Proof. unfold fits, PSH_last. by destruct (has _ _). Qed.

Lemma psh_all_fit limit apiflags l : Forall (fits limit) l → Forall (fits limit) (update_last (PSH_last apiflags) l).
Proof.
  induction 1 as [|s l Hs Hl IH]; [done|]. destruct l; cbn [update_last]; constructor; [by apply psh_fits|done|done|exact IH].
Qed.

Lemma commit_head (u : list tcp_seg) m last' apiflags (b : bool) q :
  m = match list.last u with Some _ => [last'] | None => [] end →
  (∀ last, list.last u = Some last → seg_len last ≤ seg_len last') →
  head_le u (take (length u - 1) u ++ (if b then PSH_last apiflags <$> m else m) ++ q).
Proof.
  intros Em Hl. destruct u as [|last u _] using rev_ind; [done|]. rewrite list_last_snoc in *. specialize (Hl _ eq_refl).
  rewrite length_app, Nat.add_sub, take_app_length. subst m. destruct u as [|s u]; [|cbn; lia].
  cbn. destruct b; cbn; [|lia]. unfold PSH_last. by destruct (has _ _).
Qed.

Lemma commit_fits limit (u : list tcp_seg) m last' apiflags (b : bool) q :
  m = match list.last u with Some _ => [last'] | None => [] end →
  (∀ last, list.last u = Some last → fits limit last') → Forall (fits limit) q → Forall (fits limit) u →
  Forall (fits limit) (take (length u - 1) u ++ (if b then PSH_last apiflags <$> m else m) ++ update_last (PSH_last apiflags) q).
Proof.
  intros Em Hl Hq Hu. rewrite !Forall_app. split_and!; [by apply Forall_take| |by apply psh_all_fit].
  assert (Forall (fits limit) m) as Hm.
  { subst m. destruct (list.last u); [|done]. constructor; [by eapply Hl|done]. }
  destruct b; [|done]. apply Forall_fmap. eapply Forall_impl; [|exact Hm]. intros s. apply psh_fits.
Qed.

Lemma has_room_app limit over l m : m ≠ [] → has_room limit over m → has_room limit over (l ++ m).
Proof. destruct m as [|s m _] using rev_ind; [done|]. unfold has_room. by rewrite app_assoc, !list_last_snoc. Qed.

(** What phases 1 and 2 find in the queue. *)
Definition found (A B W n apiflags : Z) (p : tcp_pcb) (v : write_vars) (ext : extension) : Prop :=
  match list.last (unsent p) with
  | None => v = mk_vars 0 0 0 0 (snd_queuelen p)
  | Some last => ∃ a, chain B a (take (length (unsent p) - 1) (unsent p)) ∧
      tail_ok (tcp_mss_local p) a W n apiflags last (phase1_vars (tcp_mss_local p) (unsent_oversize p) n last (snd_queuelen p)) v ext ∧
      seg_at a last ∧ a + seg_len last = W
  end.

Lemma write_tail_ok A B W n p arg apiflags s :
  queued A B W p → 0 ≤ n < 65536 →
  wp (write_tail p arg (span S W n) apiflags) (λ r s', asked s s' ∧
    match r with Some (v, ext, _) => found A B W n apiflags p v ext | None => True end) s.
Proof.
  intros Hq Hn. pose proof Hq as [_ _ Hus Hlen Hl Hroom _ _ Hm]. specialize (Hroom eq_refl). change TCP_SND_QUEUELEN with 128 in *.
  pose proof (clens_pos (unacked p ++ unsent p)). unfold write_tail, found.
  destruct (unsent p) as [|last l _] eqn:Eu using rev_ind.
  - cbn in *. tcps. apply wp_assert; [lia|]. tcps. split; [apply asked_refl|done].
  - rewrite list_last_snoc. rewrite length_app, Nat.add_sub, take_app_length. unfold has_room in Hroom.
    rewrite list_last_snoc in Hroom. apply chain_app in Hus as (a & Hl1 & Hs & [Hp Hrst] & HW). cbn in HW.
    rewrite (tcplen_len _ _ Hs) in Hp, HW. tcps. rewrite span_length by lia.
    eapply wp_mono; [apply (write_phase1_ok p last n s); [exact Hroom|lia]|]. intros v1 s1 [-> ->]. tcps.
    eapply wp_mono; [apply (write_phase2_ok p last arg n apiflags W a s); try (done || lia)|].
    intros [[v ext]|] s2 [Has Hr]; tcps; (split; [done|]); [|done]. exists a. done.
Qed.

(** The last segment [last'] of the queue, if there is one, and the new
    segments [q] are put into the connection. *)
Lemma commit_ok A B W n apiflags touched v' q m last' s0 s :
  queued A B W (pcb s0) → 0 ≤ n < 65536 → n ≤ snd_buf (pcb s0) → asked s0 s → 0 ≤ wv_queuelen v' ≤ TCP_SND_QUEUELEN →
  m = match list.last (unsent (pcb s0)) with Some _ => [last'] | None => [] end →
  let l := take (length (unsent (pcb s0)) - 1) (unsent (pcb s0)) in
  chain B (W + n) (l ++ m ++ q) → clens (m ++ q) + clens (unacked (pcb s0) ++ l) = wv_queuelen v' →
  has_room (tcp_mss_local (pcb s0)) (wv_oversize v') (l ++ m ++ q) →
  (∀ last, list.last (unsent (pcb s0)) = Some last → seg_len last ≤ seg_len last' ∧ fits (tcp_mss_local (pcb s0)) last') →
  Forall (fits (tcp_mss_local (pcb s0))) q →
  wp (let last := if bool_decide (q = []) && touched then PSH_last apiflags <$> m else m in
      let queue := update_last (PSH_last apiflags) q in
      on_pcb (λ p, p <| unsent_oversize := wv_oversize v' |>
        <| unsent := take (length (unsent p) - 1) (unsent p) ++ last ++ queue |>
        <| snd_lbb ::= λ n0, u32 (n0 + zlen (span S W n)) |> <| snd_buf ::= λ n0, u16 (n0 - zlen (span S W n)) |>
        <| snd_queuelen := wv_queuelen v' |>);;
      p ← gets pcb;
      LWIP_ASSERT ((snd_queuelen p =? 0) || valid_queues p);; mret ERR_OK)
    (λ e s', e = ERR_OK ∧ queued A B (W + n) (pcb s') ∧ write_view s' = write_view s0 ∧ tail_grown (tcp_mss_local (pcb s0)) (unsent (pcb s0)) (unsent (pcb s'))) s.
Proof.
  intros Hq Hn Hb Has Hlim Em l Hch Hcl Hro Hhl Hqf. pose proof Hq as [Hlbb _ Hus Hlen _ Hr0 Hbuf _ _]. subst l.
  assert (TCP_SND_BUF = 16384) as HS by done.
  cbv zeta. tcps. rewrite span_length by lia. destruct Has as [k ->].
  match goal with |- wp _ _ ?s => set (s1 := s) end.
  assert (queued A B (W + n) (pcb s1)) as Hq1.
  { (eapply (commit_queue A B W (pcb s0) n (wv_oversize v') q last' apiflags (wv_queuelen v') touched); rewrite <- ?Em; try (done || lia);
    subst s1; get_set; try done); [|pose proof (queued_le _ _ _ _ _ Hq); apply u16_small; lia].
    rewrite Hlbb. by rewrite (at_u32_eq (u32 W + n) (W + n)). }
  apply wp_assert; [change (((snd_queuelen (pcb s1) =? 0) || valid_queues (pcb s1)) = true); rewrite (queued_valid _ _ _ _ _ Hq1); by destruct (_ =? 0)|]. tcps.
  split_and!; [done|done|reflexivity|]. subst s1. get_set. split.
  - apply (commit_head _ _ last'); [done|]. intros last El. by apply Hhl.
  - apply (commit_fits _ _ _ last'); [done| |done]. intros last El. by apply (Hhl last).
Qed.

Lemma write_commit_ok A B W n apiflags touched ext v v' q s0 s :
  queued A B W (pcb s0) → 0 ≤ n < 65536 → n ≤ snd_buf (pcb s0) → asked s0 s → found A B W n apiflags (pcb s0) v ext →
  phase3_ok (tcp_mss_local (pcb s0)) (W + wv_pos v) (W + n) v [] v' q →
  wp (write_commit (span S W n) apiflags touched ext q v')
    (λ e s', e = ERR_OK ∧ queued A B (W + n) (pcb s') ∧ write_view s' = write_view s0 ∧ tail_grown (tcp_mss_local (pcb s0)) (unsent (pcb s0)) (unsent (pcb s'))) s.
Proof.
  intros Hq Hn Hb Has Hf [Hc Hql Hlim Hroom Hu Hnone (more & Eq & Hmore)]. pose proof Hq as [Hlbb _ Hus Hlen _ Hr0 Hbuf _ _].
  assert (TCP_SND_BUF = 16384) as HS by done. set (l := take (length (unsent (pcb s0)) - 1) (unsent (pcb s0))).
  pose proof (λ m last', commit_ok A B W n apiflags touched v' q m last' s0 s Hq Hn Hb Has Hlim) as Hgo. cbv zeta in Hgo. fold l in Hgo.
  unfold write_commit. apply wp_bind, wp_gets. cbv beta. rewrite (asked_pcb _ _ Has). unfold found in Hf. subst l.
  destruct (list.last (unsent (pcb s0))) as [last|] eqn:El.
  - destruct (unsent (pcb s0)) as [|last0 l _] eqn:Eu using rev_ind; [done|]. rewrite list_last_snoc in El. injection El as ->.
    rewrite length_app, Nat.add_sub, take_app_length in *. destruct Hf as (a & Hl1 & [Hp2 Hq2 _ Hlast] & Hs & HW).
    destruct (Hlast v' Hu) as (last' & Ec & Hs' & Hrst' & Hl' & Hro' & Hcl').
    tcps. eapply wp_lift; [exact Ec|]. cbv beta. apply wp_ret. cbv beta. pose proof (tcplen_len _ _ Hs') as Ht.
    pose proof (sa_len _ _ _ _ Hs). cbn [phase1_vars wv_queuelen clens] in *.
    assert (0 < TCP_TCPLEN last ∧ is_rst last = false) as [Hpos Hrst].
    { by apply chain_app in Hus as (c & _ & _ & ? & _). }
    assert (0 < seg_len last) by (by rewrite (tcplen_len _ _ Hs) in Hpos).
    apply (Hgo _ last' eq_refl).
    + apply chain_app. exists a. split; [done|]. split; [done|]. rewrite Hrst'. split; [split; [lia|done]|].
      by replace (a + TCP_TCPLEN last') with (W + wv_pos v) by lia.
    + rewrite !clens_app in *. cbn [clens] in *. lia.
    + destruct q as [|s2 q]; [by apply has_room_app; [|rewrite Hnone]|].
      apply has_room_app; [done|]. apply (has_room_app _ _ [last']); [done|]. by apply Hroom.
    + intros last0 [= <-]. split; [lia|]. destruct Hro' as (? & ? & _). unfold fits. lia.
    + subst q. exact Hmore.
  - assert (unsent (pcb s0) = []) as Eu by (by apply last_None). rewrite Eu in *. subst v. cbn [wv_pos wv_queuelen clens] in *.
    cbn in Hus. apply wp_bind, wp_ret. cbv beta. apply (Hgo _ (mk_seg None 0 0 (mk_hdr 0 0 0 0 0 0)) eq_refl); cbn [take length Nat.sub app].
    + rewrite Hus. by rewrite Z.add_0_r in Hc.
    + rewrite !clens_app in *. cbn [clens] in *. lia.
    + destruct q as [|s2 q]; [|by apply Hroom]. by rewrite (Hnone eq_refl).
    + done.
    + rewrite Eq. exact Hmore.
Qed.

Lemma write_checks_ok A B W n s :
  queued A B W (pcb s) → 0 ≤ n →
  wp (tcp_write_checks n) (λ e s', refused s s' ∧
    ((e = ERR_OK ∧ s' = s ∧ (0 < n → n ≤ snd_buf (pcb s) ∧ snd_queuelen (pcb s) < TCP_SND_QUEUELEN)) ∨
     e = ERR_MEM ∨ e = ERR_CONN)) s.
Proof.
  intros Hq Hn. assert (refused s s) as Hrefl.
  { exists (ncalls s), (pcb_flags (pcb s)). by destruct s as [[]]. }
  assert (refused s (s <| pcb ::= set_flag TF_NAGLEMEMERR |>)) as Hflag.
  { exists (ncalls s), (Z.lor (pcb_flags (pcb s)) TF_NAGLEMEMERR). by destruct s as [[]]. }
  unfold tcp_write_checks. tcps. case_bool_decide; cbn [negb]; [|tcps; auto].
  destruct (Z.eqb_spec n 0); [tcps; split; [done|left; split_and!; (done || lia)]|].
  destruct (Z.gtb_spec n (snd_buf (pcb s))); [tcps; auto|]. destruct (_ || _) eqn:El; [tcps; auto|].
  tcps. apply wp_assert; [|tcps; split; [done|left; split_and!; (done || lia)]].
  rewrite (queued_valid _ _ _ _ _ Hq). by destruct (_ =? 0).
Qed.

(** The bytes are queued behind the others, or nothing changes. *)
Lemma tcp_write_ok A B W n arg apiflags s :
  queued A B W (pcb s) → 0 ≤ n < 65536 →
  wp (tcp_write (Some arg) (span S W n) apiflags) (λ e s',
    (e = ERR_OK ∧ queued A B (W + n) (pcb s') ∧ write_view s' = write_view s ∧
      tail_grown (tcp_mss_local (pcb s)) (unsent (pcb s)) (unsent (pcb s'))) ∨
    ((e = ERR_MEM ∨ e = ERR_CONN) ∧ refused s s')) s.
Proof.
  intros Hq Hn. assert (TCP_SND_QUEUELEN = 128) as HQ by done. unfold tcp_write. rewrite span_length by lia.
  apply wp_bind. eapply wp_mono; [by apply (write_checks_ok A B W); [|lia]|].
  intros e s1 [Href [(-> & -> & Hfit)|[-> | ->]]]; [|apply wp_ret; auto..]. change (negb (ERR_OK =? ERR_OK)) with false. cbv iota.
  assert (n ≤ snd_buf (pcb s) ∧ snd_queuelen (pcb s) + Z.min n 1 ≤ TCP_SND_QUEUELEN) as [Hb Hql].
  { pose proof (qu_limit _ _ _ _ _ Hq). pose proof (qu_buf _ _ _ _ _ Hq). pose proof (qu_space _ _ _ _ _ Hq).
    destruct (Z.lt_ge_cases 0 n) as [Hp|]; [specialize (Hfit Hp)|]; lia. }
  tcps. eapply wp_mono; [by apply (write_tail_ok A B W)|].
  assert (∀ s2, asked s s2 → wp write_memerr (λ e s', (e = ERR_OK ∧ queued A B (W + n) (pcb s') ∧ write_view s' = write_view s ∧
      tail_grown (tcp_mss_local (pcb s)) (unsent (pcb s)) (unsent (pcb s'))) ∨
    ((e = ERR_MEM ∨ e = ERR_CONN) ∧ refused s s')) s2) as Hmem.
  { intros s2 Has. eapply wp_mono; [by apply (write_memerr_ok A B W s)|]. intros e s3 [-> ?]. auto. }
  intros [[[v ext] touched]|] s2 [Has Hf]; [|by apply Hmem]. apply wp_bind.
  pose proof Hq as [Hlbb _ _ Hlen _ _ _ _ Hm]. pose proof (clens_pos (unacked (pcb s) ++ unsent (pcb s))).
  assert (0 ≤ wv_pos v ≤ n ∧ snd_queuelen (pcb s) ≤ wv_queuelen v ≤ snd_queuelen (pcb s) + Z.min n 1 ∧
    (wv_pos v < n → has apiflags TCP_WRITE_FLAG_COPY = false → wv_oversize v = 0)) as (Hpos & Hqv & Hrom).
  { unfold found in Hf. destruct (list.last _) as [last|].
    - destruct Hf as (a & _ & [? ? ? _] & _). done.
    - subst v. cbn. split_and!; (done || lia). }
  eapply wp_mono; [apply (write_phase3_ok _ (pcb s) arg n apiflags [] v s2 W (W + wv_pos v)); try (done || lia)|].
  intros [[v' q]|] s3 [Has3 Hp3]; [|apply Hmem; by eapply asked_trans].
  eapply wp_mono; [eapply (write_commit_ok A B W n apiflags touched ext v v' q s s3); try done; by eapply asked_trans|].
  intros e s4 (-> & ? & ? & ?). auto.
Qed.

End Tx.

(** ** A new piece of the stream *)

(** The stream with [data] from the position [W] on. *)
Definition append_at (S : Z → Z) (W : Z) (data : list Z) (i : Z) : Z :=
  if i <? W then S i else from_option id 0 (data !! Z.to_nat (i - W)).

Lemma span_append_at S W data : span (append_at S W data) W (zlen data) = data.
Proof.
  unfold span. unfold zlen. rewrite Nat2Z.id. apply list_eq. intros i. rewrite list_lookup_fmap.
  destruct (decide (i < length data)%nat) as [Hi|Hi].
  - rewrite lookup_seq_lt by done. cbn. unfold append_at. destruct (Z.ltb_spec (W + Z.of_nat i) W); [lia|].
    replace (Z.to_nat (W + Z.of_nat i - W)) with i by lia. destruct (lookup_lt_is_Some_2 data i Hi) as [x Hx]. by rewrite Hx.
  - rewrite lookup_seq_ge by lia. symmetry. apply lookup_ge_None_2. lia.
Qed.

Lemma span_ext S S' a n : (∀ i, a ≤ i < a + n → S i = S' i) → span S a n = span S' a n.
Proof.
  intros HS. unfold span. apply list_fmap_ext. intros i x Hx. apply lookup_seq in Hx as [-> Hi]. apply HS. lia.
Qed.

Lemma chain_ext S S' a b l :
  (∀ i, a ≤ i < b → S i = S' i) → chain (S := S) (F := None) a b l → chain (S := S') (F := None) a b l.
Proof.
  revert a. induction l as [|s l IH]; intros a HS; [done|]. intros (Hs & Hp & Hc). cbn. pose proof (chain_le _ _ _ Hc).
  rewrite (tcplen_len _ _ Hs) in *. pose proof (sa_len _ _ _ _ Hs). split; [|split; [done|apply IH; [|done]; intros i Hi; apply HS; lia]].
  destruct Hs as [? (bufs & ? & ? & Hb) ? ? ? ?]. split; try done. exists bufs. split; [done|]. split; [done|]. rewrite Hb. apply span_ext.
  intros i Hi. apply HS. len_lia.
Qed.

Lemma queued_ext S S' r A B W p : (∀ i, i < W → S i = S' i) → queued_if (S := S) r A B W p → queued_if (S := S') r A B W p.
Proof.
  intros HS [? Q2 Q3 ? ? ? ? ? ?]. pose proof (chain_le _ _ _ Q2). pose proof (chain_le _ _ _ Q3).
  split; try done; (eapply chain_ext; [|done]); intros i Hi; apply HS; len_lia.
Qed.

(** (C14) [tcp_write] takes the bytes or nothing.  Where the two queues hold the
    stream of the application from the first byte that is not acknowledged to
    the last one written, they hold it with the new bytes behind it when the
    call returns [ERR_OK], and nothing else of the state has changed; on
    [ERR_MEM] and [ERR_CONN] at most a flag was set.  No assertion fails and no
    byte is read outside the data or the segments. *)
Theorem tcp_write_appends `{TcpEnv} S A B W data arg apiflags s :
  queued_if (S := S) true A B W (pcb s) → 0 ≤ zlen data < 65536 →
  wp (tcp_write (Some arg) data apiflags) (λ e s',
    (e = ERR_OK ∧ queued_if (S := append_at S W data) true A B (W + zlen data) (pcb s') ∧ write_view s' = write_view s) ∨
    ((e = ERR_MEM ∨ e = ERR_CONN) ∧ refused s s')) s.
Proof.
  intros Hq Hn. rewrite <- (span_append_at S W data) at 1.
  eapply wp_mono; [apply (tcp_write_ok A B W (zlen data) arg apiflags s); [|done]|].
  - eapply queued_ext; [|exact Hq]. intros i Hi. unfold append_at. by destruct (Z.ltb_spec i W); [|lia].
  - intros e s' [(? & ? & ? & _)|?]; auto.
Qed.

Lemma tcp_write_appends_witness :
  ∃ s', tcp_write (H := good_env) (Some 0) [1; 2; 3] TCP_WRITE_FLAG_COPY open_conn = Ok (ERR_OK, s') ∧
    queued_if (S := append_at (λ _, 0) 500 [1; 2; 3]) true 500 500 503 (pcb s').
Proof.
  assert (queued_if (S := λ _, 0) true 500 500 500 (pcb open_conn)) as Hq by (split; vm_compute; done).
  destruct (tcp_write_appends (H := good_env) (λ _, 0) 500 500 500 [1; 2; 3] 0 TCP_WRITE_FLAG_COPY open_conn Hq) as (e & s' & E & Hr);
    [vm_compute; done|].
  exists s'. destruct Hr as [(-> & Hq' & _)|(Hr & _)]; [by split|]. exfalso. vm_compute in E. destruct Hr as [-> | ->]; discriminate E.
Defined.
