(* ===== verification/LwipTcpOutput.v ===== *)
(** TCP of lwIP, sending: [tcp_output] hands IP pieces of the stream, none
    beyond the window, and queues what it sent for retransmission. *)
From S2P Require Import Prelude.
From S2P Require Import LwipTcp.
From S2P Require Import LwipTcpOut.
From S2P Require Import LwipTcpIn.
From S2P Require Import LwipTcpProcess.
From S2P Require Import LwipTcpExamples.
From S2P Require Import LwipTcpSeq.
From S2P Require Import LwipTcpRx.
From S2P Require Import LwipTcpTx.

(** A packet carries a piece of the stream, at most up to [W]; if it has data
    they end at most at [E], the end of the window.  It acknowledges what [p]
    has received. *)
Definition pk_ok (S : Z → Z) (W E : Z) (p : tcp_pcb) (pk : packet) : Prop :=
  h_ackno (pk_hdr pk) = rcv_nxt p ∧ h_wnd (pk_hdr pk) = rcv_ann_wnd p ∧
  ∃ a, h_seqno (pk_hdr pk) = u32 a ∧ pk_data pk = span S a (zlen (pk_data pk)) ∧ a + zlen (pk_data pk) ≤ W ∧
    (pk_data pk ≠ [] → a + zlen (pk_data pk) ≤ E).

(** What sending changes, and nothing else. *)
Definition out_pcb (p : tcp_pcb) : tcp_pcb :=
  p <| unsent := [] |> <| unacked := [] |> <| unsent_oversize := 0 |> <| pcb_flags := 0 |> <| snd_nxt := 0 |>
    <| rcv_ann_right_edge := 0 |> <| rtime := 0 |> <| rttest := 0 |> <| rtseq := 0 |> <| local_ip := [] |>
    <| persist_cnt := 0 |> <| persist_backoff := 0 |>.
Definition out_view (s : tcp) : tcp := s <| pcb ::= out_pcb |> <| sent := [] |> <| ncalls := 0%nat |>.

Lemma out_view_pcb s f : (∀ p, out_pcb (f p) = out_pcb p) → out_view (s <| pcb ::= f |>) = out_view s.
Proof.
  intros E. change (out_view (s <| pcb ::= f |>)) with (out_view (s <| pcb := f (pcb s) |>)).
  transitivity (out_view s <| pcb := out_pcb (f (pcb s)) |>); [reflexivity|]. rewrite E.
  unfold out_view. generalize out_pcb as v. intros v. reflexivity.
Qed.
Lemma out_view_sent s f : out_view (s <| sent ::= f |>) = out_view s.
Proof. reflexivity. Qed.
Lemma out_view_ncalls s f : out_view (s <| ncalls ::= f |>) = out_view s.
Proof. reflexivity. Qed.
Create Rewrite HintDb out.
#[export] Hint Rewrite out_view_sent out_view_ncalls : out.
#[export] Hint Rewrite out_view_pcb using (intros; repeat case_match; reflexivity) : out.

Section Output.
Context `{TcpEnv} {S : Z → Z}.
Abbreviation chain := (chain (S := S) (F := None)).
Abbreviation seg_at := (seg_at S None).
Abbreviation queued_if := (queued_if (S := S)).

(** The sender: everything before [L] is acknowledged, everything before [N]
    was sent at least once. *)
Record sending (r : bool) (A B W L N : Z) (p : tcp_pcb) : Prop := {
  se_queue : queued_if r A B W p;
  se_lastack : lastack p = u32 L;
  se_nxt : snd_nxt p = u32 N;
  se_order : A ≤ L ≤ N ∧ B ≤ N ≤ W;
  se_head : match unacked p ++ unsent p with s :: _ => L < A + TCP_TCPLEN s | [] => True end }.

Lemma ack_flag_at a s : seg_at a s → seg_at a (s <| seg_hdr ::= TCPH_SET_FLAG TCP_ACK |>).
Proof.
  intros [? ? ? Hs Hf ?]. set (s' := s <| seg_hdr ::= _ |>).
  assert (is_syn s' = is_syn s ∧ is_fin s' = is_fin s) as [E1 E2] by (subst s'; split; flag_bits; cbn; by rewrite orb_false_r).
  split; [done|done|done|by rewrite E1|by rewrite E2|done].
Qed.

Lemma ack_flag_rst s : is_rst (s <| seg_hdr ::= TCPH_SET_FLAG TCP_ACK |>) = is_rst s.
Proof.
  unfold is_rst, TCP_RST. change (has ?f 4) with (has f (2 ^ 2)). rewrite !has_bit by lia. flag_bits. cbn. by rewrite orb_false_r.
Qed.

Lemma ack_hdr_at a s n w : seg_at a s → seg_at a (s <| seg_hdr ::= λ h, h <| h_ackno := n |> <| h_wnd := w |> |>).
Proof. intros [? ? ? ? ? ?]. by split. Qed.

(** The same data at the same place, with another header. *)
Record same_seg (a : Z) (s s' : tcp_seg) : Prop := {
  ss_at : seg_at a s';
  ss_len : seg_len s' = seg_len s;
  ss_bufs : seg_p s' = seg_p s;
  ss_flags : seg_flags s' = seg_flags s;
  ss_rst : is_rst s' = is_rst s }.

(** No queued segment is too long. *)
Definition all_fit (k : Z) (p : tcp_pcb) : Prop := Forall (fits k) (unacked p ++ unsent p).

Lemma same_fits k a s s' : same_seg a s s' → fits k s → fits k s'.
Proof. unfold fits. by intros [_ -> _ -> _]. Qed.

(** ** One segment *)

Definition sends (P : packet → Prop) (s s' : tcp) : Prop := ∃ pks, sent s' = sent s ++ pks ∧ Forall P pks.

Lemma sends_trans P s s1 s2 : sends P s s1 → sends P s1 s2 → sends P s s2.
Proof.
  intros (l1 & E1 & F1) (l2 & E2 & F2). exists (l1 ++ l2). rewrite E2, E1, app_assoc. split; [done|]. by apply Forall_app.
Qed.
Lemma sends_nil P s s' : sent s' = sent s → sends P s s'.
Proof. intros E. exists []. rewrite E, app_nil_r. done. Qed.

Lemma eff_send_mss_ok m d s : wp (tcp_eff_send_mss m d) (λ _ s', asked s s') s.
Proof.
  unfold tcp_eff_send_mss. tcps. destruct (_ && _); tcps; [by eexists|]. destruct (_ =? 0); tcps; by eexists.
Qed.

(** A segment goes out with the current acknowledgement, or the interface is
    busy and it counts as sent. *)
Lemma output_segment_ok a seg s W E :
  seg_at a seg → a + seg_len seg ≤ W → a + seg_len seg ≤ E →
  wp (tcp_output_segment seg) (λ r s',
    out_view s' = out_view s ∧ unsent (pcb s') = unsent (pcb s) ∧ unacked (pcb s') = unacked (pcb s) ∧
    unsent_oversize (pcb s') = unsent_oversize (pcb s) ∧ snd_nxt (pcb s') = snd_nxt (pcb s) ∧
    (∃ n w, r.1 = seg ∨ r.1 = seg <| seg_hdr ::= λ h, h <| h_ackno := n |> <| h_wnd := w |> |>) ∧
    sends (pk_ok S W E (pcb s)) s s') s.
Proof.
  intros Hs HW HE. destruct (sa_bytes _ _ _ _ Hs) as (bufs & Hp & _ & Hb). pose proof (sa_len _ _ _ _ Hs).
  unfold tcp_output_segment. tcps. destruct (netif_busy _); tcps.
  { split_and!; try done; [|by apply sends_nil]. exists 0, 0. by left. }
  eapply wp_lift; [unfold seg_bufs; by rewrite Hp|]. tcps.
  match goal with |- wp _ _ ?s => set (s1 := s) end.
  assert (wp (if has (seg_flags seg) TF_SEG_OPTS_MSS then mss ← tcp_eff_send_mss TCP_MSS (remote_ip (pcb s)); mret [2; 4; u8 (Z.shiftr mss 8); u8 mss]
    else mret []) (λ _ s', asked s1 s') s1) as Hopts.
  { destruct (has _ _); [|tcps; apply asked_refl]. apply wp_bind. eapply wp_mono; [apply eff_send_mss_ok|].
    intros m s2 Has. by tcps. }
  eapply wp_mono; [exact Hopts|]. intros opts s2 [k ->]. subst s1. unfold ip_output. tcps.
  assert (zlen (bytes bufs) = seg_len seg) as Hz by (rewrite Hb; apply span_length; lia).
  split_and!; try (by autorewrite with out); try (by repeat case_match).
  - do 2 eexists. by right.
  - eexists. split; [done|]. apply Forall_singleton. split; [done|]. split; [done|]. exists a. cbn. rewrite Hz, Hb.
    split_and!; (done || lia || by intros; apply (sa_seqno _ _ _ _ Hs)).
Qed.

(** ** The queues *)

Lemma queue_unacked_end A B l seg :
  chain A B l → B - A ≤ TCP_SND_BUF → seg_at B seg → queue_unacked seg l = l ++ [seg].
Proof.
  intros Hc Hn Hs. change TCP_SND_BUF with 16384 in *. unfold queue_unacked.
  destruct l as [|u l _] using rev_ind; [done|]. rewrite list_last_snoc.
  apply chain_app in Hc as (m & Hc & Hu & [Hp _] & HB). cbn in HB. pose proof (chain_le _ _ _ Hc).
  rewrite (sa_seqno _ _ _ _ Hs), (sa_seqno _ _ _ _ Hu), (seq_lt (u32 B) (u32 m) B m) by len_lia.
  destruct (Z.ltb_spec B m); [lia|done].
Qed.

(** The fields the queues do not have. *)
Lemma out_same s s' : out_view s' = out_view s →
  lastack (pcb s') = lastack (pcb s) ∧ snd_lbb (pcb s') = snd_lbb (pcb s) ∧ snd_queuelen (pcb s') = snd_queuelen (pcb s) ∧
  snd_buf (pcb s') = snd_buf (pcb s) ∧ tcp_mss_local (pcb s') = tcp_mss_local (pcb s) ∧ state (pcb s') = state (pcb s) ∧
  rcv_nxt (pcb s') = rcv_nxt (pcb s) ∧ rcv_ann_wnd (pcb s') = rcv_ann_wnd (pcb s).
Proof.
  intros E. assert (out_pcb (pcb s') = out_pcb (pcb s)) as Ep by exact (f_equal pcb E).
  assert (mss (pcb s') = mss (pcb s)) as Em by exact (f_equal mss Ep).
  assert (snd_wnd_max (pcb s') = snd_wnd_max (pcb s)) as Ew by exact (f_equal snd_wnd_max Ep).
  split_and!; [exact (f_equal lastack Ep)|exact (f_equal snd_lbb Ep)|exact (f_equal snd_queuelen Ep)|exact (f_equal snd_buf Ep)| |
    exact (f_equal state Ep)|exact (f_equal rcv_nxt Ep)|exact (f_equal rcv_ann_wnd Ep)].
  unfold tcp_mss_local. by rewrite Em, Ew.
Qed.

(** A connection with the same queues. *)
Lemma sending_same r A B W L N s s' :
  sending r A B W L N (pcb s) → out_view s' = out_view s → unsent (pcb s') = unsent (pcb s) →
  unacked (pcb s') = unacked (pcb s) → unsent_oversize (pcb s') = unsent_oversize (pcb s) → snd_nxt (pcb s') = snd_nxt (pcb s) →
  sending r A B W L N (pcb s').
Proof.
  intros [[? ? ? ? ? ? ? ? ?] ? ? ? ?] E Eu Ea Eo En. destruct (out_same _ _ E) as (E1 & E2 & E3 & E4 & E5 & _).
  split; [split|..]; rewrite ?E1, ?E2, ?E3, ?E4, ?E5, ?Eu, ?Ea, ?Eo, ?En; done.
Qed.

(** The first segment moves to the other queue. *)
Lemma segment_sent_ok A B W L N p seg rest seg' :
  sending false A B W L N p → unsent p = seg :: rest → same_seg B seg seg' →
  sending false A (B + seg_len seg) W L (Z.max N (B + seg_len seg)) (segment_sent seg' rest p).
Proof.
  intros [[Q1 Q2 Q3 Q4 Q5 _ Q7 Q8 Q9] Hla Hnx Ho Hh] Hu [Hs Hl Hp _ Hr]. rewrite Hu in *. destruct Q3 as (Hs0 & [Hpos Hr0] & Hc).
  rewrite (tcplen_len _ _ Hs0) in *. pose proof (chain_le _ _ _ Q2). pose proof (chain_le _ _ _ Hc). change TCP_SND_BUF with 16384 in *.
  pose proof (queue_unacked_end A B (unacked p) seg' Q2 ltac:(change TCP_SND_BUF with 16384; len_lia) Hs) as Eq.
  set (p' := segment_sent seg' rest p).
  assert (unacked p' = unacked p ++ [seg'] ∧ unsent p' = rest ∧ snd_nxt p' = u32 (Z.max N (B + seg_len seg)) ∧
    snd_lbb p' = snd_lbb p ∧ snd_queuelen p' = snd_queuelen p ∧ snd_buf p' = snd_buf p ∧ lastack p' = lastack p ∧
    tcp_mss_local p' = tcp_mss_local p) as (E1 & E2 & E3 & E4 & E5 & E6 & E7 & E8).
  { subst p'. unfold segment_sent. rewrite (tcplen_len _ _ Hs), Hl. destruct (Z.gtb_spec (seg_len seg) 0); [|lia].
    rewrite (sa_seqno _ _ _ _ Hs).
    assert (∃ f, (if bool_decide (state (p <| unsent := rest |>) ≠ SYN_SENT) then
      clear_flag (Z.lor TF_ACK_DELAY TF_ACK_NOW) (p <| unsent := rest |>) else p <| unsent := rest |>) =
      p <| unsent := rest |> <| pcb_flags := f |>) as [f ->] by (case_bool_decide; [by eexists|]; exists (pcb_flags p); by destruct p).
    get_set. rewrite Hnx, (seq_lt (u32 N) _ N (B + seg_len seg)) by len_lia.
    destruct (Z.ltb_spec N (B + seg_len seg)); get_set; (split_and!; try done; rewrite ?Hnx).
    - rewrite Z.max_r by lia. by rewrite (at_u32_eq (u32 B + seg_len seg) (B + seg_len seg)).
    - by rewrite Z.max_l by lia. }
  clearbody p'. destruct (sa_bytes _ _ _ _ Hs) as (bufs & Hpb & _). split.
  - split; rewrite ?E1, ?E2, ?E4, ?E5, ?E6, ?E8; try done.
    + apply chain_app. exists B. split; [done|]. cbn. rewrite (tcplen_len _ _ Hs), Hl, Hr. split_and!; (done || lia).
    + rewrite Q4, !clens_app. cbn [clens app]. rewrite Hp. lia.
  - by rewrite E7.
  - done.
  - len_lia.
  - rewrite E1, E2, <- app_assoc. destruct (unacked p) as [|u l]; [|done]. cbn in *. subst A.
    by rewrite (tcplen_len _ _ Hs), Hl, <- (tcplen_len _ _ Hs0).
Qed.

Lemma segment_sent_keeps seg rest p :
  tcp_mss_local (segment_sent seg rest p) = tcp_mss_local p ∧ unsent_oversize (segment_sent seg rest p) = unsent_oversize p ∧
  state (segment_sent seg rest p) = state p ∧ unsent (segment_sent seg rest p) = rest ∧
  out_pcb (segment_sent seg rest p) = out_pcb p.
Proof. unfold segment_sent. repeat case_match; split_and!; reflexivity. Qed.

Lemma insert_sorted_forall (P : tcp_seg → Prop) c l : P c → Forall P l → Forall P (insert_sorted c l).
Proof. intros Hc. induction 1 as [|x l Hx Hl IH]; cbn; [by constructor|]. destruct (TCP_SEQ_LT _ _); constructor; try done. by constructor. Qed.

Lemma segment_sent_fit k seg rest p : Forall (fits k) (unacked p) → fits k seg → Forall (fits k) (unacked (segment_sent seg rest p)).
Proof.
  intros Hu Hs. assert (Forall (fits k) (queue_unacked seg (unacked p))) as Hq.
  { unfold queue_unacked. destruct (list.last _); [|by constructor]. destruct (TCP_SEQ_LT _ _); [by apply insert_sorted_forall|].
    apply Forall_app. split; [done|by constructor]. }
  unfold segment_sent. repeat case_match; (exact Hq || exact Hu).
Qed.

(** The first unsent segment against the window. *)
Lemma beyond_window_ok A B W L N p seg rest wnd :
  sending false A B W L N p → unsent p = seg :: rest →
  seg_at B seg ∧ is_rst seg = false ∧ L < B + seg_len seg ≤ W ∧ beyond_window p wnd seg = (B + seg_len seg >? L + wnd).
Proof.
  intros [[_ Q2 Q3 _ _ _ _ Q8 _] Hla _ Ho Hh] Hu. rewrite Hu in *. destruct Q3 as (Hs & [Hpos Hr] & Hc).
  rewrite (tcplen_len _ _ Hs) in *. pose proof (chain_le _ _ _ Hc). pose proof (chain_le _ _ _ Q2). change TCP_SND_BUF with 16384 in *.
  assert (L < B + seg_len seg).
  { destruct (unacked p) as [|u l]; cbn in *; [subst A; by rewrite (tcplen_len _ _ Hs) in Hh|].
    destruct Q2 as (_ & _ & Hl). pose proof (chain_le _ _ _ Hl). len_lia. }
  split_and!; [done|done|done|len_lia|]. unfold beyond_window. rewrite (sa_seqno _ _ _ _ Hs), Hla.
  rewrite (at_u32_eq (u32 B - u32 L + seg_len seg) (B - L + seg_len seg)), u32_small by len_lia.
  destruct (Z.gtb_spec (B - L + seg_len seg) wnd), (Z.gtb_spec (B + seg_len seg) (L + wnd)); (done || lia).
Qed.

(** ** The loop *)

Lemma sending_room r A B W L N p :
  sending false A B W L N p → (r = true → has_room (tcp_mss_local p) (unsent_oversize p) (unsent p)) → sending r A B W L N p.
Proof. intros [[? ? ? ? ? _ ? ? ?] ? ? ? ?] Hr. by split; [split|..]. Qed.

Lemma sending_any r A B W L N p : sending r A B W L N p → sending false A B W L N p.
Proof. intros [[? ? ? ? ? _ ? ? ?] ? ? ? ?]. by split; [split|..]. Qed.

(** A connection with the queues of [s0] that has sent pieces of the stream. *)
Record same_queues (W E : Z) (s0 s : tcp) : Prop := {
  sq_view : out_view s = out_view s0;
  sq_unsent : unsent (pcb s) = unsent (pcb s0);
  sq_unacked : unacked (pcb s) = unacked (pcb s0);
  sq_oversize : unsent_oversize (pcb s) = unsent_oversize (pcb s0);
  sq_nxt : snd_nxt (pcb s) = snd_nxt (pcb s0);
  sq_sent : sends (pk_ok S W E (pcb s0)) s0 s }.

(** What a call leaves that started in [s0], the queues apart. *)
Record out_rest (W E : Z) (s0 s : tcp) : Prop := {
  or_view : out_view s = out_view s0;
  or_sent : sends (pk_ok S W E (pcb s0)) s0 s;
  or_fit : ∀ k, all_fit k (pcb s0) → all_fit k (pcb s) }.

Lemma out_rest_trans W E s s1 s2 : out_rest W E s s1 → out_rest W E s1 s2 → out_rest W E s s2.
Proof.
  intros [V1 S1 F1] [V2 S2 F2]. destruct (out_same _ _ V1) as (_ & _ & _ & _ & _ & _ & En & Ew). split; [congruence| |auto].
  eapply sends_trans; [done|]. destruct S2 as (l & El & Fl). exists l. split; [done|]. revert Fl. unfold pk_ok. by rewrite En, Ew.
Qed.

Lemma out_rest_pcb W E s f :
  (∀ p, out_pcb (f p) = out_pcb p) → (∀ k, all_fit k (pcb s) → all_fit k (f (pcb s))) → out_rest W E s (s <| pcb ::= f |>).
Proof. intros Hf Hk. split; [by apply out_view_pcb|by apply sends_nil|done]. Qed.

Lemma same_queues_rest W E s0 s : same_queues W E s0 s → out_rest W E s0 s.
Proof. intros [? Eu Ea ? ? ?]. split; [done..|]. unfold all_fit. by rewrite Eu, Ea. Qed.

Lemma same_queues_sending W E r A B L N s0 s :
  same_queues W E s0 s → sending r A B W L N (pcb s0) → sending r A B W L N (pcb s).
Proof. intros [? ? ? ? ? _] Hs. by eapply sending_same. Qed.

Definition out_post (r : bool) (A B W L N E : Z) (s0 s : tcp) : Prop :=
  out_rest W E s0 s ∧ ∃ B' N', B ≤ B' ∧ N ≤ N' ∧ sending r A B' W L N' (pcb s).

Lemma out_post_from r A B B1 W L N N1 E s0 s s' :
  out_post r A B1 W L N1 E s s' → out_rest W E s0 s → B ≤ B1 → N ≤ N1 → out_post r A B W L N E s0 s'.
Proof.
  intros (Hr & B' & N' & ? & ? & ?) Hr0 ? ?. split; [by eapply out_rest_trans|]. exists B', N'. split_and!; (done || lia).
Qed.

Lemma out_post_same r A B W L N E s s' : same_queues W E s s' → sending r A B W L N (pcb s) → out_post r A B W L N E s s'.
Proof.
  intros Hq Hs. split; [by apply same_queues_rest|]. exists B, N. split; [done|]. split; [done|]. by eapply same_queues_sending.
Qed.

Lemma output_done_ok (r : bool) A B W L N E s :
  sending false A B W L N (pcb s) →
  (r = true → unsent (pcb s) ≠ [] → has_room (tcp_mss_local (pcb s)) (unsent_oversize (pcb s)) (unsent (pcb s))) →
  wp output_done (λ _, out_post r A B W L N E s) s.
Proof.
  intros Hs Hr. unfold output_done. tcps.
  assert (∃ o, (if bool_decide (unsent (pcb s) = []) then pcb s <| unsent_oversize := 0 |> else pcb s) =
    pcb s <| unsent_oversize := o |> ∧ (unsent (pcb s) = [] ∧ o = 0 ∨ unsent (pcb s) ≠ [] ∧ o = unsent_oversize (pcb s))) as (o & E1 & Ho).
  { case_bool_decide; [eauto|]. exists (unsent_oversize (pcb s)). split; [by destruct (pcb s)|by right]. }
  split; [split; [by autorewrite with out|by apply sends_nil|]|].
  - intros k Hk. unfold all_fit, clear_flag. get_set. by rewrite E1.
  - exists B, N. split; [done|]. split; [done|]. get_set. rewrite E1. apply sending_room.
    + destruct Hs as [[? ? ? ? ? _ ? ? ?] ? ? ? ?]. by split; [split|..].
    + intros Er. specialize (Hr Er). unfold clear_flag. get_set. change (tcp_mss_local _) with (tcp_mss_local (pcb s)).
      destruct Ho as [[-> ->]|[Hne ->]]; [done|by apply Hr].
Qed.

(** The head of the queue, given to IP, with its new header. *)
Lemma output_head_ok a seg s W E :
  seg_at a seg → a + seg_len seg ≤ W → a + seg_len seg ≤ E →
  wp (tcp_output_segment (seg <| seg_hdr ::= TCPH_SET_FLAG TCP_ACK |>))
    (λ r s', same_queues W E s s' ∧ same_seg a seg r.1) s.
Proof.
  intros Hs HW HE. eapply wp_mono; [apply (output_segment_ok a _ s W E (ack_flag_at _ _ Hs)); get_set; lia|].
  intros r s' (? & ? & ? & ? & ? & (n & w & Hr) & ?). split; [done|]. pose proof (ack_flag_at _ _ Hs) as Ha. pose proof (ack_flag_rst seg).
  destruct Hr as [->| ->]; (split; [|done..]); [done|by apply ack_hdr_at].
Qed.

(** It takes the place of the old one. *)
Lemma sending_head r A B W L N p seg rest seg' f :
  sending r A B W L N p → unsent p = seg :: rest → same_seg B seg seg' →
  sending r A B W L N (set_flag f (p <| unsent := seg' :: rest |>)).
Proof.
  intros [[? ? Q3 Q4 ? Qr ? ? ?] ? ? ? Hh] Hu [Ha Hl Hp Hf Hr]. rewrite Hu in *. destruct Q3 as (Hs & Hpr & Hc).
  assert (TCP_TCPLEN seg' = TCP_TCPLEN seg) as Et by (by rewrite (tcplen_len _ _ Ha), (tcplen_len _ _ Hs)).
  split; [split|..]; unfold set_flag; get_set; try done.
  - cbn. rewrite Et, Hr. done.
  - rewrite Q4, !clens_app. cbn [clens]. by rewrite Hp.
  - intros Er. specialize (Qr Er). change (tcp_mss_local _) with (tcp_mss_local p). unfold has_room in *.
    destruct rest as [|s2 rest]; [|exact Qr]. cbn in *. by rewrite Hl, Hp, Hf.
  - destruct (unacked p); cbn in *; by rewrite ?Et.
Qed.

Lemma output_loop_ok wnd l : ∀ (r : bool) A B W L N s,
  sending false A B W L N (pcb s) → unsent (pcb s) = l →
  (r = true → unsent (pcb s) ≠ [] → has_room (tcp_mss_local (pcb s)) (unsent_oversize (pcb s)) (unsent (pcb s))) →
  state (pcb s) ≠ SYN_SENT → wp (output_loop wnd l) (λ _, out_post r A B W L N (L + wnd) s) s.
Proof.
  induction l as [|seg rest IH]; intros r A B W L N s Hs Hu Hr Hst; cbn [output_loop].
  { tcps. by apply output_done_ok. }
  destruct (beyond_window_ok _ _ _ _ _ _ _ _ wnd Hs Hu) as (Hseg & Hrst & [Hlen HlW] & Ebw).
  tcps. rewrite Ebw. destruct (Z.gtb_spec (B + seg_len seg) (L + wnd)); [by apply output_done_ok|].
  tcps. apply wp_assert; [unfold is_rst in Hrst; by rewrite Hrst|]. destruct (negb _ && negb _); [by apply output_done_ok|].
  rewrite bool_decide_eq_true_2 by done. apply wp_bind.
  eapply wp_mono; [apply (output_head_ok B _ s W (L + wnd) Hseg); lia|]. intros [seg' e] s1 [Hq Hsm]. cbn [fst snd] in *.
  pose proof (same_queues_sending _ _ _ _ _ _ _ _ _ Hq Hs) as Hs1. pose proof (same_queues_rest _ _ _ _ Hq) as Hre.
  destruct (out_same _ _ (sq_view _ _ _ _ Hq)) as (_ & _ & _ & _ & Em & Est & _).
  rewrite <- (sq_unsent _ _ _ _ Hq), <- Em, <- (sq_oversize _ _ _ _ Hq) in Hr. rewrite <- (sq_unsent _ _ _ _ Hq) in Hu.
  assert (∀ k, fits k seg → fits k seg') as Hft by (intros k; by apply (same_fits k B)).
  destruct (e =? ERR_OK); cbn [negb]; tcps.
  - pose proof (segment_sent_ok _ _ _ _ _ _ _ _ _ Hs1 Hu Hsm) as Hs2. destruct (segment_sent_keeps seg' rest (pcb s1)) as (K1 & K2 & K3 & K4 & _).
    eapply wp_mono; [apply (IH r A (B + seg_len seg) W L (Z.max N (B + seg_len seg)))|]; get_set; rewrite ?K1, ?K2, ?K3, ?K4; try done.
    + intros Er Hne. specialize (Hr Er). rewrite Hu in Hr. specialize (Hr ltac:(done)). destruct rest as [|s2 rest]; [done|]. exact Hr.
    + by rewrite Est.
    + intros e2 s2 Hpost. pose proof (sa_len _ _ _ _ Hseg). eapply out_post_from; [exact Hpost| |lia|lia].
      eapply out_rest_trans; [exact Hre|]. apply out_rest_pcb; [intros; apply segment_sent_keeps|].
      intros k Hk. unfold all_fit in *. rewrite K4, Hu in *. apply Forall_app in Hk as [Hk1 Hk2]. apply Forall_cons_iff in Hk2 as [Hk2 Hk3].
      apply Forall_app. split; [|done]. by apply segment_sent_fit; [|apply Hft].
  - split.
    + eapply out_rest_trans; [exact Hre|]. apply out_rest_pcb; [intros; reflexivity|]. intros k Hk. unfold all_fit, set_flag in *. get_set.
      rewrite Hu in Hk. apply Forall_app in Hk as [Hk1 Hk2]. apply Forall_cons_iff in Hk2 as [Hk2 Hk3]. apply Forall_app. split; [done|].
      constructor; auto.
    + exists B, N. split; [done|]. split; [done|]. apply (sending_head _ _ _ _ _ _ _ seg); [|done..].
      apply sending_room; [done|]. intros Er. apply Hr; [done|]. by rewrite Hu.
Qed.

(** ** A segment that is sent again *)

(** [s] is taken from the head of the unsent queue [s :: u] and put before those
    that are not acknowledged. *)
Definition put_back (s : tcp_seg) (u : list tcp_seg) (p : tcp_pcb) : tcp_pcb := p <| unacked := s :: unacked p |> <| unsent := u |>.

(** The first segment that is not acknowledged is on the unsent queue again. *)
Definition resending (r : bool) (A B W L N : Z) (p : tcp_pcb) : Prop :=
  ∃ s u, unsent p = s :: u ∧ sending r A B W L N (put_back s u p).

Lemma resend_head r A B W L N p s u wnd :
  sending r A B W L N (put_back s u p) →
  seg_at A s ∧ is_rst s = false ∧ 0 < seg_len s ∧ L < A + seg_len s ≤ B ∧ beyond_window p wnd s = (A + seg_len s >? L + wnd).
Proof.
  intros [[_ Q2 Q3 _ _ _ _ Q8 _] Hla _ Ho Hh]. unfold put_back in *. get_set_in Q2. get_set_in Q3. get_set_in Hla. get_set_in Hh.
  destruct Q2 as (Hs & [Hpos Hr] & Hc). cbn in Hh. rewrite (tcplen_len _ _ Hs) in *. pose proof (chain_le _ _ _ Hc). pose proof (chain_le _ _ _ Q3).
  change TCP_SND_BUF with 16384 in *. split_and!; try done; [len_lia|]. unfold beyond_window. rewrite (sa_seqno _ _ _ _ Hs), Hla.
  rewrite (at_u32_eq (u32 A - u32 L + seg_len s) (A - L + seg_len s)), u32_small by len_lia.
  destruct (Z.gtb_spec (A - L + seg_len s) wnd), (Z.gtb_spec (A + seg_len s) (L + wnd)); (done || lia).
Qed.

(** The same with other flags and another header of the segment. *)
Lemma resend_same r A B W L N p s u s' p' :
  sending r A B W L N (put_back s u p) → same_seg A s s' → out_pcb p' = out_pcb p → unacked p' = unacked p →
  unsent_oversize p' = unsent_oversize p → snd_nxt p' = snd_nxt p → sending r A B W L N (put_back s' u p').
Proof.
  intros [[Q1 Q2 Q3 Q4 Q5 Q6 Q7 Q8 Q9] Hla Hnx Ho Hh] [Ha Hl Hp _ Hr] Ev E1 E2 E3. unfold put_back in *. get_set_in Q1. get_set_in Q2.
  get_set_in Q3. get_set_in Q4. get_set_in Q5. get_set_in Q6. get_set_in Q7. get_set_in Q8. get_set_in Q9. get_set_in Hla. get_set_in Hnx.
  get_set_in Hh. destruct Q2 as (Hs & Hpr & Hc). assert (TCP_TCPLEN s' = TCP_TCPLEN s) as Et by (by rewrite (tcplen_len _ _ Ha), (tcplen_len _ _ Hs)).
  assert (tcp_mss_local p' = tcp_mss_local p) as Em.
  { unfold tcp_mss_local. assert (mss p' = mss p) as -> by exact (f_equal mss Ev).
    by assert (snd_wnd_max p' = snd_wnd_max p) as -> by exact (f_equal snd_wnd_max Ev). }
  assert (snd_lbb p' = snd_lbb p) as F1 by exact (f_equal snd_lbb Ev).
  assert (snd_queuelen p' = snd_queuelen p) as F2 by exact (f_equal snd_queuelen Ev).
  assert (snd_buf p' = snd_buf p) as F3 by exact (f_equal snd_buf Ev).
  assert (lastack p' = lastack p) as F4 by exact (f_equal lastack Ev).
  assert (∀ q a l, tcp_mss_local (q <| unacked := a |> <| unsent := l |>) = tcp_mss_local q) as F5 by done.
  split; [split|..]; get_set; rewrite ?F5, ?Em, ?E1, ?E2, ?E3, ?F1, ?F2, ?F3, ?F4; try done.
  - split; [done|]. by rewrite Et, Hr.
  - by rewrite Q4; cbn [clens app]; rewrite Hp.
  - cbn. by rewrite Et.
Qed.

(** When it is sent the queues are as before. *)
Lemma resent_ok r A B W L N p s u s' :
  sending r A B W L N (put_back s u p) → same_seg A s s' → sending r A B W L N (segment_sent s' u p).
Proof.
  intros Hs Hsm. destruct (resend_head _ _ _ _ _ _ _ _ _ 0 Hs) as (_ & _ & Hpos & [_ HB] & _). pose proof Hsm as [Ha Hl _ _ _].
  assert (queue_unacked s' (unacked p) = s' :: unacked p) as Eq.
  { destruct Hs as [[_ Q2 Q3 _ _ _ _ Q8 _] _ _ _ _]. unfold put_back in *. get_set_in Q2. get_set_in Q3. destruct Q2 as (Hs0 & _ & Hc).
    pose proof (chain_le _ _ _ Q3). pose proof (chain_le _ _ _ Hc) as Hle. change TCP_SND_BUF with 16384 in *.
    assert (∀ c m, seg_at m c → A + seg_len s ≤ m ≤ B → TCP_SEQ_LT (seqno_of s') (seqno_of c) = true ∧
      TCP_SEQ_LT (seqno_of c) (seqno_of s') = false) as Hlt.
    { intros c m Hc1 Hm. rewrite (sa_seqno _ _ _ _ Ha), (sa_seqno _ _ _ _ Hc1), !(seq_lt (u32 A) (u32 m) A m), !(seq_lt (u32 m) (u32 A) m A) by len_lia.
      rewrite (proj2 (Z.ltb_lt A m)), (proj2 (Z.ltb_ge m A)) by lia. done. }
    rewrite (tcplen_len _ _ Hs0) in Hc, Hle. unfold queue_unacked. destruct (unacked p) as [|c l _] eqn:El using rev_ind; [done|].
    rewrite list_last_snoc. pose proof Hc as Hc1. apply chain_app in Hc1 as (m & Hc1 & Hu & _ & HB2). pose proof (chain_le _ _ _ Hc1). cbn in HB2.
    assert (0 ≤ TCP_TCPLEN c) by (rewrite (tcplen_len _ _ Hu); apply (sa_len _ _ _ _ Hu)).
    destruct (Hlt c m Hu) as [-> _]; [len_lia|]. destruct l as [|c2 l].
    - cbn [app insert_sorted]. cbn in Hc1. subst m. by destruct (Hlt c _ Hu) as [_ ->]; [lia|].
    - cbn [app insert_sorted]. destruct Hc as (Hs2 & _). by destruct (Hlt c2 _ Hs2) as [_ ->]; [lia|]. }
  assert (TCP_SEQ_LT (snd_nxt p) (u32 (seqno_of s' + TCP_TCPLEN s')) = false) as En.
  { destruct Hs as [[_ Q2 Q3 _ _ _ _ Q8 _] _ Hnx Ho _]. unfold put_back in *. get_set_in Hnx. get_set_in Q3. pose proof (chain_le _ _ _ Q3).
    change TCP_SND_BUF with 16384 in *. rewrite Hnx, (sa_seqno _ _ _ _ Ha), (tcplen_len _ _ Ha), Hl.
    rewrite (at_u32_eq (u32 A + seg_len s) (A + seg_len s)), (seq_lt (u32 N) _ N (A + seg_len s)) by len_lia. apply Z.ltb_ge. lia. }
  unfold segment_sent. rewrite (tcplen_len _ _ Ha), Hl. destruct (Z.gtb_spec (seg_len s) 0); [|lia].
  rewrite (tcplen_len _ _ Ha), Hl in En.
  assert (∃ f, (if bool_decide (state (p <| unsent := u |>) ≠ SYN_SENT) then
    clear_flag (Z.lor TF_ACK_DELAY TF_ACK_NOW) (p <| unsent := u |>) else p <| unsent := u |>) = p <| unsent := u |> <| pcb_flags := f |>) as [f ->]
    by (case_bool_decide; [by eexists|]; exists (pcb_flags p); by destruct p).
  get_set. rewrite En.
  assert (sending r A B W L N (put_back s' u (p <| pcb_flags := f |>))) as Hres by (by apply (resend_same _ _ _ _ _ _ p s)).
  unfold put_back in Hres. assert (∀ q : tcp_pcb, q <| unsent := u |> <| pcb_flags := f |> <| unacked ::= queue_unacked s' |> =
    q <| pcb_flags := f |> <| unacked := queue_unacked s' (unacked q) |> <| unsent := u |>) as -> by reflexivity.
  change (unacked (p <| pcb_flags := f |>)) with (unacked p) in Hres. rewrite Eq. exact Hres.
Qed.

(** The first turn of the loop, for such a segment. *)
Definition resend_post (r : bool) (A B W L N E : Z) (s0 s : tcp) : Prop :=
  out_rest W E s0 s ∧ ((∃ B' N', B ≤ B' ∧ N ≤ N' ∧ sending r A B' W L N' (pcb s)) ∨ resending r A B W L N (pcb s)).

Lemma resend_done r A B W L N E s : resending r A B W L N (pcb s) → wp output_done (λ _, resend_post r A B W L N E s) s.
Proof.
  intros (c & u & Hu & Hs). unfold output_done. tcps. match goal with |- resend_post _ _ _ _ _ _ _ _ ?x => set (s2 := x) end.
  assert (pcb s2 = clear_flag TF_NAGLEMEMERR (pcb s)) as E2.
  { change (pcb s2) with (clear_flag TF_NAGLEMEMERR (if bool_decide (unsent (pcb s) = []) then pcb s <| unsent_oversize := 0 |> else pcb s)).
    by rewrite Hu. }
  split; [split; [subst s2; by autorewrite with out|by apply sends_nil|]|].
  - intros k Hk. rewrite E2. exact Hk.
  - right. rewrite E2. exists c, u. split; [done|]. destruct (resend_head _ _ _ _ _ _ _ _ _ 0 Hs) as (Hc & _).
    by apply (resend_same _ _ _ _ _ _ (pcb s) c).
Qed.

Lemma resend_loop_ok wnd (r : bool) A B W L N s c u :
  sending r A B W L N (put_back c u (pcb s)) → unsent (pcb s) = c :: u → state (pcb s) ≠ SYN_SENT →
  wp (output_loop wnd (c :: u)) (λ _, resend_post r A B W L N (L + wnd) s) s.
Proof.
  intros Hs Hu Hst. assert (resending r A B W L N (pcb s)) as Hre by (by exists c, u).
  destruct (resend_head _ _ _ _ _ _ _ _ _ wnd Hs) as (Hseg & Hrst & Hpos & [Hlen HlB] & Ebw). cbn [output_loop].
  assert (B ≤ W) as HBW by (pose proof (se_order _ _ _ _ _ _ _ Hs); lia).
  tcps. rewrite Ebw. destruct (Z.gtb_spec (A + seg_len c) (L + wnd)); [by apply resend_done|].
  tcps. apply wp_assert; [unfold is_rst in Hrst; by rewrite Hrst|]. destruct (negb _ && negb _); [by apply resend_done|].
  rewrite bool_decide_eq_true_2 by done. apply wp_bind.
  eapply wp_mono; [apply (output_head_ok A c s W (L + wnd) Hseg); lia|]. intros [c' e] s1 [Hq Hsm]. cbn [fst snd] in *.
  pose proof (same_queues_rest _ _ _ _ Hq) as Hr1. destruct Hq as [Hv Eu Ea Eo En _]. rewrite Hu in Eu.
  assert (sending r A B W L N (put_back c u (pcb s1))) as Hs1.
  { apply (resend_same _ _ _ _ _ _ (pcb s) c); try done. exact (f_equal pcb Hv). }
  assert (∀ k, fits k c → fits k c') as Hft by (intros k; by apply (same_fits k A)).
  destruct (e =? ERR_OK); cbn [negb]; tcps.
  - pose proof (resent_ok _ _ _ _ _ _ _ _ _ _ Hs1 Hsm) as Hs2. destruct (segment_sent_keeps c' u (pcb s1)) as (K1 & K2 & K3 & K4 & _).
    eapply wp_mono; [apply (output_loop_ok wnd u r A B W L N)|]; get_set; rewrite ?K3; try done; [by eapply sending_any| | |].
    + intros Er _. by apply (qu_room _ _ _ _ _ (se_queue _ _ _ _ _ _ _ Hs2)).
    + destruct (out_same _ _ Hv) as (_ & _ & _ & _ & _ & -> & _). done.
    + intros e2 s2 (Hr2 & B' & N' & ? & ? & ?). split; [|left; by exists B', N'].
      eapply out_rest_trans; [exact Hr1|]. eapply out_rest_trans; [|exact Hr2]. apply out_rest_pcb; [intros; apply segment_sent_keeps|].
      intros k Hk. unfold all_fit in *. rewrite K4. rewrite Eu in Hk. apply Forall_app in Hk as [Hk1 Hk2]. apply Forall_cons_iff in Hk2 as [Hk2 Hk3].
      apply Forall_app. split; [|done]. by apply segment_sent_fit; [|apply Hft].
  - split.
    + eapply out_rest_trans; [exact Hr1|]. apply out_rest_pcb; [intros; reflexivity|]. intros k Hk. unfold all_fit, set_flag in *. get_set.
      rewrite Eu in Hk. apply Forall_app in Hk as [Hk1 Hk2]. apply Forall_cons_iff in Hk2 as [Hk2 Hk3]. apply Forall_app. split; [done|].
      constructor; auto.
    + right. exists c', u. split; [done|]. by apply (resend_same _ _ _ _ _ _ (pcb s1) c).
Qed.

(** ** [tcp_output] *)

Lemma send_empty_ack_out W E s (Hn : ∃ N, snd_nxt (pcb s) = u32 N ∧ N ≤ W) : wp tcp_send_empty_ack (λ _, same_queues W E s) s.
Proof.
  destruct Hn as (N & HN & HNW). unfold tcp_send_empty_ack, tcp_output_alloc_header, send_header, ip_output, set_flag, clear_flag. tcps.
  destruct (pbuf_mem _); tcps; [|split; [by autorewrite with out|done..|by apply sends_nil]].
  destruct (ip_route _); tcps; [|split; [by autorewrite with out|done..|by apply sends_nil]].
  destruct (negb _); (split; [by autorewrite with out|done..|]); eexists; (split; [done|]); apply Forall_singleton;
    (split; [done|]; split; [done|]); exists N; cbn; (split_and!; (done || len_lia)).
Qed.

(** The parts of the call: it returns with the queues as they are, or ends with
    the loop or with what follows it. *)
Lemma tcp_output_parts W E (Q : Z → tcp → Prop) s :
  state (pcb s) ≠ LISTEN → (∃ N, snd_nxt (pcb s) = u32 N ∧ N ≤ W) → (∀ e s', same_queues W E s s' → Q e s') →
  (∀ s', same_queues W E s s' → wp (output_loop (Z.min (snd_wnd (pcb s)) (cwnd (pcb s))) (unsent (pcb s'))) Q s') →
  (∀ s', same_queues W E s s' → wp output_done Q s') → wp tcp_output Q s.
Proof.
  intros Hli Hn Hsame Hloop Hdone. unfold tcp_output. tcps. apply wp_assert; [by rewrite bool_decide_eq_true_2|]. tcps.
  assert (∀ s', out_view s' = out_view s → unsent (pcb s') = unsent (pcb s) → unacked (pcb s') = unacked (pcb s) →
    unsent_oversize (pcb s') = unsent_oversize (pcb s) → snd_nxt (pcb s') = snd_nxt (pcb s) → sent s' = sent s → same_queues W E s s') as Hsq.
  { intros s' ? ? ? ? ? ?. split; try done. by apply sends_nil. }
  destruct (tcp_input_pcb s); [tcps; by apply Hsame, Hsq|].
  destruct (has _ _ && _); [eapply wp_mono; [by apply (send_empty_ack_out W E)|done]|].
  tcps. destruct (ip_route _); cbn [negb]; [|tcps; by apply Hsame, Hsq].
  apply wp_bind. eapply (wp_mono _ (λ _ s', asked s s')); [destruct (ip_addr_isany _); tcps; by eexists|].
  intros [ip|] s1 [k ->]; tcps; [|by apply Hsame, Hsq].
  match goal with |- wp _ _ ?s1 => set (s2 := s1) end. assert (same_queues W E s s2) as H2 by (apply Hsq; subst s2; by autorewrite with out).
  destruct (negb _ && _ && _ && _ && _); [|apply (Hloop s2); done]. tcps. apply Hdone.
  match goal with |- same_queues _ _ _ ?s3 => assert (∃ c b, s3 = s2 <| pcb ::= λ p, p <| persist_cnt := c |> <| persist_backoff := b |> |>) as (c & b & ->) end.
  { exists (if persist_backoff (pcb s2) =? 0 then 0 else persist_cnt (pcb s2)), (if persist_backoff (pcb s2) =? 0 then 1 else persist_backoff (pcb s2)).
    assert (∀ f g, f (pcb s2) = g (pcb s2) → s2 <| pcb ::= f |> = s2 <| pcb ::= g |>) as Hext 
      by (intros f g Efg; change (s2 <| pcb := f (pcb s2) |> = s2 <| pcb := g (pcb s2) |>); by rewrite Efg).
    apply Hext. destruct (persist_backoff (pcb s2) =? 0); [done|]. by destruct (pcb s2). }
  by apply Hsq; subst s2; [autorewrite with out|..].
Qed.

Lemma tcp_output_ok (r : bool) A B W L N s :
  sending r A B W L N (pcb s) → state (pcb s) ≠ LISTEN → state (pcb s) ≠ SYN_SENT →
  wp tcp_output (λ _, out_post r A B W L N (L + Z.min (snd_wnd (pcb s)) (cwnd (pcb s))) s) s.
Proof.
  intros Hs Hli Hst. set (E := L + _).
  assert (∀ s', same_queues W E s s' → sending r A B W L N (pcb s') ∧ out_rest W E s s' ∧ state (pcb s') ≠ SYN_SENT) as Hq.
  { intros s' Hq. split; [by eapply same_queues_sending|]. split; [by apply same_queues_rest|].
    destruct (out_same _ _ (sq_view _ _ _ _ Hq)) as (_ & _ & _ & _ & _ & -> & _). done. }
  apply (tcp_output_parts W E); [done| | | |].
  - exists N. split; [apply (se_nxt _ _ _ _ _ _ _ Hs)|]. pose proof (se_order _ _ _ _ _ _ _ Hs). lia.
  - intros e s' H2. by apply out_post_same.
  - intros s' H2. destruct (Hq _ H2) as (Hs' & Hr & Hst'). eapply wp_mono; [eapply (output_loop_ok _ _ r A B W L N s'); try done; [by eapply sending_any|]|].
    + intros Er _. by apply (qu_room _ _ _ _ _ (se_queue _ _ _ _ _ _ _ Hs')).
    + intros e s2 Hp. eapply out_post_from; [exact Hp|done|lia|lia].
  - intros s' H2. destruct (Hq _ H2) as (Hs' & Hr & _). eapply wp_mono; [eapply (output_done_ok r A B W L N E s'); [by eapply sending_any|]|].
    + intros Er _. by apply (qu_room _ _ _ _ _ (se_queue _ _ _ _ _ _ _ Hs')).
    + intros e s2 Hp. eapply out_post_from; [exact Hp|done|lia|lia].
Qed.

Lemma resend_output_ok (r : bool) A B W L N s :
  resending r A B W L N (pcb s) → state (pcb s) ≠ LISTEN → state (pcb s) ≠ SYN_SENT →
  wp tcp_output (λ _, resend_post r A B W L N (L + Z.min (snd_wnd (pcb s)) (cwnd (pcb s))) s) s.
Proof.
  intros (c & u & Hu & Hs) Hli Hst. set (E := L + _). destruct (resend_head _ _ _ _ _ _ _ _ _ 0 Hs) as (Hc & _).
  assert (∀ s', same_queues W E s s' → sending r A B W L N (put_back c u (pcb s')) ∧ unsent (pcb s') = c :: u ∧ out_rest W E s s' ∧
    state (pcb s') ≠ SYN_SENT) as Hq.
  { intros s' Hq. pose proof (same_queues_rest _ _ _ _ Hq). destruct Hq as [Hv -> ? ? ? _]. split_and!; try done.
    - apply (resend_same _ _ _ _ _ _ (pcb s) c); try done. exact (f_equal pcb Hv).
    - destruct (out_same _ _ Hv) as (_ & _ & _ & _ & _ & -> & _). done. }
  assert (∀ s' s2, out_rest W E s s' → resend_post r A B W L N E s' s2 → resend_post r A B W L N E s s2) as Hfrom.
  { intros s' s2 ? [? Hor]. split; [by eapply out_rest_trans|exact Hor]. }
  apply (tcp_output_parts W E); [done| | | |].
  - exists N. split; [apply (se_nxt _ _ _ _ _ _ _ Hs)|]. pose proof (se_order _ _ _ _ _ _ _ Hs). lia.
  - intros e s' H2. destruct (Hq _ H2) as (? & ? & ? & _). split; [done|]. right. by exists c, u.
  - intros s' H2. destruct (Hq _ H2) as (Hs' & Hu' & ? & ?). rewrite Hu'. eapply wp_mono; [by apply (resend_loop_ok _ r A B W L N s')|].
    intros e s2. by apply Hfrom.
  - intros s' H2. destruct (Hq _ H2) as (Hs' & Hu' & ? & _). eapply wp_mono; [apply (resend_done r A B W L N E s'); by exists c, u|].
    intros e s2. by apply Hfrom.
Qed.

End Output.

(** (C15) What [tcp_output] hands to IP.  Where the queues hold the stream, the
    call never fails; every packet it sends is a piece of the stream with the
    right number, carries the current acknowledgement and announces the current
    window, and its data lie behind what the peer has acknowledged and end
    within both the window of the peer and the congestion window; afterwards,
    whatever IP returned, the queues still hold the stream, the sent part of it
    has not become shorter, and everything else but timers, flags and the
    announced edge is the same. *)
Theorem tcp_output_in_window `{TcpEnv} S (r : bool) A B W L N s :
  sending (S := S) r A B W L N (pcb s) → state (pcb s) ≠ LISTEN → state (pcb s) ≠ SYN_SENT →
  wp tcp_output (λ _ s', out_view s' = out_view s ∧
    (∃ pks, sent s' = sent s ++ pks ∧ Forall (λ pk, h_ackno (pk_hdr pk) = rcv_nxt (pcb s) ∧ h_wnd (pk_hdr pk) = rcv_ann_wnd (pcb s) ∧
      ∃ a, h_seqno (pk_hdr pk) = u32 a ∧ pk_data pk = span S a (zlen (pk_data pk)) ∧ a + zlen (pk_data pk) ≤ W ∧
        (pk_data pk ≠ [] → a + zlen (pk_data pk) ≤ L + Z.min (snd_wnd (pcb s)) (cwnd (pcb s)))) pks) ∧
    ∃ B' N', B ≤ B' ∧ N ≤ N' ∧ sending (S := S) r A B' W L N' (pcb s')) s.
Proof.
  intros Hs Hli Hst. eapply wp_mono; [by apply (tcp_output_ok r A B W L N s Hs)|].
  intros e s' ([Hv (pks & E & Hp) _] & B' & N' & ? & ? & Hs'). split; [done|]. split; [by exists pks|]. by exists B', N'.
Qed.

Definition three_written : tcp := after (tcp_write (H := good_env) (Some 0) [1; 2; 3] TCP_WRITE_FLAG_COPY) open_conn.

Lemma three_written_val : three_written = ltac:(let x := eval vm_compute in three_written in exact x).
Proof. vm_compute. reflexivity. Qed.

Lemma three_written_ok : sending (S := λ i, i - 499) true 500 500 503 500 500 (pcb three_written).
Proof.
  rewrite three_written_val. split; [|done..]. split; [done|done| |done..]. split; [|done].
  split; [done|eexists; split; [reflexivity|done]|done..].
Qed.

Lemma three_state : state (pcb three_written) = ESTABLISHED.
Proof. by rewrite three_written_val. Qed.

Lemma three_sent e s' : tcp_output (H := good_env) three_written = Ok (e, s') → pk_data <$> sent s' = [[1; 2; 3]].
Proof. intros E. rewrite <- (after_ok _ _ _ _ E). vm_compute. done. Qed.

Lemma tcp_output_in_window_witness :
  ∃ e s', tcp_output (H := good_env) three_written = Ok (e, s') ∧ pk_data <$> sent s' = [[1; 2; 3]] ∧
    ∃ B N, sending (S := λ i, i - 499) true 500 B 503 500 N (pcb s').
Proof.
  destruct (tcp_output_in_window (H := good_env) (λ i, i - 499) true 500 500 503 500 500 three_written three_written_ok)
    as (e & s' & E & _ & _ & Hrest); [by rewrite three_state..|].
  exists e, s'. split; [done|]. split; [by eapply three_sent|]. destruct Hrest as (B & N & _ & _ & Hs'). by exists B, N.
Defined.
