(* ===== verification/LwipTcpAck.v ===== *)
(** TCP of lwIP, acknowledgements: exactly the segments that are acknowledged
    leave the queues, and their bytes are given back to the application. *)
From S2P Require Import Prelude.
From S2P Require Import LwipTcp.
From S2P Require Import LwipTcpOut.
From S2P Require Import LwipTcpIn.
From S2P Require Import LwipTcpProcess.
From S2P Require Import LwipTcpExamples.
From S2P Require Import LwipTcpSeq.
From S2P Require Import LwipTcpRx.
From S2P Require Import LwipTcpTx.
From S2P Require Import LwipTcpOutput.

(** A connection without its windows, timers and flags. *)
Definition tuned (p : tcp_pcb) : tcp_pcb :=
  p <| snd_wnd := 0 |> <| snd_wnd_max := 0 |> <| snd_wl1 := 0 |> <| snd_wl2 := 0 |> <| persist_cnt := 0 |>
    <| persist_backoff := 0 |> <| dupacks := 0 |> <| cwnd := 0 |> <| ssthresh := 0 |> <| pcb_flags := 0 |> <| nrtx := 0 |>
    <| rto := 0 |> <| rtime := 0 |> <| polltmr := 0 |> <| sa := 0 |> <| sv := 0 |> <| rttest := 0 |>
    <| rcv_ann_right_edge := 0 |>.

Lemma tuned_snd_wnd p f : tuned (p <| snd_wnd ::= f |>) = tuned p.
Proof. reflexivity. Qed.
Lemma tuned_snd_wnd_max p f : tuned (p <| snd_wnd_max ::= f |>) = tuned p.
Proof. reflexivity. Qed.
Lemma tuned_snd_wl1 p f : tuned (p <| snd_wl1 ::= f |>) = tuned p.
Proof. reflexivity. Qed.
Lemma tuned_snd_wl2 p f : tuned (p <| snd_wl2 ::= f |>) = tuned p.
Proof. reflexivity. Qed.
Lemma tuned_persist_cnt p f : tuned (p <| persist_cnt ::= f |>) = tuned p.
Proof. reflexivity. Qed.
Lemma tuned_persist_backoff p f : tuned (p <| persist_backoff ::= f |>) = tuned p.
Proof. reflexivity. Qed.
Lemma tuned_dupacks p f : tuned (p <| dupacks ::= f |>) = tuned p.
Proof. reflexivity. Qed.
Lemma tuned_cwnd p f : tuned (p <| cwnd ::= f |>) = tuned p.
Proof. reflexivity. Qed.
Lemma tuned_ssthresh p f : tuned (p <| ssthresh ::= f |>) = tuned p.
Proof. reflexivity. Qed.
Lemma tuned_pcb_flags p f : tuned (p <| pcb_flags ::= f |>) = tuned p.
Proof. reflexivity. Qed.
Lemma tuned_nrtx p f : tuned (p <| nrtx ::= f |>) = tuned p.
Proof. reflexivity. Qed.
Lemma tuned_rto p f : tuned (p <| rto ::= f |>) = tuned p.
Proof. reflexivity. Qed.
Lemma tuned_rtime p f : tuned (p <| rtime ::= f |>) = tuned p.
Proof. reflexivity. Qed.
Lemma tuned_polltmr p f : tuned (p <| polltmr ::= f |>) = tuned p.
Proof. reflexivity. Qed.
Lemma tuned_sa p f : tuned (p <| sa ::= f |>) = tuned p.
Proof. reflexivity. Qed.
Lemma tuned_sv p f : tuned (p <| sv ::= f |>) = tuned p.
Proof. reflexivity. Qed.
Lemma tuned_rttest p f : tuned (p <| rttest ::= f |>) = tuned p.
Proof. reflexivity. Qed.
Lemma tuned_rcv_ann_right_edge p f : tuned (p <| rcv_ann_right_edge ::= f |>) = tuned p.
Proof. reflexivity. Qed.
Lemma tuned_lastack p f : tuned (p <| lastack ::= f |>) = tuned p <| lastack ::= f |>.
Proof. reflexivity. Qed.
Create Rewrite HintDb tuned.
#[export] Hint Rewrite tuned_snd_wnd tuned_snd_wnd_max tuned_snd_wl1 tuned_snd_wl2 tuned_persist_cnt tuned_persist_backoff
  tuned_dupacks tuned_cwnd tuned_ssthresh tuned_pcb_flags tuned_nrtx tuned_rto tuned_rtime
  tuned_polltmr tuned_sa tuned_sv tuned_rttest tuned_rcv_ann_right_edge tuned_lastack : tuned.

Ltac tuned := unfold set_flag, clear_flag; with_strategy opaque [set_field] (autorewrite with tuned; reflexivity).

Lemma update_snd_wnd_tuned n a w p :
  tuned (update_snd_wnd n a w p) = tuned p ∧ snd_wnd_max p ≤ snd_wnd_max (update_snd_wnd n a w p) ∧
  cwnd (update_snd_wnd n a w p) = cwnd p ∧ ssthresh (update_snd_wnd n a w p) = ssthresh p ∧
  dupacks (update_snd_wnd n a w p) = dupacks p.
Proof. unfold update_snd_wnd. cbv zeta. repeat case_match; (split_and!; [tuned|get_set; clear; lia|get_set; reflexivity..]). Qed.

(** The first segment that is not acknowledged goes back to the unsent queue. *)
Definition requeued (seg : tcp_seg) (rest : list tcp_seg) (p : tcp_pcb) : tcp_pcb :=
  let last_one := forallb (λ cur, TCP_SEQ_LT (seqno_of cur) (seqno_of seg)) (unsent p) in
  p <| unacked := rest |> <| unsent ::= insert_sorted seg |> <| unsent_oversize := if last_one then 0 else unsent_oversize p |>.

(** The third acknowledgement of the same number. *)
Definition third_dup (ack : Z) (p : tcp_pcb) : Prop := dupacks p = 2 ∧ lastack p = ack.

Lemma rexmit_fast_tuned p :
  (tuned (tcp_rexmit_fast p) = tuned p ∨ ∃ seg rest, unacked p = seg :: rest ∧ tuned (tcp_rexmit_fast p) = tuned (requeued seg rest p)) ∧
  snd_wnd_max (tcp_rexmit_fast p) = snd_wnd_max p.
Proof.
  unfold tcp_rexmit_fast. destruct (_ && _) eqn:E; [|by split; [left|]]. unfold tcp_rexmit.
  destruct (unacked p) as [|seg rest] eqn:Eu; [by rewrite bool_decide_eq_true_2 in E|]. cbv zeta.
  fold (requeued seg rest p). unfold rexmit_started. split.
  - right. exists seg, rest. split; [done|]. generalize (requeued seg rest p) as q. intros q. destruct (nrtx q <? 255); tuned.
  - unfold set_flag. by destruct (nrtx _ <? 255); get_set.
Qed.

Lemma ack_old_tuned a len e p :
  (tuned (ack_old a len e p) = tuned p ∨
    third_dup a p ∧ ∃ seg rest, unacked p = seg :: rest ∧ tuned (ack_old a len e p) = tuned (requeued seg rest p)) ∧
  snd_wnd_max (ack_old a len e p) = snd_wnd_max p.
Proof.
  unfold ack_old. destruct (_ && _ && _ && _) eqn:Ec; [|split; [left; tuned|by get_set]]. cbv zeta.
  apply andb_prop in Ec as [_ Ela]. apply Z.eqb_eq in Ela.
  destruct (u8 (dupacks p + 1) >? dupacks p) eqn:E; get_set.
  - destruct (Z.gtb_spec (dupacks p + 1) 3); [by case_match; (split; [left; tuned|by get_set])|].
    destruct (Z.eqb_spec (dupacks p + 1) 3); [|split; [left; tuned|by get_set]].
    set (q := p <| dupacks ::= λ n, n + 1 |>). destruct (rexmit_fast_tuned q) as [Hq Hw].
    assert (tuned q = tuned p) as Et by (subst q; tuned). split; [|rewrite Hw; reflexivity].
    destruct Hq as [->|(seg & rest & Eu & ->)]; [by left|]. right. split; [split; [lia|done]|].
    exists seg, rest. split; [exact Eu|].
    assert (∀ q' p', tuned q' = tuned p' → unsent q' = unsent p' → unsent_oversize q' = unsent_oversize p' →
      tuned (requeued seg rest q') = tuned (requeued seg rest p')) as Hr; [|by apply Hr].
    intros q' p' E' E1 E2. unfold requeued. rewrite E1, E2. generalize (forallb (λ cur, TCP_SEQ_LT (seqno_of cur) (seqno_of seg)) (unsent p')) as b. intros b.
    exact (f_equal (λ t, t <| unacked := rest |> <| unsent ::= insert_sorted seg |> <| unsent_oversize := if b then 0 else unsent_oversize p' |>) E').
  - destruct (Z.gtb_spec (dupacks p) 3); [by case_match; (split; [left; tuned|by get_set])|].
    destruct (Z.eqb_spec (dupacks p) 3) as [E3|]; [|by split; [left|]]. rewrite E3 in E. done.
Qed.

Lemma ack_new_tuned a p :
  0 < cwnd p → 0 < ssthresh p → ∃ p', ack_new a p = Ok p' ∧ tuned p' = tuned p <| lastack := a |> ∧
    snd_wnd_max p' = snd_wnd_max p.
Proof.
  intros Hc Hs. unfold ack_new. cbv zeta.
  assert (∃ p1, (if has (pcb_flags p) TF_INFR then clear_flag TF_INFR p <| cwnd := ssthresh p |> else p) = p1 ∧
    tuned p1 = tuned p ∧ snd_wnd_max p1 = snd_wnd_max p ∧ 0 < cwnd p1) as (p1 & -> & Ht & Hm & Hc1).
  { eexists. split; [reflexivity|]. destruct (has _ _); [|done]. split_and!; [tuned|by unfold clear_flag; get_set|by get_set]. }
  rewrite <- Ht, <- Hm. get_set. repeat case_match; try lia; eexists; (split; [reflexivity|]; split; [tuned|by get_set]).
Qed.

Lemma estimate_rtt_tuned a t p : tuned (estimate_rtt a t p) = tuned p ∧ snd_wnd_max (estimate_rtt a t p) = snd_wnd_max p.
Proof. unfold estimate_rtt. cbv zeta. case_match; [split; [tuned|by get_set]|done]. Qed.

Section Ack.
Context `{TcpEnv} {S : Z → Z}.
Abbreviation chain := (chain (S := S) (F := None)).
Abbreviation seg_at := (seg_at S None).
Abbreviation sending := (sending (S := S)).

(** What is left of a queue that starts at [A]. *)
Definition rest_of (K A B : Z) (l : list tcp_seg) (A' : Z) (l' : list tcp_seg) : Prop :=
  chain A' B l' ∧ A ≤ A' ∧ (A' = A ∨ A' ≤ K) ∧ (∃ pre, l = pre ++ l' ∧ chain A A' pre) ∧
  match l' with s :: _ => K < A' + TCP_TCPLEN s | [] => True end.

Lemma free_acked_ok a seg l p acked :
  seg_at a seg → snd_queuelen p = clens (seg :: l) → clens (seg :: l) ≤ TCP_SND_QUEUELEN →
  (l ≠ [] → valid_queues p = true) → 0 ≤ acked → acked + seg_len seg < 65536 →
  free_acked seg p acked = Ok (p <| snd_queuelen := clens l |>, acked + seg_len seg).
Proof.
  intros Hs Hq Hlim Hv Ha Hl. destruct (sa_bytes _ _ _ _ Hs) as (bufs & Hp & _). pose proof (sa_len _ _ _ _ Hs).
  unfold free_acked. rewrite Hp. cbn [clens] in *. rewrite Hp in *. cbn in Hq, Hlim. pose proof (clens_pos l).
  change TCP_SND_QUEUELEN with 128 in *. assert (u16 (pbuf_clen bufs) = zlen bufs) as -> by (apply u16_small; unfold pbuf_clen; len_lia).
  rewrite Hq. destruct (Z.geb_spec (zlen bufs + clens l) (zlen bufs)); [|len_lia]. cbn [negb]. get_set.
  change (valid_queues (p <| snd_queuelen ::= _ |>)) with (valid_queues p).
  assert ((snd_queuelen p - zlen bufs =? 0) || valid_queues p = true) as ->.
  { destruct l as [|s l]; [|by rewrite (Hv ltac:(done)), orb_true_r]. rewrite Hq. cbn. apply orb_true_iff. left. lia. }
  rewrite u16_small by lia. do 2 f_equal.
  transitivity (p <| snd_queuelen := snd_queuelen p - zlen bufs |>); [reflexivity|]. by replace (snd_queuelen p - zlen bufs) with (clens l) by lia.
Qed.

Lemma seg_end_at a s : seg_at a s → seg_end s = u32 (a + TCP_TCPLEN s).
Proof. intros Hs. unfold seg_end. rewrite (sa_seqno _ _ _ _ Hs). by rewrite (at_u32_eq (u32 a + TCP_TCPLEN s) (a + TCP_TCPLEN s)). Qed.

Lemma free_unacked_ok K B l : ∀ A p acked,
  chain A B l → B - A ≤ TCP_SND_BUF → - 2147440000 ≤ K - A < 2147440000 →
  snd_queuelen p = clens (l ++ unsent p) → clens (l ++ unsent p) ≤ TCP_SND_QUEUELEN → 0 ≤ acked → acked + (B - A) < 65536 →
  ∃ A' l', free_unacked (u32 K) l (p <| unacked := l |>) acked =
      Ok (p <| unacked := l' |> <| snd_queuelen := clens (l' ++ unsent p) |>, acked + (A' - A)) ∧ rest_of K A B l A' l'.
Proof.
  induction l as [|seg l IH]; intros A p acked Hc HBA HK Hq Hlim Ha Hacc; cbn [free_unacked].
  { exists A, []. cbn in *. rewrite Z.sub_diag, Z.add_0_r, <- Hq. split; [|split_and!; (done || lia || by auto || by exists [])].
    reflexivity. }
  destruct Hc as (Hs & [Hpos Hr] & Hc). pose proof (chain_le _ _ _ Hc). change TCP_SND_BUF with 16384 in *. rewrite (seg_end_at A) by done.
  rewrite (seq_leq _ _ (A + TCP_TCPLEN seg) K) by len_lia. destruct (Z.leb_spec (A + TCP_TCPLEN seg) K).
  2:{ exists A, (seg :: l). rewrite Z.sub_diag, Z.add_0_r, <- Hq. split; [|split_and!; (done || lia || by auto || by exists [])].
      reflexivity. }
  change (p <| unacked := seg :: l |> <| unacked := l |>) with (p <| unacked := l |>).
  rewrite (tcplen_len _ _ Hs) in *. cbn [app] in *.
  rewrite (free_acked_ok A seg (l ++ unsent p)); try (done || len_lia).
  2:{ intros Hne. unfold valid_queues. get_set. destruct l; [|done]. cbn in Hne. by rewrite (bool_decide_eq_false_2 (unsent p = [])). }
  cbn [mbind result_bind fst snd].
  pose proof (clens_pos [seg]) as Hc1. cbn [clens] in *.
  destruct (IH (A + seg_len seg) (p <| snd_queuelen := clens (l ++ unsent p) |>) (acked + seg_len seg)) as
    (A' & l' & E & Hc' & HA & HK' & (pre & -> & Hpre) & Hh); get_set; try (done || len_lia).
  exists A', l'. split.
  - etransitivity; [exact E|]. get_set. do 2 f_equal. lia.
  - split_and!; try (done || lia). exists (seg :: pre). split; [done|]. cbn. by rewrite (tcplen_len _ _ Hs).
Qed.

(** The same for the unsent queue; it ends with the first segment that is not
    acknowledged or was never sent. *)
Lemma free_unsent_ok K N W l : ∀ B p acked,
  chain B W l → W - B ≤ TCP_SND_BUF → - 2147440000 ≤ K - B < 2147440000 → snd_nxt p = u32 N → K ≤ N < K + 2147440000 →
  snd_queuelen p = clens (unacked p ++ l) → clens (unacked p ++ l) ≤ TCP_SND_QUEUELEN → 0 ≤ acked → acked + (W - B) < 65536 →
  ∃ B' l' o, free_unsent (u32 K) l (p <| unsent := l |>) acked =
      Ok (p <| unsent := l' |> <| snd_queuelen := clens (unacked p ++ l') |> <| unsent_oversize := o |>, acked + (B' - B)) ∧
    rest_of K B W l B' l' ∧ (l' = [] → o = if bool_decide (l = []) then unsent_oversize p else 0) ∧ (l' ≠ [] → o = unsent_oversize p).
Proof.
  induction l as [|seg l IH]; intros B p acked Hc HBA HK Hn HN Hq Hlim Ha Hacc; cbn [free_unsent].
  { exists B, [], (unsent_oversize p). rewrite Z.sub_diag, Z.add_0_r, <- Hq. split; [reflexivity|].
    unfold rest_of. split_and!; (done || lia || by auto || by exists []). }
  destruct Hc as (Hs & [Hpos Hr] & Hc). pose proof (chain_le _ _ _ Hc). change TCP_SND_BUF with 16384 in *. rewrite (seg_end_at B) by done.
  get_set. rewrite Hn, (seq_between _ _ _ K (B + TCP_TCPLEN seg) N) by len_lia.
  destruct (Z.geb_spec K (B + TCP_TCPLEN seg)); [rewrite (proj2 (Z.leb_le K N)) by lia|]; cbn [andb].
  2:{ exists B, (seg :: l), (unsent_oversize p). rewrite Z.sub_diag, Z.add_0_r, <- Hq. split; [reflexivity|].
      unfold rest_of. split_and!; (done || lia || by auto || by exists []). }
  change (p <| unsent := seg :: l |> <| unsent := l |>) with (p <| unsent := l |>).
  assert (∃ o, (if bool_decide (l = []) then p <| unsent := l |> <| unsent_oversize := 0 |> else p <| unsent := l |>) =
    p <| unsent := l |> <| unsent_oversize := o |> ∧ o = if bool_decide (l = []) then 0 else unsent_oversize p) as (o & -> & Ho).
  { case_bool_decide; eexists; (split; [|reflexivity]); reflexivity. }
  rewrite (tcplen_len _ _ Hs) in *.
  assert (clens (unacked p ++ seg :: l) = clens (seg :: (unacked p ++ l))) as Ecl by (rewrite clens_app; cbn [clens]; rewrite clens_app; lia).
  rewrite Ecl in *. rewrite (free_acked_ok B seg (unacked p ++ l)); get_set; try (done || len_lia).
  2:{ intros Hne. unfold valid_queues. get_set. destruct (unacked p); [|done]. cbn in Hne. rewrite (bool_decide_eq_false_2 (l = [])); done. }
  cbn [mbind result_bind fst snd]. pose proof (clens_pos [seg]) as Hc1. cbn [clens] in *.
  destruct (IH (B + seg_len seg) (p <| unsent_oversize := o |> <| snd_queuelen := clens (unacked p ++ l) |>) (acked + seg_len seg)) as
    (B' & l' & o' & E & (Hc' & HA & HK' & (pre & -> & Hpre) & Hh) & Ho1 & Ho2); get_set; try (done || len_lia).
  get_set_in Ho1. get_set_in Ho2. exists B', l', o'. split; [|split; [|split]].
  - etransitivity; [exact E|]. get_set. do 2 f_equal. lia.
  - split_and!; try (done || lia). exists (seg :: pre). split; [done|]. cbn. by rewrite (tcplen_len _ _ Hs).
  - intros ->. rewrite (Ho1 eq_refl), Ho. rewrite (bool_decide_eq_false_2 (seg :: _ = [])) by done. by case_bool_decide.
  - intros Hne. rewrite (Ho2 Hne), Ho. rewrite bool_decide_eq_false_2; [done|]. destruct pre; [by destruct l'|done].
Qed.

(** ** [receive_ack] *)

Lemma tuned_fields p p' : tuned p' = tuned p →
  snd_lbb p' = snd_lbb p ∧ unacked p' = unacked p ∧ unsent p' = unsent p ∧ snd_queuelen p' = snd_queuelen p ∧
  unsent_oversize p' = unsent_oversize p ∧ snd_buf p' = snd_buf p ∧ lastack p' = lastack p ∧ snd_nxt p' = snd_nxt p ∧ mss p' = mss p.
Proof.
  intros E. split_and!; [exact (f_equal snd_lbb E)|exact (f_equal unacked E)|exact (f_equal unsent E)|exact (f_equal snd_queuelen E)|
    exact (f_equal unsent_oversize E)|exact (f_equal snd_buf E)|exact (f_equal lastack E)|exact (f_equal snd_nxt E)|exact (f_equal mss E)].
Qed.

Lemma has_room_mono limit limit' over l : limit ≤ limit' → has_room limit over l → has_room limit' over l.
Proof. unfold has_room. intros Hl. destruct (list.last l); [|done]. intros (? & ? & ?). split_and!; (done || lia). Qed.

(** The window the peer has offered was never less than two bytes. *)
Definition mss_ok (p : tcp_pcb) : Prop := 0 < mss p ≤ TCP_MSS ∧ 2 ≤ snd_wnd_max p.

Lemma queued_tuned r A B W p p' :
  queued_if (S := S) r A B W p → mss_ok p → tuned p' = tuned p → snd_wnd_max p ≤ snd_wnd_max p' →
  queued_if (S := S) r A B W p' ∧ mss_ok p'.
Proof.
  intros [? ? ? ? ? Hr ? ? ?] [Hm Hw] E Hmax. destruct (tuned_fields _ _ E) as (E1 & E2 & E3 & E4 & E5 & E6 & E7 & E8 & E9).
  assert (0 < tcp_mss_local p ≤ tcp_mss_local p' ∧ tcp_mss_local p' ≤ TCP_MSS) as Hl.
  { unfold tcp_mss_local. rewrite E9. pose proof (Z.div_le_mono 2 (snd_wnd_max p) 2 ltac:(lia) Hw).
    pose proof (Z.div_le_mono (snd_wnd_max p) (snd_wnd_max p') 2 ltac:(lia) Hmax). change (2 / 2) with 1 in *.
    destruct (Z.eqb_spec (mss p `min` (snd_wnd_max p / 2)) 0), (Z.eqb_spec (mss p `min` (snd_wnd_max p' / 2)) 0); lia. }
  split; [|unfold mss_ok; rewrite E9; lia]. split; rewrite ?E1, ?E2, ?E3, ?E4, ?E5, ?E6, ?E7; try done; [|lia].
  intros Er. eapply has_room_mono; [|by apply Hr]. lia.
Qed.

Lemma sending_tuned r A B W L N p p' :
  sending r A B W L N p → mss_ok p → tuned p' = tuned p → snd_wnd_max p ≤ snd_wnd_max p' → sending r A B W L N p' ∧ mss_ok p'.
Proof.
  intros [Hq ? ? ? ?] Hm E Hmax. destruct (queued_tuned _ _ _ _ _ _ Hq Hm E Hmax) as [Hq' Hm']. split; [|done].
  destruct (tuned_fields _ _ E) as (E1 & E2 & E3 & E4 & E5 & E6 & E7 & E8 & E9).
  split; rewrite ?E2, ?E3, ?E7, ?E8; done.
Qed.

(** Nothing that was not sent is acknowledged. *)
Lemma free_unsent_none K N B W l p acked :
  chain B W l → W - B ≤ TCP_SND_BUF → N < K < N + 2147440000 → B - 1 ≤ N ≤ W → snd_nxt p = u32 N →
  free_unsent (u32 K) l p acked = Ok (p, acked).
Proof.
  intros Hc HW HK HN Hn. destruct l as [|seg l]; [done|]. destruct Hc as (Hs & [? _] & Hc). pose proof (chain_le _ _ _ Hc).
  change TCP_SND_BUF with 16384 in *. cbn. rewrite (seg_end_at B), Hn by done.
  rewrite (seq_between _ _ _ K (B + TCP_TCPLEN seg) N) by len_lia. rewrite (proj2 (Z.leb_gt K N)) by lia. by rewrite andb_false_r.
Qed.

(** In the middle: the segments up to [A1] are gone, the free space is that of
    [A] still; the first unsent segment may be one to go. *)
Record half (r : bool) (A A1 B W L N K : Z) (p : tcp_pcb) : Prop := {
  ha_queue : queued_if (S := S) r A1 B W (p <| snd_buf := TCP_SND_BUF - (W - A1) |>);
  ha_lastack : lastack p = u32 L;
  ha_nxt : snd_nxt p = u32 N;
  ha_order : A ≤ A1 ≤ L ∧ L ≤ N ∧ B ≤ N ≤ W;
  ha_buf : snd_buf p = TCP_SND_BUF - (W - A);
  ha_space : W - A ≤ TCP_SND_BUF;
  ha_mss : mss_ok p;
  ha_near : (K ≤ L ∨ N < K) ∧ - 2147400000 ≤ K - L ≤ 2147400000;
  ha_head : match unacked p ++ unsent p with s :: _ => L < A1 + TCP_TCPLEN s ∨ unacked p = [] ∧ K = L | [] => True end }.

Lemma rest_of_nothing K A B l A' l' :
  rest_of K A B l A' l' → match l with s :: _ => K < A + TCP_TCPLEN s | [] => True end → A' = A ∧ l' = l.
Proof.
  intros (Hc & HA & HK & (pre & -> & Hpre) & _) Hh. destruct pre as [|s pre]; [done|].
  destruct Hpre as (_ & [? _] & Hpre). pose proof (chain_le _ _ _ Hpre). cbn [app] in Hh. exfalso. destruct HK; len_lia.
Qed.

Lemma rest_of_room K A B l A' l' limit over o :
  rest_of K A B l A' l' → has_room limit over l → (l' = [] → o = if bool_decide (l = []) then over else 0) → (l' ≠ [] → o = over) →
  has_room limit o l'.
Proof.
  intros (_ & _ & _ & (pre & -> & _) & _) Hr Hn Hc. destruct (decide (l' = [])) as [->|Hne].
  - rewrite (Hn eq_refl). rewrite app_nil_r in *. case_bool_decide as E; [by rewrite E in Hr|done].
  - rewrite (Hc Hne). destruct l' as [|s l' _] using rev_ind; [done|]. unfold has_room in *.
    rewrite app_assoc, list_last_snoc in Hr. by rewrite list_last_snoc.
Qed.

Lemma free_unsent_half r A A1 B W L N K p :
  half r A A1 B W L N K p → ∃ A2 B2 p', free_unsent (u32 K) (unsent p) p (A1 - A) = Ok (p', A2 - A) ∧ A1 ≤ A2 ∧ B ≤ B2 ∧
    sending r A2 B2 W L N (p' <| snd_buf := TCP_SND_BUF - (W - A2) |>) ∧ snd_buf p' = snd_buf p ∧ mss_ok p'.
Proof.
  intros [[Q1 Q2 Q3 Q4 Q5 Qr Q7 Q8 Q9] Hla Hnx Ho Hb Hsp Hm [HK Hnear] Hh]. get_set_in Q1. get_set_in Q2. get_set_in Q3. get_set_in Q4.
  get_set_in Q5. get_set_in Qr. get_set_in Q9. pose proof (chain_le _ _ _ Q2). pose proof (chain_le _ _ _ Q3).
  destruct HK as [HK|HK].
  2:{ exists A1, B, p. rewrite (free_unsent_none K N B W) by (done || len_lia). split; [done|]. split; [lia|]. split; [lia|].
      split; [|done]. split; [done|done|done|lia|]. get_set. destruct (unacked p ++ unsent p); [done|]. destruct Hh as [?|[_ ?]]; lia. }
  change TCP_SND_BUF with 16384 in *.
  assert (match unacked p with s :: _ => L < A1 + TCP_TCPLEN s | [] => True end) as Hh1.
  { destruct (unacked p); [done|]. cbn [app] in Hh. by destruct Hh as [?|[? ?]]. }
  destruct (free_unsent_ok K N W (unsent p) B p (A1 - A)) as (B2 & l' & o & E & Hrest & Ho1 & Ho2);
    try (done || (change TCP_SND_BUF with 16384; len_lia) || (by rewrite <- Q4)).
  assert (p <| unsent := unsent p |> = p) as Ep by (by destruct p). rewrite Ep in E. pose proof Hrest as (Hc & HB2 & HBK & _ & Hh2). pose proof (chain_le _ _ _ Hc).
  assert (B2 = B ∧ l' = unsent p ∨ unacked p = [] ∧ K = L) as Hcase.
  { destruct (unacked p) as [|u l] eqn:Eu; cbn [app] in Hh.
    - cbn in Q2. subst B. destruct (decide (K = L)); [by right|]. left. apply (rest_of_nothing _ _ _ _ _ _ Hrest).
      destruct (unsent p); [done|]. destruct Hh as [?|[_ ?]]; lia.
    - left. apply (rest_of_nothing _ _ _ _ _ _ Hrest). destruct Q2 as (_ & _ & Q2). pose proof (chain_le _ _ _ Q2).
      destruct (unsent p) as [|s l2]; [done|]. destruct Q3 as (_ & [? _] & _). len_lia. }
  assert (unacked p = [] ∨ B2 = B) as Hun by tauto.
  assert (chain (A1 + (B2 - B)) B2 (unacked p)) as Hc2.
  { destruct Hun as [Eu| ->]; [rewrite Eu in *; cbn in *; lia|by replace (A1 + (B - B)) with A1 by lia]. }
  exists (A1 + (B2 - B)), B2. eexists. split; [rewrite E; do 2 f_equal; lia|]. split; [lia|]. split; [lia|].
  split; [|split; [by get_set|done]].
  split; [split|..]; get_set; try done; try lia.
  - destruct Hrest as (_ & _ & _ & (pre & Epre & _) & _). rewrite Q4, Epre, !clens_app in Q5. rewrite clens_app.
    pose proof (clens_pos pre). lia.
  - intros Er. eapply rest_of_room; [exact Hrest|by apply Qr|done..].
  - change TCP_SND_BUF with 16384. destruct Hun as [Eu| ->]; [rewrite Eu in Q2; cbn in Q2|]; len_lia.
  - destruct Hcase as [[-> _]|[Eu ->]]; [lia|]. rewrite Eu in Q2. cbn in Q2. subst B. destruct HBK; len_lia.
  - destruct (unacked p) as [|u l]; cbn [app] in *.
    + cbn in Q2. subst B. destruct l' as [|s l']; [done|]. destruct Hcase as [[-> E2]|[_ ->]]; [|lia].
      rewrite <- E2 in Hh. destruct Hh as [?|[_ ->]]; lia.
    + destruct Hun as [?| ->]; [done|]. lia.
Qed.

(** The sender after an acknowledgement: [A' - A] bytes are given back. *)
Definition ack_post (r : bool) (A B W L N : Z) (s' : tcp) : Prop :=
  ∃ A' B', A ≤ A' ∧ B ≤ B' ∧ sending r A' B' W L N (pcb s') ∧ mss_ok (pcb s') ∧ recv_acked s' = A' - A.

Lemma ack_unsent_ok r A A1 B W L N K s :
  half r A A1 B W L N K (pcb s) → recv_acked s = A1 - A → wp (ack_unsent (u32 K)) (λ _ s', ack_post r A B W L N s') s.
Proof.
  intros Hh Hra. destruct (free_unsent_half _ _ _ _ _ _ _ _ _ Hh) as (A2 & B2 & p' & E & HA & HB & Hs & Eb & Hm).
  unfold ack_unsent. tcps. rewrite Hra. eapply wp_lift; [exact E|]. tcps.
  pose proof (ha_buf _ _ _ _ _ _ _ _ _ Hh) as Hb. pose proof (ha_order _ _ _ _ _ _ _ _ _ Hh).
  cbn [fst snd]. pose proof Hs as [[_ Q2 Q3 _ _ _ _ Q8 _] _ _ Ho _]. get_set_in Q2. get_set_in Q3.
  pose proof (chain_le _ _ _ Q2). pose proof (chain_le _ _ _ Q3). pose proof (ha_space _ _ _ _ _ _ _ _ _ Hh).
  assert (p' <| snd_buf ::= λ n, u16 (n + (A2 - A)) |> = p' <| snd_buf := TCP_SND_BUF - (W - A2) |>) as ->.
  { transitivity (p' <| snd_buf := u16 (snd_buf p' + (A2 - A)) |>); [reflexivity|]. rewrite Eb, Hb.
    change TCP_SND_BUF with 16384 in *. rewrite u16_small by len_lia.
    by replace (16384 - (W - A) + (A2 - A)) with (16384 - (W - A2)) by lia. }
  exists A2, B2. split; [lia|]. split; [done|]. get_set.
  destruct (estimate_rtt_tuned (u32 K) (tcp_ticks s) (p' <| snd_buf := TCP_SND_BUF - (W - A2) |>)) as [Et Ew].
  assert (mss_ok (p' <| snd_buf := TCP_SND_BUF - (W - A2) |>)) as Hm' by done.
  destruct (sending_tuned _ _ _ _ _ _ _ _ Hs Hm' Et) as [? ?]; [rewrite Ew; lia|]. done.
Qed.

(** What an acknowledgement may carry: [K] is less than half the number space
    away. *)
Record acks (K L : Z) (s : tcp) : Prop := {
  ac_ackno : ackno s = u32 K;
  ac_near : - 2147400000 ≤ K - L ≤ 2147400000;
  ac_none : recv_acked s = 0;
  ac_cwnd : 0 < cwnd (pcb s) ∧ 0 < ssthresh (pcb s) }.

(** The first segment is to be sent again. *)
Lemma requeued_ok r A B W L N p seg rest :
  sending r A B W L N p → unacked p = seg :: rest → ∃ q, tuned q = tuned (requeued seg rest p) ∧ snd_wnd_max q = snd_wnd_max p ∧
    mss q = mss p ∧ resending (S := S) r A B W L N q.
Proof.
  intros Hs Eu. exists (requeued seg rest p). split; [done|]. split; [done|]. split; [done|].
  pose proof Hs as [[Q1 Q2 Q3 Q4 Q5 Q6 Q7 Q8 Q9] Hla Hnx Ho Hh]. rewrite Eu in *. destruct Q2 as (Hseg & [Hpos Hr] & Hc).
  pose proof (chain_le _ _ _ Hc). pose proof (chain_le _ _ _ Q3). change TCP_SND_BUF with 16384 in *.
  assert (∀ c, head (unsent p) = Some c → TCP_SEQ_LT (seqno_of c) (seqno_of seg) = false) as Hlt.
  { intros c Ec. destruct (unsent p) as [|c0 u] eqn:Eun; [done|]. injection Ec as ->. destruct Q3 as (Hc0 & _ & Q3'). pose proof (chain_le _ _ _ Q3').
    rewrite (sa_seqno _ _ _ _ Hseg), (sa_seqno _ _ _ _ Hc0), (seq_lt (u32 B) (u32 A) B A) by len_lia. apply Z.ltb_ge. len_lia. }
  exists seg, (unsent p). unfold requeued, put_back. get_set.
  assert (insert_sorted seg (unsent p) = seg :: unsent p ∧
    forallb (λ cur, TCP_SEQ_LT (seqno_of cur) (seqno_of seg)) (unsent p) = bool_decide (unsent p = [])) as [Ei Ef].
  { destruct (unsent p) as [|c u]; [done|]. cbn [insert_sorted forallb]. by rewrite (Hlt c eq_refl). }
  split; [exact Ei|]. split; [split|..]; get_set; try done. intros Er. specialize (Q6 Er).
  change (tcp_mss_local _) with (tcp_mss_local p). rewrite Ef. case_bool_decide as En; [by rewrite En|done].
Qed.

Lemma resending_tuned r A B W L N p p' :
  resending (S := S) r A B W L N p → mss_ok p → tuned p' = tuned p → snd_wnd_max p ≤ snd_wnd_max p' →
  resending (S := S) r A B W L N p' ∧ mss_ok p'.
Proof.
  intros (c & u & Eu & Hs) Hm E Hmax. destruct (tuned_fields _ _ E) as (_ & E2 & E3 & _).
  assert (tuned (put_back c u p') = tuned (put_back c u p)) as Et.
  { unfold put_back. rewrite E2. exact (f_equal (λ t, t <| unacked := c :: unacked p |> <| unsent := u |>) E). }
  destruct (sending_tuned _ _ _ _ _ _ _ (put_back c u p') Hs Hm Et Hmax) as [Hs' Hm']. split; [|exact Hm'].
  exists c, u. by rewrite E3.
Qed.

Lemma half_sending r A B W L N K p :
  sending r A B W L N p → mss_ok p → K ≤ L ∨ N < K → - 2147400000 ≤ K - L ≤ 2147400000 → half r A A B W L N K p.
Proof.
  intros [[? ? ? ? ? ? Hb ? ?] ? ? ? Hh] ? ? ?. split; try done; try lia.
  destruct (unacked p ++ unsent p); [done|]. by left.
Qed.

Lemma ack_segments_ok r A B W L N K s :
  sending r A B W L N (pcb s) → mss_ok (pcb s) → L < K ≤ N → K - L ≤ 2147400000 → recv_acked s = 0 →
  0 < cwnd (pcb s) → 0 < ssthresh (pcb s) →
  wp (ack_segments (u32 K)) (λ _ s', ∃ A1, half r A A1 B W K N K (pcb s') ∧ recv_acked s' = A1 - A) s.
Proof.
  intros Hs Hm HK Hnear Hra Hc Hss. unfold ack_segments. tcps. rewrite Hra.
  destruct (ack_new_tuned (u32 K) (pcb s) Hc Hss) as (p1 & E1 & Et & Ew). eapply wp_lift; [exact E1|]. tcps.
  pose proof Hs as [Hq Hla Hnx Ho _]. set (p0 := pcb s <| lastack := u32 K |>).
  assert (tuned p1 = tuned p0) as Et' by (rewrite Et; reflexivity).
  destruct (queued_tuned r A B W p0 p1) as [Hq1 Hm1]; [by destruct Hq|done|done|rewrite Ew; subst p0; get_set; lia|].
  destruct (tuned_fields _ _ Et') as (_ & _ & _ & _ & _ & _ & Ela & Enx & _). subst p0. get_set_in Ela. get_set_in Enx.
  pose proof Hq1 as [_ Q2 Q3 Q4 Q5 Qr Qb Qs _]. pose proof (chain_le _ _ _ Q2). pose proof (chain_le _ _ _ Q3).
  change TCP_SND_BUF with 16384 in *.
  destruct (free_unacked_ok K B (unacked p1) A p1 0) as (A1 & l' & E & Hrest); try (done || (change TCP_SND_BUF with 16384; len_lia) || (by rewrite <- Q4)).
  assert (p1 <| unacked := unacked p1 |> = p1) as Ep by (by destruct p1). rewrite Ep in E.
  eapply wp_lift; [exact E|]. tcps. exists A1. cbn [fst snd]. split; [|lia].
  get_set. destruct Hrest as (Hc1 & HA1 & HK1 & (pre & Epre & _) & Hh). pose proof (chain_le _ _ _ Hc1). split; try done; get_set; try len_lia.
  - rewrite Epre, !clens_app in *. pose proof (clens_pos pre). split; try done; get_set; rewrite ?clens_app; try len_lia.
    1,3: by destruct Hq1.
    change TCP_SND_BUF with 16384. len_lia.
  - destruct l' as [|s1 l']; cbn [app]; [|by left]. destruct (unsent p1); [done|]. by right.
Qed.

(** The third acknowledgement of the same number: the first segment is to be
    sent again, nothing is given back. *)
Definition again_post (r : bool) (A B W L N : Z) (s' : tcp) : Prop :=
  resending (S := S) r A B W L N (pcb s') ∧ mss_ok (pcb s') ∧ recv_acked s' = 0.

Lemma ack_unsent_again r A B W L N s :
  resending (S := S) r A B W L N (pcb s) → mss_ok (pcb s) → recv_acked s = 0 →
  wp (ack_unsent (u32 L)) (λ _, again_post r A B W L N) s.
Proof.
  intros (c & u & Eu & Hs) Hm Hra. destruct (resend_head _ _ _ _ _ _ _ _ _ 0 Hs) as (Hc & _ & Hpos & [HL HB] & _).
  pose proof Hs as [[_ _ Q3 _ _ _ Q7 Q8 _] _ Hnx Ho _]. unfold put_back in *. get_set_in Q3. get_set_in Q7. get_set_in Hnx.
  pose proof (chain_le _ _ _ Q3). change TCP_SND_BUF with 16384 in *. unfold ack_unsent. tcps. rewrite Hra, Eu.
  assert (free_unsent (u32 L) (c :: u) (pcb s) 0 = Ok (pcb s, 0)) as Ef.
  { cbn [free_unsent]. rewrite (seg_end_at A), (tcplen_len _ _ Hc), Hnx by done. rewrite (seq_between _ _ _ L (A + seg_len c) N) by len_lia.
    destruct (Z.geb_spec L (A + seg_len c)); [lia|done]. }
  eapply wp_lift; [exact Ef|]. tcps. cbn [fst snd].
  assert (pcb s <| snd_buf ::= λ n, u16 (n + 0) |> = pcb s) as ->.
  { transitivity (pcb s <| snd_buf := u16 (snd_buf (pcb s) + 0) |>); [reflexivity|]. rewrite u16_small by len_lia. rewrite Z.add_0_r. by destruct (pcb s). }
  destruct (estimate_rtt_tuned (u32 L) (tcp_ticks s) (pcb s)) as [Et Ew]. 
  destruct (resending_tuned r A B W L N (pcb s) (estimate_rtt (u32 L) (tcp_ticks s) (pcb s))) as [? ?]; [by exists c, u|done|exact Et|rewrite Ew; lia|].
  done.
Qed.

Lemma receive_ack_ok r A B W L N K s :
  sending r A B W L N (pcb s) → mss_ok (pcb s) → acks K L s →
  wp receive_ack (λ _ s', ack_post r A B W (if (L <? K) && (K <=? N) then K else L) N s' ∨
    (K = L ∧ third_dup (ackno s) (pcb s)) ∧ again_post r A B W L N s') s.
Proof.
  intros Hs Hm [Hack Hnear Hra [Hcw Hss]]. unfold receive_ack. tcps. set (p := pcb s) in *. rewrite Hack.
  destruct (update_snd_wnd_tuned (seqno s) (u32 K) (h_wnd (seg_hdr (inseg s))) p) as (Et & Ew & Ecw & Ess & Edup).
  match goal with |- wp _ _ ?s => set (s1 := s) end.
  assert (recv_acked s1 = 0 ∧ 0 < cwnd (pcb s1) ∧ 0 < ssthresh (pcb s1) ∧ dupacks (pcb s1) = dupacks p) as (Hra1 & Hcw1 & Hss1 & Hdup1).
  { change (pcb s1) with (update_snd_wnd (seqno s) (u32 K) (h_wnd (seg_hdr (inseg s))) p). by rewrite Ecw, Ess, Edup. }
  destruct (sending_tuned _ _ _ _ _ _ _ (pcb s1) Hs Hm Et Ew) as [Hs1 Hm1]. clearbody s1.
  pose proof Hs as [[_ Q2 Q3 _ _ _ _ Q8 _] Hla Hnx Ho _]. pose proof (chain_le _ _ _ Q2). pose proof (chain_le _ _ _ Q3).
  change TCP_SND_BUF with 16384 in *. rewrite Hla, Hnx, (seq_leq _ _ K L) by len_lia.
  eapply (wp_mono _ (λ _ s', (∃ A1, half r A A1 B W (if (L <? K) && (K <=? N) then K else L) N K (pcb s') ∧ recv_acked s' = A1 - A) ∨
    (K = L ∧ third_dup (u32 K) p) ∧ resending (S := S) r A B W L N (pcb s') ∧ mss_ok (pcb s') ∧ recv_acked s' = 0)).
  2:{ intros [] s2 [(A1 & Hh & E)|((-> & Hd) & Hres & Hm2 & E)].
      - eapply wp_mono; [by eapply ack_unsent_ok|]. intros [] s3 ?. by left.
      - eapply wp_mono; [by apply ack_unsent_again|]. intros [] s3 ?. right. by split. }
  destruct (Z.leb_spec K L).
  { rewrite (proj2 (Z.ltb_ge L K)) by lia. cbn [andb]. tcps. get_set.
    destruct (ack_old_tuned (u32 K) (tcplen s) (u32 (snd_wnd p + snd_wl2 p)) (pcb s1)) as [[Et2|[[Ed El] (c & l & Eu & Et2)]] Ew2].
    - left. exists A. get_set. split; [|lia]. destruct (sending_tuned _ _ _ _ _ _ _ _ Hs1 Hm1 Et2) as [? ?]; [lia|]. apply half_sending; (done || lia).
    - right. assert (K = L) as ->.
      { rewrite (se_lastack _ _ _ _ _ _ _ Hs1) in El. apply (f_equal (λ x, s32 (x - u32 K))) in El. rewrite (s32_at (u32 L - u32 K) (L - K)), (s32_at (u32 K - u32 K) (K - K)) in El by lia. lia. }
      split; [split; [done|]|].
      + split; [by rewrite <- Hdup1|done].
      + destruct (requeued_ok _ _ _ _ _ _ _ _ _ Hs1 Eu) as (q & Eq & Ewq & Emq & Hq).
        destruct (resending_tuned _ _ _ _ _ _ q (ack_old (u32 L) (tcplen s) (u32 (snd_wnd p + snd_wl2 p)) (pcb s1)) Hq) as [? ?];
          [unfold mss_ok; by rewrite Emq, Ewq|by rewrite Et2, Eq|lia|]. done. }
  rewrite (proj2 (Z.ltb_lt L K)), (seq_between _ _ _ K (L + 1) N) by len_lia. destruct (Z.geb_spec K (L + 1)); [|lia].
  cbn [andb]. destruct (Z.leb_spec K N).
  { eapply wp_mono; [apply (ack_segments_ok r A B W L); try done; try lia|]. auto. }
  apply wp_bind. eapply wp_mono; [apply (send_empty_ack_out (S := S) W W); exists N; split; [apply (se_nxt _ _ _ _ _ _ _ Hs1)|lia]|].
  intros e s2 [Hv E1 E2 E3 E4 _]. apply wp_ret. left. exists A.
  assert (recv_acked s2 = recv_acked s1) as -> by exact (f_equal recv_acked Hv). split; [|lia]. apply half_sending; try lia.
  - by apply (sending_same _ _ _ _ _ _ s1).
  - assert (out_pcb (pcb s2) = out_pcb (pcb s1)) as Ep by exact (f_equal pcb Hv).
    unfold mss_ok. assert (mss (pcb s2) = mss (pcb s1)) as -> by exact (f_equal mss Ep).
    by assert (snd_wnd_max (pcb s2) = snd_wnd_max (pcb s1)) as -> by exact (f_equal snd_wnd_max Ep).
Qed.

End Ack.

(** (C17) An acknowledgement takes exactly the segments that it covers from the
    two queues: where [lastack] stands for [L] and [snd_nxt] for [N], a number
    [K] up to [L] or beyond [N] leaves them, any other makes [lastack] stand for
    [K]; the queues hold the stream from [A'] on, where [A'] is not beyond
    [lastack] and the first segment left ends beyond it; the application gets
    back as much of its buffer as was acknowledged, [A' - A] bytes.  The third
    acknowledgement of [L] in a row may instead move the first segment back to
    the head of the unsent queue, to be sent again. *)
Theorem receive_ack_frees `{TcpEnv} S (r : bool) A B W L N K s :
  sending (S := S) r A B W L N (pcb s) → mss_ok (pcb s) → acks K L s →
  wp receive_ack (λ _ s',
    (∃ A' B', A ≤ A' ∧ B ≤ B' ∧ recv_acked s' = A' - A ∧ mss_ok (pcb s') ∧
      sending (S := S) r A' B' W (if (L <? K) && (K <=? N) then K else L) N (pcb s')) ∨
    (K = L ∧ dupacks (pcb s) = 2) ∧ recv_acked s' = 0 ∧ mss_ok (pcb s') ∧
      ∃ seg rest, unsent (pcb s') = seg :: rest ∧ sending (S := S) r A B W L N (put_back seg rest (pcb s'))) s.
Proof.
  intros Hs Hm Ha. eapply wp_mono; [by apply (receive_ack_ok r A B W L N K s Hs Hm Ha)|].
  intros _ s' [(A' & B' & ? & ? & ? & ? & ?)|((? & ? & _) & ? & ? & ?)]; [left; exists A', B'; done|right; done].
Qed.

(** Three bytes on the way, and their acknowledgement. *)
Definition three_acked : tcp :=
  arrive (peer_seg 1000 503 TCP_ACK []) (after (tcp_output (H := good_env)) three_written).

Lemma three_acked_val : three_acked = ltac:(let x := eval vm_compute in three_acked in exact x).
Proof. vm_compute. reflexivity. Qed.

Lemma three_acked_ok : sending (S := λ i, i - 499) true 500 503 503 500 503 (pcb three_acked) ∧ acks 503 500 three_acked.
Proof.
  rewrite three_acked_val. split; [|by split]. split; [|done..]. split; [done| |done..]. split; [|done].
  split; [done|eexists; split; [reflexivity|done]|done..].
Qed.

Lemma three_acked_mss : mss_ok (pcb three_acked).
Proof. by rewrite three_acked_val. Qed.

Lemma receive_ack_frees_witness :
  ∃ s' A' B', receive_ack (H := good_env) three_acked = Ok ((), s') ∧ sending (S := λ i, i - 499) true A' B' 503 503 503 (pcb s').
Proof.
  destruct (receive_ack_frees (H := good_env) (λ i, i - 499) true 500 503 503 500 503 503 three_acked
    (proj1 three_acked_ok) three_acked_mss (proj2 three_acked_ok)) as ([] & s' & E & [(A' & B' & _ & _ & _ & _ & Hs)|([Ek _] & _)]).
  - exists s', A', B'. by split.
  - exfalso. by vm_compute in Ek.
Defined.
