(* ===== verification/LwipTcpFrame.v ===== *)
(** TCP of lwIP, what a call leaves alone: acknowledgements do not touch the
    receiver, data does not touch the sender, and what they send carries
    nothing. *)
From S2P Require Import Prelude.
From S2P Require Import LwipTcp.
From S2P Require Import LwipTcpOut.
From S2P Require Import LwipTcpApi.
From S2P Require Import LwipTcpIn.
From S2P Require Import LwipTcpSeq.
From S2P Require Import LwipTcpRx.
From S2P Require Import LwipTcpDeliver.
From S2P Require Import LwipTcpStream.
From S2P Require Import LwipTcpTx.
From S2P Require Import LwipTcpOutput.
From S2P Require Import LwipTcpAck.
From S2P Require Import LwipTcpKept.

(** The receiver of a connection and the fields that only matter to both
    sides. *)
Definition rcv_part (p : tcp_pcb) : Z * Z * Z * Z * list tcp_seg * Z * Z * tcp_state :=
  (rcv_nxt p, rcv_wnd p, rcv_ann_wnd p, rcv_ann_right_edge p, ooseq p, mss p, snd_nxt p, state p).

(** The congestion window is open, the counter of retransmissions an index and
    the MSS within the configured one. *)
Definition tune_ok (p : tcp_pcb) : Prop :=
  0 < cwnd p < 65536 ∧ 0 < ssthresh p < 65536 ∧ 0 ≤ nrtx p ∧ 0 < mss p ≤ TCP_MSS.

(** An acknowledgement keeps the receiver and makes no segment longer. *)
Record ack_keeps (p p' : tcp_pcb) : Prop := {
  ak_rcv : rcv_part p' = rcv_part p;
  ak_tune : tune_ok p → tune_ok p';
  ak_max : snd_wnd_max p ≤ snd_wnd_max p';
  ak_fit : ∀ k, all_fit k p → all_fit k p' }.

Lemma ack_keeps_refl p : ack_keeps p p.
Proof. by split. Qed.
Lemma ack_keeps_trans p1 p2 p3 : ack_keeps p1 p2 → ack_keeps p2 p3 → ack_keeps p1 p3.
Proof. intros [? ? ? ?] [? ? ? ?]. split; [congruence|auto|lia|auto]. Qed.

(** The queues are the same. *)
Lemma ack_keeps_intro p p' :
  rcv_part p' = rcv_part p → unacked p' = unacked p → unsent p' = unsent p → snd_wnd_max p ≤ snd_wnd_max p' →
  (tune_ok p → tune_ok p') → ack_keeps p p'.
Proof. intros ? Ea Eu ? ?. split; try done. intros k. unfold all_fit. by rewrite Ea, Eu. Qed.

Ltac keeps := apply ack_keeps_intro; [done|done|done|get_set; clear; lia|unfold tune_ok; get_set; try done].

Lemma update_snd_wnd_keeps n a w p : ack_keeps p (update_snd_wnd n a w p).
Proof. unfold update_snd_wnd. cbv zeta. repeat case_match; keeps. Qed.

Lemma grow_cwnd_keeps n p : n = u16 n → ack_keeps p (if n >? cwnd p then p <| cwnd := n |> else p).
Proof.
  intros En. destruct (Z.gtb_spec n (cwnd p)); [|apply ack_keeps_refl]. keeps. pose proof (u16_range n). lia.
Qed.

Lemma requeued_keeps seg rest p : unacked p = seg :: rest → ack_keeps p (requeued seg rest p).
Proof.
  intros Eu. split; try done. intros k. unfold all_fit, requeued. get_set. rewrite Eu. cbn [app]. rewrite Forall_cons_iff, !Forall_app.
  intros (? & ? & ?). split; [done|]. by apply insert_sorted_forall.
Qed.

Lemma rexmit_fast_keeps p : ack_keeps p (tcp_rexmit_fast p).
Proof.
  unfold tcp_rexmit_fast. destruct (_ && _); [|apply ack_keeps_refl]. unfold tcp_rexmit.
  assert (∀ q, ack_keeps p q → ack_keeps p (set_flag TF_INFR (q <| ssthresh := if Z.min (cwnd q) (snd_wnd q) / 2 <? 2 * mss q then u16 (2 * mss q) else Z.min (cwnd q) (snd_wnd q) / 2 |>
    <| cwnd := u16 ((if Z.min (cwnd q) (snd_wnd q) / 2 <? 2 * mss q then u16 (2 * mss q) else Z.min (cwnd q) (snd_wnd q) / 2) + 3 * mss q) |> <| rtime := 0 |>))) as Hq.
  { intros q Hq. eapply ack_keeps_trans; [exact Hq|]. unfold set_flag. keeps. intros (Hc & Hs & Hn & Hm). change TCP_MSS with 512 in *.
    rewrite (u16_small (2 * mss q)) by lia.
    assert (Z.min (cwnd q) (snd_wnd q) / 2 < 32768) by (apply Z.div_lt_upper_bound; lia).
    destruct (Z.ltb_spec (Z.min (cwnd q) (snd_wnd q) / 2) (2 * mss q)); rewrite u16_small by lia; lia. }
  destruct (unacked p) as [|seg rest] eqn:Eu; [apply Hq, ack_keeps_refl|]. cbv zeta. apply Hq.
  eapply ack_keeps_trans; [by apply requeued_keeps|]. fold (requeued seg rest p). generalize (requeued seg rest p) as q. intros q. unfold rexmit_started.
  destruct (nrtx q <? 255); keeps. intros (? & ? & ? & ?). split_and!; (done || lia).
Qed.

Lemma ack_old_keeps a len e p : ack_keeps p (ack_old a len e p).
Proof.
  unfold ack_old. destruct (_ && _ && _ && _); [|keeps]. cbv zeta.
  set (q := if u8 (dupacks p + 1) >? dupacks p then _ else p). assert (ack_keeps p q) as Hq by (subst q; destruct (_ >? _); [keeps|apply ack_keeps_refl]).
  clearbody q. eapply ack_keeps_trans; [exact Hq|]. destruct (_ >? 3).
  - apply (grow_cwnd_keeps (u16 (cwnd q + mss q))). symmetry. apply u16_small, u16_range.
  - destruct (_ =? 3); [apply rexmit_fast_keeps|apply ack_keeps_refl].
Qed.

Lemma ack_new_keeps a p p' : ack_new a p = Ok p' → ack_keeps p p'.
Proof.
  unfold ack_new. cbv zeta. set (p1 := if has (pcb_flags p) TF_INFR then _ else _).
  assert (ack_keeps p p1) as Hp1 by (subst p1; unfold clear_flag; destruct (has _ _); [keeps; tauto|apply ack_keeps_refl]). clearbody p1.
  set (p2 := p1 <| nrtx := 0 |> <| rto := _ |> <| dupacks := 0 |> <| lastack := a |>).
  assert (ack_keeps p p2) as Hp2 by (eapply ack_keeps_trans; [exact Hp1|]; subst p2; keeps; intros (? & ? & _ & ?); done). clearbody p2. clear Hp1.
  destruct (_ >=? _); [|by intros [= <-]].
  destruct (_ <? _); [|destruct (_ =? 0); [done|]]; intros [= <-]; (eapply ack_keeps_trans; [exact Hp2|]).
  - apply (grow_cwnd_keeps (u16 (cwnd p2 + mss p2))). symmetry. apply u16_small, u16_range.
  - apply grow_cwnd_keeps. symmetry. apply u16_small, u16_range.
Qed.

Lemma free_acked_keeps seg p acked r :
  free_acked seg p acked = Ok r → ack_keeps p r.1 ∧ unacked r.1 = unacked p ∧ unsent r.1 = unsent p.
Proof. unfold free_acked. destruct (negb _); [done|]. cbv zeta. destruct (_ || _); [|done]. intros [= <-]. cbn. split; [keeps|done]. Qed.

Lemma tail_keeps_unacked seg l p : unacked p = seg :: l → ack_keeps p (p <| unacked := l |>).
Proof. intros E. split; try done. intros k. unfold all_fit. get_set. rewrite E. cbn [app]. rewrite Forall_cons_iff. by intros [_ ?]. Qed.

Lemma free_unacked_keeps ack l : ∀ p acked r, unacked p = l → free_unacked ack l p acked = Ok r → ack_keeps p r.1.
Proof.
  induction l as [|seg l IH]; intros p acked r El; cbn [free_unacked]; [intros [= <-]; apply ack_keeps_refl|].
  destruct (TCP_SEQ_LEQ _ _); [|intros [= <-]; apply ack_keeps_refl].
  destruct (free_acked _ _ _) as [r1|] eqn:E; [|done]. cbn. intros E1. destruct (free_acked_keeps _ _ _ _ E) as (H1 & Ea & _).
  eapply ack_keeps_trans; [by eapply tail_keeps_unacked|]. eapply ack_keeps_trans; [exact H1|]. by eapply IH.
Qed.

Lemma free_unsent_keeps ack l : ∀ p acked r, unsent p = l → free_unsent ack l p acked = Ok r → ack_keeps p r.1.
Proof.
  induction l as [|seg l IH]; intros p acked r El; cbn [free_unsent]; [intros [= <-]; apply ack_keeps_refl|].
  destruct (TCP_SEQ_BETWEEN _ _ _); [|intros [= <-]; apply ack_keeps_refl].
  destruct (free_acked _ _ _) as [r1|] eqn:E; [|done]. cbn. intros E1. destruct (free_acked_keeps _ _ _ _ E) as (H1 & _ & Eu).
  eapply (ack_keeps_trans _ (p <| unsent := l |>)).
  { split; try done. intros k. unfold all_fit. get_set. rewrite El, !Forall_app, Forall_cons_iff. by intros (? & _ & ?). }
  eapply ack_keeps_trans; [|eapply IH; [|exact E1]].
  - eapply ack_keeps_trans; [|exact H1]. case_bool_decide; [keeps|apply ack_keeps_refl].
  - rewrite Eu. by case_bool_decide.
Qed.

Lemma estimate_rtt_keeps a t p : ack_keeps p (estimate_rtt a t p).
Proof. unfold estimate_rtt. cbv zeta. destruct (_ && _); [keeps|apply ack_keeps_refl]. Qed.

(** What [tcp_in.c] knows of the segment. *)
Definition in_part (s : tcp) : Z * Z * Z * Z * option (list tbuf) * tcp_seg * bool * pcb_list :=
  (seqno s, tcplen s, flags s, recv_flags s, recv_data s, inseg s, tcp_input_pcb s, on_list s).

Section Frame.
Context `{TcpEnv} {S Sin : Z → Z} {F : option Z}.
Abbreviation rcv_ok := (rcv_ok (S := Sin) (F := F)).

(** A packet with a piece of the stream that ends at most at [W]. *)
Definition carries (W : Z) (pk : packet) : Prop :=
  ∃ a, h_seqno (pk_hdr pk) = u32 a ∧ pk_data pk = span S a (zlen (pk_data pk)) ∧ a + zlen (pk_data pk) ≤ W.

(** The receiver of [s] is that of [s0], which has received up to [R]; only
    pieces of the stream were sent. *)
Record beside (D R N W : Z) (s0 s : tcp) : Prop := {
  be_rcv : rcv_ok D R (pcb s);
  be_tune : tune_ok (pcb s);
  be_nxt : snd_nxt (pcb s) = u32 N;
  be_state : state (pcb s) = state (pcb s0);
  be_wnd : rcv_wnd (pcb s) = rcv_wnd (pcb s0);
  be_mss : mss (pcb s) = mss (pcb s0) ∧ snd_wnd_max (pcb s0) ≤ snd_wnd_max (pcb s);
  be_fit : ∀ k, all_fit k (pcb s0) → all_fit k (pcb s);
  be_sent : sends (carries W) s0 s;
  be_in : in_part s = in_part s0 }.

Lemma rcv_ok_part D R p p' : rcv_ok D R p → rcv_part p' = rcv_part p → rcv_ok D R p'.
Proof.
  intros [? ? ? ? ? ? ?] E. injection E as E1 E2 E3 E4 E5 E6 E7 E8. by split; rewrite ?E1, ?E2, ?E3, ?E4, ?E5, ?E6.
Qed.

(** Sending changes at most the edge that is announced. *)
Definition edge_moved (p p' : tcp_pcb) : Prop :=
  rcv_ann_right_edge p' = rcv_ann_right_edge p ∨ rcv_ann_right_edge p' = u32 (rcv_nxt p + rcv_ann_wnd p).

Lemma rcv_ok_out D R s s' :
  rcv_ok D R (pcb s) → out_view s' = out_view s → edge_moved (pcb s) (pcb s') → rcv_ok D R (pcb s').
Proof.
  intros [HR Hw Ha (E & HE & HER) HD Hm Hq] Hv Hed. assert (out_pcb (pcb s') = out_pcb (pcb s)) as Ep by exact (f_equal pcb Hv).
  assert (rcv_nxt (pcb s') = rcv_nxt (pcb s)) as E1 by exact (f_equal rcv_nxt Ep).
  assert (rcv_wnd (pcb s') = rcv_wnd (pcb s)) as E2 by exact (f_equal rcv_wnd Ep).
  assert (rcv_ann_wnd (pcb s') = rcv_ann_wnd (pcb s)) as E3 by exact (f_equal rcv_ann_wnd Ep).
  assert (mss (pcb s') = mss (pcb s)) as E4 by exact (f_equal mss Ep).
  assert (ooseq (pcb s') = ooseq (pcb s)) as E5 by exact (f_equal ooseq Ep).
  split; rewrite ?E1, ?E2, ?E3, ?E4, ?E5; try done. destruct Hed as [-> | ->]; [by exists E|].
  exists (R + rcv_ann_wnd (pcb s)). rewrite HR. split; [|lia]. by rewrite (at_u32_eq (u32 R + rcv_ann_wnd (pcb s)) (R + rcv_ann_wnd (pcb s))).
Qed.

Lemma tune_ok_out s s' : tune_ok (pcb s) → out_view s' = out_view s → tune_ok (pcb s').
Proof.
  intros Ht Hv. assert (out_pcb (pcb s') = out_pcb (pcb s)) as Ep by exact (f_equal pcb Hv). unfold tune_ok in *.
  assert (cwnd (pcb s') = cwnd (pcb s)) as -> by exact (f_equal cwnd Ep).
  assert (ssthresh (pcb s') = ssthresh (pcb s)) as -> by exact (f_equal ssthresh Ep).
  assert (nrtx (pcb s') = nrtx (pcb s)) as -> by exact (f_equal nrtx Ep).
  by assert (mss (pcb s') = mss (pcb s)) as -> by exact (f_equal mss Ep).
Qed.

Lemma beside_pcb D R N W s0 s f : beside D R N W s0 s → ack_keeps (pcb s) (f (pcb s)) → beside D R N W s0 (s <| pcb ::= f |>).
Proof.
  intros [? ? ? ? ? [? ?] ? ? ?] [E ? ? ?]. split; get_set; auto; [by eapply rcv_ok_part|..]; injection E; intros; try congruence.
  split; [congruence|lia].
Qed.

Lemma beside_acked D R N W s0 s n : beside D R N W s0 s → beside D R N W s0 (s <| recv_acked := n |>).
Proof. intros [? ? ? ? ? ? ? ? ?]. by split. Qed.

Lemma send_empty_ack_beside D R N W s0 s :
  N ≤ W → beside D R N W s0 s → wlp tcp_send_empty_ack (λ _, beside D R N W s0) s.
Proof.
  intros HN [Hr Ht Hn Hst Hw Hm Hf Hse Hin]. apply wlp_of_wp.
  eapply wp_mono; [apply wp_wlp; [apply (send_empty_ack_out (S := S) W W); by exists N|apply wlp_of_wp, send_empty_ack_ok]|].
  intros e s1 [Hq [_ Hed]]. pose proof (or_fit _ _ _ _ (same_queues_rest _ _ _ _ Hq)) as Hfit. destruct Hq as [Hv _ _ _ En Hs1]. split.
  - by eapply rcv_ok_out.
  - by eapply tune_ok_out.
  - by rewrite En.
  - rewrite <- Hst. exact (f_equal (λ t, state (pcb t)) Hv).
  - rewrite <- Hw. exact (f_equal (λ t, rcv_wnd (pcb t)) Hv).
  - assert (mss (pcb s1) = mss (pcb s)) as -> by exact (f_equal (λ t, mss (pcb t)) Hv).
    by assert (snd_wnd_max (pcb s1) = snd_wnd_max (pcb s)) as -> by exact (f_equal (λ t, snd_wnd_max (pcb t)) Hv).
  - auto.
  - eapply sends_trans; [exact Hse|]. destruct Hs1 as (l & El & Fl). exists l. split; [done|]. eapply Forall_impl; [|exact Fl].
    intros pk (_ & _ & a & ? & ? & ? & _). by exists a.
  - rewrite <- Hin. exact (f_equal in_part Hv).
Qed.

Lemma ack_unsent_beside D R N W s0 s ack : beside D R N W s0 s → wlp (ack_unsent ack) (λ _, beside D R N W s0) s.
Proof.
  intros Hb. unfold ack_unsent, on_pcb. repeat wlp_step. pose proof (free_unsent_keeps _ _ _ _ _ eq_refl Elift) as Hk.
  apply beside_acked, beside_pcb; [done|]. eapply ack_keeps_trans; [exact Hk|]. eapply ack_keeps_trans; [|apply estimate_rtt_keeps]. keeps.
Qed.

Lemma ack_segments_beside D R N W s0 s ack : beside D R N W s0 s → wlp (ack_segments ack) (λ _, beside D R N W s0) s.
Proof.
  intros Hb. unfold ack_segments, on_pcb. repeat wlp_step. pose proof (free_unacked_keeps _ _ _ _ _ eq_refl Elift0) as Hk.
  pose proof (ack_new_keeps _ _ _ Elift) as Hn. apply beside_acked, beside_pcb; [done|].
  eapply ack_keeps_trans; [exact Hn|]. eapply ack_keeps_trans; [exact Hk|]. keeps.
Qed.

Lemma receive_ack_beside D R N W s0 s : N ≤ W → beside D R N W s0 s → wlp receive_ack (λ _, beside D R N W s0) s.
Proof.
  intros HN Hb. unfold receive_ack, on_pcb. do 10 wlp_step. cbv zeta. do 2 wlp_step. apply wlp_bind.
  pose proof (beside_pcb _ _ _ _ _ _ _ Hb (update_snd_wnd_keeps (seqno s) (ackno s) (h_wnd (seg_hdr (inseg s))) (pcb s))) as Hb1.
  eapply (wlp_mono _ (λ _, beside D R N W s0)); [|intros [] s2; apply ack_unsent_beside].
  destruct (TCP_SEQ_LEQ _ _); [|apply wlp_case].
  - wlp_step. apply beside_pcb; [done|apply ack_old_keeps].
  - by apply ack_segments_beside.
  - wlp_step. eapply wlp_mono; [by apply send_empty_ack_beside|]. intros e s2 Hb2. by wlp_step.
Qed.

(** ** Data *)

(** Since [s0] only pieces of the stream were sent, and what comes next has the
    number [N]. *)
Definition quiet (N W : Z) (s0 s : tcp) : Prop := sends (carries W) s0 s ∧ snd_nxt (pcb s) = u32 N.

Lemma quiet_same N W s0 s s' : quiet N W s0 s → sent s' = sent s → snd_nxt (pcb s') = snd_nxt (pcb s) → quiet N W s0 s'.
Proof. intros [(l & E & Fl) En] E1 E2. unfold quiet. rewrite E2. split; [|done]. exists l. by rewrite E1, E. Qed.

Ltac quiet :=
  match goal with Hq : quiet _ _ _ _ |- quiet _ _ _ _ =>
    eapply quiet_same; [exact Hq|by get_set|by get_set; unfold tcp_ack_now, set_flag; repeat case_match; get_set] end.

Lemma send_empty_ack_quiet N W s0 s : N ≤ W → quiet N W s0 s → wlp tcp_send_empty_ack (λ _, quiet N W s0) s.
Proof.
  intros HN [Hse En]. apply wlp_of_wp. eapply wp_mono; [apply (send_empty_ack_out (S := S) W W); by exists N|].
  intros e s1 [_ _ _ _ E Hs1]. split; [|by rewrite E]. eapply sends_trans; [exact Hse|].
  destruct Hs1 as (l & El & Fl). exists l. split; [done|]. eapply Forall_impl; [|exact Fl].
  intros pk (_ & _ & a & ? & ? & ? & _). by exists a.
Qed.

Lemma quiet_closed N W s0 : N ≤ W → data_closed (quiet N W s0).
Proof.
  intros HN. split.
  - intros s s' Hq E1 E2 _ _ _ _. by eapply quiet_same.
  - intros s Hq. quiet.
  - intros s Hq _ _. quiet.
  - intros s. by apply send_empty_ack_quiet.
Qed.

(** ** The edge that [tcp_output] announces *)

Definition edged (n w e : Z) (st : tcp_state) (s : tcp) : Prop :=
  rcv_nxt (pcb s) = n ∧ rcv_ann_wnd (pcb s) = w ∧ state (pcb s) = st ∧
  (rcv_ann_right_edge (pcb s) = e ∨ rcv_ann_right_edge (pcb s) = u32 (n + w)).

Lemma edged_same n w e st s s' :
  edged n w e st s → rcv_nxt (pcb s') = rcv_nxt (pcb s) → rcv_ann_wnd (pcb s') = rcv_ann_wnd (pcb s) → state (pcb s') = state (pcb s) →
  rcv_ann_right_edge (pcb s') = rcv_ann_right_edge (pcb s) → edged n w e st s'.
Proof. unfold edged. by intros ? -> -> -> ->. Qed.

Ltac edged :=
  match goal with Hq : edged _ _ _ _ _ |- edged _ _ _ _ _ =>
    eapply edged_same; [exact Hq|by get_set; repeat case_match; get_set..] end.

Lemma edged_now n w e st s : edged n w e st s → edged n w e st (s <| pcb ::= λ p, p <| rcv_ann_right_edge := u32 (rcv_nxt p + rcv_ann_wnd p) |> |>).
Proof. intros (<- & <- & <- & _). unfold edged. get_set. auto. Qed.

Lemma output_done_edged n w e st s : edged n w e st s → wlp output_done (λ _, edged n w e st) s.
Proof. intros Hq. unfold output_done, on_pcb, clear_flag. repeat wlp_step. edged. Qed.

Lemma output_segment_edged n w e st seg s : edged n w e st s → wlp (tcp_output_segment seg) (λ _, edged n w e st) s.
Proof.
  intros Hq. unfold tcp_output_segment, ask, on_pcb. do 7 wlp_step; [wlp_step; edged|].
  do 4 wlp_step. cbv zeta. do 2 wlp_step. match goal with |- wlp _ _ ?s => set (s1 := s) end.
  assert (edged n w e st s1) as Hq1 by (subst s1; apply edged_now; edged). clearbody s1.
  apply wlp_bind. eapply (wlp_mono _ (λ _, edged n w e st)).
  - unfold tcp_eff_send_mss, ask. cbv zeta. repeat wlp_step; edged.
  - intros o s2 Hq2. cbv beta in Hq2. unfold ip_output, ask. repeat wlp_step. edged.
Qed.

Lemma output_loop_edged n w e st wnd l : ∀ s, edged n w e st s → wlp (output_loop wnd l) (λ _, edged n w e st) s.
Proof.
  induction l as [|seg rest IH]; intros s Hq; cbn [output_loop]; do 2 wlp_step; [by apply output_done_edged|].
  wlp_step; [by apply output_done_edged|]. unfold LWIP_ASSERT, on_pcb. do 3 wlp_step; [|by wlp_step..].
  wlp_step; [by apply output_done_edged|]. cbv zeta. wlp_step. eapply wlp_mono; [by apply output_segment_edged|].
  intros r s1 Hq1. cbv beta in Hq1. wlp_step.
  - unfold set_flag. repeat wlp_step. edged.
  - do 2 wlp_step. apply IH. eapply edged_same; [exact Hq1|..]; get_set; unfold segment_sent, clear_flag; repeat case_match; by get_set.
Qed.

Lemma send_empty_ack_edged n w e st s : edged n w e st s → wlp tcp_send_empty_ack (λ _, edged n w e st) s.
Proof.
  intros (<- & <- & <- & Hq). apply wlp_of_wp. eapply wp_mono; [apply send_empty_ack_ok|]. intros r s1 [Hv He]. unfold edged.
  assert (rcv_nxt (pcb s1) = rcv_nxt (pcb s)) as -> by exact (f_equal (λ t, rcv_nxt (pcb t)) Hv).
  assert (rcv_ann_wnd (pcb s1) = rcv_ann_wnd (pcb s)) as -> by exact (f_equal (λ t, rcv_ann_wnd (pcb t)) Hv).
  assert (state (pcb s1) = state (pcb s)) as -> by exact (f_equal (λ t, state (pcb t)) Hv).
  destruct He as [->| ->]; auto.
Qed.

Lemma tcp_output_edged n w e st s : edged n w e st s → wlp tcp_output (λ _, edged n w e st) s.
Proof.
  intros Hq. unfold tcp_output, LWIP_ASSERT, on_pcb, ask. do 4 wlp_step; [|by wlp_step]. do 4 wlp_step; [by wlp_step|].
  cbv zeta. wlp_step; [by apply send_empty_ack_edged|]. do 7 wlp_step; [wlp_step; edged|].
  wlp_step. eapply (wlp_mono _ (λ _, edged n w e st)); [repeat wlp_step; edged|]. intros ip s1 Hq1. cbv beta in Hq1.
  destruct ip; [|by wlp_step]. do 3 wlp_step.
  - do 2 wlp_step. apply output_done_edged. edged.
  - apply output_loop_edged. edged.
Qed.

(** ** The sender of a state with the same sender *)

Lemma sending_rx r A B W L N s s' :
  sending (S := S) r A B W L N (pcb s) → rx_all s' = rx_all s → sending (S := S) r A B W L N (pcb s').
Proof.
  intros [[? ? ? ? ? ? ? ? ?] ? ? ? ?] Hv. assert (rx_view (pcb s') = rx_view (pcb s)) as Ep by exact (f_equal pcb Hv).
  assert (snd_lbb (pcb s') = snd_lbb (pcb s)) as E1 by exact (f_equal snd_lbb Ep).
  assert (unacked (pcb s') = unacked (pcb s)) as E2 by exact (f_equal unacked Ep).
  assert (unsent (pcb s') = unsent (pcb s)) as E3 by exact (f_equal unsent Ep).
  assert (snd_queuelen (pcb s') = snd_queuelen (pcb s)) as E4 by exact (f_equal snd_queuelen Ep).
  assert (unsent_oversize (pcb s') = unsent_oversize (pcb s)) as E5 by exact (f_equal unsent_oversize Ep).
  assert (snd_buf (pcb s') = snd_buf (pcb s)) as E6 by exact (f_equal snd_buf Ep).
  assert (lastack (pcb s') = lastack (pcb s)) as E7 by exact (f_equal lastack Ep).
  assert (snd_nxt (pcb s') = snd_nxt (pcb s)) as E8 by exact (f_equal snd_nxt Ep).
  assert (tcp_mss_local (pcb s') = tcp_mss_local (pcb s)) as E9.
  { unfold tcp_mss_local. assert (mss (pcb s') = mss (pcb s)) as -> by exact (f_equal mss Ep).
    by assert (snd_wnd_max (pcb s') = snd_wnd_max (pcb s)) as -> by exact (f_equal snd_wnd_max Ep). }
  split; [split|..]; rewrite ?E1, ?E2, ?E3, ?E4, ?E5, ?E6, ?E7, ?E8, ?E9; done.
Qed.

Lemma tune_ok_rx s s' : tune_ok (pcb s) → mss_ok (pcb s) → rx_all s' = rx_all s → tune_ok (pcb s') ∧ mss_ok (pcb s').
Proof.
  intros Ht Hm Hv. assert (rx_view (pcb s') = rx_view (pcb s)) as Ep by exact (f_equal pcb Hv). unfold tune_ok, mss_ok in *.
  assert (cwnd (pcb s') = cwnd (pcb s)) as -> by exact (f_equal cwnd Ep).
  assert (ssthresh (pcb s') = ssthresh (pcb s)) as -> by exact (f_equal ssthresh Ep).
  assert (nrtx (pcb s') = nrtx (pcb s)) as -> by exact (f_equal nrtx Ep).
  assert (mss (pcb s') = mss (pcb s)) as -> by exact (f_equal mss Ep).
  by assert (snd_wnd_max (pcb s') = snd_wnd_max (pcb s)) as -> by exact (f_equal snd_wnd_max Ep).
Qed.

End Frame.
