(* ===== verification/LwipTcpSession.v ===== *)
(** TCP of lwIP, an open connection: while the application writes, the peer
    sends segments and the timer retransmits, the code does not fault, what it
    sends are pieces of what was written, and the application reads a prefix of
    what the peer sent.  [allowed] says what they may do; the runs that it
    excludes and that go wrong are those of [LwipTcpFaults]. *)
From S2P Require Import Prelude.
From S2P Require Import LwipTcp.
From S2P Require Import LwipTcpOut.
From S2P Require Import LwipTcpApi.
From S2P Require Import LwipTcpIn.
From S2P Require Import LwipTcpProcess.
From S2P Require Import LwipTcpTimer.
From S2P Require Import LwipTcpExamples.
From S2P Require Import LwipTcpSeq.
From S2P Require Import LwipTcpRx.
From S2P Require Import LwipTcpDeliver.
From S2P Require Import LwipTcpStream.
From S2P Require Import LwipTcpTx.
From S2P Require Import LwipTcpOutput.
From S2P Require Import LwipTcpAck.
From S2P Require Import LwipTcpKept.
From S2P Require Import LwipTcpFrame.

(** A connection with its application: up to where it has written its stream,
    what it was given, and how many of its bytes it was told were received. *)
Record session := mk_session { conn : tcp; written : Z; read : list Z; told : Z }.
#[export] Instance eta_session : Eta session := λ x, mk_session (conn x) (written x) (read x) (told x).
#[export] Instance set_conn : Setter conn := ltac:(setter).
#[export] Instance set_written : Setter written := ltac:(setter).
#[export] Instance set_read : Setter read := ltac:(setter).
#[export] Instance set_told : Setter told := ltac:(setter).

Inductive event :=
  | Write (arg n apiflags : Z)  (** [tcp_write] of the next [n] bytes, which are at [arg]. *)
  | Output                      (** [tcp_output]. *)
  | Segment (seg : tcp_seg)     (** [tcp_input] of a segment without options, up to what it tells the application. *)
  | Return                      (** The application returns to [tcp_input]. *)
  | Recved (n : Z)              (** [tcp_recved]. *)
  | Retransmit.                 (** The retransmission timer of [tcp_slowtmr]. *)

(** There is nothing [tcp_input] tells the application. *)
Definition nothing_told (s : tcp) : bool :=
  (recv_acked s =? 0) && bool_decide (recv_data s = None) && (recv_flags s =? 0).

(** No unsent segment lies before one that was sent: it would have to be sent
    again. *)
Definition in_order (p : tcp_pcb) : bool :=
  forallb (λ u, forallb (λ a, TCP_SEQ_LT (seqno_of a) (seqno_of u)) (unacked p)) (unsent p).

(** The segments that are not acknowledged, by their numbers. *)
Definition stream_queue (p : tcp_pcb) : list tcp_seg :=
  if in_order p then unacked p ++ unsent p
  else match unsent p with s :: u => s :: unacked p ++ u | [] => unacked p end.

Lemma mss_ok_local p : mss_ok p → 0 < tcp_mss_local p ≤ TCP_MSS.
Proof.
  intros [Hm Hw]. unfold tcp_mss_local. pose proof (Z.div_le_mono 2 (snd_wnd_max p) 2 ltac:(lia) Hw). change (2 / 2) with 1 in *.
  destruct (Z.eqb_spec (mss p `min` (snd_wnd_max p / 2)) 0); lia.
Qed.

Section Session.
Context `{TcpEnv} (app_err : Z → TCP ()) (app_connected app_accept : TCP Z).
Context (Sout Sin : Z → Z) (F : option Z) (W0 R0 : Z).

(** The end of [tcp_input]. *)
Definition input_done (s : session) : result (Z * session) :=
  r ← tcp_output (conn s <| tcp_input_pcb := false |>); Ok (ERR_OK, s <| conn := r.2 |>).

(** The segment without options, as it comes to [tcp_process]. *)
Definition arrived_at (seg : tcp_seg) (c : tcp) : tcp := arrive seg c <| tcphdr_optlen := 0 |> <| tcp_input_pcb := true |>.

(** The data and the count go to the application. *)
Definition processed (c : tcp) (s : session) : session :=
  s <| conn := c |> <| read ::= λ l, l ++ data_of (recv_data c) |> <| told ::= λ n, n + recv_acked c |>.

(** What the application does with the result. *)
Definition handle (ev : event) (s : session) : result (Z * session) :=
  match ev with
  | Write arg n apiflags =>
      r ← tcp_write (Some arg) (span Sout (written s) n) apiflags (conn s);
      Ok (r.1, s <| conn := r.2 |> <| written ::= λ w, if r.1 =? ERR_OK then w + n else w |>)
  | Output => r ← tcp_output (conn s); Ok (r.1, s <| conn := r.2 |>)
  | Segment seg =>
      r ← tcp_process app_err app_connected app_accept (arrived_at seg (conn s));
      if nothing_told r.2 then input_done (processed r.2 s) else Ok (r.1, processed r.2 s)
  | Return => input_done s
  | Recved n => r ← tcp_recved n (conn s); Ok (ERR_OK, s <| conn := r.2 |>)
  | Retransmit => r ← retransmission_timer (conn s); Ok (ERR_OK, s <| conn := r.2 |>)
  end.

(** A connection right after the handshake. *)
Record opened (s : session) : Prop := {
  op_state : state (pcb (conn s)) = ESTABLISHED;
  op_queues : unacked (pcb (conn s)) = [] ∧ unsent (pcb (conn s)) = [] ∧ ooseq (pcb (conn s)) = [];
  op_counts : snd_queuelen (pcb (conn s)) = 0 ∧ unsent_oversize (pcb (conn s)) = 0 ∧ snd_buf (pcb (conn s)) = TCP_SND_BUF;
  op_snd : lastack (pcb (conn s)) = u32 W0 ∧ snd_nxt (pcb (conn s)) = u32 W0 ∧ snd_lbb (pcb (conn s)) = u32 W0;
  op_rcv : rcv_nxt (pcb (conn s)) = u32 R0 ∧ rcv_ann_right_edge (pcb (conn s)) = u32 (R0 + TCP_WND);
  op_wnd : rcv_wnd (pcb (conn s)) = TCP_WND ∧ rcv_ann_wnd (pcb (conn s)) = TCP_WND;
  op_mss : mss_ok (pcb (conn s));
  op_tune : tune_ok (pcb (conn s));
  op_fresh : sent (conn s) = [] ∧ written s = W0 ∧ read s = [] ∧ told s = 0 }.

(** The position of the stream of the peer. *)
Definition position (s : session) : Z := R0 + zlen (read s).

(** A segment of the peer: it neither opens nor resets the connection; its
    acknowledgement number is less than half the number space away from
    [lastack]; its data are a piece of the stream and end within the window
    ([LwipTcpFaults.ooseq_beyond_window]), begin at most 32766 bytes before what
    was received if they go beyond it, and the announced edge of the window is
    not far behind what was received. *)
Record peer_segment (seg : tcp_seg) (s : session) : Prop := {
  ps_flags : has (TCPH_FLAGS (seg_hdr seg)) TCP_RST = false ∧ has (TCPH_FLAGS (seg_hdr seg)) TCP_SYN = false;
  ps_ackno : 0 ≤ h_ackno (seg_hdr seg) < 4294967296;
  ps_near : - 2147400000 ≤ s32 (h_ackno (seg_hdr seg) - lastack (pcb (conn s))) ≤ 2147400000;
  ps_data : 0 < TCP_TCPLEN seg → state (pcb (conn s)) = ESTABLISHED → ∃ a,
    seg_at Sin F a seg ∧ a + TCP_TCPLEN seg ≤ position s + rcv_wnd (pcb (conn s)) ∧ position s - 1000000000 ≤ a ∧
    (position s < a + TCP_TCPLEN seg → position s - a < 32767);
  ps_lag : - 900000000 ≤ s32 (rcv_ann_right_edge (pcb (conn s)) - rcv_nxt (pcb (conn s))) }.

(** What application and peer may do.  While a segment that is to be sent again
    waits ([b = false]) they only call and return
    ([LwipTcpFaults.write_after_rexmit_overlaps]). *)
Definition allowed (b : bool) (ev : event) (s : session) : Prop :=
  match ev with
  | Write _ n _ => b = true ∧ 0 ≤ n < 65536
  | Segment seg => b = true ∧ peer_segment seg s
  | Recved n => 0 < n ∧ rcv_wnd (pcb (conn s)) + n < 65536
  | Retransmit => b = true
  | Output | Return => True
  end.

(** The sessions that can be reached, and whether the queues are in order. *)
Inductive reach : bool → session → Prop :=
  | reach_opened s : opened s → reach true s
  | reach_event b ev s e s' :
      reach b s → allowed b ev s → handle ev s = Ok (e, s') → reach (in_order (pcb (conn s'))) s'.

(** ** The invariant *)

(** All but the queues. *)
Record base (s : session) : Prop := {
  ba_fit : all_fit (tcp_mss_local (pcb (conn s))) (pcb (conn s));
  ba_tuned : mss_ok (pcb (conn s)) ∧ tune_ok (pcb (conn s));
  ba_receiver : ∃ D R, rcv_ok (S := Sin) (F := F) D R (pcb (conn s)) ∧ D ≤ 1000000000 ∧
    (state (pcb (conn s)) = ESTABLISHED → R = position s);
  ba_state : state (pcb (conn s)) = ESTABLISHED ∨ state (pcb (conn s)) = CLOSE_WAIT;
  ba_read : read s = span Sin R0 (zlen (read s));
  ba_sent : Forall (carries (S := Sout) (written s)) (sent (conn s)) }.

(** The queues hold the stream, as they are or once the first unsent segment is
    sent again. *)
Definition holds (b : bool) (A B W L N : Z) (p : tcp_pcb) : Prop :=
  if b then sending (S := Sout) true A B W L N p else resending (S := Sout) true A B W L N p.

Record inv (b : bool) (s : session) : Prop := {
  iv_base : base s;
  iv_sender : ∃ B L N, holds b (W0 + told s) B (written s) L N (pcb (conn s)) }.

Lemma sending_in_order A B W L N p : sending (S := Sout) true A B W L N p → in_order p = true.
Proof.
  intros [[_ Q2 Q3 _ _ _ _ Q8 _] _ _ _ _]. change TCP_SND_BUF with 16384 in *. unfold in_order. pose proof (chain_le _ _ _ Q2).
  pose proof (chain_le _ _ _ Q3). assert (∀ l a b, chain (S := Sout) (F := None) a b l → ∀ c, c ∈ l →
    ∃ m, seg_at Sout None m c ∧ a ≤ m < b) as Hin.
  { induction l as [|x l IH]; intros a b; [intros _ c; by rewrite elem_of_nil|]. intros (Hx & [? _] & Hl) c. pose proof (chain_le _ _ _ Hl).
    rewrite elem_of_cons. intros [->|Hc]; [exists a; split; [done|len_lia]|]. destruct (IH _ _ Hl c Hc) as (m & ? & ?). exists m. split; [done|lia]. }
  apply forallb_forall. intros u Hu. apply forallb_forall. intros c Hc. apply list_elem_of_In in Hu, Hc.
  destruct (Hin _ _ _ Q3 u Hu) as (m & Hm & ?). destruct (Hin _ _ _ Q2 c Hc) as (k & Hk & ?).
  rewrite (sa_seqno _ _ _ _ Hm), (sa_seqno _ _ _ _ Hk), (seq_lt (u32 k) (u32 m) k m) by len_lia. apply Z.ltb_lt. lia.
Qed.

(** If nothing else waits for its acknowledgement the queues are in order. *)
Lemma resending_in_order A B W L N p :
  resending (S := Sout) true A B W L N p → all_fit (tcp_mss_local p) p → in_order p = true → sending (S := Sout) true A A W L N p.
Proof.
  intros (c & u & Eu & [[Q1 Q2 Q3 Q4 Q5 Q6 Q7 Q8 Q9] Hla Hnx Ho Hh]) Hfit Hord. unfold put_back, all_fit, in_order in *.
  get_set_in Q1. get_set_in Q2. get_set_in Q3. get_set_in Q4. get_set_in Q5. get_set_in Q6. get_set_in Q7. get_set_in Hla. get_set_in Hnx.
  get_set_in Hh. rewrite Eu in *. destruct Q2 as (Hc & Hpr & Hl). pose proof (chain_le _ _ _ Hl). pose proof (chain_le _ _ _ Q3).
  change TCP_SND_BUF with 16384 in *. change (tcp_mss_local (_ <| unsent := u |>)) with (tcp_mss_local p) in *.
  destruct (unacked p) as [|a l] eqn:Ea.
  - cbn in Hl. subst B. split; [split|..]; rewrite ?Ea, ?Eu; try done; [|len_lia]. intros Er. specialize (Q6 Er). unfold has_room in *.
    destruct u as [|u1 u]; [|exact Q6]. cbn in *. rewrite Q6. apply Forall_cons_iff in Hfit as [Hfit _]. unfold fits in Hfit. split_and!; lia.
  - exfalso. destruct Hl as (Ha & _ & Hl). pose proof (chain_le _ _ _ Hl). cbn [forallb] in Hord. apply andb_prop in Hord as [Hord _].
    apply andb_prop in Hord as [Hord _]. rewrite (sa_seqno _ _ _ _ Ha), (sa_seqno _ _ _ _ Hc) in Hord.
    rewrite (seq_lt (u32 (A + TCP_TCPLEN c)) (u32 A) (A + TCP_TCPLEN c) A) in Hord by len_lia. lia.
Qed.

(** Whatever the order is, it can be read off the queues. *)
Lemma inv_settled b A B W L N s :
  base s → holds b A B W L N (pcb (conn s)) → A = W0 + told s → W = written s →
  inv (in_order (pcb (conn s))) s ∧ (b = true → in_order (pcb (conn s)) = true).
Proof.
  intros Hb Hs -> ->. destruct b; cbn [holds] in Hs; (split; [split; [done|]|try done]).
  - rewrite (sending_in_order _ _ _ _ _ _ Hs). by exists B, L, N.
  - intros _. by eapply sending_in_order.
  - destruct (in_order (pcb (conn s))) eqn:E; [|by exists B, L, N].
    exists (W0 + told s), L, N. cbn [holds]. eapply resending_in_order; [exact Hs|apply Hb|done].
Qed.

Lemma inv_settled_conn b A B W L N s c :
  base (s <| conn := c |>) → holds b A B W L N (pcb c) → A = W0 + told s → W = written s →
  inv (in_order (pcb c)) (s <| conn := c |>) ∧ (b = true → in_order (pcb c) = true).
Proof. intros ? ? ? ?. pose proof (inv_settled b A B W L N (s <| conn := c |>)) as Hi. get_set_in Hi. auto. Qed.

(** The fields of the sender. *)
Definition snd_part (p : tcp_pcb) := (snd_lbb p, unacked p, unsent p, snd_queuelen p, unsent_oversize p, snd_buf p, lastack p, snd_nxt p, mss p, snd_wnd_max p).

Lemma sending_part r A B W L N p p' : sending (S := Sout) r A B W L N p → snd_part p' = snd_part p → sending (S := Sout) r A B W L N p'.
Proof.
  intros [[? ? ? ? ? ? ? ? ?] ? ? ? ?] [= E1 E2 E3 E4 E5 E6 E7 E8 E9 E10]. assert (tcp_mss_local p' = tcp_mss_local p) as Em by (unfold tcp_mss_local; by rewrite E9, E10).
  by split; [split|..]; rewrite ?E1, ?E2, ?E3, ?E4, ?E5, ?E6, ?E7, ?E8, ?Em.
Qed.

Lemma holds_part b A B W L N p p' : holds b A B W L N p → snd_part p' = snd_part p → holds b A B W L N p'.
Proof.
  destruct b; cbn [holds]; [apply sending_part|]. intros (c & u & Eu & Hs) E. pose proof E as [= E1 E2 E3 E4 E5 E6 E7 E8 E9 E10].
  exists c, u. split; [by rewrite E3|]. eapply sending_part; [exact Hs|]. unfold snd_part, put_back. get_set. by rewrite E1, E2, E4, E5, E6, E7, E8, E9, E10.
Qed.

Lemma fit_part p p' : all_fit (tcp_mss_local p) p → snd_part p' = snd_part p → all_fit (tcp_mss_local p') p'.
Proof. intros Hf [= E1 E2 E3 E4 E5 E6 E7 E8 E9 E10]. unfold all_fit, tcp_mss_local in *. by rewrite E2, E3, E9, E10. Qed.

Lemma holds_order b A B W L N p : holds b A B W L N p → A ≤ L ≤ N ∧ B ≤ N ≤ W.
Proof. destruct b; cbn [holds]; [apply se_order|]. intros (c & u & _ & Hs). apply (se_order _ _ _ _ _ _ _ Hs). Qed.
Lemma holds_nums b A B W L N p : holds b A B W L N p → lastack p = u32 L ∧ snd_nxt p = u32 N.
Proof. destruct b; cbn [holds]; [by intros [? ? ? ? ?]|]. by intros (c & u & _ & [? ? ? ? ?]). Qed.

Lemma inv_opened s : opened s → inv true s.
Proof.
  intros [Hst (Hq1 & Hq2 & Hq3) (Hc1 & Hc2 & Hc3) (Hs1 & Hs2 & Hs3) (Hr1 & Hr2) (Hw1 & Hw2) Hm Ht (Hf1 & Hf2 & Hf3 & Hf4)].
  split; [split|].
  - unfold all_fit. by rewrite Hq1, Hq2.
  - done.
  - exists 0, R0. split; [|split; [lia|intros _; unfold position; rewrite Hf3; symmetry; apply Z.add_0_r]]. destruct Hm as [Hm _].
    change TCP_MSS with 512 in *. change TCP_WND with 2048 in *.
    split; rewrite ?Hw1, ?Hw2, ?Hq3; try done; try lia. exists (R0 + 2048). split; [done|lia].
  - by left.
  - by rewrite Hf3.
  - by rewrite Hf1.
  - exists W0, W0, W0. cbn [holds]. rewrite Hf2, Hf4, Z.add_0_r. split; [split|..]; rewrite ?Hq1, ?Hq2, ?Hc1, ?Hc2, ?Hc3; try done; try lia.
    + change TCP_SND_BUF with 16384. lia.
    + by apply mss_ok_local.
Qed.

(** The third acknowledgement of the same number. *)
Definition third_duplicate (ev : event) (s : session) : Prop :=
  ∃ seg, ev = Segment seg ∧ third_dup (h_ackno (seg_hdr seg)) (pcb (conn s)).

(** An event is handled, and the invariant holds again; only a third
    duplicate disorders the queues. *)
Definition handled (b : bool) (ev : event) (s : session) : Prop := ∃ e s', handle ev s = Ok (e, s') ∧
  inv (in_order (pcb (conn s'))) s' ∧ (b = true → ¬ third_duplicate ev s → in_order (pcb (conn s')) = true).

Definition tune_part (p : tcp_pcb) : Z * Z * Z * Z * Z := (mss p, snd_wnd_max p, cwnd p, ssthresh p, nrtx p).

Lemma tune_part_ok p p' : mss_ok p ∧ tune_ok p → tune_part p' = tune_part p → mss_ok p' ∧ tune_ok p'.
Proof. unfold mss_ok, tune_ok, tune_part. intros ? [= -> -> -> -> ->]. done. Qed.

Lemma carries_mono W W' pk : carries (S := Sout) W pk → W ≤ W' → carries (S := Sout) W' pk.
Proof. intros (a & ? & ? & ?) ?. exists a. split_and!; (done || lia). Qed.

Lemma carries_all_mono W W' l : Forall (carries (S := Sout) W) l → W ≤ W' → Forall (carries (S := Sout) W') l.
Proof. intros Hl HW. eapply Forall_impl; [|exact Hl]. intros pk Hp. by eapply carries_mono. Qed.

(** Only the sender has changed. *)
Lemma base_changed s c W' :
  base s → rcv_part (pcb c) = rcv_part (pcb (conn s)) → mss_ok (pcb c) ∧ tune_ok (pcb c) → sent c = sent (conn s) →
  written s ≤ W' → all_fit (tcp_mss_local (pcb c)) (pcb c) → base (s <| conn := c |> <| written := W' |>).
Proof.
  intros [_ _ (D & R & Hr & HD & HR) Hst Hrd Hse] Ep Et Es HW Hf.
  assert (state (pcb c) = state (pcb (conn s))) as Est by (by injection Ep).
  split; get_set; rewrite ?Est, ?Es; try done; [|by eapply carries_all_mono].
  exists D, R. split; [by eapply rcv_ok_part|]. done.
Qed.

Lemma sending_written A B W n L N p p' :
  sending (S := Sout) true A B W L N p → queued_if (S := Sout) true A B (W + n) p' → lastack p' = lastack p → snd_nxt p' = snd_nxt p →
  unacked p' = unacked p → head_le (unsent p) (unsent p') → 0 ≤ n → sending (S := Sout) true A B (W + n) L N p'.
Proof.
  intros [[_ Q2 Q3 _ _ _ _ _ _] Hla Hnx Ho Hh] Hq El En Eu Hhl Hn. split; [done|by rewrite El|by rewrite En|lia|].
  rewrite Eu. destruct (unacked p) as [|u l] eqn:Eua; cbn [app] in *; [|done]. cbn in Q2. subst B.
  destruct Hq as [_ _ Q3' _ _ _ _ _ _]. destruct (unsent p') as [|s' l']; [done|]. destruct Q3' as (Hs' & [Hpos _] & _).
  destruct (unsent p) as [|s l]; cbn in *; [lia|]. destruct Q3 as (Hs & _ & _).
  rewrite (tcplen_len _ _ Hs) in *. rewrite (tcplen_len _ _ Hs') in *. lia.
Qed.

Lemma inv_write arg n apiflags s : inv true s → 0 ≤ n < 65536 → handled true (Write arg n apiflags) s.
Proof.
  intros [Hb (B & L & N & Hs)] Hn. cbn [holds] in Hs. pose proof Hb as [Hft [Hmo Htu] _ _ _ _].
  destruct (tcp_write_ok (W0 + told s) B (written s) n arg apiflags (conn s) (se_queue _ _ _ _ _ _ _ Hs) Hn) as (e & c & E & Hpost).
  exists e. eexists. cbn [handle]. rewrite E. split; [done|]. cbn [fst snd].
  destruct Hpost as [(-> & Hq & Hv & [Hhl Htf])|(He & k & f & ->)].
  - assert (snd_wnd_max (pcb c) = snd_wnd_max (pcb (conn s))) as Ew by exact (f_equal (λ t, snd_wnd_max (pcb t)) Hv).
    assert (mss (pcb c) = mss (pcb (conn s))) as Em by exact (f_equal (λ t, mss (pcb t)) Hv).
    assert (unacked (pcb c) = unacked (pcb (conn s))) as Ea by exact (f_equal (λ t, unacked (pcb t)) Hv).
    assert (base (s <| conn := c |> <| written := written s + n |>)) as Hb'.
    { apply base_changed; [done|exact (f_equal (λ t, rcv_part (pcb t)) Hv)| |exact (f_equal sent Hv)|lia|].
      - eapply tune_part_ok; [done|]. exact (f_equal (λ t, tune_part (pcb t)) Hv).
      - unfold all_fit in *. replace (tcp_mss_local (pcb c)) with (tcp_mss_local (pcb (conn s))) by (unfold tcp_mss_local; by rewrite Ew, Em).
        rewrite Ea. apply Forall_app in Hft as [? ?]. apply Forall_app. auto. }
    match goal with |- inv _ ?s' ∧ _ => destruct (inv_settled true (W0 + told s) B (written s + n) L N s' Hb') as [? ?]; [|done..|by auto] end.
    apply (sending_written _ _ _ _ _ _ (pcb (conn s))); try done.
    + exact (f_equal (λ t, lastack (pcb t)) Hv).
    + exact (f_equal (λ t, snd_nxt (pcb t)) Hv).
    + lia.
  - assert ((e =? ERR_OK) = false) as -> by (by destruct He as [-> | ->]).
    match goal with |- inv _ ?s' ∧ _ => destruct (inv_settled true (W0 + told s) B (written s) L N s') as [? ?]; [by apply (base_changed s _ (written s))| |done..|by auto] end.
    apply (sending_part _ _ _ _ _ _ _ _ Hs). reflexivity.
Qed.

Lemma not_listening s : state (pcb (conn s)) = ESTABLISHED ∨ state (pcb (conn s)) = CLOSE_WAIT →
  state (pcb (conn s)) ≠ LISTEN ∧ state (pcb (conn s)) ≠ SYN_SENT.
Proof. by intros [-> | ->]. Qed.

(** [tcp_output], whether a segment waits to be sent again or not. *)
Lemma tcp_output_holds b A B W L N s :
  holds b A B W L N (pcb s) → state (pcb s) ≠ LISTEN → state (pcb s) ≠ SYN_SENT →
  wp tcp_output (λ _ s', ∃ E b' B' N', out_rest (S := Sout) W E s s' ∧ holds b' A B' W L N' (pcb s') ∧ (b = true → b' = true)) s.
Proof.
  intros Hs Hli Hst. destruct b; cbn [holds] in Hs.
  - eapply wp_mono; [by apply (tcp_output_ok true A B W L N s Hs)|]. intros e s' (Hr & B' & N' & _ & _ & Hs'). by eexists _, true, B', N'.
  - eapply wp_mono; [by apply (resend_output_ok true A B W L N s Hs)|]. intros e s' [Hr [(B' & N' & _ & _ & Hs')|Hs']].
    + by eexists _, true, B', N'.
    + by eexists _, false, B, N.
Qed.

Lemma inv_tcp_output b s :
  inv b s → wp tcp_output (λ _ c, inv (in_order (pcb c)) (s <| conn := c |>) ∧ (b = true → in_order (pcb c) = true)) (conn s).
Proof.
  intros [[Hft Htu (D & R & Hr & HD & HR) Hst Hrd Hse] (B & L & N & Hs)]. destruct (not_listening s Hst) as [Hli Hsy].
  eapply wp_mono.
  { apply wp_wlp; [by apply (tcp_output_holds b _ _ _ _ _ _ Hs)|].
    apply (tcp_output_edged (rcv_nxt (pcb (conn s))) (rcv_ann_wnd (pcb (conn s))) (rcv_ann_right_edge (pcb (conn s))) (state (pcb (conn s)))).
    unfold edged. auto. }
  intros e c [(E & b' & B' & N' & [Hv Hsn Hfit] & Hs' & Hb') (_ & _ & _ & Hed)].
  assert (state (pcb c) = state (pcb (conn s))) as Est by exact (f_equal (λ t, state (pcb t)) Hv).
  destruct (out_same _ _ Hv) as (_ & _ & _ & _ & Em & _).
  assert (base (s <| conn := c |>)) as Hba.
  2:{ destruct (inv_settled_conn b' _ B' _ L N' s c Hba Hs' eq_refl eq_refl) as [? ?]. auto. }
  split; get_set; rewrite ?Est, ?Em; auto.
  - apply (tune_part_ok (pcb (conn s))); [done|]. exact (f_equal (λ t, tune_part (pcb t)) Hv).
  - exists D, R. split; [|done]. by eapply rcv_ok_out.
  - destruct Hsn as (l & -> & Hl). apply Forall_app. split; [done|]. eapply Forall_impl; [|exact Hl].
    intros pk (_ & _ & a & ? & ? & ? & _). by exists a.
Qed.

Lemma inv_output b s : inv b s → handled b Output s.
Proof.
  intros Hi. destruct (inv_tcp_output b s Hi) as (e & c & E & Hc & Ho). exists e. eexists. cbn [handle]. rewrite E. by auto.
Qed.

(** The flags and the marks of the input do not matter. *)
Lemma inv_same b s c :
  inv b s → rcv_part (pcb c) = rcv_part (pcb (conn s)) → snd_part (pcb c) = snd_part (pcb (conn s)) → tune_ok (pcb c) →
  sent c = sent (conn s) → inv b (s <| conn := c |>).
Proof.
  intros [Hb (B & L & N & Hs)] Er Ep Et Es. split.
  - apply (base_changed s c (written s)); try done; [|eapply fit_part; [apply Hb|done]]. split; [|done].
    destruct (ba_tuned _ Hb) as [Hm _]. pose proof Ep as [= _ _ _ _ _ _ _ _ E1 E2]. unfold mss_ok. by rewrite E1, E2.
  - exists B, L, N. by eapply holds_part.
Qed.

Lemma inv_input_done b s : inv b s → ∃ e s', input_done s = Ok (e, s') ∧ inv (in_order (pcb (conn s'))) s' ∧
  (b = true → in_order (pcb (conn s')) = true).
Proof.
  intros Hi. assert (inv b (s <| conn := conn s <| tcp_input_pcb := false |> |>)) as Hi' by (apply inv_same; try done; apply Hi).
  destruct (inv_tcp_output _ _ Hi') as (e & c & E & Hc & Ho). get_set_in E. exists ERR_OK. eexists. unfold input_done. rewrite E. by auto.
Qed.

Lemma inv_return b s : inv b s → handled b Return s.
Proof. intros Hi. destruct (inv_input_done b s Hi) as (e & s' & E & ? & ?). exists e, s'. cbn [handle]. by auto. Qed.

(** ** [tcp_recved] *)

(** The window has grown to [w]. *)
Lemma rcv_ok_window D R w p :
  rcv_ok (S := Sin) (F := F) D R p → rcv_wnd p ≤ w ≤ TCP_WND → D ≤ 1000000000 →
  ∃ k n, tcp_update_rcv_ann_wnd (p <| rcv_wnd := w |>) = Ok (k, p <| rcv_wnd := w |> <| rcv_ann_wnd := n |>) ∧
    rcv_ok (S := Sin) (F := F) D R (p <| rcv_wnd := w |> <| rcv_ann_wnd := n |>).
Proof.
  intros [HR Hw Ha (E & HE & HER) HD Hm Hq] Hgrow HDm.
  destruct (update_rcv_ann_wnd_ok D R E (p <| rcv_wnd := w |>)) as (k & Ek & Hk); [get_set; (done || lia)..|].
  exists k. eexists. split; [exact Ek|]. get_set_in Hk. split; get_set; try (done || lia).
  - exists E. split; [done|lia].
  - eapply queue_hi; [|exact Hq]. lia.
Qed.

Lemma inv_recved b n s : inv b s → 0 < n → rcv_wnd (pcb (conn s)) + n < 65536 → handled b (Recved n) s.
Proof.
  intros Hi Hn Hfit. pose proof Hi as [[Hft Htu (D & R & Hr & HD & HR) Hst Hrd Hse] (B & L & N & Hs)].
  destruct (not_listening s Hst) as [Hli Hsy]. pose proof (ro_wnd _ _ _ Hr) as Hw. change TCP_WND with 2048 in *.
  set (w := Z.min TCP_WND (rcv_wnd (pcb (conn s)) + n)). change TCP_WND with 2048 in *.
  assert (rcv_wnd (pcb (conn s)) ≤ w ≤ 2048) as Hgrow by lia.
  destruct (rcv_ok_window D R w (pcb (conn s)) Hr Hgrow HD) as (k & a & Eu & Hr').
  set (c1 := conn s <| pcb := pcb (conn s) <| rcv_wnd := w |> <| rcv_ann_wnd := a |> |>).
  assert (inv b (s <| conn := c1 |>)) as Hi1.
  { split; [by split; subst c1; get_set; try done; exists D, R|]. exists B, L, N. eapply holds_part; [exact Hs|]. reflexivity. }
  assert (wp (tcp_recved n) (λ _ c, inv (in_order (pcb c)) (s <| conn := c |>) ∧ (b = true → in_order (pcb c) = true)) (conn s)) as Hwp.
  { unfold tcp_recved. tcps. apply wp_assert; [by rewrite bool_decide_eq_true_2|]. cbv zeta. rewrite u16_small by lia. apply wp_bind.
    eapply (wp_mono _ (λ x c, x = w ∧ c = conn s)).
    { change TCP_WND with 2048. destruct (Z.gtb_spec (rcv_wnd (pcb (conn s)) + n) 2048); [tcps; split; [lia|done]|].
      destruct (Z.eqb_spec (rcv_wnd (pcb (conn s)) + n) 0); [lia|]. tcps. split; [lia|done]. }
    intros x c [-> ->]. unfold update_rcv_ann_wnd. tcps. eapply wp_lift; [exact Eu|]. tcps. cbn [fst snd].
    change (conn s <| pcb ::= _ |>) with c1. destruct (_ >=? _).
    2:{ tcps. destruct Hi1 as [Hb1 (B1 & L1 & N1 & Hs1)]. by eapply (inv_settled_conn b). }
    apply wp_bind, wp_on_pcb. set (s2 := s <| conn := c1 <| pcb ::= tcp_ack_now |> |>).
    assert (inv b s2) as Hi2 
      by (change s2 with (s <| conn := c1 |> <| conn := c1 <| pcb ::= tcp_ack_now |> |>); apply inv_same; try done; apply Htu).
    apply wp_bind. eapply wp_mono; [apply (inv_tcp_output b s2 Hi2)|]. intros e c Hc. tcps. exact Hc. }
  destruct Hwp as ([] & c & E & Hc & Ho). exists ERR_OK. eexists. cbn [handle]. rewrite E. by auto.
Qed.

(** ** Retransmission *)

(** Everything is unsent again; the free bytes behind the last segment do not
    count if it was sent. *)
Lemma sending_rexmit A B W L N p n :
  sending (S := Sout) true A B W L N p → all_fit (tcp_mss_local p) p →
  sending (S := Sout) true A A W L N (p <| unsent := unacked p ++ unsent p |> <| unacked := [] |> <| nrtx := n |> <| rttest := 0 |>).
Proof.
  intros [[? Q2 Q3 ? ? Q6 ? ? ?] ? ? Ho Hh] Hfit. pose proof (chain_le _ _ _ Q2). split; [split|..]; get_set; try done.
  - apply chain_app. by exists B.
  - intros Er. specialize (Q6 Er). change (tcp_mss_local (_ <| rttest := 0 |>)) with (tcp_mss_local p). unfold all_fit in Hfit.
    destruct (unsent p) as [|u l]; [|by apply has_room_app]. rewrite app_nil_r. cbn in Q6. rewrite Q6. unfold has_room.
    rewrite app_nil_r in Hfit. destruct (unacked p) as [|a m _] using rev_ind; [done|]. rewrite list_last_snoc.
    apply Forall_app in Hfit as [_ Hfit]. apply Forall_cons_iff in Hfit as [Hfit _]. unfold fits in Hfit. split_and!; lia.
  - len_lia.
Qed.

Lemma inv_rexmit_rto s : inv true s →
  wp tcp_rexmit_rto (λ _ c, inv (in_order (pcb c)) (s <| conn := c |>) ∧ (true = true → in_order (pcb c) = true)) (conn s).
Proof.
  intros [Hb (B & L & N & Hs)]. unfold tcp_rexmit_rto. tcps. case_bool_decide.
  { tcps. replace (s <| conn := conn s |>) with s by (by destruct s). by eapply (inv_settled true). }
  tcps. match goal with |- wp _ _ ?c => set (c1 := c) end. set (p := pcb (conn s)) in *.
  assert (∃ n, pcb c1 = p <| unsent := unacked p ++ unsent p |> <| unacked := [] |> <| nrtx := n |> <| rttest := 0 |> ∧ (0 ≤ nrtx p → 0 ≤ n))
    as (n & Ec & Hn).
  { subst c1. get_set. unfold rexmit_started. get_set. fold p. set (q := p <| unsent := unacked p ++ unsent p |> <| unacked := [] |>).
    assert (q <| nrtx ::= λ n, n + 1 |> = q <| nrtx := nrtx q + 1 |> ∧ q = q <| nrtx := nrtx q |>) as [E1 E2] by (split; [reflexivity|by destruct q]).
    assert (nrtx q = nrtx p) as Eq by (subst q; by get_set).
    destruct (Z.ltb_spec (nrtx p) 255); [exists (nrtx q + 1)|exists (nrtx q)]; (split; [|lia]).
    - exact (f_equal (set_field rttest (λ _, 0)) E1).
    - exact (f_equal (set_field rttest (λ _, 0)) E2). }
  assert (inv true (s <| conn := c1 |>)) as Hi1.
  { destruct (ba_tuned _ Hb) as [Hm (Hcw & Hss & Hnr & Hms)]. specialize (Hn Hnr). pose proof (ba_fit _ Hb) as Hft. fold p in Hft. split.
    - apply (base_changed s c1 (written s)); rewrite ?Ec; try done.
    - eexists _, L, N. get_set. rewrite Ec. by apply (sending_rexmit _ B). }
  eapply wp_mono; [apply (inv_tcp_output true (s <| conn := c1 |>) Hi1)|]. intros e c Hc. tcps. exact Hc.
Qed.

Lemma back_off_ok p : state p ≠ SYN_SENT → 0 ≤ nrtx p → ∃ n, back_off p = Ok (p <| rto := n |>).
Proof.
  intros Hst Hn. unfold back_off. rewrite bool_decide_eq_false_2 by done. change (zlen tcp_backoff - 1) with 12.
  assert (is_Some (tcp_backoff !! Z.to_nat (nrtx p `min` 12))) as [x Hx].
  { apply lookup_lt_is_Some_2. change (length tcp_backoff) with 13%nat. lia. }
  exists (s16 (Z.shiftl (Z.shiftr (sa p) 3 + sv p) x)). unfold arr_get. destruct (Z.ltb_spec (nrtx p `min` 12) 0); [lia|]. by rewrite Hx.
Qed.

Lemma inv_retransmit s : inv true s → handled true Retransmit s.
Proof.
  intros Hi. assert (wp retransmission_timer (λ _ c, inv (in_order (pcb c)) (s <| conn := c |>) ∧ (true = true → in_order (pcb c) = true)) (conn s)) as Hwp.
  2:{ destruct Hwp as ([] & c & E & Hc & Ho). exists ERR_OK. eexists. cbn [handle]. rewrite E. by auto. }
  unfold retransmission_timer. tcps. match goal with |- wp _ _ ?c => set (c1 := c) end.
  assert (inv true (s <| conn := c1 |>)) as Hi1.
  { apply inv_same; subst c1; get_set; try done; try (by case_match). pose proof (ba_tuned _ (iv_base _ _ Hi)) as [_ ?]. by case_match. }
  change (if rtime (pcb (conn s)) >=? 0 then _ else _) with (pcb c1). clearbody c1.
  destruct (_ && _). 2:{ tcps. destruct Hi1 as [Hb1 (B & L & N & Hs)]. by eapply (inv_settled_conn true). }
  destruct (ba_tuned _ (iv_base _ _ Hi1)) as [_ (Hc & Hss & Hn & Hm)]. destruct (not_listening _ (ba_state _ (iv_base _ _ Hi1))) as [_ Hsy].
  get_set_in Hm. get_set_in Hc. get_set_in Hss. get_set_in Hn. get_set_in Hsy. change TCP_MSS with 512 in *.
  destruct (back_off_ok (pcb c1) Hsy Hn) as [n E]. apply wp_bind. eapply wp_lift; [exact E|]. cbv beta. apply wp_bind, wp_on_pcb.
  set (c2 := c1 <| pcb ::= λ _, collapse_window (pcb c1 <| rto := n |>) |>).
  assert (inv true (s <| conn := c2 |>)) as Hi2.
  2:{ pose proof (inv_rexmit_rto (s <| conn := c2 |>) Hi2) as Hwp. get_set_in Hwp. exact Hwp. }
  change (s <| conn := c2 |>) with (s <| conn := c1 |> <| conn := c2 |>).
  apply inv_same; subst c2; get_set; unfold collapse_window; get_set; try done. rewrite (Z.shiftl_mul_pow2 _ 1), Z.shiftr_div_pow2 by lia.
  assert (Z.min (cwnd (pcb c1)) (snd_wnd (pcb c1)) / 2 ^ 1 < 32768) by (apply Z.div_lt_upper_bound; lia).
  unfold tune_ok. get_set. rewrite u16_small by lia. change TCP_MSS with 512.
  destruct (Z.ltb_spec (Z.min (cwnd (pcb c1)) (snd_wnd (pcb c1)) / 2 ^ 1) (mss (pcb c1) * 2 ^ 1)); lia.
Qed.

(** ** A segment *)

(** The lag of the announced edge, read off the numbers. *)
Lemma rcv_ok_lag D R p :
  rcv_ok (S := Sin) (F := F) D R p → D ≤ 1000000000 → - 900000000 ≤ s32 (rcv_ann_right_edge p - rcv_nxt p) →
  rcv_ok (S := Sin) (F := F) 900000000 R p.
Proof.
  intros [HR Hw Ha (E & HE & HER) HD Hm Hq] HDm Hlag. change TCP_WND with 2048 in *. split; try (done || lia). exists E. split; [done|].
  rewrite HE, HR, (s32_at (u32 E - u32 R) (E - R)) in Hlag by lia. lia.
Qed.

(** The queues after the acknowledgement of [c1], which gave [A' - A] bytes
    back. *)
Definition sender_after (A W N : Z) (c1 c : tcp) : Prop :=
  ∃ b A' B L, A ≤ A' ∧ holds b A' B W L N (pcb c) ∧ recv_acked c = A' - A ∧ (b = true ∨ third_dup (ackno c1) (pcb c1)).

Lemma sender_after_part A W N c1 c c' :
  sender_after A W N c1 c → snd_part (pcb c') = snd_part (pcb c) → recv_acked c' = recv_acked c → sender_after A W N c1 c'.
Proof. intros (b & A' & B & L & ? & Hs & ? & ?) E Ea. exists b, A', B, L. rewrite Ea. split_and!; try done. by eapply holds_part. Qed.

(** The state after the acknowledgement of a segment. *)
Definition acknowledged (A W N D R : Z) (c1 c2 : tcp) : Prop :=
  sender_after A W N c1 c2 ∧ mss_ok (pcb c2) ∧ beside (S := Sout) (Sin := Sin) (F := F) D R N W c1 c2.

Lemma ack_part_ok A B W L N D R c :
  sending (S := Sout) true A B W L N (pcb c) → mss_ok (pcb c) → tune_ok (pcb c) → rcv_ok (S := Sin) (F := F) D R (pcb c) →
  recv_acked c = 0 → 0 ≤ ackno c < 4294967296 → - 2147400000 ≤ s32 (ackno c - lastack (pcb c)) ≤ 2147400000 →
  wp (if has (flags c) TCP_ACK then receive_ack else mret ()) (λ _ c2, acknowledged A W N D R c c2) c.
Proof.
  intros Hs Hm Ht Hr Ha Hack Hnear. pose proof (se_order _ _ _ _ _ _ _ Hs) as Ho. pose proof (se_lastack _ _ _ _ _ _ _ Hs) as Hla.
  assert (beside (S := Sout) (Sin := Sin) (F := F) D R N W c c) as Hb.
  { split; try done; [apply (se_nxt _ _ _ _ _ _ _ Hs)|by apply sends_nil]. }
  destruct (has _ _); [|apply wp_ret; split; [|done]; exists true, A, B, L; split_and!; (done || lia || by left)].
  set (K := L + s32 (ackno c - lastack (pcb c))).
  assert (ackno c = u32 K) as EK.
  { subst K. rewrite Hla, (at_u32_eq (L + s32 (ackno c - u32 L)) (L + (ackno c - L))). replace (L + (ackno c - L)) with (ackno c) by lia.
    symmetry. by apply u32_small. }
  assert (acks K L c) as Hacks by (split; [done|lia|done|]; destruct Ht as (? & ? & _); lia).
  eapply wp_mono.
  { apply wp_wlp; [by apply (receive_ack_ok true A B W L N K c Hs Hm Hacks)|].
    apply (receive_ack_beside (S := Sout) (Sin := Sin) (F := F) D R N W c c); [lia|done]. }
  intros [] c2 [[(A' & B' & HA & HB & Hs2 & Hm2 & Ha2)|([_ Hdup] & Hs2 & Hm2 & Ha2)] Hb2]; (split; [|done]).
  - exists true, A', B'. eexists. split_and!; try done. by left.
  - exists false, A, B, L. split_and!; (done || lia || by right).
Qed.

(** The state after the data: the stream was delivered up to [R'], with the FIN
    if [f]. *)
Record received_data (A W N R : Z) (c1 c2 : tcp) : Prop := {
  rd_sender : sender_after A W N c1 c2;
  rd_fit : all_fit (tcp_mss_local (pcb c1)) (pcb c1) → all_fit (tcp_mss_local (pcb c2)) (pcb c2);
  rd_tuned : mss_ok (pcb c2) ∧ tune_ok (pcb c2);
  rd_sent : sends (carries (S := Sout) W) c1 c2;
  rd_data : ∃ D' R' f, rcv_ok (S := Sin) (F := F) D' R' (pcb c2) ∧ D' ≤ 1000000000 ∧ R + bit f ≤ R' ∧
    data_of (recv_data c2) = span Sin R (R' - R - bit f) ∧ recv_flags c2 = (if f then TF_GOT_FIN else 0) ∧
    (state (pcb c2) = state (pcb c1) ∨ state (pcb c2) = CLOSE_WAIT) ∧ (state (pcb c1) = CLOSE_WAIT → R' = R ∧ f = false) }.

Lemma beside_fit D R N W c1 c2 :
  beside (S := Sout) (Sin := Sin) (F := F) D R N W c1 c2 → mss_ok (pcb c1) → all_fit (tcp_mss_local (pcb c1)) (pcb c1) →
  all_fit (tcp_mss_local (pcb c2)) (pcb c2).
Proof.
  intros [_ _ _ _ _ [Em Hmax] Hfit _ _] [Hm Hw] Hf. specialize (Hfit _ Hf). unfold all_fit in *. eapply Forall_impl; [|exact Hfit].
  intros c. unfold fits, tcp_mss_local. rewrite Em. pose proof (Z.div_le_mono 2 (snd_wnd_max (pcb c1)) 2 ltac:(lia) Hw).
  pose proof (Z.div_le_mono (snd_wnd_max (pcb c1)) (snd_wnd_max (pcb c2)) 2 ltac:(lia) Hmax). change (2 / 2) with 1 in *.
  destruct (Z.eqb_spec (mss (pcb c1) `min` (snd_wnd_max (pcb c1) / 2)) 0), (Z.eqb_spec (mss (pcb c1) `min` (snd_wnd_max (pcb c2) / 2)) 0); lia.
Qed.

Lemma no_data_ok A W N D R c1 c2 k :
  acknowledged A W N D R c1 c2 → mss_ok (pcb c1) → D ≤ 1000000000 → recv_data c1 = None → recv_flags c1 = 0 →
  received_data A W N R c1 (c2 <| pcb ::= λ p, p <| pcb_flags := k |> |>).
Proof.
  intros (Hs & Hm & Hb) Hm1 HD Hrd Hrf. pose proof (beside_fit _ _ _ _ _ _ Hb Hm1) as Hfit. destruct Hb as [Hr Ht Hn Hst Hw _ _ Hse Hin].
  injection Hin as E1 E2 E3 E4 E5 E6 E7 E8.
  split; [by eapply sender_after_part|exact Hfit|done|done|]. exists D, R, false. get_set. rewrite E4, E5, Hrd, Hrf. split_and!; try (done || (cbn; lia)).
  - by destruct Hr.
  - cbn. rewrite span_nil by lia. done.
  - by left.
Qed.

(** Data does not change the sender. *)
Lemma rx_snd_part s s' : rx_all s' = rx_all s → snd_part (pcb s') = snd_part (pcb s).
Proof. intros Hv. exact (f_equal (λ t, snd_part (pcb t)) Hv). Qed.

Lemma data_part_ok A W N D R c1 c2 a :
  acknowledged A W N D R c1 c2 → mss_ok (pcb c1) → D ≤ 900000000 → N ≤ W → arrived (S := Sin) (F := F) D R a c2 → recv_flags c1 = 0 →
  state (pcb c1) ≠ CLOSE_WAIT → wp receive_data (λ _ c3, received_data A W N R c1 c3) c2.
Proof.
  intros (Hs & Hm & Hb) Hm1 HD HN Harr Hrf Hncw. pose proof (beside_fit _ _ _ _ _ _ Hb Hm1) as Hfit. destruct Hb as [Hr Ht Hn Hst Hw _ _ Hse Hin].
  injection Hin as E1 E2 E3 E4 E5 E6 E7 E8. pose proof (ro_wnd _ _ _ Hr) as Hwr. change TCP_WND with 2048 in *.
  eapply wp_mono.
  { apply wp_wlp; [by apply (receive_data_ok c2 D R a Hr Harr)|]. apply (receive_data_kept _ (quiet_closed (S := Sout) N W c1 HN)). done. }
  intros [] c3 [(R' & f & [Hle Hnx Hwn Hann Hd Hf Hfl Hst' Hfr] & Hr' & _) [Hse3 _]]. pose proof (rx_snd_part _ _ Hfr) as Ep. split.
  - eapply sender_after_part; [exact Hs|exact Ep|]. exact (f_equal recv_acked Hfr).
  - intros Hf1. eapply fit_part; [by apply Hfit|exact Ep].
  - destruct (tune_ok_rx c2 c3 Ht Hm Hfr). done.
  - done.
  - exists (D + (R' - R)), R', f. split; [done|]. split; [lia|]. split; [done|]. rewrite Hd, Hfl, E4, Hrf.
    destruct Harr as [_ _ _ _ _ _ _ _ Hnone]. rewrite Hnone. split; [done|]. split; [by destruct f|].
    rewrite <- Hst. split; [|by rewrite Hst]. destruct Hst' as [?|[? _]]; auto.
Qed.

(** The segment is where [tcp_in.c] keeps it. *)
Definition holds_segment (seg : tcp_seg) (c : tcp) : Prop :=
  ackno c = h_ackno (seg_hdr seg) ∧ recv_acked c = 0 ∧ recv_data c = None ∧ recv_flags c = 0 ∧ inseg c = seg ∧
  seqno c = seqno_of seg ∧ tcplen c = TCP_TCPLEN seg.

Lemma receive_part_ok s seg B L N D R c1 :
  sending (S := Sout) true (W0 + told s) B (written s) L N (pcb (conn s)) → mss_ok (pcb c1) → tune_ok (pcb c1) →
  rcv_ok (S := Sin) (F := F) D R (pcb (conn s)) → D ≤ 1000000000 →
  state (pcb (conn s)) = ESTABLISHED ∨ state (pcb (conn s)) = CLOSE_WAIT →
  (state (pcb (conn s)) = ESTABLISHED → R = position s) → peer_segment seg s →
  rcv_part (pcb c1) = rcv_part (pcb (conn s)) → snd_part (pcb c1) = snd_part (pcb (conn s)) →
  holds_segment seg c1 → wp tcp_receive (λ _, received_data (W0 + told s) (written s) N R c1) c1.
Proof.
  intros Hs Hm Ht Hr HDm Hst HR [_ Hack Hnear Hdata Hlag] Ep Esp
    (Ek & Era & Erd & Erf & Ein & Esq & Etl). pose proof (rcv_ok_lag _ _ _ Hr HDm Hlag) as Hr9.
  apply (sending_part _ _ _ _ _ _ _ (pcb c1)) in Hs; [|done]. apply (rcv_ok_part _ _ _ (pcb c1)) in Hr, Hr9; [|done..].
  injection Ep as Ep1 Ep2 Ep3 Ep4 Ep5 Ep6 Ep7 Est. assert (lastack (pcb c1) = lastack (pcb (conn s))) as Ela by (by injection Esp).
  rewrite <- Est in *. rewrite <- Ela in *. rewrite <- Ep2 in *.
  unfold tcp_receive. tcps. apply wp_assert; [by destruct Hst as [-> | ->]|]. apply wp_bind. rewrite <- Ek in Hack, Hnear.
  assert (N ≤ written s) as HN by (pose proof (se_order _ _ _ _ _ _ _ Hs); lia).
  eapply wp_mono; [apply (ack_part_ok (W0 + told s) B (written s) L N 900000000 R c1); done|].
  intros [] c2 Hacked. pose proof Hacked as (_ & _ & [Hr2 _ _ Hst2 Hw2 _ _ _ Hin]). injection Hin as E1 E2 E3 E4 E5 E6 E7 E8. tcps.
  assert (∀ k, received_data (W0 + told s) (written s) N R c1 (c2 <| pcb ::= λ p, p <| pcb_flags := k |> |>)) as Hnone.
  { intros k. apply (no_data_ok _ _ _ 900000000 _ c1 c2); (done || lia). }
  rewrite Hst2, E2, Etl. destruct ((_ >? 0) && _) eqn:Ed.
  - apply andb_prop in Ed as [Epos Elt]. assert (state (pcb c1) = ESTABLISHED) as Hest.
    { destruct Hst as [?|Hcw]; [done|]. by rewrite Hcw in Elt. }
    destruct (Hdata ltac:(lia) Hest) as (a & Ha & Hend & Hna & Hov). specialize (HR Hest). subst R.
    apply (data_part_ok _ _ _ 900000000 _ c1 c2 a); try (done || lia); [|by rewrite Hest].
    split; rewrite ?E1, ?E2, ?E5, ?E6, ?Hw2, ?Ein, ?Esq, ?Etl; try (done || (cbn; lia)). apply (sa_seqno _ _ _ _ Ha).
  - destruct (negb _).
    + apply wp_on_pcb. exact (Hnone (pcb_flags (tcp_ack_now (pcb c2)))).
    + apply wp_ret. specialize (Hnone (pcb_flags (pcb c2))). by replace (c2 <| pcb ::= _ |>) with c2 in Hnone by (by destruct c2 as [[]]).
Qed.

(** [tcp_process] of the segment, in the states of an open connection. *)
Definition touched (c : tcp) : tcp :=
  c <| pcb ::= λ p, (if has (pcb_flags p) TF_RXCLOSED then p else p <| tmr := tcp_ticks c |>) <| keep_cnt_sent := 0 |> |>.

Lemma process_open seg c :
  state (pcb c) = ESTABLISHED ∨ state (pcb c) = CLOSE_WAIT →
  has (TCPH_FLAGS (seg_hdr seg)) TCP_RST = false ∧ has (TCPH_FLAGS (seg_hdr seg)) TCP_SYN = false →
  tcp_process app_err app_connected app_accept (arrived_at seg c) =
    (process_state;; mret ERR_OK) (touched (arrived_at seg c)).
Proof.
  intros Hst [Hr Hs]. set (c0 := arrived_at seg c). assert (flags c0 = TCPH_FLAGS (seg_hdr seg) ∧ tcphdr_optlen (touched c0) = 0) as [Ef Eo] by done.
  unfold tcp_process. do 3 (erewrite bind_of_ok by done). rewrite Ef, Hr, Hs. cbn [andb].
  rewrite (bind_of_ok (on_pcb _) _ _ () (touched c0)) by done. unfold tcp_parseopt.
  rewrite (bind_of_ok _ _ _ () (touched c0)) by (rewrite (bind_of_ok _ _ _ 0 (touched c0)) by done; done).
  change (state (pcb c0)) with (state (pcb c)). by destruct Hst as [-> | ->].
Qed.

Lemma touched_pcb seg c : ∃ t, pcb (touched (arrived_at seg c)) = pcb c <| tmr := t |> <| keep_cnt_sent := 0 |>.
Proof.
  change (pcb (touched (arrived_at seg c))) with ((if has (pcb_flags (pcb c)) TF_RXCLOSED then pcb c else pcb c <| tmr := tcp_ticks c |>) <| keep_cnt_sent := 0 |>).
  destruct (has _ _); [exists (tmr (pcb c))|by eexists]. by destruct (pcb c).
Qed.

Lemma touched_same seg c (Hm : mss_ok (pcb c) ∧ tune_ok (pcb c)) :
  let c1 := touched (arrived_at seg c) in
  rcv_part (pcb c1) = rcv_part (pcb c) ∧ snd_part (pcb c1) = snd_part (pcb c) ∧ mss_ok (pcb c1) ∧ tune_ok (pcb c1) ∧
  sent c1 = sent c ∧ dupacks (pcb c1) = dupacks (pcb c) ∧ holds_segment seg c1.
Proof.
  destruct (touched_pcb seg c) as [t E]. cbv zeta. rewrite E. split; [done|]. split; [done|]. split; [apply Hm|]. split; [apply Hm|].
  split; [done|]. split; [done|]. by split_and!.
Qed.

Lemma process_state_open c :
  state (pcb c) = ESTABLISHED ∨ state (pcb c) = CLOSE_WAIT → process_state c = (tcp_receive;; passive_close) c.
Proof. intros Hst. unfold process_state. rewrite (bind_of_ok _ _ _ (pcb c) c) by done. by destruct Hst as [-> | ->]. Qed.

Lemma inv_received b A' B' L' N D' R R' f k s c2 :
  (state (pcb (conn s)) = ESTABLISHED → R = position s) → state (pcb (conn s)) = ESTABLISHED ∨ state (pcb (conn s)) = CLOSE_WAIT →
  read s = span Sin R0 (zlen (read s)) → Forall (carries (S := Sout) (written s)) (sent c2) →
  all_fit (tcp_mss_local (pcb c2)) (pcb c2) → mss_ok (pcb c2) ∧ tune_ok (pcb c2) →
  rcv_ok (S := Sin) (F := F) D' R' (pcb c2) → D' ≤ 1000000000 → R + bit f ≤ R' →
  data_of (recv_data c2) = span Sin R (R' - R - bit f) →
  state (pcb c2) = state (pcb (conn s)) ∨ state (pcb c2) = CLOSE_WAIT → (state (pcb (conn s)) = CLOSE_WAIT → R' = R ∧ f = false) →
  holds b A' B' (written s) L' N (pcb c2) → recv_acked c2 = A' - (W0 + told s) →
  inv b (processed (c2 <| pcb ::= λ p, p <| pcb_flags := k |> <| state := if f then CLOSE_WAIT else state (pcb c2) |> |>) s).
Proof.
  intros HR Hst Hrd Hse Hft Htu Hr2 HD2 Hle Hdat Hst2 Hcw Hs2 Ha2.
  assert (read s ++ data_of (recv_data c2) = span Sin R0 (zlen (read s ++ data_of (recv_data c2)))) as Hread.
  { destruct (decide (state (pcb (conn s)) = ESTABLISHED)) as [Hest|Hne].
    - rewrite (HR Hest) in *. unfold position in *. pose proof (bit_range f).
      assert (zlen (data_of (recv_data c2)) = R' - (R0 + zlen (read s)) - bit f) as El by (rewrite Hdat; apply span_length; lia).
      assert (zlen (read s ++ data_of (recv_data c2)) = zlen (read s) + (R' - (R0 + zlen (read s)) - bit f)) as -> by (rewrite <- El; len_lia).
      rewrite span_app, <- Hrd by len_lia. by rewrite Hdat.
    - destruct Hst as [|Hcl]; [done|]. destruct (Hcw Hcl) as [-> ->]. rewrite Hdat, span_nil, app_nil_r by (cbn; lia). done. }
  unfold processed. split; [split|]; get_set.
  - done.
  - done.
  - exists D', R'. split; [by destruct Hr2|]. split; [done|]. intros Hest. destruct f; [done|]. unfold position. get_set.
    destruct Hst2 as [Hst2|Hst2]; rewrite Hst2 in Hest; [|done]. rewrite (HR Hest) in *. unfold position in *.
    assert (zlen (data_of (recv_data c2)) = R' - (R0 + zlen (read s)) - 0) as El by (rewrite Hdat; apply span_length; cbn in *; lia). len_lia.
  - destruct f; [by right|]. destruct Hst2 as [->|Hst2]; auto.
  - done.
  - done.
  - exists B', L', N. rewrite Ha2. replace (W0 + (told s + (A' - (W0 + told s)))) with A' by lia. by eapply holds_part.
Qed.

(** [tcp_receive] and what follows it in an open connection. *)
Lemma inv_open seg s c1 :
  inv true s → peer_segment seg s → mss_ok (pcb c1) → tune_ok (pcb c1) → rcv_part (pcb c1) = rcv_part (pcb (conn s)) →
  snd_part (pcb c1) = snd_part (pcb (conn s)) → sent c1 = sent (conn s) → dupacks (pcb c1) = dupacks (pcb (conn s)) → holds_segment seg c1 →
  wp (tcp_receive;; passive_close) (λ _ c, ∃ b, inv b (processed c s) ∧ (b = true ∨ third_duplicate (Segment seg) s)) c1.
Proof.
  intros [[Hft [Hm Ht] (D & R & Hr & HD & HR) Hst Hrd Hse] (B & L & N & Hs)] Hseg Hm1 Ht1 Erp Esp Ese Edu Hsg. cbn [holds] in Hs.
  assert (state (pcb c1) = state (pcb (conn s))) as Est by (by injection Erp).
  apply wp_bind. eapply wp_mono; [by apply (receive_part_ok s seg B L N D R c1)|].
  intros [] c2 [(b & A' & B' & L' & HA & Hs2 & Ha2 & Hb2) Hf2 Htu2 (l & El & Hl) (D' & R' & f & Hr2 & HD2 & Hle & Hdat & Hfl & Hst2 & Hcw)].
  apply (wp_mono _ (λ _ c3, ∃ k, c3 = c2 <| pcb ::= λ p, p <| pcb_flags := k |> <| state := if f then CLOSE_WAIT else state (pcb c2) |> |>)).
  { unfold passive_close. tcps. assert (has (recv_flags c2) TF_GOT_FIN = f) as -> by (rewrite Hfl; by destruct f). destruct f.
    - apply wp_on_pcb. by exists (pcb_flags (tcp_ack_now (pcb c2))).
    - apply wp_ret. exists (pcb_flags (pcb c2)). by destruct c2 as [[]]. }
  intros [] c3 [k ->]. rewrite Est in *. exists b. split.
  - apply (inv_received b A' B' L' N D' R R' f k s c2); try done; [rewrite El, Ese; by apply Forall_app|]. apply Hf2. by eapply fit_part.
  - destruct Hb2 as [?|[Hd Hla]]; [by left|]. right. exists seg. split; [done|]. pose proof Hsg as [Ek _]. rewrite Ek in Hla.
    assert (lastack (pcb c1) = lastack (pcb (conn s))) as Ela by (by injection Esp). split; [by rewrite <- Edu|by rewrite <- Ela].
Qed.

Lemma inv_processed seg s :
  inv true s → peer_segment seg s → ∃ c b, tcp_process app_err app_connected app_accept (arrived_at seg (conn s)) = Ok (ERR_OK, c) ∧
    inv b (processed c s) ∧ (b = true ∨ third_duplicate (Segment seg) s).
Proof.
  intros Hi Hseg. pose proof (ba_state _ (iv_base _ _ Hi)) as Hst.
  destruct (touched_same seg (conn s) (ba_tuned _ (iv_base _ _ Hi))) as (Erp & Esp & Hm1 & Ht1 & Ese & Edu & Hsg).
  destruct (inv_open seg s _ Hi Hseg Hm1 Ht1 Erp Esp Ese Edu Hsg) as ([] & c & E & b & Hb). exists c, b. split; [|done].
  rewrite process_open by (done || apply Hseg). rewrite (bind_of_ok _ _ _ () c); [done|]. rewrite process_state_open; [exact E|].
  assert (state (pcb (touched (arrived_at seg (conn s)))) = state (pcb (conn s))) as -> by (by injection Erp). done.
Qed.

(** What follows, for the session [s1] after [tcp_process]. *)
Lemma inv_told b (told_something : bool) (P : Prop) s1 :
  inv b s1 → b = true ∨ P → ∃ e s', (if told_something then Ok (ERR_OK, s1) else input_done s1) = Ok (e, s') ∧
    inv (in_order (pcb (conn s'))) s' ∧ (¬ P → in_order (pcb (conn s')) = true).
Proof.
  intros Hi Hb. assert (∃ e s', (if told_something then Ok (ERR_OK, s1) else input_done s1) = Ok (e, s') ∧ inv (in_order (pcb (conn s'))) s' ∧
    (b = true → in_order (pcb (conn s')) = true)) as (e & s' & E & Hi' & Ho).
  { destruct told_something; [|by apply inv_input_done]. exists ERR_OK, s1. split; [done|]. destruct Hi as [Hba (B & L & N & Hs)].
    by apply (inv_settled b (W0 + told s1) B (written s1) L N). }
  exists e, s'. split; [done|]. split; [done|]. intros Hn. apply Ho. by destruct Hb.
Qed.

Lemma inv_segment seg s : inv true s → peer_segment seg s → handled true (Segment seg) s.
Proof.
  intros Hi Hseg. destruct (inv_processed seg s Hi Hseg) as (c & b & E & Hb & Hd).
  destruct (inv_told b (negb (nothing_told c)) _ _ Hb Hd) as (e & s' & E' & Hi' & Ho).
  exists e, s'. cbn [handle]. rewrite E. split; [|auto]. rewrite <- E'. cbn [mbind result_bind fst snd]. by destruct (nothing_told c).
Qed.

(** ** The session *)

Lemma handled_ok b ev s : inv b s → allowed b ev s → handled b ev s.
Proof.
  intros Hi Ha. destruct ev as [arg n apiflags| |seg| |n|]; cbn [allowed] in Ha.
  - destruct Ha as [-> Hn]. by apply inv_write.
  - by eapply inv_output.
  - destruct Ha as [-> Hn]. by apply inv_segment.
  - by eapply inv_return.
  - destruct Ha. by eapply inv_recved.
  - subst b. by apply inv_retransmit.
Qed.

Lemma reach_inv b s : reach b s → inv b s.
Proof.
  induction 1 as [s Ho|b ev s e s' Hr Hi Ha E]; [by apply inv_opened|].
  destruct (handled_ok b ev s Hi Ha) as (e1 & s1 & E1 & Hi1 & _). rewrite E in E1. by injection E1 as <- <-.
Qed.

Lemma reach_in_order b s : reach b s → in_order (pcb (conn s)) = b.
Proof.
  intros Hr. destruct Hr as [s Ho|]; [|done]. destruct (inv_opened s Ho) as [_ (B & L & N & Hs)]. by eapply sending_in_order.
Qed.

Definition next (ev : event) (s : session) : session := match handle ev s with Ok (_, s') => s' | Fail _ => s end.

Lemma reach_next b b' ev s : reach b s → allowed b ev s → in_order (pcb (conn (next ev s))) = b' → reach b' (next ev s).
Proof.
  intros Hr Ha <-. destruct (handled_ok b ev s (reach_inv b s Hr) Ha) as (e & s' & E & _). unfold next. rewrite E.
  by apply (reach_event b ev s e).
Qed.

(** (C3) What application, peer and timer do within [allowed] is handled without
    a fault: no assertion fails, no byte outside an object is read or written,
    nothing is divided by zero, and no loop runs out of turns.  The events are
    those of a connection whose peer has once offered a window of two bytes or
    more; the segments carry no options, SYN or RST, their data is a piece of the
    stream within the window; the third duplicate acknowledgement is one of
    them, and only after it a segment may be left to be sent again before
    others ([b = false]): then [tcp_write], further segments and the timer are
    not covered until [tcp_output] has sent it. *)
Theorem session_never_faults b ev s :
  reach b s → allowed b ev s →
  ∃ e s', handle ev s = Ok (e, s') ∧ (b = true → ¬ third_duplicate ev s → in_order (pcb (conn s')) = true).
Proof.
  intros Hr Ha. destruct (handled_ok b ev s (reach_inv b s Hr) Ha) as (e & s' & E & _ & Ho). by exists e, s'.
Qed.

(** (C4) In the runs within [allowed] every packet carries a piece of what was
    written; what the application was given is a prefix of the stream of the
    peer; the bytes it was told of are not beyond those the peer has
    acknowledged, and those not beyond those sent. *)
Theorem session_streams b s :
  reach b s →
  Forall (λ pk, ∃ a, h_seqno (pk_hdr pk) = u32 a ∧ pk_data pk = span Sout a (zlen (pk_data pk)) ∧
    a + zlen (pk_data pk) ≤ written s) (sent (conn s)) ∧
  read s = span Sin R0 (zlen (read s)) ∧
  ∃ L N, lastack (pcb (conn s)) = u32 L ∧ snd_nxt (pcb (conn s)) = u32 N ∧ W0 + told s ≤ L ≤ N ∧ N ≤ written s.
Proof.
  intros Hr. destruct (reach_inv b s Hr) as [[_ _ _ _ Hrd Hse] (B & L & N & Hs)]. split; [exact Hse|]. split; [done|].
  exists L, N. destruct (holds_nums _ _ _ _ _ _ _ Hs). pose proof (holds_order _ _ _ _ _ _ _ Hs). split_and!; (done || lia).
Qed.

(** ** Well-formed connections *)

(** Where the segments end if each begins where the one before it ended. *)
Fixpoint follow (n : Z) (l : list tcp_seg) : option Z :=
  match l with
  | [] => Some n
  | c :: l => if (seqno_of c =? n) && (TCP_TCPLEN c >? 0) then follow (u32 (n + TCP_TCPLEN c)) l else None
  end.

Definition total (l : list tcp_seg) : Z := foldr (λ c n, TCP_TCPLEN c + n) 0 l.

Record well_formed (p : tcp_pcb) : Prop := {
  wf_numbers : Forall (λ n, 0 ≤ n < 4294967296) [rcv_nxt p; rcv_ann_right_edge p; snd_nxt p; lastack p; snd_lbb p];
  wf_follow : ∃ n, follow n (stream_queue p) = Some (snd_lbb p);
  wf_queuelen : snd_queuelen p = clens (unacked p ++ unsent p) ∧ 0 ≤ snd_queuelen p ≤ TCP_SND_QUEUELEN;
  wf_buf : snd_buf p = TCP_SND_BUF - total (unacked p ++ unsent p) ∧ 0 ≤ snd_buf p ≤ TCP_SND_BUF;
  wf_windows : 0 ≤ rcv_ann_wnd p ≤ rcv_wnd p ∧ rcv_wnd p ≤ TCP_WND;
  wf_mss : 0 < mss p ≤ TCP_MSS;
  wf_timers : 0 < cwnd p < 65536 ∧ 0 < ssthresh p < 65536 ∧ 0 ≤ nrtx p }.

Lemma chain_follow a b l : chain (S := Sout) (F := None) a b l → follow (u32 a) l = Some (u32 b) ∧ total l = b - a.
Proof.
  revert a. induction l as [|c l IH]; intros a; cbn [chain follow total foldr]; [intros ->; split; [done|lia]|].
  intros (Hc & [Hpos _] & Hl). destruct (IH _ Hl) as [Ef Et]. rewrite (sa_seqno _ _ _ _ Hc), Z.eqb_refl.
  destruct (Z.gtb_spec (TCP_TCPLEN c) 0); [|lia]. cbn [andb]. split; [|fold (total l); lia].
  by rewrite (at_u32_eq (u32 a + TCP_TCPLEN c) (a + TCP_TCPLEN c)).
Qed.

Lemma seg_total_app l1 l2 : total (l1 ++ l2) = total l1 + total l2.
Proof. unfold total. induction l1 as [|c l1 IH]; [done|]. cbn. lia. Qed.

(** The queue in the order of its numbers. *)
Lemma holds_queue A B W L N s :
  holds (in_order (pcb s)) A B W L N (pcb s) → let p := pcb s in
  chain (S := Sout) (F := None) A W (stream_queue p) ∧ total (unacked p ++ unsent p) = total (stream_queue p) ∧
  snd_queuelen p = clens (unacked p ++ unsent p) ∧ snd_queuelen p ≤ TCP_SND_QUEUELEN ∧ snd_buf p = TCP_SND_BUF - (W - A) ∧
  W - A ≤ TCP_SND_BUF ∧ snd_lbb p = u32 W.
Proof.
  unfold stream_queue. cbv zeta. destruct (in_order (pcb s)); cbn [holds].
  - intros [[Hlb Hua Hus Hql Hlim _ Hb Hsp _] _ _ _ _]. split; [apply chain_app; by exists B|]. done.
  - intros (c & u & Eu & [[Hlb Hua Hus Hql Hlim _ Hb Hsp _] _ _ _ _]). unfold put_back in *. get_set_in Hua. get_set_in Hus. get_set_in Hql.
    get_set_in Hlim. get_set_in Hb. get_set_in Hlb. rewrite Eu. split; [apply (chain_app A W (c :: unacked (pcb s)) u); by exists B|].
    split; [rewrite (seg_total_app _ (c :: u)); cbn [total foldr]; fold (total u); fold (total (unacked (pcb s) ++ u)); rewrite seg_total_app; lia|].
    split; [rewrite Hql, !clens_app; cbn [clens]; lia|]. done.
Qed.

(** (C7) In every connection that application, peer and timer can reach within
    [allowed] the fields fit the types of [struct tcp_pcb] and each other: the
    sequence numbers are 32 bits wide, each queued segment begins where the one
    before it ended and the last one ends at [snd_lbb] (in the order of
    [stream_queue]: after a fast retransmission the first unsent segment may lie
    before those that were sent), [snd_queuelen] counts the buffers of the
    queues and [snd_buf] the bytes they leave free, the announced window is
    within the window and that within [TCP_WND], and the congestion window and
    its threshold are never zero. *)
Theorem session_well_formed b s : reach b s → well_formed (pcb (conn s)).
Proof.
  intros Hr. pose proof (reach_in_order b s Hr) as Ho. destruct (reach_inv b s Hr) as [[_ [Hm Ht] (D & R & Hrx & _) _ _ _] (B & L & N & Hs)].
  rewrite <- Ho in Hs. destruct (holds_queue _ _ _ _ _ _ Hs) as (Hc & Etot & Hql & Hlim & Hb & Hsp & Hlb).
  destruct (holds_nums _ _ _ _ _ _ _ Hs) as [Hla Hnx]. destruct Hrx as [HR Hw Ha (E & HE & _) _ _ _].
  destruct (chain_follow _ _ _ Hc) as [Ef Et]. pose proof (chain_le _ _ _ Hc) as Hle. split; try done.
  - rewrite HR, HE, Hnx, Hla, Hlb. repeat constructor; apply u32_range.
  - exists (u32 (W0 + told s)). by rewrite Ef, Hlb.
  - split; [done|]. split; [rewrite Hql; apply clens_pos|done].
  - rewrite Etot, Et. split; [lia|]. len_lia.
  - lia.
  - by destruct Hm.
  - destruct Ht as (? & ? & ? & _). done.
Qed.

End Session.

(** * A run: five bytes are written and sent; three acknowledgements in a row
    make them go out again; five more are written, and the peer acknowledges
    the first five with three bytes of its own. *)
Section Run.
#[local] Existing Instance good_env.

Definition numbers (i : Z) : Z := i mod 256.
Definition no_cb : TCP Z := mret ERR_OK.
Definition no_error (_ : Z) : TCP () := mret ().
Definition run_start : session := mk_session open_conn 500 [] 0.
Definition run_next : event → session → session := next no_error no_cb no_cb numbers.
Abbreviation run_reach := (reach no_error no_cb no_cb numbers numbers None 500 1000).
Definition run_sent : session := run_next Output (run_next (Write 0 5 TCP_WRITE_FLAG_COPY) run_start).
Definition dup : tcp_seg := peer_seg 1000 500 TCP_ACK [].
Definition run_two : session := run_next (Segment dup) (run_next (Segment dup) run_sent).
Definition run_three : session := run_next (Segment dup) run_two.
Definition run_more : session := run_next (Write 5 5 TCP_WRITE_FLAG_COPY) run_three.
Definition run_reply : tcp_seg := peer_seg 1000 505 TCP_ACK (span numbers 1000 3).
Definition run_end : session := run_next Return (run_next (Segment run_reply) run_more).

Lemma run_opened : opened 500 1000 run_start.
Proof. split; vm_compute; done. Qed.

Lemma run_sent_reach : run_reach true run_sent.
Proof.
  apply (reach_next _ _ _ _ _ _ _ _ true); [|done|vm_compute; done]. apply (reach_next _ _ _ _ _ _ _ _ true); [|done|vm_compute; done].
  apply reach_opened, run_opened.
Qed.

(** An acknowledgement without data. *)
Lemma dup_allowed s :
  - 2147400000 ≤ s32 (500 - lastack (pcb (conn s))) ≤ 2147400000 → - 900000000 ≤ s32 (rcv_ann_right_edge (pcb (conn s)) - rcv_nxt (pcb (conn s))) →
  peer_segment numbers None 1000 dup s.
Proof. intros ? ?. by split. Qed.

Lemma run_two_reach : run_reach true run_two.
Proof.
  apply (reach_next _ _ _ _ _ _ _ _ true); [|split; [done|apply dup_allowed; vm_compute; done]|vm_compute; done].
  apply (reach_next _ _ _ _ _ _ _ _ true); [apply run_sent_reach|split; [done|apply dup_allowed; vm_compute; done]|vm_compute; done].
Qed.

Lemma run_third : allowed numbers None 1000 true (Segment dup) run_two ∧ third_duplicate (Segment dup) run_two.
Proof. split; [split; [done|apply dup_allowed; vm_compute; done]|]. exists dup. split; [done|vm_compute; done]. Qed.

Lemma run_more_reach : run_reach true run_more.
Proof.
  apply (reach_next _ _ _ _ _ _ _ _ true); [|done|vm_compute; done].
  apply (reach_next _ _ _ _ _ _ _ _ true); [apply run_two_reach|apply run_third|vm_compute; done].
Qed.

Lemma run_reply_allowed : peer_segment numbers None 1000 run_reply run_more.
Proof.
  split; try (vm_compute; done). intros _ _. exists 1000. split_and!; [|vm_compute; done..].
  split; [done| |vm_compute; done..]. eexists. by split_and!.
Qed.

Lemma run_end_reach : run_reach true run_end.
Proof.
  apply (reach_next _ _ _ _ _ _ _ _ true); [|done|vm_compute; done].
  apply (reach_next _ _ _ _ _ _ _ _ true); [apply run_more_reach|split; [done|apply run_reply_allowed]|vm_compute; done].
Qed.

Lemma session_never_faults_witness :
  third_duplicate (Segment dup) run_two ∧ ∃ e s', handle no_error no_cb no_cb numbers (Segment dup) run_two = Ok (e, s').
Proof.
  split; [apply run_third|].
  destruct (session_never_faults no_error no_cb no_cb numbers numbers None 500 1000 true (Segment dup) run_two run_two_reach (proj1 run_third))
    as (e & s' & E & _). by exists e, s'.
Defined.

Lemma session_well_formed_witness : well_formed (pcb (conn run_end)).
Proof. apply (session_well_formed no_error no_cb no_cb numbers numbers None 500 1000 true), run_end_reach. Defined.

Lemma session_streams_witness :
  pk_data <$> sent (conn run_end) = [span numbers 500 5; span numbers 500 5; span numbers 505 5] ∧ read run_end = span numbers 1000 3 ∧
  told run_end = 5 ∧ read run_end = span numbers 1000 (zlen (read run_end)).
Proof.
  split; [vm_compute; done|]. split; [vm_compute; done|]. split; [vm_compute; done|].
  apply (session_streams no_error no_cb no_cb numbers numbers None 500 1000 true run_end run_end_reach).
Defined.
End Run.
