(* ===== verification/LwipTcpStates.v ===== *)
(** TCP of lwIP, the state diagram: a segment moves a connection only along
    the edges of RFC 793, and only for the reason the diagram gives. *)
From S2P Require Import Prelude.
From S2P Require Import LwipTcp.
From S2P Require Import LwipTcpOut.
From S2P Require Import LwipTcpApi.
From S2P Require Import LwipTcpIn.
From S2P Require Import LwipTcpProcess.
From S2P Require Import LwipTcpExamples.
From S2P Require Import LwipTcpSeq.
From S2P Require Import LwipTcpKept.
From S2P Require Import LwipTcpOptions.
From S2P Require Import LwipTcpRx.
From S2P Require Import LwipTcpOutput.
From S2P Require Import LwipTcpFrame.

(** The edges a segment can make a connection take; [opens]: it acknowledges
    our SYN; [fin]: the peer's FIN is received; [done]: all that was sent is
    acknowledged. *)
Definition moves (opens fin done : Prop) (st st' : tcp_state) : Prop :=
  match st, st' with
  | SYN_SENT, ESTABLISHED | SYN_RCVD, ESTABLISHED => opens
  | SYN_RCVD, CLOSE_WAIT => opens ∧ fin
  | ESTABLISHED, CLOSE_WAIT => fin
  | FIN_WAIT_1, FIN_WAIT_2 => done
  | FIN_WAIT_1, CLOSING => fin
  | FIN_WAIT_1, TIME_WAIT => fin ∧ done
  | FIN_WAIT_2, TIME_WAIT => fin
  | CLOSING, TIME_WAIT => done
  | _, _ => st' = st
  end.

(** The segment of [s] acknowledges the SYN we sent. *)
Definition opens (s : tcp) : Prop :=
  has (flags s) TCP_ACK = true ∧
  match state (pcb s) with
  | SYN_SENT => has (flags s) TCP_SYN = true ∧ ackno s = u32 (lastack (pcb s) + 1)
  | SYN_RCVD => TCP_SEQ_BETWEEN (ackno s) (lastack (pcb s) + 1) (snd_nxt (pcb s)) = true
  | _ => False
  end.

Definition got (s : tcp) : Prop := has (recv_flags s) TF_GOT_FIN = true.

Section States.
Context `{TcpEnv}.

(** Still in [st], or left open state for the FIN; the same segment. *)
Definition within (st : tcp_state) (s0 s : tcp) : Prop :=
  (state (pcb s) = st ∨ st = ESTABLISHED ∧ state (pcb s) = CLOSE_WAIT ∧ got s) ∧ flags s = flags s0 ∧ ackno s = ackno s0.

Lemma within_same st s0 s s' :
  within st s0 s → state (pcb s') = state (pcb s) → recv_flags s' = recv_flags s → flags s' = flags s → ackno s' = ackno s →
  within st s0 s'.
Proof. unfold within, got. by intros ? -> -> -> ->. Qed.

Lemma within_view st s0 s s' : within st s0 s → out_view s' = out_view s → within st s0 s'.
Proof.
  intros Hw Hv. apply (within_same _ _ s); [done|exact (f_equal (λ t, state (pcb t)) Hv)|exact (f_equal recv_flags Hv)|
    exact (f_equal flags Hv)|exact (f_equal ackno Hv)].
Qed.

Lemma send_empty_ack_within st s0 s : within st s0 s → wlp tcp_send_empty_ack (λ _, within st s0) s.
Proof.
  intros Hw. apply wlp_of_wp. eapply wp_mono; [apply send_empty_ack_ok|]. intros e s1 [Hv _].
  apply (within_same _ _ s); [done|exact (f_equal (λ t, state (pcb t)) Hv)|exact (f_equal recv_flags Hv)|
    exact (f_equal flags Hv)|exact (f_equal ackno Hv)].
Qed.

Lemma within_closed st s0 : data_closed (within st s0).
Proof.
  split.
  - intros. by eapply within_same.
  - intros s [[?|(? & ? & Hg)] ?]; (split; [|done]); [by left|]. right. split; [done|]. split; [done|].
    unfold got, TF_GOT_FIN in *. get_set. change 32 with (2 ^ 5) in *.
    rewrite has_bit, Z.lor_spec, Z.pow2_bits_true by lia. by rewrite orb_true_r.
  - intros s [Hst ?] He Hf. split; [|done]. right. split; [|done]. destruct Hst as [<-|(? & ? & _)]; [done|congruence].
  - intros s. apply send_empty_ack_within.
Qed.

Lemma within_pcb st s0 s f : within st s0 s → state (f (pcb s)) = state (pcb s) → within st s0 (s <| pcb ::= f |>).
Proof. intros. by apply (within_same _ _ s). Qed.

(** ** Acknowledgements *)

Lemma rexmit_state p : state (tcp_rexmit p) = state p.
Proof. unfold tcp_rexmit, rexmit_started. destruct (unacked p); [done|]. get_set. by destruct (_ <? _). Qed.

Lemma keeps_state p p' : ack_keeps p p' → state p' = state p.
Proof. by intros [[=] _ _ _]. Qed.

Lemma receive_ack_within st s0 s : within st s0 s → wlp receive_ack (λ _, within st s0) s.
Proof.
  intros Hw. unfold receive_ack. do 10 tlp_step. cbv zeta. do 2 tlp_step. apply wlp_bind.
  assert (within st s0 (s <| pcb ::= update_snd_wnd (seqno s) (ackno s) (h_wnd (seg_hdr (inseg s))) |>)) as Hw1
    by (apply within_pcb; [done|apply keeps_state, update_snd_wnd_keeps]).
  eapply (wlp_mono _ (λ _, within st s0)); [repeat apply wlp_case|].
  - tlp_step. apply within_pcb; [done|apply keeps_state, ack_old_keeps].
  - unfold ack_segments. repeat tlp_step. apply (within_same _ _ _ _ Hw1); try done. get_set.
    by rewrite (keeps_state _ _ (free_unacked_keeps _ _ _ _ _ eq_refl Elift0)), (keeps_state _ _ (ack_new_keeps _ _ _ Elift)).
  - tlp_step. eapply wlp_mono; [by apply send_empty_ack_within|]. intros e s1 Hw2. by wlp_step.
  - intros [] s1 Hw2. unfold ack_unsent. repeat tlp_step. apply (within_same _ _ _ _ Hw2); try done. get_set.
    rewrite (keeps_state _ _ (estimate_rtt_keeps _ _ _)). get_set. by rewrite (keeps_state _ _ (free_unsent_keeps _ _ _ _ _ eq_refl Elift)).
Qed.

Lemma tcp_receive_within st s0 s : within st s0 s → wlp tcp_receive (λ _, within st s0) s.
Proof.
  intros Hw. unfold tcp_receive, LWIP_ASSERT. do 6 tlp_step; [|by tlp_step]. do 2 tlp_step.
  eapply (wlp_mono _ (λ _, within st s0)); [apply wlp_case; [by apply receive_ack_within|by tlp_step]|].
  intros [] s1 Hw1. cbv beta in Hw1. do 6 tlp_step. repeat apply wlp_case.
  - by apply (receive_data_kept _ (within_closed st s0)).
  - tlp_step. by apply within_pcb.
  - by tlp_step.
Qed.

(** ** Options *)

(** The parser changes nothing but the maximum segment size. *)
Definition only_mss (s s' : tcp) : Prop := ∃ m, parsed m s s'.

Lemma only_mss_trans s s1 s2 : only_mss s s1 → only_mss s1 s2 → only_mss s s2.
Proof. intros [m1 H1] [m2 H2]. exists m2. by eapply parsed_trans. Qed.
Lemma only_mss_idx s i : only_mss s (s <| tcp_optidx := i |>).
Proof. eexists. apply parsed_idx. Qed.

Lemma getoptbyte_mss s : wlp tcp_getoptbyte (λ _, only_mss s) s.
Proof.
  unfold tcp_getoptbyte. do 10 tlp_step. destruct (tcphdr_opt2 s); repeat tlp_step; apply only_mss_idx.
Qed.

Lemma parseopt_loop_mss fuel : ∀ s0 s, only_mss s0 s → wlp (parseopt_loop fuel) (λ _, only_mss s0) s.
Proof.
  induction fuel as [|fuel IH]; intros s0 s Hw; cbn [parseopt_loop]; [by tlp_step|].
  assert (∀ k s1, only_mss s0 s1 → (∀ x s2, only_mss s0 s2 → wlp (k x) (λ _ : (), only_mss s0) s2) →
    wlp (tcp_getoptbyte ≫= k) (λ _, only_mss s0) s1) as Hread.
  { intros k s1 Hw1 Hk. tlp_step. eapply wlp_mono; [apply getoptbyte_mss|]. intros x s2 Hw2. apply Hk. by eapply only_mss_trans. }
  do 5 tlp_step; [|by tlp_step]. apply Hread; [done|]. intros opt s1 Hw1. repeat apply wlp_case.
  - by tlp_step.
  - by apply IH.
  - apply Hread; [done|]. intros len s2 Hw2. do 3 tlp_step; [by tlp_step|]. apply Hread; [done|]. intros hi s3 Hw3.
    apply Hread; [done|]. intros lo s4 [m [i ->]]. cbv zeta. do 2 tlp_step. apply IH. eexists. exists i. reflexivity.
  - apply Hread; [done|]. intros len s2 [m Hw2]. tlp_step; [tlp_step; by exists m|]. do 2 tlp_step. apply IH. exists m.
    by apply parsed_set_idx.
Qed.

Lemma parseopt_mss s : wlp tcp_parseopt (λ _, only_mss s) s.
Proof.
  unfold tcp_parseopt. do 3 tlp_step; [|tlp_step; by exists (mss (pcb s)); apply parsed_same]. do 2 tlp_step.
  apply parseopt_loop_mss, only_mss_idx.
Qed.

(** ** Calls that only send *)

(** [m] does not change the state, nor the variables of the segment. *)
Definition calm {A} (m : TCP A) : Prop := ∀ s, wlp m (λ _ s', state (pcb s') = state (pcb s) ∧ recv_flags s' = recv_flags s ∧
  flags s' = flags s ∧ ackno s' = ackno s ∧ snd_nxt (pcb s') = snd_nxt (pcb s)) s.

Lemma calm_within {A} (m : TCP A) st s0 s : calm m → within st s0 s → wlp m (λ _, within st s0) s.
Proof. intros Hm Hw. eapply wlp_mono; [apply Hm|]. intros a s' (? & ? & ? & ? & _). by apply (within_same _ _ _ _ Hw). Qed.

Lemma rst_calm a b c d e f : calm (tcp_rst a b c d e f).
Proof.
  intros s. unfold tcp_rst, ip_output, ask. do 7 tlp_step; [by tlp_step|]. cbv zeta. repeat tlp_step; by get_set.
Qed.

Lemma rst_reply_calm : calm rst_reply.
Proof. intros s. unfold rst_reply. do 8 tlp_step. apply rst_calm. Qed.

Lemma checked_calm m : calm m → calm (checked m).
Proof.
  intros Hm s. unfold checked. tlp_step. eapply wlp_mono; [apply Hm|]. intros e s1 H1. by repeat tlp_step.
Qed.
Lemma tcp_output_state s : wlp tcp_output (λ _ s', state (pcb s') = state (pcb s)) s.
Proof.
  eapply wlp_mono; [apply (tcp_output_edged (rcv_nxt (pcb s)) (rcv_ann_wnd (pcb s)) (rcv_ann_right_edge (pcb s)) (state (pcb s)))|].
  - unfold edged. auto.
  - by intros e s' (_ & _ & ? & _).
Qed.

Lemma rexmit_rto_state s : wlp tcp_rexmit_rto (λ _ s', state (pcb s') = state (pcb s)) s.
Proof.
  unfold tcp_rexmit_rto. do 2 tlp_step. case_bool_decide; [by tlp_step|]. do 5 tlp_step.
  eapply wlp_mono; [apply tcp_output_state|]. intros e s1 E. tlp_step. cbv beta in E. rewrite E. get_set. unfold rexmit_started.
  get_set. by destruct (_ <? _).
Qed.

(** ** One segment *)

Lemma moves_refl o f d st : moves o f d st st.
Proof. by destruct st. Qed.

Definition moved (s s' : tcp) : Prop :=
  moves (opens s) (got s') (ackno s = snd_nxt (pcb s')) (state (pcb s)) (state (pcb s')).

Lemma moved_same s s' : state (pcb s') = state (pcb s) → moved s s'.
Proof. intros E. unfold moved. rewrite E. apply moves_refl. Qed.

Lemma enter_time_wait_ok s : wlp enter_time_wait (λ _ s', state (pcb s') = TIME_WAIT ∧ snd_nxt (pcb s') = snd_nxt (pcb s) ∧
  recv_flags s' = recv_flags s) s.
Proof.
  unfold enter_time_wait, TCP_RMV, TCP_REG. repeat tlp_step. get_set. split; [done|]. split; [|done].
  unfold tcp_pcb_purge. by case_bool_decide.
Qed.

Lemma all_acked_ok s : wlp all_acked (λ b s', s' = s ∧ (b = true → ackno s = snd_nxt (pcb s))) s.
Proof.
  unfold all_acked. repeat tlp_step. split; [done|]. intros Hb. apply andb_prop in Hb as [Hb _]. apply andb_prop in Hb as [_ Hb]. by apply Z.eqb_eq.
Qed.
Lemma passive_close_ok s : wlp passive_close (λ _ s', recv_flags s' = recv_flags s ∧
  (state (pcb s') = state (pcb s) ∨ state (pcb s') = CLOSE_WAIT ∧ got s)) s.
Proof. unfold passive_close, got. do 2 tlp_step. destruct (has _ _) eqn:E; repeat tlp_step; (split; [done|]); get_set; auto. Qed.

Lemma process_state_moved s : state (pcb s) ∉ [SYN_SENT; SYN_RCVD] → wlp process_state (λ _, moved s) s.
Proof.
  intros Hst. unfold process_state. do 2 tlp_step.
  assert (within (state (pcb s)) s s) as Hw by (split; auto).
  assert (∀ st k, state (pcb s) = st → st ≠ ESTABLISHED →
    (∀ s1, state (pcb s1) = st → ackno s1 = ackno s → wlp (k : TCP ()) (λ _, moved s) s1) → wlp (tcp_receive;; k) (λ _, moved s) s) as Hrec.
  { intros st k <- Hne Hk. tlp_step. eapply wlp_mono; [by apply (tcp_receive_within (state (pcb s)) s)|]. intros [] s1 ([E|[? _]] & _ & Ea); [|done].
    by apply Hk. }
  destruct (state (pcb s)) eqn:Es; try (by tlp_step; apply moved_same).
  - tlp_step. eapply wlp_mono; [by apply (tcp_receive_within ESTABLISHED s)|]. intros [] s1 (Hst1 & _ & Ea).
    eapply wlp_mono; [apply passive_close_ok|]. intros [] s2 [Er Hst2]. unfold moved, got in *. rewrite Es.
    destruct Hst2 as [E2|[E2 Hg]]; [|by rewrite E2, Er]. destruct Hst1 as [E1|(_ & E1 & Hg)]; rewrite E2, E1; [apply moves_refl|]. by rewrite Er.
  - apply (Hrec FIN_WAIT_1); [done..|]. intros s1 E1 Ea. do 3 tlp_step. eapply wlp_mono; [apply all_acked_ok|].
    intros b s2 [-> Hb]. destruct (has (recv_flags s1) TF_GOT_FIN) eqn:Eg.
    + do 2 tlp_step. destruct b.
      * eapply wlp_mono; [apply enter_time_wait_ok|]. intros [] s2 (E2 & En & Er). unfold moved, got. rewrite Es, E2. split.
        -- by rewrite Er.
        -- rewrite En, <- Ea. by apply Hb.
      * tlp_step. unfold moved, got. rewrite Es. get_set. done.
    + destruct b; tlp_step; [|by apply moved_same; rewrite E1].
      unfold moved, got. rewrite Es. get_set. cbn. rewrite <- Ea. by apply Hb.
  - apply (Hrec FIN_WAIT_2); [done..|]. intros s1 E1 Ea. do 2 tlp_step. destruct (has (recv_flags s1) TF_GOT_FIN) eqn:Eg.
    + do 2 tlp_step. eapply wlp_mono; [apply enter_time_wait_ok|]. intros [] s2 (E2 & En & Er). unfold moved, got. rewrite Es, E2.
      by rewrite Er.
    + tlp_step. apply moved_same. by rewrite E1.
  - apply (Hrec CLOSE_WAIT); [done..|]. intros s1 E1 Ea. eapply wlp_mono; [apply passive_close_ok|]. intros [] s2 [Er Hst2].
    apply moved_same. rewrite Es. destruct Hst2 as [-> | [-> _]]; done.
  - apply (Hrec CLOSING); [done..|]. intros s1 E1 Ea. tlp_step. eapply wlp_mono; [apply all_acked_ok|].
    intros b s2 [-> Hb]. destruct b; [|tlp_step; apply moved_same; by rewrite E1].
    eapply wlp_mono; [apply enter_time_wait_ok|]. intros [] s2 (E2 & En & Er). unfold moved, got. rewrite Es, E2. cbn.
    rewrite En, <- Ea. by apply Hb.
  - apply (Hrec LAST_ACK); [done..|]. intros s1 E1 Ea. tlp_step. eapply wlp_mono; [apply all_acked_ok|].
    intros b s2 [-> Hb]. unfold tcp_trigger_input_pcb_close.
    destruct b; [apply wlp_modify|tlp_step]; apply moved_same; rewrite Es; exact E1.
Qed.
(** The answers of the application are not among the edges. *)
Variable app_err : Z → TCP ().
Variable app_connected : TCP Z.
Variable app_accept : TCP Z.
Hypothesis connected_calm : calm app_connected.
Hypothesis accept_calm : calm app_accept.

(** [s'] has the state and the segment of [s]. *)
Definition same_segment (s s' : tcp) : Prop :=
  state (pcb s') = state (pcb s) ∧ lastack (pcb s') = lastack (pcb s) ∧ snd_nxt (pcb s') = snd_nxt (pcb s) ∧
  flags s' = flags s ∧ ackno s' = ackno s.

Lemma moved_from s s1 s' : same_segment s s1 → moved s1 s' → moved s s'.
Proof. intros (E1 & E2 & E3 & E4 & E5). unfold moved, opens. by rewrite E1, E2, E3, E4, E5. Qed.

Lemma process_rst_moved s : wlp process_rst (λ _, moved s) s.
Proof.
  unfold process_rst, LWIP_ASSERT. repeat tlp_step; apply moved_same; get_set; [done|by destruct (_ && _)].
Qed.

Lemma free_syn_state p p' : free_syn p = Ok p' → state p' = state p.
Proof.
  unfold free_syn. destruct (negb _); [done|]. get_set. destruct (unacked p); [destruct (unsent p)|]; intros E; try discriminate E;
    cbn in E; revert E; case_bool_decide; intros [= <-]; by get_set.
Qed.

Lemma process_syn_sent_moved s : state (pcb s) = SYN_SENT → wlp (process_syn_sent app_connected) (λ e s', e ≠ ERR_ABRT → moved s s') s.
Proof using connected_calm.
  intros Es. unfold process_syn_sent. do 10 tlp_step. destruct (_ && _ && _) eqn:Ec.
  - apply andb_prop in Ec as [Ef Ea]. apply andb_prop in Ef as [Ef Ey]. apply Z.eqb_eq in Ea.
    assert (opens s) as Ho by (unfold opens; by rewrite Es).
    assert (∀ s', state (pcb s') = ESTABLISHED → moved s s') as Hend by (intros s' E; unfold moved; by rewrite Es, E).
    tlp_step. tlp_step. tlp_step. eapply (wlp_mono _ (λ _ s', state (pcb s') = ESTABLISHED)).
    { unfold tcp_eff_send_mss, ask. repeat tlp_step; by get_set. }
    intros m s1 E1. do 6 tlp_step. apply free_syn_state in Elift. do 3 tlp_step.
    unfold TCP_EVENT_CONNECTED.
    eapply (wlp_mono _ (λ _ s', state (pcb s') = ESTABLISHED)).
    { do 2 tlp_step. destruct (cb_connected _); [|tlp_step; get_set; by rewrite Elift].
      eapply wlp_mono; [by apply checked_calm|]. intros e s2 (E2 & _). rewrite E2. get_set. by rewrite Elift. }
    intros e s2 E2. tlp_step; [by tlp_step|]. repeat tlp_step. intros _. by apply Hend.
  - tlp_step. eapply (wlp_mono _ (λ _ s', state (pcb s') = SYN_SENT)).
    + tlp_step; [|by tlp_step]. tlp_step. eapply wlp_mono; [apply rst_reply_calm|]. intros e s1 (E1 & _). do 3 tlp_step; [|tlp_step; by rewrite E1].
      do 2 tlp_step. eapply wlp_mono; [apply rexmit_rto_state|]. intros [] s2 E2. cbv beta in E2. rewrite E2. get_set. by rewrite E1.
    + intros [] s1 E1. tlp_step. intros _. apply moved_same. by rewrite E1, Es.
Qed.

Lemma process_syn_rcvd_moved s :
  state (pcb s) = SYN_RCVD → wlp (process_syn_rcvd app_err app_accept) (λ e s', e ≠ ERR_ABRT → moved s s') s.
Proof using accept_calm.
  intros Es. unfold process_syn_rcvd. do 8 tlp_step. destruct (has (flags s) TCP_ACK) eqn:Ef.
  2: { tlp_step. eapply (wlp_mono _ (λ _ s', state (pcb s') = SYN_RCVD)).
    - tlp_step; tlp_step; [|done]. get_set. by rewrite rexmit_state.
    - intros [] s1 E1. tlp_step. intros _. apply moved_same. by rewrite E1, Es. }
  destruct (TCP_SEQ_BETWEEN _ _ _) eqn:Eb.
  2: { tlp_step. eapply wlp_mono; [apply rst_reply_calm|]. intros e s1 (E1 & _). tlp_step. intros _. by apply moved_same. }
  assert (opens s) as Ho by (unfold opens; by rewrite Es). do 3 tlp_step.
  assert (within ESTABLISHED (s <| pcb ::= λ p, p <| state := ESTABLISHED |> |>) (s <| pcb ::= λ p, p <| state := ESTABLISHED |> |>)) as Hw
    by (split; [by left|done]).
  eapply (wlp_mono _ (λ _, within ESTABLISHED (s <| pcb ::= λ p, p <| state := ESTABLISHED |> |>))).
  { destruct (listener _); [apply calm_within; [by apply checked_calm|done]|by tlp_step]. }
  intros e s1 Hw1. tlp_step; [apply wlp_bind; intros [] ? _; apply wlp_ret; done|]. tlp_step. eapply wlp_mono; [by apply tcp_receive_within|].
  intros [] s2 (Hst2 & _). do 5 tlp_step. eapply wlp_mono; [apply passive_close_ok|]. intros [] s3 [Er Hst3]. tlp_step. intros _.
  unfold moved, got in *. rewrite Es. get_set_in Er. get_set_in Hst3.
  destruct Hst3 as [E3|[E3 Hg]]; [|by rewrite E3, Er]. destruct Hst2 as [E2|(_ & E2 & Hg)]; rewrite E3, E2; [done|]. by rewrite Er.
Qed.

(** (C8) [tcp_process] moves the connection only along the edges of the state
    diagram: it opens only when the segment acknowledges our SYN, closes the
    receiving half only when [tcp_receive] has got the FIN of the peer
    ([TF_GOT_FIN]), and leaves FIN_WAIT_1 and CLOSING for FIN_WAIT_2 and
    TIME_WAIT only when the segment acknowledges all that was sent; no other
    segment changes the state, whatever its flags, numbers and options.  The
    application of [connected] and [accept] may do anything that keeps the
    state and the segment; an aborted connection (ERR_ABRT) has no state. *)
Theorem tcp_process_moves s :
  wlp (tcp_process app_err app_connected app_accept) (λ e s', e ≠ ERR_ABRT → moved s s') s.
Proof using connected_calm accept_calm.
  unfold tcp_process. do 7 tlp_step.
  { eapply wlp_mono; [apply process_rst_moved|]. auto. }
  tlp_step; [do 3 tlp_step; intros _; by apply moved_same|]. do 3 tlp_step.
  set (s1 := s <| pcb ::= _ |>). eapply wlp_mono; [apply parseopt_mss|]. intros [] s2 [m [i Es2]].
  assert (same_segment s s2) as Hsame by (subst s2 s1; unfold same_segment; get_set; by destruct (has _ _)).
  pose proof Hsame as [Est _].
  destruct (state (pcb s)) eqn:Es; (eapply (wlp_mono _ (λ e s', e ≠ ERR_ABRT → moved s2 s'));
    [|intros e s' Hm He; by eapply moved_from, Hm]); try (by apply process_syn_sent_moved); try (by apply process_syn_rcvd_moved);
    tlp_step; (eapply wlp_mono; [apply process_state_moved; rewrite Est; by intros [?|[?|?%elem_of_nil]%elem_of_cons]%elem_of_cons|]); intros [] s3 H3; by tlp_step.
Qed.
End States.

(** * A run: the peer acknowledges our FIN and sends its own *)
Section Run.
#[local] Existing Instance good_env.

Lemma ret_calm {A} (a : A) : calm (mret a).
Proof. by intros s a' s' [= _ <-]. Qed.

Definition closing : tcp := open_conn <| pcb ::= λ p, p <| state := FIN_WAIT_1 |> <| snd_nxt := 501 |> |>.
Definition last_segment : tcp := arrive (peer_seg 1000 501 (Z.lor TCP_FIN TCP_ACK) []) closing.
Definition no_err (_ : Z) : TCP () := mret ().
Definition yes : TCP Z := mret ERR_OK.
Definition closed : tcp := after (tcp_process no_err yes yes) last_segment.

Lemma moved_time_wait s s' : moved s s' → state (pcb s) = FIN_WAIT_1 → state (pcb s') = TIME_WAIT →
  got s' ∧ ackno s = snd_nxt (pcb s').
Proof. unfold moved. by intros Hm E1 E2; rewrite E1, E2 in Hm. Qed.

Lemma closed_val :
  tcp_process no_err yes yes last_segment = Ok (ERR_OK, ltac:(let v := eval vm_compute in closed in exact v)).
Proof. vm_compute. reflexivity. Qed.
Lemma closed_runs : ∃ s', tcp_process no_err yes yes last_segment = Ok (ERR_OK, s') ∧ state (pcb s') = TIME_WAIT.
Proof. eexists. split; [apply closed_val|done]. Qed.

Lemma tcp_process_moves_witness :
  state (pcb last_segment) = FIN_WAIT_1 ∧ ∃ s', tcp_process no_err yes yes last_segment = Ok (ERR_OK, s') ∧
  state (pcb s') = TIME_WAIT ∧ got s' ∧ ackno last_segment = snd_nxt (pcb s').
Proof.
  split; [done|]. destruct closed_runs as (s' & E & Es). exists s'. split; [exact E|]. split; [exact Es|].
  apply (moved_time_wait last_segment s'); [|done|exact Es].
  exact (tcp_process_moves no_err yes yes (ret_calm _) (ret_calm _) last_segment _ _ E ltac:(done)).
Defined.
End Run.
